(* ===== verification/_CoqProject ===== *)
-Q . S2P
Prelude.v
Address.v
Bitmap.v
Tracking.v
PhysicalMemory.v
MappedMemory.v
Heap.v
HeapSpec.v
Collections.v
RingBuffer.v
Api.v
DriverProtocol.v
Pipes.v
PipeLifecycle.v
FatDisk.v
FatHash.v
FatCache.v
FatTable.v
FatEntry.v
FatFile.v
FatFileSpec.v
FatDir.v
FatDirSpec.v
FatDriver.v
FatDriverSpec.v
FatServer.v
Tasks.v
Scheduler.v
SchedulerSpec.v
NetPacket.v
Ipv4.v
NetTransport.v
Utf8.v
Tcp.v
TcpSpec.v
TcpStream.v
Sockets.v
SocketsSpec.v
TcpHandshake.v
Outcome.v
Dhcp.v
Dns.v
NetDevice.v
NetDeviceSpec.v
Random.v
Executor.v
Resident.v
ResidentSpec.v
Mmu.v
Paging.v
MmuSpec.v
PagingSpec.v
VmInvariant.v
AddressSpaces.v
Sharing.v
PagingProps.v
