(* ===== verification/Prelude.v ===== *)
(** * IDOS-NX: verification development

    IDOS-NX is a small operating system for i386 PCs written in Rust: a kernel
    with virtual memory, tasks on several cores, asynchronous IO and pipes,
    and drivers that run as tasks, among them the FAT12 file system driver.
    This library models a part of it as Rocq functions and step relations and
    proves what makes that part correct.

    ** Conventions

    The code is built with [--release] for i386, so [usize] has 32 bits and
    [+], [-] and [*] wrap; an unsigned integer of w bits is a [Z] below 2^w and
    the wrap-around is written out ([u8], [u16], [u32]).  A panic is [None] of
    the option monad, a Rust [Result] is [result].  State is passed
    explicitly; a static variable is a field of the state record of its
    component, and a lock is the atomicity of a step.  A loop whose bound is
    not structural has fuel.  The fuel of every loop is computed from its
    data, except for the allocator of the heap, for which three rounds are
    proved to be enough, and the walks along chains of the FAT, which take it
    as an argument: there running out of fuel is [None], the theorems prove that a
    fuel above the length of the chain gives a result, and
    [empty_file_read_diverges] that in one case no fuel does.  Code that is
    not part of the repository, which is the block device of the FAT driver,
    is the class [DiskIO] with the laws [DiskIOLaws]; the theorems that use
    them have witnesses on a concrete device.

    ** Memory

    - [Address]: addresses, page table entries and page iteration
      ([kernel/src/memory/address.rs], [virt/page_entry.rs],
      [virt/page_iter.rs]).
    - [Bitmap]: the frame bitmap with the BIOS memory map
      ([memory/physical/bitmap.rs], [range.rs], [bios.rs]).  First fit, range
      operations and loading of the map are specified by the set of used
      frames.
    - [Tracking]: the radix tree of reference counts
      ([memory/physical/tracking.rs]), proved to be a finite map.
    - [PhysicalMemory]: the global allocator and tracker together
      ([memory/physical/mod.rs]) as a state machine; a frame that is in use is
      never handed out, and the last release frees it.
    - [MappedMemory]: the map of a task's address space
      ([kernel/src/task/memory.rs]): placement, mapping and unmapping with
      splitting of regions, specified page by page, and two cases in which
      the code does not refuse a request it should.

    - [Mmu]: page tables in physical memory, the walk of the hardware and its
      translation buffer, the recursive mapping and the scratch pages
      ([memory/virt/page_table.rs], [scratch.rs]).  [Paging]: the address
      spaces of the tasks over the three parts above ([task/paging.rs],
      [task/actions/memory.rs], [memory/shared.rs], [task/switching.rs]).
    - [MmuSpec], [PagingSpec]: what the calls on page tables do to the words
      of memory and to the translations.  [VmInvariant]: the invariant of
      frames and tables (a frame of a table is mapped into no user page, a
      mapped frame is in use, a count is the number of pages).
      [AddressSpaces], [Sharing]: every memory call keeps it, with the effect
      of each.  [PagingProps]: the theorems over all runs: isolation, clean
      memory on a fault, release at the end of a task, shared buffers, and two
      runs in which the code leaves this frame.

    - [Heap], [HeapSpec]: the kernel heap ([memory/heap]), whose headers are
      words inside the memory it manages.  The heap is described as a row of
      tiles; live blocks stay disjoint over any history, the allocator
      returns after growing the heap at most twice, and two of its defects
      are shown on small heaps.

    ** IO

    - [Collections]: slot lists, reference counts, handle and IO tables
      ([kernel/src/collections], [kernel/src/io/handle.rs], [async_io.rs]),
      proved to be finite maps.
    - [RingBuffer]: the lock-free ring buffer ([collections/ringbuffer.rs]),
      sequentially and under all interleavings of a reader and a writer.
    - [Api]: error codes and the encoding of results ([api/src/io]).
    - [DriverProtocol]: the messages between the kernel and a driver task
      ([api/src/io/driver.rs], [kernel/src/io/driver/comms.rs]); encoding and
      decoding are inverse.
    - [Pipes], [PipeLifecycle]: the pipe and the pipe driver
      ([kernel/src/pipes/driver.rs]): first in first out delivery over any
      history, and the life cycle of the ends of a pipe.

    ** The FAT driver

    All of [components/drivers/fatdriver/src].
    - [FatDisk]: the sector cache ([disk.rs]); [FatHash]: its hash table with
      linear probing; [FatCache]: the whole cache behaves as an array of
      bytes, written to the device by [flush_all].  The rest of
      the driver is proved against the interface [Disk] with its laws
      [DiskLaws], of which the cache is an instance.
    - [FatTable]: the packed allocation table ([table.rs], [bpb.rs]).
    - [FatEntry]: directory entries, names and dates ([dir.rs]).
    - [FatFile], [FatFileSpec]: reading and writing of files ([dir.rs]).  The
      specification gives the bytes of the file, the chain of clusters and
      what stays untouched on the volume.
    - [FatDir], [FatDirSpec]: the root directory, subdirectories and paths.
    - [FatDriver], [FatDriverSpec]: the calls of the driver ([driver.rs],
      [fs.rs]) in a state monad: open with creation, unlink.
    - [FatServer]: the driver as an implementation of the message protocol
      ([main.rs]), and a request followed on its whole way from the kernel
      through the driver to the disk and back.

    ** Tasks

    - [Tasks]: the run state of a task and its message queue
      ([kernel/src/task/state.rs], [messaging.rs]).
    - [Scheduler]: the work queue, the switch cut into its atomic pieces,
      blocking, waking, creation and end of tasks, and futexes
      ([task/scheduling/mod.rs], [task/switching.rs], [sync/futex.rs],
      [task/actions]).
    - [SchedulerSpec]: the steps of all cores interleave.  No task is lost or
      duplicated as long as it is only woken after its core has switched
      away from it, and the code does not ensure that condition; what one
      switch and one futex wake-up do.

    ** Network

    All of [kernel/src/net], with [kernel/src/executor] and
    [kernel/src/random.rs].  What a call does to other tasks (completing an
    op, copying to a user buffer, queueing a packet) is a list of effects it
    returns.
    - [NetPacket]: the class [PacketHeader] of headers with their bytes in
      memory, and the headers of Ethernet and ARP ([net/protocol/packet.rs],
      [ethernet.rs], [arp.rs], [net/hardware.rs]); [Ipv4]: addresses and their
      text, checksums and the IP header ([ipv4.rs], [checksum.rs]), the
      checksum against RFC 1071; [NetTransport]: UDP datagrams and TCP packets
      ([udp.rs], [tcp/header.rs]).
    - [Utf8]: the lossy decoding of the Rust library, used for names.
    - [Tcp]: a TCP connection ([tcp/connection.rs]); [TcpSpec]: types and the
      completion of ops; [TcpStream]: the bytes a reader gets are the bytes
      of the remote stream, and a write arrives.
    - [Sockets], [SocketsSpec]: the socket layer ([net/socket]): the tables
      stay consistent under all calls and packets, so none panics, ports are
      isolated and bound once.  [TcpHandshake]: opening a connection.
    - [Outcome]: results of loops that may panic or not end: [Done], [Panic],
      [OutOfFuel].
    - [Dhcp], [Dns]: the two protocols ([dhcp.rs], [dns.rs]).  The loop over
      DHCP options has the length of the options as fuel; for DNS names a fuel
      of one more than the length of the packet is proved to be exact: a loop
      that is still running then never ends.
    - [NetDevice], [NetDeviceSpec]: the receive path of a device
      ([net/netdevice.rs]) and exactly which frames stop it.
    - [Random]: the entropy pool and the generator ([random.rs]), compared
      with ChaCha20.
    - [Executor]: futures, wakers and polling ([executor/mod.rs]); no wakeup
      is lost.
    - [Resident], [ResidentSpec]: the network task ([net/resident.rs]), and
      the way from the registration of a device to its address.  The loop of
      [dns_lookup] that waits for an answer takes its bound as an argument.

    ** Not modelled

    - Assembly and hardware: the boot loader, the register switch, interrupt
      and system call entry, segment tables, ACPI, the APIC, timers, the
      serial port, the VGA, keyboard and disk controllers, the E1000, floppy
      and SB16 drivers.  What they do is defined by the machine, not by this
      code.
    - The page directory of the boot ([memory/virt/mod.rs]), which the idle
      task keeps, and the mapping of files up to the request to the driver.
    - The console and terminals, the
      virtual file systems and IO providers, the loaders of executables, the
      time sources, the C library, the SDK, the DOS layer and the
      user programs.  They are separate from the parts above, which do not
      depend on their results.
    - Timing: interrupts are steps that may happen at any time, and no
      theorem is about how long something takes.  The scheduler model takes
      the locks of the code as they are and does not model contention. *)

From Stdlib Require Export ZArith Lia Bool.
From stdpp Require Export prelude numbers list gmap sorting.

#[global] Open Scope Z_scope.

(** ** Errors and panics

    A Rust [Result] is a value of [result].  A Rust panic (an index out of
    bounds, [unwrap] on [None], an explicit [panic!]) is [None] of the [option]
    monad, so an operation that may panic and also returns an [Option] has
    type [option (option A * state)]. *)

Inductive result (A E : Type) : Type :=
| Ok (a : A)
| Err (e : E).
Arguments Ok {A E} _.
Arguments Err {A E} _.

Definition is_ok {A E} (r : result A E) : bool :=
  match r with Ok _ => true | Err _ => false end.

(** ** Machine integers

    The program is built with [--release] for i386: [usize] has 32 bits and
    [+], [-], [*] wrap.  A w-bit unsigned integer is a [Z] in [0, 2^w). *)

Definition u8 (x : Z) : Z := x mod 2 ^ 8.
Definition u16 (x : Z) : Z := x mod 2 ^ 16.
Definition u32 (x : Z) : Z := x mod 2 ^ 32.
Definition u64 (x : Z) : Z := x mod 2 ^ 64.

(** [saturating_sub] of an unsigned type. *)
Definition saturating_sub (a b : Z) : Z := Z.max 0 (a - b).

(** [!x] on an unsigned type of [w] bits. *)
Definition bnot (w x : Z) : Z := 2 ^ w - 1 - x.

Definition is_u8 (x : Z) : Prop := 0 <= x < 2 ^ 8.
Definition is_u16 (x : Z) : Prop := 0 <= x < 2 ^ 16.
Definition is_u32 (x : Z) : Prop := 0 <= x < 2 ^ 32.

(** [x.to_be()] and [u16::from_be(x)] on a little-endian machine. *)
Definition u16_swap (x : Z) : Z := (x mod 256) * 256 + x / 256.
Definition u32_swap (x : Z) : Z :=
  (x mod 256) * 2 ^ 24 + (x / 256 mod 256) * 2 ^ 16 +
  (x / 2 ^ 16 mod 256) * 256 + x / 2 ^ 24.

Declare Scope rust_scope.
Delimit Scope rust_scope with rust.
Notation "x .& y" := (Z.land x y) (at level 40, left associativity) : rust_scope.
Notation "x .| y" := (Z.lor x y) (at level 50, left associativity) : rust_scope.
#[global] Open Scope rust_scope.

(** ** Automation

    [word] unfolds the ranges and wrap-arounds and calls [lia] with the
    equations of [div] and [mod]. *)

Ltac unfold_words :=
  unfold is_u8, is_u16, is_u32, u8, u16, u32, u64, saturating_sub, bnot in *;
  change (2 ^ 8) with 256 in *; change (2 ^ 12) with 4096 in *;
  change (2 ^ 16) with 65536 in *; change (2 ^ 20) with 1048576 in *;
  change (2 ^ 24) with 16777216 in *;
  change (2 ^ 32) with 4294967296 in *.

Ltac word := unfold_words; Z.div_mod_to_equations; lia.

(** [inv_bind] opens every successful step of the panic monad. *)
Ltac inv_bind :=
  repeat match goal with
  | H : (_ ≫= _) = Some _ |- _ => apply bind_Some in H; destruct H as (? & ? & H)
  | H : mbind _ _ = Some _ |- _ => apply bind_Some in H; destruct H as (? & ? & H)
  | H : Some _ = Some _ |- _ => injection H as H; try subst
  | x : (_ * _)%type |- _ => destruct x
  end; simpl in *.

(** [case_if] splits on a boolean or decidable test of the goal, and turns
    boolean comparisons into facts for [lia]. *)
Ltac bool_facts :=
  repeat match goal with
  | H : (_ && _) = true |- _ => apply andb_true_iff in H; destruct H
  | H : (_ || _) = false |- _ => apply orb_false_iff in H; destruct H
  | H : negb _ = true |- _ => apply negb_true_iff in H
  | H : negb _ = false |- _ => apply negb_false_iff in H
  | H : (_ =? _) = true |- _ => apply Z.eqb_eq in H
  | H : (_ =? _) = false |- _ => apply Z.eqb_neq in H
  | H : (_ <? _) = true |- _ => apply Z.ltb_lt in H
  | H : (_ <? _) = false |- _ => apply Z.ltb_ge in H
  | H : (_ <=? _) = true |- _ => apply Z.leb_le in H
  | H : (_ <=? _) = false |- _ => apply Z.leb_gt in H
  end.

Ltac case_test :=
  match goal with
  | |- context [if ?b then _ else _] => destruct b eqn:?; bool_facts
  end.

Create Rewrite HintDb words.

(** ** Bit operations as arithmetic *)

Lemma land_ones_mod (x n : Z) : 0 <= n -> x .& Z.ones n = x mod 2 ^ n.
Proof. apply Z.land_ones. Qed.

Lemma land_7 (x : Z) : x .& 7 = x mod 8.
Proof. change 7 with (Z.ones 3). by rewrite Z.land_ones. Qed.

Lemma land_fff (x : Z) : x .& 4095 = x mod 4096.
Proof. change 4095 with (Z.ones 12). by rewrite Z.land_ones. Qed.

Lemma land_3ff (x : Z) : x .& 1023 = x mod 1024.
Proof. change 1023 with (Z.ones 10). by rewrite Z.land_ones. Qed.

Lemma land_ffff (x : Z) : x .& 65535 = x mod 65536.
Proof. change 65535 with (Z.ones 16). by rewrite Z.land_ones. Qed.

Lemma shiftr_div (x n : Z) : 0 <= n -> x ≫ n = x / 2 ^ n.
Proof. apply Z.shiftr_div_pow2. Qed.

Lemma shiftl_mul (x n : Z) : 0 <= n -> x ≪ n = x * 2 ^ n.
Proof. apply Z.shiftl_mul_pow2. Qed.

(** Masking with a block of ones from bit [n] to bit [w - 1] clears the low
    [n] bits of a [w]-bit number. *)
Lemma land_high_mask (w n x : Z) :
  0 <= n <= w -> 0 <= x < 2 ^ w ->
  x .& (2 ^ w - 2 ^ n) = x - x mod 2 ^ n.
Proof.
  intros Hn Hx.
  replace (2 ^ w - 2 ^ n) with (Z.ones (w - n) ≪ n).
  2:{ rewrite Z.shiftl_mul_pow2, Z.ones_equiv by lia.
      rewrite <- (Z.sub_add n w) at 2. rewrite Z.pow_add_r by lia. lia. }
  assert (H : x .& (Z.ones (w - n) ≪ n) = (x ≫ n) ≪ n).
  { apply Z.bits_inj'. intros i Hi.
    rewrite Z.land_spec, !Z.shiftl_spec by lia.
    destruct (Z.ltb_spec i n).
    - rewrite !(Z.testbit_neg_r _ (i - n)) by lia. by rewrite andb_false_r.
    - rewrite Z.shiftr_spec by lia. replace (i - n + n) with i by lia.
      destruct (Z.ltb_spec i w).
      + rewrite Z.ones_spec_low by lia. by rewrite andb_true_r.
      + rewrite Z.ones_spec_high by lia. rewrite andb_false_r. symmetry.
        destruct (Z.eq_dec x 0) as [->|]; [apply Z.bits_0|].
        apply Z.bits_above_log2; [lia|].
        assert (Z.log2 x < w) by (apply Z.log2_lt_pow2; lia). lia. }
  rewrite H, Z.shiftr_div_pow2, Z.shiftl_mul_pow2 by lia.
  pose proof (Z.div_mod x (2 ^ n) ltac:(apply Z.pow_nonzero; lia)). lia.
Qed.

Lemma land_page_mask (x : Z) : is_u32 x -> x .& 0xfffff000 = x - x mod 4096.
Proof. intros. change 0xfffff000 with (2 ^ 32 - 2 ^ 12). by apply (land_high_mask 32 12). Qed.

(** [lor] of numbers with disjoint bits is their sum. *)
Lemma lor_add (a b n : Z) : 0 <= n -> 0 <= a < 2 ^ n -> (b ≪ n) .| a = b * 2 ^ n + a.
Proof.
  intros Hn Ha. rewrite Z.lor_comm, <- Z.shiftl_mul_pow2 by lia.
  rewrite Z.add_comm. symmetry. apply Z.add_nocarry_lor.
  - apply Z.bits_inj'. intros i Hi. rewrite Z.land_spec, Z.bits_0, Z.shiftl_spec by lia.
    destruct (Z.ltb_spec i n); [by rewrite (Z.testbit_neg_r _ (i - n)), andb_false_r by lia|].
    destruct (Z.eq_dec a 0) as [->|]; [by rewrite Z.bits_0|].
    rewrite Z.bits_above_log2; [done|lia|].
    assert (Z.log2 a < n) by (apply Z.log2_lt_pow2; lia). lia.
Qed.

(** A single bit of a byte is tested by masking. *)
Lemma land_bit_eqb (x i : Z) : 0 <= i -> (x .& (1 ≪ i) =? 0) = negb (Z.testbit x i).
Proof.
  intros Hi. destruct (Z.testbit x i) eqn:Hb; simpl.
  - apply Z.eqb_neq. intros H.
    assert (Z.testbit (x .& (1 ≪ i)) i = true) as Hc; [|by rewrite H, Z.bits_0 in Hc].
    rewrite Z.land_spec, Hb, Z.shiftl_spec, Z.sub_diag by lia. done.
  - apply Z.eqb_eq, Z.bits_inj'. intros j Hj.
    rewrite Z.land_spec, Z.bits_0, Z.shiftl_spec by lia.
    destruct (Z.eq_dec j i) as [->|Hne]; [by rewrite Hb|].
    destruct (Z.ltb_spec j i); [by rewrite (Z.testbit_neg_r _ (j - i)), andb_false_r by lia|].
    rewrite (Z.bits_above_log2 1) by (simpl; lia). apply andb_false_r.
Qed.

#[export] Hint Rewrite land_7 land_fff land_3ff land_ffff : words.

(** ** Lists *)

(** [v[i] = x] on a [Vec] or slice: a panic out of bounds. *)
Definition vec_set {A} (l : list A) (i : nat) (x : A) : option (list A) :=
  if decide (i < length l)%nat then Some (<[i := x]> l) else None.

Lemma vec_set_ok {A} (l : list A) (i : nat) (x : A) :
  (i < length l)%nat -> vec_set l i x = Some (<[i := x]> l).
Proof. intros H. unfold vec_set. by rewrite decide_True. Qed.

(** [v[start..start + len]] and [v[start..start + src.len()].copy_from_slice(src)]. *)
Definition slice {A} (l : list A) (start len : nat) : option (list A) :=
  if decide (start + len <= length l)%nat then Some (take len (drop start l)) else None.
Definition copy_from_slice {A} (l : list A) (start : nat) (src : list A) : option (list A) :=
  if decide (start + length src <= length l)%nat then Some (list_inserts start src l) else None.

Lemma slice_ok {A} (l : list A) (start len : nat) :
  (start + len <= length l)%nat -> slice l start len = Some (take len (drop start l)).
Proof. intros H. unfold slice. by rewrite decide_True. Qed.

Lemma copy_from_slice_ok {A} (l : list A) (start : nat) (src : list A) :
  (start + length src <= length l)%nat -> copy_from_slice l start src = Some (list_inserts start src l).
Proof. intros H. unfold copy_from_slice. by rewrite decide_True. Qed.

Lemma lookup_sub {A} (l : list A) (start len i : nat) :
  take len (drop start l) !! i = if decide (i < len)%nat then l !! (start + i)%nat else None.
Proof.
  case_decide; [by rewrite lookup_take_lt, lookup_drop|by rewrite lookup_take_ge by lia].
Qed.

Lemma lookup_inserts {A} (l src : list A) (start i : nat) :
  (start + length src <= length l)%nat ->
  list_inserts start src l !! i =
    if decide (start <= i < start + length src)%nat then src !! (i - start)%nat else l !! i.
Proof.
  intros H. case_decide; [by rewrite list_lookup_inserts by lia|].
  destruct (decide (i < start)%nat); [by rewrite list_lookup_inserts_lt|].
  by rewrite list_lookup_inserts_ge by lia.
Qed.

Lemma lookup_lt_Z {A} (l : list A) (i : Z) :
  0 <= i < Z.of_nat (length l) -> is_Some (l !! Z.to_nat i).
Proof. intros. apply lookup_lt_is_Some. lia. Qed.

(** A loop of the panic monad over a list that never panics while an
    invariant holds, and keeps the invariant. *)
Lemma foldlM_inv {A S} (f : S -> A -> option S) (P : list A -> S -> Prop) (l : list A) (s0 : S) :
  P [] s0 ->
  (forall pre x s, (pre ++ [x]) `prefix_of` l -> P pre s -> exists s', f s x = Some s' /\ P (pre ++ [x]) s') ->
  exists s', foldl (fun o x => s ← o; f s x) (Some s0) l = Some s' /\ P l s'.
Proof.
  intros H0 Hstep. induction l as [|x l IH] using rev_ind; [by eexists|].
  destruct IH as (s & Hs & HP).
  { intros pre y s Hpre HP. apply Hstep; [|done]. by apply prefix_app_r. }
  destruct (Hstep l x s) as (s' & Hf & HP'); [done..|].
  exists s'. rewrite foldl_snoc, Hs. done.
Qed.

Lemma filter_none {A} (P : A -> Prop) `{forall x, Decision (P x)} (l : list A) :
  Forall (fun x => ~ P x) l -> filter P l = [].
Proof. induction 1; [done|]. by rewrite filter_cons_False. Qed.

Lemma filter_all {A} (P : A -> Prop) `{forall x, Decision (P x)} (l : list A) :
  Forall P l -> filter P l = l.
Proof. induction 1; [done|]. rewrite filter_cons_True by done. by f_equal. Qed.

Lemma elem_of_flat_map {A B} (f : A -> list B) (l : list A) (x : B) :
  x ∈ flat_map f l <-> exists y, y ∈ l /\ x ∈ f y.
Proof.
  rewrite list_elem_of_In, in_flat_map. split; intros (y & Hy & Hx); exists y;
    by rewrite ?list_elem_of_In in *.
Qed.
