(* ===== verification/Address.v ===== *)
(** * Addresses, page table entries and page iteration

    [kernel/src/memory/address.rs], [kernel/src/memory/virt/page_entry.rs] and
    [kernel/src/memory/virt/page_iter.rs].  [PhysicalAddress] and
    [VirtualAddress] are transparent wrappers of a [u32]; both are a [Z] in
    [0, 2^32) here. *)

From S2P Require Import Prelude.

Module PhysicalAddress.
(** [Add<u32>]: wrapping; [Sub<u32>]: saturating; [BitAnd<u32>]. *)
Definition add (self rhs : Z) : Z := u32 (self + rhs).
Definition sub (self rhs : Z) : Z := saturating_sub self rhs.
Definition bitand (self rhs : Z) : Z := self .& rhs.
End PhysicalAddress.

Module VirtualAddress.
Definition get_page_directory_index (self : Z) : Z := self ≫ 22.
Definition get_page_table_index (self : Z) : Z := (self ≫ 12) .& 0x3ff.
Definition is_page_aligned (self : Z) : bool := self .& 0xfff =? 0.

Definition next_page_barrier (self : Z) : Z :=
  if self .& 0xfff =? 0 then self
  else let next := u32 (self + 0x1000) in next .& 0xfffff000.

Definition prev_page_barrier (self : Z) : Z := self .& 0xfffff000.

Definition add (self rhs : Z) : Z := u32 (self + rhs).
(** [Sub<VirtualAddress>] and [Sub<u32>], both saturating. *)
Definition sub (self rhs : Z) : Z := saturating_sub self rhs.
End VirtualAddress.
Export VirtualAddress (is_page_aligned, next_page_barrier, prev_page_barrier).

Module PageTableEntry.
Definition ENTRY_PRESENT : Z := 1.
Definition ENTRY_WRITE_ACCESS : Z := 1 ≪ 1.
Definition ENTRY_USER_ACCESS : Z := 1 ≪ 2.
Definition ENTRY_NO_RECLAIM : Z := 1 ≪ 10.

Definition new : Z := 0.
Definition get_address (self : Z) : Z := self .& 0xfffff000.
Definition set_address (self addr : Z) : Z :=
  let addr_bits := addr .& 0xfffff000 in
  (self .& 0xfff) .| addr_bits.
Definition set_present (self : Z) : Z := self .| ENTRY_PRESENT.
Definition clear_present (self : Z) : Z := self .& bnot 32 ENTRY_PRESENT.
Definition is_present (self : Z) : bool := negb (self .& ENTRY_PRESENT =? 0).
Definition set_user_access (self : Z) : Z := self .| ENTRY_USER_ACCESS.
Definition set_write_access (self : Z) : Z := self .| ENTRY_WRITE_ACCESS.
Definition set_no_reclaim (self : Z) : Z := self .| ENTRY_NO_RECLAIM.
End PageTableEntry.

Module PageIter.
Record t := { current_page : Z; bytes_remaining : Z }.

Definition for_vaddr_range (start length : Z) : t :=
  let page_start := prev_page_barrier start in
  let delta := VirtualAddress.sub start page_start in
  {| current_page := page_start; bytes_remaining := u32 (length + delta) |}.

Definition next (self : t) : option Z * t :=
  if 0 <? bytes_remaining self then
    (Some (current_page self),
     {| current_page := VirtualAddress.add (current_page self) 0x1000;
        bytes_remaining := saturating_sub (bytes_remaining self) 0x1000 |})
  else (None, self).

(** The pages a [for] loop over the iterator visits; [fuel] bounds the number
    of calls to [next]. *)
Fixpoint collect (fuel : nat) (self : t) : list Z :=
  match fuel with
  | O => []
  | S fuel =>
      match next self with
      | (Some p, self') => p :: collect fuel self'
      | (None, _) => []
      end
  end.
End PageIter.

(** ** Lemmas *)

Section Barriers.
Context (a : Z) (Ha : is_u32 a).

Lemma is_page_aligned_spec : is_page_aligned a = true <-> a mod 4096 = 0.
Proof. unfold is_page_aligned. rewrite land_fff. lia. Qed.

Lemma prev_page_barrier_spec : prev_page_barrier a = a - a mod 4096.
Proof. by apply land_page_mask. Qed.

Lemma next_page_barrier_aligned : a mod 4096 = 0 -> next_page_barrier a = a.
Proof. intros H. unfold next_page_barrier. rewrite land_fff, H. done. Qed.

(** Away from the last page of the address space the barrier rounds up. *)
Lemma next_page_barrier_spec :
  a <= 0xfffff000 -> next_page_barrier a = (a + 4095) / 4096 * 4096.
Proof.
  intros Hle. unfold next_page_barrier. rewrite land_fff. case_test; [word|].
  rewrite land_page_mask by word. word.
Qed.

(** Inside the last page it wraps to address 0. *)
Lemma next_page_barrier_wraps : 0xfffff000 < a -> next_page_barrier a = 0.
Proof.
  intros Hgt. unfold next_page_barrier. rewrite land_fff.
  case_test; [word|]. rewrite land_page_mask by word. word.
Qed.
End Barriers.

Lemma prev_page_barrier_aligned (a : Z) :
  is_u32 a -> is_page_aligned (prev_page_barrier a) = true.
Proof.
  intros Ha. apply is_page_aligned_spec.
  rewrite prev_page_barrier_spec by done. word.
Qed.

Lemma page_mask_bits (x : Z) : is_u32 x -> x .& 0xfffff000 = (x / 4096) ≪ 12.
Proof. intros. rewrite land_page_mask, shiftl_mul by (done || lia). word. Qed.

Lemma set_address_value (self addr : Z) :
  is_u32 self -> is_u32 addr ->
  PageTableEntry.set_address self addr = addr / 4096 * 4096 + self mod 4096.
Proof.
  intros Hs Ha. unfold PageTableEntry.set_address.
  rewrite page_mask_bits, land_fff, Z.lor_comm by done.
  rewrite lor_add by word. done.
Qed.

Lemma testbit_land_high (x i : Z) : is_u32 x -> 0 <= i < 12 -> Z.testbit (x .& 0xfffff000) i = false.
Proof.
  intros Hx Hi. rewrite page_mask_bits, Z.shiftl_spec by (done || lia).
  apply Z.testbit_neg_r. lia.
Qed.

Lemma pages_collect (n : nat) (p rem : Z) (fuel : nat) :
  is_u32 p -> 0 <= rem -> Z.of_nat n = (rem + 4095) / 4096 -> (n <= fuel)%nat ->
  PageIter.collect fuel {| PageIter.current_page := p; PageIter.bytes_remaining := rem |} =
  (fun i => u32 (p + 4096 * i)) <$> seqZ 0 (Z.of_nat n).
Proof.
  revert p rem fuel. induction n as [|n IH]; intros p rem fuel Hp Hrem Hn Hfuel.
  - rewrite seqZ_nil by lia. destruct fuel; [done|]. simpl.
    unfold PageIter.next; simpl. case_test; [word|done].
  - destruct fuel as [|fuel]; [lia|]. simpl. unfold PageIter.next; simpl.
    case_test; [|word].
    rewrite (seqZ_cons 0) by lia. rewrite IH; [|unfold VirtualAddress.add; word|word|word|lia].
    cbn [fmap list_fmap]. f_equal; [word|].
    replace (Z.pred (Z.of_nat (S n))) with (Z.of_nat n) by lia.
    change (Z.succ 0) with (1 + 0). rewrite <- (fmap_add_seqZ 1 0), <- list_fmap_compose.
    apply list_fmap_ext. intros ? i _. unfold VirtualAddress.add, compose. word.
Qed.

(** The bits of a page mask, and of the single-bit flags. *)
Lemma testbit_land_mask (x i : Z) :
  is_u32 x -> 0 <= i -> Z.testbit (x .& 0xfffff000) i = (12 <=? i) && Z.testbit x i.
Proof.
  intros Hx Hi. destruct (Z.leb_spec 12 i); simpl; [|by apply testbit_land_high].
  rewrite page_mask_bits, Z.shiftl_spec by (done || lia).
  change 4096 with (2 ^ 12). rewrite Z.div_pow2_bits by lia. f_equal; lia.
Qed.

Lemma lor_flag_mask (x k : Z) :
  is_u32 x -> 0 <= k < 12 -> (x .| (1 ≪ k)) .& 0xfffff000 = x .& 0xfffff000.
Proof.
  intros Hx Hk. apply Z.bits_inj'. intros i Hi.
  rewrite !Z.land_spec, Z.lor_spec, Z.shiftl_spec by lia.
  destruct (Z.eq_dec i k) as [->|Hne].
  - assert (Hf : Z.testbit 0xfffff000 k = false).
    { assert (Hc : k = 0 \/ k = 1 \/ k = 2 \/ k = 3 \/ k = 4 \/ k = 5 \/ k = 6 \/ k = 7 \/
        k = 8 \/ k = 9 \/ k = 10 \/ k = 11) by lia.
      repeat destruct Hc as [->|Hc]; subst; done. }
    by rewrite Hf, !andb_false_r.
  - assert (Hf : Z.testbit 1 (i - k) = false).
    { destruct (Z.ltb_spec i k); [by apply Z.testbit_neg_r; lia|].
      apply Z.bits_above_log2; simpl; lia. }
    by rewrite Hf, orb_false_r.
Qed.

Lemma StronglySorted_fmap_seqZ (c a m n : Z) :
  0 < c -> StronglySorted Z.lt ((fun i => a + c * i) <$> seqZ m n).
Proof.
  intros Hc. destruct (Z.le_gt_cases 0 n) as [Hn|]; [|rewrite seqZ_nil by lia; constructor].
  revert m. pattern n. apply natlike_ind; [intros; constructor| |done].
  intros k Hk IH m. rewrite seqZ_cons by lia. cbn [fmap list_fmap].
  rewrite Z.pred_succ. constructor; [apply IH|].
  apply Forall_fmap, Forall_seqZ. simpl. intros. nia.
Qed.

(** ** Properties *)

(** Page table entries round-trip.  For any 32-bit entry and frame
    address, [set_address] stores the frame address rounded down to its page and
    leaves the twelve flag bits alone; the present, user, write and no-reclaim
    setters leave the stored address alone; [is_present] is true after
    [set_present], false after [clear_present], and unchanged by
    [set_address]. *)
Theorem page_table_entry_roundtrip (e addr : Z) :
  is_u32 e -> is_u32 addr ->
  PageTableEntry.get_address (PageTableEntry.set_address e addr) = prev_page_barrier addr /\
  PageTableEntry.set_address e addr mod 4096 = e mod 4096 /\
  (forall op, op ∈ [PageTableEntry.set_present; PageTableEntry.set_user_access;
                    PageTableEntry.set_write_access; PageTableEntry.set_no_reclaim] ->
     PageTableEntry.get_address (op e) = PageTableEntry.get_address e) /\
  PageTableEntry.is_present (PageTableEntry.set_present e) = true /\
  PageTableEntry.is_present (PageTableEntry.clear_present e) = false /\
  PageTableEntry.is_present (PageTableEntry.set_address e addr) = PageTableEntry.is_present e.
Proof.
  intros He Ha.
  assert (Hp : forall x, PageTableEntry.is_present x = Z.testbit x 0).
  { intros x. unfold PageTableEntry.is_present. change PageTableEntry.ENTRY_PRESENT with (1 ≪ 0).
    rewrite land_bit_eqb by lia. by rewrite negb_involutive. }
  assert (Hv := set_address_value e addr He Ha).
  split; [|split; [|split; [|split; [|split]]]].
  - unfold PageTableEntry.get_address. rewrite Hv, land_page_mask by word.
    rewrite prev_page_barrier_spec by done. word.
  - rewrite Hv. word.
  - intros op Hop. unfold PageTableEntry.get_address.
    rewrite !elem_of_cons, elem_of_nil in Hop.
    destruct Hop as [-> | [-> | [-> | [-> | []]]]].
    + by apply (lor_flag_mask e 0).
    + by apply (lor_flag_mask e 2).
    + by apply (lor_flag_mask e 1).
    + by apply (lor_flag_mask e 10).
  - rewrite Hp. unfold PageTableEntry.set_present. by rewrite Z.lor_spec, orb_true_r.
  - rewrite Hp. unfold PageTableEntry.clear_present. by rewrite Z.land_spec, andb_false_r.
  - rewrite !Hp, Hv, !Z.bit0_eqb. f_equal. word.
Qed.

Lemma page_table_entry_witness :
  PageTableEntry.get_address (PageTableEntry.set_address 0x12345407 0x000b8fff) = 0x000b8000.
Proof. apply (page_table_entry_roundtrip 0x12345407 0x000b8fff); word. Defined.

(** page iteration covers a byte range exactly.  For a non-empty range
    that does not run past the end of the address space, the iterator stops
    after at most 2^20 pages and the pages it yields, each once and in order,
    are exactly the page-aligned addresses whose page meets the range. *)
Theorem page_iter_covers_range (start length : Z) (fuel : nat) :
  0 <= start -> 0 < length -> start + length <= 2 ^ 32 -> 2 ^ 20 <= Z.of_nat fuel ->
  start mod 4096 + length < 2 ^ 32 ->
  let pages := PageIter.collect fuel (PageIter.for_vaddr_range start length) in
  StronglySorted Z.lt pages /\
  (forall p, p ∈ pages <-> p mod 4096 = 0 /\ start < p + 4096 /\ p < start + length).
Proof.
  intros Hs Hl Hend Hfuel Hov pages.
  set (n := (start mod 4096 + length + 4095) / 4096).
  assert (Hpages : pages = (fun i => start - start mod 4096 + 4096 * i) <$> seqZ 0 n).
  { unfold pages, PageIter.for_vaddr_range.
    rewrite prev_page_barrier_spec by word.
    rewrite (pages_collect (Z.to_nat n)); subst n; unfold VirtualAddress.sub; [|word..].
    rewrite Z2Nat.id by word. apply list_fmap_ext. intros k i Hi.
    apply lookup_seqZ in Hi. word. }
  rewrite Hpages. split.
  - apply StronglySorted_fmap_seqZ. lia.
  - intros p. rewrite list_elem_of_fmap. setoid_rewrite elem_of_seqZ. split.
    + intros (i & -> & Hi). subst n. word.
    + intros (Hal & Hlo & Hhi). exists ((p - (start - start mod 4096)) / 4096). subst n.
      split; word.
Qed.

Lemma page_iter_witness :
  0x2000 ∈ PageIter.collect (Z.to_nat (2 ^ 20)) (PageIter.for_vaddr_range 0x1040 0x1000) /\
  ~ 0x3000 ∈ PageIter.collect (Z.to_nat (2 ^ 20)) (PageIter.for_vaddr_range 0x1040 0x1000).
Proof.
  destruct (page_iter_covers_range 0x1040 0x1000 (Z.to_nat (2 ^ 20))) as [_ H]; [lia|lia|lia|lia|reflexivity|].
  split; [by apply H|]. intros Hin. apply H in Hin. lia.
Defined.
