(* ===== verification/Bitmap.v ===== *)
(** * The physical frame bitmap

    [kernel/src/memory/physical/range.rs], [kernel/src/memory/physical/bios.rs]
    and [kernel/src/memory/physical/bitmap.rs].  One bit per 4 KiB frame, set
    when the frame is in use. *)

From S2P Require Import Prelude Address.

Module FrameRange.

Record t := new { start : Z; length : Z }.

Definition get_first_frame_index (self : t) : Z := start self ≫ 12.

Definition get_last_frame_index (self : t) : Z :=
  let last_addr := u32 (u32 (start self + length self) - 1) in
  last_addr ≫ 12.

Definition get_starting_address (self : t) : Z := start self.

Definition get_final_address (self : t) : Z :=
  PhysicalAddress.add (start self) (u32 (length self - 1)).

Definition contains_address (self : t) (addr : Z) : bool :=
  let first := start self in
  let last := get_final_address self in
  (first <=? addr) && (addr <=? last).

Definition size_in_bytes (self : t) : Z := length self.

End FrameRange.

Module Bios.

Definition REGION_TYPE_FREE : Z := 1.
Definition REGION_TYPE_RESERVED : Z := 2.

(** An entry of the BIOS memory map; [base] and [length] have 64 bits. *)
Record MapEntry := {
  base : Z;
  length : Z;
  region_type : Z;
  acpi : Z;
}.

Definition get_base (self : MapEntry) : Z := u32 (base self).
Definition get_length (self : MapEntry) : Z := u32 (length self).
Definition is_reserved (self : MapEntry) : bool := region_type self =? REGION_TYPE_RESERVED.

End Bios.

Module FrameBitmap.

Inductive BitmapError :=
| NoAvailableSpace
| OutOfBounds
| AlreadyFree.

(** The slice of bytes the bitmap points to. *)
Record t := { map : list Z }.

Definition len (self : t) : Z := Z.of_nat (length (map self)).

(** The number of bytes [at_location] takes for a number of frames. *)
Definition byte_size_for (frame_count : Z) : Z :=
  let byte_size := frame_count ≫ 3 in
  if negb (frame_count .& 7 =? 0) then u32 (byte_size + 1) else byte_size.

(** [at_location] builds the slice over [byte_size] bytes of memory, which
    hold [memory]. *)
Definition at_location (memory : list Z) (frame_count : Z) : t :=
  {| map := take (Z.to_nat (byte_size_for frame_count)) memory |}.

Definition reset (self : t) : t :=
  {| map := (fun _ => 0xff) <$> map self |}.

Definition total_frame_count (self : t) : Z := u32 (len self * 8).

Definition size_in_frames (self : t) : Z :=
  let byte_size := len self in
  let frame_count := byte_size ≫ 12 in
  if byte_size .& 0xfff =? 0 then frame_count else u32 (frame_count + 1).

Definition size_in_bytes (self : t) : Z := len self.

Definition contains_range (self : t) (range : FrameRange.t) : bool :=
  let last_frame := FrameRange.get_last_frame_index range in
  let frame_count := total_frame_count self in
  last_frame <? frame_count.

(** [self.map[frame >> 3]] (panics out of bounds) and the mask of the frame's
    bit in that byte. *)
Definition get_byte (m : list Z) (frame : Z) : option Z := m !! Z.to_nat (frame ≫ 3).
Definition frame_mask (frame : Z) : Z := u8 (1 ≪ (frame .& 7)).

Definition clear_frame (m : list Z) (frame : Z) : option (list Z) :=
  b ← get_byte m frame;
  Some (<[Z.to_nat (frame ≫ 3) := b .& bnot 8 (frame_mask frame)]> m).

Definition set_frame (m : list Z) (frame : Z) : option (list Z) :=
  b ← get_byte m frame;
  Some (<[Z.to_nat (frame ≫ 3) := b .| frame_mask frame]> m).

(** [for frame in first..=last { body }]. *)
Definition for_frames (body : list Z -> Z -> option (list Z)) (first last : Z)
    (m : list Z) : option (list Z) :=
  foldl (fun o frame => m ← o; body m frame) (Some m) (seqZ first (last - first + 1)).

Definition free_range (self : t) (range : FrameRange.t) : option (result unit BitmapError * t) :=
  if negb (contains_range self range) then Some (Err OutOfBounds, self)
  else
    let first := FrameRange.get_first_frame_index range in
    let last := FrameRange.get_last_frame_index range in
    m ← for_frames clear_frame first last (map self);
    Some (Ok tt, {| map := m |}).

(** The loop of [initialize_from_memory_map]; the first error leaves it. *)
Fixpoint free_entries (self : t) (total_length : Z) (entries : list Bios.MapEntry)
    : option (result Z BitmapError * t) :=
  match entries with
  | [] => Some (Ok total_length, self)
  | entry :: rest =>
      if Bios.region_type entry =? Bios.REGION_TYPE_FREE then
        let length := u32 (Bios.length entry) in
        let range := FrameRange.new (u32 (Bios.base entry)) length in
        '(r, self') ← free_range self range;
        match r with
        | Ok _ => free_entries self' (u32 (total_length + length)) rest
        | Err e => Some (Err e, self')
        end
      else free_entries self total_length rest
  end.

Definition initialize_from_memory_map (self : t) (entries : list Bios.MapEntry)
    : option (result Z BitmapError * t) :=
  free_entries (reset self) 0 entries.

Definition free_frame (self : t) (frame_address : Z) : option (result unit BitmapError * t) :=
  let frame_index := frame_address ≫ 12 in
  if total_frame_count self <=? frame_index then Some (Err OutOfBounds, self)
  else
    b ← get_byte (map self) frame_index;
    let mask := frame_mask frame_index in
    if b .& mask =? 0 then Some (Err AlreadyFree, self)
    else Some (Ok tt, {| map := <[Z.to_nat (frame_index ≫ 3) := b .& bnot 8 mask]> (map self) |}).

(** The inner loop of [get_free_frame_count]: [mask] runs through the eight
    bits and becomes 0 when the bit is shifted out. *)
Fixpoint count_free_bits (fuel : nat) (map_value mask free frame : Z) : Z * Z :=
  match fuel with
  | O => (free, frame)
  | S fuel =>
      if mask =? 0 then (free, frame)
      else
        let free := if map_value .& mask =? 0 then u32 (free + 1) else free in
        count_free_bits fuel map_value (u8 (mask ≪ 1)) free (u32 (frame + 1))
  end.

(** The outer loop; each round advances [frame] by 1 or 8. *)
Fixpoint free_frame_loop (fuel : nat) (self : t) (frame free : Z) : option Z :=
  match fuel with
  | O => Some free
  | S fuel =>
      if frame <? total_frame_count self then
        map_value ← get_byte (map self) frame;
        if negb (map_value =? 0xff) then
          let '(free, frame) := count_free_bits 9 map_value 1 free frame in
          free_frame_loop fuel self frame free
        else free_frame_loop fuel self (u32 (frame + 1)) free
      else Some free
  end.

Definition get_free_frame_count (self : t) : option Z :=
  free_frame_loop (S (Z.to_nat (total_frame_count self))) self 0 0.

(** [is_range_free] and the test of its loop; [None] is a panic. *)
Fixpoint all_frames_free (m : list Z) (frames : list Z) : option bool :=
  match frames with
  | [] => Some true
  | frame :: rest =>
      b ← get_byte m frame;
      if negb (b .& frame_mask frame =? 0) then Some false else all_frames_free m rest
  end.

Definition is_range_free (self : t) (range : FrameRange.t) : option bool :=
  if negb (contains_range self range) then Some false
  else
    let first := FrameRange.get_first_frame_index range in
    let last := FrameRange.get_last_frame_index range in
    all_frames_free (map self) (seqZ first (last - first + 1)).

Definition is_address_allocated (self : t) (addr : Z) : option bool :=
  let frame_index := addr ≫ 12 in
  if total_frame_count self <=? frame_index then Some false
  else
    b ← get_byte (map self) frame_index;
    Some (negb (b .& frame_mask frame_index =? 0)).

(** The search loop of [find_free_range]. *)
Fixpoint search_loop (fuel : nat) (self : t) (frame_count frame remaining search_start : Z)
    : option (option FrameRange.t) :=
  match fuel with
  | O => Some None
  | S fuel =>
      if frame <? total_frame_count self then
        b ← get_byte (map self) frame;
        if negb (b .& frame_mask frame =? 0) then
          search_loop fuel self frame_count (u32 (frame + 1)) frame_count (u32 (frame + 1))
        else
          let remaining := u32 (remaining - 1) in
          if remaining =? 0 then
            let starting_address := u32 (search_start ≪ 12) in
            let length := u32 (u32 (u32 (frame + 1) - search_start) ≪ 12) in
            Some (Some (FrameRange.new starting_address length))
          else search_loop fuel self frame_count (u32 (frame + 1)) remaining search_start
      else Some None
  end.

Definition find_free_range (self : t) (frame_count : Z) : option (option FrameRange.t) :=
  search_loop (S (Z.to_nat (total_frame_count self))) self frame_count 0 frame_count 0.

Definition allocate_range (self : t) (range : FrameRange.t) : option (result unit BitmapError * t) :=
  if negb (contains_range self range) then Some (Err OutOfBounds, self)
  else
    let first := FrameRange.get_first_frame_index range in
    let last := FrameRange.get_last_frame_index range in
    m ← for_frames set_frame first last (map self);
    Some (Ok tt, {| map := m |}).

Definition allocate_frames (self : t) (frame_count : Z)
    : option (result FrameRange.t BitmapError * t) :=
  found ← find_free_range self frame_count;
  match found with
  | None => Some (Err NoAvailableSpace, self)
  | Some range =>
      '(r, self') ← allocate_range self range;
      Some (match r with Ok _ => Ok range | Err e => Err e end, self')
  end.

(** ** Specification

    [in_use self frame] is the state of a frame: the bit of the map. *)

Definition in_use (self : t) (frame : Z) : bool :=
  match map self !! Z.to_nat (frame / 8) with
  | Some b => Z.testbit b (frame mod 8)
  | None => false
  end.

(** Well-formed: a slice of bytes that describes at most 4 GiB of memory. *)
Record wf (self : t) : Prop := {
  wf_bytes : Forall is_u8 (map self);
  wf_len : len self <= 2 ^ 17;
}.

(** The first and the last frame of a range, as mathematical integers. *)
Definition range_wf (r : FrameRange.t) : Prop :=
  0 <= FrameRange.start r /\ 0 < FrameRange.length r /\
  FrameRange.start r + FrameRange.length r <= 2 ^ 32.

Definition range_covers (r : FrameRange.t) (frame : Z) : bool :=
  (FrameRange.start r / 4096 <=? frame) &&
  (frame <=? (FrameRange.start r + FrameRange.length r - 1) / 4096).

(** ** Lemmas *)

Lemma frame_mask_pow (f : Z) : 0 <= f -> frame_mask f = 1 ≪ (f mod 8).
Proof.
  intros. unfold frame_mask. rewrite land_7. unfold u8. apply Z.mod_small.
  rewrite shiftl_mul, Z.mul_1_l by word. split; [apply Z.pow_nonneg; lia|].
  apply Z.pow_lt_mono_r; word.
Qed.

(** A statement about a bit index of a byte is checked on the eight indices. *)
Lemma bit_index_cases (P : Z -> bool) (k : Z) :
  forallb P (seqZ 0 8) = true -> 0 <= k < 8 -> P k = true.
Proof.
  intros HP Hk. rewrite forallb_forall in HP. apply HP.
  apply list_elem_of_In, elem_of_seqZ. lia.
Qed.

Lemma testbit_bnot_mask (k i : Z) :
  0 <= k < 8 -> 0 <= i < 8 -> Z.testbit (bnot 8 (1 ≪ k)) i = negb (i =? k).
Proof.
  intros Hk Hi. apply eqb_prop.
  apply (bit_index_cases (fun i => eqb (Z.testbit (bnot 8 (1 ≪ k)) i) (negb (i =? k)))); [|done].
  apply (bit_index_cases (fun k => forallb (fun i => eqb (Z.testbit (bnot 8 (1 ≪ k)) i) (negb (i =? k))) (seqZ 0 8))); [|done].
  vm_compute. done.
Qed.

Lemma testbit_mask (k i : Z) : 0 <= k -> Z.testbit (1 ≪ k) i = (i =? k).
Proof.
  intros Hk. rewrite shiftl_mul, Z.mul_1_l by lia. rewrite Z.pow2_bits_eqb by lia.
  apply Z.eqb_sym.
Qed.

Lemma byte_bits_high (b i : Z) : is_u8 b -> 8 <= i -> Z.testbit b i = false.
Proof.
  intros [Hlo Hhi] Hi. destruct (Z.eq_dec b 0) as [->|]; [apply Z.bits_0|].
  apply Z.bits_above_log2; [lia|].
  assert (Z.log2 b < 8) by (apply Z.log2_lt_pow2; lia). lia.
Qed.

(** A nonnegative number whose bits from 8 on are clear is a byte. *)
Lemma byte_of_bits (b : Z) : 0 <= b -> (forall i, 8 <= i -> Z.testbit b i = false) -> is_u8 b.
Proof.
  intros Hb Hbits. split; [done|].
  replace b with (b mod 2 ^ 8); [apply Z.mod_pos_bound; lia|].
  apply Z.bits_inj'. intros i Hi. destruct (Z.ltb_spec i 8).
  - by rewrite Z.mod_pow2_bits_low by lia.
  - rewrite Z.mod_pow2_bits_high by lia. by rewrite Hbits.
Qed.

Lemma byte_lor (b k : Z) : is_u8 b -> 0 <= k < 8 -> is_u8 (b .| (1 ≪ k)).
Proof.
  intros Hb Hk. apply byte_of_bits.
  - apply Z.lor_nonneg. split; [apply Hb|]. apply Z.shiftl_nonneg. lia.
  - intros i Hi. rewrite Z.lor_spec, byte_bits_high, testbit_mask by (done || lia). simpl. lia.
Qed.

Lemma byte_land (b m : Z) : is_u8 b -> is_u8 (b .& m).
Proof.
  intros Hb. apply byte_of_bits; [apply Z.land_nonneg; left; apply Hb|].
  intros i Hi. by rewrite Z.land_spec, byte_bits_high.
Qed.

Section Updates.
Context (self : t) (Hwf : wf self).

Lemma total_frame_count_eq : total_frame_count self = len self * 8.
Proof. destruct Hwf. unfold total_frame_count, len in *. word. Qed.

Lemma get_byte_frame (f : Z) :
  0 <= f < len self * 8 ->
  exists b, get_byte (map self) f = Some b /\ is_u8 b /\ map self !! Z.to_nat (f / 8) = Some b.
Proof.
  intros Hf. unfold get_byte. rewrite shiftr_div by lia. change (2 ^ 3) with 8.
  destruct (lookup_lt_Z (map self) (f / 8)) as [b Hb]; [unfold len in *; word|].
  exists b. split; [done|]. split; [|done].
  by eapply Forall_lookup_1; [apply Hwf|].
Qed.

(** The test the code makes on a frame reads its state. *)
Lemma frame_test (f : Z) :
  0 <= f < len self * 8 ->
  exists b, get_byte (map self) f = Some b /\ (b .& frame_mask f =? 0) = negb (in_use self f).
Proof.
  intros Hf. destruct (get_byte_frame f Hf) as (b & Hg & _ & Hb). exists b. split; [done|].
  rewrite frame_mask_pow, land_bit_eqb by word. unfold in_use. by rewrite Hb.
Qed.

Lemma in_use_out (f : Z) : len self * 8 <= f -> in_use self f = false.
Proof.
  intros Hf. unfold in_use. rewrite lookup_ge_None_2; [done|]. unfold len in *. word.
Qed.

(** Writing the byte of [f] so that only its bit changes. *)
Lemma write_frame (f b' : Z) (v : bool) :
  0 <= f < len self * 8 -> is_u8 b' ->
  (forall b, map self !! Z.to_nat (f / 8) = Some b ->
     forall i, 0 <= i < 8 -> Z.testbit b' i = if i =? f mod 8 then v else Z.testbit b i) ->
  let self' := {| map := <[Z.to_nat (f ≫ 3) := b']> (map self) |} in
  wf self' /\ len self' = len self /\
  forall g, 0 <= g -> in_use self' g = if g =? f then v else in_use self g.
Proof.
  intros Hf Hb' Hbits. destruct (get_byte_frame f Hf) as (b & _ & _ & Hb).
  rewrite shiftr_div by lia. change (2 ^ 3) with 8. simpl.
  assert (Hlen : len {| map := <[Z.to_nat (f / 8) := b']> (map self) |} = len self).
  { unfold len. simpl. by rewrite length_insert. }
  split_and!; [|done|].
  - split; [|rewrite Hlen; apply Hwf]. simpl. apply Forall_insert; [apply Hwf|done].
  - intros g Hg. unfold in_use. simpl.
    destruct (decide (Z.to_nat (g / 8) = Z.to_nat (f / 8))) as [Heq|Hne].
    + rewrite Heq, list_lookup_insert_eq by (apply lookup_lt_Some in Hb; lia).
      rewrite (Hbits b Hb) by word. rewrite Hb.
      destruct (Z.eqb_spec g f) as [->|]; [by rewrite Z.eqb_refl|].
      destruct (Z.eqb_spec (g mod 8) (f mod 8)); [|done]. exfalso. word.
    + rewrite list_lookup_insert_ne by done.
      destruct (Z.eqb_spec g f) as [->|]; [done|done].
Qed.

End Updates.

(** A body of [for_frames] that writes [v] to the frame it visits. *)
Definition writes (body : list Z -> Z -> option (list Z)) (v : bool) : Prop :=
  forall self f, wf self -> 0 <= f < len self * 8 ->
  exists m', body (map self) f = Some m' /\ wf {| map := m' |} /\
    len {| map := m' |} = len self /\
    forall g, 0 <= g -> in_use {| map := m' |} g = if g =? f then v else in_use self g.

Lemma clear_frame_writes : writes clear_frame false.
Proof.
  intros self f Hwf Hf. destruct (get_byte_frame self Hwf f Hf) as (b & Hg & Hb & Hl).
  unfold clear_frame. rewrite Hg. simpl. eexists. split; [done|].
  apply write_frame; [done..|by apply byte_land|].
  intros b' Hb' i Hi. simplify_eq. rewrite Z.land_spec, frame_mask_pow by lia.
  rewrite testbit_bnot_mask by word. destruct (i =? f mod 8); [apply andb_false_r|apply andb_true_r].
Qed.

Lemma set_frame_writes : writes set_frame true.
Proof.
  intros self f Hwf Hf. destruct (get_byte_frame self Hwf f Hf) as (b & Hg & Hb & Hl).
  unfold set_frame. rewrite Hg. simpl. eexists. split; [done|].
  rewrite frame_mask_pow by lia.
  apply write_frame; [done..|by apply byte_lor; [|word]|].
  intros b' Hb' i Hi. simplify_eq. rewrite Z.lor_spec, testbit_mask by word.
  destruct (i =? f mod 8); [apply orb_true_r|apply orb_false_r].
Qed.

Lemma for_frames_writes body v self first last :
  writes body v -> wf self -> 0 <= first -> last < len self * 8 ->
  exists m', for_frames body first last (map self) = Some m' /\ wf {| map := m' |} /\
    len {| map := m' |} = len self /\
    forall g, 0 <= g ->
      in_use {| map := m' |} g = if (first <=? g) && (g <=? last) then v else in_use self g.
Proof.
  intros Hbody Hwf Hfirst Hlast. unfold for_frames.
  destruct (foldlM_inv body
    (fun pre m => wf {| map := m |} /\ len {| map := m |} = len self /\
       forall g, 0 <= g -> in_use {| map := m |} g = if bool_decide (g ∈ pre) then v else in_use self g)
    (seqZ first (last - first + 1)) (map self)) as (m' & Hm & Hwf' & Hlen & Huse).
  - destruct self. split_and!; [done..|]. intros g Hg.
    rewrite bool_decide_eq_false_2 by set_solver. done.
  - intros pre f m [k Hk] (Hwf' & Hlen & Huse).
    assert (f ∈ seqZ first (last - first + 1)) as Hf by (rewrite Hk; set_solver).
    apply elem_of_seqZ in Hf.
    destruct (Hbody {| map := m |} f) as (m' & Hm' & Hwf'' & Hlen' & Huse'); [done|rewrite Hlen; lia|].
    exists m'. split; [done|]. split; [done|]. split; [congruence|].
    intros g Hg. rewrite Huse', Huse by done.
    destruct (Z.eqb_spec g f) as [->|Hne].
    + rewrite bool_decide_eq_true_2 by set_solver. done.
    + destruct (bool_decide_reflect (g ∈ pre)).
      * rewrite bool_decide_eq_true_2 by set_solver. done.
      * rewrite bool_decide_eq_false_2 by set_solver. done.
  - exists m'. split_and!; [done..|]. intros g Hg. rewrite Huse by done.
    destruct (bool_decide_reflect (g ∈ seqZ first (last - first + 1))) as [Hin|Hin];
      rewrite elem_of_seqZ in Hin; case_test; (done || lia).
Qed.

(** The indices of a well-formed range do not wrap. *)
Lemma range_indices (r : FrameRange.t) :
  range_wf r ->
  FrameRange.get_first_frame_index r = FrameRange.start r / 4096 /\
  FrameRange.get_last_frame_index r = (FrameRange.start r + FrameRange.length r - 1) / 4096.
Proof.
  intros (H1 & H2 & H3). unfold FrameRange.get_first_frame_index, FrameRange.get_last_frame_index.
  rewrite !shiftr_div by lia. split; [done|]. unfold u32. rewrite Zminus_mod_idemp_l.
  change (2 ^ 12) with 4096. word.
Qed.

Lemma contains_range_spec self r :
  wf self -> range_wf r ->
  contains_range self r = ((FrameRange.start r + FrameRange.length r - 1) / 4096 <? len self * 8).
Proof.
  intros Hwf Hr. unfold contains_range. rewrite total_frame_count_eq by done.
  by destruct (range_indices r Hr) as [_ ->].
Qed.

(** Both range operations: an error out of bounds, otherwise the bits of
    the range are written and the others are kept. *)
Lemma range_update body v self r :
  writes body v -> wf self -> range_wf r -> contains_range self r = true ->
  exists m', for_frames body (FrameRange.get_first_frame_index r)
                 (FrameRange.get_last_frame_index r) (map self) = Some m' /\
    wf {| map := m' |} /\ len {| map := m' |} = len self /\
    forall g, 0 <= g -> in_use {| map := m' |} g = if range_covers r g then v else in_use self g.
Proof.
  intros Hbody Hwf Hr Hc. rewrite contains_range_spec in Hc by done. bool_facts.
  destruct (range_indices r Hr) as [-> ->]. destruct Hr as (Hs & _).
  apply for_frames_writes; [done..| |done]. word.
Qed.

Lemma allocate_range_ok self r :
  wf self -> range_wf r -> contains_range self r = true ->
  exists self', allocate_range self r = Some (Ok tt, self') /\ wf self' /\ len self' = len self /\
    forall g, 0 <= g -> in_use self' g = in_use self g || range_covers r g.
Proof.
  intros Hwf Hr Hc. destruct (range_update _ true self r set_frame_writes Hwf Hr Hc)
    as (m & Hm & Hwf' & Hlen & Huse).
  exists {| map := m |}. unfold allocate_range. rewrite Hc, Hm. simpl. split_and!; [done..|].
  intros g Hg. rewrite Huse by done. destruct (range_covers r g); [by rewrite orb_true_r|by rewrite orb_false_r].
Qed.

Lemma free_range_ok self r :
  wf self -> range_wf r -> contains_range self r = true ->
  exists self', free_range self r = Some (Ok tt, self') /\ wf self' /\ len self' = len self /\
    forall g, 0 <= g -> in_use self' g = in_use self g && negb (range_covers r g).
Proof.
  intros Hwf Hr Hc. destruct (range_update _ false self r clear_frame_writes Hwf Hr Hc)
    as (m & Hm & Hwf' & Hlen & Huse).
  exists {| map := m |}. unfold free_range. rewrite Hc, Hm. simpl. split_and!; [done..|].
  intros g Hg. rewrite Huse by done. destruct (range_covers r g); [by rewrite andb_false_r|by rewrite andb_true_r].
Qed.

(** *** First fit *)

(** [n] consecutive frames from [s] on, all inside the map and all free. *)
Definition free_run (self : t) (s n : Z) : Prop :=
  0 <= s /\ s + n <= len self * 8 /\ forall f, s <= f < s + n -> in_use self f = false.

(** [s] is the lowest start of a free run of [n] frames. *)
Definition first_fit (self : t) (n s : Z) : Prop :=
  free_run self s n /\ forall s', free_run self s' n -> s <= s'.

Lemma search_loop_spec self n fuel frame s remaining :
  wf self -> 0 < n < 2 ^ 20 -> remaining = n - (frame - s) ->
  0 <= s <= frame -> frame <= len self * 8 -> frame - s < n ->
  (forall f, s <= f < frame -> in_use self f = false) ->
  (forall s', free_run self s' n -> s <= s') ->
  (Z.to_nat (len self * 8 - frame) < fuel)%nat ->
  (exists s', search_loop fuel self n frame remaining s =
     Some (Some (FrameRange.new (s' * 4096) (n * 4096))) /\ first_fit self n s') \/
  (search_loop fuel self n frame remaining s = Some None /\ forall s', ~ free_run self s' n).
Proof.
  intros Hwf Hn. revert frame s remaining.
  induction fuel as [|fuel IH]; intros frame s remaining -> Hs Hframe Hrem Hfree Hlow Hfuel; [lia|].
  cbn [search_loop]. rewrite total_frame_count_eq by done.
  assert (len self * 8 <= 2 ^ 20) as Hlen by (destruct Hwf; word).
  case_test.
  - destruct (frame_test self Hwf frame) as (b & Hb & Ht); [lia|]. rewrite Hb. simpl. rewrite Ht.
    replace (u32 (frame + 1)) with (frame + 1) by word.
    destruct (in_use self frame) eqn:Hu; simpl.
    + apply IH; [lia..| |lia].
      intros s' Hs'. destruct (decide (s' <= frame)) as [Hle|]; [|lia].
      assert (s <= s') by auto. destruct Hs' as (_ & _ & Hs').
      rewrite Hs' in Hu by lia. done.
    + replace (u32 (n - (frame - s) - 1)) with (n - (frame + 1 - s)) by word.
      assert (Hfree' : forall f, s <= f < frame + 1 -> in_use self f = false).
      { intros f Hf. destruct (decide (f = frame)) as [->|]; [done|]. apply Hfree. lia. }
      case_test.
      * left. exists s. split.
        { do 3 f_equal; [rewrite shiftl_mul by lia; word|].
          replace (u32 (frame + 1 - s)) with n by word. rewrite shiftl_mul by lia. word. }
        split; [|done]. split; [lia|]. split; [lia|]. intros f Hf. apply Hfree'. lia.
      * apply IH; [done|lia..|done|done|lia].
  - right. split; [done|]. intros s' Hs'. assert (s <= s') by auto. destruct Hs' as (? & ? & _). lia.
Qed.

Lemma find_free_range_cases self n :
  wf self -> 0 < n < 2 ^ 20 ->
  (exists s, find_free_range self n = Some (Some (FrameRange.new (s * 4096) (n * 4096))) /\
     first_fit self n s) \/
  (find_free_range self n = Some None /\ forall s, ~ free_run self s n).
Proof.
  intros Hwf Hn. unfold find_free_range.
  rewrite total_frame_count_eq by done.
  assert (0 <= len self * 8) by (unfold len; lia).
  apply search_loop_spec; try (done || lia).
  intros s' (? & _). lia.
Qed.

Lemma free_run_range self s n :
  wf self -> 0 < n < 2 ^ 20 -> free_run self s n ->
  let r := FrameRange.new (s * 4096) (n * 4096) in
  range_wf r /\ contains_range self r = true /\
  forall g, range_covers r g = (s <=? g) && (g <? s + n).
Proof.
  intros Hwf Hn (Hs & Hlen & _) r.
  assert (len self * 8 <= 2 ^ 20) by (destruct Hwf; word).
  assert (Hr : range_wf r) by (unfold range_wf, r; simpl; word).
  split; [done|]. split.
  - rewrite contains_range_spec by done. unfold r. simpl. apply Z.ltb_lt. word.
  - intros g. unfold range_covers, r. simpl. rewrite Z.div_mul by lia.
    replace ((s * 4096 + n * 4096 - 1) / 4096) with (s + n - 1) by word. lia.
Qed.

(** *** Counting *)

(** The number of free frames below [k], by definition. *)
Definition count_free (self : t) (k : nat) : Z :=
  Z.of_nat (length (filter (fun f => in_use self f = false) (seqZ 0 (Z.of_nat k)))).

Lemma count_free_S self k :
  count_free self (S k) = count_free self k + (if in_use self (Z.of_nat k) then 0 else 1).
Proof.
  unfold count_free. rewrite seqZ_S, filter_app, length_app, Z.add_0_l, filter_cons, filter_nil.
  destruct (in_use self (Z.of_nat k)); case_decide; simpl; (done || lia).
Qed.

Lemma count_free_bound self k : 0 <= count_free self k <= Z.of_nat k.
Proof. induction k; [done|]. rewrite count_free_S. case_test; lia. Qed.

Lemma count_free_eq self self' k :
  (forall f, 0 <= f < Z.of_nat k -> in_use self f = in_use self' f) ->
  count_free self k = count_free self' k.
Proof.
  induction k as [|k IH]; intros H; [done|].
  rewrite !count_free_S, IH, H by (intros; (apply H || idtac); lia). done.
Qed.

(** Marking the [n] frames of a free run takes exactly [n] from the count. *)
Lemma count_free_mark self self' s n k :
  0 <= s -> 0 <= n ->
  (forall f, s <= f < s + n -> in_use self f = false) ->
  (forall f, 0 <= f -> in_use self' f = in_use self f || ((s <=? f) && (f <? s + n))) ->
  count_free self' k = count_free self k - (Z.max 0 (Z.min (Z.of_nat k) (s + n) - s)).
Proof.
  intros Hs Hn Hfree Hmark. induction k as [|k IH]; [unfold count_free; simpl; lia|].
  rewrite !count_free_S, IH, Hmark by lia.
  destruct (Z.leb_spec s (Z.of_nat k)); simpl.
  - destruct (Z.ltb_spec (Z.of_nat k) (s + n)); simpl.
    + rewrite Hfree by lia. simpl. lia.
    + rewrite orb_false_r. case_test; lia.
  - rewrite orb_false_r. case_test; lia.
Qed.

(** The mask loop adds the clear bits of a byte, from bit [i] on. *)
Lemma count_free_bits_spec self j i fuel b free frame :
  wf self -> map self !! j = Some b -> 0 <= i <= 8 ->
  (Z.to_nat (8 - i) < fuel)%nat ->
  frame = Z.of_nat j * 8 + i -> frame <= 2 ^ 20 -> free = count_free self (Z.to_nat frame) ->
  count_free_bits fuel b (u8 (1 ≪ i)) free frame =
  (count_free self (Z.to_nat (Z.of_nat j * 8 + 8)), Z.of_nat j * 8 + 8).
Proof.
  intros Hwf Hb. revert i free frame.
  induction fuel as [|fuel IH]; intros i free frame Hi Hfuel -> Hle ->; [lia|].
  cbn [count_free_bits].
  destruct (decide (i = 8)) as [->|Hne]; [done|].
  assert (Hm : u8 (1 ≪ i) = 1 ≪ i).
  { rewrite shiftl_mul, Z.mul_1_l by lia. unfold u8. apply Z.mod_small.
    split; [apply Z.pow_nonneg; lia|]. apply Z.pow_lt_mono_r; lia. }
  rewrite Hm. rewrite (proj2 (Z.eqb_neq _ 0)).
  2:{ rewrite shiftl_mul, Z.mul_1_l by lia. apply Z.pow_nonzero; lia. }
  rewrite land_bit_eqb by lia.
  replace ((1 ≪ i) ≪ 1) with (1 ≪ (i + 1)) by (by rewrite Z.shiftl_shiftl by lia).
  assert (j < length (map self))%nat by (by apply lookup_lt_Some in Hb).
  assert (Hbit : Z.testbit b i = in_use self (Z.of_nat j * 8 + i)).
  { unfold in_use. replace (Z.to_nat ((Z.of_nat j * 8 + i) / 8)) with j by word.
    rewrite Hb. f_equal. word. }
  pose proof (count_free_bound self (Z.to_nat (Z.of_nat j * 8 + i))).
  assert (Z.of_nat j * 8 + 8 <= 2 ^ 20) by (destruct Hwf; unfold len in *; word).
  apply IH; [lia|lia|word|word|].
  replace (Z.to_nat (u32 (Z.of_nat j * 8 + i + 1))) with (S (Z.to_nat (Z.of_nat j * 8 + i))) by word.
  rewrite count_free_S, Z2Nat.id, <- Hbit by lia.
  destruct (Z.testbit b i); simpl; [lia|word].
Qed.

Lemma full_byte_in_use self frame :
  0 <= frame -> map self !! Z.to_nat (frame / 8) = Some 0xff -> in_use self frame = true.
Proof.
  intros Hf Hb. unfold in_use. rewrite Hb.
  apply (bit_index_cases (Z.testbit 0xff)); [done|word].
Qed.

Lemma free_frame_loop_spec self fuel frame :
  wf self -> 0 <= frame <= len self * 8 ->
  (frame mod 8 = 0 \/ map self !! Z.to_nat (frame / 8) = Some 0xff) ->
  (Z.to_nat (len self * 8 - frame) < fuel)%nat ->
  free_frame_loop fuel self frame (count_free self (Z.to_nat frame)) =
  Some (count_free self (Z.to_nat (len self * 8))).
Proof.
  intros Hwf. assert (len self * 8 <= 2 ^ 20) by (destruct Hwf; word).
  revert frame. induction fuel as [|fuel IH]; intros frame Hf Hpos Hfuel; [lia|].
  cbn [free_frame_loop]. rewrite total_frame_count_eq by done.
  case_test; [|by replace frame with (len self * 8) by lia].
  destruct (get_byte_frame self Hwf frame) as (b & Hg & Hb8 & Hb); [lia|]. rewrite Hg. cbn [mbind option_bind].
  case_test.
  - destruct Hpos as [Hpos|Hpos]; [|simplify_eq].
    pose proof (count_free_bits_spec self (Z.to_nat (frame / 8)) 0 9 b _ frame Hwf Hb
      ltac:(lia) ltac:(lia) ltac:(word) ltac:(lia) eq_refl) as Hcount.
    change (u8 (1 ≪ 0)) with 1 in Hcount. rewrite Hcount.
    replace (Z.of_nat (Z.to_nat (frame / 8)) * 8 + 8) with (frame + 8) by word.
    apply IH; [word|left; word|word].
  - subst b. replace (u32 (frame + 1)) with (frame + 1) by word.
    replace (count_free self (Z.to_nat frame)) with (count_free self (Z.to_nat (frame + 1))).
    + apply IH; [lia| |lia].
      destruct (decide ((frame + 1) mod 8 = 0)); [by left|right].
      replace ((frame + 1) / 8) with (frame / 8) by word. done.
    + replace (Z.to_nat (frame + 1)) with (S (Z.to_nat frame)) by lia.
      rewrite count_free_S, Z2Nat.id, full_byte_in_use by (done || lia). lia.
Qed.

Lemma get_free_frame_count_eq self :
  wf self -> get_free_frame_count self = Some (count_free self (Z.to_nat (len self * 8))).
Proof.
  intros Hwf. unfold get_free_frame_count. rewrite total_frame_count_eq by done.
  assert (0 <= len self * 8) by (unfold len; lia).
  apply (free_frame_loop_spec self _ 0); [done|lia|by left|lia].
Qed.

(** *** Loading the BIOS memory map *)

(** The range a free entry of the memory map denotes. *)
Definition entry_range (e : Bios.MapEntry) : FrameRange.t :=
  FrameRange.new (u32 (Bios.base e)) (u32 (Bios.length e)).

Definition entry_free (e : Bios.MapEntry) : bool := Bios.region_type e =? Bios.REGION_TYPE_FREE.

Definition frees (es : list Bios.MapEntry) (f : Z) : bool :=
  existsb (fun e => entry_free e && range_covers (entry_range e) f) es.

Definition free_bytes (es : list Bios.MapEntry) : Z :=
  foldr (fun e acc => (if entry_free e then u32 (Bios.length e) else 0) + acc) 0 es.

Lemma reset_spec self : wf self -> wf (reset self) /\ len (reset self) = len self /\
  forall f, 0 <= f < len self * 8 -> in_use (reset self) f = true.
Proof.
  intros Hwf. assert (Hlen : len (reset self) = len self).
  { unfold len, reset. simpl. by rewrite length_fmap. }
  split_and!; [|done|].
  - split; [|rewrite Hlen; apply Hwf]. unfold reset. simpl.
    apply Forall_fmap, Forall_true. intros. unfold compose. word.
  - intros f Hf. apply full_byte_in_use; [lia|]. unfold reset. simpl. rewrite list_lookup_fmap.
    destruct (get_byte_frame self Hwf f Hf) as (b & _ & _ & ->). done.
Qed.

Lemma free_entries_ok self total es :
  wf self -> Forall (fun e => entry_free e = true ->
     range_wf (entry_range e) /\ contains_range self (entry_range e) = true) es ->
  0 <= total ->
  exists self', free_entries self (u32 total) es = Some (Ok (u32 (total + free_bytes es)), self') /\
    wf self' /\ len self' = len self /\
    forall f, 0 <= f -> in_use self' f = in_use self f && negb (frees es f).
Proof.
  revert self total. induction es as [|e es IH]; intros self total Hwf Hes Htotal.
  - simpl. exists self. rewrite Z.add_0_r. split_and!; [done..|]. intros. by rewrite andb_true_r.
  - apply Forall_cons_1 in Hes as [He Hes]. cbn [free_entries frees existsb free_bytes foldr].
    fold (entry_free e). destruct (entry_free e) eqn:Hfree.
    + destruct (He eq_refl) as [Hr Hc]. fold (entry_range e).
      destruct (free_range_ok self (entry_range e) Hwf Hr Hc) as (self1 & H1 & Hwf1 & Hlen1 & Huse1).
      rewrite H1. cbn [mbind option_bind].
      destruct (IH self1 (total + u32 (Bios.length e))) as (self2 & H2 & Hwf2 & Hlen2 & Huse2);
        [done| |word|].
      { eapply Forall_impl; [exact Hes|]. intros e' He' Hf. destruct (He' Hf). split; [done|].
        unfold contains_range, total_frame_count in *. by rewrite Hlen1. }
      exists self2. replace (u32 (u32 total + u32 (Bios.length e))) with (u32 (total + u32 (Bios.length e))) by word.
      rewrite H2. split_and!; [by rewrite <- Z.add_assoc|done|congruence|].
      intros f Hf. rewrite Huse2, Huse1 by done. fold (frees es f). simpl.
      by rewrite negb_orb, andb_assoc.
    + destruct (IH self total) as (self2 & H2 & ? & ? & ?); [done..|].
      exists self2. simpl. done.
Qed.

(** A frame whose byte address is [addr] is freed only when it is in use. *)
Lemma free_frame_cases self addr :
  wf self -> is_u32 addr ->
  (len self * 8 <= addr / 4096 /\ free_frame self addr = Some (Err OutOfBounds, self)) \/
  (addr / 4096 < len self * 8 /\ in_use self (addr / 4096) = false /\
     free_frame self addr = Some (Err AlreadyFree, self)) \/
  (addr / 4096 < len self * 8 /\ in_use self (addr / 4096) = true /\
     exists self', free_frame self addr = Some (Ok tt, self') /\ wf self' /\ len self' = len self /\
       forall g, 0 <= g -> in_use self' g = in_use self g && negb (g =? addr / 4096)).
Proof.
  intros Hwf Ha. unfold free_frame. rewrite total_frame_count_eq, shiftr_div by (done || lia).
  change (2 ^ 12) with 4096. case_test; [by left|right].
  assert (Hf : 0 <= addr / 4096 < len self * 8) by word.
  destruct (frame_test self Hwf _ Hf) as (b & Hb & Ht). rewrite Hb. simpl. rewrite Ht.
  destruct (in_use self (addr / 4096)) eqn:Hu; simpl; [right|by left].
  split; [lia|]. split; [done|].
  destruct (clear_frame_writes self _ Hwf Hf) as (m & Hm & Hwf' & Hlen & Huse).
  unfold clear_frame in Hm. rewrite Hb in Hm. simpl in Hm. injection Hm as Hm. rewrite Hm.
  exists {| map := m |}. split_and!; [done..|]. intros g Hg. rewrite Huse by done.
  destruct (g =? addr / 4096); [by rewrite andb_false_r|by rewrite andb_true_r].
Qed.

(** ** Properties *)

(** C17: [allocate_frames] is a first-fit allocator that hands out only
    free frames.  On success the range starts at the lowest run of [n] free
    frames, exactly the frames of the range become used, no other frame
    changes, and the free-frame count the kernel reports drops by [n]; on
    failure there is no run of [n] free frames and the bitmap is unchanged. *)
Theorem allocate_frames_first_fit self n :
  wf self -> 0 < n < 2 ^ 20 ->
  (exists s self' free,
     allocate_frames self n = Some (Ok (FrameRange.new (s * 4096) (n * 4096)), self') /\
     first_fit self n s /\ wf self' /\
     (forall f, 0 <= f -> in_use self' f = in_use self f || ((s <=? f) && (f <? s + n))) /\
     get_free_frame_count self = Some free /\ get_free_frame_count self' = Some (free - n)) \/
  (allocate_frames self n = Some (Err NoAvailableSpace, self) /\ forall s, ~ free_run self s n).
Proof.
  intros Hwf Hn. unfold allocate_frames.
  destruct (find_free_range_cases self n Hwf Hn) as [(s & Hfind & Hfit)|[Hfind Hno]];
    rewrite Hfind; cbn [mbind option_bind]; [left|right; auto].
  pose proof (proj1 Hfit) as (Hs & Hle & Hfree).
  destruct (free_run_range self s n Hwf Hn (proj1 Hfit)) as (Hr & Hc & Hcov).
  destruct (allocate_range_ok self _ Hwf Hr Hc) as (self' & Ha & Hwf' & Hlen & Huse).
  rewrite Ha. cbn [mbind option_bind]. exists s, self', (count_free self (Z.to_nat (len self * 8))).
  split; [done|]. split; [done|]. split; [done|]. split.
  { intros f Hf. by rewrite Huse, Hcov by done. }
  split; [by apply get_free_frame_count_eq|].
  rewrite get_free_frame_count_eq, Hlen by done. f_equal.
  rewrite (count_free_mark self self' s n); [lia..|done|].
  intros f Hf. by rewrite Huse, Hcov by done.
Qed.

(** The two range operations.  A range that reaches past the end of
    the bitmap is refused with [OutOfBounds] and nothing changes; otherwise
    [allocate_range] sets and [free_range] clears exactly the frames of the
    range, and freeing a range that was free before it was allocated gives
    every frame its old state back. *)
Theorem range_operations self r :
  wf self -> range_wf r ->
  (contains_range self r = false /\
   allocate_range self r = Some (Err OutOfBounds, self) /\
   free_range self r = Some (Err OutOfBounds, self)) \/
  (exists sa sf,
     allocate_range self r = Some (Ok tt, sa) /\ free_range self r = Some (Ok tt, sf) /\
     wf sa /\ wf sf /\
     (forall g, 0 <= g -> in_use sa g = in_use self g || range_covers r g) /\
     (forall g, 0 <= g -> in_use sf g = in_use self g && negb (range_covers r g)) /\
     ((forall g, range_covers r g = true -> in_use self g = false) ->
      exists s', free_range sa r = Some (Ok tt, s') /\
        forall g, 0 <= g -> in_use s' g = in_use self g)).
Proof.
  intros Hwf Hr. destruct (contains_range self r) eqn:Hc; [right|left].
  2:{ split; [done|]. unfold allocate_range, free_range. rewrite Hc. done. }
  destruct (allocate_range_ok self r Hwf Hr Hc) as (sa & Ha & Hwfa & Hlena & Husea).
  destruct (free_range_ok self r Hwf Hr Hc) as (sf & Hf & Hwff & _ & Husef).
  exists sa, sf. split_and!; [done..|]. intros Hfree.
  assert (Hc' : contains_range sa r = true).
  { unfold contains_range, total_frame_count in *. by rewrite Hlena. }
  destruct (free_range_ok sa r Hwfa Hr Hc') as (s' & Hs' & _ & _ & Huse').
  exists s'. split; [done|]. intros g Hg. rewrite Huse', Husea by done.
  destruct (range_covers r g) eqn:Hcov; simpl.
  - rewrite andb_false_r. symmetry. by apply Hfree.
  - by rewrite orb_false_r, andb_true_r.
Qed.

(** Loading the BIOS memory map.  When every free entry lies inside
    the bitmap, the load succeeds, returns the number of free bytes (modulo
    the 32-bit accumulator), and a frame is free afterwards exactly when some
    entry of type [REGION_TYPE_FREE] covers it: reserved and unlisted memory
    stays in use. *)
Theorem memory_map_loaded self es :
  wf self ->
  Forall (fun e => entry_free e = true ->
    range_wf (entry_range e) /\ contains_range self (entry_range e) = true) es ->
  exists self', initialize_from_memory_map self es = Some (Ok (u32 (free_bytes es)), self') /\
    wf self' /\
    forall f, 0 <= f < len self * 8 -> in_use self' f = negb (frees es f).
Proof.
  intros Hwf Hes. destruct (reset_spec self Hwf) as (Hwfr & Hlen & Huse).
  destruct (free_entries_ok (reset self) 0 es) as (self' & H & Hwf' & _ & Huse'); [done| |done|].
  { eapply Forall_impl; [exact Hes|]. intros e He Hf. destruct (He Hf). split; [done|].
    unfold contains_range, total_frame_count in *. by rewrite Hlen. }
  exists self'. split; [exact H|]. split; [done|].
  intros f Hf. rewrite Huse' by lia. rewrite Huse by done. done.
Qed.

(** ** Witnesses *)

(** 16 frames: 2..5 and 9..15 are free. *)
Definition sample : t := {| map := [0xc3; 0x01] |}.

Lemma sample_wf : wf sample.
Proof. split; [repeat constructor; simpl; lia|done]. Qed.

Lemma allocate_frames_witness :
  exists self', allocate_frames sample 5 = Some (Ok (FrameRange.new 0x9000 0x5000), self') /\
    in_use self' 9 = true /\ first_fit sample 5 9.
Proof.
  destruct (allocate_frames_first_fit sample 5 sample_wf) as [(s & self' & free & Ha & Hfit & _ & Hu & _)|[Ha _]];
    [lia| |vm_compute in Ha; congruence].
  assert (Hs : s = 9).
  { pose proof (f_equal (fun o => match o with Some (Ok r, _) => FrameRange.start r | _ => 0 end) Ha) as Hs.
    cbn [FrameRange.start] in Hs. change (0x9000 = s * 4096) in Hs. lia. }
  subst s. exists self'. split; [exact Ha|]. split; [by rewrite Hu by lia|exact Hfit].
Defined.

Lemma range_operations_witness :
  exists sa, allocate_range sample (FrameRange.new 0x2000 0x2000) = Some (Ok tt, sa) /\
    exists s', free_range sa (FrameRange.new 0x2000 0x2000) = Some (Ok tt, s') /\ in_use s' 2 = false.
Proof.
  destruct (range_operations sample (FrameRange.new 0x2000 0x2000) sample_wf) as [(H & _)|(sa & sf & Ha & _ & _ & _ & _ & _ & Hback)].
  - split_and!; vm_compute; congruence.
  - vm_compute in H. congruence.
  - exists sa. split; [exact Ha|]. destruct Hback as (s' & Hs' & Hu).
    + intros g Hg. change ((2 <=? g) && (g <=? 3) = true) in Hg. bool_facts.
      assert (g = 2 \/ g = 3) as [-> | ->] by lia; reflexivity.
    + exists s'. split; [exact Hs'|]. rewrite Hu by lia. reflexivity.
Defined.

Lemma memory_map_witness :
  exists self', initialize_from_memory_map sample
      [ {| Bios.base := 0x3000; Bios.length := 0x4000; Bios.region_type := 1; Bios.acpi := 0 |};
        {| Bios.base := 0x7000; Bios.length := 0x2000; Bios.region_type := 2; Bios.acpi := 0 |} ]
      = Some (Ok 0x4000, self') /\ in_use self' 3 = false /\ in_use self' 7 = true.
Proof.
  destruct (memory_map_loaded sample
    [ {| Bios.base := 0x3000; Bios.length := 0x4000; Bios.region_type := 1; Bios.acpi := 0 |};
      {| Bios.base := 0x7000; Bios.length := 0x2000; Bios.region_type := 2; Bios.acpi := 0 |} ] sample_wf)
    as (self' & H & _ & Hu).
  - constructor; [|constructor; [|constructor]]; intros He; [|vm_compute in He; congruence].
    split; [split_and!; vm_compute; congruence|vm_compute; reflexivity].
  - exists self'. split; [exact H|]. rewrite !Hu by (vm_compute; split; congruence). vm_compute. split; reflexivity.
Defined.

End FrameBitmap.
