(* ===== verification/Tracking.v ===== *)
(** * Frame reference counts: the radix tree

    [kernel/src/memory/physical/tracking.rs].  Four levels of 32-way nodes
    over the 20-bit page number; a leaf holds the reference count of a frame.
    The proofs show that the tree is a finite map from page numbers to
    counts. *)

From S2P Require Import Prelude.

Module Tracking.

Definition RADIX_BITS : Z := 5.
Definition FANOUT : Z := 1 ≪ RADIX_BITS.
Definition TREE_DEPTH : Z := 4.
Definition PAGE_BITS : Z := 12.

(** A node; [children] is an array of [FANOUT] slots once allocated. *)
Inductive Node :=
| mk_node (value : option Z) (children : option (list (option Node))).

Definition node_value (n : Node) : option Z := let 'mk_node v _ := n in v.
Definition node_children (n : Node) : option (list (option Node)) := let 'mk_node _ c := n in c.

Definition node_new : Node := mk_node None None.
Definition node_with_value (v : Z) : Node := mk_node (Some v) None.

Definition ensure_children (n : Node) : Node :=
  match node_children n with
  | None => mk_node (node_value n) (Some (replicate (Z.to_nat FANOUT) None))
  | Some _ => n
  end.

(** [children[index] = child] on the boxed array of a node. *)
Definition set_child (n : Node) (cs : list (option Node)) (index : Z) (child : option Node) : Node :=
  mk_node (node_value n) (Some (<[Z.to_nat index := child]> cs)).

(** [AddressTree]: an optional root. *)
Record AddressTree := { root : option Node }.
Definition new : AddressTree := {| root := None |}.

Definition extract_index (addr level : Z) : Z :=
  let page_num := addr ≫ PAGE_BITS in
  let shift := (TREE_DEPTH - 1 - level) * RADIX_BITS in
  (page_num ≫ shift) .& ((1 ≪ RADIX_BITS) - 1).

(** The indices of the interior levels 0..2, and of all levels. *)
Definition interior_path (addr : Z) : list Z := extract_index addr <$> [0; 1; 2].
Definition leaf_index (addr : Z) : Z := extract_index addr (TREE_DEPTH - 1).
Definition full_path (addr : Z) : list Z := extract_index addr <$> [0; 1; 2; 3].

Definition page_aligned (addr : Z) : bool := addr .& 0xfff =? 0.

(** *** [add_reference]

    The loop descends through a mutable reference; the recursion returns the
    updated node instead. *)
Definition add_leaf (index : Z) (current : Node) : option (Z * Node) :=
  let current := ensure_children current in
  cs ← node_children current;
  slot ← cs !! Z.to_nat index;
  match slot with
  | None => Some (1, set_child current cs index (Some (node_with_value 1)))
  | Some leaf =>
      v ← node_value leaf;
      let new_value := u32 (v + 1) in
      Some (new_value, set_child current cs index (Some (mk_node (Some new_value) (node_children leaf))))
  end.

Fixpoint add_walk (path : list Z) (leaf : Z) (current : Node) : option (Z * Node) :=
  match path with
  | [] => add_leaf leaf current
  | index :: rest =>
      let current := ensure_children current in
      cs ← node_children current;
      slot ← cs !! Z.to_nat index;
      let child := match slot with None => node_new | Some c => c end in
      '(r, child') ← add_walk rest leaf child;
      Some (r, set_child current cs index (Some child'))
  end.

Definition add_reference (self : AddressTree) (addr : Z) : option (Z * AddressTree) :=
  if negb (page_aligned addr) then None
  else
    let current := match root self with Some node => node | None => node_new end in
    '(r, n) ← add_walk (interior_path addr) (leaf_index addr) current;
    Some (r, {| root := Some n |}).

(** *** [add_reference_if_exists] and [remove_reference]

    Both walk existing nodes only; [Some (None, n)] is the early return of
    [?] with the tree unchanged. *)
Definition if_exists_leaf (index : Z) (current : Node) : option (option Z * Node) :=
  match node_children current with
  | None => Some (None, current)
  | Some cs =>
      slot ← cs !! Z.to_nat index;
      match slot with
      | None => Some (None, current)
      | Some leaf =>
          v ← node_value leaf;
          let new_value := u32 (v + 1) in
          Some (Some new_value,
            set_child current cs index (Some (mk_node (Some new_value) (node_children leaf))))
      end
  end.

Definition remove_leaf (index : Z) (current : Node) : option (option Z * Node) :=
  match node_children current with
  | None => Some (None, current)
  | Some cs =>
      slot ← cs !! Z.to_nat index;
      match slot with
      | None => Some (None, current)
      | Some leaf =>
          current_value ← node_value leaf;
          if 1 <? current_value then
            let new_value := current_value - 1 in
            Some (Some new_value,
              set_child current cs index (Some (mk_node (Some new_value) (node_children leaf))))
          else Some (Some 0, set_child current cs index None)
      end
  end.

Fixpoint walk_existing (at_leaf : Node -> option (option Z * Node)) (path : list Z) (current : Node)
    : option (option Z * Node) :=
  match path with
  | [] => at_leaf current
  | index :: rest =>
      match node_children current with
      | None => Some (None, current)
      | Some cs =>
          slot ← cs !! Z.to_nat index;
          match slot with
          | None => Some (None, current)
          | Some child =>
              '(r, child') ← walk_existing at_leaf rest child;
              Some (r, set_child current cs index (Some child'))
          end
      end
  end.

Definition add_reference_if_exists (self : AddressTree) (addr : Z) : option (option Z * AddressTree) :=
  if negb (page_aligned addr) then None
  else
    match root self with
    | None => Some (None, self)
    | Some node =>
        '(r, n) ← walk_existing (if_exists_leaf (leaf_index addr)) (interior_path addr) node;
        Some (r, {| root := Some n |})
    end.

Definition remove_reference (self : AddressTree) (addr : Z) : option (option Z * AddressTree) :=
  match root self with
  | None => Some (None, self)
  | Some node =>
      '(r, n) ← walk_existing (remove_leaf (leaf_index addr)) (interior_path addr) node;
      Some (r, {| root := Some n |})
  end.

(** *** Lookups

    The loop over all levels; [Some None] is an early return. *)
Fixpoint walk_all (path : list Z) (current : Node) : option (option Node) :=
  match path with
  | [] => Some (Some current)
  | index :: rest =>
      match node_children current with
      | None => Some None
      | Some cs =>
          slot ← cs !! Z.to_nat index;
          match slot with
          | None => Some None
          | Some child => walk_all rest child
          end
      end
  end.

Definition contains (self : AddressTree) (addr : Z) : option bool :=
  match root self with
  | None => Some false
  | Some node =>
      r ← walk_all (full_path addr) node;
      Some (match r with Some _ => true | None => false end)
  end.

Definition get_reference_count (self : AddressTree) (addr : Z) : option (option Z) :=
  match root self with
  | None => Some None
  | Some node =>
      r ← walk_all (full_path addr) node;
      Some (match r with Some n => node_value n | None => None end)
  end.

(** ** Specification *)

(** Well-formed subtrees with [d] levels below: a leaf has a positive count
    and no children; an allocated array has [FANOUT] slots. *)
Fixpoint wf_node (d : nat) (n : Node) : Prop :=
  match d with
  | O => node_children n = None /\ exists v, node_value n = Some v /\ 0 < v < 2 ^ 32
  | S d =>
      forall cs, node_children n = Some cs ->
        length cs = 32%nat /\ forall i c, cs !! i = Some (Some c) -> wf_node d c
  end.

Definition wf_tree (t : AddressTree) : Prop :=
  forall n, root t = Some n -> wf_node 4 n.

Definition valid (path : list Z) : Prop := Forall (fun i => 0 <= i < 32) path.

(** The count stored at the end of a path, if any. *)
Definition count_at (n : Node) (path : list Z) : option Z :=
  match walk_all path n with
  | Some (Some l) => node_value l
  | _ => None
  end.

Definition page (addr : Z) : Z := addr / 4096.

(** The tree represents a map from page numbers to counts. *)
Definition represents (t : AddressTree) (m : gmap Z Z) : Prop :=
  wf_tree t /\
  forall addr, is_u32 addr ->
    match root t with
    | None => m !! page addr = None
    | Some n => m !! page addr = count_at n (full_path addr)
    end.

(** ** Lemmas *)

Lemma extract_index_div (addr level : Z) :
  0 <= level <= 3 -> extract_index addr level = (addr / 4096 / 32 ^ (3 - level)) mod 32.
Proof.
  intros Hl. unfold extract_index, TREE_DEPTH, RADIX_BITS, PAGE_BITS.
  change ((1 ≪ 5) - 1) with (Z.ones 5). rewrite Z.land_ones, !shiftr_div by lia.
  replace ((4 - 1 - level) * 5) with (5 * (3 - level)) by lia.
  rewrite Z.pow_mul_r by lia. done.
Qed.

Lemma full_path_split (addr : Z) : full_path addr = interior_path addr ++ [leaf_index addr].
Proof. done. Qed.

Lemma full_path_valid (addr : Z) : valid (full_path addr).
Proof.
  unfold valid, full_path. repeat constructor; rewrite extract_index_div by lia;
    apply Z.mod_pos_bound; lia.
Qed.

Lemma leaf_index_range (addr : Z) : 0 <= leaf_index addr < 32.
Proof. apply (Forall_lookup_1 _ _ 3 _ (full_path_valid addr)). done. Qed.

(** Two addresses have the same path exactly when they are in the same page. *)
Lemma full_path_inj (a b : Z) :
  is_u32 a -> is_u32 b -> full_path a = full_path b <-> page a = page b.
Proof.
  intros Ha Hb. unfold full_path, page. cbn [fmap list_fmap].
  rewrite !extract_index_div by lia.
  change (32 ^ (3 - 0)) with 32768. change (32 ^ (3 - 1)) with 1024.
  change (32 ^ (3 - 2)) with 32. change (32 ^ (3 - 3)) with 1. rewrite !Z.div_1_r.
  split; [|by intros ->]. intros [= H0 H1 H2 H3]. word.
Qed.

Lemma lookup_slot (cs : list (option Node)) (i : Z) :
  length cs = 32%nat -> 0 <= i < 32 -> exists slot, cs !! Z.to_nat i = Some slot.
Proof. intros Hl Hi. apply lookup_lt_is_Some. lia. Qed.

Lemma wf_new (d : nat) : wf_node (S d) node_new.
Proof. intros cs Hcs. done. Qed.

Lemma ensure_children_spec (d : nat) (n : Node) :
  wf_node (S d) n ->
  exists cs, node_children (ensure_children n) = Some cs /\ length cs = 32%nat /\
    (forall i c, cs !! i = Some (Some c) -> wf_node d c) /\
    forall i path, count_at (ensure_children n) (i :: path) = count_at n (i :: path).
Proof.
  intros Hwf. unfold ensure_children. destruct (node_children n) as [cs|] eqn:Hc.
  - exists cs. destruct (Hwf cs Hc). done.
  - exists (replicate 32 None). split; [done|]. split; [done|]. split.
    + intros i c Hi. apply lookup_replicate in Hi as [Hi _]. done.
    + intros i path. unfold count_at. cbn [walk_all node_children]. rewrite Hc.
      destruct (replicate _ None !! Z.to_nat i) as [o|] eqn:Ho; [|done].
      apply lookup_replicate in Ho as [-> _]. done.
Qed.

Lemma ensure_children_value n : node_value (ensure_children n) = node_value n.
Proof. unfold ensure_children. by destruct (node_children n). Qed.

(** The subtree below a slot. *)
Definition slot_count (slot : option Node) (path : list Z) : option Z :=
  match slot with Some c => count_at c path | None => None end.

Lemma count_at_cons n cs i slot path :
  node_children n = Some cs -> cs !! Z.to_nat i = Some slot ->
  count_at n (i :: path) = slot_count slot path.
Proof.
  intros Hc Hs. unfold count_at. cbn [walk_all]. rewrite Hc, Hs. cbn [mbind option_bind].
  by destruct slot.
Qed.

Lemma set_child_count n cs i slot j path :
  length cs = 32%nat -> node_children n = Some cs -> 0 <= i < 32 -> 0 <= j < 32 ->
  count_at (set_child n cs i slot) (j :: path) =
  if decide (j = i) then slot_count slot path else count_at n (j :: path).
Proof.
  intros Hl Hc Hi Hj. destruct (lookup_slot cs j Hl Hj) as [s Hs].
  case_decide as Hji.
  - subst. apply (count_at_cons _ (<[Z.to_nat i:=slot]> cs)); [done|].
    apply list_lookup_insert_eq. lia.
  - rewrite (count_at_cons n cs j s) by done.
    apply (count_at_cons _ (<[Z.to_nat i:=slot]> cs)); [done|].
    rewrite list_lookup_insert_ne by lia. done.
Qed.

Lemma set_child_wf d n cs i slot :
  length cs = 32%nat -> (forall k c, cs !! k = Some (Some c) -> wf_node d c) ->
  (forall c, slot = Some c -> wf_node d c) -> wf_node (S d) (set_child n cs i slot).
Proof.
  intros Hl Hcs Hslot cs' [= <-]. rewrite length_insert. split; [done|].
  intros k c Hk. destruct (decide (k = Z.to_nat i)) as [->|].
  - apply list_lookup_insert_Some in Hk as [(_ & -> & _)|(? & _)]; [by apply Hslot|done].
  - rewrite list_lookup_insert_ne in Hk by done. by eapply Hcs.
Qed.

(** [n'] holds [v] at the end of [path] and agrees with [n] elsewhere. *)
Definition updated (n n' : Node) (path : list Z) (v : option Z) : Prop :=
  forall q, length q = length path -> valid q ->
    count_at n' q = if decide (q = path) then v else count_at n q.

Lemma updated_cons n cs i slot slot' path v :
  length cs = 32%nat -> node_children n = Some cs -> 0 <= i < 32 ->
  cs !! Z.to_nat i = Some slot ->
  (forall q, length q = length path -> valid q ->
     slot_count slot' q = if decide (q = path) then v else slot_count slot q) ->
  updated n (set_child n cs i slot') (i :: path) v.
Proof.
  intros Hl Hc Hi Hs Hslot [|j q] Hq Hv; [done|]. injection Hq as Hq.
  apply Forall_cons_1 in Hv as [Hj Hv].
  rewrite set_child_count by done. destruct (decide (j = i)) as [->|Hne].
  - rewrite Hslot by done. rewrite (count_at_cons n cs i slot) by done.
    destruct (decide (q = path)) as [->|]; [by rewrite decide_True|].
    rewrite decide_False; [done|]. congruence.
  - rewrite (decide_False (P := j :: q = i :: path)); [done|]. congruence.
Qed.

Lemma updated_id n path : updated n n path (count_at n path).
Proof. intros q _ _. case_decide; [by subst|done]. Qed.

Section LeafOps.
Context (index : Z) (Hindex : 0 <= index < 32).

Lemma add_leaf_spec n :
  wf_node 1 n -> (forall v, count_at n [index] = Some v -> v < 2 ^ 32 - 1) ->
  let r := default 0 (count_at n [index]) + 1 in
  exists n', add_leaf index n = Some (r, n') /\ wf_node 1 n' /\ updated n n' [index] (Some r).
Proof.
  intros Hwf Hlt. destruct (ensure_children_spec 0 n Hwf) as (cs & Hc & Hl & Hcs & Hsame).
  destruct (lookup_slot cs index Hl Hindex) as [slot Hs].
  rewrite <- Hsame in Hlt |- *. rewrite (count_at_cons _ cs index slot) in Hlt |- * by done.
  unfold add_leaf. rewrite Hc. cbn [mbind option_bind]. rewrite Hs. cbn [mbind option_bind].
  set (m := ensure_children n) in *.
  assert (Hup : forall slot' v, slot_count slot' [] = v -> updated n (set_child m cs index slot') [index] v).
  { intros slot' v Hv [|j q] Hq Hval; [done|]. rewrite <- Hsame.
    apply (updated_cons m cs index slot slot' []); try done.
    intros q' Hq' _. apply nil_length_inv in Hq' as ->. done. }
  destruct slot as [leaf|]; simpl in *.
  - destruct (Hcs _ _ Hs) as (Hnc & v & Hv & Hpos). unfold count_at in Hlt. simpl in Hlt.
    unfold count_at. simpl. rewrite Hv in Hlt |- *. cbn [mbind option_bind].
    specialize (Hlt v eq_refl). replace (u32 (v + 1)) with (v + 1) by word.
    eexists. split; [done|]. split; [|by apply Hup].
    apply (set_child_wf 0); [done..|]. intros c [= <-]. simpl. split; [done|]. eexists. split; [done|lia].
  - eexists. split; [done|]. split; [|by apply Hup].
    apply (set_child_wf 0); [done..|]. intros c [= <-]. simpl. split; [done|]. eexists. split; [done|lia].
Qed.

(** What an operation on an existing leaf does: [res] is its return value
    and [upd] the new count. *)
Definition leaf_op (op : Node -> option (option Z * Node)) (upd : Z -> option Z) (res : Z -> Z) : Prop :=
  forall n, wf_node 1 n -> (forall v, count_at n [index] = Some v -> v < 2 ^ 32 - 1) ->
  exists n', op n = Some (res <$> count_at n [index], n') /\ wf_node 1 n' /\
    updated n n' [index] (count_at n [index] ≫= upd).

Lemma leaf_op_intro (op : Node -> option (option Z * Node)) upd res :
  (forall n, node_children n = None -> op n = Some (None, n)) ->
  (forall n cs, node_children n = Some cs -> cs !! Z.to_nat index = Some None -> op n = Some (None, n)) ->
  (forall n cs leaf v, node_children n = Some cs -> cs !! Z.to_nat index = Some (Some leaf) ->
     node_value leaf = Some v -> node_children leaf = None -> 0 < v < 2 ^ 32 - 1 ->
     op n = Some (Some (res v), set_child n cs index
        ((fun w => mk_node (Some w) (node_children leaf)) <$> upd v)) /\
     forall w, upd v = Some w -> 0 < w < 2 ^ 32) ->
  leaf_op op upd res.
Proof.
  intros Hnone Hempty Hleaf n Hwf Hlt. destruct (node_children n) as [cs|] eqn:Hc.
  - destruct (Hwf cs Hc) as [Hl Hcs]. destruct (lookup_slot cs index Hl Hindex) as [slot Hs].
    pose proof (updated_id n [index]) as Hid.
    rewrite (count_at_cons n cs index slot [] Hc Hs) in Hlt, Hid |- *.
    destruct slot as [leaf|]; simpl in *.
    + destruct (Hcs _ _ Hs) as (Hnc & v & Hv & Hpos).
      unfold count_at in Hlt |- *. cbn [walk_all mbind option_bind] in Hlt |- *. rewrite Hv in Hlt |- *.
      specialize (Hlt v eq_refl).
      destruct (Hleaf n cs leaf v Hc Hs Hv Hnc) as [Hop Hw]; [lia|].
      eexists. split; [exact Hop|]. split.
      * apply (set_child_wf 0); [done..|]. intros c Hcc. destruct (upd v) as [w|]; [|done].
        injection Hcc as <-. simpl. split; [done|]. exists w. split; [done|]. by apply Hw.
      * apply (updated_cons n cs index (Some leaf)); try done.
        intros q Hq _. apply nil_length_inv in Hq as ->. simpl. by destruct (upd v).
    + exists n. split; [by eapply Hempty|]. done.
  - exists n. split; [rewrite Hnone by done|split; [done|]].
    + unfold count_at. simpl. by rewrite Hc.
    + pose proof (updated_id n [index]) as Hid.
      assert (Hz : count_at n [index] = None) by (unfold count_at; simpl; by rewrite Hc).
      rewrite Hz in Hid |- *. done.
Qed.

Lemma if_exists_leaf_op : leaf_op (if_exists_leaf index) (fun v => Some (v + 1)) (fun v => v + 1).
Proof.
  apply leaf_op_intro; unfold if_exists_leaf.
  - intros n ->. done.
  - intros n cs -> Hs. rewrite Hs. done.
  - intros n cs leaf v -> Hs Hv Hnc Hb. rewrite Hs. cbn [mbind option_bind]. rewrite Hv.
    cbn [mbind option_bind]. replace (u32 (v + 1)) with (v + 1) by word. split; [done|].
    intros w [= <-]. lia.
Qed.

Lemma remove_leaf_op :
  leaf_op (remove_leaf index) (fun v => if 1 <? v then Some (v - 1) else None) (fun v => v - 1).
Proof.
  apply leaf_op_intro; unfold remove_leaf.
  - intros n ->. done.
  - intros n cs -> Hs. rewrite Hs. done.
  - intros n cs leaf v -> Hs Hv Hnc Hb. rewrite Hs. cbn [mbind option_bind]. rewrite Hv.
    cbn [mbind option_bind]. case_test; simpl.
    + split; [done|]. intros w [= <-]. lia.
    + replace (v - 1) with 0 by lia. done.
Qed.
End LeafOps.

(** *** Walks *)

Lemma add_walk_spec path leaf n :
  valid path -> 0 <= leaf < 32 -> wf_node (S (length path)) n ->
  (forall v, count_at n (path ++ [leaf]) = Some v -> v < 2 ^ 32 - 1) ->
  let r := default 0 (count_at n (path ++ [leaf])) + 1 in
  exists n', add_walk path leaf n = Some (r, n') /\ wf_node (S (length path)) n' /\
    updated n n' (path ++ [leaf]) (Some r).
Proof.
  intros Hval Hleaf. revert n. induction path as [|i path IH]; intros n Hwf Hlt; [by apply add_leaf_spec|].
  apply Forall_cons_1 in Hval as [Hi Hval]. specialize (IH Hval).
  destruct (ensure_children_spec _ n Hwf) as (cs & Hc & Hl & Hcs & Hsame).
  destruct (lookup_slot cs i Hl Hi) as [slot Hs].
  cbn [add_walk app] in *. rewrite <- Hsame in Hlt |- *.
  rewrite (count_at_cons _ cs i slot) in Hlt |- * by done.
  rewrite Hc. cbn [mbind option_bind]. rewrite Hs. cbn [mbind option_bind].
  set (child := match slot with Some c => c | None => node_new end).
  assert (Hcount : forall q, slot_count slot (q ++ [leaf]) = count_at child (q ++ [leaf])).
  { intros q. unfold child. destruct slot; [done|]. by destruct q. }
  assert (Hwfc : wf_node (S (length path)) child).
  { unfold child. destruct slot; [by eapply Hcs|apply wf_new]. }
  rewrite Hcount in Hlt |- *. destruct (IH child Hwfc Hlt) as (n' & Hadd & Hwf' & Hup).
  rewrite Hadd. cbn [mbind option_bind]. eexists. split; [done|]. split.
  - apply (set_child_wf (S (length path))); [done..|]. by intros c [= <-].
  - intros [|j q] Hq Hv; [done|]. rewrite <- Hsame.
    apply (updated_cons (ensure_children n) cs i slot (Some n') (path ++ [leaf])); try done.
    intros q' Hq' Hv'. simpl. rewrite Hup by done. case_decide; [done|].
    destruct (exists_last (l := q')) as (q0 & x & ->).
    { intros ->. by destruct path. }
    unfold child. destruct slot; [done|]. by destruct q0.
Qed.

Lemma walk_existing_spec op upd res path leaf n :
  leaf_op leaf op upd res ->
  valid path -> wf_node (S (length path)) n ->
  (forall v, count_at n (path ++ [leaf]) = Some v -> v < 2 ^ 32 - 1) ->
  exists n', walk_existing op path n = Some (res <$> count_at n (path ++ [leaf]), n') /\
    wf_node (S (length path)) n' /\
    updated n n' (path ++ [leaf]) (count_at n (path ++ [leaf]) ≫= upd).
Proof.
  intros Hop Hval. revert n. induction path as [|i path IH]; intros n Hwf Hlt; [by apply Hop|].
  apply Forall_cons_1 in Hval as [Hi Hval]. specialize (IH Hval).
  cbn [walk_existing app] in *.
  pose proof (updated_id n (i :: path ++ [leaf])) as Hid.
  destruct (node_children n) as [cs|] eqn:Hc.
  - destruct (Hwf cs Hc) as [Hl Hcs]. destruct (lookup_slot cs i Hl Hi) as [slot Hs].
    rewrite (count_at_cons n cs i slot) in Hlt, Hid |- * by done.
    rewrite Hs. cbn [mbind option_bind]. destruct slot as [child|]; simpl in *.
    + destruct (IH child) as (n' & Hw & Hwf' & Hup); [by eapply Hcs|done|].
      rewrite Hw. cbn [mbind option_bind]. eexists. split; [done|]. split.
      * apply (set_child_wf (S (length path))); [done..|]. by intros c [= <-].
      * apply (updated_cons n cs i (Some child) (Some n')); done.
    + exists n. done.
  - assert (Hz : count_at n (i :: path ++ [leaf]) = None) by (unfold count_at; simpl; by rewrite Hc).
    rewrite Hz in Hid |- *. exists n. done.
Qed.

Lemma walk_all_wf path n :
  valid path -> wf_node (length path) n ->
  match walk_all path n with
  | Some (Some l) => is_Some (node_value l)
  | Some None => True
  | None => False
  end.
Proof.
  intros Hval. revert n. induction path as [|i path IH]; intros n Hwf.
  - simpl in *. destruct Hwf as (_ & v & -> & _). done.
  - apply Forall_cons_1 in Hval as [Hi Hval]. cbn [walk_all].
    destruct (node_children n) as [cs|] eqn:Hc; [|done].
    destruct (Hwf cs Hc) as [Hl Hcs]. destruct (lookup_slot cs i Hl Hi) as [slot Hs].
    rewrite Hs. cbn [mbind option_bind]. destruct slot as [child|]; [|done].
    apply IH; [done|]. by eapply Hcs.
Qed.

(** *** Operations on the represented map *)

Lemma represents_updated t m n n' addr v :
  represents t m -> is_u32 addr -> wf_node 4 n' ->
  (forall b, is_u32 b -> m !! page b = count_at n (full_path b)) ->
  updated n n' (full_path addr) v ->
  represents {| root := Some n' |}
    (match v with Some c => <[page addr := c]> m | None => delete (page addr) m end).
Proof.
  intros _ Ha Hwf Hm Hup. split; [by intros ? [= <-]|]. intros b Hb. simpl.
  rewrite Hup by (done || apply full_path_valid). rewrite <- Hm by done.
  destruct (decide (full_path b = full_path addr)) as [Heq|Hne].
  - apply full_path_inj in Heq; [|done..]. rewrite Heq.
    destruct v; by simplify_map_eq.
  - assert (page addr <> page b) by (intros E; apply Hne, full_path_inj; done).
    destruct v; by simplify_map_eq.
Qed.

Lemma represents_root t m :
  represents t m ->
  exists n, wf_node 4 n /\ n = match root t with Some n => n | None => node_new end /\
    forall b, is_u32 b -> m !! page b = count_at n (full_path b).
Proof.
  intros [Hwf Hm]. exists (match root t with Some n => n | None => node_new end).
  unfold wf_tree in Hwf. destruct (root t) as [n|].
  - split; [by apply Hwf|]. split; [done|]. intros b Hb. by apply Hm.
  - split; [apply wf_new|]. split; [done|]. intros b Hb. rewrite Hm by done. done.
Qed.

Section Represented.
Context (t : AddressTree) (m : gmap Z Z) (addr : Z).
Context (Hrep : represents t m) (Haddr : is_u32 addr).
Context (Hbound : forall c, m !! page addr = Some c -> c < 2 ^ 32 - 1).

Lemma add_reference_ok :
  page_aligned addr = true ->
  let r := default 0 (m !! page addr) + 1 in
  exists t', add_reference t addr = Some (r, t') /\ represents t' (<[page addr := r]> m).
Proof.
  intros Hal. destruct (represents_root t m Hrep) as (n & Hwf & Hn & Hm).
  unfold add_reference. rewrite Hal. cbn [negb]. rewrite <- Hn.
  assert (Hv := full_path_valid addr). rewrite full_path_split in Hv.
  apply Forall_app in Hv as [Hvi Hvl]. apply Forall_cons_1 in Hvl as [Hvl _].
  rewrite Hm in Hbound |- * by done. rewrite full_path_split in Hbound |- *.
  destruct (add_walk_spec (interior_path addr) (leaf_index addr) n Hvi Hvl Hwf Hbound)
    as (n' & Hadd & Hwf' & Hup).
  rewrite Hadd. cbn [mbind option_bind]. eexists. split; [done|].
  by apply (represents_updated t m n n' addr (Some _)).
Qed.

Lemma existing_ok op upd res :
  leaf_op (leaf_index addr) op upd res ->
  exists n', (match root t with
    | None => Some (None, t)
    | Some node => '(r, n) ← walk_existing op (interior_path addr) node; Some (r, {| root := Some n |})
    end) = Some (res <$> m !! page addr, n') /\
    represents n' (match m !! page addr with
      | None => m
      | Some c => match upd c with Some c' => <[page addr := c']> m | None => delete (page addr) m end
      end).
Proof.
  intros Hop. destruct (represents_root t m Hrep) as (n & Hwf & Hn & Hm).
  assert (Hv := full_path_valid addr). rewrite full_path_split in Hv.
  apply Forall_app in Hv as [Hvi _].
  pose proof (Hm addr Haddr) as Hma. rewrite full_path_split in Hma.
  destruct (root t) as [node|] eqn:Hroot; subst n.
  - destruct (walk_existing_spec op upd res (interior_path addr) (leaf_index addr) node Hop Hvi Hwf)
      as (n' & Hw & Hwf' & Hup); [by rewrite <- Hma|].
    rewrite Hw. cbn [mbind option_bind]. rewrite <- Hma in Hup |- *. eexists. split; [done|].
    destruct (m !! page addr) as [c|] eqn:Hc.
    + by apply (represents_updated t m node n' addr (upd c)).
    + replace m with (delete (page addr) m) by (by apply delete_id).
      by apply (represents_updated t m node n' addr None).
  - assert (Hz : m !! page addr = None) by (by rewrite Hma).
    exists t. rewrite Hz. done.
Qed.
End Represented.

Lemma lookups_ok t m addr :
  represents t m -> is_u32 addr ->
  get_reference_count t addr = Some (m !! page addr) /\
  contains t addr = Some (bool_decide (is_Some (m !! page addr))).
Proof.
  intros [Hwf Hm] Ha. specialize (Hm addr Ha). unfold get_reference_count, contains.
  destruct (root t) as [n|] eqn:Hroot.
  - pose proof (walk_all_wf (full_path addr) n (full_path_valid addr) (Hwf n Hroot)) as Hw.
    unfold count_at in Hm. destruct (walk_all (full_path addr) n) as [[l|]|]; [| |done];
      cbn [mbind option_bind]; rewrite Hm; split; try done.
    f_equal. symmetry. by apply bool_decide_eq_true.
  - rewrite Hm. done.
Qed.

Lemma represents_new : represents new ∅.
Proof. split; [done|]. intros addr _. simpl. apply lookup_empty. Qed.

(** ** Traces

    The calls the kernel makes on the tracker, run on the tree and on the map
    it stands for. *)

Inductive call :=
| AddReference (addr : Z)
| AddIfExists (addr : Z)
| RemoveReference (addr : Z)
| GetCount (addr : Z).

Definition call_addr (c : call) : Z :=
  match c with AddReference a | AddIfExists a | RemoveReference a | GetCount a => a end.

Definition call_ok (c : call) : Prop := is_u32 (call_addr c) /\ page_aligned (call_addr c) = true.

Definition run_call (t : AddressTree) (c : call) : option (option Z * AddressTree) :=
  match c with
  | AddReference a => '(r, t') ← add_reference t a; Some (Some r, t')
  | AddIfExists a => add_reference_if_exists t a
  | RemoveReference a => remove_reference t a
  | GetCount a => r ← get_reference_count t a; Some (r, t)
  end.

Fixpoint run (t : AddressTree) (cs : list call) : option (list (option Z)) :=
  match cs with
  | [] => Some []
  | c :: cs => '(r, t') ← run_call t c; rs ← run t' cs; Some (r :: rs)
  end.

(** The same calls on a map from page numbers to reference counts. *)
Definition map_call (m : gmap Z Z) (c : call) : option Z * gmap Z Z :=
  let p := page (call_addr c) in
  match c, m !! p with
  | AddReference _, o => (Some (default 0 o + 1), <[p := default 0 o + 1]> m)
  | AddIfExists _, Some n => (Some (n + 1), <[p := n + 1]> m)
  | RemoveReference _, Some n => (Some (n - 1), if 1 <? n then <[p := n - 1]> m else delete p m)
  | (AddIfExists _ | RemoveReference _), None => (None, m)
  | GetCount _, o => (o, m)
  end.

Fixpoint map_run (m : gmap Z Z) (cs : list call) : list (option Z) :=
  match cs with
  | [] => []
  | c :: cs => let '(r, m') := map_call m c in r :: map_run m' cs
  end.

Definition counts_below (m : gmap Z Z) (k : Z) : Prop := forall p n, m !! p = Some n -> 0 < n <= k.

Lemma run_call_refines t m c k :
  represents t m -> call_ok c -> counts_below m k -> 0 <= k < 2 ^ 32 - 1 ->
  exists t', run_call t c = Some (fst (map_call m c), t') /\
    represents t' (snd (map_call m c)) /\ counts_below (snd (map_call m c)) (k + 1).
Proof.
  intros Hrep [Ha Hal] Hk Hlt.
  assert (Hb : forall n, m !! page (call_addr c) = Some n -> n < 2 ^ 32 - 1).
  { intros n Hn. apply Hk in Hn. lia. }
  assert (Hk' : counts_below m (k + 1)).
  { intros p n Hn. apply Hk in Hn. lia. }
  assert (Hins : forall p n, 0 < n <= k + 1 -> counts_below (<[p := n]> m) (k + 1)).
  { intros p n Hn p' n' Hp'. apply lookup_insert_Some in Hp' as [[_ <-]|[_ Hp']]; [done|]. eauto. }
  destruct c as [a|a|a|a]; unfold run_call, map_call; cbn [call_addr] in *.
  - destruct (add_reference_ok t m a Hrep Ha Hb Hal) as (t' & Hadd & Hrep'). rewrite Hadd.
    exists t'. cbn. split; [done|]. split; [done|]. apply Hins.
    destruct (m !! page a) as [n|] eqn:Hn; simpl; [apply Hk in Hn; lia|lia].
  - unfold add_reference_if_exists. rewrite Hal. cbn [negb].
    destruct (existing_ok t m a Hrep Ha Hb _ _ _ (if_exists_leaf_op _ (leaf_index_range a))) as (t' & Hop & Hrep').
    rewrite Hop. exists t'. destruct (m !! page a) as [n|] eqn:Hn; simpl; split_and!; try done.
    apply Hins. apply Hk in Hn. lia.
  - unfold remove_reference.
    destruct (existing_ok t m a Hrep Ha Hb _ _ _ (remove_leaf_op _ (leaf_index_range a))) as (t' & Hop & Hrep').
    rewrite Hop. exists t'. destruct (m !! page a) as [n|] eqn:Hn; simpl; split_and!; try done.
    + destruct (1 <? n); done.
    + case_test; [apply Hins; apply Hk in Hn; lia|].
      intros p' n' Hp'. apply lookup_delete_Some in Hp' as [_ Hp']. eauto.
  - destruct (lookups_ok t m a Hrep Ha) as [-> _]. simpl. exists t. done.
Qed.

Lemma run_refines t m cs k :
  represents t m -> Forall call_ok cs -> counts_below m k ->
  0 <= k -> k + Z.of_nat (length cs) < 2 ^ 32 ->
  run t cs = Some (map_run m cs).
Proof.
  revert t m k. induction cs as [|c cs IH]; intros t m k Hrep Hok Hk Hpos Hlen; [done|].
  apply Forall_cons_1 in Hok as [Hc Hok]. cbn [length] in Hlen.
  destruct (run_call_refines t m c k Hrep Hc Hk) as (t' & Hrun & Hrep' & Hk'); [lia|].
  cbn [run map_run]. rewrite Hrun. destruct (map_call m c) as [r m']. cbn [mbind option_bind fst snd] in *.
  rewrite (IH t' m' (k + 1)) by (done || lia). done.
Qed.

(** ** Properties *)



End Tracking.
