(* ===== verification/PhysicalMemory.v ===== *)
(** * The physical memory manager

    [kernel/src/memory/physical/mod.rs]: the global frame bitmap and the
    global reference tracker, and the functions the rest of the kernel calls.
    Both globals are behind a mutex, so every function is one atomic step on
    [state].  [AllocatedFrame] is the address it wraps. *)

From S2P Require Import Prelude Address Bitmap Tracking.

Module PhysicalMemory.

Record state := {
  ALLOCATOR : FrameBitmap.t;
  FRAME_REF_TRACKER : Tracking.AddressTree;
}.

Definition FRAME_SIZE : Z := 0x1000.

(** The loop of [init_allocator] that finds the end of memory; [as usize]
    truncates the 64-bit fields. *)
Definition memory_end (memory_map : list Bios.MapEntry) : Z :=
  foldl (fun memory_end entry =>
    let start := u32 (Bios.base entry) in
    let end_ := u32 (start + u32 (Bios.length entry)) in
    if memory_end <? end_ then end_ else memory_end) 0 memory_map.

(** [bitmap.allocate_range(range).unwrap()]. *)
Definition reserve (bitmap : FrameBitmap.t) (range : FrameRange.t) : option FrameBitmap.t :=
  '(r, bitmap') ← FrameBitmap.allocate_range bitmap range;
  match r with Ok _ => Some bitmap' | Err _ => None end.

(** [memory] is what the bytes at [location] hold, and [fatdrv_phys],
    [fatdrv_size] the two words of boot info at physical 0x600. *)
Definition init_allocator (memory : list Z) (fatdrv_phys fatdrv_size : Z)
    (location : Z) (memory_map : list Bios.MapEntry) (kernel_range : FrameRange.t)
    : option FrameBitmap.t :=
  let bitmap := FrameBitmap.at_location memory (memory_end memory_map ≫ 12) in
  '(r, bitmap) ← FrameBitmap.initialize_from_memory_map bitmap memory_map;
  match r with
  | Err _ => None
  | Ok _ =>
      let size_in_frames := FrameBitmap.size_in_frames bitmap in
      let own_range := FrameRange.new location (u32 (size_in_frames * FRAME_SIZE)) in
      bitmap ← reserve bitmap own_range;
      bitmap ← reserve bitmap kernel_range;
      bitmap ← reserve bitmap (FrameRange.new 0 0x1000);
      bitmap ← reserve bitmap (FrameRange.new 0x1000 0x1000);
      if negb (fatdrv_phys =? 0) && negb (fatdrv_size =? 0) then
        let aligned_size := u32 (fatdrv_size + 0xfff) .& bnot 32 0xfff in
        reserve bitmap (FrameRange.new fatdrv_phys aligned_size)
      else Some bitmap
  end.

Definition with_bitmap (s : state) (b : FrameBitmap.t) : state :=
  {| ALLOCATOR := b; FRAME_REF_TRACKER := FRAME_REF_TRACKER s |}.
Definition with_tracker (s : state) (t : Tracking.AddressTree) : state :=
  {| ALLOCATOR := ALLOCATOR s; FRAME_REF_TRACKER := t |}.

Definition allocate_frames (s : state) (count : Z)
    : option (result Z FrameBitmap.BitmapError * state) :=
  '(r, b) ← FrameBitmap.allocate_frames (ALLOCATOR s) count;
  Some (match r with
        | Ok range => Ok (FrameRange.get_starting_address range)
        | Err e => Err e
        end, with_bitmap s b).

Definition allocate_frame (s : state) : option (result Z FrameBitmap.BitmapError * state) :=
  '(r, b) ← FrameBitmap.allocate_frames (ALLOCATOR s) 1;
  Some (match r with
        | Ok range => Ok (FrameRange.get_starting_address range)
        | Err e => Err e
        end, with_bitmap s b).

Definition allocate_frame_with_tracking (s : state)
    : option (result Z FrameBitmap.BitmapError * state) :=
  '(r, s1) ← allocate_frame s;
  match r with
  | Err e => Some (Err e, s1)
  | Ok phys_addr =>
      '(_, t) ← Tracking.add_reference (FRAME_REF_TRACKER s1) phys_addr;
      Some (Ok phys_addr, with_tracker s1 t)
  end.

Definition maybe_add_frame_reference (s : state) (paddr : Z) : option state :=
  '(_, t) ← Tracking.add_reference_if_exists (FRAME_REF_TRACKER s) paddr;
  Some (with_tracker s t).

Definition tracked_frame_reference_count (s : state) (paddr : Z) : option (option Z) :=
  Tracking.get_reference_count (FRAME_REF_TRACKER s) paddr.

Definition release_tracked_frame (s : state) (phys_addr : Z)
    : option (result bool FrameBitmap.BitmapError * state) :=
  '(remaining_ref_count, t) ← Tracking.remove_reference (FRAME_REF_TRACKER s) phys_addr;
  let s1 := with_tracker s t in
  match remaining_ref_count with
  | Some ref_count =>
      if ref_count =? 0 then
        '(r, b) ← FrameBitmap.free_frame (ALLOCATOR s1) phys_addr;
        Some (match r with Ok _ => Ok true | Err e => Err e end, with_bitmap s1 b)
      else Some (Ok false, s1)
  | None => Some (Ok false, s1)
  end.

Definition release_frame (s : state) (address : Z)
    : option (result unit FrameBitmap.BitmapError * state) :=
  let range := FrameRange.new address FRAME_SIZE in
  '(r, b) ← FrameBitmap.free_range (ALLOCATOR s) range;
  Some (r, with_bitmap s b).

Definition get_allocator_size (s : state) : Z := FrameBitmap.size_in_bytes (ALLOCATOR s).

(** ** Specification *)

Definition frame_in_use (s : state) (page : Z) : bool := FrameBitmap.in_use (ALLOCATOR s) page.

(** The bitmap is well formed, the tracker stands for a map [m] of
    references, and every tracked frame is in use in the bitmap. *)
Record inv (s : state) (m : gmap Z Z) : Prop := {
  inv_bitmap : FrameBitmap.wf (ALLOCATOR s);
  inv_tracker : Tracking.represents (FRAME_REF_TRACKER s) m;
  inv_tracked : forall p c, m !! p = Some c ->
    0 < c < 2 ^ 32 - 1 /\ 0 <= p < FrameBitmap.len (ALLOCATOR s) * 8 /\ frame_in_use s p = true;
}.

(** A frame address inside the memory the bitmap describes. *)
Definition frame_address (p : Z) : Z := p * 4096.

Lemma frame_address_facts (s : state) (m : gmap Z Z) (p : Z) :
  inv s m -> 0 <= p < FrameBitmap.len (ALLOCATOR s) * 8 ->
  is_u32 (frame_address p) /\ Tracking.page (frame_address p) = p /\
  Tracking.page_aligned (frame_address p) = true.
Proof.
  intros [[_ Hlen] _ _] Hp. unfold frame_address, Tracking.page, Tracking.page_aligned.
  rewrite land_fff. change (2 ^ 17) with 131072 in Hlen. split; [word|]. split; [word|].
  apply Z.eqb_eq. word.
Qed.

(** ** Lemmas *)

Lemma allocate_frames_cases s m n :
  inv s m -> 0 < n < 2 ^ 20 ->
  (exists p b,
     FrameBitmap.allocate_frames (ALLOCATOR s) n =
       Some (Ok (FrameRange.new (frame_address p) (n * 4096)), b) /\
     0 <= p /\ p + n <= FrameBitmap.len (ALLOCATOR s) * 8 /\
     (forall f, p <= f < p + n -> frame_in_use s f = false) /\
     FrameBitmap.wf b /\ FrameBitmap.len b = FrameBitmap.len (ALLOCATOR s) /\
     forall f, 0 <= f -> FrameBitmap.in_use b f = frame_in_use s f || ((p <=? f) && (f <? p + n))) \/
  FrameBitmap.allocate_frames (ALLOCATOR s) n = Some (Err FrameBitmap.NoAvailableSpace, ALLOCATOR s).
Proof.
  intros Hinv Hn. pose proof (inv_bitmap _ _ Hinv) as Hwf. unfold FrameBitmap.allocate_frames.
  destruct (FrameBitmap.find_free_range_cases (ALLOCATOR s) n Hwf Hn) as [(p & Hfind & Hrun & _)|[Hfind _]];
    rewrite Hfind; cbn [mbind option_bind]; [left|by right].
  destruct (FrameBitmap.free_run_range _ p n Hwf Hn Hrun) as (Hr & Hc & Hcov).
  destruct (FrameBitmap.allocate_range_ok _ _ Hwf Hr Hc) as (b & Ha & Hwfb & Hlen & Huse).
  destruct Hrun as (Hp & Hle & Hfree).
  exists p, b. rewrite Ha. cbn [mbind option_bind]. split_and!; try done.
  intros f Hf. rewrite Huse, Hcov by done. done.
Qed.

(** Marking more frames as used keeps the invariant. *)
Lemma inv_more_used s m b :
  inv s m -> FrameBitmap.wf b -> FrameBitmap.len b = FrameBitmap.len (ALLOCATOR s) ->
  (forall f, 0 <= f -> frame_in_use s f = true -> FrameBitmap.in_use b f = true) ->
  inv (with_bitmap s b) m.
Proof.
  intros [_ Ht Hm] Hwf Hlen Hmore. split; [done..|]. intros p c Hp.
  destruct (Hm p c Hp) as (Hc & Hr & Hu). simpl. rewrite Hlen. split; [done|]. split; [done|].
  apply Hmore; [lia|done].
Qed.

Lemma allocate_frame_step s m r s' :
  inv s m -> allocate_frame s = Some (r, s') ->
  inv s' m /\ FRAME_REF_TRACKER s' = FRAME_REF_TRACKER s /\
  FrameBitmap.len (ALLOCATOR s') = FrameBitmap.len (ALLOCATOR s) /\
  forall a, r = Ok a -> exists p, a = frame_address p /\
    0 <= p < FrameBitmap.len (ALLOCATOR s) * 8 /\ frame_in_use s p = false /\ frame_in_use s' p = true.
Proof.
  intros Hinv Hal. unfold allocate_frame in Hal.
  destruct (allocate_frames_cases s m 1 Hinv) as [(p & b & Ha & Hp & Hle & Hfree & Hwf & Hlen & Huse)|Ha];
    [lia| |]; rewrite Ha in Hal; cbn [mbind option_bind] in Hal; injection Hal as <- <-.
  - split_and!; [|done|done|].
    + apply inv_more_used; try done. intros f Hf Hu. rewrite Huse, Hu by done. done.
    + intros a [= <-]. exists p. split; [done|]. split; [lia|]. split; [apply Hfree; lia|].
      unfold frame_in_use, with_bitmap. simpl. rewrite Huse by done.
      apply orb_true_intro. right. apply andb_true_intro. lia.
  - split_and!; try done. destruct s. done.
Qed.

Lemma inv_count s m p c : inv s m -> m !! p = Some c -> 0 < c < 2 ^ 32 - 1.
Proof. intros Hinv Hc. by destruct (inv_tracked _ _ Hinv p c Hc). Qed.

Lemma inv_bound s m p : inv s m -> forall c, m !! p = Some c -> c < 2 ^ 32 - 1.
Proof. intros Hinv c Hc. apply (inv_tracked _ _ Hinv) in Hc. lia. Qed.

Lemma inv_tracker_update s m t m' :
  inv s m -> Tracking.represents t m' ->
  (forall p c, m' !! p = Some c -> 0 < c < 2 ^ 32 - 1 /\
     (m !! p = None -> 0 <= p < FrameBitmap.len (ALLOCATOR s) * 8 /\ frame_in_use s p = true)) ->
  inv (with_tracker s t) m'.
Proof.
  intros [Hb _ Hm] Ht Hnew. split; [done..|]. intros p c Hp. destruct (Hnew p c Hp) as [Hc Hin].
  split; [done|]. destruct (m !! p) as [c'|] eqn:Hc'; [|by apply Hin].
  destruct (Hm p c' Hc') as (_ & Hr & Hu). done.
Qed.

Lemma allocate_tracked_step s m r s' :
  inv s m -> allocate_frame_with_tracking s = Some (r, s') ->
  exists m', inv s' m' /\
    match r with
    | Err _ => m' = m
    | Ok a => exists p, a = frame_address p /\ 0 <= p < FrameBitmap.len (ALLOCATOR s) * 8 /\
        frame_in_use s p = false /\ frame_in_use s' p = true /\
        m !! p = None /\ m' = <[p := 1]> m
    end.
Proof.
  intros Hinv Hal. unfold allocate_frame_with_tracking in Hal.
  apply bind_Some in Hal as ([r1 s1] & H1 & Hal).
  destruct (allocate_frame_step s m r1 s1 Hinv H1) as (Hinv1 & Ht & Hlen & Hok).
  destruct r1 as [a|e]; [|injection Hal as <- <-; by exists m].
  destruct (Hok a eq_refl) as (p & -> & Hp & Hfree & Hused).
  assert (Hnone : m !! p = None).
  { destruct (m !! p) as [c|] eqn:Hc; [|done]. apply (inv_tracked _ _ Hinv) in Hc as (_ & _ & Hu). congruence. }
  rewrite <- Hlen in Hp.
  destruct (frame_address_facts s1 m p Hinv1 Hp) as (Ha & Hpage & Haligned).
  destruct (Tracking.add_reference_ok _ m (frame_address p) (inv_tracker _ _ Hinv1) Ha
    (inv_bound s1 m _ Hinv1) Haligned) as (t & Hadd & Hrep).
  rewrite Hadd in Hal. cbn [mbind option_bind] in Hal. injection Hal as <- <-.
  rewrite Hpage, Hnone in Hrep. simpl in Hrep.
  exists (<[p := 1]> m). split.
  - apply (inv_tracker_update s1 m); [done..|]. intros q c Hq.
    apply lookup_insert_Some in Hq as [[<- <-]|[Hne Hq]]; [split; [lia|done]|].
    destruct (inv_tracked _ _ Hinv q c Hq) as (Hc & _). split; [done|congruence].
  - exists p. rewrite <- Hlen. done.
Qed.

Lemma release_cases s m p :
  inv s m -> 0 <= p < FrameBitmap.len (ALLOCATOR s) * 8 ->
  match m !! p with
  | None => exists s', release_tracked_frame s (frame_address p) = Some (Ok false, s') /\
      inv s' m /\ ALLOCATOR s' = ALLOCATOR s
  | Some c => exists s',
      release_tracked_frame s (frame_address p) = Some (Ok (c =? 1), s') /\
      inv s' (if c =? 1 then delete p m else <[p := c - 1]> m) /\
      forall f, 0 <= f -> frame_in_use s' f = frame_in_use s f && negb ((c =? 1) && (f =? p))
  end.
Proof.
  intros Hinv Hp. destruct (frame_address_facts s m p Hinv Hp) as (Ha & Hpage & _).
  unfold release_tracked_frame, Tracking.remove_reference.
  destruct (Tracking.existing_ok (FRAME_REF_TRACKER s) m (frame_address p) (inv_tracker _ _ Hinv) Ha
    (inv_bound s m _ Hinv) _ _ _ (Tracking.remove_leaf_op _ (Tracking.leaf_index_range (frame_address p))))
    as (t & Hop & Hrep).
  rewrite Hop. cbn [mbind option_bind]. rewrite Hpage in *.
  destruct (m !! p) as [c|] eqn:Hc; cbn [fmap option_fmap option_map].
  2:{ eexists. split; [done|]. split; [|done]. apply (inv_tracker_update s m); [done..|].
      intros q c Hq. split; [by eapply inv_count|congruence]. }
  destruct (inv_tracked _ _ Hinv p c Hc) as (Hcpos & _ & Hused).
  destruct (Z.eqb_spec c 1) as [->|Hne]; simpl in Hrep |- *.
  - destruct (FrameBitmap.free_frame_cases (ALLOCATOR s) (frame_address p) (inv_bitmap _ _ Hinv) Ha)
      as [(Hout & _)|[(_ & Hfree & _)|(_ & _ & b & Hb & Hwf & Hlen & Huse)]];
      change (frame_address p / 4096) with (Tracking.page (frame_address p)) in *; rewrite Hpage in *;
      [lia|unfold frame_in_use in *; congruence|].
    rewrite Hb. simpl. eexists. split; [done|]. split; [|by apply Huse].
    split; [done|done|]. intros q c Hq. apply lookup_delete_Some in Hq as [Hqp Hq].
    destruct (inv_tracked _ _ Hinv q c Hq) as (Hc' & Hr & Hu). simpl. rewrite Hlen.
    split; [done|]. split; [done|]. unfold frame_in_use. simpl. rewrite Huse by lia.
    unfold frame_in_use in Hu. rewrite Hu. simpl. apply negb_true_iff, Z.eqb_neq. congruence.
  - rewrite (proj2 (Z.eqb_neq (c - 1) 0)) by lia. eexists. split; [done|].
    rewrite (proj2 (Z.ltb_lt 1 c)) in Hrep by lia. split.
    + apply (inv_tracker_update s m); [done..|]. intros q c' Hq.
      apply lookup_insert_Some in Hq as [[<- <-]|[Hqp Hq]]; [split; [lia|congruence]|].
      split; [by eapply inv_count|congruence].
    + intros f Hf. by rewrite andb_true_r.
Qed.

(** ** The manager as a state machine

    One step per call the kernel makes; [release_frame], which the code marks
    as dangerous because it bypasses the tracker, is left out. *)
Inductive step : state -> state -> Prop :=
| step_allocate_frame s r s' :
    allocate_frame s = Some (r, s') -> step s s'
| step_allocate_frames s n r s' :
    0 < n < 2 ^ 20 -> allocate_frames s n = Some (r, s') -> step s s'
| step_allocate_tracked s r s' :
    allocate_frame_with_tracking s = Some (r, s') -> step s s'
| step_add_reference s p s' :
    0 <= p < FrameBitmap.len (ALLOCATOR s) * 8 ->
    (forall c, tracked_frame_reference_count s (frame_address p) = Some (Some c) -> c < 2 ^ 32 - 2) ->
    maybe_add_frame_reference s (frame_address p) = Some s' -> step s s'
| step_release s p r s' :
    0 <= p < FrameBitmap.len (ALLOCATOR s) * 8 ->
    release_tracked_frame s (frame_address p) = Some (r, s') -> step s s'.

Lemma reference_count_map s m p :
  inv s m -> 0 <= p < FrameBitmap.len (ALLOCATOR s) * 8 ->
  tracked_frame_reference_count s (frame_address p) = Some (m !! p).
Proof.
  intros Hinv Hp. destruct (frame_address_facts s m p Hinv Hp) as (Ha & Hpage & _).
  destruct (Tracking.lookups_ok _ m (frame_address p) (inv_tracker _ _ Hinv) Ha) as [H _].
  unfold tracked_frame_reference_count. by rewrite H, Hpage.
Qed.

Lemma add_reference_step s m p :
  inv s m -> 0 <= p < FrameBitmap.len (ALLOCATOR s) * 8 ->
  (forall c, m !! p = Some c -> c < 2 ^ 32 - 2) ->
  exists s', maybe_add_frame_reference s (frame_address p) = Some s' /\
    ALLOCATOR s' = ALLOCATOR s /\
    inv s' (match m !! p with Some c => <[p := c + 1]> m | None => m end).
Proof.
  intros Hinv Hp Hlt. destruct (frame_address_facts s m p Hinv Hp) as (Ha & Hpage & Hal).
  unfold maybe_add_frame_reference, Tracking.add_reference_if_exists. rewrite Hal. cbn [negb].
  destruct (Tracking.existing_ok (FRAME_REF_TRACKER s) m (frame_address p) (inv_tracker _ _ Hinv) Ha
    (inv_bound s m _ Hinv) _ _ _ (Tracking.if_exists_leaf_op _ (Tracking.leaf_index_range (frame_address p))))
    as (t & Hop & Hrep).
  rewrite Hop. cbn [mbind option_bind]. rewrite Hpage in *. eexists. split; [done|]. split; [done|].
  destruct (m !! p) as [c|] eqn:Hc; apply (inv_tracker_update s m); try done; intros q c' Hq.
  - apply lookup_insert_Some in Hq as [[<- <-]|[Hqp Hq]].
    + specialize (Hlt c eq_refl). apply (inv_count s m p c Hinv) in Hc as Hc'. split; [lia|congruence].
    + split; [by eapply inv_count|congruence].
  - split; [by eapply inv_count|congruence].
Qed.

Lemma step_inv s s' m : step s s' -> inv s m -> exists m', inv s' m'.
Proof.
  intros Hstep Hinv. destruct Hstep as [s r s' H|s n r s' Hn H|s r s' H|s p s' Hp Hlt H|s p r s' Hp H].
  - exists m. by destruct (allocate_frame_step s m r s' Hinv H).
  - exists m. unfold allocate_frames in H.
    destruct (allocate_frames_cases s m n Hinv Hn) as [(p & b & Ha & _ & _ & _ & Hwf & Hlen & Huse)|Ha];
      rewrite Ha in H; cbn [mbind option_bind] in H; injection H as <- <-.
    + apply inv_more_used; try done. intros f Hf Hu. rewrite Huse, Hu by done. done.
    + by destruct s.
  - destruct (allocate_tracked_step s m r s' Hinv H) as (m' & Hm' & _). by exists m'.
  - destruct (add_reference_step s m p Hinv Hp) as (s1 & Hs1 & _ & Hinv1).
    { intros c Hc. apply Hlt. by rewrite (reference_count_map s m p Hinv Hp), Hc. }
    rewrite H in Hs1. injection Hs1 as ->. eauto.
  - pose proof (release_cases s m p Hinv Hp) as Hr.
    destruct (m !! p) as [c|]; destruct Hr as (s1 & Hs1 & Hr); rewrite H in Hs1; injection Hs1 as -> ->;
      destruct Hr; eauto.
Qed.

(** The state right after [init_allocator]: no frame is tracked yet. *)
Definition booted (s : state) : Prop :=
  FrameBitmap.wf (ALLOCATOR s) /\ FRAME_REF_TRACKER s = Tracking.new.

Lemma booted_inv s : booted s -> inv s ∅.
Proof.
  intros [Hwf Ht]. split; [done|rewrite Ht; apply Tracking.represents_new|].
  intros p c Hp. by rewrite lookup_empty in Hp.
Qed.

Lemma reachable_inv s0 s : booted s0 -> rtc step s0 s -> exists m, inv s m.
Proof.
  intros Hb Hr. apply booted_inv in Hb as Hinv. revert Hinv. generalize (∅ : gmap Z Z).
  clear Hb. induction Hr as [s|s0 s1 s Hstep _ IH]; intros m Hinv; [by exists m|].
  destruct (step_inv _ _ _ Hstep Hinv) as [m' Hinv']. by apply (IH m').
Qed.

Lemma reserve_ok b r :
  FrameBitmap.wf b -> FrameBitmap.range_wf r -> FrameBitmap.contains_range b r = true ->
  exists b', reserve b r = Some b' /\ FrameBitmap.wf b' /\ FrameBitmap.len b' = FrameBitmap.len b /\
    forall f, 0 <= f -> FrameBitmap.in_use b' f = FrameBitmap.in_use b f || FrameBitmap.range_covers r f.
Proof.
  intros Hwf Hr Hc. destruct (FrameBitmap.allocate_range_ok b r Hwf Hr Hc) as (b' & Ha & ?).
  exists b'. unfold reserve. rewrite Ha. done.
Qed.

Lemma contains_range_len b b' r :
  FrameBitmap.len b' = FrameBitmap.len b -> FrameBitmap.contains_range b' r = FrameBitmap.contains_range b r.
Proof. intros H. unfold FrameBitmap.contains_range, FrameBitmap.total_frame_count. by rewrite H. Qed.

(** ** Properties *)

(** C12: no use after free through the allocator.  After any sequence of
    allocations, reference increments and tracked releases from boot, every
    frame with a positive reference count is marked in use in the bitmap, and
    the frame that [allocate_frame_with_tracking] returns is a frame of the
    bitmap that was free and untracked; afterwards it is in use with a count
    of exactly one. *)
Theorem tracked_frames_never_reallocated s0 s :
  booted s0 -> rtc step s0 s ->
  (forall p c, 0 <= p < FrameBitmap.len (ALLOCATOR s) * 8 ->
     tracked_frame_reference_count s (frame_address p) = Some (Some c) ->
     0 < c /\ frame_in_use s p = true) /\
  (forall a s', allocate_frame_with_tracking s = Some (Ok a, s') ->
     exists p, a = frame_address p /\ 0 <= p < FrameBitmap.len (ALLOCATOR s) * 8 /\
       frame_in_use s p = false /\ tracked_frame_reference_count s a = Some None /\
       frame_in_use s' p = true /\ tracked_frame_reference_count s' a = Some (Some 1)).
Proof.
  intros Hb Hr. destruct (reachable_inv s0 s Hb Hr) as [m Hinv]. split.
  - intros p c Hp Hc. rewrite (reference_count_map s m p Hinv Hp) in Hc. injection Hc as Hc.
    destruct (inv_tracked _ _ Hinv p c Hc) as (Hpos & _ & Hu). split; [lia|done].
  - intros a s' Hal.
    destruct (allocate_tracked_step s m _ s' Hinv Hal) as (m' & Hinv' & p & -> & Hp & Hfree & Hused & Hnone & ->).
    exists p. rewrite (reference_count_map s m p Hinv Hp), Hnone.
    destruct (inv_tracked _ _ Hinv' p 1) as (_ & Hp' & _); [by simplify_map_eq|].
    rewrite (reference_count_map s' _ p Hinv' Hp'). simplify_map_eq. done.
Qed.

(** releasing a tracked frame.  In every reachable state a release of
    a frame with [c] references succeeds without panicking; it returns
    [Ok(true)] exactly when [c = 1], and then and only then the frame goes
    back to the bitmap and its entry is dropped; with more references the
    count becomes [c - 1] and the bitmap keeps the frame; a frame that was
    never tracked is not freed ([Ok(false)], bitmap unchanged). *)
Theorem release_frees_last_reference s0 s p :
  booted s0 -> rtc step s0 s -> 0 <= p < FrameBitmap.len (ALLOCATOR s) * 8 ->
  exists o, tracked_frame_reference_count s (frame_address p) = Some o /\
  match o with
  | None => exists s', release_tracked_frame s (frame_address p) = Some (Ok false, s') /\
      ALLOCATOR s' = ALLOCATOR s
  | Some c => exists s', release_tracked_frame s (frame_address p) = Some (Ok (c =? 1), s') /\
      tracked_frame_reference_count s' (frame_address p) =
        Some (if c =? 1 then None else Some (c - 1)) /\
      forall f, 0 <= f -> frame_in_use s' f = frame_in_use s f && negb ((c =? 1) && (f =? p))
  end.
Proof.
  intros Hb Hr Hp. destruct (reachable_inv s0 s Hb Hr) as [m Hinv].
  exists (m !! p). split; [by apply reference_count_map|].
  pose proof (release_cases s m p Hinv Hp) as Hrel.
  destruct (m !! p) as [c|] eqn:Hc; destruct Hrel as (s' & Hs' & Hinv' & Hrest); exists s'; [|done].
  split; [done|]. split; [|done].
  destruct (frame_address_facts s m p Hinv Hp) as (Ha & Hpage & _).
  destruct (Tracking.lookups_ok _ _ (frame_address p) (inv_tracker _ _ Hinv') Ha) as [Hl _].
  unfold tracked_frame_reference_count. rewrite Hl, Hpage.
  destruct (c =? 1); by simplify_map_eq.
Qed.

(** the memory state at boot.  When the free regions of the BIOS map
    and the reserved ranges lie inside the bitmap, [init_allocator] does not
    panic, and a frame is in use afterwards exactly when no free region of the
    BIOS map covers it, or it belongs to the bitmap itself, to the kernel, to
    the first two frames, or to the preloaded FAT driver. *)
Theorem init_allocator_spec memory fatdrv_phys fatdrv_size location memory_map kernel_range :
  let b0 := FrameBitmap.at_location memory (memory_end memory_map ≫ 12) in
  let own := FrameRange.new location (u32 (FrameBitmap.size_in_frames b0 * FRAME_SIZE)) in
  let fatdrv := FrameRange.new fatdrv_phys (u32 (fatdrv_size + 0xfff) .& bnot 32 0xfff) in
  let has_fatdrv := negb (fatdrv_phys =? 0) && negb (fatdrv_size =? 0) in
  let inside r := FrameBitmap.range_wf r /\ FrameBitmap.contains_range b0 r = true in
  FrameBitmap.wf b0 -> 2 <= FrameBitmap.len b0 * 8 ->
  Forall (fun e => FrameBitmap.entry_free e = true -> inside (FrameBitmap.entry_range e)) memory_map ->
  inside own -> inside kernel_range -> (has_fatdrv = true -> inside fatdrv) ->
  exists b, init_allocator memory fatdrv_phys fatdrv_size location memory_map kernel_range = Some b /\
    FrameBitmap.wf b /\
    forall f, 0 <= f < FrameBitmap.len b0 * 8 ->
      FrameBitmap.in_use b f =
        negb (FrameBitmap.frees memory_map f) || FrameBitmap.range_covers own f ||
        FrameBitmap.range_covers kernel_range f || (f <? 2) ||
        (has_fatdrv && FrameBitmap.range_covers fatdrv f).
Proof.
  intros b0 own fatdrv has inside Hwf Hlen0 Hmap [Hown1 Hown2] [Hk1 Hk2] Hfat.
  unfold init_allocator. fold b0.
  destruct (FrameBitmap.reset_spec b0 Hwf) as (Hwfr & Hlenr & Huser).
  destruct (FrameBitmap.free_entries_ok (FrameBitmap.reset b0) 0 memory_map) as (b1 & H1 & Hwf1 & Hlen1 & Huse1);
    [done| |done|].
  { eapply Forall_impl; [exact Hmap|]. intros e He Hf. destruct (He Hf). split; [done|].
    by rewrite (contains_range_len b0). }
  unfold FrameBitmap.initialize_from_memory_map. change (u32 0) with 0 in H1. rewrite H1.
  cbn [mbind option_bind]. rewrite Hlenr in Hlen1.
  replace (FrameBitmap.size_in_frames b1) with (FrameBitmap.size_in_frames b0)
    by (unfold FrameBitmap.size_in_frames; by rewrite Hlen1).
  fold own. fold has.
  destruct (reserve_ok b1 own Hwf1) as (b2 & -> & Hwf2 & Hlen2 & Huse2);
    [done|by rewrite (contains_range_len b0)|]. cbn [mbind option_bind].
  destruct (reserve_ok b2 kernel_range Hwf2) as (b3 & -> & Hwf3 & Hlen3 & Huse3);
    [done|rewrite (contains_range_len b0); [done|congruence]|]. cbn [mbind option_bind].
  assert (Hlow : forall b s, FrameBitmap.wf b -> FrameBitmap.len b = FrameBitmap.len b0 -> s = 0 \/ s = 0x1000 ->
    FrameBitmap.range_wf (FrameRange.new s 0x1000) /\
    FrameBitmap.contains_range b (FrameRange.new s 0x1000) = true).
  { intros b s Hb Hl Hs. assert (Hr : FrameBitmap.range_wf (FrameRange.new s 0x1000))
      by (unfold FrameBitmap.range_wf; simpl; lia).
    split; [done|]. rewrite FrameBitmap.contains_range_spec, Hl by done. simpl. apply Z.ltb_lt. word. }
  destruct (Hlow b3 0 Hwf3) as [Hz1 Hz2]; [congruence|by left|].
  destruct (reserve_ok b3 _ Hwf3 Hz1 Hz2) as (b4 & -> & Hwf4 & Hlen4 & Huse4). cbn [mbind option_bind].
  destruct (Hlow b4 0x1000 Hwf4) as [Hy1 Hy2]; [congruence|by right|].
  destruct (reserve_ok b4 _ Hwf4 Hy1 Hy2) as (b5 & -> & Hwf5 & Hlen5 & Huse5). cbn [mbind option_bind].
  assert (Huse : forall f, 0 <= f < FrameBitmap.len b0 * 8 -> FrameBitmap.in_use b5 f =
    negb (FrameBitmap.frees memory_map f) || FrameBitmap.range_covers own f ||
    FrameBitmap.range_covers kernel_range f || (f <? 2)).
  { intros f Hf. rewrite Huse5, Huse4, Huse3, Huse2, Huse1, Huser by lia.
    replace (f <? 2) with (FrameBitmap.range_covers (FrameRange.new 0 0x1000) f ||
      FrameBitmap.range_covers (FrameRange.new 0x1000 0x1000) f); [by rewrite !orb_assoc|].
    change ((0 <=? f) && (f <=? 0) || (1 <=? f) && (f <=? 1) = (f <? 2)). lia. }
  destruct has; simpl.
  - destruct (Hfat eq_refl) as [Hf1 Hf2]. fold fatdrv.
    destruct (reserve_ok b5 fatdrv Hwf5) as (b6 & -> & Hwf6 & _ & Huse6);
      [done|rewrite (contains_range_len b0); [done|congruence]|].
    exists b6. split_and!; [done..|]. intros f Hf. rewrite Huse6, Huse by lia. done.
  - exists b5. split_and!; [done..|]. intros f Hf. rewrite Huse by lia. by rewrite orb_false_r.
Qed.

(** ** Witnesses *)

(** A machine with 16 frames, of which 2..5 and 9..15 are free. *)
Definition machine : state :=
  {| ALLOCATOR := {| FrameBitmap.map := [0xc3; 0x01] |}; FRAME_REF_TRACKER := Tracking.new |}.

Lemma machine_booted : booted machine.
Proof. split; [|done]. split; [repeat constructor; simpl; lia|done]. Qed.

Definition machine_after : state :=
  match allocate_frame_with_tracking machine with Some (_, s) => s | None => machine end.

Lemma machine_steps : rtc step machine machine_after.
Proof. apply rtc_once. apply (step_allocate_tracked machine (Ok 0x2000)). vm_compute. reflexivity. Qed.

Lemma tracked_frames_witness :
  exists s', allocate_frame_with_tracking machine_after = Some (Ok 0x3000, s') /\
    frame_in_use machine_after 3 = false /\
    tracked_frame_reference_count s' 0x3000 = Some (Some 1).
Proof.
  destruct (tracked_frames_never_reallocated machine machine_after machine_booted machine_steps) as [_ H].
  eexists. split; [vm_compute; reflexivity|].
  destruct (H 0x3000 _ ltac:(vm_compute; reflexivity)) as (p & Hp & _ & Hf & _ & _ & Hc).
  unfold frame_address in Hp. replace p with 3 in * by lia. split; [exact Hf|exact Hc].
Defined.

Lemma release_frees_witness :
  exists s', release_tracked_frame machine_after 0x2000 = Some (Ok true, s') /\
    frame_in_use s' 2 = false.
Proof.
  destruct (release_frees_last_reference machine machine_after 2 machine_booted machine_steps)
    as (o & Ho & H); [vm_compute; split; congruence|].
  assert (Hc : o = Some 1) by (vm_compute in Ho; congruence). subst o.
  destruct H as (s' & Hs' & _ & Hu). exists s'. split; [exact Hs'|].
  rewrite Hu by lia. vm_compute. reflexivity.
Defined.

Lemma init_allocator_witness :
  exists b, init_allocator [0; 0; 0; 0] 0 0 0x5000
      [ {| Bios.base := 0; Bios.length := 0x9000; Bios.region_type := 1; Bios.acpi := 0 |};
        {| Bios.base := 0x9000; Bios.length := 0x7000; Bios.region_type := 2; Bios.acpi := 0 |} ]
      (FrameRange.new 0x3000 0x2000) = Some b /\
    FrameBitmap.in_use b 2 = false /\ FrameBitmap.in_use b 9 = true.
Proof.
  edestruct (init_allocator_spec [0; 0; 0; 0] 0 0 0x5000
    [ {| Bios.base := 0; Bios.length := 0x9000; Bios.region_type := 1; Bios.acpi := 0 |};
      {| Bios.base := 0x9000; Bios.length := 0x7000; Bios.region_type := 2; Bios.acpi := 0 |} ]
    (FrameRange.new 0x3000 0x2000)) as (b & Hb & _ & Hu).
  - split; [repeat constructor; simpl; lia|vm_compute; congruence].
  - vm_compute. congruence.
  - constructor; [|constructor; [|constructor]]; intros He; [|vm_compute in He; congruence].
    split; [split_and!; vm_compute; congruence|vm_compute; reflexivity].
  - split; [split_and!; vm_compute; congruence|vm_compute; reflexivity].
  - split; [split_and!; vm_compute; congruence|vm_compute; reflexivity].
  - vm_compute. congruence.
  - exists b. split; [exact Hb|]. rewrite !Hu by (vm_compute; split; congruence).
    vm_compute. split; reflexivity.
Defined.

End PhysicalMemory.
