(* ===== verification/MappedMemory.v ===== *)
(** * A task's memory map

    [kernel/src/task/memory.rs]: the regions mapped into a task, keyed by their
    start address.  The [BTreeMap] is the list of its entries in key order.
    [U] is the upper bound of the address space, a const generic in the
    source. *)

From S2P Require Import Prelude Address.

(** ** Ordered maps

    The operations of [BTreeMap<u32, V>] the memory map uses, on the list of
    entries sorted by key. *)
Module BTreeMap.
Section Defs.
Context {V : Type}.
Implicit Types (l : list (Z * V)).

Fixpoint insert (k : Z) (v : V) l : list (Z * V) :=
  match l with
  | [] => [(k, v)]
  | (k', v') :: l' =>
      if k <? k' then (k, v) :: l
      else if k =? k' then (k, v) :: l'
      else (k', v') :: insert k v l'
  end.

Fixpoint remove (k : Z) l : option V * list (Z * V) :=
  match l with
  | [] => (None, [])
  | (k', v') :: l' =>
      if k =? k' then (Some v', l')
      else let '(o, l'') := remove k l' in (o, (k', v') :: l'')
  end.

(** [range(..=k).next_back()] and [range(k..)]. *)
Definition last_le (k : Z) l : option (Z * V) := last (filter (fun e => e.1 <= k) l).
Definition range_from (k : Z) l : list (Z * V) := filter (fun e => k <= e.1) l.
End Defs.
End BTreeMap.

Inductive MemMapError :=
| InvalidSize | MapOutOfBounds | MappingWrongAlignment | NotEnoughMemory
| UnmapNotPageMultiple | NoTask | NotMapped | MappingFailed | FileUnavailable
| DriverError | KernelError.

Inductive MemoryBacking :=
| Direct (paddr : Z)
| FreeMemory
| IsaDma
| FileBacked (driver_id mapping_token offset_in_file : Z) (shared : bool).

Module MemMappedRegion.
Record t := { address : Z; size : Z; backed_by : MemoryBacking }.
(** [start..end] with a wrapping end. *)
Definition range_start (self : t) : Z := address self.
Definition range_end (self : t) : Z := VirtualAddress.add (address self) (size self).
Definition contains_address (self : t) (addr : Z) : bool :=
  (range_start self <=? addr) && (addr <? range_end self).
Definition page_count (self : t) : Z := u32 (size self + 0xfff) / 0x1000.
End MemMappedRegion.

Inductive UnmappedRegionKind :=
| UDirect (paddr : Z)
| UFreeMemory
| UFileBacked (driver_id mapping_token offset_in_file : Z) (shared : bool).

Record UnmappedRegion := { uaddress : Z; usize : Z; kind : UnmappedRegionKind }.

Module MappedMemory.
Import MemMappedRegion.
Notation regions := (list (Z * MemMappedRegion.t)).

Definition new : regions := [].

Definition drain_regions (self : regions) : list MemMappedRegion.t := self.*2.

Definition ranges_overlap (a_start a_end b_start b_end : Z) : bool :=
  let min := Z.min a_start b_start in
  let max := Z.max a_end b_end in
  let a_length := VirtualAddress.sub a_end a_start in
  let b_length := VirtualAddress.sub b_end b_start in
  VirtualAddress.sub max min <? u32 (a_length + b_length).

Fixpoint can_fit_range (self : regions) (start_ end_ : Z) : bool :=
  match self with
  | [] => true
  | (_, mapping) :: self' =>
      if ranges_overlap (range_start mapping) (range_end mapping) start_ end_ then false
      else can_fit_range self' start_ end_
  end.

(** One gap of [find_nearest_free_space]: where the request goes if it fits,
    and whether that beats the best place so far. *)
Definition consider_gap (hint size gap_start gap_end : Z) (best : option Z) (best_distance : Z) :
    option Z * Z :=
  if gap_start <? gap_end then
    let gap_size := VirtualAddress.sub gap_end gap_start in
    if size <=? gap_size then
      let place :=
        if (gap_start <=? hint) && (VirtualAddress.add hint size <=? gap_end) then hint
        else if hint <? gap_start then gap_start
        else prev_page_barrier (VirtualAddress.sub gap_end size) in
      let dist := if hint <=? place then VirtualAddress.sub place hint
                  else VirtualAddress.sub hint place in
      if (dist <? best_distance) || ((dist =? best_distance) && (hint <=? place))
      then (Some place, dist)
      else (best, best_distance)
    else (best, best_distance)
  else (best, best_distance).

Fixpoint nearest_loop (self : regions) (hint size prev_end : Z) (best : option Z) (best_distance : Z) :
    Z * option Z * Z :=
  match self with
  | [] => (prev_end, best, best_distance)
  | (_, region) :: self' =>
      let '(best, best_distance) :=
        consider_gap hint size prev_end (address region) best best_distance in
      nearest_loop self' hint size
        (next_page_barrier (VirtualAddress.add (address region) (MemMappedRegion.size region)))
        best best_distance
  end.

Definition find_nearest_free_space (U : Z) (self : regions) (hint size : Z) : option Z :=
  let '(prev_end, best, best_distance) := nearest_loop self hint size 0x1000 None 0xffffffff in
  (consider_gap hint size prev_end U best best_distance).1.

(** The loop of [find_free_mapping_space] over the regions in descending
    order. *)
Fixpoint free_space_loop (rev_regions : regions) (size prev_start : Z) : option Z :=
  match rev_regions with
  | [] => Some (prev_page_barrier (VirtualAddress.sub prev_start size))
  | (_, region) :: rest =>
      let region_end :=
        next_page_barrier (VirtualAddress.add (address region) (MemMappedRegion.size region)) in
      let free_space := VirtualAddress.sub prev_start region_end in
      if size <=? free_space then Some (prev_page_barrier (VirtualAddress.sub prev_start size))
      else free_space_loop rest size (address region)
  end.

Definition find_free_mapping_space (U : Z) (self : regions) (size : Z) : option Z :=
  free_space_loop (rev self) size U.

Definition round_size (requested_size : Z) : Z := u32 (requested_size + 0xfff) .& 0xfffff000.

Definition map_memory (U : Z) (self : regions) (addr : option Z) (requested_size : Z)
    (backing : MemoryBacking) : result Z MemMapError * regions :=
  if requested_size =? 0 then (Err InvalidSize, self)
  else
    let rounded_size := round_size requested_size in
    let location : result (option Z) MemMapError :=
      match addr with
      | Some request_start =>
          if negb (is_page_aligned request_start) then Err MappingWrongAlignment
          else
            let request_end := VirtualAddress.add request_start rounded_size in
            if can_fit_range self request_start request_end then Ok (Some request_start)
            else Ok (find_nearest_free_space U self request_start rounded_size)
      | None => Ok (find_free_mapping_space U self rounded_size)
      end in
    match location with
    | Err e => (Err e, self)
    | Ok None => (Err NotEnoughMemory, self)
    | Ok (Some free_space) =>
        let mapping :=
          {| address := free_space; size := requested_size; backed_by := backing |} in
        (Ok free_space, BTreeMap.insert free_space mapping self)
    end.

(** The keys of the regions that meet [addr, unmap_end). *)
Fixpoint keys_to_modify (range : regions) (addr unmap_end : Z) : list Z :=
  match range with
  | [] => []
  | (k, v) :: range =>
      if unmap_end <=? range_start v then []
      else if range_end v <=? addr then keys_to_modify range addr unmap_end
      else k :: keys_to_modify range addr unmap_end
  end.

Definition unmapped_kind (backing : MemoryBacking) (local_offset : Z) : UnmappedRegionKind :=
  match backing with
  | Direct paddr => UDirect (PhysicalAddress.add paddr local_offset)
  | FreeMemory => UFreeMemory
  | IsaDma => UFreeMemory
  | FileBacked driver_id mapping_token offset_in_file shared =>
      UFileBacked driver_id mapping_token (u32 (offset_in_file + local_offset)) shared
  end.

(** One iteration of the modification loop: a key that is not mapped, or an
    empty intersection, is a panic. *)
Definition unmap_key (addr unmap_end : Z) (self : regions) (unmapped : list UnmappedRegion) (k : Z) :
    option (regions * list UnmappedRegion) :=
  let '(removed, self) := BTreeMap.remove k self in
  region ← removed;
  let intersection_start := Z.max (range_start region) addr in
  let intersection_end := Z.min (range_end region) unmap_end in
  if intersection_end <? intersection_start then None
  else
    let intersection_size := VirtualAddress.sub intersection_end intersection_start in
    let local_offset := VirtualAddress.sub intersection_start (range_start region) in
    let unmapped :=
      if 0 <? intersection_size then
        unmapped ++ [{| uaddress := intersection_start; usize := intersection_size;
                        kind := unmapped_kind (backed_by region) local_offset |}]
      else unmapped in
    let self :=
      if range_start region <? addr then
        BTreeMap.insert (range_start region)
          {| address := range_start region; size := VirtualAddress.sub addr (range_start region);
             backed_by := backed_by region |} self
      else self in
    let self :=
      if unmap_end <? range_end region then
        BTreeMap.insert unmap_end
          {| address := unmap_end; size := VirtualAddress.sub (range_end region) unmap_end;
             backed_by := backed_by region |} self
      else self in
    Some (self, unmapped).

Fixpoint unmap_loop (addr unmap_end : Z) (keys : list Z) (self : regions)
    (unmapped : list UnmappedRegion) : option (regions * list UnmappedRegion) :=
  match keys with
  | [] => Some (self, unmapped)
  | k :: keys =>
      '(self, unmapped) ← unmap_key addr unmap_end self unmapped k;
      unmap_loop addr unmap_end keys self unmapped
  end.

Definition unmap_memory (U : Z) (self : regions) (addr length : Z) :
    option (result (list UnmappedRegion) MemMapError * regions) :=
  if negb (length .& 0xfff =? 0) then Some (Err UnmapNotPageMultiple, self)
  else if (U <=? addr) || (U <? u32 (addr + length)) then Some (Err MapOutOfBounds, self)
  else
    let unmap_end := VirtualAddress.add addr length in
    let initial_key :=
      match BTreeMap.last_le addr self with
      | Some (k, _) => Some k
      | None =>
          match BTreeMap.range_from addr self with
          | (k, _) :: _ => Some k
          | [] => None
          end
      end in
    match initial_key with
    | None => Some (Ok [], self)
    | Some initial_key =>
        let keys := keys_to_modify (BTreeMap.range_from initial_key self) addr unmap_end in
        '(self, unmapped) ← unmap_loop addr unmap_end keys self [];
        Some (Ok unmapped, self)
    end.

Definition get_mapping_containing_address (self : regions) (addr : Z) : option MemMappedRegion.t :=
  snd <$> list_find (fun r => contains_address r addr) self.*2.
End MappedMemory.

(** ** Well-formed maps *)

Module MapFacts.
Import MemMappedRegion MappedMemory.

(** The first page boundary at or after the end of a region. *)
Definition page_end (r : MemMappedRegion.t) : Z := (address r + size r + 4095) / 4096 * 4096.

Definition region_ok (k : Z) (r : MemMappedRegion.t) : Prop :=
  k = address r /\ k mod 4096 = 0 /\ 0 < size r.

(** The regions lie in order between [lo] and [hi], no two in the same page. *)
Fixpoint chain (lo hi : Z) (l : regions) : Prop :=
  match l with
  | [] => lo <= hi
  | (k, r) :: l => lo <= k /\ region_ok k r /\ chain (page_end r) hi l
  end.

(** Nothing is mapped in the pages of [s, e). *)
Definition free_range (l : regions) (s e : Z) : Prop :=
  Forall (fun '(k, r) => page_end r <= s \/ e <= k) l.

Ltac page := unfold page_end, region_ok in *; simpl in *; word.

Lemma page_end_bounds k r : region_ok k r ->
  k + size r <= page_end r < k + size r + 4096 /\ k + 4096 <= page_end r /\ page_end r mod 4096 = 0.
Proof. page. Qed.

Lemma chain_weaken lo lo' hi l : lo' <= lo -> chain lo hi l -> chain lo' hi l.
Proof. destruct l as [|[k r] l]; simpl; intuition lia. Qed.

Lemma chain_le lo hi l : chain lo hi l -> lo <= hi.
Proof.
  revert lo. induction l as [|[k r] l IH]; intros lo; [done|]. intros (H & Hok & Hc).
  apply IH in Hc. pose proof (page_end_bounds k r Hok). destruct Hok as (? & ? & ?). lia.
Qed.

Lemma chain_elem lo hi l k r :
  chain lo hi l -> (k, r) ∈ l -> lo <= k /\ region_ok k r /\ page_end r <= hi.
Proof.
  revert lo. induction l as [|[k' r'] l IH]; intros lo Hc Hin; [by apply elem_of_nil in Hin|].
  destruct Hc as (Hlo & Hok & Hc). apply elem_of_cons in Hin as [Heq|Hin].
  - simplify_eq. split_and!; try done. by apply chain_le in Hc.
  - destruct (IH _ Hc Hin) as (Hk & ? & ?). split_and!; try done.
    pose proof (page_end_bounds k' r' Hok). destruct Hok as (? & ? & ?). lia.
Qed.

Lemma chain_snoc lo hi l k r :
  chain lo hi (l ++ [(k, r)]) <-> chain lo k l /\ region_ok k r /\ page_end r <= hi.
Proof.
  revert lo. induction l as [|[k' r'] l IH]; intros lo; simpl.
  - tauto.
  - rewrite IH. tauto.
Qed.

(** Below the first region, everything up to it is free. *)
Lemma chain_free_below lo hi l s e : chain lo hi l -> e <= lo -> free_range l s e.
Proof.
  intros Hc He. apply Forall_forall. intros [k r] Hin.
  destruct (chain_elem _ _ _ _ _ Hc Hin) as (? & _). right. lia.
Qed.

Lemma range_end_chain lo hi l k r :
  0 <= lo -> hi < 2 ^ 32 -> chain lo hi l -> (k, r) ∈ l ->
  range_start r = k /\ range_end r = k + size r /\ next_page_barrier (range_end r) = page_end r.
Proof.
  intros Hlo Hhi Hc Hin. destruct (chain_elem _ _ _ _ _ Hc Hin) as (Hk & Hok & Hp).
  pose proof (page_end_bounds k r Hok) as (Hb & _ & _). destruct Hok as (Hka & Hal & Hs).
  assert (Hre : range_end r = k + size r).
  { unfold range_end, VirtualAddress.add. rewrite <- Hka. word. }
  rewrite Hre. split; [done|]. split; [done|].
  rewrite next_page_barrier_spec; [unfold page_end; by rewrite Hka|word|].
  unfold page_end in *. rewrite <- Hka in *. word.
Qed.

(** ** Insertion *)

Lemma insert_elem {V} k (v : V) l e :
  StronglySorted Z.lt l.*1 -> k ∉ l.*1 ->
  e ∈ BTreeMap.insert k v l <-> e = (k, v) \/ e ∈ l.
Proof.
  intros Hs Hk. induction l as [|[k' v'] l IH]; simpl.
  - rewrite elem_of_cons. done.
  - simpl in *. apply StronglySorted_inv in Hs as [Hs _]. apply not_elem_of_cons in Hk as [Hne Hk].
    case_test; [by rewrite !elem_of_cons|]. case_test; [lia|].
    rewrite !elem_of_cons, IH by done. tauto.
Qed.

Lemma chain_insert lo hi l k r :
  chain lo hi l -> region_ok k r -> lo <= k -> page_end r <= hi ->
  free_range l k (page_end r) -> chain lo hi (BTreeMap.insert k r l).
Proof.
  revert lo. induction l as [|[k' r'] l IH]; intros lo Hc Hok Hlo Hhi Hf; simpl.
  - done.
  - destruct Hc as (Hlo' & Hok' & Hc). apply Forall_cons in Hf as [Hd Hf].
    pose proof (page_end_bounds k r Hok). pose proof (page_end_bounds k' r' Hok').
    destruct Hok as (Hka & Hal & Hsz), Hok' as (Hka' & Hal' & Hsz').
    case_test; [|case_test; [lia|]].
    + simpl. split_and!; try done; lia.
    + simpl. split_and!; try done. apply IH; try done. lia.
Qed.

Lemma chain_sorted lo hi l : chain lo hi l -> StronglySorted Z.lt l.*1 /\ Forall (fun k => lo <= k) l.*1.
Proof.
  revert lo. induction l as [|[k r] l IH]; intros lo Hc; [repeat constructor|].
  destruct Hc as (Hlo & Hok & Hc). destruct (IH _ Hc) as [Hs Hf].
  pose proof (page_end_bounds k r Hok). destruct Hok as (? & ? & ?).
  split; constructor; try done; (eapply Forall_impl; [exact Hf|simpl; lia]).
Qed.

Lemma chain_insert_elem lo hi l k r e :
  chain lo hi l -> free_range l k (page_end r) -> region_ok k r ->
  e ∈ BTreeMap.insert k r l <-> e = (k, r) \/ e ∈ l.
Proof.
  intros Hc Hf Hok. apply insert_elem; [by eapply chain_sorted|].
  intros Hin. apply list_elem_of_fmap in Hin as ([k' r'] & -> & Hin). simpl in *.
  pose proof (proj1 (Forall_forall _ _) Hf _ Hin) as Hd. simpl in Hd.
  destruct (chain_elem _ _ _ _ _ Hc Hin) as (_ & Hok' & _).
  pose proof (page_end_bounds _ _ Hok). pose proof (page_end_bounds _ _ Hok').
  destruct Hok as (? & ? & ?), Hok' as (? & ? & ?). lia.
Qed.
End MapFacts.

(** ** Finding free space *)

Module SearchFacts.
Import MemMappedRegion MappedMemory MapFacts.

Lemma ranges_overlap_spec a1 a2 b1 b2 :
  0 <= a1 < a2 -> 0 <= b1 < b2 -> (a2 - a1) + (b2 - b1) < 2 ^ 32 ->
  ranges_overlap a1 a2 b1 b2 = false <-> a2 <= b1 \/ b2 <= a1.
Proof. intros Ha Hb Hs. unfold ranges_overlap, VirtualAddress.sub. rewrite Z.ltb_ge. word. Qed.

Section Search.
Context (U : Z) (HU : U mod 4096 = 0) (HU32 : 0x1000 <= U < 2 ^ 32).
Context (n : Z) (Hn : 0 < n) (Hn4 : n mod 4096 = 0).

(** [x] can host a request of [n] bytes between [lo] and [hi]. *)
Definition fits (lo hi : Z) (l : regions) (x : Z) : Prop :=
  lo <= x /\ x + n <= hi /\ free_range l x (x + n).

Lemma can_fit_range_spec lo l s :
  0 <= lo -> chain lo U l -> 0 <= s -> s mod 4096 = 0 -> s + n <= U -> n + U < 2 ^ 32 ->
  can_fit_range l s (s + n) = true <-> free_range l s (s + n).
Proof.
  intros Hlo Hc Hs Hal Hsn Hov. assert (Hsub : forall k r, (k, r) ∈ l -> lo <= k /\ region_ok k r /\
    page_end r <= U /\ range_start r = k /\ range_end r = k + size r).
  { intros k r Hin. destruct (chain_elem _ _ _ _ _ Hc Hin) as (? & ? & ?).
    destruct (range_end_chain lo U l k r) as (? & ? & ?); try done; lia. }
  clear Hc. induction l as [|[k r] l IH]; [split; [constructor|done]|].
  unfold free_range in *.
  rewrite Forall_cons. cbn [can_fit_range].
  destruct (Hsub k r ltac:(by left)) as (Hk & Hok & Hp & -> & ->).
  pose proof (page_end_bounds k r Hok). destruct Hok as (Hka & Hkal & Hsz).
  assert (Hov' := ranges_overlap_spec k (k + size r) s (s + n)).
  destruct (ranges_overlap k (k + size r) s (s + n)).
  - split; [done|]. intros [Hd _]. destruct Hov' as [_ Hov']; [lia..|].
    destruct Hov'; [lia|done].
  - rewrite IH by (intros; apply Hsub; by right). split; [|tauto]. intros Hf. split; [|done].
    destruct Hov' as [Hov' _]; [lia..|]. destruct (Hov' eq_refl); [left; word|right; lia].
Qed.

(** *** The gaps between the regions *)

Fixpoint gaps (lo : Z) (l : regions) (hi : Z) : list (Z * Z) :=
  match l with
  | [] => [(lo, hi)]
  | (k, r) :: l => (lo, k) :: gaps (page_end r) l hi
  end.

Lemma gaps_fit lo0 lo hi l x :
  chain lo0 hi l -> lo <= lo0 + 4096 ->
  fits lo hi l x <-> exists gs ge, (gs, ge) ∈ gaps lo l hi /\ gs <= x /\ x + n <= ge.
Proof.
  unfold fits. revert lo0 lo. induction l as [|[k r] l IH]; intros lo0 lo Hc Hlo; simpl.
  - split.
    + intros (? & ? & _). exists lo, hi. split; [by left|done].
    + intros (gs & ge & Hin & ? & ?). apply list_elem_of_singleton in Hin. simplify_eq.
      split_and!; try done. constructor.
  - destruct Hc as (Hk & Hok & Hc). pose proof (page_end_bounds k r Hok) as (Hb & Hb2 & _).
    unfold free_range. rewrite Forall_cons. setoid_rewrite elem_of_cons.
    specialize (IH (page_end r) (page_end r) Hc ltac:(lia)). split.
    + intros (Hx & Hxn & [Hd|Hd] & Hf).
      * destruct (proj1 IH) as (gs & ge & Hin & ? & ?); [done|]. exists gs, ge. eauto.
      * exists lo, k. split_and!; auto.
    + intros (gs & ge & [Heq|Hin] & Hgs & Hge).
      * simplify_eq. apply chain_le in Hc as Hle. destruct Hok as (? & ? & ?).
        split_and!; [done|lia|by right|]. eapply chain_free_below; [exact Hc|lia].
      * destruct (proj2 IH) as (? & ? & ?); [by exists gs, ge|]. split_and!; auto; lia.
Qed.

Definition distance (a b : Z) : Z := Z.abs (a - b).

(** [best] is the closest place found in the gaps seen so far. *)
Definition best_of (hint : Z) (gs : list (Z * Z)) (best : option Z) (bd : Z) : Prop :=
  match best with
  | None => bd = 0xffffffff /\ forall s e x, (s, e) ∈ gs -> s <= x -> x + n <= e -> False
  | Some p => bd = distance p hint /\ p mod 4096 = 0 /\
      (exists s e, (s, e) ∈ gs /\ s <= p /\ p + n <= e) /\
      (forall s e x, (s, e) ∈ gs -> s <= x -> x + n <= e -> distance p hint <= distance x hint)
  end.

Lemma consider_gap_spec hint seen best bd s e :
  0 <= hint -> hint mod 4096 = 0 -> hint + n < 2 ^ 32 ->
  0 <= s -> e < 2 ^ 32 -> s mod 4096 = 0 -> e mod 4096 = 0 ->
  best_of hint seen best bd ->
  let '(best', bd') := consider_gap hint n s e best bd in best_of hint (seen ++ [(s, e)]) best' bd'.
Proof.
  intros Hh Hhal Hhn Hs He Hsal Heal Hbest. unfold consider_gap.
  assert (Hskip : (forall x, s <= x -> x + n <= e -> False) -> best_of hint (seen ++ [(s, e)]) best bd).
  { intros Hno. destruct best as [p|]; simpl in *.
    - destruct Hbest as (? & ? & (s' & e' & ? & ?) & Hmin). split_and!; try done.
      + exists s', e'. split; [apply elem_of_app; by left|done].
      + intros s1 e1 x. rewrite elem_of_app, list_elem_of_singleton. intros [Hin|Heq]; [eauto|].
        simplify_eq. intros. exfalso; eauto.
    - destruct Hbest as [-> Hno']. split; [done|]. intros s1 e1 x.
      rewrite elem_of_app, list_elem_of_singleton. intros [Hin|Heq]; [eauto|]. simplify_eq. eauto. }
  case_test; [|apply Hskip; intros; lia]. unfold VirtualAddress.sub, VirtualAddress.add.
  case_test; [|apply Hskip; intros; word].
  set (place := if (s <=? hint) && (u32 (hint + n) <=? e) then hint
                else if hint <? s then s else prev_page_barrier (saturating_sub e n)).
  assert (Hp : place mod 4096 = 0 /\ s <= place /\ place + n <= e /\
    forall x, s <= x -> x + n <= e -> distance place hint <= distance x hint).
  { subst place. unfold distance. rewrite prev_page_barrier_spec by word.
    assert (u32 (hint + n) = hint + n) as -> by word.
    assert (saturating_sub e n = e - n) as -> by word.
    repeat case_test; split_and!; try lia; try (intros; lia); word. }
  destruct Hp as (Hpal & Hps & Hpe & Hpmin).
  assert (Hd : (if hint <=? place then saturating_sub place hint else saturating_sub hint place) =
               distance place hint).
  { unfold distance. case_test; word. }
  rewrite Hd. clearbody place. clear Hskip Hd.
  assert (Hlt : distance place hint < 0xffffffff) by (unfold distance; word).
  assert (Hnew : (forall s1 e1 x, (s1, e1) ∈ seen -> s1 <= x -> x + n <= e1 ->
            distance place hint <= distance x hint) ->
          best_of hint (seen ++ [(s, e)]) (Some place) (distance place hint)).
  { intros Hold. split_and!; try done.
    - exists s, e. split; [apply elem_of_app; right; by left|done].
    - intros s1 e1 x. rewrite elem_of_app, list_elem_of_singleton.
      intros [Hin|Heq]; [eauto|]. simplify_eq. eauto. }
  destruct best as [p|]; simpl in Hbest.
  - destruct Hbest as (-> & Hpal' & (s' & e' & Hin' & ? & ?) & Hmin).
    destruct ((distance place hint <? distance p hint) || _) eqn:Hcmp.
    + apply Hnew. intros s1 e1 x Hin Hx1 Hx2. specialize (Hmin _ _ _ Hin Hx1 Hx2). lia.
    + split_and!; try done.
      * exists s', e'. split; [apply elem_of_app; by left|done].
      * intros s1 e1 x. rewrite elem_of_app, list_elem_of_singleton.
        intros [Hin|Heq]; [eauto|]. simplify_eq. intros Hx1 Hx2.
        specialize (Hpmin _ Hx1 Hx2). lia.
  - destruct Hbest as [-> Hno]. rewrite (proj2 (Z.ltb_lt _ _)) by done. simpl.
    apply Hnew. intros. exfalso; eauto.
Qed.

Lemma nearest_loop_spec hint l :
  0 <= hint -> hint mod 4096 = 0 -> hint + n < 2 ^ 32 ->
  forall lo0 lo seen best bd,
  0 <= lo0 -> chain lo0 U l -> 0 <= lo -> lo mod 4096 = 0 -> best_of hint seen best bd ->
  let '(pe, best', bd') := nearest_loop l hint n lo best bd in
  0 <= pe /\ pe mod 4096 = 0 /\
  exists seen', seen' ++ [(pe, U)] = seen ++ gaps lo l U /\ best_of hint seen' best' bd'.
Proof.
  intros Hh Hhal Hhn. induction l as [|[k r] l IH]; intros lo0 lo seen best bd Hlo0 Hc Hlo Hal Hbest.
  - simpl. split_and!; try done. by exists seen.
  - destruct (range_end_chain lo0 U _ k r Hlo0 ltac:(lia) Hc ltac:(by left)) as (Hst & _ & Hpe).
    destruct Hc as (Hk & Hok & Hc). pose proof (page_end_bounds k r Hok) as (Hb & Hb2 & Hb3).
    apply chain_le in Hc as Hle. destruct Hok as (Hka & Hkal & Hsz).
    cbn [nearest_loop]. unfold range_start in Hst. rewrite Hst.
    pose proof (consider_gap_spec hint seen best bd lo k) as Hg.
    destruct (consider_gap hint n lo k best bd) as [best1 bd1].
    unfold range_end in Hpe. rewrite Hst in Hpe. rewrite Hpe.
    specialize (IH (page_end r) (page_end r) (seen ++ [(lo, k)]) best1 bd1).
    destruct (nearest_loop l hint n (page_end r) best1 bd1) as [[pe best2] bd2].
    destruct IH as (? & ? & seen' & Hs & ?); try done; try lia; [apply Hg; done || lia|].
    split_and!; try done. exists seen'. split; [|done]. rewrite Hs, <- app_assoc. done.
Qed.

Lemma find_nearest_spec hint l :
  0 <= hint -> hint mod 4096 = 0 -> hint + n < 2 ^ 32 -> chain 0 U l ->
  match find_nearest_free_space U l hint n with
  | Some p => p mod 4096 = 0 /\ fits 0x1000 U l p /\
      forall x, fits 0x1000 U l x -> distance p hint <= distance x hint
  | None => forall x, ~ fits 0x1000 U l x
  end.
Proof.
  intros Hh Hhal Hhn Hc. unfold find_nearest_free_space.
  pose proof (nearest_loop_spec hint l Hh Hhal Hhn 0 0x1000 [] None 0xffffffff) as Hl.
  destruct (nearest_loop l hint n 4096 None 4294967295) as [[pe best] bd].
  destruct Hl as (Hpe & Hpal & seen & Hs & Hb); try done.
  { split; [done|]. intros s e x Hin. by apply elem_of_nil in Hin. }
  pose proof (consider_gap_spec hint seen best bd pe U) as Hg.
  destruct (consider_gap hint n pe U best bd) as [best' bd'].
  simpl in Hs. rewrite Hs in Hg. specialize (Hg Hh Hhal Hhn Hpe ltac:(lia) Hpal HU Hb). simpl.
  destruct best' as [p|]; simpl in Hg.
  - destruct Hg as (_ & Hal & Hex & Hmin). split; [done|].
    split; [by apply (gaps_fit 0); [|lia|]|].
    intros x Hx. apply (gaps_fit 0) in Hx as (gs & ge & ? & ? & ?); [|done|lia]. eauto.
  - intros x Hx. apply (gaps_fit 0) in Hx as (gs & ge & ? & ? & ?); [|done|lia].
    by eapply (proj2 Hg).
Qed.

(** Downwards from the top, the first gap that is large enough gives the
    highest place there is. *)
Lemma free_space_loop_spec l :
  forall hi, hi mod 4096 = 0 -> hi < 2 ^ 32 -> chain 0 hi l -> (exists x, fits 0 hi l x) ->
  exists p, free_space_loop (rev l) n hi = Some p /\ p mod 4096 = 0 /\ fits 0 hi l p /\
    forall x, fits 0 hi l x -> x <= p.
Proof.
  induction l as [|[k r] l IH] using rev_ind; intros hi Hal Hhi Hc [x Hx].
  - simpl in Hc. destruct Hx as (? & ? & _). exists (hi - n). cbn [free_space_loop rev].
    unfold VirtualAddress.sub. rewrite prev_page_barrier_spec by word. split; [f_equal; word|].
    split; [word|]. split; [split_and!; [lia|lia|constructor]|]. intros y (? & ? & _). lia.
  - destruct (range_end_chain 0 hi _ k r ltac:(lia) Hhi Hc) as (Hst & _ & Hpe);
      [apply elem_of_app; right; by left|].
    apply chain_snoc in Hc as (Hc & Hok & Hp). apply chain_le in Hc as Hle.
    pose proof (page_end_bounds k r Hok) as (Hb & Hb2 & Hb3). destruct Hok as (Hka & Hkal & Hsz).
    rewrite rev_unit. cbn [free_space_loop].
    change (VirtualAddress.add (address r) (size r)) with (range_end r). rewrite Hpe.
    unfold range_start in Hst. rewrite Hst.
    unfold VirtualAddress.sub. rewrite prev_page_barrier_spec by word.
    assert (Hfit : forall y, fits 0 hi (l ++ [(k, r)]) y <->
      (page_end r <= y /\ y + n <= hi) \/ fits 0 k l y).
    { intros y. unfold fits, free_range. rewrite Forall_app, Forall_singleton. split.
      - intros (? & ? & Hf & [?|?]); [left|right]; done.
      - intros [[? ?]|(? & ? & Hf)].
        + split_and!; try lia. apply Forall_forall. intros [k' r'] Hin.
          destruct (chain_elem _ _ _ _ _ Hc Hin) as (_ & _ & ?). left. lia.
        + split_and!; try done; lia. }
    case_test.
    + exists (hi - n). split; [f_equal; word|]. split; [word|]. rewrite Hfit. split; [left; word|].
      intros y. rewrite Hfit. intros [?|(? & ? & _)]; lia.
    + destruct (IH k) as (p & Hl & Hpal & Hpf & Hmax); try done; try lia.
      { apply Hfit in Hx as [?|?]; [exfalso; word|by exists x]. }
      exists p. split; [done|]. split; [done|]. rewrite Hfit. split; [by right|].
      intros y. rewrite Hfit. intros [?|?]; [exfalso; word|auto].
Qed.
End Search.
End SearchFacts.

(** ** Cutting a hole *)

Module UnmapFacts.
Import MemMappedRegion MappedMemory MapFacts.

Section Unmap.
Context (a e : Z).

Definition overlaps (r : MemMappedRegion.t) : bool :=
  (address r <? e) && (a <? address r + size r).

(** What is left of a region around the hole, and what is taken out. *)
Definition keep (k : Z) (r : MemMappedRegion.t) : regions :=
  (if k <? a then [(k, {| address := k; size := a - k; backed_by := backed_by r |})] else []) ++
  (if e <? k + size r then
     [(e, {| address := e; size := k + size r - e; backed_by := backed_by r |})] else []).

Definition cut (kr : Z * MemMappedRegion.t) : regions :=
  let '(k, r) := kr in if overlaps r then keep k r else [(k, r)].

Definition taken (kr : Z * MemMappedRegion.t) : list UnmappedRegion :=
  let '(k, r) := kr in
  let s := Z.max k a in
  let t := Z.min (k + size r) e in
  if overlaps r && (s <? t) then
    [{| uaddress := s; usize := t - s; kind := unmapped_kind (backed_by r) (s - k) |}]
  else [].

(** Keys of the entries to change, in a list of sorted regions. *)
Lemma keys_to_modify_spec lo hi l :
  0 <= lo -> hi < 2 ^ 32 -> chain lo hi l ->
  keys_to_modify l a e = (filter (fun kr => overlaps kr.2) l).*1.
Proof.
  intros Hlo Hhi. revert lo Hlo. induction l as [|[k r] l IH]; intros lo Hlo Hc; [done|].
  destruct (range_end_chain lo hi _ k r Hlo Hhi Hc) as (Hst & Hen & _); [by left|].
  destruct Hc as (Hk & Hok & Hc). pose proof (page_end_bounds k r Hok) as (Hb & _ & _).
  destruct Hok as (Hka & _ & Hsz). cbn [keys_to_modify]. rewrite Hst, Hen, filter_cons. simpl.
  rewrite (IH (page_end r)) by (done || lia).
  assert (Hov : overlaps r = (k <? e) && (a <? k + size r)) by (by rewrite Hka).
  case_test.
  - rewrite decide_False by (rewrite Hov; simpl; destruct (k <? e) eqn:?; [lia|by intros []]).
    assert (Hnil : filter (fun kr : Z * MemMappedRegion.t => overlaps kr.2) l = []).
    { apply filter_none. apply Forall_forall.
      intros [k' r'] Hin. destruct (chain_elem _ _ _ _ _ Hc Hin) as (? & (? & _) & _).
      unfold overlaps; simpl. destruct (address r' <? e) eqn:?; [lia|by intros []]. }
    by rewrite Hnil.
  - case_test.
    + rewrite decide_False; [done|]. rewrite Hov. destruct (a <? k + size r) eqn:?; [lia|].
      rewrite andb_false_r. by intros [].
    + rewrite decide_True; [done|]. rewrite Hov.
      by rewrite (proj2 (Z.ltb_lt k e)), (proj2 (Z.ltb_lt a (k + size r))) by lia.
Qed.

Lemma btree_insert_mid {V} k (v : V) pre post :
  Forall (fun kv => kv.1 < k) pre -> Forall (fun kv => k < kv.1) post ->
  BTreeMap.insert k v (pre ++ post) = pre ++ (k, v) :: post.
Proof.
  intros Hpre Hpost. induction Hpre as [|[k' v'] pre Hk _ IH]; simpl in *.
  - destruct Hpost as [|[k' v'] post Hk _]; [done|]. simpl in *.
    by rewrite (proj2 (Z.ltb_lt _ _)).
  - rewrite (proj2 (Z.ltb_ge k k')), (proj2 (Z.eqb_neq k k')) by lia. by rewrite IH.
Qed.

Lemma btree_remove_mid {V} k (v : V) pre post :
  Forall (fun kv => kv.1 < k) pre -> BTreeMap.remove k (pre ++ (k, v) :: post) = (Some v, pre ++ post).
Proof.
  intros Hpre. induction Hpre as [|[k' v'] pre Hk _ IH]; simpl in *; [by rewrite Z.eqb_refl|].
  rewrite (proj2 (Z.eqb_neq k k')) by lia. by rewrite IH.
Qed.

Lemma unmap_key_spec lo hi pre k r post acc :
  0 <= a -> a <= e -> e < 2 ^ 32 -> 0 <= lo -> hi < 2 ^ 32 ->
  chain lo hi ((k, r) :: post) -> Forall (fun kv => kv.1 < k) pre -> overlaps r = true ->
  unmap_key a e (pre ++ (k, r) :: post) acc k = Some (pre ++ keep k r ++ post, acc ++ taken (k, r)).
Proof.
  intros Ha Hae He Hlo Hhi Hc Hpre Hov.
  destruct (range_end_chain lo hi _ k r Hlo Hhi Hc) as (Hst & Hen & _); [by left|].
  destruct Hc as (Hk & Hok & Hc). pose proof (page_end_bounds k r Hok) as (Hb & _ & _).
  apply chain_le in Hc as Hle. destruct Hok as (Hka & _ & Hsz).
  assert (Hpost : forall x, x <= k + size r -> x < page_end r -> Forall (fun kv => x < kv.1) post).
  { intros x _ Hx. apply Forall_forall. intros [k' r'] Hin.
    destruct (chain_elem _ _ _ _ _ Hc Hin) as (? & _). simpl. lia. }
  assert (Hpo : k < e /\ a < k + size r) by (unfold overlaps in Hov; rewrite <- Hka in Hov; lia).
  unfold unmap_key. rewrite btree_remove_mid by done. cbn [mbind option_bind].
  rewrite Hst, Hen, (proj2 (Z.ltb_ge _ _)) by lia. unfold VirtualAddress.sub, taken, keep.
  rewrite Hov. simpl. f_equal. f_equal.
  - assert (Hpre' : Forall (fun kv => kv.1 < e) pre) by (eapply Forall_impl; [done|simpl; lia]).
    assert (saturating_sub a k = a - k \/ a <= k) as [->|Hak] by word;
      [|rewrite (proj2 (Z.ltb_ge k a)) by lia];
      assert (saturating_sub (k + size r) e = k + size r - e \/ k + size r <= e) as [->|Hee] by word;
      try (rewrite (proj2 (Z.ltb_ge e (k + size r))) by lia); repeat case_test; simpl;
      rewrite ?(btree_insert_mid k) by (done || apply Hpost; lia);
      rewrite ?(app_assoc pre [_] post : pre ++ _ :: post = _);
      rewrite ?btree_insert_mid by (done || (apply Hpost; lia) || (apply Forall_app; split; [done|]; repeat constructor; simpl; lia));
      rewrite <- ?app_assoc; done.
  - set (s := Z.max k a). set (t := Z.min (k + size r) e).
    assert (saturating_sub t s = t - s) as -> by (subst s t; word).
    assert (saturating_sub s k = s - k) as -> by (subst s; word).
    destruct (Z.ltb_spec 0 (t - s)), (Z.ltb_spec s t); try lia; [done|by rewrite app_nil_r].
Qed.

Lemma unmap_loop_spec lo hi post :
  0 <= a -> a <= e -> e < 2 ^ 32 -> hi < 2 ^ 32 -> forall pre acc, 0 <= lo -> 
  chain lo hi post -> Forall (fun kv => kv.1 < lo) pre ->
  unmap_loop a e (filter (fun kr => overlaps kr.2) post).*1 (pre ++ post) acc =
  Some (pre ++ flat_map cut post, acc ++ flat_map taken post).
Proof.
  intros Ha Hae He Hhi. revert lo. induction post as [|[k r] post IH]; intros lo pre acc Hlo Hc Hpre.
  { simpl. by rewrite !app_nil_r. }
  pose proof Hc as (Hk & Hok & Hc'). pose proof (page_end_bounds k r Hok) as (Hb & _ & _).
  destruct Hok as (Hka & _ & Hsz).
  assert (Hprek : Forall (fun kv => kv.1 < k) pre) by (eapply Forall_impl; [done|simpl; lia]).
  assert (Hpre' : Forall (fun kv => kv.1 < page_end r) (pre ++ cut (k, r))).
  { apply Forall_app. split; [eapply Forall_impl; [done|simpl; lia]|]. simpl. unfold keep.
    destruct (overlaps r) eqn:Hov; [|repeat constructor; simpl; lia].
    unfold overlaps in Hov. rewrite <- Hka in Hov.
    apply Forall_app; split; case_test; repeat constructor; simpl; lia. }
  rewrite filter_cons. cbn [flat_map]. destruct (overlaps r) eqn:Hov.
  - rewrite decide_True by (simpl; by rewrite Hov). cbn [fmap list_fmap unmap_loop fst].
    rewrite (unmap_key_spec lo hi) by done. cbn [mbind option_bind].
    rewrite app_assoc. simpl in Hpre'. rewrite Hov in Hpre'.
    rewrite (IH (page_end r)) by (done || lia). simpl. by rewrite Hov, <- !app_assoc.
  - rewrite decide_False by (simpl; rewrite Hov; by intros []).
    rewrite (app_assoc pre [(k, r)] post : pre ++ (k, r) :: post = _).
    simpl in Hpre'. rewrite Hov in Hpre'.
    rewrite (IH (page_end r)) by (done || lia). simpl. by rewrite Hov, <- !app_assoc.
Qed.

Lemma range_from_split lo hi l ik r0 :
  chain lo hi l -> (ik, r0) ∈ l ->
  exists pre, l = pre ++ BTreeMap.range_from ik l /\
    Forall (fun kr => kr.1 = address kr.2 /\ 0 < size kr.2 /\ address kr.2 + size kr.2 <= ik) pre /\
    chain ik hi (BTreeMap.range_from ik l).
Proof.
  unfold BTreeMap.range_from. revert lo. induction l as [|[k r] l IH]; intros lo Hc Hin;
    [by apply elem_of_nil in Hin|].
  pose proof Hc as (Hk & Hok & Hc'). pose proof (page_end_bounds k r Hok) as (Hb & _ & _).
  destruct Hok as (Hka & _ & Hsz). apply elem_of_cons in Hin as [Heq|Hin].
  - injection Heq as -> ->. exists []. rewrite filter_all; [split_and!; [done|constructor|]|].
    + destruct Hc as (? & ? & ?). split; [lia|done].
    + constructor; [simpl; lia|]. apply Forall_forall. intros [k' r'] Hin'.
      destruct (chain_elem _ _ _ _ _ Hc' Hin') as (? & _). simpl. lia.
  - destruct (IH _ Hc' Hin) as (pre & Heq & Hpre & Hch).
    destruct (chain_elem _ _ _ _ _ Hc' Hin) as (Hik & _).
    exists ((k, r) :: pre). rewrite filter_cons_False by (simpl; lia). split_and!; try done.
    + simpl. by f_equal.
    + constructor; [simpl; rewrite <- Hka; lia|done].
Qed.

Lemma not_overlaps_cut pre ik :
  Forall (fun kr => kr.1 = address kr.2 /\ 0 < size kr.2 /\ address kr.2 + size kr.2 <= ik) pre ->
  ik <= a -> flat_map cut pre = pre /\ flat_map taken pre = [] /\ Forall (fun kr => kr.1 < ik) pre.
Proof.
  intros Hpre Hik. induction Hpre as [|[k r] pre (Hk & Hs & Hle) _ (IH1 & IH2 & IH3)]; [done|].
  simpl in *. assert (Hov : overlaps r = false) by (unfold overlaps; lia).
  rewrite Hov, IH1, IH2. split_and!; try done. constructor; [simpl; lia|done].
Qed.

Lemma first_key_range k (r : MemMappedRegion.t) l lo hi :
  chain lo hi ((k, r) :: l) -> a < k -> BTreeMap.range_from a ((k, r) :: l) = (k, r) :: l.
Proof.
  intros (_ & Hok & Hc) Hk. unfold BTreeMap.range_from. apply filter_all.
  pose proof (page_end_bounds k r Hok). destruct Hok as (? & ? & ?).
  constructor; [simpl; lia|]. apply Forall_forall. intros [k' r'] Hin.
  destruct (chain_elem _ _ _ _ _ Hc Hin) as (? & _). simpl. lia.
Qed.
End Unmap.

Lemma range_from_head lo hi l k r :
  chain lo hi l -> (k, r) ∈ l -> exists post, BTreeMap.range_from k l = (k, r) :: post.
Proof.
  unfold BTreeMap.range_from. revert lo. induction l as [|[k' r'] l IH]; intros lo Hc Hin;
    [by apply elem_of_nil in Hin|].
  destruct Hc as (Hk & Hok & Hc). pose proof (page_end_bounds k' r' Hok). destruct Hok as (? & ? & ?).
  apply elem_of_cons in Hin as [Heq|Hin].
  - injection Heq as -> ->. rewrite filter_cons_True by (simpl; lia). by eexists.
  - destruct (chain_elem _ _ _ _ _ Hc Hin) as (? & _).
    rewrite filter_cons_False by (simpl; lia). by eapply IH.
Qed.

(** The last region that starts at or before [a] is the one that reaches past
    it. *)
Lemma last_key lo hi l a k r k' r' :
  chain lo hi l -> (k, r) ∈ l -> k <= a < page_end r ->
  last (filter (fun kr : Z * MemMappedRegion.t => kr.1 <= a) l) = Some (k', r') -> k' = k.
Proof.
  revert lo. induction l as [|[k0 r0] l IH]; intros lo Hc Hin Ha Hl; [done|].
  destruct Hc as (Hk & Hok & Hc). pose proof (page_end_bounds k0 r0 Hok). destruct Hok as (? & ? & ?).
  apply elem_of_cons in Hin as [Heq|Hin].
  - injection Heq as -> ->. rewrite filter_cons_True in Hl by (simpl; lia).
    rewrite filter_none in Hl; [by simplify_eq/=|]. apply Forall_forall. intros [k1 r1] Hin1.
    destruct (chain_elem _ _ _ _ _ Hc Hin1) as (? & _). simpl. lia.
  - rewrite filter_cons in Hl. assert (Hf : (k, r) ∈ filter (fun kr : Z * MemMappedRegion.t => kr.1 <= a) l)
      by (apply list_elem_of_filter; split; [simpl; lia|done]).
    destruct (decide _); [|by eapply IH].
    destruct (filter _ l) as [|y fl] eqn:E; [by apply elem_of_nil in Hf|].
    rewrite last_cons_cons in Hl. by eapply IH.
Qed.

(** [unmap_memory] cuts the hole out of every region. *)
Lemma unmap_memory_eq U l a len :
  U < 2 ^ 32 -> chain 0 U l -> 0 <= a -> a < U -> 0 <= len -> len mod 4096 = 0 -> a + len <= U ->
  unmap_memory U l a len =
  Some (Ok (flat_map (taken a (a + len)) l), flat_map (cut a (a + len)) l).
Proof.
  intros HU Hc Ha HaU Hlen Hmul Hend. unfold unmap_memory, VirtualAddress.add.
  assert (u32 (a + len) = a + len) as -> by word.
  rewrite land_fff, Hmul, (proj2 (Z.leb_gt _ _)), (proj2 (Z.ltb_ge _ _)) by lia. simpl.
  set (e := a + len). assert (Hloop : forall ik pre, l = pre ++ BTreeMap.range_from ik l ->
    Forall (fun kr => kr.1 = address kr.2 /\ 0 < size kr.2 /\ address kr.2 + size kr.2 <= ik) pre ->
    ik <= a \/ pre = [] -> 0 <= ik -> chain ik U (BTreeMap.range_from ik l) ->
    ('(self, unmapped) ← unmap_loop a e (keys_to_modify (BTreeMap.range_from ik l) a e) l [];
     Some (Ok unmapped : result (list UnmappedRegion) MemMapError, self)) =
    Some (Ok (flat_map (taken a e) l), flat_map (cut a e) l)).
  { intros ik pre Heq Hpre Hik Hik0 Hch. rewrite (keys_to_modify_spec a e ik U) by done.
    set (post := BTreeMap.range_from ik l) in *.
    assert (Hcut : flat_map (cut a e) pre = pre /\ flat_map (taken a e) pre = [] /\
                   Forall (fun kr => kr.1 < ik) pre).
    { destruct Hik as [Hik| ->]; [by eapply not_overlaps_cut|done]. }
    destruct Hcut as (Hcut & Htak & Hlt).
    rewrite Heq at 1. rewrite (unmap_loop_spec a e ik U) by (done || lia). cbn [mbind option_bind].
    rewrite Heq, !flat_map_app, Hcut, Htak. done. }
  unfold BTreeMap.last_le. destruct (last (filter _ l)) as [[k r]|] eqn:Hlast.
  - apply last_Some_elem_of, list_elem_of_filter in Hlast as [Hk Hin]. simpl in Hk.
    destruct (range_from_split 0 U l k r Hc Hin) as (pre & Heq & Hpre & Hch).
    destruct (chain_elem _ _ _ _ _ Hc Hin) as (Hk0 & _).
    apply (Hloop k pre); try done. by left.
  - destruct l as [|[k r] l]; [done|].
    assert (Hak : a < k).
    { destruct (Z.lt_ge_cases a k); [done|]. rewrite filter_cons_True in Hlast by (simpl; lia).
      by destruct (filter _ l) using rev_ind; rewrite ?app_comm_cons, ?last_snoc in Hlast. }
    rewrite (first_key_range a k r l 0 U) by done.
    destruct (range_from_split 0 U _ k r Hc ltac:(by left)) as (pre & Heq & Hpre & Hch).
    destruct Hc as (Hk0 & Hok & Hc). apply (Hloop k pre); try done.
    destruct pre as [|[k' r'] pre]; [by right|]. exfalso. simplify_eq/=.
    apply Forall_cons in Hpre as [(? & ? & ?) _]. destruct Hok as (? & ? & ?). simpl in *. lia.
Qed.
End UnmapFacts.

(** ** Lookups *)

Module LookupFacts.
Import MemMappedRegion MappedMemory MapFacts UnmapFacts.

Definition holds (l : regions) (x : Z) (r : MemMappedRegion.t) : Prop :=
  (address r, r) ∈ l /\ address r <= x < address r + size r.

Lemma holds_unique lo hi l x r r' : chain lo hi l -> holds l x r -> holds l x r' -> r = r'.
Proof.
  revert lo. induction l as [|[k r0] l IH]; intros lo Hc [H Hx] [H' Hx'];
    [by apply elem_of_nil in H|].
  destruct Hc as (Hk & Hok & Hc). pose proof (page_end_bounds k r0 Hok) as (Hb & _).
  destruct Hok as (Hka & _ & _).
  apply elem_of_cons in H as [Heq|H]; apply elem_of_cons in H' as [Heq'|H'].
  - by simplify_eq.
  - injection Heq as _ ->. destruct (chain_elem _ _ _ _ _ Hc H') as (? & _). lia.
  - injection Heq' as _ ->. destruct (chain_elem _ _ _ _ _ Hc H) as (? & _). lia.
  - by eapply IH.
Qed.

Lemma get_mapping_spec lo hi l x r :
  0 <= lo -> hi < 2 ^ 32 -> chain lo hi l ->
  get_mapping_containing_address l x = Some r <-> holds l x r.
Proof.
  intros Hlo Hhi Hc.
  assert (Hcont : forall r', r' ∈ l.*2 -> contains_address r' x = true <-> holds l x r').
  { intros r' Hin. apply list_elem_of_fmap in Hin as ([k r1] & -> & Hin). simpl.
    destruct (range_end_chain _ _ _ _ _ Hlo Hhi Hc Hin) as (Hst & Hen & _).
    destruct (chain_elem _ _ _ _ _ Hc Hin) as (_ & (Hka & _) & _).
    unfold contains_address, holds. rewrite Hst, Hen, <- Hka. split; [|lia].
    intros H. split; [done|lia]. }
  unfold get_mapping_containing_address. split.
  - intros H. apply fmap_Some in H as ([i r'] & H & ->). simpl.
    apply list_find_Some in H as (Hi & Hp & _). apply Hcont; [by eapply list_elem_of_lookup_2|].
    by apply Is_true_true.
  - intros Hh. assert (Hin : r ∈ l.*2) by (apply list_elem_of_fmap; by exists (address r, r); destruct Hh).
    destruct (list_find (fun r0 => contains_address r0 x) l.*2) as [[i r']|] eqn:Hf; simpl.
    + f_equal. apply list_find_Some in Hf as (Hi & Hp & _). eapply holds_unique; [done| |done].
      apply Hcont; [by eapply list_elem_of_lookup_2|by apply Is_true_true].
    + exfalso. apply list_find_None in Hf. rewrite Forall_forall in Hf. apply (Hf r Hin).
      apply Is_true_true. by apply Hcont.
Qed.

Lemma get_mapping_ext lo hi l lo' hi' l' x :
  0 <= lo -> hi < 2 ^ 32 -> chain lo hi l -> 0 <= lo' -> hi' < 2 ^ 32 -> chain lo' hi' l' ->
  (forall r, holds l x r <-> holds l' x r) ->
  get_mapping_containing_address l x = get_mapping_containing_address l' x.
Proof.
  intros. apply option_eq. intros r. rewrite (get_mapping_spec lo hi), (get_mapping_spec lo' hi') by done.
  done.
Qed.

(** *** The hole *)

Section Hole.
Context (a e : Z) (Ha : a mod 4096 = 0) (He : e mod 4096 = 0) (Hae : a <= e).

Lemma cut_chain lo hi l : chain lo hi l -> chain lo hi (flat_map (cut a e) l).
Proof.
  revert lo. induction l as [|[k r] l IH]; intros lo; [done|]. intros (Hk & Hok & Hc).
  apply IH in Hc as Hc2. cbn [flat_map cut]. unfold overlaps, keep.
  pose proof (page_end_bounds k r Hok) as (Hb & _ & _). destruct Hok as (Hka & Hal & Hsz).
  rewrite <- Hka.
  assert (Htail : forall lo', lo' <= page_end r -> chain lo' hi (flat_map (cut a e) l)).
  { intros lo' Hlo'. by eapply chain_weaken. }
  assert (Hpe : forall s x, s + x = k + size r -> page_end {| address := s; size := x; backed_by := backed_by r |} = page_end r).
  { intros s x Hs. unfold page_end; simpl. rewrite <- Hka. by rewrite Hs. }
  destruct ((k <? e) && (a <? k + size r)) eqn:Hov; [|by repeat split].
  assert (Hpa : forall x, x = a - k ->
    page_end {| address := k; size := x; backed_by := backed_by r |} = a).
  { intros x ->. unfold page_end; simpl. word. }
  case_test; case_test; simpl; rewrite ?Hpa, ?Hpe by lia; unfold region_ok; simpl;
    split_and?; try done; try lia; apply Htail; word.
Qed.

(** The kept pieces of a region cover what lies outside the hole. *)
Lemma cut_entry k r x b :
  k = address r -> 0 < size r ->
  (exists r', (address r', r') ∈ cut a e (k, r) /\ address r' <= x < address r' + size r' /\
     backed_by r' = b) <->
  ~ (a <= x < e) /\ address r <= x < address r + size r /\ backed_by r = b.
Proof.
  intros Hk Hs. simpl. unfold overlaps, keep. rewrite <- Hk.
  destruct ((k <? e) && (a <? k + size r)) eqn:Hov.
  - split.
    + intros (r' & Hin & Hx & Hb). apply elem_of_app in Hin as [Hin|Hin]; revert Hin; case_test;
        rewrite ?list_elem_of_singleton, ?elem_of_nil; intros Hin; try done;
        injection Hin as _ ->; simpl in *; (split; [lia|split; [lia|done]]).
    + intros (Hn & Hx & Hb). destruct (Z.lt_ge_cases x a) as [Hxa|Hxa].
      * exists {| address := k; size := a - k; backed_by := backed_by r |}.
        rewrite (proj2 (Z.ltb_lt k a)) by lia. split; [apply elem_of_app; left; by left|].
        simpl. split; [lia|done].
      * exists {| address := e; size := k + size r - e; backed_by := backed_by r |}.
        rewrite (proj2 (Z.ltb_lt e (k + size r))) by lia.
        split; [apply elem_of_app; right; by left|]. simpl. split; [lia|done].
  - split.
    + intros (r' & Hin & Hx & Hb). apply list_elem_of_singleton in Hin. injection Hin as Hk' ->.
      split_and!; try done; lia.
    + intros (Hn & Hx & Hb). exists r. rewrite <- Hk. split; [by left|]. split; [lia|done].
Qed.

Lemma cut_holds lo hi l x b :
  chain lo hi l ->
  (exists r', holds (flat_map (cut a e) l) x r' /\ backed_by r' = b) <->
  ~ (a <= x < e) /\ exists r, holds l x r /\ backed_by r = b.
Proof.
  intros Hc. unfold holds. setoid_rewrite elem_of_flat_map. split.
  - intros (r' & [([k r] & Hin & Hcut) Hx] & Hb).
    destruct (chain_elem _ _ _ _ _ Hc Hin) as (_ & (Hk & _ & Hs) & _).
    destruct (proj1 (cut_entry k r x b Hk Hs)) as (? & ? & ?); [by exists r'|].
    split; [done|]. exists r. subst k. done.
  - intros (Hn & r & [Hin Hx] & Hb).
    destruct (chain_elem _ _ _ _ _ Hc Hin) as (_ & (Hk & _ & Hs) & _).
    destruct (proj2 (cut_entry _ r x b Hk Hs)) as (r' & ? & ? & ?); [done|]. exists r'. eauto 10.
Qed.

Lemma taken_elem lo hi l u :
  chain lo hi l -> u ∈ flat_map (taken a e) l ->
  exists r, (address r, r) ∈ l /\ uaddress u = Z.max (address r) a /\
    uaddress u + usize u = Z.min (address r + size r) e /\ 0 < usize u /\
    kind u = unmapped_kind (backed_by r) (uaddress u - address r).
Proof.
  intros Hc Hu. apply elem_of_flat_map in Hu as ([k r] & Hin & Hu).
  destruct (chain_elem _ _ _ _ _ Hc Hin) as (_ & (Hk & _) & _). subst k. simpl in Hu.
  exists r. destruct (_ && _) eqn:Hb; [|by apply elem_of_nil in Hu].
  apply list_elem_of_singleton in Hu as ->. simpl. split_and!; try done; lia.
Qed.

Lemma taken_covers lo hi l x r :
  chain lo hi l -> a <= x < e -> holds l x r ->
  exists u, u ∈ flat_map (taken a e) l /\ uaddress u <= x < uaddress u + usize u /\
    kind u = unmapped_kind (backed_by r) (uaddress u - address r).
Proof.
  intros Hc Hx [Hin Hr]. setoid_rewrite elem_of_flat_map.
  eexists. split; [exists (address r, r); split; [done|]|].
  - simpl. unfold overlaps. rewrite (proj2 (Z.ltb_lt (address r) e)),
      (proj2 (Z.ltb_lt a (address r + size r))), (proj2 (Z.ltb_lt (Z.max _ _) _)) by lia.
    by left.
  - simpl. split; [lia|done].
Qed.
End Hole.
End LookupFacts.

(** ** Properties *)

Module MappedMemoryProps.
Import MemMappedRegion MappedMemory MapFacts SearchFacts UnmapFacts LookupFacts.

Lemma round_size_spec (n : Z) :
  0 < n -> n + 0xfff < 2 ^ 32 ->
  round_size n = (n + 4095) / 4096 * 4096 /\ n <= round_size n < n + 4096 /\
  round_size n mod 4096 = 0 /\ 0 < round_size n.
Proof.
  intros Hn Hov. unfold round_size. rewrite land_page_mask by word. word.
Qed.

(** The region that a successful [map_memory] records. *)
Lemma map_insert U l loc n backing :
  U < 2 ^ 32 -> chain 0 U l -> 0 < n -> n + 0xfff < 2 ^ 32 -> 0 <= loc -> loc mod 4096 = 0 ->
  loc + round_size n <= U -> free_range l loc (loc + round_size n) ->
  let r := {| address := loc; size := n; backed_by := backing |} in
  chain 0 U (BTreeMap.insert loc r l) /\
  forall x, get_mapping_containing_address (BTreeMap.insert loc r l) x =
    if (loc <=? x) && (x <? loc + n) then Some r else get_mapping_containing_address l x.
Proof.
  intros HU Hc Hn Hov Hloc Hal Hle Hf r.
  destruct (round_size_spec n Hn Hov) as (Hrd & Hb & Hmul & _).
  assert (Hok : region_ok loc r) by done.
  assert (Hpe : page_end r = loc + round_size n) by (unfold page_end; simpl; word).
  rewrite <- Hpe in Hf, Hle. assert (Hc' : chain 0 U (BTreeMap.insert loc r l)).
  { by apply chain_insert. }
  split; [done|]. intros x.
  assert (Hel : forall r', holds (BTreeMap.insert loc r l) x r' <->
    (r' = r /\ loc <= x < loc + n) \/ holds l x r').
  { intros r'. unfold holds. rewrite (chain_insert_elem 0 U) by done. split.
    - intros [[Heq|Hin] Hx]; [|by right]. left. injection Heq as Ha ->. done.
    - intros [[-> Hx]|[Hin Hx]]; (split; [|done]); [by left|by right]. }
  destruct ((loc <=? x) && (x <? loc + n)) eqn:Hx.
  - apply (get_mapping_spec 0 U); [lia|done..|]. apply Hel. left. split; [done|lia].
  - apply (get_mapping_ext 0 U _ 0 U); [lia|done|done|lia|done|done|].
    intros r'. rewrite Hel. split; [|tauto]. intros [[_ ?]|?]; [lia|done].
Qed.

(** Where a request goes, or that it changes nothing. *)
Lemma map_memory_places U l addr n backing :
  U mod 4096 = 0 -> 0x1000 <= U < 2 ^ 32 -> chain 0 U l -> 0 < n -> n + 0xfff + U < 2 ^ 32 ->
  match addr with
  | Some a => 0 <= a /\ a mod 4096 = 0 /\ a + round_size n <= U
  | None => exists x, fits (round_size n) 0 U l x
  end ->
  (exists loc, map_memory U l addr n backing =
       (Ok loc, BTreeMap.insert loc {| address := loc; size := n; backed_by := backing |} l) /\
     loc mod 4096 = 0 /\ fits (round_size n) 0 U l loc) \/
  map_memory U l addr n backing = (Err NotEnoughMemory, l).
Proof.
  intros HU HU32 Hc Hn Hov Hreq. destruct (round_size_spec n Hn ltac:(lia)) as (_ & Hb & Hmul & Hpos).
  unfold map_memory. rewrite (proj2 (Z.eqb_neq n 0)) by lia. set (rs := round_size n) in *.
  destruct addr as [a|].
  - destruct Hreq as (Ha & Hal & Hend). rewrite (proj2 (is_page_aligned_spec a)) by (done || word). simpl.
    unfold VirtualAddress.add. assert (u32 (a + rs) = a + rs) as -> by word.
    pose proof (can_fit_range_spec U HU32 rs Hpos Hmul 0 l a ltac:(lia) Hc Ha Hal Hend ltac:(lia)) as Hfit.
    destruct (can_fit_range l a (a + rs)).
    + left. exists a. split; [done|]. split; [done|]. split_and!; [lia|lia|by apply Hfit].
    + pose proof (find_nearest_spec U HU HU32 rs Hpos Hmul a l Ha Hal ltac:(lia) Hc) as Hnear.
      destruct (find_nearest_free_space U l a rs) as [p|]; [left|by right].
      destruct Hnear as (Hpal & (Hp1 & Hp2 & Hp3) & _). exists p. split; [done|]. split; [done|].
      split; [lia|done].
  - destruct (free_space_loop_spec U rs Hpos Hmul l U HU ltac:(lia) Hc Hreq) as (p & Hp & Hpal & Hpf & _).
    unfold find_free_mapping_space. rewrite Hp. left. by exists p.
Qed.


(** Evaluates the conditions of a concrete map. *)
Ltac solve_chain := repeat split; vm_compute; congruence.

Definition example_map : regions :=
  [(0x1000, {| address := 0x1000; size := 0x1800; backed_by := FreeMemory |});
   (0x5000, {| address := 0x5000; size := 0x1000; backed_by := Direct 0xb8000 |})].


(** C20: unmapping removes exactly the requested pages.  In a well-formed map,
    for a page-aligned range inside the address space: the call succeeds, the
    map stays well formed, no address of the range is mapped afterwards, every
    other address keeps its backing, and the returned pieces cover exactly the
    addresses that were mapped in the range, each described with the backing
    that its first byte had.  The part of a region above the hole becomes a
    region of its own that starts at the end of the hole but keeps the backing,
    with its base, of the whole region. *)
Theorem unmap_memory_correct (U : Z) (l : regions) (a len : Z) :
  U < 2 ^ 32 -> chain 0 U l -> 0 <= a < U -> a mod 4096 = 0 ->
  0 <= len -> len mod 4096 = 0 -> a + len <= U ->
  exists unmapped l', unmap_memory U l a len = Some (Ok unmapped, l') /\
    chain 0 U l' /\
    (forall x, backed_by <$> get_mapping_containing_address l' x =
       if (a <=? x) && (x <? a + len) then None
       else backed_by <$> get_mapping_containing_address l x) /\
    (forall x r, a <= x < a + len -> get_mapping_containing_address l x = Some r ->
       exists u, u ∈ unmapped /\ uaddress u <= x < uaddress u + usize u /\
         kind u = unmapped_kind (backed_by r) (uaddress u - address r)) /\
    (forall u x, u ∈ unmapped -> uaddress u <= x < uaddress u + usize u ->
       a <= x < a + len /\ get_mapping_containing_address l x <> None) /\
    (forall r, (address r, r) ∈ l -> address r < a + len < address r + size r ->
       a < address r + size r ->
       get_mapping_containing_address l' (a + len) =
       Some {| address := a + len; size := address r + size r - (a + len);
               backed_by := backed_by r |}).
Proof.
  intros HU Hc Ha Hal Hlen Hmul Hend. set (e := a + len).
  assert (He : e mod 4096 = 0) by (subst e; word). assert (Hae : a <= e) by lia.
  pose proof (cut_chain a e Hal He Hae 0 U l Hc) as Hc'.
  assert (Hget : forall l0 x r, chain 0 U l0 -> get_mapping_containing_address l0 x = Some r <-> holds l0 x r)
    by (intros; apply (get_mapping_spec 0 U); lia || done).
  exists (flat_map (taken a e) l), (flat_map (cut a e) l).
  split; [apply unmap_memory_eq; done || lia|]. split; [done|]. split_and!.
  - intros x. apply option_eq. intros b.
    assert (Hf : forall l0, chain 0 U l0 -> backed_by <$> get_mapping_containing_address l0 x = Some b <->
      exists r, holds l0 x r /\ backed_by r = b).
    { intros l0 Hl0. rewrite fmap_Some. split; intros (r & Hr & Hb); exists r;
        (split; [by apply Hget|done]). }
    rewrite Hf, (cut_holds a e 0 U), <- Hf by done.
    destruct ((a <=? x) && (x <? e)) eqn:Hx; [split; [lia|done]|]. split; [tauto|]. split; [lia|done].
  - intros x r Hx Hr. apply Hget in Hr; [|done]. by eapply taken_covers.
  - intros u x Hu Hx. destruct (taken_elem a e 0 U l u Hc Hu) as (r & Hin & H1 & H2 & H3 & _).
    split; [lia|]. intros Hnone. assert (Hh : holds l x r) by (split; [done|lia]).
    apply Hget in Hh; [|done]. congruence.
  - intros r Hin Hr Har. apply Hget; [done|]. unfold holds; simpl. split; [|lia].
    apply elem_of_flat_map. exists (address r, r). split; [done|]. simpl. unfold overlaps, keep.
    rewrite (proj2 (Z.ltb_lt (address r) e)), (proj2 (Z.ltb_lt a (address r + size r))),
      (proj2 (Z.ltb_lt e (address r + size r))) by lia.
    simpl. apply elem_of_app. right. by left.
Qed.

Lemma unmap_memory_witness :
  exists unmapped l', unmap_memory 0xc0000000
      [(0x1000, {| address := 0x1000; size := 0x3000; backed_by := Direct 0xb8000 |})] 0x1000 0x1000 =
    Some (Ok unmapped, l') /\
    get_mapping_containing_address l' 0x2000 =
    Some {| address := 0x2000; size := 0x2000; backed_by := Direct 0xb8000 |}.
Proof.
  destruct (unmap_memory_correct 0xc0000000
    [(0x1000, {| address := 0x1000; size := 0x3000; backed_by := Direct 0xb8000 |})] 0x1000 0x1000)
    as (un & l' & Hu & _ & _ & _ & _ & Hr);
    [lia|solve_chain|lia|done|lia|done|lia|].
  exists un, l'. split; [exact Hu|].
  apply (Hr {| address := 0x1000; size := 0x3000; backed_by := Direct 0xb8000 |}); simpl; [by left|lia..].
Defined.

(** a request without an address never fails.  When no place in the
    address space can host a request without an address, [map_memory] does not
    report [NotEnoughMemory]: it maps the region at address 0, over whatever is
    mapped there. *)
Theorem map_memory_full (U : Z) (l : regions) (n : Z) (backing : MemoryBacking) :
  U mod 4096 = 0 -> 0 <= U < 2 ^ 32 -> chain 0 U l -> 0 < n -> n + 0xfff < 2 ^ 32 ->
  (forall x, ~ fits (round_size n) 0 U l x) ->
  (map_memory U l None n backing).1 = Ok 0.
Proof.
  intros HU HU32 Hc Hn Hov Hno. destruct (round_size_spec n Hn Hov) as (_ & _ & Hmul & Hpos).
  unfold map_memory, find_free_mapping_space. rewrite (proj2 (Z.eqb_neq n 0)) by lia.
  set (rs := round_size n) in *.
  assert (H0 : forall hi, 0 <= hi -> hi < rs -> prev_page_barrier (VirtualAddress.sub hi rs) = 0).
  { intros hi H1 H2. unfold VirtualAddress.sub. rewrite prev_page_barrier_spec by word. word. }
  enough (H : forall hi, 0 <= hi < 2 ^ 32 -> hi mod 4096 = 0 -> chain 0 hi l ->
    (forall x, ~ fits rs 0 hi l x) -> free_space_loop (rev l) rs hi = Some 0)
    by (rewrite (H U); done).
  clear Hc Hno HU HU32. induction l as [|[k r] l IH] using rev_ind; intros hi Hhi Hal Hc Hno.
  - simpl. rewrite H0; [done|lia|]. destruct (Z.lt_ge_cases hi rs); [done|].
    exfalso. apply (Hno 0). split_and!; [lia|lia|constructor].
  - destruct (range_end_chain 0 hi _ k r ltac:(lia) ltac:(lia) Hc) as (Hst & _ & Hpe);
      [apply elem_of_app; right; by left|].
    apply chain_snoc in Hc as (Hc & Hok & Hp). pose proof (page_end_bounds k r Hok) as (Hb & _ & Hb3).
    apply chain_le in Hc as Hle. destruct Hok as (Hka & Hkal & Hsz).
    rewrite rev_unit. cbn [free_space_loop].
    change (VirtualAddress.add (address r) (size r)) with (range_end r). rewrite Hpe.
    unfold range_start in Hst. rewrite Hst. unfold VirtualAddress.sub.
    assert (Hfit : forall y, 0 <= y -> y + rs <= hi -> free_range l y (y + rs) ->
      page_end r <= y \/ y + rs <= k -> False).
    { intros y Hy1 Hy2 Hy3 Hy4. apply (Hno y). split_and!; try done.
      apply Forall_app. split; [done|]. by constructor. }
    case_test.
    + exfalso. apply (Hfit (hi - rs)); try word.
      apply Forall_forall. intros [k' r'] Hin. destruct (chain_elem _ _ _ _ _ Hc Hin) as (_ & _ & ?).
      left. word.
    + apply IH; try done; [lia|]. intros x (Hx1 & Hx2 & Hx3). apply (Hfit x); try done; lia.
Qed.

Lemma map_memory_full_witness :
  (map_memory 0x3000 [(0, {| address := 0; size := 0x2000; backed_by := Direct 0xb8000 |})]
     None 0x2000 FreeMemory).1 = Ok 0.
Proof.
  apply map_memory_full; [done|lia|solve_chain|lia|lia|].
  intros x (Hx1 & Hx2 & Hx3). change (round_size 0x2000) with 0x2000 in *.
  apply Forall_cons in Hx3 as [H _]. unfold page_end in H. simpl in H.
  change ((0 + 0x2000 + 4095) / 4096 * 4096) with 0x2000 in H. lia.
Defined.

(** a wrapping unmap request panics.  A length that makes [addr + length]
    wrap around passes the bounds check when the wrapped end is small enough;
    if a mapped region starts below the wrapped end and reaches past [addr],
    the assertion on the intersection fails. *)
Theorem unmap_memory_wrap_panics (U : Z) (l : regions) (a len k : Z) (r : MemMappedRegion.t) :
  U < 2 ^ 32 -> chain 0 U l -> (k, r) ∈ l -> 0 <= a < U -> is_u32 len -> len mod 4096 = 0 ->
  2 ^ 32 <= a + len -> k < a + len - 2 ^ 32 <= U -> a < k + size r ->
  unmap_memory U l a len = None.
Proof.
  intros HU Hc Hin Ha Hlen Hmul Hwrap He Har. unfold unmap_memory, VirtualAddress.add.
  set (e := a + len - 2 ^ 32) in *. assert (u32 (a + len) = e) as -> by (subst e; word).
  assert (Hea : e < a) by (subst e; word).
  rewrite land_fff, Hmul, (proj2 (Z.leb_gt U a)), (proj2 (Z.ltb_ge U e)) by lia. simpl.
  destruct (range_end_chain 0 U l k r ltac:(lia) HU Hc Hin) as (Hst & Hen & _).
  destruct (range_from_split 0 U l k r Hc Hin) as (pre & Heq & Hpre & Hch).
  destruct (chain_elem _ _ _ _ _ Hc Hin) as (Hk0 & Hok & _).
  pose proof (page_end_bounds k r Hok) as (Hb & _ & _).
  assert (Hlast : exists r', BTreeMap.last_le a l = Some (k, r')).
  { unfold BTreeMap.last_le. destruct (last (filter (fun e0 => e0.1 <= a) l)) as [[k' r']|] eqn:HL.
    - exists r'. do 2 f_equal.
      exact (last_key 0 U l a k r k' r' Hc Hin ltac:(lia) HL).
    - exfalso. apply last_None in HL. assert (Hf : (k, r) ∈ filter (fun e0 => e0.1 <= a) l)
        by (apply list_elem_of_filter; split; [simpl; lia|done]). rewrite HL in Hf.
      by apply elem_of_nil in Hf. }
  destruct Hlast as [r' ->].
  assert (Hhd : exists post, BTreeMap.range_from k l = (k, r) :: post) by (by eapply range_from_head).
  destruct Hhd as [post Hpost]. rewrite Hpost in Heq |- *. cbn [keys_to_modify].
  rewrite Hst, Hen, (proj2 (Z.leb_gt _ _)), (proj2 (Z.leb_gt _ _)) by lia. cbn [unmap_loop].
  rewrite Heq. unfold unmap_key at 1. rewrite btree_remove_mid.
  - cbn [mbind option_bind]. rewrite Hst, Hen, (proj2 (Z.ltb_lt _ _)) by lia. done.
  - eapply Forall_impl; [exact Hpre|]. intros [k1 r1] (? & ? & ?). simpl in *. lia.
Qed.

Lemma unmap_wrap_witness :
  unmap_memory 0xc0000000 [(0x1000, {| address := 0x1000; size := 0x8000; backed_by := FreeMemory |})]
    0x5000 0xffffd000 = None.
Proof.
  apply (unmap_memory_wrap_panics _ _ _ _ 0x1000 {| address := 0x1000; size := 0x8000; backed_by := FreeMemory |});
    [lia|solve_chain|by left|lia|word|done|lia|lia|simpl; lia].
Defined.
End MappedMemoryProps.
