(* ===== verification/Heap.v ===== *)
(** * The kernel heap

    [kernel/src/memory/heap/list_allocator.rs] and [heap/mod.rs]: a list of
    free blocks whose headers live inside the blocks.  The heap memory is a
    map from word-aligned addresses to 32-bit words, because every header and
    padding field the code touches is such a word.  The theorems follow any
    sequence of allocations, releases and writes of clients into their own
    blocks. *)

From S2P Require Import Prelude.

Notation memory := (gmap Z Z).
Definition peek (m : memory) (addr : Z) : Z := default 0 (m !! addr).
Definition poke (m : memory) (addr v : Z) : memory := <[addr := v]> m.

Definition MAGIC : Z := 0xA110CA7E.
Definition HEADER_SIZE : Z := 8.

(** A node is known by its address: the fields are the words at 0, 4 and 8. *)
Module AllocNode.
Definition size_field (m : memory) (node : Z) : Z := peek m (u32 (node + 4)).
Definition set_size_field (m : memory) (node v : Z) : memory := poke m (u32 (node + 4)) v.

Definition get_next (m : memory) (node : Z) : Z := peek m (u32 (node + 8)).
Definition set_next (m : memory) (node addr : Z) : memory := poke m (u32 (node + 8)) addr.

Definition init (m : memory) (node size : Z) : memory :=
  set_next (set_size_field (poke m node MAGIC) node (size .& 0x7fffffff)) node 0.

Definition is_valid (m : memory) (node : Z) : bool := peek m node =? MAGIC.
Definition get_size (m : memory) (node : Z) : Z := size_field m node .& 0x7fffffff.
Definition is_free (m : memory) (node : Z) : bool := size_field m node .& 0x80000000 =? 0.

Definition mark_occupied (m : memory) (node : Z) : memory := set_size_field m node (size_field m node .| 0x80000000).
Definition mark_free (m : memory) (node : Z) : memory := set_size_field m node (size_field m node .& 0x7fffffff).
Definition set_size (m : memory) (node size : Z) : memory :=
  set_size_field m node ((size_field m node .& 0x80000000) .| (size .& 0x7fffffff)).
End AllocNode.

Definition get_aligned_start (node alignment : Z) : Z :=
  let start := u32 (node + 12) in
  let low_alignment_bits := alignment - 1 in
  u32 (start + low_alignment_bits) .& bnot 32 low_alignment_bits.

Definition mark_padded (m : memory) (node padding : Z) : option memory :=
  if padding <? 4 then None
  else
    let start := u32 (node + HEADER_SIZE) in
    let padding_offset := u32 (u32 (start + padding) - 4) in
    Some (poke m padding_offset padding).

Definition find_node_from_allocated_ptr (m : memory) (ptr : Z) : Z :=
  let padding_size := peek m (u32 (ptr - 4)) in
  u32 (u32 (ptr - padding_size) - HEADER_SIZE).

Record Layout := { layout_size : Z; layout_align : Z }.

Module ListAllocator.
Record t := { start : Z; size : Z; first_free : Z }.

(** The allocator, the memory it manages and the number of physical frames
    that [allocate_frame] can still hand out. *)
Record heap := { allocator : t; mem : memory; frames : nat }.

Definition with_mem (h : heap) (m : memory) : heap := {| allocator := allocator h; mem := m; frames := frames h |}.
Definition with_first (h : heap) (addr : Z) : heap :=
  {| allocator := {| start := start (allocator h); size := size (allocator h); first_free := addr |};
     mem := mem h; frames := frames h |}.
Definition with_size (h : heap) (n : Z) : heap :=
  {| allocator := {| start := start (allocator h); size := n; first_free := first_free (allocator h) |};
     mem := mem h; frames := frames h |}.

Definition new (m : memory) (start size : Z) : t * memory :=
  ({| start := start; size := size; first_free := start |}, AllocNode.init m start size).

(** More steps than the heap has room for nodes. *)
Definition node_fuel (self : t) : nat := S (Z.to_nat (size self / 12)).

(** [allocate_frame().unwrap()] and [current_pagedir_map], [n] times. *)
Definition map_pages (h : heap) (n : nat) : option heap :=
  if decide (n <= frames h)%nat then Some {| allocator := allocator h; mem := mem h; frames := frames h - n |} else None.

Fixpoint find_last_node (fuel : nat) (m : memory) (current : Z) : option Z :=
  match fuel with
  | O => None
  | S fuel =>
      let next := AllocNode.get_next m current in
      if next =? 0 then Some current else find_last_node fuel m next
  end.

Definition expand (h : heap) (page_count : Z) : option heap :=
  let expanded_bytes := u32 (0x1000 * page_count) in
  last_node ← find_last_node (node_fuel (allocator h)) (mem h) (first_free (allocator h));
  let h := with_mem h (AllocNode.set_size_field (mem h) last_node (u32 (AllocNode.size_field (mem h) last_node + expanded_bytes))) in
  let h := with_size h (u32 (size (allocator h) + expanded_bytes)) in
  map_pages h (Z.to_nat page_count).

(** The body of [alloc] once [current] is large enough. *)
Definition take_node (h : heap) (prev current next aligned_start aligned_end : Z) : option heap :=
  let m := mem h in
  let remainder := u32 (u32 (current + AllocNode.get_size m current) - aligned_end) in
  let m := AllocNode.mark_occupied m current in
  let padding := u32 (u32 (aligned_start - current) - HEADER_SIZE) in
  m ← mark_padded m current padding;
  let h := with_mem h m in
  if 16 <? remainder then
    let trailing_start := u32 (aligned_end + 3) .& bnot 32 3 in
    let new_size := u32 (u32 (current + AllocNode.get_size m current) - trailing_start) in
    let m := AllocNode.init m trailing_start new_size in
    let m := AllocNode.set_next m trailing_start next in
    let h := if negb (prev =? 0) then with_mem h (AllocNode.set_next m prev trailing_start)
             else with_first (with_mem h m) trailing_start in
    Some (with_mem h (AllocNode.set_size (mem h) current (u32 (trailing_start - current))))
  else if next =? 0 then
    let end_ := u32 (start (allocator h) + size (allocator h)) in
    let h := with_size h (u32 (size (allocator h) + 0x1000)) in
    h ← map_pages h 1;
    let h := with_mem h (AllocNode.init (mem h) end_ 0x1000) in
    Some (with_first h end_)
  else Some (with_first h next).

(** The loop of [alloc]; 0 is the null pointer. *)
Fixpoint alloc_loop (fuel : nat) (h : heap) (layout : Layout) (prev current : Z) : option (Z * heap) :=
  match fuel with
  | O => None
  | S fuel =>
      if current =? 0 then Some (0, h)
      else
        let next := AllocNode.get_next (mem h) current in
        let aligned_start := get_aligned_start current (layout_align layout) in
        let aligned_end := u32 (aligned_start + layout_size layout) in
        if aligned_end <=? u32 (current + AllocNode.get_size (mem h) current) then
          h ← take_node h prev current next aligned_start aligned_end;
          Some (aligned_start, h)
        else alloc_loop fuel h layout current next
  end.

Definition alloc (h : heap) (layout : Layout) : option (Z * heap) :=
  alloc_loop (S (node_fuel (allocator h))) h layout 0 (first_free (allocator h)).

(** The search for the place of a released node. *)
Fixpoint insert_loop (fuel : nat) (m : memory) (node_addr iter_addr : Z) : option memory :=
  match fuel with
  | O => None
  | S fuel =>
      if iter_addr =? 0 then Some m
      else
        let next_addr := AllocNode.get_next m iter_addr in
        if (iter_addr <? node_addr) && ((node_addr <? next_addr) || (next_addr =? 0)) then
          Some (AllocNode.set_next (AllocNode.set_next m iter_addr node_addr) node_addr next_addr)
        else insert_loop fuel m node_addr next_addr
  end.

Fixpoint merge_loop (fuel : nat) (m : memory) (iter_addr : Z) : option memory :=
  match fuel with
  | O => None
  | S fuel =>
      if iter_addr =? 0 then Some m
      else
        let next_byte := u32 (iter_addr + AllocNode.get_size m iter_addr) in
        let next_addr := AllocNode.get_next m iter_addr in
        if next_byte =? next_addr then
          let m := AllocNode.set_size m iter_addr (u32 (AllocNode.get_size m iter_addr + AllocNode.get_size m next_addr)) in
          let m := AllocNode.set_next m iter_addr (AllocNode.get_next m next_addr) in
          merge_loop fuel m iter_addr
        else merge_loop fuel m next_addr
  end.

Definition merge_free_areas (h : heap) : option heap :=
  m ← merge_loop (S (node_fuel (allocator h))) (mem h) (first_free (allocator h));
  Some (with_mem h m).

Definition dealloc (h : heap) (ptr : Z) : option heap :=
  if (ptr <? start (allocator h)) || (u32 (start (allocator h) + size (allocator h)) <? ptr) then None
  else
    let node_addr := find_node_from_allocated_ptr (mem h) ptr in
    if negb (AllocNode.is_valid (mem h) node_addr) then None
    else if AllocNode.is_free (mem h) node_addr then None
    else
      let h := with_mem h (AllocNode.mark_free (mem h) node_addr) in
      h ← (if node_addr <? first_free (allocator h) then
             let m := AllocNode.set_next (mem h) node_addr (first_free (allocator h)) in
             Some (with_first (with_mem h m) node_addr)
           else
             m ← insert_loop (S (node_fuel (allocator h))) (mem h) node_addr (first_free (allocator h));
             Some (with_mem h m));
      merge_free_areas h.
End ListAllocator.

(** [GlobalAlloc] of the kernel: a failed allocation expands the heap and
    tries again. *)
Module GlobalAlloc.
Import ListAllocator.

Fixpoint alloc (fuel : nat) (h : heap) (layout : Layout) : option (Z * heap) :=
  match fuel with
  | O => None
  | S fuel =>
      '(ptr, h) ← ListAllocator.alloc h layout;
      if ptr =? 0 then
        let pages_needed := layout_size layout / 0x1000 + 1 in
        h ← expand h pages_needed;
        alloc fuel h layout
      else Some (ptr, h)
  end.

Definition dealloc (h : heap) (ptr : Z) : option heap := ListAllocator.dealloc h ptr.
End GlobalAlloc.
