(* ===== verification/HeapSpec.v ===== *)
(** * The heap hands out disjoint blocks

    The heap is a row of tiles: free nodes on the list, blocks that clients
    hold, and free blocks that the list has lost.  The invariant says that
    the headers in memory describe such a row, and every operation keeps it. *)

From S2P Require Import Prelude Heap.
Import ListAllocator.

(** ** Words of the header *)

Lemma low31 (x : Z) : x .& 0x7fffffff = x mod 2 ^ 31.
Proof. change 0x7fffffff with (Z.ones 31). by rewrite Z.land_ones. Qed.

Lemma high31 (x : Z) : 0 <= x < 2 ^ 32 -> x .& 0x80000000 = x - x mod 2 ^ 31.
Proof. intros. change 0x80000000 with (2 ^ 32 - 2 ^ 31). by apply land_high_mask. Qed.

Lemma set31 (x : Z) : 0 <= x < 2 ^ 31 -> x .| 0x80000000 = 2 ^ 31 + x.
Proof. intros. rewrite Z.lor_comm. change 0x80000000 with (1 ≪ 31). rewrite lor_add by lia. lia. Qed.

Definition pow2 (x : Z) : Prop := exists k, 0 <= k < 32 /\ x = 2 ^ k.

Definition align_up (x al : Z) : Z := (x + (al - 1)) - (x + (al - 1)) mod al.

Lemma mask_align (x al : Z) : pow2 al -> 0 <= x -> x + (al - 1) < 2 ^ 32 -> u32 (x + (al - 1)) .& bnot 32 (al - 1) = align_up x al.
Proof.
  intros (k & Hk & ->) Hx Hb. assert (1 <= 2 ^ k) by (pose proof (Z.pow_pos_nonneg 2 k); lia).
  unfold u32. rewrite Z.mod_small by lia. unfold bnot. replace (2 ^ 32 - 1 - (2 ^ k - 1)) with (2 ^ 32 - 2 ^ k) by lia.
  by rewrite land_high_mask by lia.
Qed.

Lemma align_up_bounds (x al : Z) : 0 < al -> x <= align_up x al < x + al /\ (al | align_up x al).
Proof.
  intros Hal. unfold align_up. pose proof (Z.mod_pos_bound (x + (al - 1)) al Hal). split; [lia|].
  exists ((x + (al - 1)) / al). pose proof (Z.div_mod (x + (al - 1)) al). lia.
Qed.

(** Rounding up a multiple of four keeps it one. *)
Lemma align_up_4 (x al : Z) : pow2 al -> (4 | x) -> (4 | align_up x al).
Proof.
  intros (k & Hk & ->) Hx. destruct (decide (2 <= k)).
  - apply Z.divide_trans with (2 ^ k); [|apply align_up_bounds; lia].
    replace k with (2 + (k - 2)) by lia. rewrite Z.pow_add_r by lia. apply Z.divide_factor_l.
  - destruct Hx as [q ->]. assert (k = 0 \/ k = 1) as [-> | ->] by lia; unfold align_up; simpl.
    + rewrite Z.mod_1_r. exists q. lia.
    + exists q. Z.div_mod_to_equations. lia.
Qed.

(** ** Tiles *)

Inductive kind :=
| Free
| Live (ptr len : Z)
| Lost.

#[global] Instance kind_eq_dec : EqDecision kind.
Proof. solve_decision. Defined.

Notation tile := (Z * kind)%type.

Definition total (bl : list tile) : Z := foldr (fun b acc => b.1 + acc) 0 bl.

Definition tile_ok (m : memory) (a : Z) (b : tile) : Prop :=
  12 <= b.1 /\ (4 | b.1) /\
  match b.2 with
  | Free => peek m a = MAGIC /\ peek m (a + 4) = b.1
  | Live ptr len =>
      peek m a = MAGIC /\ peek m (a + 4) = 2 ^ 31 + b.1 /\
      a + 12 <= ptr /\ (4 | ptr) /\ peek m (ptr - 4) = ptr - a - 8 /\ 0 <= len /\ ptr + len <= a + b.1
  | Lost => True
  end.

Fixpoint row (m : memory) (a : Z) (bl : list tile) : Prop :=
  match bl with
  | [] => True
  | b :: bl => tile_ok m a b /\ row m (a + b.1) bl
  end.

(** The addresses of the free tiles, and the blocks of the clients. *)
Fixpoint free_nodes (a : Z) (bl : list tile) : list Z :=
  match bl with
  | [] => []
  | (n, Free) :: bl => a :: free_nodes (a + n) bl
  | (n, _) :: bl => free_nodes (a + n) bl
  end.
Fixpoint live (bl : list tile) : list (Z * Z) :=
  match bl with
  | [] => []
  | (_, Live ptr len) :: bl => (ptr, len) :: live bl
  | _ :: bl => live bl
  end.

(** Following the links from [p] through the nodes [l] leads to [q]. *)
Fixpoint path (m : memory) (p : Z) (l : list Z) (q : Z) : Prop :=
  match l with
  | [] => p = q
  | x :: l => p = x /\ path m (peek m (x + 8)) l q
  end.

Definition heap_end (h : heap) : Z := start (allocator h) + size (allocator h).

Record heap_inv (h : heap) (bl : list tile) : Prop := {
  hi_row : row (mem h) (start (allocator h)) bl;
  hi_total : total bl = size (allocator h);
  hi_start : 0 < start (allocator h) /\ (4 | start (allocator h));
  hi_end : heap_end h < 2 ^ 32 /\ size (allocator h) < 2 ^ 31;
  hi_linked : path (mem h) (first_free (allocator h)) (free_nodes (start (allocator h)) bl) 0;
  hi_last : exists l n, bl = l ++ [(n, Free)]
}.

Lemma peek_poke (m : memory) (a v : Z) : peek (poke m a v) a = v.
Proof. unfold peek, poke. by rewrite lookup_insert_eq. Qed.
Lemma peek_poke_ne (m : memory) (a w v : Z) : w <> a -> peek (poke m a v) w = peek m w.
Proof. intros. unfold peek, poke. by rewrite lookup_insert_ne by done. Qed.

(** Reads past the writes of other words. *)
Ltac peeks := repeat (rewrite peek_poke || rewrite peek_poke_ne by lia).

Section Tiles.
Implicit Types (m : memory) (a p : Z) (bl l : list tile) (b : tile).

Lemma total_app l1 l2 : total (l1 ++ l2) = total l1 + total l2.
Proof. induction l1 as [|b l1 IH]; simpl; lia. Qed.

Lemma row_app m l1 a l2 : row m a (l1 ++ l2) <-> row m a l1 /\ row m (a + total l1) l2.
Proof.
  revert a. induction l1 as [|b l1 IH]; intros a; simpl; [rewrite Z.add_0_r; tauto|].
  rewrite IH. replace (a + (b.1 + total l1)) with (a + b.1 + total l1) by lia. tauto.
Qed.

Lemma row_total m a bl : row m a bl -> 0 <= total bl /\ (4 | total bl).
Proof.
  revert a. induction bl as [|b bl IH]; intros a; simpl; [intros; split; [lia|apply Z.divide_0_r]|].
  intros [(? & ? & _) Hr]. destruct (IH _ Hr). split; [lia|by apply Z.divide_add_r].
Qed.

Lemma free_nodes_app l1 a l2 : free_nodes a (l1 ++ l2) = free_nodes a l1 ++ free_nodes (a + total l1) l2.
Proof.
  revert a. induction l1 as [|[n k] l1 IH]; intros a; simpl; [by rewrite Z.add_0_r|].
  rewrite IH. replace (a + (n + total l1)) with (a + n + total l1) by lia. by destruct k.
Qed.

Lemma live_tiles_app l1 l2 : live (l1 ++ l2) = live l1 ++ live l2.
Proof. induction l1 as [|[n []] l1 IH]; simpl; by rewrite ?IH. Qed.

(** The free nodes lie inside the row and have room for their header. *)
Lemma free_nodes_range m a bl x : row m a bl -> x ∈ free_nodes a bl -> a <= x /\ x + 12 <= a + total bl.
Proof.
  revert a. induction bl as [|[n k] bl IH]; intros a Hr Hx; simpl in *; [by apply elem_of_nil in Hx|].
  destruct Hr as [(? & _) Hr]. pose proof (proj1 (row_total _ _ _ Hr)). simpl in *.
  assert (x = a \/ x ∈ free_nodes (a + n) bl) as [-> |Hin] by (destruct k; set_solver); [lia|].
  specialize (IH _ Hr Hin). lia.
Qed.

(** A tile only depends on the words inside it. *)
Lemma tile_ext m m' a b : (forall w, a <= w < a + b.1 -> peek m' w = peek m w) -> tile_ok m a b -> tile_ok m' a b.
Proof.
  intros He (Hn & H4 & Hk). split; [done|]. split; [done|]. destruct b as [n [|ptr len|]]; simpl in *; [| |done].
  - by rewrite !He by lia.
  - destruct Hk as (? & ? & ? & ? & ? & ? & ?). rewrite !He by lia. done.
Qed.

(** A row does not depend on the links of its free tiles. *)
Lemma row_ext m m' a bl :
  (forall w, a <= w < a + total bl -> peek m' w = peek m w \/ (exists x, x ∈ free_nodes a bl /\ w = x + 8)) ->
  row m a bl -> row m' a bl.
Proof.
  revert a. induction bl as [|[n k] bl IH]; intros a He; simpl; [done|]. intros [Ht Hr].
  pose proof (proj1 (row_total _ _ _ Hr)). pose proof (proj1 Ht) as Hn. simpl in *. split.
  - destruct k.
    + destruct Ht as (? & ? & ? & ?). split; [done|]. split; [done|]. simpl in *.
      destruct (He a) as [-> |(x & Hx & ->)]; [lia| |].
      * destruct (He (a + 4)) as [-> |(x & Hx & Hw)]; [lia|done|].
        apply elem_of_cons in Hx as [->|Hx]; [lia|]. pose proof (free_nodes_range _ _ _ _ Hr Hx). lia.
      * apply elem_of_cons in Hx as [Hx|Hx]; [lia|]. pose proof (free_nodes_range _ _ _ _ Hr Hx). lia.
    + apply (tile_ext m); [|done]. intros w Hw. simpl in Hw. destruct (He w) as [-> |(x & Hx & Hw')]; [lia|done|].
      pose proof (free_nodes_range _ _ _ _ Hr Hx). lia.
    + split; [done|]. split; [apply Ht|done].
  - apply IH; [|done]. intros w Hw. destruct (He w) as [? |(x & Hx & Hw')]; [lia|by left|].
    destruct k; [|by right; eauto..]. apply elem_of_cons in Hx as [->|Hx]; [lia|right; eauto].
Qed.
Lemma path_ext m m' p (l : list Z) q : (forall x, x ∈ l -> peek m' (x + 8) = peek m (x + 8)) -> path m p l q -> path m' p l q.
Proof.
  revert p. induction l as [|x l IH]; intros p He; simpl; [done|]. intros [-> Hl]. split; [done|].
  rewrite He by set_solver. apply IH; [|done]. intros. apply He. set_solver.
Qed.

Lemma path_app m p (l1 l2 : list Z) q : path m p (l1 ++ l2) q <-> exists r, path m p l1 r /\ path m r l2 q.
Proof.
  revert p. induction l1 as [|x l1 IH]; intros p; simpl; [split; [eauto|by intros (r & -> & ?)]|].
  rewrite IH. split; [intros (-> & r & ? & ?); eauto|intros (r & [-> ?] & ?); eauto].
Qed.

(** The last link of a path is redirected. *)
Lemma path_relink m m' p (l : list Z) y q q' :
  path m p (l ++ [y]) q -> (forall x, x ∈ l -> peek m' (x + 8) = peek m (x + 8)) -> peek m' (y + 8) = q' -> path m' p (l ++ [y]) q'.
Proof.
  rewrite !path_app. intros (r & H1 & [-> H2]) He Hy. exists y. split; [by apply (path_ext m)|done].
Qed.

Lemma free_nodes_nodup m a bl : row m a bl -> NoDup (free_nodes a bl).
Proof.
  revert a. induction bl as [|[n k] bl IH]; intros a Hr; simpl in *; [constructor|]. destruct Hr as [(Hn & _) Hr].
  simpl in *. destruct k; [|by apply IH..]. constructor; [|by apply IH]. intros Hin.
  pose proof (free_nodes_range _ _ _ _ Hr Hin). lia.
Qed.

(** A part of the row is replaced, and links before it may change. *)
Lemma row_splice m m' a l1 old new l2 :
  row m a (l1 ++ old ++ l2) -> total new = total old -> row m' (a + total l1) new ->
  (forall w, peek m' w = peek m w \/ (a + total l1 <= w < a + total l1 + total old) \/ (exists x, x ∈ free_nodes a l1 /\ w = x + 8)) ->
  row m' a (l1 ++ new ++ l2).
Proof.
  rewrite !row_app. intros (H1 & Ho & H2) Ht Hnew He. rewrite Ht.
  pose proof (proj1 (row_total _ _ _ Ho)) as Hpos. split; [|split; [done|]].
  - apply (row_ext m); [|done]. intros w Hw. destruct (He w) as [?|[?|?]]; [by left|lia|by right].
  - apply (row_ext m); [|done]. intros w Hw. left. destruct (He w) as [?|[?|(x & Hx & ->)]]; [done|lia|].
    pose proof (free_nodes_range _ _ _ _ H1 Hx). lia.
Qed.
End Tiles.

(** ** Allocation *)

Section Alloc.
Implicit Types (h : heap) (m : memory) (a : Z) (l bl : list tile).

Lemma node_words (x : Z) : 0 <= x -> x + 12 <= 2 ^ 32 -> u32 (x + 4) = x + 4 /\ u32 (x + 8) = x + 8.
Proof. intros. unfold u32. rewrite !Z.mod_small by lia. done. Qed.

(** [prev] is the last free node before the tile, or 0. *)
Definition before h l1 (prev : Z) : Prop :=
  (prev = 0 /\ free_nodes (start (allocator h)) l1 = []) \/
  (prev <> 0 /\ exists f, free_nodes (start (allocator h)) l1 = f ++ [prev]).

(** Where a tile of the row lies. *)
Lemma tile_place h l1 b l2 :
  heap_inv h (l1 ++ b :: l2) ->
  let a := start (allocator h) + total l1 in
  tile_ok (mem h) a b /\ 0 < a /\ (4 | a) /\ a + b.1 <= heap_end h /\ row (mem h) (a + b.1) l2.
Proof.
  intros [Hrow Htot [Hs H4] Hend _ _] a. apply row_app in Hrow as [H1 [Ht H2]]. destruct (row_total _ _ _ H1). destruct (row_total _ _ _ H2).
  rewrite total_app in Htot. simpl in Htot. unfold heap_end. split; [done|]. split; [lia|]. split; [by apply Z.divide_add_r|]. split; [lia|done].
Qed.

(** Some tiles in the row are replaced by others of the same total size; links
    of free tiles before them may change. *)
Lemma splice_inv h h' l1 old new l2 (q : Z) :
  let a := start (allocator h) + total l1 in
  heap_inv h (l1 ++ old ++ l2) ->
  start (allocator h') = start (allocator h) -> size (allocator h') = size (allocator h) ->
  total new = total old -> row (mem h') a new ->
  (forall w, peek (mem h') w = peek (mem h) w \/ a <= w < a + total old \/
     (exists x, x ∈ free_nodes (start (allocator h)) l1 /\ w = x + 8)) ->
  path (mem h) q (free_nodes (a + total old) l2) 0 ->
  path (mem h') (first_free (allocator h')) (free_nodes (start (allocator h)) (l1 ++ new)) q ->
  (l2 = [] -> exists l n, new = l ++ [(n, Free)]) ->
  heap_inv h' (l1 ++ new ++ l2).
Proof.
  intros a Hinv Hst Hsz Htot Hnew Hdiff Hq Hpath Hlast. pose proof (hi_row _ _ Hinv) as Hrow.
  pose proof Hrow as (H1 & Ho & H2)%row_app%(fun H => conj (proj1 H) (proj1 (row_app _ _ _ _) (proj2 H))).
  split.
  - rewrite Hst. by apply (row_splice (mem h) _ _ l1 old).
  - rewrite Hsz, <- (hi_total _ _ Hinv), !total_app. lia.
  - rewrite Hst. apply Hinv.
  - unfold heap_end. rewrite Hst, Hsz. apply Hinv.
  - rewrite Hst, app_assoc, free_nodes_app. apply path_app. exists q. split; [done|].
    rewrite total_app, Htot, Z.add_assoc. fold a. apply (path_ext (mem h)); [|done]. intros x Hx.
    pose proof (free_nodes_range _ _ _ _ H2 Hx). pose proof (proj1 (row_total _ _ _ Ho)).
    destruct (Hdiff (x + 8)) as [?|[?|(y & Hy & ?)]]; [done|lia|]. pose proof (free_nodes_range _ _ _ _ H1 Hy). lia.
  - destruct (hi_last _ _ Hinv) as (l & k & Hl). destruct l2 as [|b l2 _] using rev_ind.
    + destruct (Hlast eq_refl) as (l' & n & ->). exists (l1 ++ l'), n. by rewrite app_nil_r, app_assoc.
    + rewrite !app_assoc in Hl. apply app_inj_tail in Hl as [_ ->]. exists (l1 ++ new ++ l2), k. by rewrite <- !app_assoc.
Qed.

(** The memory after a block was cut off the front of a free node. *)
Definition split_memory (m : memory) (a ptr ts n next : Z) : memory :=
  let m := poke (poke m (a + 4) (2 ^ 31 + n)) (ptr - 4) (ptr - a - 8) in
  poke (poke (poke (poke m ts MAGIC) (ts + 4) (a + n - ts)) (ts + 8) 0) (ts + 8) next.

Lemma mark_occupied_peek m a n :
  0 <= a -> a + 12 <= 2 ^ 32 -> 0 <= n < 2 ^ 31 -> peek m (a + 4) = n -> AllocNode.mark_occupied m a = poke m (a + 4) (2 ^ 31 + n).
Proof.
  intros Ha Hb Hn Hp. unfold AllocNode.mark_occupied, AllocNode.set_size_field, AllocNode.size_field.
  destruct (node_words a Ha Hb) as [-> _]. by rewrite Hp, set31.
Qed.

Lemma get_size_free m a n : 0 <= a -> a + 12 <= 2 ^ 32 -> 0 <= n < 2 ^ 31 -> peek m (a + 4) = n -> AllocNode.get_size m a = n.
Proof.
  intros Ha Hb Hn Hp. unfold AllocNode.get_size, AllocNode.size_field. destruct (node_words a Ha Hb) as [-> _].
  rewrite Hp, low31. by apply Z.mod_small.
Qed.

Lemma get_size_live m a n : 0 <= a -> a + 12 <= 2 ^ 32 -> 0 <= n < 2 ^ 31 -> peek m (a + 4) = 2 ^ 31 + n -> AllocNode.get_size m a = n.
Proof.
  intros Ha Hb Hn Hp. unfold AllocNode.get_size, AllocNode.size_field. destruct (node_words a Ha Hb) as [-> _].
  rewrite Hp, low31. replace (2 ^ 31 + n) with (n + 1 * 2 ^ 31) by lia. rewrite Z.mod_add by lia. by apply Z.mod_small.
Qed.

Lemma mark_padded_peek m a (ptr : Z) :
  0 <= a -> a + 12 <= ptr -> ptr < 2 ^ 32 -> mark_padded m a (ptr - a - 8) = Some (poke m (ptr - 4) (ptr - a - 8)).
Proof.
  intros. unfold mark_padded, HEADER_SIZE. rewrite (proj2 (Z.ltb_ge _ _)) by lia. do 2 f_equal.
  unfold u32. rewrite (Z.mod_small (a + 8)), (Z.mod_small (a + 8 + _)), Z.mod_small by lia. lia.
Qed.

Lemma init_peek m (x n : Z) : 0 <= x -> x + 12 <= 2 ^ 32 -> 0 <= n < 2 ^ 31 ->
  AllocNode.init m x n = poke (poke (poke m x MAGIC) (x + 4) n) (x + 8) 0.
Proof.
  intros Hx Hb Hn. unfold AllocNode.init, AllocNode.set_next, AllocNode.set_size_field. destruct (node_words x Hx Hb) as [-> ->].
  rewrite low31, Z.mod_small by lia. done.
Qed.

Lemma set_next_peek m (x v : Z) : 0 <= x -> x + 12 <= 2 ^ 32 -> AllocNode.set_next m x v = poke m (x + 8) v.
Proof. intros Hx Hb. unfold AllocNode.set_next. by destruct (node_words x Hx Hb) as [_ ->]. Qed.

Lemma get_next_peek m (x : Z) : 0 <= x -> x + 12 <= 2 ^ 32 -> AllocNode.get_next m x = peek m (x + 8).
Proof. intros Hx Hb. unfold AllocNode.get_next. by destruct (node_words x Hx Hb) as [_ ->]. Qed.

Lemma set_size_live m (x old n : Z) : 0 <= x -> x + 12 <= 2 ^ 32 -> 0 <= n < 2 ^ 31 -> 0 <= old < 2 ^ 31 ->
  peek m (x + 4) = 2 ^ 31 + old -> AllocNode.set_size m x n = poke m (x + 4) (2 ^ 31 + n).
Proof.
  intros Hx Hb Hn Ho Hp. unfold AllocNode.set_size, AllocNode.set_size_field, AllocNode.size_field.
  destruct (node_words x Hx Hb) as [-> _]. rewrite Hp, high31, low31, (Z.mod_small n) by lia.
  replace ((2 ^ 31 + old) mod 2 ^ 31) with old by (rewrite <- (Z.mod_small old (2 ^ 31)) at 1 by lia; symmetry; rewrite Z.add_comm; change (2 ^ 31) with (1 * 2 ^ 31) at 1; by rewrite Z.mod_add by lia).
  replace (2 ^ 31 + old - old) with (1 ≪ 31) by (change (1 ≪ 31) with (2 ^ 31); lia). rewrite lor_add by lia. f_equal; lia.
Qed.

Lemma set_size_free m (x old n : Z) : 0 <= x -> x + 12 <= 2 ^ 32 -> 0 <= n < 2 ^ 31 -> 0 <= old < 2 ^ 31 ->
  peek m (x + 4) = old -> AllocNode.set_size m x n = poke m (x + 4) n.
Proof.
  intros Hx Hb Hn Ho Hp. unfold AllocNode.set_size, AllocNode.set_size_field, AllocNode.size_field.
  destruct (node_words x Hx Hb) as [-> _]. rewrite Hp, high31, low31, !Z.mod_small by lia. by rewrite Z.sub_diag, Z.lor_0_l.
Qed.



(** The facts about a free tile [n] at [a] from which the bytes [ptr] to
    [ptr + len] are taken. *)
Record cut h l1 (n : Z) l2 (a ptr len : Z) : Prop := {
  cut_inv : heap_inv h (l1 ++ (n, Free) :: l2);
  cut_at : a = start (allocator h) + total l1;
  cut_ptr : a + 12 <= ptr /\ (4 | ptr) /\ 0 <= len /\ ptr + len <= a + n
}.

Lemma cut_bounds h l1 n l2 a ptr len :
  cut h l1 n l2 a ptr len ->
  0 < a /\ (4 | a) /\ 12 <= n < 2 ^ 31 /\ (4 | n) /\ a + n < 2 ^ 32 /\ peek (mem h) a = MAGIC /\ peek (mem h) (a + 4) = n /\
  a + n <= heap_end h.
Proof.
  intros [Hinv -> Hptr]. destruct (tile_place h l1 (n, Free) l2 Hinv) as ((Hn & H4 & Hm & Hs) & Hpos & Ha4 & Hend & _). simpl in *.
  destruct (hi_end _ _ Hinv). destruct (hi_start _ _ Hinv). unfold heap_end in *.
  destruct (row_total _ _ _ (proj1 (proj1 (row_app _ _ _ _) (hi_row _ _ Hinv)))).
  repeat split; try done; lia.
Qed.

Lemma prev_bounds h l1 n l2 a ptr len prev :
  cut h l1 n l2 a ptr len -> prev ∈ free_nodes (start (allocator h)) l1 -> 0 < prev /\ prev + 12 <= a.
Proof.
  intros [Hinv -> _] Hp. destruct (hi_start _ _ Hinv).
  pose proof (free_nodes_range _ _ _ _ (proj1 (proj1 (row_app _ _ _ _) (hi_row _ _ Hinv))) Hp). lia.
Qed.

Definition split_heap h (prev a ptr ts n next : Z) : heap :=
  let m := split_memory (mem h) a ptr ts n next in
  let h' := if negb (prev =? 0) then with_mem h (poke m (prev + 8) ts) else with_first (with_mem h m) ts in
  with_mem h' (poke (mem h') (a + 4) (2 ^ 31 + (ts - a))).

Lemma take_node_split h l1 n l2 a ptr len prev next :
  cut h l1 n l2 a ptr len -> before h l1 prev -> 16 < a + n - (ptr + len) ->
  take_node h prev a next ptr (ptr + len) = Some (split_heap h prev a ptr (align_up (ptr + len) 4) n next).
Proof.
  intros Hc Hb Hrem. destruct (cut_bounds _ _ _ _ _ _ _ Hc) as (Ha & _ & Hn & Hn4 & Hend & Hm & Hs & _). destruct (cut_ptr _ _ _ _ _ _ _ Hc) as (? & ? & ? & ?).
  set (ts := align_up (ptr + len) 4). pose proof (align_up_bounds (ptr + len) 4 ltac:(lia)) as [Hts _]. fold ts in Hts.
  unfold take_node. rewrite (get_size_free _ a n), (mark_occupied_peek _ a n) by (done || lia). unfold HEADER_SIZE.
  replace (u32 (u32 (ptr - a) - 8)) with (ptr - a - 8) by (unfold u32; rewrite !Z.mod_small; rewrite ?Z.mod_small; lia).
  rewrite mark_padded_peek by lia. cbn [mbind option_bind mem with_mem].
  replace (u32 (u32 (a + n) - (ptr + len))) with (a + n - (ptr + len)) by (unfold u32; rewrite !Z.mod_small; rewrite ?Z.mod_small; lia).
  rewrite (proj2 (Z.ltb_lt _ _) Hrem). rewrite (get_size_live _ a n) by (lia || by peeks).
  assert (u32 (ptr + len + 3) .& bnot 32 3 = ts) as ->.
  { apply (mask_align (ptr + len) 4); [exists 2; split; [lia|done]|lia|lia]. }
  replace (u32 (u32 (a + n) - ts)) with (a + n - ts) by (unfold u32; rewrite !Z.mod_small; rewrite ?Z.mod_small; lia).
  rewrite init_peek by lia. rewrite (set_next_peek _ ts) by lia. fold (split_memory (mem h) a ptr ts n next).
  replace (u32 (ts - a)) with (ts - a) by (unfold u32; rewrite Z.mod_small; lia).
  unfold split_heap. destruct Hb as [[-> Hf]|[Hp (f & Hf)]].
  - simpl. f_equal. f_equal. apply (set_size_live _ a n); [lia|lia|lia|lia|]. unfold split_memory. by peeks.
  - rewrite (proj2 (Z.eqb_neq _ _) Hp). simpl.
    destruct (prev_bounds _ _ _ _ _ _ _ prev Hc) as [? ?]; [rewrite Hf; set_solver|].
    rewrite set_next_peek by lia. f_equal. f_equal. apply (set_size_live _ a n); [lia|lia|lia|lia|]. unfold split_memory. by peeks.
Qed.

Lemma cut_path h l1 n l2 a ptr len :
  cut h l1 n l2 a ptr len ->
  path (mem h) (first_free (allocator h)) (free_nodes (start (allocator h)) l1) a /\
  path (mem h) (peek (mem h) (a + 8)) (free_nodes (a + n) l2) 0.
Proof.
  intros [Hinv -> _]. pose proof (hi_linked _ _ Hinv) as Hl. rewrite free_nodes_app in Hl. simpl in Hl.
  by apply path_app in Hl as (q & H1 & [-> H2]).
Qed.

(** What a split writes: the two headers, and the link of the node before. *)
Lemma split_words h l1 n l2 a ptr len prev next :
  cut h l1 n l2 a ptr len -> before h l1 prev -> 16 < a + n - (ptr + len) ->
  let ts := align_up (ptr + len) 4 in
  let m := mem (split_heap h prev a ptr ts n next) in
  (forall w, peek m w = peek (mem h) w \/ a <= w < a + n \/ (prev <> 0 /\ w = prev + 8)) /\
  row m a [(ts - a, Live ptr len); (a + n - ts, Free)] /\ peek m (ts + 8) = next /\ (prev <> 0 -> peek m (prev + 8) = ts).
Proof.
  intros Hc Hb Hrem ts m. destruct (cut_bounds _ _ _ _ _ _ _ Hc) as (Ha & Ha4 & Hn & Hn4 & Hend & Hm & Hs & _).
  destruct (cut_ptr _ _ _ _ _ _ _ Hc) as (? & ? & ? & ?). destruct (align_up_bounds (ptr + len) 4 ltac:(lia)) as [Hts Hts4]. fold ts in Hts, Hts4.
  assert (prev <> 0 -> 0 < prev /\ prev + 12 <= a) as Hprev.
  { intros Hne. destruct Hb as [[? _]|[_ (f & Hf)]]; [done|]. apply (prev_bounds _ _ _ _ _ _ _ prev Hc). rewrite Hf. set_solver. }
  assert (peek m a = MAGIC /\ peek m (a + 4) = 2 ^ 31 + (ts - a) /\ peek m (ptr - 4) = ptr - a - 8 /\
          peek m ts = MAGIC /\ peek m (ts + 4) = a + n - ts /\ peek m (ts + 8) = next) as (Hw1 & Hw2 & Hw3 & Hw4 & Hw5 & Hw6).
  { unfold m, split_heap, split_memory. destruct (prev =? 0) eqn:E; bool_facts; simpl; [|destruct (Hprev E)]; repeat split; by peeks. }
  split; [|split; [|split; [done|]]].
  - intros w. destruct (decide (a <= w < a + n)); [auto|]. destruct (decide (prev <> 0 /\ w = prev + 8)); [auto|]. left.
    unfold m, split_heap, split_memory. destruct (prev =? 0) eqn:E; bool_facts; simpl; by peeks.
  - clearbody m. simpl. replace (a + (ts - a)) with ts by lia. repeat split; simpl; try done; try lia.
    + by apply Z.divide_sub_r.
    + apply Z.divide_sub_r; [by apply Z.divide_add_r|done].
  - intros Hne. destruct (Hprev Hne). unfold m, split_heap, split_memory. rewrite (proj2 (Z.eqb_neq _ _) Hne). simpl. by peeks.
Qed.

Lemma split_inv h l1 n l2 a ptr len prev :
  cut h l1 n l2 a ptr len -> before h l1 prev -> 16 < a + n - (ptr + len) ->
  let ts := align_up (ptr + len) 4 in
  heap_inv (split_heap h prev a ptr ts n (peek (mem h) (a + 8))) (l1 ++ [(ts - a, Live ptr len); (a + n - ts, Free)] ++ l2).
Proof.
  intros Hc Hb Hrem ts. destruct (split_words _ _ _ _ _ _ _ _ (peek (mem h) (a + 8)) Hc Hb Hrem) as (Hdiff & Hrow & Hnext & Hlink).
  fold ts in Hdiff, Hrow, Hnext, Hlink. destruct (cut_path _ _ _ _ _ _ _ Hc) as [HpL HpR].
  assert (forall x, x ∈ free_nodes (start (allocator h)) l1 -> 0 < x /\ x + 12 <= a) as HL by (intros x; by apply (prev_bounds _ _ _ _ _ _ _ x Hc)).
  destruct Hc as [Hinv Hat Hptr]. set (h' := split_heap _ _ _ _ _ _ _) in *.
  assert (first_free (allocator h') = if prev =? 0 then ts else first_free (allocator h)) as Hff by (unfold h', split_heap; by destruct (prev =? 0)).
  apply (splice_inv h h' l1 [(n, Free)] _ l2 (peek (mem h) (a + 8))); rewrite <- ?Hat; simpl total;
    [done|unfold h', split_heap; by destruct (prev =? 0)..|lia|done| |by rewrite Z.add_0_r| |by eexists [_], _].
  - intros w. destruct (Hdiff w) as [?|[?|[Hne ->]]]; [auto|right; left; lia|right; right].
    destruct Hb as [[? _]|[_ (f & Hf)]]; [done|]. exists prev. rewrite Hf. set_solver.
  - clearbody h'. rewrite free_nodes_app. simpl. rewrite <- Hat. replace (a + (ts - a)) with ts by lia.
    apply path_app. exists ts. split; [|done]. destruct Hb as [[-> Hf]|[Hne (f & Hf)]]; [by rewrite Hf, Hff|].
    pose proof (free_nodes_nodup _ _ _ (proj1 (proj1 (row_app _ _ _ _) (hi_row _ _ Hinv)))) as Hnd.
    rewrite Hf in HpL, HL, Hnd |- *. rewrite Hff, (proj2 (Z.eqb_neq _ _) Hne).
    apply (path_relink (mem h) _ _ _ _ a); [exact HpL| |by apply Hlink].
    intros x Hx. apply NoDup_app in Hnd as (_ & Hnd & _). destruct (HL x ltac:(set_solver)).
    destruct (Hdiff (x + 8)) as [?|[?|[_ ?]]]; [done|lia|]. assert (x = prev) as -> by lia. set_solver.
Qed.

(** The list forgets the free nodes before a block that is used up. *)
Definition mark_lost (l : list tile) : list tile :=
  (fun b : tile => (b.1, match b.2 with Free => Lost | k => k end)) <$> l.

Lemma mark_lost_facts m a l :
  total (mark_lost l) = total l /\ live (mark_lost l) = live l /\ free_nodes a (mark_lost l) = [] /\ (row m a l -> row m a (mark_lost l)).
Proof.
  revert a. induction l as [|[n k] l IH]; intros a; [done|]. destruct (IH (a + n)) as (H1 & H2 & H3 & H4).
  split; [simpl in *; lia|]. split; [by destruct k; simpl in *; rewrite H2|].
  split; [by destruct k|]. simpl. intros [(? & ? & Hk) Hr]. split; [|by apply H4]. by destruct k.
Qed.

Definition whole_memory (m : memory) (a ptr n : Z) : memory := poke (poke m (a + 4) (2 ^ 31 + n)) (ptr - 4) (ptr - a - 8).

Definition whole_heap h (a ptr n next : Z) : heap :=
  let h := with_mem h (whole_memory (mem h) a ptr n) in
  if next =? 0 then
    let e := heap_end h in
    let m := poke (poke (poke (mem h) e MAGIC) (e + 4) 0x1000) (e + 8) 0 in
    {| allocator := {| start := start (allocator h); size := size (allocator h) + 0x1000; first_free := e |};
       mem := m; frames := frames h - 1 |}
  else with_first h next.

(** There is room for one more page. *)
Definition can_grow h : Prop := heap_end h + 0x1000 < 2 ^ 32 /\ size (allocator h) + 0x1000 < 2 ^ 31 /\ (1 <= frames h)%nat.

Lemma take_node_whole h l1 n l2 a ptr len prev next :
  cut h l1 n l2 a ptr len -> a + n - (ptr + len) <= 16 -> can_grow h ->
  take_node h prev a next ptr (ptr + len) = Some (whole_heap h a ptr n next).
Proof.
  intros Hc Hrem (Hg1 & Hg2 & Hg3). destruct (cut_bounds _ _ _ _ _ _ _ Hc) as (Ha & _ & Hn & _ & Hend & Hm & Hs & Hle).
  destruct (cut_ptr _ _ _ _ _ _ _ Hc) as (? & ? & ? & ?). pose proof (hi_start _ _ (cut_inv _ _ _ _ _ _ _ Hc)).
  unfold take_node. rewrite (get_size_free _ a n), (mark_occupied_peek _ a n) by (done || lia). unfold HEADER_SIZE.
  replace (u32 (u32 (ptr - a) - 8)) with (ptr - a - 8) by (unfold u32; rewrite !Z.mod_small; rewrite ?Z.mod_small; lia).
  rewrite mark_padded_peek by lia. cbn [mbind option_bind mem with_mem].
  replace (u32 (u32 (a + n) - (ptr + len))) with (a + n - (ptr + len)) by (unfold u32; rewrite !Z.mod_small; rewrite ?Z.mod_small; lia).
  rewrite (proj2 (Z.ltb_ge _ _) Hrem). unfold whole_heap, whole_memory. destruct (next =? 0); [|done].
  unfold heap_end in *. cbn [allocator with_mem start size]. unfold map_pages. simpl frames. rewrite decide_True by lia. cbn [mbind option_bind].
  assert (0 <= size (allocator h)) by (rewrite <- (hi_total _ _ (cut_inv _ _ _ _ _ _ _ Hc)); by destruct (row_total _ _ _ (hi_row _ _ (cut_inv _ _ _ _ _ _ _ Hc)))).
  unfold u32. rewrite !Z.mod_small by lia. simpl. by rewrite init_peek by lia.
Qed.

Lemma whole_words h l1 n l2 a ptr len :
  cut h l1 n l2 a ptr len ->
  let m := whole_memory (mem h) a ptr n in
  (forall w, ~ (a <= w < a + n) -> peek m w = peek (mem h) w) /\ tile_ok m a (n, Live ptr len).
Proof.
  intros Hc m. destruct (cut_bounds _ _ _ _ _ _ _ Hc) as (Ha & Ha4 & Hn & Hn4 & Hend & Hm & Hs & _).
  destruct (cut_ptr _ _ _ _ _ _ _ Hc) as (? & ? & ? & ?). unfold m, whole_memory. split; [intros w Hw; by peeks|].
  repeat split; simpl; try done; try lia; by peeks.
Qed.

Lemma whole_inv_next h l1 n l2 a ptr len :
  cut h l1 n l2 a ptr len -> peek (mem h) (a + 8) <> 0 ->
  heap_inv (whole_heap h a ptr n (peek (mem h) (a + 8))) (mark_lost l1 ++ [(n, Live ptr len)] ++ l2).
Proof.
  intros Hc Hnext. destruct (whole_words _ _ _ _ _ _ _ Hc) as [Hdiff Htile]. destruct (cut_path _ _ _ _ _ _ _ Hc) as [_ HpR].
  destruct (cut_bounds _ _ _ _ _ _ _ Hc) as (_ & _ & Hn & _). destruct Hc as [Hinv Hat _].
  unfold whole_heap. rewrite (proj2 (Z.eqb_neq _ _) Hnext). set (h' := with_first _ _).
  destruct (mark_lost_facts (mem h') (start (allocator h)) l1) as (Ht & _ & Hf & Hr).
  pose proof (hi_row _ _ Hinv) as [Hrow1 _]%row_app. destruct (row_total _ _ _ Hrow1).
  rewrite app_assoc. apply (splice_inv h h' [] (l1 ++ [(n, Free)]) (mark_lost l1 ++ [(n, Live ptr len)]) l2 (peek (mem h) (a + 8)));
    rewrite ?Z.add_0_r, ?total_app; simpl total; rewrite ?Z.add_0_r.
  - simpl. by rewrite <- app_assoc.
  - done.
  - done.
  - lia.
  - apply row_app. rewrite Ht, <- Hat. split; [|by split]. apply Hr. apply (row_ext (mem h)); [|done].
    intros w Hw. left. apply Hdiff. lia.
  - intros w. destruct (decide (a <= w < a + n)); [right; left; lia|left]. by apply Hdiff.
  - rewrite Z.add_assoc, <- Hat. done.
  - simpl. rewrite free_nodes_app, Hf. done.
  - intros ->. by simpl in HpR.
Qed.

Lemma free_nodes_last l a (n : Z) : free_nodes a (l ++ [(n, Free)]) <> [].
Proof. rewrite free_nodes_app. simpl. by destruct (free_nodes a l). Qed.

Lemma cut_last h l1 n l2 a ptr len : cut h l1 n l2 a ptr len -> peek (mem h) (a + 8) = 0 -> l2 = [].
Proof.
  intros Hc Hnext. destruct (cut_path _ _ _ _ _ _ _ Hc) as [_ HpR]. rewrite Hnext in HpR.
  destruct (cut_bounds _ _ _ _ _ _ _ Hc) as (Ha & _ & Hn & _). destruct Hc as [Hinv -> _].
  destruct (tile_place h l1 _ l2 Hinv) as (_ & _ & _ & _ & Hr2). destruct (hi_last _ _ Hinv) as (l & k & Hl).
  destruct l2 as [|b l2 _] using rev_ind; [done|]. replace (l1 ++ (n, Free) :: l2 ++ [b]) with ((l1 ++ (n, Free) :: l2) ++ [b]) in Hl by (by rewrite <- app_assoc).
  apply app_inj_tail in Hl as [_ ->]. simpl in Hr2.
  destruct (free_nodes (start (allocator h) + total l1 + n) (l2 ++ [(k, Free)])) as [|x f] eqn:E; [by apply free_nodes_last in E|].
  destruct HpR as [<- _]. pose proof (free_nodes_range _ _ _ 0 Hr2) as H. rewrite E in H. destruct H; [set_solver|lia].
Qed.

Lemma whole_inv_last h l1 n l2 a ptr len :
  cut h l1 n l2 a ptr len -> peek (mem h) (a + 8) = 0 -> can_grow h ->
  heap_inv (whole_heap h a ptr n 0) (mark_lost l1 ++ [(n, Live ptr len); (0x1000, Free)]).
Proof.
  intros Hc Hnext (Hg1 & Hg2 & Hg3). pose proof (cut_last _ _ _ _ _ _ _ Hc Hnext) as ->.
  destruct (whole_words _ _ _ _ _ _ _ Hc) as [Hdiff Htile]. destruct (cut_bounds _ _ _ _ _ _ _ Hc) as (Ha & Ha4 & Hn & Hn4 & _).
  destruct Hc as [Hinv Hat _]. destruct (hi_start _ _ Hinv) as [Hs Hs4].
  assert (heap_end h = a + n) as He by (unfold heap_end; rewrite <- (hi_total _ _ Hinv), total_app; simpl; lia).
  set (h' := whole_heap h a ptr n 0). assert (mem h' = poke (poke (poke (whole_memory (mem h) a ptr n) (a + n) MAGIC) (a + n + 4) 0x1000) (a + n + 8) 0) as Hm.
  { unfold h', whole_heap. simpl. change (heap_end (with_mem h _)) with (heap_end h). by rewrite He. }
  assert (allocator h' = {| start := start (allocator h); size := size (allocator h) + 0x1000; first_free := a + n |}) as Hal.
  { unfold h', whole_heap. simpl. change (heap_end (with_mem h _)) with (heap_end h). by rewrite He. }
  destruct (mark_lost_facts (mem h') (start (allocator h)) l1) as (Ht & _ & Hf & Hr).
  pose proof (hi_row _ _ Hinv) as [Hrow1 _]%row_app. destruct (row_total _ _ _ Hrow1). clearbody h'.
  split; rewrite ?Hal; simpl.
  - apply row_app. rewrite Ht, <- Hat. split.
    + apply Hr. apply (row_ext (mem h)); [|done]. intros w Hw. left. rewrite Hm. peeks. apply Hdiff. lia.
    + simpl. split; [|split; [|done]].
      * apply (tile_ext (whole_memory (mem h) a ptr n)); [|done]. intros w Hw. simpl in Hw. rewrite Hm. by peeks.
      * rewrite Hm. repeat split; simpl; [lia|by exists 1024|by peeks..].
  - rewrite total_app, Ht, <- (hi_total _ _ Hinv), total_app. simpl. lia.
  - done.
  - unfold heap_end in *. rewrite Hal. simpl. lia.
  - rewrite free_nodes_app, Hf, Ht. simpl. rewrite <- Hat, Hm. split; [done|]. by peeks.
  - exists (mark_lost l1 ++ [(n, Live ptr len)]), 0x1000. by rewrite <- app_assoc.
Qed.

(** A block [ptr], [len] joins the live ones. *)
Definition allocated h bl h' (ptr len : Z) : Prop :=
  exists bl' A B, heap_inv h' bl' /\ live bl = A ++ B /\ live bl' = A ++ (ptr, len) :: B /\
    start (allocator h') = start (allocator h) /\ heap_end h <= heap_end h' <= heap_end h + 0x1000 /\ (frames h <= frames h' + 1)%nat.

Lemma take_node_ok h l1 n l2 a ptr len prev :
  cut h l1 n l2 a ptr len -> before h l1 prev -> can_grow h ->
  exists h', take_node h prev a (peek (mem h) (a + 8)) ptr (ptr + len) = Some h' /\ allocated h (l1 ++ (n, Free) :: l2) h' ptr len.
Proof.
  intros Hc Hb Hg. pose proof (mark_lost_facts (mem h) 0 l1) as (_ & Hlive & _).
  destruct (decide (16 < a + n - (ptr + len))) as [Hr|Hr].
  - eexists. split; [by apply (take_node_split h l1 n l2)|]. eexists _, (live l1), (live l2).
    split; [by apply (split_inv h l1 n l2)|]. rewrite !live_tiles_app. split; [done|]. split; [done|].
    unfold split_heap, heap_end. destruct (prev =? 0); simpl; repeat split; lia.
  - destruct (decide (peek (mem h) (a + 8) = 0)) as [He|He].
    + eexists. split; [by apply (take_node_whole h l1 n l2); [|lia|]|]. eexists _, (live l1), [].
      split; [rewrite He; by apply (whole_inv_last h l1 n l2)|]. rewrite !live_tiles_app, Hlive, (cut_last _ _ _ _ _ _ _ Hc He).
      split; [done|]. split; [done|]. rewrite He. unfold whole_heap, heap_end. simpl. repeat split; lia.
    + eexists. split; [by apply (take_node_whole h l1 n l2); [|lia|]|]. eexists _, (live l1), (live l2).
      split; [by apply (whole_inv_next h l1 n l2)|]. rewrite !live_tiles_app, Hlive. split; [done|]. split; [done|].
      unfold whole_heap, heap_end. rewrite (proj2 (Z.eqb_neq _ _) He). simpl. repeat split; lia.
Qed.

Definition fits (layout : Layout) (a n : Z) : Prop := align_up (a + 12) (layout_align layout) + layout_size layout <= a + n.

(** No free tile of the row is large enough. *)
Fixpoint no_fit (layout : Layout) (a : Z) (bl : list tile) : Prop :=
  match bl with
  | [] => True
  | (n, k) :: bl => (k = Free -> ~ fits layout a n) /\ no_fit layout (a + n) bl
  end.

(** The request has a valid alignment and does not reach the end of the
    address space. *)
Definition sane h (layout : Layout) : Prop :=
  pow2 (layout_align layout) /\ 0 <= layout_size layout /\ heap_end h + layout_align layout + layout_size layout <= 2 ^ 32.

Lemma aligned_start_ok h (layout : Layout) (a : Z) :
  sane h layout -> 0 < a -> a + 12 <= heap_end h ->
  get_aligned_start a (layout_align layout) = align_up (a + 12) (layout_align layout) /\
  u32 (align_up (a + 12) (layout_align layout) + layout_size layout) = align_up (a + 12) (layout_align layout) + layout_size layout.
Proof.
  intros (Hp & Hs & Hb) Ha Hle. assert (0 < layout_align layout) as Hal by (destruct Hp as (k & ? & ->); apply Z.pow_pos_nonneg; lia).
  destruct (align_up_bounds (a + 12) _ Hal) as [? _]. unfold get_aligned_start. replace (u32 (a + 12)) with (a + 12) by (unfold u32; rewrite Z.mod_small; lia).
  rewrite mask_align by (done || lia). split; [done|]. unfold u32. apply Z.mod_small. lia.
Qed.

Lemma alloc_loop_ok h (layout : Layout) l2 l1 (fuel : nat) (prev current : Z) :
  heap_inv h (l1 ++ l2) -> before h l1 prev -> path (mem h) current (free_nodes (start (allocator h) + total l1) l2) 0 ->
  (length (free_nodes (start (allocator h) + total l1) l2) < fuel)%nat -> sane h layout -> can_grow h ->
  exists p h', alloc_loop fuel h layout prev current = Some (p, h') /\
    ((p = 0 /\ h' = h /\ no_fit layout (start (allocator h) + total l1) l2) \/
     (0 < p /\ (layout_align layout | p) /\ allocated h (l1 ++ l2) h' p (layout_size layout))).
Proof.
  intros Hinv. revert l1 fuel prev current Hinv.
  induction l2 as [|[n k] l2 IH]; intros l1 fuel prev current Hinv Hb Hpath Hf Hs Hg.
  - simpl in Hpath. subst current. destruct fuel; [simpl in Hf; lia|]. simpl. eauto 10.
  - set (a := start (allocator h) + total l1) in *. destruct (tile_place h l1 (n, k) l2 Hinv) as ((Hn & _ & Hk) & Ha & Ha4 & Hend & _). fold a in Hk, Ha, Ha4, Hend. simpl in Hn, Hk, Hend.
    assert (start (allocator h) + total (l1 ++ [(n, k)]) = a + n) as Hnext by (rewrite total_app; simpl; lia).
    specialize (IH (l1 ++ [(n, k)])). rewrite Hnext, <- app_assoc in IH. simpl app in IH.
    destruct (decide (k = Free)) as [->|Hk'].
    + simpl in Hpath. destruct Hpath as [-> Hpath]. destruct fuel as [|fuel]; [lia|]. cbn [alloc_loop].
      rewrite (proj2 (Z.eqb_neq a 0)) by lia. destruct (hi_end _ _ Hinv) as [? ?]. destruct Hk as [Hmag Hsz].
      rewrite (get_next_peek (mem h) a) by lia. destruct (aligned_start_ok h layout a Hs Ha ltac:(lia)) as [-> ->].
      assert (n < 2 ^ 31) by (unfold heap_end in *; destruct (hi_start _ _ Hinv), (row_total _ _ _ (proj1 (proj1 (row_app _ _ _ _) (hi_row _ _ Hinv)))); lia).
      rewrite (get_size_free _ a n) by (done || lia). replace (u32 (a + n)) with (a + n) by (unfold u32; rewrite Z.mod_small; lia).
      destruct (_ <=? a + n) eqn:Efit; bool_facts.
      * assert (cut h l1 n l2 a (align_up (a + 12) (layout_align layout)) (layout_size layout)) as Hc.
        { destruct Hs as (Hp & Hsz0 & _). split; [done|done|]. split; [|split; [|by split]].
          - apply align_up_bounds. destruct Hp as (k & ? & ->). apply Z.pow_pos_nonneg; lia.
          - apply align_up_4; [done|]. apply Z.divide_add_r; [done|by exists 3]. }
        destruct (take_node_ok h l1 n l2 a _ _ prev Hc Hb Hg) as (h' & -> & Hal). cbn [mbind option_bind].
        exists (align_up (a + 12) (layout_align layout)), h'. split; [done|right]. destruct (cut_ptr _ _ _ _ _ _ _ Hc). split; [lia|]. split; [|done].
        apply align_up_bounds. destruct Hs as ((k & ? & ->) & _). apply Z.pow_pos_nonneg; lia.
      * destruct (IH fuel a (peek (mem h) (a + 8))) as (p & h' & -> & Hr); [done| |done|simpl in Hf; lia|done|done|].
        { right. split; [lia|]. exists (free_nodes (start (allocator h)) l1). by rewrite free_nodes_app. }
        exists p, h'. split; [done|]. destruct Hr as [(-> & -> & Hr)|Hr]; [left|by right]. repeat split; [|done]. unfold fits. lia.
    + assert (free_nodes a ((n, k) :: l2) = free_nodes (a + n) l2) as Hfn by (by destruct k). rewrite Hfn in Hpath, Hf.
      destruct (IH fuel prev current) as (p & h' & -> & Hr); [done| |done|done|done|done|].
      { unfold before in *. rewrite free_nodes_app. simpl. assert (free_nodes (start (allocator h) + total l1) [(n, k)] = []) as Hnil by (by destruct k).
        simpl in Hnil. rewrite Hnil, app_nil_r. done. }
      exists p, h'. split; [done|]. destruct Hr as [(-> & -> & Hr)|Hr]; [left|by right]. repeat split; done.
Qed.
End Alloc.

(** ** The whole of [alloc], and growing the heap *)

Section Grow.
Implicit Types (h : heap) (m : memory) (a : Z) (l bl : list tile).

Lemma free_count m a bl : row m a bl -> 12 * Z.of_nat (length (free_nodes a bl)) <= total bl.
Proof.
  revert a. induction bl as [|[n k] bl IH]; intros a Hr; simpl in *; [lia|]. destruct Hr as [(Hn & _) Hr].
  specialize (IH _ Hr). simpl in Hn. destruct k; simpl; lia.
Qed.

Lemma fuel_enough h bl : heap_inv h bl -> (length (free_nodes (start (allocator h)) bl) < node_fuel (allocator h))%nat.
Proof.
  intros Hinv. pose proof (free_count _ _ _ (hi_row _ _ Hinv)) as Hc. rewrite (hi_total _ _ Hinv) in Hc.
  unfold node_fuel. apply Nat.lt_succ_r. apply Nat2Z.inj_le. rewrite Z2Nat.id by (apply Z.div_pos; lia).
  apply Z.div_le_lower_bound; lia.
Qed.

Lemma alloc_ok h bl (layout : Layout) :
  heap_inv h bl -> sane h layout -> can_grow h ->
  exists p h', ListAllocator.alloc h layout = Some (p, h') /\
    ((p = 0 /\ h' = h /\ no_fit layout (start (allocator h)) bl) \/
     (0 < p /\ (layout_align layout | p) /\ allocated h bl h' p (layout_size layout))).
Proof.
  intros Hinv Hs Hg. unfold ListAllocator.alloc. pose proof (fuel_enough h bl Hinv) as Hf.
  destruct (alloc_loop_ok h layout bl [] (S (node_fuel (allocator h))) 0 (first_free (allocator h))) as (p & h' & Hl & Hr);
    simpl; rewrite ?Z.add_0_r; [done|by left|by apply Hinv|lia|done|done|].
  exists p, h'. split; [exact Hl|]. simpl in Hr. by rewrite Z.add_0_r in Hr.
Qed.

(** Every node of the list lies inside the heap. *)
Lemma node_range h bl x : heap_inv h bl -> x ∈ free_nodes (start (allocator h)) bl -> 0 < x /\ x + 12 <= heap_end h /\ x + 12 <= 2 ^ 32.
Proof.
  intros Hinv Hx. pose proof (free_nodes_range _ _ _ _ (hi_row _ _ Hinv) Hx). rewrite (hi_total _ _ Hinv) in *.
  destruct (hi_start _ _ Hinv), (hi_end _ _ Hinv). unfold heap_end in *. lia.
Qed.

Lemma find_last_ok m p (f : list Z) y (fuel : nat) :
  path m p (f ++ [y]) 0 -> (forall x, x ∈ f ++ [y] -> 0 < x /\ x + 12 <= 2 ^ 32) -> (length f < fuel)%nat ->
  find_last_node fuel m p = Some y.
Proof.
  revert p fuel. induction f as [|x f IH]; intros p [|fuel] Hp Hr Hf; simpl in *; try lia.
  - destruct Hp as [-> Hp]. destruct (Hr y ltac:(set_solver)). by rewrite get_next_peek, Hp by lia.
  - destruct Hp as [-> Hp]. destruct (Hr x ltac:(set_solver)). rewrite get_next_peek by lia.
    assert (peek m (x + 8) <> 0).
    { destruct f as [|z f]; simpl in Hp; destruct Hp as [-> _]; [destruct (Hr y)|destruct (Hr z)]; try set_solver; lia. }
    rewrite (proj2 (Z.eqb_neq _ _)) by done. apply IH; [done| |lia]. intros z Hz. apply Hr. set_solver.
Qed.

Lemma expand_ok h l (n pages : Z) :
  heap_inv h (l ++ [(n, Free)]) -> 0 <= pages -> heap_end h + 0x1000 * pages < 2 ^ 32 -> size (allocator h) + 0x1000 * pages < 2 ^ 31 ->
  pages <= Z.of_nat (frames h) ->
  exists h', expand h pages = Some h' /\ heap_inv h' (l ++ [(n + 0x1000 * pages, Free)]) /\
    start (allocator h') = start (allocator h) /\ size (allocator h') = size (allocator h) + 0x1000 * pages /\
    Z.of_nat (frames h') = Z.of_nat (frames h) - pages.
Proof.
  intros Hinv Hp He Hsz Hfr. set (a := start (allocator h) + total l).
  pose proof (hi_linked _ _ Hinv) as Hl. pose proof (fuel_enough _ _ Hinv) as Hf. rewrite free_nodes_app in Hl, Hf. simpl in Hl, Hf. fold a in Hl, Hf.
  pose proof (hi_row _ _ Hinv) as [Hr1 [(Hn & Hn4 & Hm & Hs) _]]%row_app. fold a in Hm, Hs. simpl in Hn, Hn4, Hs.
  destruct (hi_start _ _ Hinv) as [Hst Hst4]. destruct (row_total _ _ _ Hr1) as [Ht Ht4]. pose proof (hi_total _ _ Hinv) as Htot. rewrite total_app in Htot. simpl in Htot.
  unfold heap_end in He. unfold expand. rewrite (find_last_ok _ _ (free_nodes (start (allocator h)) l) a).
  2:{ done. }
  2:{ intros x Hx. destruct (node_range h _ x Hinv) as (? & ? & ?); [|lia]. rewrite free_nodes_app. done. }
  2:{ rewrite length_app in Hf. simpl in Hf. lia. }
  cbn [mbind option_bind]. unfold AllocNode.set_size_field, AllocNode.size_field. destruct (node_words a ltac:(lia) ltac:(lia)) as [-> _].
  rewrite Hs. replace (u32 (0x1000 * pages)) with (0x1000 * pages) by (unfold u32; rewrite Z.mod_small; lia).
  replace (u32 (n + 0x1000 * pages)) with (n + 0x1000 * pages) by (unfold u32; rewrite Z.mod_small; lia).
  simpl size. replace (u32 (size (allocator h) + 0x1000 * pages)) with (size (allocator h) + 0x1000 * pages) by (unfold u32; rewrite Z.mod_small; lia).
  unfold map_pages. simpl frames. rewrite decide_True by lia. eexists. split; [done|]. simpl. split; [|lia]. split; simpl.
  - apply row_app. split.
    + apply (row_ext (mem h)); [|done]. intros w Hw. left. rewrite peek_poke_ne by lia. done.
    + fold a. repeat split; simpl; [lia| | |by rewrite peek_poke].
      * apply Z.divide_add_r; [done|]. exists (1024 * pages). lia.
      * by rewrite peek_poke_ne by lia.
  - rewrite total_app. simpl. lia.
  - done.
  - unfold heap_end. simpl. lia.
  - rewrite free_nodes_app. simpl. fold a. apply (path_ext (mem h)); [|done]. intros x Hx. apply peek_poke_ne.
    apply elem_of_app in Hx as [Hx|Hx]; [pose proof (free_nodes_range _ _ _ _ Hr1 Hx); lia|set_solver by lia].
  - eauto.
Qed.
End Grow.

(** ** Release *)

Section Release.
Implicit Types (h : heap) (m : memory) (a : Z) (l bl : list tile).

Lemma insert_loop_ok m p (f : list Z) y q node (fuel : nat) :
  path m p (f ++ [y]) q -> (forall x, x ∈ f ++ [y] -> 0 < x < node /\ x + 12 <= 2 ^ 32) -> node < q -> node + 12 <= 2 ^ 32 ->
  (length f < fuel)%nat -> insert_loop fuel m node p = Some (poke (poke m (y + 8) node) (node + 8) q).
Proof.
  intros Hp Hr Hq Hn. revert p fuel Hp. induction f as [|x f IH]; intros p [|fuel] Hp Hf; simpl in *; try lia; destruct Hp as [-> Hp].
  - destruct (Hr y ltac:(set_solver)). rewrite (proj2 (Z.eqb_neq _ _)), get_next_peek, Hp by lia.
    rewrite (proj2 (Z.ltb_lt y node)), (proj2 (Z.ltb_lt node q)) by lia. simpl. by rewrite !set_next_peek by lia.
  - destruct (Hr x ltac:(set_solver)). rewrite (proj2 (Z.eqb_neq _ _)), get_next_peek by lia.
    assert (0 < peek m (x + 8) < node).
    { destruct f as [|z f]; simpl in Hp; destruct Hp as [-> _]; [apply (Hr y)|apply (Hr z)]; set_solver. }
    rewrite (proj2 (Z.ltb_ge node _)), (proj2 (Z.eqb_neq _ 0)), andb_false_r by lia. apply IH; [|done|lia]. intros z Hz. apply Hr. set_solver.
Qed.

(** The facts about the tile of a live block. *)
Lemma live_place h l1 n (ptr len : Z) l2 :
  heap_inv h (l1 ++ (n, Live ptr len) :: l2) ->
  let a := start (allocator h) + total l1 in
  12 <= n < 2 ^ 31 /\ (4 | n) /\ start (allocator h) <= a /\ a + n <= heap_end h /\ 0 < a /\
  peek (mem h) a = MAGIC /\ peek (mem h) (a + 4) = 2 ^ 31 + n /\ a + 12 <= ptr /\ peek (mem h) (ptr - 4) = ptr - a - 8 /\
  0 <= len /\ ptr + len <= a + n.
Proof.
  intros Hinv a. destruct (tile_place h l1 _ l2 Hinv) as ((Hn & H4 & Hm & Hs & Hp & _ & Hpad & Hlen & Hend) & Ha & _ & Hle & _).
  fold a in Hm, Hs, Hp, Hpad, Hend, Ha, Hle. simpl in *. destruct (hi_end _ _ Hinv). destruct (hi_start _ _ Hinv).
  destruct (row_total _ _ _ (proj1 (proj1 (row_app _ _ _ _) (hi_row _ _ Hinv)))). unfold heap_end in *. repeat split; try done; lia.
Qed.

Lemma live_path h l1 n (ptr len : Z) l2 :
  heap_inv h (l1 ++ (n, Live ptr len) :: l2) ->
  let a := start (allocator h) + total l1 in
  exists q, path (mem h) (first_free (allocator h)) (free_nodes (start (allocator h)) l1) q /\ path (mem h) q (free_nodes (a + n) l2) 0 /\
    a + n <= q /\ (forall x, x ∈ free_nodes (start (allocator h)) l1 -> 0 < x /\ x + 12 <= a) /\
    (forall x, x ∈ free_nodes (a + n) l2 -> a + n <= x).
Proof.
  intros Hinv a. pose proof (hi_linked _ _ Hinv) as Hl. rewrite free_nodes_app in Hl. simpl in Hl.
  apply path_app in Hl as (q & H1 & H2). destruct (tile_place h l1 _ l2 Hinv) as (_ & _ & _ & _ & Hr2). simpl in Hr2.
  pose proof (hi_row _ _ Hinv) as [Hr1 _]%row_app. destruct (hi_start _ _ Hinv). fold a in H2, Hr2.
  assert (forall x, x ∈ free_nodes (a + n) l2 -> a + n <= x) as HR by (intros x Hx; pose proof (free_nodes_range _ _ _ _ Hr2 Hx); lia).
  exists q. split; [done|]. split; [done|]. split; [|split; [|done]].
  - destruct (hi_last _ _ Hinv) as (l & k & Hl). destruct l2 as [|b l2 _] using rev_ind; [by apply app_inj_tail in Hl as [_ ?]|].
    replace (l1 ++ (n, Live ptr len) :: l2 ++ [b]) with ((l1 ++ (n, Live ptr len) :: l2) ++ [b]) in Hl by (by rewrite <- app_assoc).
    apply app_inj_tail in Hl as [_ ->].
    destruct (free_nodes (a + n) (l2 ++ [(k, Free)])) as [|x f] eqn:E; [by apply free_nodes_last in E|]. destruct H2 as [-> _]. apply HR. set_solver.
  - intros x Hx. pose proof (free_nodes_range _ _ _ _ Hr1 Hx). unfold a. lia.
Qed.

(** The part of [dealloc] before the merge. *)
Definition relist h (node_addr : Z) : option heap :=
  let h := with_mem h (AllocNode.mark_free (mem h) node_addr) in
  if node_addr <? first_free (allocator h) then
    Some (with_first (with_mem h (AllocNode.set_next (mem h) node_addr (first_free (allocator h)))) node_addr)
  else m ← insert_loop (S (node_fuel (allocator h))) (mem h) node_addr (first_free (allocator h)); Some (with_mem h m).

Lemma relist_inv h h' l1 n (ptr len q : Z) l2 :
  let a := start (allocator h) + total l1 in
  heap_inv h (l1 ++ (n, Live ptr len) :: l2) ->
  start (allocator h') = start (allocator h) -> size (allocator h') = size (allocator h) ->
  (forall w, peek (mem h') w = peek (mem h) w \/ w = a + 4 \/ w = a + 8 \/ (exists x, x ∈ free_nodes (start (allocator h)) l1 /\ w = x + 8)) ->
  peek (mem h') (a + 4) = n -> peek (mem h') (a + 8) = q ->
  path (mem h) q (free_nodes (a + n) l2) 0 ->
  path (mem h') (first_free (allocator h')) (free_nodes (start (allocator h)) l1) a ->
  heap_inv h' (l1 ++ (n, Free) :: l2).
Proof.
  intros a Hinv Hst Hsz Hdiff Hw4 Hw8 Hq HpL. destruct (live_place _ _ _ _ _ _ Hinv) as (Hn & H4 & Hsa & Hle & Ha & Hm & _).
  destruct (live_path _ _ _ _ _ _ Hinv) as (_ & _ & _ & _ & HL & _). fold a in Hm, Ha, HL, Hle, Hsa.
  assert (peek (mem h') a = MAGIC) as Hma.
  { destruct (Hdiff a) as [-> |[?|[?|(x & Hx & ?)]]]; [done|lia|lia|]. specialize (HL x Hx). lia. }
  apply (splice_inv h h' l1 [(n, Live ptr len)] [(n, Free)] l2 q); [done|done|done|done| | | | |]; fold a; simpl total; rewrite ?Z.add_0_r.
  - by repeat split; simpl; [lia| |..].
  - intros w. destruct (Hdiff w) as [?|[?|[?|?]]]; [auto|right; left; lia|right; left; lia|auto].
  - done.
  - rewrite free_nodes_app. simpl. fold a. apply path_app. exists a. by split; [|split].
  - intros _. by exists [], n.
Qed.

Lemma relist_ok h l1 n (ptr len : Z) l2 :
  let a := start (allocator h) + total l1 in
  heap_inv h (l1 ++ (n, Live ptr len) :: l2) ->
  exists h', relist h a = Some h' /\ heap_inv h' (l1 ++ (n, Free) :: l2) /\ start (allocator h') = start (allocator h) /\
    size (allocator h') = size (allocator h) /\ frames h' = frames h.
Proof.
  intros a Hinv. destruct (live_place _ _ _ _ _ _ Hinv) as (Hn & H4 & Hsa & Hle & Ha & Hm & Hs & _).
  destruct (live_path _ _ _ _ _ _ Hinv) as (q & HpL & HpR & Hq & HL & HR). fold a in Hm, Ha, HL, Hle, Hsa, Hs, Hq, HR, HpR.
  destruct (hi_end _ _ Hinv) as [Hend _]. pose proof (fuel_enough _ _ Hinv) as Hf. rewrite free_nodes_app in Hf.
  assert (AllocNode.mark_free (mem h) a = poke (mem h) (a + 4) n) as Hfree.
  { unfold AllocNode.mark_free, AllocNode.set_size_field, AllocNode.size_field. destruct (node_words a ltac:(lia) ltac:(lia)) as [-> _].
    rewrite Hs, low31. replace (2 ^ 31 + n) with (n + 1 * 2 ^ 31) by lia. by rewrite Z.mod_add, Z.mod_small by lia. }
  unfold relist. rewrite Hfree. cbn [allocator with_mem mem].
  destruct (free_nodes (start (allocator h)) l1) as [|y f _] eqn:EL using rev_ind.
  - simpl in HpL. rewrite HpL, (proj2 (Z.ltb_lt a q)), set_next_peek by lia. eexists. split; [done|]. split; [|done].
    apply (relist_inv h _ l1 n ptr len q l2); [done|done|done| | | |done|]; simpl.
    + intros w. destruct (decide (w = a + 4)); [auto|]. destruct (decide (w = a + 8)); [auto|]. left. by peeks.
    + by peeks.
    + by peeks.
    + by rewrite EL.
  - assert (first_free (allocator h) < a).
    { destruct f as [|z f]; simpl in HpL; destruct HpL as [-> _]; [destruct (HL y)|destruct (HL z)]; try set_solver; lia. }
    rewrite (proj2 (Z.ltb_ge _ _)) by lia.
    pose proof (free_nodes_nodup _ _ _ (proj1 (proj1 (row_app _ _ _ _) (hi_row _ _ Hinv)))) as Hnd. rewrite EL in Hnd.
    assert (path (poke (mem h) (a + 4) n) (first_free (allocator h)) (f ++ [y]) q) as HpL'.
    { apply (path_ext (mem h)); [|done]. intros x Hx. destruct (HL x Hx). by peeks. }
    rewrite (insert_loop_ok _ _ f y q); [|done| |lia|lia|rewrite !length_app in Hf; simpl in Hf; lia].
    2:{ intros x Hx. destruct (HL x Hx). lia. }
    cbn [mbind option_bind]. eexists. split; [done|]. split; [|done]. destruct (HL y ltac:(set_solver)).
    apply (relist_inv h _ l1 n ptr len q l2); [done|done|done| | | |done|]; simpl.
    + intros w. destruct (decide (w = a + 4)); [auto|]. destruct (decide (w = a + 8)); [auto|].
      destruct (decide (w = y + 8)) as [->|]; [right; right; right; exists y; rewrite EL; set_solver|left]. by peeks.
    + by peeks.
    + by peeks.
    + rewrite EL. apply (path_relink (poke (mem h) (a + 4) n) _ _ _ _ q); [done| |by peeks].
      intros x Hx. destruct (HL x ltac:(set_solver)). apply NoDup_app in Hnd as (_ & Hnd & _).
      assert (x <> y) by (intros ->; apply (Hnd y Hx); set_solver). by peeks.
Qed.

(** *** Merging *)

(** No two free tiles are neighbours. *)
Fixpoint coalesced bl : Prop :=
  match bl with
  | (_, Free) :: (((_, Free) :: _) as bl') => False
  | _ :: bl => coalesced bl
  | [] => True
  end.

Lemma merge_step_inv h l1 (n n2 : Z) l2 :
  let a := start (allocator h) + total l1 in
  heap_inv h (l1 ++ (n, Free) :: (n2, Free) :: l2) ->
  AllocNode.get_size (mem h) a = n /\ AllocNode.get_next (mem h) a = a + n /\ u32 (a + n) = a + n /\ a + n <> 0 /\
  heap_inv (with_mem h (AllocNode.set_next (AllocNode.set_size (mem h) a (u32 (AllocNode.get_size (mem h) a + AllocNode.get_size (mem h) (a + n))))
                          a (AllocNode.get_next (AllocNode.set_size (mem h) a (u32 (AllocNode.get_size (mem h) a + AllocNode.get_size (mem h) (a + n)))) (a + n))))
           (l1 ++ (n + n2, Free) :: l2).
Proof.
  intros a Hinv. destruct (tile_place h l1 _ _ Hinv) as ((Hn & H4 & Hm & Hs) & Ha & Ha4 & Hend & Hr2). fold a in Hm, Hs, Ha, Hend, Hr2.
  simpl in Hn, H4, Hs, Hend, Hr2. destruct Hr2 as [(Hn2 & H42 & Hm2 & Hs2) Hr3]. simpl in Hn2, H42, Hs2, Hr3.
  pose proof (hi_linked _ _ Hinv) as Hl. rewrite free_nodes_app in Hl. simpl in Hl. fold a in Hl.
  apply path_app in Hl as (r & HpL & [-> [Hnext HpR]]). destruct (hi_end _ _ Hinv) as [He Hsz]. destruct (hi_start _ _ Hinv).
  pose proof (hi_total _ _ Hinv) as Htot. rewrite total_app in Htot. simpl in Htot.
  destruct (row_total _ _ _ (proj1 (proj1 (row_app _ _ _ _) (hi_row _ _ Hinv)))). destruct (row_total _ _ _ Hr3). unfold heap_end in *.
  rewrite (get_size_free _ a n), (get_size_free _ (a + n) n2), (get_next_peek _ a) by (done || lia).
  replace (u32 (n + n2)) with (n + n2) by (unfold u32; rewrite Z.mod_small; lia). rewrite (set_size_free _ a n) by (done || lia).
  rewrite get_next_peek, set_next_peek by lia. rewrite peek_poke_ne by lia.
  split; [done|]. split; [done|]. split; [unfold u32; rewrite Z.mod_small; lia|]. split; [lia|].
  apply (splice_inv h (with_mem h _) l1 [(n, Free); (n2, Free)] [(n + n2, Free)] l2 (peek (mem h) (a + n + 8)));
    fold a; simpl total; [done|done|done|lia| | | | |by exists [], (n + n2)].
  - simpl. repeat split; simpl; [lia|by apply Z.divide_add_r|by peeks..].
  - intros w. simpl. destruct (decide (w = a + 4)); [right; left; lia|]. destruct (decide (w = a + 8)); [right; left; lia|]. left. by peeks.
  - by rewrite Z.add_0_r, Z.add_assoc.
  - simpl. rewrite free_nodes_app. simpl. fold a. apply path_app. exists a. split; [|split; [done|by peeks]].
    apply (path_ext (mem h)); [|done]. intros x Hx.
    pose proof (free_nodes_range _ _ _ _ (proj1 (proj1 (row_app _ _ _ _) (hi_row _ _ Hinv))) Hx). by peeks.
Qed.

Lemma coalesced_tail a mid (n : Z) : free_nodes a mid = [] -> coalesced (mid ++ [(n, Free)]).
Proof.
  revert a. induction mid as [|[k [| |]] mid IH]; intros a Hf; [done|done|..]; simpl in *; by apply (IH (a + k)).
Qed.

Lemma coalesced_app a l (n : Z) mid (n' : Z) :
  coalesced (l ++ [(n, Free)]) -> free_nodes a mid = [] -> mid <> [] -> coalesced (l ++ (n, Free) :: mid ++ [(n', Free)]).
Proof.
  intros Hc Hf Hne. induction l as [|[k [| |]] l IH]; simpl in *.
  - destruct mid as [|[k [| |]] mid]; try done; simpl in *; by apply (coalesced_tail (a + k)).
  - destruct l as [|[k2 [| |]] l]; simpl in *; try done; by apply IH.
  - by apply IH.
  - by apply IH.
Qed.

Lemma coalesced_size l (n n' : Z) : coalesced (l ++ [(n, Free)]) -> coalesced (l ++ [(n', Free)]).
Proof.
  intros Hc. induction l as [|[k [| |]] l IH]; simpl in *; try done; [|by apply IH..].
  destruct l as [|[k2 [| |]] l]; simpl in *; try done; by apply IH.
Qed.

Lemma first_free_split a l x (R : list Z) :
  free_nodes a l = x :: R ->
  exists mid n l3, l = mid ++ (n, Free) :: l3 /\ x = a + total mid /\ free_nodes a mid = [] /\ R = free_nodes (x + n) l3.
Proof.
  revert a. induction l as [|[k [| |]] l IH]; intros a Hf; simpl in *; [done|..].
  - simplify_eq. exists [], k, l. rewrite Z.add_0_r. done.
  - destruct (IH _ Hf) as (mid & n & l3 & -> & -> & Hm & ->). exists ((k, Live ptr len) :: mid), n, l3. simpl. by rewrite Z.add_assoc.
  - destruct (IH _ Hf) as (mid & n & l3 & -> & -> & Hm & ->). exists ((k, Lost) :: mid), n, l3. simpl. by rewrite Z.add_assoc.
Qed.

Lemma free_cut h l1 (n : Z) l2 :
  let a := start (allocator h) + total l1 in heap_inv h (l1 ++ (n, Free) :: l2) -> cut h l1 n l2 a (a + 12) 0.
Proof.
  intros a Hinv. destruct (tile_place h l1 _ l2 Hinv) as ((Hn & _) & _ & Ha4 & _). simpl in Hn. fold a in Ha4.
  split; [done|done|]. split; [lia|]. split; [apply Z.divide_add_r; [done|by exists 3]|lia].
Qed.

Lemma merge_loop_ok (fuel : nat) h l1 (n : Z) l2 :
  let a := start (allocator h) + total l1 in
  heap_inv h (l1 ++ (n, Free) :: l2) -> coalesced (l1 ++ [(n, Free)]) -> (S (length (free_nodes (a + n) l2)) < fuel)%nat ->
  exists m' bl', merge_loop fuel (mem h) a = Some m' /\ heap_inv (with_mem h m') bl' /\
    live bl' = live (l1 ++ (n, Free) :: l2) /\ coalesced bl'.
Proof.
  revert h l1 n l2. induction fuel as [|fuel IH]; intros h l1 n l2 a Hinv Hco Hf; [lia|].
  pose proof (free_cut h l1 n l2 Hinv) as Hc. fold a in Hc. destruct (cut_bounds _ _ _ _ _ _ _ Hc) as (Ha & _ & Hn & _ & Hend & _ & Hs & _).
  destruct (cut_path _ _ _ _ _ _ _ Hc) as [_ HpR].
  destruct (free_nodes (a + n) l2) as [|x R] eqn:E; simpl in HpR; cbn [merge_loop]; rewrite (proj2 (Z.eqb_neq a 0)) by lia.
  - pose proof (cut_last _ _ _ _ _ _ _ Hc HpR) as ->. rewrite (get_size_free _ a n), (get_next_peek _ a), HpR by (done || lia).
    rewrite (proj2 (Z.eqb_neq _ 0)) by (unfold u32; rewrite Z.mod_small; lia). destruct fuel; [simpl in Hf; lia|]. simpl.
    exists (mem h), (l1 ++ [(n, Free)]). by destruct h.
  - destruct HpR as [Hx HpR]. destruct (first_free_split _ _ _ _ E) as (mid & n2 & l3 & -> & Hxa & Hmid & ->).
    destruct mid as [|b mid].
    + simpl in *. rewrite Z.add_0_r in Hxa. destruct (merge_step_inv h l1 n n2 l3 Hinv) as (Hg1 & Hg2 & Hu & _ & Hinv'). fold a in Hg1, Hg2, Hu, Hinv'.
      rewrite Hg1 in Hinv' |- *. rewrite Hu, Hg2, Z.eqb_refl in *. set (h' := with_mem h _) in Hinv'.
      destruct (IH h' l1 (n + n2) l3 Hinv') as (m' & bl' & Hl & Hi & Hlive & Hc'); [by apply (coalesced_size l1 n)| |].
      { rewrite Hxa in Hf. change (start (allocator h') + total l1) with a. rewrite Z.add_assoc. lia. }
      exists m', bl'. split; [exact Hl|]. split; [exact Hi|]. split; [|done]. rewrite Hlive, !live_tiles_app. done.
    + rewrite (get_size_free _ a n), (get_next_peek _ a), Hx by (done || lia).
      destruct (tile_place h l1 _ _ Hinv) as (_ & _ & _ & _ & [Hr2 _]%row_app). fold a in Hr2. simpl fst in Hr2.
      assert (12 <= total (b :: mid)) as Htm by (destruct Hr2 as [(? & _) Hr2]; destruct (row_total _ _ _ Hr2); simpl; lia).
      replace (u32 (a + n)) with (a + n) by (unfold u32; rewrite Z.mod_small; lia). rewrite (proj2 (Z.eqb_neq (a + n) x)) by lia.
      replace (l1 ++ (n, Free) :: (b :: mid) ++ (n2, Free) :: l3) with ((l1 ++ (n, Free) :: b :: mid) ++ (n2, Free) :: l3) in * by (by rewrite <- app_assoc).
      assert (start (allocator h) + total (l1 ++ (n, Free) :: b :: mid) = x) as Hat by (rewrite total_app; simpl in *; lia).
      destruct (IH h (l1 ++ (n, Free) :: b :: mid) n2 l3 Hinv) as (m' & bl' & Hl & Hi & Hlive & Hc').
      * rewrite <- app_assoc. simpl. by apply (coalesced_app (a + n) l1 n (b :: mid)).
      * rewrite Hat. simpl in Hf. lia.
      * rewrite Hat in Hl. exists m', bl'. split; [exact Hl|]. split; [exact Hi|]. by split.
Qed.

Lemma merge_ok h bl :
  heap_inv h bl ->
  exists h' bl', merge_free_areas h = Some h' /\ heap_inv h' bl' /\ live bl' = live bl /\ coalesced bl' /\
    allocator h' = allocator h /\ frames h' = frames h.
Proof.
  intros Hinv. pose proof (hi_linked _ _ Hinv) as Hl. pose proof (fuel_enough _ _ Hinv) as Hf. unfold merge_free_areas.
  destruct (free_nodes (start (allocator h)) bl) as [|x R] eqn:E.
  - destruct (hi_last _ _ Hinv) as (l & n & ->). by apply free_nodes_last in E.
  - destruct (first_free_split _ _ _ _ E) as (mid & n & l3 & -> & Hx & Hmid & ->). destruct Hl as [-> _].
    destruct (merge_loop_ok (S (node_fuel (allocator h))) h mid n l3 Hinv) as (m' & bl' & Hm & Hi & Hlive & Hc).
    + by apply (coalesced_tail (start (allocator h))).
    + rewrite <- Hx. simpl in Hf. lia.
    + rewrite <- Hx in Hm. rewrite Hm. cbn [mbind option_bind]. eexists _, bl'. split; [done|]. done.
Qed.

Lemma dealloc_ok h l1 n (ptr len : Z) l2 :
  heap_inv h (l1 ++ (n, Live ptr len) :: l2) ->
  exists h' bl', ListAllocator.dealloc h ptr = Some h' /\ heap_inv h' bl' /\ live bl' = live l1 ++ live l2 /\ coalesced bl' /\
    start (allocator h') = start (allocator h) /\ size (allocator h') = size (allocator h) /\ frames h' = frames h.
Proof.
  intros Hinv. destruct (live_place _ _ _ _ _ _ Hinv) as (Hn & H4 & Hsa & Hle & Ha & Hm & Hs & Hp & Hpad & Hlen & Hend).
  set (a := start (allocator h) + total l1) in *. destruct (hi_end _ _ Hinv) as [He _]. unfold heap_end in *.
  destruct (relist_ok h l1 n ptr len l2 Hinv) as (h1 & Hr & Hinv1 & Hst & Hsz & Hfr). fold a in Hr.
  destruct (merge_ok h1 _ Hinv1) as (h' & bl' & Hmg & Hinv' & Hlive & Hco & Hal & Hfr').
  exists h', bl'. rewrite Hlive, !live_tiles_app, Hal, Hfr'. split; [|done].
  unfold ListAllocator.dealloc. replace (u32 (start (allocator h) + size (allocator h))) with (start (allocator h) + size (allocator h)) by (unfold u32; rewrite Z.mod_small; lia).
  rewrite (proj2 (Z.ltb_ge ptr _)), (proj2 (Z.ltb_ge _ ptr)) by lia. simpl orb. cbv iota.
  assert (find_node_from_allocated_ptr (mem h) ptr = a) as ->.
  { unfold find_node_from_allocated_ptr, HEADER_SIZE. replace (u32 (ptr - 4)) with (ptr - 4) by (unfold u32; rewrite Z.mod_small; lia).
    rewrite Hpad. replace (ptr - (ptr - a - 8)) with (a + 8) by lia. unfold u32. rewrite !Z.mod_small; rewrite ?Z.mod_small; lia. }
  unfold AllocNode.is_valid, AllocNode.is_free, AllocNode.size_field. destruct (node_words a ltac:(lia) ltac:(lia)) as [-> _].
  rewrite Hm, Hs, Z.eqb_refl, high31 by lia. simpl negb. cbv iota.
  replace ((2 ^ 31 + n) mod 2 ^ 31) with n by (rewrite Z.add_comm; change (2 ^ 31) with (1 * 2 ^ 31) at 1; rewrite Z.mod_add, Z.mod_small; lia).
  rewrite (proj2 (Z.eqb_neq _ 0)) by lia. transitivity (h1 ← relist h a; merge_free_areas h1); [reflexivity|]. by rewrite Hr.
Qed.
End Release.

(** ** Histories *)

(** A heap with the blocks its clients hold. *)
Definition history : Type := heap * list (Z * Z).

(** Clients allocate, release what they hold, and write words inside it. *)
Inductive heap_step : history -> history -> Prop :=
| hs_alloc h L layout p h' :
    sane h layout -> can_grow h -> ListAllocator.alloc h layout = Some (p, h') -> p <> 0 ->
    heap_step (h, L) (h', (p, layout_size layout) :: L)
| hs_fail h L layout h' :
    sane h layout -> can_grow h -> ListAllocator.alloc h layout = Some (0, h') -> heap_step (h, L) (h', L)
| hs_expand h L pages h' :
    0 <= pages -> heap_end h + 0x1000 * pages < 2 ^ 32 -> size (allocator h) + 0x1000 * pages < 2 ^ 31 ->
    expand h pages = Some h' -> heap_step (h, L) (h', L)
| hs_dealloc h L1 ptr len L2 h' :
    ListAllocator.dealloc h ptr = Some h' -> heap_step (h, L1 ++ (ptr, len) :: L2) (h', L1 ++ L2)
| hs_write h L ptr len w v :
    (ptr, len) ∈ L -> (4 | w) -> ptr <= w < ptr + len -> heap_step (h, L) (with_mem h (poke (mem h) w v), L).

Inductive heap_reachable (s0 : history) : history -> Prop :=
| hr_refl : heap_reachable s0 s0
| hr_step s s' : heap_reachable s0 s -> heap_step s s' -> heap_reachable s0 s'.

Definition boot_heap (m : memory) (location byte_size : Z) (n : nat) : heap :=
  let '(al, m) := ListAllocator.new m location byte_size in {| allocator := al; mem := m; frames := n |}.

Section Histories.
Implicit Types (h : heap) (bl : list tile) (L : list (Z * Z)).

Definition history_inv (s : history) : Prop := exists bl, heap_inv s.1 bl /\ live bl ≡ₚ s.2.

Lemma heap_boot_inv m (location byte_size : Z) (n : nat) :
  0 < location -> (4 | location) -> 12 <= byte_size < 2 ^ 31 -> (4 | byte_size) -> location + byte_size < 2 ^ 32 ->
  history_inv (boot_heap m location byte_size n, []).
Proof.
  intros Hl Hl4 Hb Hb4 Hend. exists [(byte_size, Free)]. split; [|done]. unfold boot_heap, ListAllocator.new. simpl.
  split; simpl; rewrite ?init_peek by lia.
  - repeat split; simpl; [lia|done|by peeks..].
  - lia.
  - done.
  - unfold heap_end. simpl. lia.
  - split; [done|]. by peeks.
  - by exists [], byte_size.
Qed.

Lemma live_elem bl ptr len : (ptr, len) ∈ live bl -> exists l1 n l2, bl = l1 ++ (n, Live ptr len) :: l2.
Proof.
  induction bl as [|[n k] bl IH]; intros Hin; simpl in *; [by apply elem_of_nil in Hin|].
  destruct k as [|p' len'|]; [|apply elem_of_cons in Hin as [Heq|Hin]; [simplify_eq; by exists [], n, bl|]|];
    destruct (IH Hin) as (l1 & n1 & l2 & ->); [by exists ((n, Free) :: l1), n1, l2|by exists ((n, Live p' len') :: l1), n1, l2|by exists ((n, Lost) :: l1), n1, l2].
Qed.

(** A client only changes the data of its block. *)
Lemma write_inv h l1 n ptr len l2 (w v : Z) :
  heap_inv h (l1 ++ (n, Live ptr len) :: l2) -> ptr <= w < ptr + len ->
  heap_inv (with_mem h (poke (mem h) w v)) (l1 ++ (n, Live ptr len) :: l2).
Proof.
  intros Hinv Hw. destruct (live_place _ _ _ _ _ _ Hinv) as (Hn & H4 & Hsa & Hle & Ha & Hm & Hs & Hp & Hpad & Hlen & Hend).
  destruct (live_path _ _ _ _ _ _ Hinv) as (q & HpL & HpR & _ & HL & _). destruct (tile_place h l1 _ l2 Hinv) as ((_ & _ & Ht) & _).
  set (a := start (allocator h) + total l1) in *.
  apply (splice_inv h (with_mem h (poke (mem h) w v)) l1 [(n, Live ptr len)] [(n, Live ptr len)] l2 q); [done|done|done|done| | | | |];
    fold a; simpl total; rewrite ?Z.add_0_r; simpl.
  - split; [|done]. split; [simpl; lia|]. split; [done|]. simpl in *. destruct Ht as (? & ? & ? & ? & ? & ? & ?).
    repeat split; try done; by peeks.
  - intros w'. destruct (decide (w' = w)); [right; left; lia|left]. by peeks.
  - done.
  - rewrite free_nodes_app, app_nil_r. apply (path_ext (mem h)); [|done]. intros x Hx. destruct (HL x Hx). by peeks.
  - intros ->. destruct (hi_last _ _ Hinv) as (l & k & [_ ?]%app_inj_tail). done.
Qed.

Lemma expand_frames h (pages : Z) h' : expand h pages = Some h' -> 0 <= pages -> pages <= Z.of_nat (frames h).
Proof.
  intros H Hp. unfold expand in H. apply bind_Some in H as (x & _ & H). unfold map_pages in H. simpl in H. case_decide; [lia|done].
Qed.

Lemma heap_step_inv s s' : history_inv s -> heap_step s s' -> history_inv s'.
Proof.
  intros (bl & Hinv & Hperm) Hstep. destruct Hstep as [h L layout p h' Hs Hg Ha Hp|h L layout h' Hs Hg Ha|h L pages h' Hp He Hsz Hx|h L1 ptr len L2 h' Hd|h L ptr len w v Hin H4 Hw]; simpl in *.
  - destruct (alloc_ok h bl layout Hinv Hs Hg) as (p' & h2 & Ha' & Hr). rewrite Ha in Ha'. simplify_eq.
    destruct Hr as [(? & _)|(_ & _ & bl' & A & B & Hi & Hl & Hl' & _)]; [done|]. exists bl'. split; [done|]. simpl.
    by rewrite Hl', <- Hperm, Hl, Permutation_middle.
  - destruct (alloc_ok h bl layout Hinv Hs Hg) as (p' & h2 & Ha' & Hr). rewrite Ha in Ha'. simplify_eq.
    destruct Hr as [(_ & -> & _)|(? & _)]; [by exists bl|lia].
  - destruct (hi_last _ _ Hinv) as (l & n & ->).
    destruct (expand_ok h l n pages Hinv Hp He Hsz (expand_frames _ _ _ Hx Hp)) as (h2 & Hx' & Hi & _). simplify_eq.
    exists (l ++ [(n + 0x1000 * pages, Free)]). split; [done|]. simpl. by rewrite live_tiles_app in *.
  - destruct (live_elem bl ptr len) as (l1 & n & l2 & ->); [rewrite Hperm; set_solver|].
    destruct (dealloc_ok h l1 n ptr len l2 Hinv) as (h2 & bl' & Hd' & Hi & Hl & _). simplify_eq. exists bl'. split; [done|]. simpl.
    rewrite Hl. rewrite live_tiles_app in Hperm. simpl in Hperm. by apply Permutation_app_inv in Hperm.
  - destruct (live_elem bl ptr len) as (l1 & n & l2 & ->); [by rewrite Hperm|].
    exists (l1 ++ (n, Live ptr len) :: l2). split; [by apply write_inv|done].
Qed.

Lemma heap_reachable_inv s0 s : history_inv s0 -> heap_reachable s0 s -> history_inv s.
Proof. intros H0. induction 1; [done|]. by eapply heap_step_inv. Qed.

(** Live blocks are in the order of their addresses. *)
Lemma live_range m a bl ptr len : row m a bl -> (ptr, len) ∈ live bl -> a + 12 <= ptr /\ 0 <= len /\ ptr + len <= a + total bl.
Proof.
  revert a. induction bl as [|[n k] bl IH]; intros a Hr Hin; simpl in *; [by apply elem_of_nil in Hin|].
  destruct Hr as [(Hn & _ & Hk) Hr]. simpl in *. destruct (row_total _ _ _ Hr). destruct k as [|p' len'|].
  - specialize (IH _ Hr Hin). lia.
  - apply elem_of_cons in Hin as [Heq|Hin]; [simplify_eq; lia|]. specialize (IH _ Hr Hin). lia.
  - specialize (IH _ Hr Hin). lia.
Qed.

Lemma live_sorted m a bl i j x y : row m a bl -> live bl !! i = Some x -> live bl !! j = Some y -> (i < j)%nat -> x.1 + x.2 + 12 <= y.1.
Proof.
  revert a i j. induction bl as [|[n k] bl IH]; intros a i j Hr Hi Hj Hij; simpl in *; [done|].
  destruct Hr as [(Hn & _ & Hk) Hr]. simpl in *. destruct k as [|p' len'|]; [by eapply IH| |by eapply IH].
  destruct i as [|i], j as [|j]; simplify_eq/=; try lia.
  - apply list_elem_of_lookup_2 in Hj. destruct y as [p2 n2]. pose proof (live_range _ _ _ _ _ Hr Hj). simpl. lia.
  - eapply (IH _ i j Hr); [done|done|lia].
Qed.

(** Two blocks that do not share a byte. *)
Definition apart (x y : Z * Z) : Prop := x.1 + x.2 + 12 <= y.1 \/ y.1 + y.2 + 12 <= x.1.

Lemma blocks_apart h L i j x y : history_inv (h, L) -> L !! i = Some x -> L !! j = Some y -> i <> j -> apart x y.
Proof.
  intros (bl & Hinv & Hperm) Hi Hj Hne. simpl in *. symmetry in Hperm. apply Permutation_inj in Hperm as (_ & f & Hf & Hperm).
  rewrite Hperm in Hi, Hj. assert (f i <> f j) by (intros ?; by apply Hne, Hf). destruct (decide (f i < f j)%nat).
  - left. by apply (live_sorted _ _ bl (f i) (f j) x y (hi_row _ _ Hinv)).
  - right. apply (live_sorted _ _ bl (f j) (f i) y x (hi_row _ _ Hinv)); [done|done|lia].
Qed.
End Histories.

(** ** The kernel's allocator *)

Section Global.
Implicit Types (h : heap) (bl : list tile) (L : list (Z * Z)).

Definition pages_needed (layout : Layout) : Z := layout_size layout / 0x1000 + 1.

(** Frames and address space for two rounds of growing the heap. *)
Definition roomy h (layout : Layout) : Prop :=
  let growth := 0x1000 * (2 * pages_needed layout + 1) in
  pow2 (layout_align layout) /\ layout_align layout <= 0x1000 /\ 0 <= layout_size layout /\
  heap_end h + growth + layout_align layout + layout_size layout < 2 ^ 32 /\ size (allocator h) + growth < 2 ^ 31 /\
  2 * pages_needed layout + 1 <= Z.of_nat (frames h).

(** [k] rounds of growing are left. *)
Definition roomy_for h (layout : Layout) (k : Z) : Prop :=
  let growth := 0x1000 * (k * pages_needed layout + 1) in
  heap_end h + growth + layout_align layout + layout_size layout < 2 ^ 32 /\ size (allocator h) + growth < 2 ^ 31 /\
  k * pages_needed layout + 1 <= Z.of_nat (frames h).

Lemma no_fit_last layout a l n : no_fit layout a (l ++ [(n, Free)]) -> ~ fits layout (a + total l) n.
Proof.
  revert a. induction l as [|[k kd] l IH]; intros a; simpl; [rewrite Z.add_0_r; intros [H _]; by apply H|].
  intros [_ H]. apply IH in H. by rewrite Z.add_assoc.
Qed.

(** One round: the allocation succeeds, or the last free block is too small. *)
Lemma alloc_round h L l n (layout : Layout) (k : Z) :
  pow2 (layout_align layout) -> 0 <= layout_size layout -> 0 <= k -> roomy_for h layout k -> heap_inv h (l ++ [(n, Free)]) ->
  (exists p h', ListAllocator.alloc h layout = Some (p, h') /\ 0 < p /\ (layout_align layout | p) /\
     heap_step (h, L) (h', (p, layout_size layout) :: L)) \/
  (ListAllocator.alloc h layout = Some (0, h) /\ ~ fits layout (start (allocator h) + total l) n).
Proof.
  intros Hp Hsz Hk (Hr1 & Hr2 & Hr3) Hinv. assert (0 <= pages_needed layout) by (unfold pages_needed; pose proof (Z.div_pos (layout_size layout) 0x1000); lia).
  assert (0 <= k * pages_needed layout) by (by apply Z.mul_nonneg_nonneg).
  assert (0 < layout_align layout) by (destruct Hp as (e & ? & ->); apply Z.pow_pos_nonneg; lia).
  assert (sane h layout) as Hs by (split; [done|]; lia). assert (can_grow h) as Hg by (repeat split; lia).
  destruct (alloc_ok h _ layout Hinv Hs Hg) as (p & h' & Ha & [(-> & -> & Hno)|(Hpos & Hdiv & _)]).
  - right. split; [done|]. by apply no_fit_last in Hno.
  - left. exists p, h'. split; [done|]. split; [done|]. split; [done|]. apply hs_alloc; [done|done|done|lia].
Qed.

(** One round of growing. *)
Lemma expand_round h L l n (layout : Layout) (k : Z) :
  0 <= layout_align layout -> 0 <= layout_size layout -> 0 <= k -> roomy_for h layout (k + 1) -> heap_inv h (l ++ [(n, Free)]) ->
  exists h', expand h (pages_needed layout) = Some h' /\ heap_step (h, L) (h', L) /\
    heap_inv h' (l ++ [(n + 0x1000 * pages_needed layout, Free)]) /\ roomy_for h' layout k /\ start (allocator h') = start (allocator h).
Proof.
  intros Hal Hsz Hk (Hr1 & Hr2 & Hr3) Hinv. assert (0 < pages_needed layout) by (unfold pages_needed; pose proof (Z.div_pos (layout_size layout) 0x1000); lia).
  assert (0 <= k * pages_needed layout) by (apply Z.mul_nonneg_nonneg; lia).
  destruct (expand_ok h l n (pages_needed layout)) as (h' & Hx & Hinv' & Hst & Hsz' & Hfr); [done|lia|lia|lia|lia|].
  exists h'. split; [done|]. split; [apply (hs_expand _ _ (pages_needed layout)); [lia|lia|lia|done]|]. split; [done|]. split; [|done].
  unfold roomy_for, heap_end in *. rewrite Hst, Hsz', Hfr. lia.
Qed.
End Global.

Module HeapProps.


(** C28: with an alignment of at most a page, and frames and address space to
    grow, the kernel's [alloc] returns after growing the heap at most twice,
    with an aligned pointer; the history goes on from there. *)
Theorem heap_alloc_returns (m : memory) (location byte_size : Z) (n : nat) (h : heap) (L : list (Z * Z)) (layout : Layout) :
  0 < location -> (4 | location) -> 12 <= byte_size < 2 ^ 31 -> (4 | byte_size) -> location + byte_size < 2 ^ 32 ->
  heap_reachable (boot_heap m location byte_size n, []) (h, L) -> roomy h layout ->
  exists p h', GlobalAlloc.alloc 3 h layout = Some (p, h') /\ 0 < p /\ (layout_align layout | p) /\
    heap_reachable (boot_heap m location byte_size n, []) (h', (p, layout_size layout) :: L).
Proof.
  intros Hl Hl4 Hb Hb4 He Hr (Hp & Hal & Hsz & Hroom).
  destruct (heap_reachable_inv _ _ (heap_boot_inv m location byte_size n Hl Hl4 Hb Hb4 He) Hr) as (bl & Hinv & _). simpl in Hinv.
  destruct (hi_last _ _ Hinv) as (l & k & ->). assert (0 < layout_align layout) by (destruct Hp as (e & ? & ->); apply Z.pow_pos_nonneg; lia).
  assert (roomy_for h layout (1 + 1)) as Hr2 by exact Hroom. clear Hroom. cbn [GlobalAlloc.alloc].
  destruct (alloc_round h L l k layout (1 + 1) Hp Hsz ltac:(lia) Hr2 Hinv) as [(p & h' & -> & Hpos & Hdiv & Hst)|[-> _]].
  { cbn [mbind option_bind]. rewrite (proj2 (Z.eqb_neq p 0)) by lia. eexists p, h'. split; [done|]. split; [done|]. split; [done|]. by eapply hr_step. }
  destruct (expand_round h L l k layout 1 ltac:(lia) Hsz ltac:(lia) Hr2 Hinv) as (h1 & Hx1 & Hs1 & Hinv1 & Hr1 & Hst1).
  cbn [mbind option_bind]. rewrite Z.eqb_refl. fold (pages_needed layout). rewrite Hx1. cbn [mbind option_bind].
  destruct (alloc_round h1 L l _ layout 1 Hp Hsz ltac:(lia) Hr1 Hinv1) as [(p & h' & -> & Hpos & Hdiv & Hst)|[-> _]].
  { cbn [mbind option_bind]. rewrite (proj2 (Z.eqb_neq p 0)) by lia. eexists p, h'. split; [done|]. split; [done|]. split; [done|].
    eapply hr_step; [|done]. by eapply hr_step. }
  destruct (expand_round h1 L l _ layout 0 ltac:(lia) Hsz ltac:(lia) Hr1 Hinv1) as (h2 & Hx2 & Hs2 & Hinv2 & Hr0 & Hst2).
  cbn [mbind option_bind]. rewrite Z.eqb_refl. rewrite Hx2. cbn [mbind option_bind].
  destruct (alloc_round h2 L l _ layout 0 Hp Hsz ltac:(lia) Hr0 Hinv2) as [(p & h' & -> & Hpos & Hdiv & Hst)|[_ Hno]].
  { cbn [mbind option_bind]. rewrite (proj2 (Z.eqb_neq p 0)) by lia. eexists p, h'. split; [done|]. split; [done|]. split; [done|].
    eapply hr_step; [|done]. eapply hr_step; [|done]. by eapply hr_step. }
  exfalso. apply Hno. unfold fits. pose proof (align_up_bounds (start (allocator h2) + total l + 12) (layout_align layout) ltac:(lia)) as [? _].
  pose proof (hi_row _ _ Hinv) as [_ [(? & _) _]]%row_app. simpl in *.
  assert (layout_size layout < 0x1000 * pages_needed layout) by (unfold pages_needed; pose proof (Z.div_mod (layout_size layout) 0x1000); pose proof (Z.mod_pos_bound (layout_size layout) 0x1000); lia).
  lia.
Qed.

(** *** A small heap *)

Definition small : heap := boot_heap ∅ 0x1000 0x2000 8.
Definition words (n : Z) : Layout := {| layout_size := 4 * n; layout_align := 4 |}.

Fixpoint alloc_all (h : heap) (l : list Layout) : heap :=
  match l with
  | [] => h
  | layout :: l => match ListAllocator.alloc h layout with Some (_, h) => alloc_all h l | None => h end
  end.

Lemma pow2_4 : pow2 4.
Proof. exists 2. split; [lia|done]. Qed.


Lemma heap_alloc_witness :
  exists p h', GlobalAlloc.alloc 3 (boot_heap ∅ 0x1000 0x2000 16) (words 0x1000) = Some (p, h') /\ 0 < p /\ (layout_align (words 0x1000) | p) /\
    heap_reachable (boot_heap ∅ 0x1000 0x2000 16, []) (h', (p, layout_size (words 0x1000)) :: []).
Proof.
  apply (heap_alloc_returns ∅ 0x1000 0x2000 16); [lia|by exists 0x400|lia|by exists 0x800|lia|apply hr_refl|].
  split; [exact pow2_4|]. vm_compute. repeat split; done.
Defined.

Lemma heap_trans s0 s1 s2 : heap_reachable s0 s1 -> heap_reachable s1 s2 -> heap_reachable s0 s2.
Proof. intros H1 H2. induction H2; [done|]. by eapply hr_step. Qed.

Lemma heap_first s0 s1 (P : heap -> Prop) :
  heap_step s0 s1 -> (exists h, heap_reachable s1 (h, []) /\ P h) -> exists h, heap_reachable s0 (h, []) /\ P h.
Proof. intros Hs (h & Hr & HP). exists h. split; [|done]. eapply heap_trans; [|done]. eapply hr_step; [apply hr_refl|done]. Qed.

Ltac then_alloc n :=
  eapply heap_first; [eapply (hs_alloc _ _ (words n)); [split; [exact pow2_4|vm_compute; done]|repeat split; vm_compute; lia|vm_compute; reflexivity|lia]|].
Ltac then_release L1 := eapply heap_first; [eapply (hs_dealloc _ L1); vm_compute; reflexivity|]; simpl app.

(** After a request has used up a block behind a smaller free one, the smaller
    one is on no list any more: releasing everything does not bring it back. *)
Lemma exact_fit_loses_block :
  exists h, heap_reachable (small, []) (h, []) /\ start (allocator h) < first_free (allocator h) /\
    AllocNode.get_next (mem h) (first_free (allocator h)) = 0.
Proof.
  then_alloc 4. then_alloc 4. then_alloc 20. then_alloc 4.
  then_release [(0x10a0, 16); (0x1044, 80); (0x1028, 16)]. then_release [(0x10a0, 16)].
  then_alloc 20. then_release (@nil (Z * Z)). then_release (@nil (Z * Z)). then_release (@nil (Z * Z)).
  eexists. split; [apply hr_refl|]. vm_compute. done.
Qed.

(** an allocation whose end wraps around the address space is accepted: the
    pointer returned has less than the requested space behind it, and the
    header of the remaining free block is written to an address outside the
    heap. *)
Theorem huge_alloc_wraps :
  exists p h', ListAllocator.alloc (boot_heap ∅ 0xC0100000 0x2000 8) {| layout_size := 0x7ff00000; layout_align := 4 |} = Some (p, h') /\
    p <> 0 /\ heap_end h' < p + 0x7ff00000 /\ first_free (allocator h') < start (allocator h').
Proof. eexists _, _. split; [vm_compute; reflexivity|]. vm_compute. repeat split; done. Qed.
End HeapProps.
