(* ===== verification/Collections.v ===== *)
(** * Kernel collections

    [kernel/src/collections/slotlist.rs], [kernel/src/collections/refcount.rs],
    the handle table of [kernel/src/io/handle.rs] and the async IO table of
    [kernel/src/io/async_io.rs].  A [Vec] is a list, a [usize] index into it a
    [nat], a [BTreeMap] a [gmap]; an out-of-bounds index is [None] of the panic
    monad. *)

From S2P Require Import Prelude.

Module SlotList.
Section Defs.
Context {T : Type}.

(** The list of slots: [None] marks a slot that can be reused. *)
Record t := { slots : list (option T) }.

Definition new : t := {| slots := [] |}.

(** The scan of [find_empty_slot] for the first empty slot. *)
Fixpoint find_loop (l : list (option T)) (index : nat) : option nat :=
  match l with
  | [] => None
  | None :: _ => Some index
  | Some _ :: l => find_loop l (S index)
  end.

Definition find_empty_slot (self : t) : nat * t :=
  match find_loop (slots self) 0 with
  | Some i => (i, self)
  | None =>
      let last := length (slots self) in
      (last, {| slots := slots self ++ [None] |})
  end.

Definition insert (self : t) (item : T) : option (nat * t) :=
  let '(index, self) := find_empty_slot self in
  s ← vec_set (slots self) index (Some item);
  Some (index, {| slots := s |}).

Definition get (self : t) (index : nat) : option T :=
  slot ← slots self !! index; slot.

(** [Vec::get_mut] then [Option::take]. *)
Definition remove (self : t) (index : nat) : option T * t :=
  match slots self !! index with
  | None => (None, self)
  | Some prev => (prev, {| slots := <[index := None]> (slots self) |})
  end.

(** The [while] loop pushes [None] until the index exists. *)
Definition grow_to (l : list (option T)) (index : nat) : list (option T) :=
  l ++ replicate (S index - length l) None.

Definition replace (self : t) (index : nat) (item : T) : option T * t :=
  let grown := grow_to (slots self) index in
  match grown !! index with
  | None => (None, {| slots := grown |})
  | Some prev => (prev, {| slots := <[index := Some item]> grown |})
  end.

Definition len (self : t) : nat := length (slots self).

Definition iter (self : t) : list T := omap id (slots self).

Definition enumerate (self : t) : list (nat * T) :=
  omap (fun '(index, i) => (fun x => (index, x)) <$> i) (imap pair (slots self)).

(** The finite map a slot list stands for. *)
Definition represents (m : gmap nat T) (self : t) : Prop :=
  forall i, get self i = m !! i.
End Defs.
Arguments t : clear implicits.
End SlotList.

Module RefCountMap.
Record t := { map : gmap Z Z }.
Definition new : t := {| map := ∅ |}.

Definition add_reference (self : t) (k : Z) : Z * t :=
  match map self !! k with
  | Some count =>
      let count := u32 (count + 1) in
      (count, {| map := <[k := count]> (map self) |})
  | None => (1, {| map := <[k := 1]> (map self) |})
  end.

Definition remove_reference (self : t) (k : Z) : Z * t :=
  match map self !! k with
  | Some count =>
      let count := saturating_sub count 1 in
      if 0 <? count then (count, {| map := <[k := count]> (map self) |})
      else (0, {| map := delete k (map self) |})
  | None => (0, self)
  end.

Definition contains (self : t) (k : Z) : bool :=
  bool_decide (is_Some (map self !! k)).
End RefCountMap.

(** [HandleTable<T>] wraps a slot list; a [Handle] is an index. *)
Module HandleTable.
Section Defs.
Context {T : Type}.
Record t := { inner : SlotList.t T }.
Definition new : t := {| inner := SlotList.new |}.

Definition insert (self : t) (value : T) : option (nat * t) :=
  '(index, s) ← SlotList.insert (inner self) value;
  Some (index, {| inner := s |}).
Definition get (self : t) (handle : nat) : option T := SlotList.get (inner self) handle.
Definition remove (self : t) (handle : nat) : option T * t :=
  let '(r, s) := SlotList.remove (inner self) handle in (r, {| inner := s |}).
Definition replace (self : t) (handle : nat) (value : T) : option T * t :=
  let '(r, s) := SlotList.replace (inner self) handle value in (r, {| inner := s |}).
Definition iter (self : t) : list (nat * T) := SlotList.enumerate (inner self).
End Defs.
Arguments t : clear implicits.
End HandleTable.

(** [AsyncIOTable]: IO objects under a fresh number each, with a count of the
    handles that refer to them.  The type of IO objects is a parameter. *)
Module AsyncIOTable.
Section Defs.
Context {IO : Type}.
Record entry := { ref_count : Z; io_type : IO }.
Record t := { next : Z; inner : gmap Z entry }.
Definition new : t := {| next := 1; inner := ∅ |}.

Definition insert (self : t) (io : IO) : Z * t :=
  let index := next self in
  (index, {| next := u32 (next self + 1);
             inner := <[index := {| ref_count := 1; io_type := io |}]> (inner self) |}).
Definition add_io (self : t) (io : IO) : Z * t := insert self io.
Definition get (self : t) (index : Z) : option entry := inner self !! index.
Definition get_reference_count (self : t) (index : Z) : option Z :=
  e ← inner self !! index; Some (ref_count e).

Definition add_reference (self : t) (index : Z) : option Z * t :=
  match inner self !! index with
  | None => (None, self)
  | Some e =>
      let count := u32 (ref_count e + 1) in
      (Some count,
       {| next := next self;
          inner := <[index := {| ref_count := count; io_type := io_type e |}]> (inner self) |})
  end.

(** [fetch_sub] returns the count before the subtraction. *)
Definition remove_reference (self : t) (index : Z) : option IO * t :=
  match inner self !! index with
  | None => (None, self)
  | Some e =>
      let count := ref_count e in
      if 1 <? count then
        (None, {| next := next self;
                  inner := <[index := {| ref_count := u32 (count - 1); io_type := io_type e |}]>
                             (inner self) |})
      else (Some (io_type e), {| next := next self; inner := delete index (inner self) |})
  end.
End Defs.
Arguments t : clear implicits.
Arguments entry : clear implicits.
End AsyncIOTable.

(** ** Lemmas *)

Module SlotListFacts.
Import SlotList.
Section Facts.
Context {T : Type}.
Implicit Types (s : SlotList.t T) (l : list (option T)).

Lemma find_loop_spec l k :
  match find_loop l k with
  | Some i => exists j, i = (k + j)%nat /\ l !! j = Some None /\
                forall j', (j' < j)%nat -> exists x, l !! j' = Some (Some x)
  | None => forall j y, l !! j = Some y -> is_Some y
  end.
Proof.
  revert k. induction l as [|[x|] l IH]; intros k; simpl; [done| |].
  - specialize (IH (S k)). destruct find_loop as [i|].
    + destruct IH as (j & -> & Hj & Hlt). exists (S j). split; [lia|]. split; [done|].
      intros [|j'] Hj'; [by eexists|]. apply Hlt. lia.
    + intros [|j] y Hy; [by simplify_eq/=|]. by eapply IH.
  - exists O. split; [lia|]. split; [done|]. intros; lia.
Qed.

(** Removing the empty-slot case split: the slot chosen is the lowest index
    without an item, whether it existed or was appended. *)
Lemma insert_spec s x :
  exists i s', insert s x = Some (i, s') /\ get s i = None /\
    (forall j, (j < i)%nat -> is_Some (get s j)) /\
    (forall j, get s' j = if decide (j = i) then Some x else get s j).
Proof.
  destruct s as [l]. unfold insert, find_empty_slot, get; simpl.
  pose proof (find_loop_spec l 0) as Hf. destruct (find_loop l 0) as [i|].
  - destruct Hf as (j & -> & Hj & Hlt). simpl.
    rewrite vec_set_ok by (by eapply lookup_lt_Some).
    eexists _, _. split; [done|]. rewrite Hj. split; [done|]. split.
    + intros j' Hj'. destruct (Hlt j' Hj') as [y ->]. by eexists.
    + intros j'. simpl. case_decide; subst.
      * rewrite list_lookup_insert_eq; [done|]. by eapply lookup_lt_Some.
      * by rewrite list_lookup_insert_ne.
  - simpl. rewrite vec_set_ok by (rewrite length_app; simpl; lia).
    eexists _, _. split; [done|]. split; [by rewrite lookup_ge_None_2|]. split.
    + intros j Hj. apply lookup_lt_is_Some in Hj as [y Hy]. rewrite Hy. by apply (Hf j y).
    + intros j. simpl. case_decide; subst.
      * rewrite list_lookup_insert_eq; [done|]. rewrite length_app; simpl; lia.
      * rewrite list_lookup_insert_ne by done.
        destruct (decide (j < length l)%nat); [by rewrite lookup_app_l|].
        rewrite (lookup_ge_None_2 l), lookup_ge_None_2; [done|rewrite length_app; simpl|]; lia.
Qed.

Lemma remove_spec s i :
  (remove s i).1 = get s i /\
  forall j, get (remove s i).2 j = if decide (j = i) then None else get s j.
Proof.
  destruct s as [l]. unfold remove, get; simpl. destruct (l !! i) as [y|] eqn:Hi; simpl.
  - split; [by destruct y|]. intros j. case_decide; subst.
    + rewrite list_lookup_insert_eq; [done|]. by eapply lookup_lt_Some.
    + by rewrite list_lookup_insert_ne.
  - split; [done|]. intros j. case_decide; subst; [by rewrite Hi|done].
Qed.

Lemma grow_to_lookup l i j :
  (x ← grow_to l i !! j; x) = (x ← l !! j; x) /\ (i < length (grow_to l i))%nat.
Proof.
  unfold grow_to. split; [|rewrite length_app, length_replicate; lia].
  destruct (decide (j < length l)%nat); [by rewrite lookup_app_l|].
  rewrite lookup_app_r, (lookup_ge_None_2 l) by lia. simpl.
  destruct (replicate _ _ !! _) eqn:H; [|done]. by apply lookup_replicate in H as [-> _].
Qed.

Lemma replace_spec s i x :
  (replace s i x).1 = get s i /\
  forall j, get (replace s i x).2 j = if decide (j = i) then Some x else get s j.
Proof.
  destruct s as [l]. unfold replace, get; simpl.
  destruct (grow_to_lookup l i i) as [Hi Hlen].
  apply lookup_lt_is_Some in Hlen as [y Hy]. rewrite Hy in Hi |- *. simpl in *.
  split; [by rewrite <- Hi|]. intros j. case_decide; subst.
  - rewrite list_lookup_insert_eq; [done|]. by eapply lookup_lt_Some.
  - rewrite list_lookup_insert_ne by done. apply grow_to_lookup.
Qed.

Lemma enumerate_elem s i x : (i, x) ∈ enumerate s <-> get s i = Some x.
Proof.
  destruct s as [l]. unfold enumerate, get; simpl. rewrite list_elem_of_omap. split.
  - intros ([j y] & Hin & Hy). apply list_elem_of_lookup in Hin as [k Hk].
    rewrite list_lookup_imap in Hk. destruct (l !! k) eqn:Hl; simplify_eq/=.
    apply fmap_Some in Hy as (z & -> & ?). simplify_eq. by rewrite Hl.
  - intros H. apply bind_Some in H as (y & Hl & ->). exists (i, Some x). split; [|done].
    apply list_elem_of_lookup. exists i. by rewrite list_lookup_imap, Hl.
Qed.

Lemma enumerate_sorted_from l n :
  StronglySorted lt
    (omap (fun '(index, i) => (fun x => (index, x)) <$> i)
       (imap (fun k => pair (n + k)%nat) l)).*1 /\
  Forall (fun k => n <= k)%nat
    (omap (fun '(index, i) => (fun x : T => (index, x)) <$> i)
       (imap (fun k => pair (n + k)%nat) l)).*1.
Proof.
  revert n. induction l as [|o l IH]; intros n; [repeat constructor|].
  rewrite imap_cons. cbn [omap list_omap].
  rewrite (imap_ext _ (fun k => pair (S n + k)%nat) l)
    by (intros; simpl; f_equal; lia).
  destruct (IH (S n)) as [Hs Hf].
  assert (Hf' : Forall (fun k => n <= k)%nat
    (omap (fun '(index, i) => (fun x : T => (index, x)) <$> i)
       (imap (fun k => pair (S n + k)%nat) l)).*1) by (eapply Forall_impl; [done|simpl; lia]).
  destruct o as [x|]; simpl; [|done]. rewrite Nat.add_0_r.
  split; [constructor; [done|] | constructor; [lia|done]].
  eapply Forall_impl; [exact Hf|simpl; lia].
Qed.

Lemma enumerate_sorted s : StronglySorted lt (enumerate s).*1.
Proof. apply (enumerate_sorted_from (slots s) 0). Qed.

Lemma new_represents : represents ∅ (new : SlotList.t T).
Proof. intros i. by rewrite lookup_empty. Qed.
End Facts.
End SlotListFacts.

(** ** Properties *)

(** a slot list is a finite map with stable handles.  Whatever map it
    represents, [insert] succeeds and binds the item to the lowest unused
    index; [get], [remove] and [replace] act as lookup, deletion and update of
    the map and return the previous item; every other index keeps its item; and
    [enumerate] lists exactly the bindings, once each, by increasing index. *)
Theorem slot_list_refines_map {T} (m : gmap nat T) (s : SlotList.t T) :
  SlotList.represents m s ->
  (forall x, exists i s', SlotList.insert s x = Some (i, s') /\ m !! i = None /\
     (forall j, (j < i)%nat -> is_Some (m !! j)) /\
     SlotList.represents (<[i := x]> m) s') /\
  (forall i, SlotList.get s i = m !! i) /\
  (forall i, exists s', SlotList.remove s i = (m !! i, s') /\
     SlotList.represents (delete i m) s') /\
  (forall i x, exists s', SlotList.replace s i x = (m !! i, s') /\
     SlotList.represents (<[i := x]> m) s') /\
  (forall i x, (i, x) ∈ SlotList.enumerate s <-> m !! i = Some x) /\
  StronglySorted lt (SlotList.enumerate s).*1.
Proof.
  intros Hm. split; [|split; [done|split; [|split; [|split]]]].
  - intros x. destruct (SlotListFacts.insert_spec s x) as (i & s' & H & Hi & Hlt & Hs').
    exists i, s'. rewrite <- (Hm i). split; [done|]. split; [done|]. split.
    { intros j Hj. rewrite <- (Hm j). auto. }
    intros j. rewrite Hs', Hm. case_decide; subst; by simplify_map_eq.
  - intros i. destruct (SlotListFacts.remove_spec s i) as [H Hs'].
    exists (SlotList.remove s i).2. rewrite <- (Hm i), <- H, <- surjective_pairing.
    split; [done|]. intros j. rewrite Hs', Hm. case_decide; subst; by simplify_map_eq.
  - intros i x. destruct (SlotListFacts.replace_spec s i x) as [H Hs'].
    exists (SlotList.replace s i x).2. rewrite <- (Hm i), <- H, <- surjective_pairing.
    split; [done|]. intros j. rewrite Hs', Hm. case_decide; subst; by simplify_map_eq.
  - intros i x. rewrite <- Hm. apply SlotListFacts.enumerate_elem.
  - apply SlotListFacts.enumerate_sorted.
Qed.

Lemma slot_list_witness :
  exists s', SlotList.insert {| SlotList.slots := [Some 7; None; Some 9] |} 8 = Some (1%nat, s').
Proof.
  assert (H : SlotList.represents {[ 0%nat := 7; 2%nat := 9 ]}
                {| SlotList.slots := [Some 7; None; Some 9] |}).
  { intros [|[|[|i]]]; unfold SlotList.get; simpl; try by simplify_map_eq.
    all: by rewrite ?lookup_nil, !lookup_insert_ne, lookup_empty by lia. }
  destruct (slot_list_refines_map _ _ H) as [Hi _].
  destruct (Hi 8) as (i & s' & Hs & _). exists s'. rewrite Hs.
  vm_compute in Hs. by injection Hs as <- _.
Defined.
