(* ===== verification/RingBuffer.v ===== *)
(** * The lock-free ring buffer

    [kernel/src/collections/ringbuffer.rs]: a single-producer single-consumer
    queue of [Copy] values.  [RingBuffer] holds the two operations as they run
    without interference; [Concurrent] splits each into its atomic accesses, in
    program order, and lets the reader and the writer interleave freely. *)

From S2P Require Import Prelude.

Module RingBuffer.
Section Defs.
Context {T : Type}.

Record t := { data : list T; size : nat; write_index : nat; read_index : nat }.

Definition for_buffer (data : list T) : t :=
  {| data := data; size := length data - 1; write_index := 0; read_index := 0 |}.

(** [%] panics on an empty buffer. *)
Definition next_index (self : t) (current : nat) : option nat :=
  if decide (length (data self) = O) then None
  else Some ((current + 1) `mod` length (data self))%nat.

Definition store_data (self : t) (i : nat) (value : T) : option t :=
  d ← vec_set (data self) i value;
  Some {| data := d; size := size self;
          write_index := write_index self; read_index := read_index self |}.
Definition set_write_index (self : t) (i : nat) : t :=
  {| data := data self; size := size self; write_index := i; read_index := read_index self |}.
Definition set_read_index (self : t) (i : nat) : t :=
  {| data := data self; size := size self; write_index := write_index self; read_index := i |}.

Definition write (self : t) (value : T) : option (bool * t) :=
  let write_index := write_index self in
  next_index ← next_index self write_index;
  let read_index := read_index self in
  if decide (next_index = read_index) then Some (false, self)
  else
    self ← store_data self write_index value;
    Some (true, set_write_index self next_index).

Definition read (self : t) : option (option T * t) :=
  let read_index := read_index self in
  let write_index := write_index self in
  if decide (read_index = write_index) then Some (None, self)
  else
    value ← data self !! read_index;
    next_index ← next_index self read_index;
    Some (Some value, set_read_index self next_index).

Definition capacity (self : t) : nat := size self.
End Defs.
Arguments t : clear implicits.
End RingBuffer.

(** ** Interleavings *)

Module Concurrent.
Import RingBuffer.
Section Defs.
Context {T : Type}.

(** Where the writer is inside [write]: the values it has loaded so far. *)
Inductive writer :=
| WIdle
| WLoaded (value : T) (write_index : nat)
| WChecked (value : T) (write_index next_index : nat)
| WStored (value : T) (next_index : nat).

Inductive reader :=
| RIdle
| RLoaded (read_index : nat)
| RChecked (read_index : nat)
| RCopied (read_index : nat) (value : T).

Record cfg := { ring : RingBuffer.t T; w : writer; r : reader }.

(** What a completed call returned. *)
Inductive event := Wrote (value : T) (ok : bool) | Read (value : option T).

Inductive step : cfg -> list event -> cfg -> Prop :=
| write_load b rd v :
    step {| ring := b; w := WIdle; r := rd |} []
         {| ring := b; w := WLoaded v (write_index b); r := rd |}
| write_full b rd v wi :
    next_index b wi = Some (read_index b) ->
    step {| ring := b; w := WLoaded v wi; r := rd |} [Wrote v false]
         {| ring := b; w := WIdle; r := rd |}
| write_check b rd v wi n :
    next_index b wi = Some n -> n <> read_index b ->
    step {| ring := b; w := WLoaded v wi; r := rd |} []
         {| ring := b; w := WChecked v wi n; r := rd |}
| write_store b b' rd v wi n :
    store_data b wi v = Some b' ->
    step {| ring := b; w := WChecked v wi n; r := rd |} []
         {| ring := b'; w := WStored v n; r := rd |}
| write_publish b rd v n :
    step {| ring := b; w := WStored v n; r := rd |} [Wrote v true]
         {| ring := set_write_index b n; w := WIdle; r := rd |}
| read_load b wr :
    step {| ring := b; w := wr; r := RIdle |} []
         {| ring := b; w := wr; r := RLoaded (read_index b) |}
| read_empty b wr ri :
    ri = write_index b ->
    step {| ring := b; w := wr; r := RLoaded ri |} [Read None]
         {| ring := b; w := wr; r := RIdle |}
| read_check b wr ri :
    ri <> write_index b ->
    step {| ring := b; w := wr; r := RLoaded ri |} []
         {| ring := b; w := wr; r := RChecked ri |}
| read_copy b wr ri v :
    data b !! ri = Some v ->
    step {| ring := b; w := wr; r := RChecked ri |} []
         {| ring := b; w := wr; r := RCopied ri v |}
| read_publish b wr ri v n :
    next_index b ri = Some n ->
    step {| ring := b; w := wr; r := RCopied ri v |} [Read (Some v)]
         {| ring := set_read_index b n; w := wr; r := RIdle |}.

Inductive steps : cfg -> list event -> cfg -> Prop :=
| steps_refl c : steps c [] c
| steps_snoc c es c' es' c'' : steps c es c' -> step c' es' c'' -> steps c (es ++ es') c''.

Definition initial (buffer : list T) : cfg :=
  {| ring := for_buffer buffer; w := WIdle; r := RIdle |}.

Definition written (es : list event) : list T :=
  omap (fun e => match e with Wrote v true => Some v | _ => None end) es.
Definition received (es : list event) : list T :=
  omap (fun e => match e with Read o => o | _ => None end) es.
End Defs.
Arguments cfg : clear implicits.
Arguments event : clear implicits.
End Concurrent.

(** ** Lemmas *)

Lemma mod_wrap (x n : nat) :
  (x < 2 * n)%nat -> (x `mod` n)%nat = if decide (x < n)%nat then x else (x - n)%nat.
Proof.
  intros Hx. case_decide; [by apply Nat.mod_small|].
  replace x with (x - n + 1 * n)%nat at 1 by lia.
  rewrite Nat.Div0.mod_add. apply Nat.mod_small. lia.
Qed.

Section Invariant.
Import RingBuffer Concurrent.
Context {T : Type}.
Implicit Types (b : RingBuffer.t T) (q : list T).

(** The buffer holds the queue [q]: from the read index on, wrapping around,
    up to the write index; one cell always stays unused. *)
Record holds b q : Prop := {
  holds_read : (read_index b < length (data b))%nat;
  holds_write : write_index b = ((read_index b + length q) `mod` length (data b))%nat;
  holds_room : (length q < length (data b))%nat;
  holds_data : forall i x, q !! i = Some x ->
                 data b !! ((read_index b + i) `mod` length (data b))%nat = Some x
}.

Definition writer_ok b q (wr : writer) : Prop :=
  match wr with
  | WIdle => True
  | WLoaded v wi => wi = write_index b
  | WChecked v wi n =>
      wi = write_index b /\ next_index b wi = Some n /\ (S (length q) < length (data b))%nat
  | WStored v n =>
      next_index b (write_index b) = Some n /\ (S (length q) < length (data b))%nat /\
      data b !! write_index b = Some v
  end.

Definition reader_ok b q (rd : reader) : Prop :=
  match rd with
  | RIdle => True
  | RLoaded ri => ri = read_index b
  | RChecked ri => ri = read_index b /\ q <> []
  | RCopied ri v => ri = read_index b /\ q !! 0%nat = Some v
  end.

Definition inv (c : cfg T) (es : list (event T)) : Prop :=
  exists q, written es = received es ++ q /\ holds (ring c) q /\
    writer_ok (ring c) q (w c) /\ reader_ok (ring c) q (r c).

Lemma next_index_ok b i :
  (i < length (data b))%nat ->
  next_index b i = Some (if decide (S i < length (data b))%nat then S i else 0%nat).
Proof.
  intros Hi. unfold next_index. rewrite decide_False by lia.
  rewrite mod_wrap by lia. f_equal. repeat case_decide; lia.
Qed.

Lemma write_index_lt b q : holds b q -> (write_index b < length (data b))%nat.
Proof. intros [? -> ? ?]. apply Nat.mod_upper_bound. lia. Qed.

(** The writer sees the buffer full exactly when all but one cell is used. *)
Lemma full_iff b q :
  holds b q ->
  next_index b (write_index b) = Some (read_index b) <-> S (length q) = length (data b).
Proof.
  intros Hh. pose proof (write_index_lt b q Hh). destruct Hh as [Hr Hw Hl _].
  rewrite next_index_ok by done. rewrite mod_wrap in Hw by lia.
  split; [intros Heq; simplify_eq|intros Heq; f_equal]; repeat case_decide; lia.
Qed.

Lemma empty_iff b q : holds b q -> read_index b = write_index b <-> q = [].
Proof.
  intros [Hr Hw Hl _]. rewrite mod_wrap in Hw by lia. split.
  - intros Heq. apply length_zero_iff_nil. case_decide; lia.
  - intros ->. simpl in Hw. case_decide; lia.
Qed.

Lemma head_data b q v : holds b q -> q !! 0%nat = Some v -> data b !! read_index b = Some v.
Proof.
  intros [Hr _ _ Hd] Hq. specialize (Hd _ _ Hq). by rewrite Nat.add_0_r, Nat.mod_small in Hd.
Qed.

(** Storing at the write index leaves the queue alone; publishing the index
    appends the stored value; publishing the read index drops the head. *)
Lemma store_holds b b' q v :
  holds b q -> store_data b (write_index b) v = Some b' ->
  holds b' q /\ data b' !! write_index b = Some v /\ length (data b') = length (data b) /\
  write_index b' = write_index b /\ read_index b' = read_index b.
Proof.
  intros Hh Hs. pose proof (write_index_lt b q Hh) as Hlt. unfold store_data in Hs.
  rewrite vec_set_ok in Hs by done. simplify_eq/=. destruct Hh as [Hr Hw Hl Hd].
  rewrite !length_insert. split_and!; try done; [|by rewrite list_lookup_insert_eq].
  constructor; simpl; rewrite ?length_insert; try done.
  intros i x Hi. rewrite list_lookup_insert_ne; [by apply Hd|].
  apply lookup_lt_Some in Hi. rewrite mod_wrap in Hw by lia. rewrite mod_wrap by lia.
  repeat case_decide; lia.
Qed.

Lemma publish_write_holds b q v n :
  holds b q -> (S (length q) < length (data b))%nat -> data b !! write_index b = Some v ->
  next_index b (write_index b) = Some n -> holds (set_write_index b n) (q ++ [v]).
Proof.
  intros Hh Hroom Hv Hn. rewrite next_index_ok in Hn by (by eapply write_index_lt).
  injection Hn as <-. destruct Hh as [Hr Hw Hl Hd]. constructor; simpl; [done| | |].
  - rewrite length_app; simpl. rewrite mod_wrap in Hw by lia. rewrite mod_wrap by lia.
    repeat case_decide; lia.
  - rewrite length_app; simpl; lia.
  - intros i x Hi. apply lookup_app_Some in Hi as [Hi | [Hi Hx]]; [by apply Hd|].
    apply list_lookup_singleton_Some in Hx as [Hz <-].
    replace i with (length q) by lia. by rewrite <- Hw.
Qed.

Lemma publish_read_holds b q v n :
  holds b (v :: q) -> next_index b (read_index b) = Some n -> holds (set_read_index b n) q.
Proof.
  intros Hh Hn. rewrite next_index_ok in Hn by apply Hh. injection Hn as <-.
  destruct Hh as [Hr Hw Hl Hd]. simpl in *. constructor; simpl; [case_decide; lia| |lia|].
  - rewrite Hw, !mod_wrap by (repeat case_decide; lia). repeat case_decide; lia.
  - intros i x Hi. rewrite <- (Hd (S i) x Hi). f_equal.
    apply lookup_lt_Some in Hi.
    rewrite !mod_wrap by (repeat case_decide; lia). repeat case_decide; lia.
Qed.

Lemma written_app (es es' : list (event T)) : written (es ++ es') = written es ++ written es'.
Proof. apply omap_app. Qed.
Lemma received_app (es es' : list (event T)) : received (es ++ es') = received es ++ received es'.
Proof. apply omap_app. Qed.

(** Every step of either side keeps the invariant: the other side's loaded
    values stay valid because only the reader moves the read index and only
    the writer moves the write index. *)
Lemma ring_step_inv (c c' : cfg T) es es' : inv c es -> step c es' c' -> inv c' (es ++ es').
Proof.
  intros (q & Hes & Hh & Hw & Hr) Hstep. unfold inv. rewrite written_app, received_app.
  destruct Hstep as [b rd v|b rd v wi Hn|b rd v wi n Hn Hne|b b' rd v wi n Hs|b rd v n
                    |b wr|b wr ri He|b wr ri He|b wr ri v Hd|b wr ri v n Hn]; simpl in *;
    rewrite ?app_nil_r.
  - by exists q.
  - by exists q.
  - subst wi. exists q. split_and!; try done.
    pose proof (full_iff b q Hh) as [_ Hf]. destruct Hh as [? ? Hl ?].
    destruct (decide (S (length q) = length (data b))) as [E|]; [|lia].
    apply Hf in E. rewrite Hn in E. by simplify_eq.
  - destruct Hw as (-> & Hn & Hroom).
    destruct (store_holds b b' q v Hh Hs) as (Hh' & Hv & Hlen & Hwi & Hri). exists q.
    split_and!; try done.
    + rewrite next_index_ok in Hn by (by eapply write_index_lt).
      rewrite Hwi, next_index_ok, Hlen; [done|]. rewrite Hlen. by eapply write_index_lt.
    + lia.
    + by rewrite Hwi.
    + destruct rd; simpl in *; by rewrite ?Hri.
  - destruct Hw as (Hn & Hroom & Hv). exists (q ++ [v]). split_and!; try done.
    + by rewrite Hes, <- app_assoc.
    + by apply publish_write_holds.
    + destruct rd; simpl in *; destruct_and?; split_and?; try done.
      * by destruct q.
      * by apply lookup_app_l_Some.
  - by exists q.
  - by exists q.
  - exists q. split_and!; try done. subst ri. intros Hq. apply (empty_iff b q) in Hq; [|done].
    by destruct He.
  - destruct Hr as [-> Hq]. exists q. split_and!; try done.
    destruct q as [|x q]; [done|]. simpl. rewrite (head_data b (x :: q) x) in Hd; done.
  - destruct Hr as [-> Hv]. destruct q as [|x q]; [done|]. simpl in Hv. simplify_eq.
    exists q. rewrite <- app_assoc. split_and!; try done.
    + by eapply publish_read_holds.
    + destruct wr; simpl in *; destruct_and?; split_and?; try done; lia.
Qed.

Lemma steps_length (c c' : cfg T) es :
  steps c es c' -> length (data (ring c')) = length (data (ring c)).
Proof.
  induction 1 as [|c es c' es' c'' H IH Hs]; [done|]. rewrite <- IH. clear IH.
  destruct Hs as [| | |b b' rd v wi n Hst| | | | | |]; simpl; try done.
  unfold store_data, vec_set in Hst. case_decide; simplify_eq/=. by rewrite length_insert.
Qed.

Lemma writer_progress c q :
  holds (ring c) q -> writer_ok (ring c) q (w c) -> w c <> WIdle ->
  exists es' c', step c es' c' /\ r c' = r c.
Proof.
  destruct c as [b wr rd]; simpl. intros Hh Hw Hne.
  pose proof (write_index_lt b q Hh) as Hlt. destruct wr as [|v wi|v wi n|v n]; simpl in *.
  - done.
  - subst wi. pose proof (next_index_ok b _ Hlt) as Hn.
    destruct (decide ((if decide (S (write_index b) < length (data b))%nat
                       then S (write_index b) else 0%nat) = read_index b)) as [E|E].
    + rewrite E in Hn. eexists _, _. split; [by apply write_full|done].
    + eexists _, _. split; [by eapply write_check|done].
  - destruct Hw as (-> & _ & _). eexists _, _. split; [apply write_store|done].
    unfold store_data. rewrite vec_set_ok by exact Hlt. reflexivity.
  - eexists _, _. split; [apply write_publish|done].
Qed.

Lemma reader_progress c q :
  holds (ring c) q -> reader_ok (ring c) q (r c) -> r c <> RIdle ->
  exists es' c', step c es' c' /\ w c' = w c.
Proof.
  destruct c as [b wr rd]; simpl. intros Hh Hr Hne.
  destruct rd as [|ri|ri|ri v]; simpl in *.
  - done.
  - destruct (decide (ri = write_index b)).
    + eexists _, _. split; [by apply read_empty|done].
    + eexists _, _. split; [by apply read_check|done].
  - destruct Hr as [-> Hq]. destruct q as [|x q]; [done|].
    eexists _, _. split; [apply read_copy; by eapply (head_data b (x :: q))|done].
  - destruct Hr as [-> _]. eexists _, _.
    split; [apply read_publish, next_index_ok, Hh|done].
Qed.

Lemma steps_app (c c' c'' : cfg T) es es' :
  steps c es c' -> steps c' es' c'' -> steps c (es ++ es') c''.
Proof.
  intros H H'. revert H. induction H' as [|c' es1 c1 es2 c2 _ IH Hs]; intros H.
  - by rewrite app_nil_r.
  - rewrite app_assoc. by eapply steps_snoc; [apply IH|].
Qed.

Lemma steps_cons (c c' c'' : cfg T) es es' : step c es c' -> steps c' es' c'' -> steps c (es ++ es') c''.
Proof. intros H. apply steps_app. apply (steps_snoc c [] c es); [constructor|done]. Qed.

Lemma write_runs b v ok b' rd :
  write b v = Some (ok, b') ->
  steps {| ring := b; w := WIdle; r := rd |} [Wrote v ok] {| ring := b'; w := WIdle; r := rd |}.
Proof.
  unfold write. intros H. apply bind_Some in H as (n & Hn & H).
  eapply (steps_cons _ _ _ [] [Wrote v ok] (write_load b rd v)). case_decide; simplify_eq.
  - eapply (steps_cons _ _ _ [Wrote v false] []); [by apply write_full|constructor].
  - apply bind_Some in H as (b1 & Hb1 & H). simplify_eq.
    eapply (steps_cons _ _ _ [] [Wrote v true] (write_check _ _ _ _ _ Hn ltac:(done))).
    eapply (steps_cons _ _ _ [] [Wrote v true] (write_store _ _ _ _ _ _ Hb1)).
    eapply (steps_cons _ _ _ [Wrote v true] [] (write_publish _ _ _ _)). constructor.
Qed.

Lemma read_runs b o b' wr :
  read b = Some (o, b') ->
  steps {| ring := b; w := wr; r := RIdle |} [Read o] {| ring := b'; w := wr; r := RIdle |}.
Proof.
  unfold read. intros H.
  eapply (steps_cons _ _ _ [] [Read o] (read_load b wr)). case_decide; simplify_eq.
  - eapply (steps_cons _ _ _ [Read None] []); [by apply read_empty|constructor].
  - apply bind_Some in H as (v & Hv & H). apply bind_Some in H as (n & Hn & H). simplify_eq.
    eapply (steps_cons _ _ _ [] [Read (Some v)] (read_check _ _ _ ltac:(done))).
    eapply (steps_cons _ _ _ [] [Read (Some v)] (read_copy _ _ _ _ Hv)).
    eapply (steps_cons _ _ _ [Read (Some v)] [] (read_publish _ _ _ _ _ Hn)). constructor.
Qed.

Lemma initial_inv (buffer : list T) : buffer <> [] -> inv (initial buffer) [].
Proof.
  intros Hb. exists []. split_and!; try done. destruct buffer as [|x buf]; [done|].
  constructor; simpl; [lia| |lia|done]. by rewrite Nat.sub_diag.
Qed.

Lemma ring_reachable_inv (buffer : list T) es c :
  buffer <> [] -> steps (initial buffer) es c -> inv c es.
Proof.
  intros Hb H. remember (initial buffer) as c0 eqn:Hc0.
  induction H as [c|c es c' es' c'' H IH Hs]; subst; [by apply initial_inv|].
  eapply ring_step_inv; [by apply IH|done].
Qed.
End Invariant.

(** ** Properties *)

(** C22: the ring buffer is a linearizable FIFO queue.  In every interleaving
    of the writer's and the reader's atomic accesses, the values read so far
    are a prefix of the values written so far, the backlog never exceeds
    [capacity], a [write] is refused only when the backlog is exactly
    [capacity], a [read] returns nothing only when the backlog is empty, and
    neither side gets stuck inside a call.  An uninterrupted [write] or [read]
    is one such run of its own accesses. *)
Theorem ring_buffer_fifo {T} (buffer : list T) (es : list (Concurrent.event T)) (c : Concurrent.cfg T) :
  buffer <> [] -> Concurrent.steps (Concurrent.initial buffer) es c ->
  exists backlog,
    Concurrent.written es = Concurrent.received es ++ backlog /\
    (length backlog <= RingBuffer.capacity (RingBuffer.for_buffer buffer))%nat /\
    (forall v c', Concurrent.step c [Concurrent.Wrote v false] c' ->
       length backlog = RingBuffer.capacity (RingBuffer.for_buffer buffer)) /\
    (forall c', Concurrent.step c [Concurrent.Read None] c' -> backlog = []) /\
    (Concurrent.w c <> Concurrent.WIdle ->
       exists es' c', Concurrent.step c es' c' /\ Concurrent.r c' = Concurrent.r c) /\
    (Concurrent.r c <> Concurrent.RIdle ->
       exists es' c', Concurrent.step c es' c' /\ Concurrent.w c' = Concurrent.w c) /\
    (forall v ok b, RingBuffer.write (Concurrent.ring c) v = Some (ok, b) ->
       Concurrent.w c = Concurrent.WIdle ->
       Concurrent.steps c [Concurrent.Wrote v ok]
         {| Concurrent.ring := b; Concurrent.w := Concurrent.WIdle; Concurrent.r := Concurrent.r c |}) /\
    (forall o b, RingBuffer.read (Concurrent.ring c) = Some (o, b) ->
       Concurrent.r c = Concurrent.RIdle ->
       Concurrent.steps c [Concurrent.Read o]
         {| Concurrent.ring := b; Concurrent.w := Concurrent.w c; Concurrent.r := Concurrent.RIdle |}).
Proof.
  intros Hb Hs.
  assert (Hlen : length (RingBuffer.data (Concurrent.ring c)) = length buffer).
  { exact (steps_length _ _ _ Hs). }
  apply ring_reachable_inv in Hs as (q & Hes & Hh & Hw & Hr); [|done].
  exists q. unfold RingBuffer.capacity; simpl. rewrite <- Hlen.
  pose proof (holds_room _ _ Hh). split_and!; [done|lia| | | | | |].
  - intros v c' Hstep. inversion Hstep; subst; simpl in *. subst.
    apply (full_iff b q Hh) in H2. lia.
  - intros c' Hstep. inversion Hstep; subst; simpl in *. by eapply empty_iff.
  - intros Hne. by eapply writer_progress.
  - intros Hne. by eapply reader_progress.
  - intros v ok b Hwr Hid. destruct c; simpl in *; subst. by apply write_runs.
  - intros o b Hrd Hid. destruct c; simpl in *; subst. by apply read_runs.
Qed.

Lemma ring_buffer_fifo_witness :
  exists backlog,
    Concurrent.written [Concurrent.Wrote 5 true; Concurrent.Wrote 6 true;
                        Concurrent.Wrote 7 false; Concurrent.Read (Some 5)] = [5] ++ backlog /\
    (length backlog <= 2)%nat.
Proof.
  assert (Hs : Concurrent.steps (Concurrent.initial [0; 0; 0])
    ([Concurrent.Wrote 5 true] ++ [Concurrent.Wrote 6 true] ++ [Concurrent.Wrote 7 false] ++
     [Concurrent.Read (Some 5)])
    {| Concurrent.ring := {| RingBuffer.data := [5; 6; 0]; RingBuffer.size := 2;
                             RingBuffer.write_index := 2; RingBuffer.read_index := 1 |};
       Concurrent.w := Concurrent.WIdle; Concurrent.r := Concurrent.RIdle |}).
  { eapply steps_app; [by eapply (write_runs _ 5)|].
    eapply steps_app; [by eapply (write_runs _ 6)|].
    eapply steps_app; [by eapply (write_runs _ 7)|]. by eapply (read_runs _ (Some 5)). }
  destruct (ring_buffer_fifo [0; 0; 0] _ _ ltac:(done) Hs) as (backlog & Hq & Hl & _).
  by exists backlog.
Defined.
