(* ===== verification/Api.v ===== *)
(** * The IO interface shared by the kernel and user programs

    [api/src/io/error.rs], [api/src/ipc.rs], the op codes of
    [api/src/io/mod.rs], the encoding of an IO result into the 32-bit return
    value of an async op ([IOProvider::transform_result] in
    [kernel/src/io/provider/mod.rs]) and its decoding in [io_sync]
    ([api/src/io/sync.rs] and [kernel/src/task/actions/io.rs]). *)

From S2P Require Import Prelude.

Inductive IoError :=
| FileSystemError
| NotFound
| FileHandleInvalid
| FileHandleWrongType
| OperationFailed
| UnsupportedOperation
| UnsupportedCommand
| AlreadyOpen
| WriteToClosedIO
| InvalidArgument
| ResourceInUse
| ResourceLimitExceeded
| CrossDeviceLink
| Unknown.

#[export] Instance IoError_eq_dec : EqDecision IoError.
Proof. solve_decision. Defined.

Module IoErrorCode.
(** [self as u32]. *)
Definition into_u32 (e : IoError) : Z :=
  match e with
  | FileSystemError => 1
  | NotFound => 2
  | FileHandleInvalid => 3
  | FileHandleWrongType => 4
  | OperationFailed => 5
  | UnsupportedOperation => 6
  | UnsupportedCommand => 7
  | AlreadyOpen => 8
  | WriteToClosedIO => 9
  | InvalidArgument => 10
  | ResourceInUse => 11
  | ResourceLimitExceeded => 12
  | CrossDeviceLink => 13
  | Unknown => 0xffffffff
  end.

Definition try_from (value : Z) : result IoError unit :=
  match value with
  | 1 => Ok FileSystemError
  | 2 => Ok NotFound
  | 3 => Ok FileHandleInvalid
  | 4 => Ok FileHandleWrongType
  | 5 => Ok OperationFailed
  | 6 => Ok UnsupportedOperation
  | 7 => Ok UnsupportedCommand
  | 8 => Ok AlreadyOpen
  | 9 => Ok WriteToClosedIO
  | 10 => Ok InvalidArgument
  | 11 => Ok ResourceInUse
  | 12 => Ok ResourceLimitExceeded
  | 13 => Ok CrossDeviceLink
  | _ => Ok Unknown
  end.
End IoErrorCode.

Notation IoResult := (result Z IoError).

Definition ASYNC_OP_OPEN : Z := 1.
Definition ASYNC_OP_READ : Z := 2.
Definition ASYNC_OP_WRITE : Z := 3.
Definition ASYNC_OP_CLOSE : Z := 4.
Definition ASYNC_OP_SHARE : Z := 5.

(** Inter-process messages: eight 32-bit fields. *)
Record Message := { message_type : Z; unique_id : Z; args : list Z }.

Module Completion.
(** [transform_result]: the return value of the async op, and the driver
    instance the provider gets bound to when the op was an open. *)
Definition transform_result (op_code : Z) (result : IoResult) : Z * option Z :=
  let '(mapped_result, bind_to) :=
    if op_code .& 0xffff =? ASYNC_OP_OPEN then
      match result with
      | Ok instance => (Ok 1, Some instance)
      | Err e => (Err e, None)
      end
    else (result, None) in
  (match mapped_result with
   | Ok inner => inner .& 0x7fffffff
   | Err inner => IoErrorCode.into_u32 inner .| 0x80000000
   end, bind_to).

(** The tail of [io_sync]. *)
Definition decode_return_value (return_value : Z) : IoResult :=
  if negb (return_value .& 0x80000000 =? 0) then
    Err (match IoErrorCode.try_from (return_value .& 0x7fffffff) with
         | Ok e => e
         | Err _ => Unknown
         end)
  else Ok return_value.
End Completion.

(** ** Lemmas *)

Lemma land_7fffffff (x : Z) : x .& 0x7fffffff = x mod 2 ^ 31.
Proof. change 0x7fffffff with (Z.ones 31). by rewrite Z.land_ones. Qed.

Lemma land_top_bit (x : Z) : 0 <= x < 2 ^ 31 -> (x .& 0x80000000 =? 0) = true.
Proof.
  intros Hx. change 0x80000000 with (1 ≪ 31). rewrite land_bit_eqb by lia.
  destruct (Z.eq_dec x 0) as [->|]; [done|].
  rewrite Z.bits_above_log2; [done|lia|]. apply Z.log2_lt_pow2; lia.
Qed.

(** ** Properties *)

(** results survive the trip through the return value.  For every op
    code and result, decoding the encoded return value gives back the error
    exactly, a successful open gives [Ok 1] and binds the instance the driver
    returned, and any other success gives the value with its top bit cleared;
    so success and error are never confused. *)
Theorem io_result_roundtrip (op_code : Z) (r : IoResult) :
  let '(return_value, bound) := Completion.transform_result op_code r in
  Completion.decode_return_value return_value =
    match r with
    | Err e => Err e
    | Ok v => Ok (if op_code mod 65536 =? ASYNC_OP_OPEN then 1 else v mod 2 ^ 31)
    end /\
  bound = match r with
          | Ok v => if op_code mod 65536 =? ASYNC_OP_OPEN then Some v else None
          | Err _ => None
          end.
Proof.
  unfold Completion.transform_result. rewrite land_ffff.
  assert (Hok : forall v, Completion.decode_return_value (v .& 0x7fffffff) = Ok (v mod 2 ^ 31)).
  { intros v. unfold Completion.decode_return_value. rewrite land_7fffffff.
    rewrite land_top_bit by word. done. }
  destruct (op_code mod 65536 =? ASYNC_OP_OPEN), r as [v|e]; rewrite ?Hok; split; try done.
  all: by destruct e.
Qed.
