(* ===== verification/DriverProtocol.v ===== *)
(** * The message protocol between the kernel and driver tasks

    [kernel/src/io/driver/comms.rs] encodes an IO action as a [Message];
    [api/src/io/driver.rs] decodes it in the driver task and calls the method of
    the [AsyncDriver] trait it stands for.  A driver is a record of operations
    over its own state type; the driver's address space is a function from
    addresses to bytes. *)

From S2P Require Import Prelude Api.

Inductive DriverCommand :=
| Open | OpenRaw | Read | Write | Close | Stat | Share | Ioctl
| CreateMapping | RemoveMapping | PageInMapping | Mkdir | Unlink | Rmdir | Rename
| Invalid.

Module Command.
(** [DriverCommand::X as u32]. *)
Definition as_u32 (c : DriverCommand) : Z :=
  match c with
  | Open => 1 | OpenRaw => 2 | Read => 3 | Write => 4 | Close => 5 | Stat => 6
  | Share => 7 | Ioctl => 8 | CreateMapping => 9 | RemoveMapping => 10
  | PageInMapping => 11 | Mkdir => 12 | Unlink => 13 | Rmdir => 14 | Rename => 15
  | Invalid => 0xffffffff
  end.

Definition from_u32 (code : Z) : DriverCommand :=
  match code with
  | 1 => Open | 2 => OpenRaw | 3 => Read | 4 => Write | 5 => Close | 6 => Stat
  | 7 => Share | 8 => Ioctl | 9 => CreateMapping | 10 => RemoveMapping
  | 11 => PageInMapping | 12 => Mkdir | 13 => Unlink | 14 => Rmdir | 15 => Rename
  | _ => Invalid
  end.
End Command.

(** [DriverIoAction]: what the kernel asks a driver task to do. *)
Module DriverIoAction.
Inductive t :=
| Open (path_str_vaddr path_str_len flags : Z)
| OpenRaw (driver_id : Z)
| Close (instance : Z)
| Read (instance buffer_ptr_vaddr buffer_len starting_offset : Z)
| Write (instance buffer_ptr_vaddr buffer_len starting_offset : Z)
| Stat (instance stat_ptr_vaddr stat_len : Z)
| Share (instance dest_task_id : Z) (is_move : bool)
| Ioctl (instance ioctl arg : Z)
| IoctlStruct (instance ioctl arg_ptr_vaddr arg_len : Z)
| CreateFileMapping (path_str_vaddr path_str_len : Z)
| RemoveFileMapping (mapping_token : Z)
| Mkdir (path_str_vaddr path_str_len : Z)
| Unlink (path_str_vaddr path_str_len : Z)
| Rmdir (path_str_vaddr path_str_len : Z)
| Rename (path_str_vaddr src_len dest_len : Z)
| PageInFileMapping (mapping_token offset_in_file frame_paddr : Z).

Definition encode_to_message (self : t) (request_id : Z) : Message :=
  match self with
  | Open path_str_vaddr path_str_len flags =>
      {| message_type := Command.as_u32 DriverProtocol.Open; unique_id := request_id;
         args := [path_str_vaddr; path_str_len; flags; 0; 0; 0] |}
  | OpenRaw driver_id =>
      {| message_type := Command.as_u32 DriverProtocol.OpenRaw; unique_id := request_id;
         args := [driver_id; 0; 0; 0; 0; 0] |}
  | Close instance =>
      {| message_type := Command.as_u32 DriverProtocol.Close; unique_id := request_id;
         args := [instance; 0; 0; 0; 0; 0] |}
  | Read instance buffer_ptr_vaddr buffer_len starting_offset =>
      {| message_type := Command.as_u32 DriverProtocol.Read; unique_id := request_id;
         args := [instance; buffer_ptr_vaddr; buffer_len; starting_offset; 0; 0] |}
  | Write instance buffer_ptr_vaddr buffer_len starting_offset =>
      {| message_type := Command.as_u32 DriverProtocol.Write; unique_id := request_id;
         args := [instance; buffer_ptr_vaddr; buffer_len; starting_offset; 0; 0] |}
  | Stat instance stat_ptr_vaddr stat_len =>
      {| message_type := Command.as_u32 DriverProtocol.Stat; unique_id := request_id;
         args := [instance; stat_ptr_vaddr; stat_len; 0; 0; 0] |}
  | Share instance dest_task_id is_move =>
      {| message_type := Command.as_u32 DriverProtocol.Share; unique_id := request_id;
         args := [instance; dest_task_id; if is_move then 1 else 0; 0; 0; 0] |}
  | Ioctl instance ioctl arg =>
      {| message_type := Command.as_u32 DriverProtocol.Ioctl; unique_id := request_id;
         args := [instance; ioctl; arg; 0; 0; 0] |}
  | IoctlStruct instance ioctl arg_ptr_vaddr arg_len =>
      {| message_type := Command.as_u32 DriverProtocol.Ioctl; unique_id := request_id;
         args := [instance; ioctl; arg_ptr_vaddr; arg_len; 0; 0] |}
  | Mkdir path_str_vaddr path_str_len =>
      {| message_type := Command.as_u32 DriverProtocol.Mkdir; unique_id := request_id;
         args := [path_str_vaddr; path_str_len; 0; 0; 0; 0] |}
  | Unlink path_str_vaddr path_str_len =>
      {| message_type := Command.as_u32 DriverProtocol.Unlink; unique_id := request_id;
         args := [path_str_vaddr; path_str_len; 0; 0; 0; 0] |}
  | Rmdir path_str_vaddr path_str_len =>
      {| message_type := Command.as_u32 DriverProtocol.Rmdir; unique_id := request_id;
         args := [path_str_vaddr; path_str_len; 0; 0; 0; 0] |}
  | Rename path_str_vaddr src_len dest_len =>
      {| message_type := Command.as_u32 DriverProtocol.Rename; unique_id := request_id;
         args := [path_str_vaddr; src_len; dest_len; 0; 0; 0] |}
  | CreateFileMapping path_str_vaddr path_str_len =>
      {| message_type := Command.as_u32 DriverProtocol.CreateMapping; unique_id := request_id;
         args := [path_str_vaddr; path_str_len; 0; 0; 0; 0] |}
  | RemoveFileMapping mapping_token =>
      {| message_type := Command.as_u32 DriverProtocol.RemoveMapping; unique_id := request_id;
         args := [mapping_token; 0; 0; 0; 0; 0] |}
  | PageInFileMapping mapping_token offset_in_file frame_paddr =>
      {| message_type := Command.as_u32 DriverProtocol.PageInMapping; unique_id := request_id;
         args := [mapping_token; offset_in_file; frame_paddr; 0; 0; 0] |}
  end.
End DriverIoAction.

(** ** UTF-8

    [core::str::from_utf8]: the well-formed byte sequences of the Unicode
    standard, without overlong forms, surrogates or values past U+10FFFF. *)
Module Utf8.
Definition cont (b : Z) : bool := (0x80 <=? b) && (b <=? 0xbf).
Definition between (lo b hi : Z) : bool := (lo <=? b) && (b <=? hi).

Fixpoint valid_fuel (fuel : nat) (s : list Z) : bool :=
  match fuel with
  | O => match s with [] => true | _ => false end
  | S fuel =>
      match s with
      | [] => true
      | b0 :: s1 =>
          if between 0 b0 0x7f then valid_fuel fuel s1
          else if between 0xc2 b0 0xdf then
            match s1 with b1 :: s2 => cont b1 && valid_fuel fuel s2 | _ => false end
          else if between 0xe0 b0 0xef then
            match s1 with
            | b1 :: b2 :: s3 =>
                between (if b0 =? 0xe0 then 0xa0 else 0x80) b1 (if b0 =? 0xed then 0x9f else 0xbf) &&
                cont b2 && valid_fuel fuel s3
            | _ => false
            end
          else if between 0xf0 b0 0xf4 then
            match s1 with
            | b1 :: b2 :: b3 :: s4 =>
                between (if b0 =? 0xf0 then 0x90 else 0x80) b1 (if b0 =? 0xf4 then 0x8f else 0xbf) &&
                cont b2 && cont b3 && valid_fuel fuel s4
            | _ => false
            end
          else false
      end
  end.

Definition from_utf8 (s : list Z) : option (list Z) :=
  if valid_fuel (length s) s then Some s else None.
End Utf8.

(** ** The driver side *)

Module AsyncDriver.
(** The [AsyncDriver] trait over a driver state [D].  A buffer or struct is
    passed as its address and length. *)
Record ops (D : Type) := {
  release_buffer : D -> Z -> Z -> D;
  open : D -> list Z -> Z -> IoResult * D;
  create_mapping : D -> list Z -> IoResult * D;
  close : D -> Z -> IoResult * D;
  remove_mapping : D -> Z -> IoResult * D;
  read : D -> Z -> Z -> Z -> Z -> IoResult * D;
  write : D -> Z -> Z -> Z -> Z -> IoResult * D;
  share : D -> Z -> Z -> bool -> IoResult * D;
  stat : D -> Z -> Z -> IoResult * D;
  page_in_mapping : D -> Z -> Z -> Z -> IoResult * D;
  ioctl : D -> Z -> Z -> Z -> IoResult * D;
  ioctl_struct : D -> Z -> Z -> Z -> Z -> IoResult * D;
  mkdir : D -> list Z -> IoResult * D;
  unlink : D -> list Z -> IoResult * D;
  rmdir : D -> list Z -> IoResult * D;
  rename : D -> list Z -> list Z -> IoResult * D
}.
Arguments release_buffer {D}. Arguments open {D}. Arguments create_mapping {D}.
Arguments close {D}. Arguments remove_mapping {D}. Arguments read {D}. Arguments write {D}.
Arguments share {D}. Arguments stat {D}. Arguments page_in_mapping {D}. Arguments ioctl {D}.
Arguments ioctl_struct {D}. Arguments mkdir {D}. Arguments unlink {D}. Arguments rmdir {D}.
Arguments rename {D}.

(** The default methods of the trait; only [release_buffer] has none. *)
Definition default_ops {D} (release : D -> Z -> Z -> D) : ops D := {|
  release_buffer := release;
  open d _ _ := (Err UnsupportedOperation, d);
  create_mapping d _ := (Err UnsupportedOperation, d);
  close d _ := (Err UnsupportedOperation, d);
  remove_mapping d _ := (Err UnsupportedOperation, d);
  read d _ _ _ _ := (Err UnsupportedOperation, d);
  write d _ _ _ _ := (Err UnsupportedOperation, d);
  share d _ _ _ := (Ok 1, d);
  stat d _ _ := (Err UnsupportedOperation, d);
  page_in_mapping d _ _ _ := (Err UnsupportedOperation, d);
  ioctl d _ _ _ := (Err UnsupportedOperation, d);
  ioctl_struct d _ _ _ _ := (Err UnsupportedOperation, d);
  mkdir d _ := (Err UnsupportedOperation, d);
  unlink d _ := (Err UnsupportedOperation, d);
  rmdir d _ := (Err UnsupportedOperation, d);
  rename d _ _ := (Err UnsupportedOperation, d)
|}.

(** The digit loop of [number_to_utf8_bytes]: [digits] are those written so
    far, ending at index 9; [digit_index] counts the free cells. *)
Fixpoint digit_loop (digit_index : nat) (remaining : Z) (digits : list Z) : list Z :=
  match digit_index with
  | O => digits
  | S digit_index =>
      if 0 <? remaining then
        digit_loop digit_index (remaining / 10) (u8 (u8 (remaining mod 10) + 48) :: digits)
      else digits
  end.

Definition number_to_utf8_bytes (num : Z) : option (list Z) :=
  Utf8.from_utf8 (if num =? 0 then [48] else digit_loop 10 num []).

(** [size_of::<FileStatus>()]: four [u32] fields. *)
Definition FILE_STATUS_SIZE : Z := 16.

Section Handle.
Context {D : Type} (self : ops D) (mem : Z -> Z).

(** [slice::from_raw_parts]. *)
Definition slice (ptr len : Z) : list Z := (fun i => mem (ptr + i)) <$> seqZ 0 len.

Definition arg (m : Message) (i : nat) : Z := nth i (args m) 0.

(** [mkdir], [unlink] and [rmdir] requests differ in the method only. *)
Definition path_request (d : D) (message : Message) (method : D -> list Z -> IoResult * D) :
    option IoResult * D :=
  let path_ptr := arg message 0 in
  let path_len := arg message 1 in
  if path_len =? 0 then (Some (Err InvalidArgument), d)
  else
    match Utf8.from_utf8 (slice path_ptr path_len) with
    | None => (None, d)
    | Some path =>
        let '(result, d) := method d path in
        (Some result, release_buffer self d path_ptr path_len)
    end.

(** Slicing [buf_slice] past its end, after a wrap-around of [total_len], is a
    panic. *)
Definition handle_request (d : D) (message : Message) : option (option IoResult * D) :=
  match Command.from_u32 (message_type message) with
  | Open =>
      let path_ptr := arg message 0 in
      let path_len := arg message 1 in
      match (if path_len =? 0 then Some [] else Utf8.from_utf8 (slice path_ptr path_len)) with
      | None => Some (None, d)
      | Some path =>
          let flags := arg message 2 in
          let '(result, d) := open self d path flags in
          Some (Some result, if 0 <? path_len then release_buffer self d path_ptr path_len else d)
      end
  | OpenRaw =>
      match number_to_utf8_bytes (arg message 0) with
      | None => Some (None, d)
      | Some id_as_path => let '(result, d) := open self d id_as_path 0 in Some (Some result, d)
      end
  | Close => let '(result, d) := close self d (arg message 0) in Some (Some result, d)
  | Read =>
      let buffer_ptr := arg message 1 in
      let buffer_len := arg message 2 in
      let '(result, d) := read self d (arg message 0) buffer_ptr buffer_len (arg message 3) in
      Some (Some result, release_buffer self d buffer_ptr buffer_len)
  | Write =>
      let buffer_ptr := arg message 1 in
      let buffer_len := arg message 2 in
      let '(result, d) := write self d (arg message 0) buffer_ptr buffer_len (arg message 3) in
      Some (Some result, release_buffer self d buffer_ptr buffer_len)
  | Share =>
      let '(result, d) :=
        share self d (arg message 0) (arg message 1) (negb (arg message 2 =? 0)) in
      Some (Some result, d)
  | Stat =>
      let struct_ptr := arg message 1 in
      let struct_len := arg message 2 in
      if negb (struct_len =? FILE_STATUS_SIZE) then
        Some (None, release_buffer self d struct_ptr struct_len)
      else
        let '(result, d) := stat self d (arg message 0) struct_ptr in
        Some (Some result, release_buffer self d struct_ptr struct_len)
  | Ioctl =>
      let a := arg message 2 in
      let arg_len := arg message 3 in
      if negb (arg_len =? 0) then
        let '(result, d) := ioctl_struct self d (arg message 0) (arg message 1) a arg_len in
        Some (Some result, release_buffer self d a arg_len)
      else
        let '(result, d) := ioctl self d (arg message 0) (arg message 1) a in
        Some (Some result, d)
  | CreateMapping =>
      let path_ptr := arg message 0 in
      let path_len := arg message 1 in
      match (if path_len =? 0 then
               if arg message 0 =? 0xffffffff then Some []
               else number_to_utf8_bytes (arg message 0)
             else Utf8.from_utf8 (slice path_ptr path_len)) with
      | None => Some (None, d)
      | Some path =>
          let '(result, d) := create_mapping self d path in
          Some (Some result, if 0 <? path_len then release_buffer self d path_ptr path_len else d)
      end
  | RemoveMapping => let '(result, d) := remove_mapping self d (arg message 0) in Some (Some result, d)
  | PageInMapping =>
      let '(result, d) := page_in_mapping self d (arg message 0) (arg message 1) (arg message 2) in
      Some (Some result, d)
  | Mkdir => Some (path_request d message (mkdir self))
  | Unlink => Some (path_request d message (unlink self))
  | Rmdir => Some (path_request d message (rmdir self))
  | Rename =>
      let buf_ptr := arg message 0 in
      let src_len := arg message 1 in
      let dest_len := arg message 2 in
      let total_len := u32 (src_len + dest_len) in
      if (src_len =? 0) || (dest_len =? 0) then Some (Some (Err InvalidArgument), d)
      else if total_len <? src_len then None
      else
        let buf_slice := slice buf_ptr total_len in
        match Utf8.from_utf8 (take (Z.to_nat src_len) buf_slice) with
        | None => Some (None, d)
        | Some old_path =>
            match Utf8.from_utf8 (drop (Z.to_nat src_len) buf_slice) with
            | None => Some (None, d)
            | Some new_path =>
                let '(result, d) := rename self d old_path new_path in
                Some (Some result, release_buffer self d buf_ptr total_len)
            end
        end
  | Invalid => Some (Some (Err UnsupportedCommand), d)
  end.
End Handle.
End AsyncDriver.

(** ** What a request means *)

Module Dispatch.
Import AsyncDriver.

(** [ds] is the decimal numeral of [n], as ASCII bytes, without leading
    zeros. *)
Definition numeral (n : Z) (ds : list Z) : Prop :=
  Forall (fun c => 48 <= c <= 57) ds /\
  foldl (fun a c => 10 * a + (c - 48)) 0 ds = n /\
  match ds with [] => False | [_] => True | c :: _ => c <> 48 end.

Section Dispatch.
Context {D : Type} (self : ops D) (mem : Z -> Z).

Definition reply (r : IoResult * D) : option (option IoResult * D) := Some (Some r.1, r.2).
Definition reply_release (r : IoResult * D) (ptr len : Z) : option (option IoResult * D) :=
  Some (Some r.1, if len =? 0 then r.2 else release_buffer self r.2 ptr len).
Definition utf8_or_drop (d : D) (s : list Z) (k : option (option IoResult * D)) :=
  if Utf8.valid_fuel (length s) s then k else Some (None, d).

(** The driver method an action stands for, its arguments, and the buffer that
    is handed back afterwards.  [dec] is the numeral of a raw driver number. *)
Definition run (dec : list Z) (d : D) (a : DriverIoAction.t) : option (option IoResult * D) :=
  match a with
  | DriverIoAction.Open p len flags =>
      utf8_or_drop d (slice mem p len) (reply_release (open self d (slice mem p len) flags) p len)
  | DriverIoAction.OpenRaw n => reply (open self d dec 0)
  | DriverIoAction.Close i => reply (close self d i)
  | DriverIoAction.Read i p len off =>
      let r := read self d i p len off in Some (Some r.1, release_buffer self r.2 p len)
  | DriverIoAction.Write i p len off =>
      let r := write self d i p len off in Some (Some r.1, release_buffer self r.2 p len)
  | DriverIoAction.Stat i p len => reply_release (stat self d i p) p len
  | DriverIoAction.Share i dest mv => reply (share self d i dest mv)
  | DriverIoAction.Ioctl i c a => reply (ioctl self d i c a)
  | DriverIoAction.IoctlStruct i c p len => reply_release (ioctl_struct self d i c p len) p len
  | DriverIoAction.CreateFileMapping p len =>
      if len =? 0 then reply (create_mapping self d (if p =? 0xffffffff then [] else dec))
      else utf8_or_drop d (slice mem p len)
             (reply_release (create_mapping self d (slice mem p len)) p len)
  | DriverIoAction.RemoveFileMapping t => reply (remove_mapping self d t)
  | DriverIoAction.Mkdir p len =>
      utf8_or_drop d (slice mem p len) (reply_release (mkdir self d (slice mem p len)) p len)
  | DriverIoAction.Unlink p len =>
      utf8_or_drop d (slice mem p len) (reply_release (unlink self d (slice mem p len)) p len)
  | DriverIoAction.Rmdir p len =>
      utf8_or_drop d (slice mem p len) (reply_release (rmdir self d (slice mem p len)) p len)
  | DriverIoAction.Rename p src dest =>
      utf8_or_drop d (slice mem p src)
        (utf8_or_drop d (slice mem (p + src) dest)
           (reply_release (rename self d (slice mem p src) (slice mem (p + src) dest)) p (src + dest)))
  | DriverIoAction.PageInFileMapping t off f => reply (page_in_mapping self d t off f)
  end.
End Dispatch.

(** The actions the kernel builds: 32-bit fields, non-empty paths (except for
    [Open] and [CreateFileMapping]), status structs of the right size, ioctl
    structs that are not empty, and rename buffers that fit the address space. *)
Definition well_formed (a : DriverIoAction.t) : Prop :=
  match a with
  | DriverIoAction.Open p len _ => is_u32 len
  | DriverIoAction.OpenRaw n => is_u32 n
  | DriverIoAction.Stat _ _ len => len = FILE_STATUS_SIZE
  | DriverIoAction.IoctlStruct _ _ _ len => len <> 0
  | DriverIoAction.CreateFileMapping p len => is_u32 p /\ is_u32 len
  | DriverIoAction.Mkdir _ len | DriverIoAction.Unlink _ len | DriverIoAction.Rmdir _ len => 0 < len
  | DriverIoAction.Rename _ src dest => 0 < src /\ 0 < dest /\ src + dest < 2 ^ 32
  | _ => True
  end.

(** The number an action carries in place of a path. *)
Definition raw_number (a : DriverIoAction.t) : Z :=
  match a with
  | DriverIoAction.OpenRaw n => n
  | DriverIoAction.CreateFileMapping p 0 => p
  | _ => 0
  end.
End Dispatch.

(** ** Lemmas *)

Section Numerals.
Import AsyncDriver Dispatch.

Lemma valid_ascii (s : list Z) : Forall (fun c => 48 <= c <= 57) s -> Utf8.valid_fuel (length s) s = true.
Proof.
  induction 1 as [|c s Hc _ IH]; [done|]. simpl.
  assert (Hb : Utf8.between 0 c 127 = true) by (unfold Utf8.between; lia).
  by rewrite Hb.
Qed.

(** The loop prepends the digits of [n]; [k] cells are enough for [n < 10^k]. *)
Lemma digit_loop_spec (k : nat) (n : Z) (acc : list Z) :
  0 < n < 10 ^ Z.of_nat k ->
  exists c ds, digit_loop k n acc = (c :: ds) ++ acc /\ 49 <= c <= 57 /\
    Forall (fun c => 48 <= c <= 57) (c :: ds) /\
    foldl (fun a c => 10 * a + (c - 48)) 0 (c :: ds) = n.
Proof.
  revert n acc. induction k as [|k IH]; intros n acc Hn; [simpl in Hn; lia|].
  rewrite Nat2Z.inj_succ, Z.pow_succ_r in Hn by lia.
  cbn [digit_loop]. rewrite (proj2 (Z.ltb_lt 0 n)) by lia.
  assert (Hd : u8 (u8 (n mod 10) + 48) = n mod 10 + 48) by word. rewrite Hd.
  destruct (Z.lt_ge_cases n 10) as [Hs|Hs].
  - rewrite Z.div_small, Z.mod_small by lia.
    assert (Hz : forall acc, digit_loop k 0 acc = acc) by (by destruct k). rewrite Hz.
    exists (n + 48), []. simpl. split_and!; try lia; [done|]. repeat constructor; lia.
  - destruct (IH (n / 10) (n mod 10 + 48 :: acc)) as (c & ds & Hl & Hc & Hf & Hv).
    { split; [word|]. apply Z.div_lt_upper_bound; lia. }
    exists c, (ds ++ [n mod 10 + 48]). rewrite Hl. split_and!; try lia.
    + simpl. by rewrite <- app_assoc.
    + rewrite app_comm_cons. apply Forall_app. split; [done|]. repeat constructor; word.
    + rewrite app_comm_cons, foldl_snoc, Hv. word.
Qed.

Lemma number_to_utf8_bytes_spec (n : Z) :
  is_u32 n -> exists ds, number_to_utf8_bytes n = Some ds /\ numeral n ds.
Proof.
  intros Hn. unfold number_to_utf8_bytes, Utf8.from_utf8. destruct (Z.eqb_spec n 0) as [->|Hz].
  - exists [48]. split; [done|]. split_and!; try done. repeat constructor; lia.
  - destruct (digit_loop_spec 10 n []) as (c & ds & Hl & Hc & Hf & Hv); [word|].
    rewrite Hl, app_nil_r, valid_ascii by done. exists (c :: ds). split; [done|].
    split_and!; try done. destruct ds; [done|lia].
Qed.

Lemma slice_split (mem : Z -> Z) (p a b : Z) :
  0 <= a -> 0 <= b ->
  take (Z.to_nat a) (slice mem p (a + b)) = slice mem p a /\
  drop (Z.to_nat a) (slice mem p (a + b)) = slice mem (p + a) b.
Proof.
  intros Ha Hb. unfold slice. rewrite seqZ_app, fmap_app by lia.
  assert (Hl : length ((fun i => mem (p + i)) <$> seqZ 0 a) = Z.to_nat a)
    by (by rewrite length_fmap, length_seqZ).
  rewrite take_app_length', drop_app_length' by done. split; [done|].
  rewrite <- (Z.add_0_r (0 + a)). rewrite Z.add_0_l. rewrite <- (fmap_add_seqZ a 0).
  rewrite <- list_fmap_compose. apply list_fmap_ext. intros ? i _. simpl. f_equal. lia.
Qed.
End Numerals.

Section Requests.
Import AsyncDriver Dispatch.
Context {D : Type} (self : ops D) (mem : Z -> Z).

Lemma path_request_run (d : D) (m : Message) (method : D -> list Z -> IoResult * D) :
  0 < arg m 1 ->
  Some (path_request self mem d m method) =
  utf8_or_drop d (slice mem (arg m 0) (arg m 1))
    (reply_release self (method d (slice mem (arg m 0) (arg m 1))) (arg m 0) (arg m 1)).
Proof.
  intros Hl. unfold path_request, reply_release. rewrite (proj2 (Z.eqb_neq _ 0)) by lia.
  unfold utf8_or_drop, Utf8.from_utf8. destruct Utf8.valid_fuel; [|done]. by destruct method.
Qed.

Lemma open_release (r : IoResult * D) (p len : Z) :
  0 <= len ->
  (let '(res, d) := r in Some (Some res, if 0 <? len then release_buffer self d p len else d)) =
  reply_release self r p len.
Proof.
  intros Hl. destruct r. unfold reply_release; simpl.
  destruct (Z.ltb_spec 0 len), (Z.eqb_spec len 0); done || lia.
Qed.
End Requests.

(** Decoding undoes the encoding, for every action. *)
Lemma decode_encoded {D} (self : AsyncDriver.ops D) (mem : Z -> Z) (d : D)
    (a : DriverIoAction.t) (request_id : Z) :
  Dispatch.well_formed a ->
  exists dec, Dispatch.numeral (Dispatch.raw_number a) dec /\
    AsyncDriver.handle_request self mem d (DriverIoAction.encode_to_message a request_id) =
    Dispatch.run self mem dec d a.
Proof.
  intros Hw.
  assert (Hn : is_u32 (Dispatch.raw_number a)).
  { destruct a; simpl in *; try done. destruct Hw. by destruct path_str_len. }
  destruct (number_to_utf8_bytes_spec _ Hn) as (dec & Hdec & Hnum). exists dec.
  split; [done|]. destruct a; simpl in Hw; unfold AsyncDriver.handle_request, Dispatch.run;
    cbn -[Z.eqb Z.ltb AsyncDriver.slice u32 AsyncDriver.number_to_utf8_bytes
          AsyncDriver.path_request Dispatch.utf8_or_drop Utf8.from_utf8].
  - unfold Dispatch.utf8_or_drop, Utf8.from_utf8. destruct (Z.eqb_spec path_str_len 0) as [->|Hz].
    + by rewrite <- open_release by lia.
    + destruct Utf8.valid_fuel; [|done]. by rewrite open_release by word.
  - simpl in Hdec. rewrite Hdec. by destruct AsyncDriver.open.
  - by destruct AsyncDriver.close.
  - by destruct AsyncDriver.read.
  - by destruct AsyncDriver.write.
  - subst. simpl. by destruct AsyncDriver.stat.
  - destruct is_move; simpl; by destruct AsyncDriver.share.
  - by destruct AsyncDriver.ioctl.
  - unfold Dispatch.reply_release. rewrite (proj2 (Z.eqb_neq arg_len 0)) by done.
    simpl. by destruct AsyncDriver.ioctl_struct.
  - destruct Hw. unfold Dispatch.utf8_or_drop, Utf8.from_utf8.
    destruct (Z.eqb_spec path_str_len 0) as [->|Hz]; simpl in *.
    + rewrite Hdec. destruct (_ =? _); by destruct AsyncDriver.create_mapping.
    + destruct Utf8.valid_fuel; [|done]. by rewrite open_release by word.
  - by destruct AsyncDriver.remove_mapping.
  - by rewrite path_request_run by exact Hw.
  - by rewrite path_request_run by exact Hw.
  - by rewrite path_request_run by exact Hw.
  - destruct Hw as (Hs & Hd & Hov). assert (Ht : u32 (src_len + dest_len) = src_len + dest_len) by word.
    rewrite Ht. rewrite !(proj2 (Z.eqb_neq _ 0)), (proj2 (Z.ltb_ge _ _)) by lia. simpl.
    destruct (slice_split mem path_str_vaddr src_len dest_len) as [-> ->]; [lia..|].
    unfold Dispatch.utf8_or_drop, Utf8.from_utf8, Dispatch.reply_release.
    rewrite (proj2 (Z.eqb_neq (src_len + dest_len) 0)) by lia.
    repeat (destruct Utf8.valid_fuel; [|done]). by destruct AsyncDriver.rename.
  - by destruct AsyncDriver.page_in_mapping.
Qed.

(** ** Properties *)

(** C27: requests survive the message encoding.  For every well-formed action,
    a driver task that decodes the message the kernel encoded calls exactly the
    method the action names, with the action's arguments and with the paths
    found in the shared buffer; it answers with that method's result and hands
    the shared buffer back.  A raw driver number arrives as its decimal
    numeral.  A path that is not UTF-8 gets no answer. *)
Theorem driver_request_roundtrip {D} (self : AsyncDriver.ops D) (mem : Z -> Z) (d : D)
    (a : DriverIoAction.t) (request_id : Z) :
  Dispatch.well_formed a ->
  exists dec, Dispatch.numeral (Dispatch.raw_number a) dec /\
    AsyncDriver.handle_request self mem d (DriverIoAction.encode_to_message a request_id) =
    Dispatch.run self mem dec d a.
Proof. apply decode_encoded. Qed.

Lemma driver_request_witness :
  exists dec, Dispatch.numeral 42 dec /\
    AsyncDriver.handle_request (AsyncDriver.default_ops (fun d _ _ => S d)) (fun _ => 65) 0%nat
      (DriverIoAction.encode_to_message (DriverIoAction.OpenRaw 42) 7) =
    Some (Some (Err UnsupportedOperation), 0%nat).
Proof.
  destruct (driver_request_roundtrip (AsyncDriver.default_ops (fun d _ _ => S d)) (fun _ => 65)
              0%nat (DriverIoAction.OpenRaw 42) 7) as (dec & Hn & H); [simpl; word|].
  exists dec. split; [exact Hn|]. by rewrite H.
Defined.
