(* ===== verification/Pipes.v ===== *)
(** * Pipes

    [kernel/src/pipes/driver.rs]: the [Pipe] object, which hands data to a
    blocked reader directly in the reader's physical memory or buffers it in a
    512-byte ring, and the pipe driver, which owns the table of pipes and of
    their open ends.  Each operation runs to completion before the next one.

    Physical memory is a map from addresses to bytes.  [translate] is the page
    mapping of the current task ([get_current_physical_address]); the scratch
    page through which [write] reaches the reader's buffer gives access to
    exactly the physical page of [read_ptr]. *)

From S2P Require Import Prelude Api Collections.

Module Pipe.
Definition BUFFER_SIZE : Z := 512.

(** Task, IO object and op that wait for a read. *)
Definition AsyncIOCallback : Type := Z * Z * Z.

Record t := {
  read_callback : option AsyncIOCallback;
  read_ptr : Z;
  read_len : Z;
  read_progress : Z;
  pipe_buffer : list Z;
  write_head : Z;
  write_tail : Z;
  open_readers : Z;
  open_writers : Z
}.

Inductive ReadMode := NonBlocking | Blocking (callback : AsyncIOCallback).

Definition new : t :=
  {| read_callback := None; read_ptr := 0; read_len := 0; read_progress := 0;
     pipe_buffer := replicate (Z.to_nat BUFFER_SIZE) 0; write_head := 0; write_tail := 0;
     open_readers := 1; open_writers := 1 |}.

Definition set_tail (self : t) (tail : Z) : t :=
  {| read_callback := read_callback self; read_ptr := read_ptr self; read_len := read_len self;
     read_progress := read_progress self; pipe_buffer := pipe_buffer self;
     write_head := write_head self; write_tail := tail;
     open_readers := open_readers self; open_writers := open_writers self |}.

Definition set_pending (self : t) (callback : AsyncIOCallback) (ptr len progress : Z) : t :=
  {| read_callback := Some callback; read_ptr := ptr; read_len := len;
     read_progress := progress; pipe_buffer := pipe_buffer self;
     write_head := write_head self; write_tail := write_tail self;
     open_readers := open_readers self; open_writers := open_writers self |}.

Definition set_readers (self : t) (n : Z) : t :=
  {| read_callback := read_callback self; read_ptr := read_ptr self; read_len := read_len self;
     read_progress := read_progress self; pipe_buffer := pipe_buffer self;
     write_head := write_head self; write_tail := write_tail self;
     open_readers := n; open_writers := open_writers self |}.

Definition set_writers (self : t) (n : Z) : t :=
  {| read_callback := read_callback self; read_ptr := read_ptr self; read_len := read_len self;
     read_progress := read_progress self; pipe_buffer := pipe_buffer self;
     write_head := write_head self; write_tail := write_tail self;
     open_readers := open_readers self; open_writers := n |}.

Definition available_len (self : t) : Z := u32 (write_head self - write_tail self).

(** The copy loop of [read]; the boolean says whether the buffer was filled.
    [buffer] is the virtual address of the destination. *)
Fixpoint read_loop (translate : Z -> option Z) (fuel : nat) (pipe_buffer : list Z)
    (buffer buffer_len available_data : Z) (mem : gmap Z Z) (write_tail written : Z) :
    option (bool * gmap Z Z * Z * Z) :=
  match fuel with
  | O => None
  | S fuel =>
      if written =? buffer_len then Some (true, mem, write_tail, written)
      else if available_data <=? written then Some (false, mem, write_tail, written)
      else
        byte ← pipe_buffer !! Z.to_nat (write_tail mod BUFFER_SIZE);
        dest ← translate (buffer + written);
        read_loop translate fuel pipe_buffer buffer buffer_len available_data
          (<[dest := byte]> mem) (u32 (write_tail + 1)) (written + 1)
  end.

Definition read (translate : Z -> option Z) (self : t) (mem : gmap Z Z) (buffer buffer_len : Z)
    (read_mode : ReadMode) : option (option Z * t * gmap Z Z) :=
  '(filled, mem, tail, written) ←
    read_loop translate (S (Z.to_nat buffer_len)) (pipe_buffer self) buffer buffer_len
      (available_len self) mem (write_tail self) 0;
  let self := set_tail self tail in
  if (filled : bool) then Some (Some written, self, mem)
  else
    match read_mode with
    | Blocking callback =>
        ptr ← translate buffer;
        match read_callback self with
        | Some _ => None
        | None => Some (None, set_pending self callback ptr buffer_len written, mem)
        end
    | NonBlocking => Some (Some written, self, mem)
    end.

(** The loop of [write] that fills the buffer of a blocked reader, and the
    loop that fills the pipe; [rest] is what is left of the bytes to write. *)
Fixpoint direct_loop (rest : list Z) (mem : gmap Z Z) (read_ptr read_len read_progress written : Z) :
    list Z * gmap Z Z * Z * Z :=
  match rest with
  | [] => ([], mem, read_progress, written)
  | b :: rest' =>
      if read_len <=? read_progress then (rest, mem, read_progress, written)
      else direct_loop rest' (<[read_ptr + read_progress := b]> mem) read_ptr read_len
             (read_progress + 1) (written + 1)
  end.

Fixpoint fill_loop (rest : list Z) (pipe_buffer : list Z) (write_head write_tail written : Z) :
    option (list Z * Z * Z) :=
  let data_available := u32 (write_head - write_tail) in
  if BUFFER_SIZE - 1 <=? data_available mod BUFFER_SIZE then Some (pipe_buffer, write_head, written)
  else
    match rest with
    | [] => Some (pipe_buffer, write_head, written)
    | b :: rest' =>
        pipe_buffer ← vec_set pipe_buffer (Z.to_nat (write_head mod BUFFER_SIZE)) b;
        fill_loop rest' pipe_buffer (u32 (write_head + 1)) write_tail (written + 1)
    end.

Definition write (self : t) (mem : gmap Z Z) (buffer : list Z) :
    option (Z * option (Z * AsyncIOCallback) * t * gmap Z Z) :=
  '(rest, mem, read_progress, written, callback, read_callback) ←
    (if 0 <? read_len self then
       if 0x1000 <? u32 ((read_ptr self .& 0xfff) + read_len self) then None
       else
         let '(rest, mem, read_progress, written) :=
           direct_loop buffer mem (read_ptr self) (read_len self) (read_progress self) 0 in
         if read_len self <=? read_progress then
           Some (rest, mem, read_progress, written,
                 (fun cb => (read_len self, cb)) <$> read_callback self, None)
         else Some (rest, mem, read_progress, written, None, read_callback self)
     else Some (buffer, mem, read_progress self, 0, None, read_callback self));
  '(pipe_buffer, head, written) ←
    fill_loop rest (pipe_buffer self) (write_head self) (write_tail self) written;
  Some (written, callback,
        {| read_callback := read_callback; read_ptr := read_ptr self; read_len := read_len self;
           read_progress := read_progress; pipe_buffer := pipe_buffer;
           write_head := head; write_tail := write_tail self;
           open_readers := open_readers self; open_writers := open_writers self |}, mem).

(** [fetch_add] and [fetch_sub] return the previous count; a count of 0 is a
    panic. *)
Definition open_reader (self : t) : option t :=
  if open_readers self =? 0 then None else Some (set_readers self (u32 (open_readers self + 1))).
Definition close_reader (self : t) : option t :=
  if open_readers self =? 0 then None else Some (set_readers self (u32 (open_readers self - 1))).
Definition close_writer (self : t) : option t :=
  if open_writers self =? 0 then None else Some (set_writers self (u32 (open_writers self - 1))).
Definition is_write_open (self : t) : bool := 0 <? open_writers self.
Definition is_read_open (self : t) : bool := 0 <? open_readers self.
End Pipe.

Module PipeDriver.
Inductive PipeEnd := Reader (index : nat) | Writer (index : nat).
#[export] Instance PipeEnd_eq_dec : EqDecision PipeEnd.
Proof. solve_decision. Defined.

(** [PIPES], [OPEN_PIPES] and physical memory. *)
Record state := {
  PIPES : SlotList.t Pipe.t;
  OPEN_PIPES : SlotList.t PipeEnd;
  memory : gmap Z Z
}.

(** A completed read: the waiting op and the number of bytes it reports
    ([async_complete] on the op of the waiting task, if both still exist). *)
Definition completion : Type := Pipe.AsyncIOCallback * Z.

Definition set_pipe (s : state) (i : nat) (p : Pipe.t) (mem : gmap Z Z) : state :=
  {| PIPES := (SlotList.replace (PIPES s) i p).2; OPEN_PIPES := OPEN_PIPES s; memory := mem |}.

Definition create_pipe (s : state) : option (nat * nat * state) :=
  '(pipe_index, pipes) ← SlotList.insert (PIPES s) Pipe.new;
  '(reader, open) ← SlotList.insert (OPEN_PIPES s) (Reader pipe_index);
  '(writer, open) ← SlotList.insert open (Writer pipe_index);
  Some (reader, writer, {| PIPES := pipes; OPEN_PIPES := open; memory := memory s |}).

Definition begin_read (translate : Z -> option Z) (s : state) (pipe_index : nat)
    (buffer buffer_len : Z) (io_callback : Pipe.AsyncIOCallback) : option (option IoResult * state) :=
  match SlotList.get (PIPES s) pipe_index with
  | None => Some (Some (Err NotFound), s)
  | Some pipe =>
      if negb (Pipe.is_write_open pipe) then
        match Pipe.read translate pipe (memory s) buffer buffer_len Pipe.NonBlocking with
        | Some (Some n, pipe, mem) => Some (Some (Ok n), set_pipe s pipe_index pipe mem)
        | _ => None
        end
      else
        match Pipe.read translate pipe (memory s) buffer buffer_len (Pipe.Blocking io_callback) with
        | Some (r, pipe, mem) => Some (Ok <$> r, set_pipe s pipe_index pipe mem)
        | None => None
        end
  end.

Definition write_pipe (s : state) (pipe_index : nat) (buffer : list Z) :
    option (option IoResult * list completion * state) :=
  match SlotList.get (PIPES s) pipe_index with
  | None => Some (Some (Err NotFound), [], s)
  | Some pipe =>
      if negb (Pipe.is_read_open pipe) then Some (Some (Err WriteToClosedIO), [], s)
      else
        match Pipe.write pipe (memory s) buffer with
        | Some (written, callback_opt, pipe, mem) =>
            Some (Some (Ok written),
                  match callback_opt with Some (read, cb) => [(cb, read)] | None => [] end,
                  set_pipe s pipe_index pipe mem)
        | None => None
        end
  end.

Definition close_reader (s : state) (pipe_index : nat) : option state :=
  match SlotList.get (PIPES s) pipe_index with
  | None => Some s
  | Some pipe =>
      pipe ← Pipe.close_reader pipe;
      let s := set_pipe s pipe_index pipe (memory s) in
      if Pipe.is_read_open pipe || Pipe.is_write_open pipe then Some s
      else Some {| PIPES := (SlotList.remove (PIPES s) pipe_index).2;
                   OPEN_PIPES := OPEN_PIPES s; memory := memory s |}
  end.

Definition close_writer (s : state) (pipe_index : nat) : option state :=
  match SlotList.get (PIPES s) pipe_index with
  | None => Some s
  | Some pipe =>
      pipe ← Pipe.close_writer pipe;
      let s := set_pipe s pipe_index pipe (memory s) in
      if Pipe.is_read_open pipe || Pipe.is_write_open pipe then Some s
      else Some {| PIPES := (SlotList.remove (PIPES s) pipe_index).2;
                   OPEN_PIPES := OPEN_PIPES s; memory := memory s |}
  end.

(** The [KernelDriver] methods. *)
Definition open (s : state) : option IoResult * state := (Some (Err UnsupportedOperation), s).

Definition read (translate : Z -> option Z) (s : state) (instance : nat) (buffer buffer_len : Z)
    (io_callback : Pipe.AsyncIOCallback) : option (option IoResult * state) :=
  match SlotList.get (OPEN_PIPES s) instance with
  | Some (Reader index) => begin_read translate s index buffer buffer_len io_callback
  | None => Some (Some (Err FileHandleInvalid), s)
  | _ => Some (Some (Err FileHandleWrongType), s)
  end.

Definition write (s : state) (instance : nat) (buffer : list Z) :
    option (option IoResult * list completion * state) :=
  match SlotList.get (OPEN_PIPES s) instance with
  | Some (Writer index) => write_pipe s index buffer
  | None => Some (Some (Err FileHandleInvalid), [], s)
  | _ => Some (Some (Err FileHandleWrongType), [], s)
  end.

Definition close (s : state) (instance : nat) : option (option IoResult * state) :=
  s' ← match SlotList.get (OPEN_PIPES s) instance with
       | Some (Reader index) => Some <$> close_reader s index
       | Some (Writer index) => Some <$> close_writer s index
       | None => Some None
       end;
  match s' with
  | None => Some (Some (Err FileHandleInvalid), s)
  | Some s =>
      Some (Some (Ok 0),
            {| PIPES := PIPES s; OPEN_PIPES := (SlotList.remove (OPEN_PIPES s) instance).2;
               memory := memory s |})
  end.

Definition initial (mem : gmap Z Z) : state :=
  {| PIPES := SlotList.new; OPEN_PIPES := SlotList.new; memory := mem |}.
End PipeDriver.

(** ** The bytes in flight *)

Section Model.
Import Pipe.

Fixpoint write_mem (mem : gmap Z Z) (a : Z) (bs : list Z) : gmap Z Z :=
  match bs with
  | [] => mem
  | b :: bs => write_mem (<[a := b]> mem) (a + 1) bs
  end.

Definition read_mem (mem : gmap Z Z) (a n : Z) : list Z :=
  (fun i => default 0 (mem !! (a + i))) <$> seqZ 0 n.

(** The ring holds [q] from [tail] on. *)
Record ring (pb : list Z) (head tail : Z) (q : list Z) : Prop := {
  ring_len : length pb = 512%nat;
  ring_tail : is_u32 tail;
  ring_head : head = u32 (tail + Z.of_nat (length q));
  ring_room : Z.of_nat (length q) <= 511;
  ring_data : forall (i : nat) b, q !! i = Some b ->
                pb !! Z.to_nat ((tail + Z.of_nat i) mod 512) = Some b
}.

(** A blocked read: destination, length, bytes already delivered, callback. *)
Definition pending : Type := Z * Z * Z * AsyncIOCallback.

Record rep (p : t) (q : list Z) (pend : option pending) : Prop := {
  rep_ring : ring (pipe_buffer p) (write_head p) (write_tail p) q;
  rep_ptr : is_u32 (read_ptr p);
  rep_len : 0 <= read_len p;
  rep_page : read_ptr p mod 4096 + read_len p <= 4096;
  rep_pending :
    match pend with
    | None => read_callback p = None /\ read_len p <= read_progress p
    | Some (ptr, len, got, cb) =>
        read_callback p = Some cb /\ read_ptr p = ptr /\ read_len p = len /\
        read_progress p = got /\ 0 <= got < len /\ q = []
    end
}.

(** The destination of a read: [len] bytes inside one physical page. *)
Record buffer_ok (translate : Z -> option Z) (buffer len ptr : Z) : Prop := {
  buffer_len : 0 <= len;
  buffer_ptr : is_u32 ptr;
  buffer_page : ptr mod 4096 + len <= 4096;
  buffer_mapped : forall i, 0 <= i <= Z.max 0 (len - 1) -> translate (buffer + i) = Some (ptr + i)
}.

Lemma available_ring p q : ring (pipe_buffer p) (write_head p) (write_tail p) q ->
  available_len p = Z.of_nat (length q).
Proof. intros [_ Ht Hh Hr _]. unfold available_len. rewrite Hh. word. Qed.

Lemma ring_pop pb head tail b q :
  ring pb head tail (b :: q) ->
  pb !! Z.to_nat (tail mod 512) = Some b /\ ring pb head (u32 (tail + 1)) q.
Proof.
  intros [Hl Ht Hh Hr Hd]. cbn [length] in *. split.
  - specialize (Hd O b eq_refl). by rewrite Z.add_0_r in Hd.
  - constructor; [done|word|word|lia|]. intros i x Hi. rewrite <- (Hd (S i) x Hi).
    do 2 f_equal. word.
Qed.

Lemma ring_push pb head tail q b :
  ring pb head tail q -> Z.of_nat (length q) < 511 ->
  exists pb', vec_set pb (Z.to_nat (head mod 512)) b = Some pb' /\
    ring pb' (u32 (head + 1)) tail (q ++ [b]).
Proof.
  intros [Hl Ht Hh Hr Hd] Hroom. eexists. split; [apply vec_set_ok; rewrite Hl; word|].
  constructor; [by rewrite length_insert|done| |rewrite length_app; simpl; lia|].
  { rewrite length_app; simpl. word. }
  intros i x Hi. apply lookup_app_Some in Hi as [Hi | [Hi Hx]].
  - rewrite list_lookup_insert_ne; [by apply Hd|]. apply lookup_lt_Some in Hi. subst head. word.
  - apply list_lookup_singleton_Some in Hx as [Hz <-].
    replace (Z.to_nat ((tail + Z.of_nat i) mod 512)) with (Z.to_nat (head mod 512))
      by (subst head; word).
    rewrite list_lookup_insert_eq; [done|]. rewrite Hl. word.
Qed.

(** The loops, by induction on what is left to do. *)

Lemma read_loop_spec tr pb buf len ptr head (q : list Z) :
  buffer_ok tr buf len ptr ->
  forall fuel mem tail w, ring pb head tail q -> 0 <= w <= len ->
    len - w < Z.of_nat fuel ->
    let n := Z.min (len - w) (Z.of_nat (length q)) in
    read_loop tr fuel pb buf len (w + Z.of_nat (length q)) mem tail w =
      Some (len - w <=? Z.of_nat (length q), write_mem mem (ptr + w) (take (Z.to_nat n) q),
            u32 (tail + n), w + n) /\
    ring pb head (u32 (tail + n)) (drop (Z.to_nat n) q).
Proof.
  intros [Hlen _ _ Hmap].
  induction q as [|b q IH]; intros fuel mem tail w Hring Hw Hfuel n.
  - destruct fuel as [|fuel]; [lia|]. assert (Hn : n = 0) by (subst n; simpl; lia).
    cbn [read_loop]. rewrite Hn. simpl. rewrite !Z.add_0_r.
    assert (u32 tail = tail) as -> by (destruct Hring; word). split; [|done].
    destruct (Z.eqb_spec w len) as [->|]; [by rewrite Z.sub_diag|].
    rewrite (proj2 (Z.leb_le w w)), (proj2 (Z.leb_gt _ _)) by lia. done.
  - destruct fuel as [|fuel]; [lia|]. cbn [read_loop].
    destruct (ring_pop _ _ _ _ _ Hring) as [Hb Hring'].
    destruct (Z.eqb_spec w len) as [->|Hne].
    { assert (Hn : n = 0) by (subst n; simpl; lia). rewrite Hn. simpl.
      rewrite !Z.add_0_r, Z.sub_diag. assert (u32 tail = tail) as -> by (destruct Hring; word).
      done. }
    cbn [length] in *. rewrite (proj2 (Z.leb_gt _ _)) by lia.
    unfold BUFFER_SIZE. rewrite Hb. cbn [mbind option_bind]. rewrite Hmap by lia.
    cbn [mbind option_bind].
    destruct (IH fuel (<[ptr + w := b]> mem) (u32 (tail + 1)) (w + 1) Hring') as [He Hr]; [lia..|].
    replace (w + Z.of_nat (S (length q))) with (w + 1 + Z.of_nat (length q)) by lia.
    rewrite He. set (m := Z.min (len - (w + 1)) (Z.of_nat (length q))) in *. assert (Hn : n = m + 1) by (subst n m; lia).
    rewrite Hn. replace (Z.to_nat (m + 1)) with (S (Z.to_nat m)) by (subst m; lia).
    assert (Ht : u32 (u32 (tail + 1) + m) = u32 (tail + (m + 1))) by word.
    rewrite <- Ht. split; [|done]. simpl. do 2 f_equal; [|lia]. do 2 f_equal.
    + destruct (Z.leb_spec (len - (w + 1)) (Z.of_nat (length q))),
        (Z.leb_spec (len - w) (Z.of_nat (S (length q)))); done || lia.
    + f_equal. lia.
Qed.

Lemma direct_loop_spec ptr len (bs : list Z) :
  forall mem got w, got <= len ->
    let k := Z.min (len - got) (Z.of_nat (length bs)) in
    direct_loop bs mem ptr len got w =
      (drop (Z.to_nat k) bs, write_mem mem (ptr + got) (take (Z.to_nat k) bs), got + k, w + k).
Proof.
  induction bs as [|b bs IH]; intros mem got w Hgot k.
  - assert (Hk : k = 0) by (subst k; simpl; lia). rewrite Hk. simpl. by rewrite !Z.add_0_r.
  - simpl. destruct (Z.leb_spec len got) as [Hle|Hlt].
    + assert (Hk : k = 0) by (subst k; simpl; lia). rewrite Hk. simpl. by rewrite !Z.add_0_r.
    + rewrite IH by lia. set (m := Z.min _ _). assert (Hk : k = m + 1) by (subst k m; simpl; lia).
      rewrite Hk. replace (Z.to_nat (m + 1)) with (S (Z.to_nat m)) by (subst m; lia). simpl.
      f_equal; [f_equal; [f_equal; f_equal; lia|lia]|lia].
Qed.

Lemma fill_loop_spec (bs : list Z) :
  forall pb head tail w q, ring pb head tail q ->
    let m := Z.min (511 - Z.of_nat (length q)) (Z.of_nat (length bs)) in
    exists pb' head', fill_loop bs pb head tail w = Some (pb', head', w + m) /\
      ring pb' head' tail (q ++ take (Z.to_nat m) bs).
Proof.
  induction bs as [|b bs IH]; intros pb head tail w q Hring m; cbn [fill_loop]; unfold BUFFER_SIZE.
  - assert (Hm : m = 0) by (subst m; destruct Hring; simpl; lia).
    rewrite Hm, app_nil_r, Z.add_0_r. case_test; by eexists _, _.
  - assert (Ha : u32 (head - tail) = Z.of_nat (length q)) by (destruct Hring; subst; word).
    rewrite Ha, Z.mod_small by (destruct Hring; lia). case_test.
    + assert (Hm : m = 0) by (subst m; destruct Hring; simpl; lia).
      rewrite Hm, app_nil_r, Z.add_0_r. by eexists _, _.
    + destruct (ring_push pb head tail q b Hring) as (pb1 & Hset & Hring1); [lia|].
      rewrite Hset. cbn [mbind option_bind].
      destruct (IH pb1 (u32 (head + 1)) tail (w + 1) _ Hring1) as (pb2 & h2 & Hl & Hr2).
      rewrite length_app in Hl, Hr2. simpl in Hl, Hr2.
      set (m1 := Z.min (511 - Z.of_nat (length q + 1)) (Z.of_nat (length bs))) in *. assert (Hm : m = m1 + 1) by (subst m m1; simpl; lia).
      exists pb2, h2. rewrite Hl, Hm.
      replace (Z.to_nat (m1 + 1)) with (S (Z.to_nat m1)) by (subst m1; lia).
      split; [f_equal; f_equal; lia|]. simpl. by rewrite <- app_assoc in Hr2.
Qed.
End Model.

Section Operations.
Import Pipe.

Lemma rep_set_tail p q pend tail q' :
  rep p q pend -> ring (pipe_buffer p) (write_head p) tail q' -> (q = [] -> q' = []) ->
  rep (set_tail p tail) q' pend.
Proof.
  intros [Hr Hp Hl Hpg Hpend] Hring Hq. constructor; simpl; try done.
  destruct pend as [[[[ptr len] got] cb]|]; [|done].
  destruct Hpend as (? & ? & ? & ? & ? & ->). by rewrite Hq.
Qed.

(** [read] delivers what is buffered; a blocking read that wants more waits. *)
Lemma read_spec tr p mem buf len ptr mode q pend :
  rep p q pend -> buffer_ok tr buf len ptr -> mode = NonBlocking \/ pend = None ->
  let n := Z.min len (Z.of_nat (length q)) in
  exists p', let r := match mode with
                      | Blocking cb => if len <=? Z.of_nat (length q) then Some n else None
                      | NonBlocking => Some n end in
    read tr p mem buf len mode = Some (r, p', write_mem mem ptr (take (Z.to_nat n) q)) /\
    rep p' (drop (Z.to_nat n) q)
      (match mode with
       | Blocking cb => if len <=? Z.of_nat (length q) then pend else Some (ptr, len, n, cb)
       | NonBlocking => pend end).
Proof.
  intros Hrep Hbuf Hmode n. destruct (rep_ring _ _ _ Hrep) as [Hl Ht Hh Hroom Hd] eqn:HR.
  clear HR. pose proof (rep_ring _ _ _ Hrep) as Hring.
  destruct (read_loop_spec tr (pipe_buffer p) buf len ptr (write_head p) q Hbuf
              (S (Z.to_nat len)) mem (write_tail p) 0 Hring) as [He Hr];
    [destruct Hbuf; lia..|].
  rewrite Z.sub_0_r, !Z.add_0_r, Z.add_0_l in *. fold n in He, Hr.
  unfold read. rewrite (available_ring p q Hring), He. cbn [mbind option_bind].
  assert (Hrep' : rep (set_tail p (u32 (write_tail p + n))) (drop (Z.to_nat n) q) pend).
  { eapply rep_set_tail; [done|done|]. intros ->. by rewrite drop_nil. }
  destruct (Z.leb_spec len (Z.of_nat (length q))) as [Hle|Hgt].
  { eexists. split; [|]; destruct mode; done. }
  destruct mode as [|cb]; [by eexists|]. destruct Hmode as [|Hpend]; [done|subst].
  rewrite <- (Z.add_0_r buf), (buffer_mapped _ _ _ _ Hbuf 0), Z.add_0_r by lia.
  cbn [mbind option_bind]. pose proof (rep_pending _ _ _ Hrep) as [Hcb _]. simpl. rewrite Hcb.
  eexists. split; [done|]. destruct Hrep'. constructor; simpl; try done; try apply Hbuf.
  destruct Hbuf. split_and!; try done; try lia. apply drop_ge. lia.
Qed.

(** [write] first completes a blocked read, then fills the ring. *)
Lemma write_spec p mem bs q pend :
  rep p q pend ->
  let k := match pend with
           | Some (_, len, got, _) => Z.min (len - got) (Z.of_nat (length bs))
           | None => 0 end in
  let m := Z.min (511 - Z.of_nat (length q)) (Z.of_nat (length bs) - k) in
  exists p', let mem' := match pend with
                         | Some (ptr, len, got, _) => write_mem mem (ptr + got) (take (Z.to_nat k) bs)
                         | None => mem end in
    write p mem bs =
      Some (k + m,
            match pend with
            | Some (_, len, got, cb) => if len <=? got + k then Some (len, cb) else None
            | None => None end, p', mem') /\
    rep p' (q ++ take (Z.to_nat m) (drop (Z.to_nat k) bs))
      (match pend with
       | Some (ptr, len, got, cb) => if len <=? got + k then None else Some (ptr, len, got + k, cb)
       | None => None end) /\
    read_ptr p' = read_ptr p /\ read_len p' = read_len p.
Proof.
  intros [Hring Hptr Hlen Hpage Hpend] k m. unfold write.
  assert (Hpg : (0x1000 <? u32 ((read_ptr p .& 0xfff) + read_len p)) = false).
  { rewrite land_fff. word. }
  destruct pend as [[[[ptr len] got] cb]|].
  - destruct Hpend as (Hcb & <- & <- & <- & Hgot & ->).
    rewrite (proj2 (Z.ltb_lt 0 (read_len p))), Hpg by lia.
    rewrite direct_loop_spec by lia. fold k. rewrite Z.add_0_l.
    destruct (fill_loop_spec (drop (Z.to_nat k) bs) (pipe_buffer p) (write_head p) (write_tail p)
                k [] Hring) as (pb' & head' & Hf & Hring').
    rewrite length_drop in Hf, Hring'.
    replace (Z.min (511 - Z.of_nat (length [])) (Z.of_nat (length bs - Z.to_nat k)))
      with m in Hf, Hring' by (subst m k; simpl; lia).
    destruct (Z.leb_spec (read_len p) (read_progress p + k)) as [Hdone|Hmore];
      cbn [mbind option_bind fmap option_fmap option_map]; rewrite Hf;
      cbn [mbind option_bind]; rewrite ?Hcb; eexists; (split; [done|]); (split; [|done]);
      constructor; simpl; try done.
    split_and!; try done; try lia. apply length_zero_iff_nil.
    rewrite length_take, length_drop. subst m k. simpl. lia.
  - destruct Hpend as [Hcb Hdone]. assert (Hdl : forall w, direct_loop bs mem (read_ptr p) (read_len p)
      (read_progress p) w = (bs, mem, read_progress p, w)).
    { intros w. destruct bs; simpl; [done|]. by rewrite (proj2 (Z.leb_le _ _)). }
    destruct (fill_loop_spec bs (pipe_buffer p) (write_head p) (write_tail p) 0 q Hring)
      as (pb' & head' & Hf & Hring').
    replace (Z.min (511 - Z.of_nat (length q)) (Z.of_nat (length bs)))
      with m in Hf, Hring' by (subst m k; lia).
    rewrite Hpg, Hdl, (proj2 (Z.leb_le _ _)), Hcb by done. subst k. rewrite drop_0.
    destruct (0 <? read_len p); cbn [mbind option_bind fmap option_fmap option_map]; rewrite Hf;
      cbn [mbind option_bind]; eexists; (split; [done|]); (split; [|done]);
      constructor; simpl; try done.
Qed.

Lemma new_rep : rep new [] None.
Proof.
  constructor; [constructor| | | |]; simpl; done || word.
Qed.

(** Memory. *)

Lemma write_mem_lookup_lt mem a bs x : x < a -> write_mem mem a bs !! x = mem !! x.
Proof.
  revert mem a. induction bs as [|b bs IH]; intros mem a Hx; simpl; [done|].
  rewrite IH, lookup_insert_ne by lia. done.
Qed.

Lemma write_mem_lookup mem a bs (i : nat) b :
  bs !! i = Some b -> write_mem mem a bs !! (a + Z.of_nat i) = Some b.
Proof.
  revert mem a i. induction bs as [|c bs IH]; intros mem a i Hi; [done|].
  destruct i as [|i]; simpl in *.
  - simplify_eq. rewrite write_mem_lookup_lt, Z.add_0_r by lia. by rewrite lookup_insert_eq.
  - rewrite <- (IH (<[a := c]> mem) (a + 1) i Hi). f_equal. lia.
Qed.

Lemma read_mem_write mem a k bs :
  0 <= k -> read_mem (write_mem mem (a + k) bs) a (k + Z.of_nat (length bs)) = read_mem mem a k ++ bs.
Proof.
  intros Hk. unfold read_mem. rewrite seqZ_app, fmap_app by lia. f_equal.
  - apply list_fmap_ext. intros ? i Hi. apply lookup_seqZ in Hi. simpl.
    rewrite write_mem_lookup_lt by lia. done.
  - apply list_eq. intros i. rewrite list_lookup_fmap. destruct (bs !! i) eqn:Hi.
    + pose proof (lookup_lt_Some _ _ _ Hi). rewrite lookup_seqZ_lt by lia. simpl.
      replace (a + (0 + k + Z.of_nat i)) with (a + k + Z.of_nat i) by lia.
      by rewrite (write_mem_lookup _ _ _ _ _ Hi).
    + apply lookup_ge_None in Hi. by rewrite lookup_seqZ_ge by lia.
Qed.

Lemma read_mem_write_all mem a bs : read_mem (write_mem mem a bs) a (Z.of_nat (length bs)) = bs.
Proof. pose proof (read_mem_write mem a 0 bs) as H. rewrite Z.add_0_r in H. by apply H. Qed.
End Operations.

(** ** Runs of a pipe *)

Module PipeRun.
Import Pipe.

(** A pipe with physical memory and two logs: the bytes that writers were told
    are written, and the bytes found in the readers' buffers when their reads
    completed. *)
Record cfg := { pipe : t; mem : gmap Z Z; sent : list Z; delivered : list Z }.

Inductive step : cfg -> cfg -> Prop :=
| step_read p m s dl tr buf len ptr mode r p' m' :
    buffer_ok tr buf len ptr -> mode = NonBlocking \/ read_callback p = None ->
    read tr p m buf len mode = Some (r, p', m') ->
    step {| pipe := p; mem := m; sent := s; delivered := dl |}
         {| pipe := p'; mem := m'; sent := s;
            delivered := dl ++ match r with Some n => read_mem m' ptr n | None => [] end |}
| step_write p m s dl bs n cb p' m' :
    write p m bs = Some (n, cb, p', m') ->
    step {| pipe := p; mem := m; sent := s; delivered := dl |}
         {| pipe := p'; mem := m'; sent := s ++ take (Z.to_nat n) bs;
            delivered := dl ++ match cb with
                               | Some (len, _) => read_mem m' (read_ptr p) len
                               | None => [] end |}
(** Anything else may write to memory, except to the filled part of the buffer
    of a blocked read. *)
| step_memory p m s dl m' :
    (read_callback p <> None ->
       read_mem m' (read_ptr p) (read_progress p) = read_mem m (read_ptr p) (read_progress p)) ->
    step {| pipe := p; mem := m; sent := s; delivered := dl |}
         {| pipe := p; mem := m'; sent := s; delivered := dl |}.

Definition initial (m : gmap Z Z) : cfg :=
  {| pipe := new; mem := m; sent := []; delivered := [] |}.

(** The bytes a blocked read has received so far. *)
Definition partial (c : cfg) : list Z :=
  match read_callback (pipe c) with
  | Some _ => read_mem (mem c) (read_ptr (pipe c)) (read_progress (pipe c))
  | None => []
  end.

Definition inv (c : cfg) : Prop :=
  exists q pend, rep (pipe c) q pend /\ sent c = delivered c ++ partial c ++ q.

Lemma rep_idle p q pend : rep p q pend -> read_callback p = None -> pend = None.
Proof.
  intros [_ _ _ _ H] Hcb. destruct pend as [[[[ptr len] got] cb]|]; [|done].
  destruct H as (H & _). by rewrite Hcb in H.
Qed.

Lemma partial_rep p m s dl q pend :
  rep p q pend ->
  partial {| pipe := p; mem := m; sent := s; delivered := dl |} =
  match pend with Some (ptr, len, got, cb) => read_mem m ptr got | None => [] end.
Proof.
  intros [_ _ _ _ H]. unfold partial; simpl. destruct pend as [[[[ptr len] got] cb]|].
  - by destruct H as (-> & -> & _ & -> & _).
  - by destruct H as [-> _].
Qed.

Lemma read_mem_0 m a : read_mem m a 0 = [].
Proof. done. Qed.

Lemma read_step_inv p m s dl tr buf len ptr mode r p' m' :
  inv {| pipe := p; mem := m; sent := s; delivered := dl |} ->
  buffer_ok tr buf len ptr -> mode = NonBlocking \/ read_callback p = None ->
  read tr p m buf len mode = Some (r, p', m') ->
  inv {| pipe := p'; mem := m'; sent := s;
         delivered := dl ++ match r with Some n => read_mem m' ptr n | None => [] end |}.
Proof.
  intros (q & pend & Hrep & Hs) Hbuf Hmode Hread. simpl in Hrep, Hs.
  rewrite (partial_rep _ _ _ _ _ _ Hrep) in Hs.
  assert (Hmode' : mode = NonBlocking \/ pend = None).
  { destruct Hmode; [by left|right]. by eapply rep_idle. }
  destruct (read_spec tr p m buf len ptr mode q pend Hrep Hbuf Hmode') as (p1 & He & Hrep').
  rewrite Hread in He. injection He as -> -> ->. set (n := Z.min len (Z.of_nat (length q))) in *.
  assert (Hn : read_mem (write_mem m ptr (take (Z.to_nat n) q)) ptr n = take (Z.to_nat n) q).
  { rewrite <- (read_mem_write_all m ptr (take (Z.to_nat n) q)) at 2. f_equal.
    rewrite length_take. subst n. destruct Hbuf. lia. }
  eexists _, _. split; [exact Hrep'|]. rewrite (partial_rep _ _ _ _ _ _ Hrep'). simpl.
  destruct mode as [|cb].
  - destruct pend as [[[[ptr' len'] got] cb]|].
    + pose proof (rep_pending _ _ _ Hrep) as (_ & _ & _ & _ & _ & ->).
      rewrite take_nil, drop_nil in *. simpl in Hn. simpl. rewrite Hn.
      by rewrite Hs, !app_nil_r.
    + rewrite Hn, Hs. simpl. by rewrite <- app_assoc, take_drop.
  - destruct Hmode' as [| ->]; [done|]. destruct (Z.leb_spec len (Z.of_nat (length q))) as [Hle|Hgt].
    + rewrite Hn, Hs. simpl. by rewrite <- app_assoc, take_drop.
    + rewrite Hn, Hs. simpl. by rewrite app_nil_r, take_drop.
Qed.

Lemma write_step_inv p m s dl bs n cb p' m' :
  inv {| pipe := p; mem := m; sent := s; delivered := dl |} ->
  write p m bs = Some (n, cb, p', m') ->
  inv {| pipe := p'; mem := m'; sent := s ++ take (Z.to_nat n) bs;
         delivered := dl ++ match cb with
                            | Some (len, _) => read_mem m' (read_ptr p) len
                            | None => [] end |}.
Proof.
  intros (q & pend & Hrep & Hs) Hwrite. simpl in Hrep, Hs.
  rewrite (partial_rep _ _ _ _ _ _ Hrep) in Hs.
  destruct (write_spec p m bs q pend Hrep) as (p1 & He & Hrep' & _ & _).
  rewrite Hwrite in He. eexists _, _. split; [|].
  { injection He as -> -> -> ->. exact Hrep'. }
  simpl. injection He as -> -> -> ->. rewrite (partial_rep _ _ _ _ _ _ Hrep'). clear Hwrite.
  destruct pend as [[[[ptr len] got] cb']|].
  - pose proof (rep_pending _ _ _ Hrep) as (_ & Hptr & _ & _ & Hgot & ->). simpl.
    set (k := Z.min (len - got) (Z.of_nat (length bs))).
    set (j := Z.min (511 - Z.of_nat 0) (Z.of_nat (length bs) - k)).
    assert (Hk : read_mem (write_mem m (ptr + got) (take (Z.to_nat k) bs)) ptr (got + k) =
                 read_mem m ptr got ++ take (Z.to_nat k) bs).
    { rewrite <- read_mem_write by lia. f_equal. rewrite length_take. subst k. lia. }
    replace (Z.to_nat (k + j)) with (Z.to_nat k + Z.to_nat j)%nat by (subst j k; lia).
    rewrite <- take_take_drop, Hs, app_nil_r. destruct (Z.leb_spec len (got + k)).
    + rewrite Hptr. replace len with (got + k) by (subst k; lia). rewrite Hk.
      by rewrite <- !app_assoc.
    + rewrite Hk, app_nil_r, <- !app_assoc. done.
  - simpl. rewrite Z.sub_0_r, Z.add_0_l, drop_0, Hs. by rewrite !app_nil_r, <- app_assoc.
Qed.

Lemma step_inv_run c c' : inv c -> step c c' -> inv c'.
Proof.
  intros Hinv Hstep. destruct Hstep as [p m s dl tr buf len ptr mode r p' m' Hb Hm Hr|p m s dl bs n cb p' m' Hw|p m s dl m' Hm].
  - eapply read_step_inv; eauto.
  - eapply write_step_inv; eauto.
  - destruct Hinv as (q & pend & Hrep & Hs). simpl in *. exists q, pend. split; [done|].
    simpl. unfold partial in *. simpl in *. destruct (read_callback p); [|done]. by rewrite Hm.
Qed.

Lemma reachable_inv_run m c : rtc step (initial m) c -> inv c.
Proof.
  intros H. remember (initial m) as c0 eqn:Hc. assert (Hi : inv c0).
  { subst. exists [], None. split; [apply new_rep|done]. }
  clear Hc. induction H as [|c0 c1 c2 Hs _ IH]; [done|]. apply IH. by eapply step_inv_run.
Qed.
End PipeRun.

(** ** Properties *)


