(* ===== verification/PipeLifecycle.v ===== *)
(** * Life of a pipe

    The table of pipes and the table of open pipe ends of
    [kernel/src/pipes/driver.rs] (module [PipeDriver] of [Pipes]): every open
    end refers to a live pipe, every pipe counts its open ends, and a pipe is
    deleted with its last end. *)

From S2P Require Import Prelude Api Collections Pipes.

Module Lifecycle.
Import PipeDriver SlotListFacts.

Definition end_index (e : PipeEnd) : nat :=
  match e with Reader i => i | Writer i => i end.

(** Some instance of the end [e] is open. *)
Definition has (s : state) (e : PipeEnd) : Prop :=
  exists inst, SlotList.get (OPEN_PIPES s) inst = Some e.

(** A count of ends is 1 or 0, as the end is open or not. *)
Definition counts (n : Z) (P : Prop) : Prop := (n = 1 /\ P) \/ (n = 0 /\ ~ P).

#[export] Instance counts_proper n : Proper (iff ==> iff) (counts n).
Proof. intros P Q HPQ. unfold counts. by rewrite HPQ. Qed.

Lemma counts_close n P (e e0 : PipeEnd) :
  counts n P -> counts (if decide (e = e0) then 0 else n) (P /\ e0 <> e).
Proof. unfold counts. intros [[-> HP]|[-> HP]]; case_decide; subst; naive_solver. Qed.

Record inv (s : state) : Prop := {
  inv_live : forall inst e, SlotList.get (OPEN_PIPES s) inst = Some e ->
    is_Some (SlotList.get (PIPES s) (end_index e));
  inv_unique : forall inst inst' e, SlotList.get (OPEN_PIPES s) inst = Some e ->
    SlotList.get (OPEN_PIPES s) inst' = Some e -> inst = inst';
  inv_readers : forall i p, SlotList.get (PIPES s) i = Some p ->
    counts (Pipe.open_readers p) (has s (Reader i));
  inv_writers : forall i p, SlotList.get (PIPES s) i = Some p ->
    counts (Pipe.open_writers p) (has s (Writer i));
  inv_used : forall i, is_Some (SlotList.get (PIPES s) i) -> has s (Reader i) \/ has s (Writer i);
  inv_rep : forall i p, SlotList.get (PIPES s) i = Some p -> exists q pend, rep p q pend
}.

(** No read is blocked on the pipe behind the instance. *)
Definition not_blocked (s : state) (inst : nat) : Prop :=
  forall i p, SlotList.get (OPEN_PIPES s) inst = Some (Reader i) ->
    SlotList.get (PIPES s) i = Some p -> Pipe.read_callback p = None.

Inductive step : state -> state -> Prop :=
| step_create s r w s' : create_pipe s = Some (r, w, s') -> step s s'
| step_read s tr inst buf len ptr cb r s' :
    buffer_ok tr buf len ptr -> not_blocked s inst ->
    read tr s inst buf len cb = Some (r, s') -> step s s'
| step_write s inst bs r cs s' : write s inst bs = Some (r, cs, s') -> step s s'
| step_close s inst r s' : close s inst = Some (r, s') -> step s s'
| step_memory s m : step s {| PIPES := PIPES s; OPEN_PIPES := OPEN_PIPES s; memory := m |}.

(** ** Table lookups *)

Lemma get_new {T} i : SlotList.get (SlotList.new : SlotList.t T) i = None.
Proof. done. Qed.

Lemma get_set_pipe s i p m j :
  SlotList.get (PIPES (set_pipe s i p m)) j =
  if decide (j = i) then Some p else SlotList.get (PIPES s) j.
Proof. apply replace_spec. Qed.

Lemma initial_driver_inv m : inv (initial m).
Proof. constructor; simpl; setoid_rewrite get_new; (done || by intros i [? ?]). Qed.

(** Replacing a pipe by one with the same counts keeps the invariant. *)
Lemma update_inv s i p p' m :
  inv s -> SlotList.get (PIPES s) i = Some p ->
  Pipe.open_readers p' = Pipe.open_readers p -> Pipe.open_writers p' = Pipe.open_writers p ->
  (exists q pend, rep p' q pend) -> inv (set_pipe s i p' m).
Proof.
  intros [Hl Hu Hr Hw Hus Hrep] Hp Er Ew Hp'.
  constructor; unfold has; try setoid_rewrite get_set_pipe; simpl.
  - intros inst e He. case_decide; [by eexists|by eapply Hl].
  - done.
  - intros j x Hx. case_decide; simplify_eq; [rewrite Er|]; by apply Hr.
  - intros j x Hx. case_decide; simplify_eq; [rewrite Ew|]; by apply Hw.
  - intros j Hj. case_decide; subst; apply Hus; [by eexists|done].
  - intros j x Hx. case_decide; simplify_eq; [done|by eapply Hrep].
Qed.

Lemma read_counts tr p m buf len mode r p' m' :
  Pipe.read tr p m buf len mode = Some (r, p', m') ->
  Pipe.open_readers p' = Pipe.open_readers p /\ Pipe.open_writers p' = Pipe.open_writers p.
Proof.
  unfold Pipe.read. intros H. destruct Pipe.read_loop as [[[[f ?] ?] ?]|]; simpl in H; [|done].
  destruct f; [by simplify_eq|]. destruct mode; [by simplify_eq|].
  destruct (tr buf); simpl in H; [|done]. destruct Pipe.read_callback; by simplify_eq.
Qed.

Lemma write_counts p m bs n cb p' m' :
  Pipe.write p m bs = Some (n, cb, p', m') ->
  Pipe.open_readers p' = Pipe.open_readers p /\ Pipe.open_writers p' = Pipe.open_writers p.
Proof.
  unfold Pipe.write. intros H. apply bind_Some in H as ([[[[[? ?] ?] ?] ?] ?] & _ & H).
  apply bind_Some in H as ([[? ?] ?] & _ & H). by simplify_eq.
Qed.

(** ** Creation *)

Lemma create_pipe_spec s :
  inv s ->
  exists i r w s', create_pipe s = Some (r, w, s') /\ r <> w /\
    SlotList.get (PIPES s) i = None /\
    SlotList.get (OPEN_PIPES s) r = None /\ SlotList.get (OPEN_PIPES s) w = None /\
    (forall j, SlotList.get (PIPES s') j =
       if decide (j = i) then Some Pipe.new else SlotList.get (PIPES s) j) /\
    (forall j, SlotList.get (OPEN_PIPES s') j =
       if decide (j = w) then Some (Writer i)
       else if decide (j = r) then Some (Reader i) else SlotList.get (OPEN_PIPES s) j).
Proof.
  intros Hinv. unfold create_pipe.
  destruct (insert_spec (PIPES s) Pipe.new) as (i & pipes & -> & Hi & _ & Hp). simpl.
  destruct (insert_spec (OPEN_PIPES s) (Reader i)) as (r & o1 & -> & Hr & _ & Ho1). simpl.
  destruct (insert_spec o1 (Writer i)) as (w & o2 & -> & Hw & _ & Ho2). simpl.
  rewrite Ho1 in Hw. case_decide; [done|].
  eexists i, r, w, _. split; [done|]. split_and!; try done.
  intros j. simpl. rewrite Ho2, Ho1. done.
Qed.

Lemma create_inv s r w s' : inv s -> create_pipe s = Some (r, w, s') -> inv s'.
Proof.
  intros Hinv H. destruct (create_pipe_spec s Hinv) as
    (i & r' & w' & s1 & Hc & Hne & Hi & Hr & Hw & Hp & Ho). rewrite H in Hc. simplify_eq.
  destruct Hinv as [Hl Hu Hrd Hwr Hus Hrep].
  assert (Hno : forall inst e, SlotList.get (OPEN_PIPES s) inst = Some e -> end_index e <> i).
  { intros inst e He Heq. destruct (Hl inst e He) as [p Hx]. congruence. }
  assert (Hhas : forall e, has s1 e <-> e = Writer i \/ e = Reader i \/ has s e).
  { intros e. unfold has. setoid_rewrite Ho. split.
    - intros [inst He]. repeat case_decide; simplify_eq; eauto.
    - intros [-> | [-> | [inst He]]]; [exists w'|exists r'|exists inst]; repeat case_decide; congruence. }
  constructor.
  - intros inst e. rewrite Ho, Hp. intros He.
    repeat case_decide; simplify_eq; simpl in *; eauto; by rewrite ?decide_True by done.
  - intros a b e. rewrite !Ho. intros Ha Hb.
    repeat case_decide; simplify_eq; eauto; exfalso; by eapply Hno.
  - intros j p. rewrite Hp, (Hhas (Reader j)). intros Hj. case_decide; simplify_eq.
    + left. auto.
    + destruct (Hrd j p Hj) as [[? ?]|[? Hn]]; [left; auto|right].
      split; [done|]. intros [?|[?|?]]; simplify_eq; done.
  - intros j p. rewrite Hp, (Hhas (Writer j)). intros Hj. case_decide; simplify_eq.
    + left. auto.
    + destruct (Hwr j p Hj) as [[? ?]|[? Hn]]; [left; auto|right].
      split; [done|]. intros [?|[?|?]]; simplify_eq; done.
  - intros j. rewrite Hp, !Hhas. case_decide; [subst; auto|]. intros Hj.
    destruct (Hus j Hj); auto.
  - intros j p. rewrite Hp. case_decide; intros; simplify_eq; [|by eapply Hrep].
    exists [], None. apply new_rep.
Qed.

(** ** Closing an end *)

(** The end [e] goes away at instance [inst]; its pipe becomes [p'], or is
    deleted when no end is left. *)
Lemma close_end_inv s s' inst e p p' :
  inv s -> SlotList.get (OPEN_PIPES s) inst = Some e ->
  SlotList.get (PIPES s) (end_index e) = Some p ->
  Pipe.open_readers p' = (if decide (e = Reader (end_index e)) then 0 else Pipe.open_readers p) ->
  Pipe.open_writers p' = (if decide (e = Writer (end_index e)) then 0 else Pipe.open_writers p) ->
  (exists q pend, rep p' q pend) ->
  (forall j, SlotList.get (OPEN_PIPES s') j =
     if decide (j = inst) then None else SlotList.get (OPEN_PIPES s) j) ->
  (forall j, SlotList.get (PIPES s') j =
     if decide (j = end_index e) then
       if Pipe.is_read_open p' || Pipe.is_write_open p' then Some p' else None
     else SlotList.get (PIPES s) j) ->
  inv s'.
Proof.
  intros [Hl Hu Hrd Hwr Hus Hrep] He Hp Er Ew Hp' Ho Hpi.
  assert (Hhas : forall e', has s' e' <-> has s e' /\ e' <> e).
  { intros e'. unfold has. setoid_rewrite Ho. split.
    - intros [j Hj]. case_decide; [done|]. split; [by eexists|]. intros ->. by apply H, (Hu _ _ e).
    - intros [[j Hj] Hne]. exists j. rewrite decide_False; [done|].
      intros ->. apply Hne. rewrite He in Hj. by injection Hj. }
  assert (Hcr : counts (Pipe.open_readers p') (has s' (Reader (end_index e)))).
  { rewrite Hhas, Er. by apply counts_close, Hrd. }
  assert (Hcw : counts (Pipe.open_writers p') (has s' (Writer (end_index e)))).
  { rewrite Hhas, Ew. by apply counts_close, Hwr. }
  assert (Hlive : Pipe.is_read_open p' || Pipe.is_write_open p' = true <->
                  has s' (Reader (end_index e)) \/ has s' (Writer (end_index e))).
  { unfold Pipe.is_read_open, Pipe.is_write_open. rewrite orb_true_iff, !Z.ltb_lt.
    destruct Hcr as [[-> ?]|[-> ?]], Hcw as [[-> ?]|[-> ?]]; split; (lia || tauto). }
  clear Er Ew. constructor.
  - intros j e' Hj. assert (Hh : has s' e') by (by eexists).
    rewrite Ho in Hj. case_decide; [done|]. rewrite Hpi. case_decide as Hd; [|by eapply Hl].
    rewrite (proj2 Hlive); [by eexists|]. destruct e'; simpl in Hd; subst; auto.
  - intros a b e'. rewrite !Ho. repeat case_decide; [done..|]. apply Hu.
  - intros j x. rewrite Hpi. case_decide; [subst; destruct (_ || _); intros; by simplify_eq|].
    intros Hx. rewrite Hhas. destruct (Hrd _ _ Hx) as [[? ?]|[? ?]]; [left|right]; (split; [done|]).
    + split; [done|]. intros <-. done.
    + tauto.
  - intros j x. rewrite Hpi. case_decide; [subst; destruct (_ || _); intros; by simplify_eq|].
    intros Hx. rewrite Hhas. destruct (Hwr _ _ Hx) as [[? ?]|[? ?]]; [left|right]; (split; [done|]).
    + split; [done|]. intros <-. done.
    + tauto.
  - intros j. rewrite Hpi. case_decide; [subst|].
    + intros Hj. apply Hlive. by destruct (_ || _), Hj.
    + intros Hj. rewrite !Hhas. destruct (Hus _ Hj); [left|right]; (split; [done|]); by intros <-.
  - intros j x. rewrite Hpi. case_decide; [subst; destruct (_ || _); intros; by simplify_eq|].
    apply Hrep.
Qed.

(** The common tail of [close_reader] and [close_writer], inside [close]. *)
Lemma close_tail s inst i p' (b : bool) :
  exists s',
    (let s1 := set_pipe s i p' (memory s) in
     s2 ← Some <$> (if b then Some s1
                    else Some {| PIPES := (SlotList.remove (PIPES s1) i).2;
                                 OPEN_PIPES := OPEN_PIPES s1; memory := memory s1 |});
     match s2 with
     | None => Some (Some (Err FileHandleInvalid), s)
     | Some s => Some (Some (Ok 0 : IoResult),
         {| PIPES := PIPES s; OPEN_PIPES := (SlotList.remove (OPEN_PIPES s) inst).2;
            memory := memory s |})
     end) = Some (Some (Ok 0), s') /\
    (forall j, SlotList.get (OPEN_PIPES s') j =
       if decide (j = inst) then None else SlotList.get (OPEN_PIPES s) j) /\
    (forall j, SlotList.get (PIPES s') j =
       if decide (j = i) then if b then Some p' else None else SlotList.get (PIPES s) j).
Proof.
  destruct b; eexists; (split; [reflexivity|]); simpl; (split; [intros; apply remove_spec|]);
    intros j; rewrite ?(proj2 (remove_spec _ _)), !(proj2 (replace_spec _ _ _)); by repeat case_decide.
Qed.

(** What [close] does at an open end. *)
Lemma close_spec s inst e :
  inv s -> SlotList.get (OPEN_PIPES s) inst = Some e ->
  exists p p' s', SlotList.get (PIPES s) (end_index e) = Some p /\
    close s inst = Some (Some (Ok 0), s') /\ inv s' /\
    Pipe.read_callback p' = Pipe.read_callback p /\
    (forall j, SlotList.get (OPEN_PIPES s') j =
       if decide (j = inst) then None else SlotList.get (OPEN_PIPES s) j) /\
    (forall j, SlotList.get (PIPES s') j =
       if decide (j = end_index e) then
         if Pipe.is_read_open p' || Pipe.is_write_open p' then Some p' else None
       else SlotList.get (PIPES s) j).
Proof.
  intros Hinv He. destruct (inv_live s Hinv inst e He) as [p Hp].
  destruct (inv_rep s Hinv _ _ Hp) as (q & pend & Hq).
  set (p' := match e with Reader _ => Pipe.set_readers p 0 | Writer _ => Pipe.set_writers p 0 end).
  assert (Hc : exists s', close s inst = Some (Some (Ok 0), s') /\
    (forall j, SlotList.get (OPEN_PIPES s') j =
       if decide (j = inst) then None else SlotList.get (OPEN_PIPES s) j) /\
    (forall j, SlotList.get (PIPES s') j =
       if decide (j = end_index e) then
         if Pipe.is_read_open p' || Pipe.is_write_open p' then Some p' else None
       else SlotList.get (PIPES s) j)).
  { unfold close. rewrite He. destruct e as [i|i]; unfold end_index in *.
    - destruct (inv_readers s Hinv _ _ Hp) as [[Hn _]|[_ []]]; [|by eexists].
      unfold close_reader. rewrite Hp. unfold Pipe.close_reader. rewrite Hn.
      change (Pipe.set_readers p (u32 (1 - 1))) with p'. by apply close_tail.
    - destruct (inv_writers s Hinv _ _ Hp) as [[Hn _]|[_ []]]; [|by eexists].
      unfold close_writer. rewrite Hp. unfold Pipe.close_writer. rewrite Hn.
      change (Pipe.set_writers p (u32 (1 - 1))) with p'. by apply close_tail. }
  destruct Hc as (s' & Hc & Ho & Hpi). exists p, p', s'. split_and!; try done.
  - eapply (close_end_inv s s' inst e p p'); try done; subst p'; destruct e; simpl;
      rewrite ?decide_True, ?decide_False by done; try done; exists q, pend; by destruct Hq; constructor.
  - subst p'. by destruct e.
Qed.

(** ** Reading and writing *)

(** A read on an open reader, its pipe and its mode: non-blocking exactly when
    no writer is left. *)
Lemma read_open tr s inst i p buf len cb :
  SlotList.get (OPEN_PIPES s) inst = Some (Reader i) -> SlotList.get (PIPES s) i = Some p ->
  read tr s inst buf len cb =
    match Pipe.read tr p (memory s) buf len
            (if Pipe.is_write_open p then Pipe.Blocking cb else Pipe.NonBlocking) with
    | Some (r, p', m') =>
        if Pipe.is_write_open p then Some (Ok <$> r, set_pipe s i p' m')
        else match r with Some n => Some (Some (Ok n), set_pipe s i p' m') | None => None end
    | None => None
    end.
Proof.
  intros Ho Hp. unfold read, begin_read. rewrite Ho, Hp.
  destruct (Pipe.is_write_open p); simpl; [done|]. by destruct Pipe.read as [[[[n|] ?] ?]|].
Qed.

Lemma read_ok tr s inst i p buf len ptr cb :
  inv s -> buffer_ok tr buf len ptr -> not_blocked s inst ->
  SlotList.get (OPEN_PIPES s) inst = Some (Reader i) -> SlotList.get (PIPES s) i = Some p ->
  exists r s', read tr s inst buf len cb = Some (r, s') /\ inv s' /\
    (Pipe.is_write_open p = false -> exists n, r = Some (Ok n)).
Proof.
  intros Hinv Hb Hnb Ho Hp. rewrite (read_open tr s inst i p) by done.
  destruct (inv_rep s Hinv i p Hp) as (q & pend & Hrep).
  assert (Hidle : pend = None) by (eapply PipeRun.rep_idle; [done|]; by eapply Hnb). subst.
  set (mode := if Pipe.is_write_open p then Pipe.Blocking cb else Pipe.NonBlocking).
  destruct (read_spec tr p (memory s) buf len ptr mode q None Hrep Hb) as (p' & He & Hrep');
    [by right|].
  destruct (read_counts _ _ _ _ _ _ _ _ _ He) as [Er Ew]. rewrite He.
  destruct (Pipe.is_write_open p) eqn:Hw; subst mode; simpl; eexists _, _; (split; [done|]).
  - split; [|done]. eapply update_inv; [done..|]. by eexists _, _.
  - split; [|by eexists]. eapply update_inv; [done..|]. by eexists _, _.
Qed.

Lemma write_ok s inst i p bs :
  inv s -> SlotList.get (OPEN_PIPES s) inst = Some (Writer i) -> SlotList.get (PIPES s) i = Some p ->
  exists r cs s', write s inst bs = Some (r, cs, s') /\ inv s' /\
    (Pipe.is_read_open p = false -> r = Some (Err WriteToClosedIO) /\ s' = s).
Proof.
  intros Hinv Ho Hp. unfold write, write_pipe. rewrite Ho, Hp.
  destruct (Pipe.is_read_open p) eqn:Hr; simpl; [|by eexists _, _, _].
  destruct (inv_rep s Hinv i p Hp) as (q & pend & Hrep).
  destruct (write_spec p (memory s) bs q pend Hrep) as (p' & He & Hrep' & _ & _).
  destruct (write_counts _ _ _ _ _ _ _ He) as [Er Ew]. rewrite He.
  eexists _, _, _. split; [done|]. split; [|done]. eapply update_inv; [done..|]. by eexists _, _.
Qed.

Lemma step_inv_driver s s' : inv s -> step s s' -> inv s'.
Proof.
  intros Hinv Hs. destruct Hs as [s r w s' H|s tr inst buf len ptr cb r s' Hb Hnb H
                                 |s inst bs r cs s' H|s inst r s' H|s m].
  - by eapply create_inv.
  - destruct (SlotList.get (OPEN_PIPES s) inst) as [[i|i]|] eqn:Ho.
    + destruct (inv_live s Hinv _ _ Ho) as [p Hp].
      destruct (read_ok tr s inst i p buf len ptr cb) as (r' & s1 & He & Hi & _); try done.
      rewrite H in He. by simplify_eq.
    + unfold read in H. rewrite Ho in H. by simplify_eq.
    + unfold read in H. rewrite Ho in H. by simplify_eq.
  - destruct (SlotList.get (OPEN_PIPES s) inst) as [[i|i]|] eqn:Ho.
    + unfold write in H. rewrite Ho in H. by simplify_eq.
    + destruct (inv_live s Hinv _ _ Ho) as [p Hp].
      destruct (write_ok s inst i p bs) as (r' & cs' & s1 & He & Hi & _); try done.
      rewrite H in He. by simplify_eq.
    + unfold write in H. rewrite Ho in H. by simplify_eq.
  - destruct (SlotList.get (OPEN_PIPES s) inst) as [e|] eqn:Ho.
    + destruct (close_spec s inst e Hinv Ho) as (p & p' & s1 & _ & He & Hi & _).
      rewrite H in He. by simplify_eq.
    + unfold close in H. rewrite Ho in H. by simplify_eq/=.
  - destruct Hinv. by constructor.
Qed.

Lemma reachable_driver_inv m s : rtc step (initial m) s -> inv s.
Proof.
  intros H. remember (initial m) as s0 eqn:E. assert (inv s0) by (subst; apply initial_driver_inv).
  clear E. induction H; [done|]. by eapply IHrtc, step_inv_driver.
Qed.

(** ** Properties *)



(** closing the last writer strands a blocked read.  In every reachable
    state, closing the writer of a pipe on which a read is blocked succeeds,
    but the read stays blocked: its callback is still stored in the pipe, and
    no writer of that pipe exists any more that could complete it. *)
Theorem closing_writer_strands_read (m : gmap Z Z) (s : state) (inst i : nat) (p : Pipe.t) cb :
  rtc step (initial m) s ->
  SlotList.get (OPEN_PIPES s) inst = Some (Writer i) -> SlotList.get (PIPES s) i = Some p ->
  has s (Reader i) -> Pipe.read_callback p = Some cb ->
  exists s' p', close s inst = Some (Some (Ok 0), s') /\
    SlotList.get (PIPES s') i = Some p' /\ Pipe.read_callback p' = Some cb /\
    ~ has s' (Writer i).
Proof.
  intros Hr Ho Hp [ir Hrd] Hcb. apply reachable_driver_inv in Hr as Hinv.
  destruct (close_spec s inst _ Hinv Ho) as (p0 & p' & s' & Hp0 & Hc & Hinv' & Hcb' & Ho' & Hpi).
  simpl in *. rewrite Hp in Hp0. simplify_eq.
  assert (Hno : ~ has s' (Writer i)).
  { intros [j Hj]. rewrite Ho' in Hj. case_decide; [done|]. by apply H, (inv_unique s Hinv _ _ (Writer i)). }
  exists s', p'. split_and!; try done; [|congruence].
  assert (Hl : is_Some (SlotList.get (PIPES s') i)).
  { apply (inv_live s' Hinv' ir (Reader i)). rewrite Ho'. case_decide; [congruence|done]. }
  rewrite Hpi, decide_True in Hl |- * by done. destruct (_ || _); [done|by destruct Hl].
Qed.

Lemma stranded_read_witness :
  exists s0 s, create_pipe (initial ∅) = Some (0%nat, 1%nat, s0) /\
    read (fun v => Some (0x5000 + v)) s0 0 0x10 3 (7, 8, 9) = Some (None, s) /\
    exists s' p', close s 1 = Some (Some (Ok 0), s') /\
      SlotList.get (PIPES s') 0 = Some p' /\ Pipe.read_callback p' = Some (7, 8, 9).
Proof.
  eexists _, _. split; [vm_compute; reflexivity|]. split; [vm_compute; reflexivity|].
  match goal with |- exists s' p', close ?s 1 = _ /\ _ =>
    assert (Hr : rtc step (initial ∅) s) end.
  { eapply rtc_l; [eapply (step_create _ 0%nat 1%nat); vm_compute; reflexivity|].
    eapply rtc_once, (step_read _ (fun v => Some (0x5000 + v)) 0 0x10 3 0x5010 (7, 8, 9));
      [|intros i p Ho Hp; vm_compute in Ho, Hp; by simplify_eq|vm_compute; reflexivity].
    constructor; [lia|word|vm_compute; discriminate|]. intros i Hi. f_equal. lia. }
  destruct (closing_writer_strands_read ∅ _ 1 0 _ (7, 8, 9) Hr eq_refl eq_refl)
    as (s' & p' & Hc & Hp & Hcb & _); [by exists 0%nat|reflexivity|]. by exists s', p'.
Defined.
End Lifecycle.
