(* ===== verification/FatHash.v ===== *)
(** * The hash table of the sector cache

    Linear probing with deletion by reinsertion, from
    [components/drivers/fatdriver/src/disk.rs] ([hash_lookup], [hash_insert],
    [hash_remove]).  [hash_ok] is the invariant of the table: every occupied
    cell is reached from the home of its sector without crossing an empty
    cell.  The lemmas give each operation as an operation on the set of slots
    the table holds; the removal loop is shown to terminate. *)

From S2P Require Import Prelude FatDisk.
Import DiskAccess.

Lemma hash_size : HASH_TABLE_SIZE = 256%nat.
Proof. done. Qed.

Lemma size_pos : (0 < HASH_TABLE_SIZE)%nat.
Proof. unfold HASH_TABLE_SIZE. lia. Qed.

#[local] Opaque HASH_TABLE_SIZE.

(** The cell [d] steps after [h]. *)
Definition pos (h d : nat) : nat := ((h + d) mod HASH_TABLE_SIZE)%nat.

Lemma pos_lt (h d : nat) : (pos h d < HASH_TABLE_SIZE)%nat.
Proof. pose proof size_pos. apply Nat.mod_upper_bound. lia. Qed.

Lemma pos_0 (h : nat) : (h < HASH_TABLE_SIZE)%nat -> pos h 0 = h.
Proof. intros. unfold pos. rewrite Nat.add_0_r. by apply Nat.mod_small. Qed.

Lemma pos_pos (h d e : nat) : pos (pos h d) e = pos h (d + e).
Proof. pose proof size_pos. unfold pos. rewrite Nat.Div0.add_mod_idemp_l. f_equal. lia. Qed.

Lemma next_index_mod (i : nat) : next_index i = pos i 1.
Proof.
  unfold next_index, pos. Transparent HASH_TABLE_SIZE. unfold HASH_TABLE_SIZE.
  change (256 - 1)%nat with (Nat.ones 8). rewrite Nat.land_ones. done.
  Opaque HASH_TABLE_SIZE.
Qed.

Lemma next_pos (h d : nat) : next_index (pos h d) = pos h (S d).
Proof. rewrite next_index_mod, pos_pos. f_equal. lia. Qed.

Lemma hash_lba_lt (k : Z) : (hash_lba k < HASH_TABLE_SIZE)%nat.
Proof.
  unfold hash_lba. Transparent HASH_TABLE_SIZE. unfold HASH_TABLE_SIZE.
  change (Z.of_nat 256 - 1) with (Z.ones 8). rewrite Z.land_ones by lia.
  pose proof (Z.mod_pos_bound (u32 (k * 2654435761) ≫ 16) (2 ^ 8)). lia.
  Opaque HASH_TABLE_SIZE.
Qed.

Definition occ (tab : list Z) (p : nat) : Prop :=
  exists s, tab !! p = Some s /\ s <> HASH_EMPTY.

(** The occupied cells. *)
Definition slots (tab : list Z) : list Z := filter (fun s => s <> HASH_EMPTY) tab.

Definition reach (tab : list Z) (h p : nat) : Prop :=
  exists d, (d < HASH_TABLE_SIZE)%nat /\ p = pos h d /\
    forall d', (d' <= d)%nat -> occ tab (pos h d').

Record hash_ok (tab : list Z) (L : list Z) (entries : list CacheEntry) : Prop := {
  ok_length : length tab = HASH_TABLE_SIZE;
  ok_slots : slots tab ≡ₚ L;
  ok_reach p s : tab !! p = Some s -> s <> HASH_EMPTY ->
    0 <= s < HASH_EMPTY /\
    exists e, entries !! Z.to_nat s = Some e /\ reach tab (hash_lba (lba e)) p
}.

(** ** Cells *)

Lemma occ_dec (tab : list Z) (p : nat) :
  (p < length tab)%nat -> occ tab p \/ tab !! p = Some HASH_EMPTY.
Proof.
  intros H. destruct (lookup_lt_is_Some_2 _ _ H) as [s Hs].
  destruct (decide (s = HASH_EMPTY)) as [->|]; [by right|left; by exists s].
Qed.

Lemma occ_insert (tab : list Z) (p q : nat) (s : Z) :
  s <> HASH_EMPTY -> (q < length tab)%nat -> occ tab p -> occ (<[q := s]> tab) p.
Proof.
  intros Hs Hq (s' & Hp & Hs'). destruct (decide (p = q)) as [->|Hne].
  - exists s. by rewrite list_lookup_insert_eq.
  - exists s'. by rewrite list_lookup_insert_ne.
Qed.

Lemma occ_clear (tab : list Z) (p q : nat) :
  p <> q -> occ tab p -> occ (<[q := HASH_EMPTY]> tab) p.
Proof. intros Hne (s' & Hp & Hs'). exists s'. by rewrite list_lookup_insert_ne by done. Qed.

Lemma slots_set (tab : list Z) (p : nat) (s : Z) :
  tab !! p = Some HASH_EMPTY -> s <> HASH_EMPTY -> slots (<[p := s]> tab) ≡ₚ s :: slots tab.
Proof.
  intros Hp Hs. pose proof (lookup_lt_Some _ _ _ Hp) as Hlt.
  rewrite insert_take_drop by done. rewrite <- (take_drop_middle _ _ _ Hp) at 3.
  unfold slots. rewrite !filter_app, !filter_cons, decide_True, decide_False by congruence.
  symmetry. apply Permutation_middle.
Qed.

Lemma slots_clear (tab : list Z) (p : nat) (s : Z) :
  tab !! p = Some s -> s <> HASH_EMPTY -> slots tab ≡ₚ s :: slots (<[p := HASH_EMPTY]> tab).
Proof.
  intros Hp Hs. pose proof (lookup_lt_Some _ _ _ Hp) as Hlt.
  rewrite <- (slots_set _ p) by (by rewrite ?list_lookup_insert_eq).
  by rewrite list_insert_insert_eq, list_insert_id.
Qed.

Lemma slots_elem (tab : list Z) (s : Z) :
  s ∈ slots tab <-> s <> HASH_EMPTY /\ exists p, tab !! p = Some s.
Proof. unfold slots. rewrite list_elem_of_filter, list_elem_of_lookup. done. Qed.

Lemma slots_full (tab : list Z) : (forall p, (p < length tab)%nat -> occ tab p) -> slots tab = tab.
Proof.
  intros Hall. apply filter_all, Forall_lookup_2. intros p s Hp.
  destruct (Hall p) as (s' & Hp' & Hs'); [by eapply lookup_lt_Some|congruence].
Qed.

(** From any cell there is a first empty one, if the table is not full. *)
Lemma first_empty (tab : list Z) (h : nat) :
  length tab = HASH_TABLE_SIZE -> (h < HASH_TABLE_SIZE)%nat ->
  (length (slots tab) < HASH_TABLE_SIZE)%nat ->
  exists d, (d < HASH_TABLE_SIZE)%nat /\ tab !! pos h d = Some HASH_EMPTY /\
    forall d', (d' < d)%nat -> occ tab (pos h d').
Proof.
  intros Hl Hh Hlt.
  assert (forall n, (n <= HASH_TABLE_SIZE)%nat ->
    (exists d, (d < n)%nat /\ tab !! pos h d = Some HASH_EMPTY /\
       forall d', (d' < d)%nat -> occ tab (pos h d')) \/
    (forall d, (d < n)%nat -> occ tab (pos h d))) as Hn.
  { induction n as [|n IH]; intros Hle; [right; lia|].
    destruct IH as [(d & ? & ? & ?)|Hall]; [lia|left; exists d; eauto with lia|].
    destruct (occ_dec tab (pos h n)) as [Ho|He]; [pose proof (pos_lt h n); lia|..].
    - right. intros d Hd. destruct (decide (d = n)) as [->|]; [done|apply Hall; lia].
    - left. exists n. split; [lia|]. split; [done|]. intros d' ?. apply Hall. lia. }
  destruct (Hn HASH_TABLE_SIZE) as [|Hall]; [done|done|].
  exfalso. rewrite slots_full, Hl in Hlt; [lia|]. intros p Hp.
  assert (p = pos h ((p + HASH_TABLE_SIZE - h) mod HASH_TABLE_SIZE)%nat) as ->.
  { unfold pos. rewrite Nat.Div0.add_mod_idemp_r.
    replace (h + (p + HASH_TABLE_SIZE - h))%nat with (p + 1 * HASH_TABLE_SIZE)%nat by lia.
    rewrite Nat.Div0.mod_add, Nat.mod_small; lia. }
  apply Hall, Nat.mod_upper_bound. lia.
Qed.

(** ** Insertion *)

Lemma insert_loop_at (tab : list Z) (slot n idx d : nat) :
  (d < n)%nat -> (idx < HASH_TABLE_SIZE)%nat ->
  tab !! pos idx d = Some HASH_EMPTY -> (forall d', (d' < d)%nat -> occ tab (pos idx d')) ->
  insert_loop tab slot n idx = Some (<[pos idx d := u16 (Z.of_nat slot)]> tab).
Proof.
  revert idx d. induction n as [|n IH]; intros idx d Hd Hi He Hocc; [lia|]. simpl.
  destruct d as [|d].
  - rewrite pos_0 in He |- * by done. by rewrite He.
  - destruct (Hocc 0%nat) as (s & Hs & Hne); [lia|]. rewrite pos_0 in Hs by done. rewrite Hs. simpl.
    rewrite (proj2 (Z.eqb_neq _ _)) by done.
    rewrite next_index_mod. rewrite (IH (pos idx 1) d), pos_pos; [done|lia|apply pos_lt|by rewrite pos_pos|].
    intros d' ?. rewrite pos_pos. apply Hocc. lia.
Qed.

(** [hash_insert] fills the first empty cell from the home of [k]. *)
Lemma table_insert_at (tab : list Z) (k : Z) (slot : nat) :
  length tab = HASH_TABLE_SIZE -> (length (slots tab) < HASH_TABLE_SIZE)%nat ->
  exists d, (d < HASH_TABLE_SIZE)%nat /\ tab !! pos (hash_lba k) d = Some HASH_EMPTY /\
    (forall d', (d' < d)%nat -> occ tab (pos (hash_lba k) d')) /\
    table_insert tab k slot = Some (<[pos (hash_lba k) d := u16 (Z.of_nat slot)]> tab).
Proof.
  intros Hl Hlt. pose proof (hash_lba_lt k) as Hh.
  destruct (first_empty tab (hash_lba k)) as (d & Hd & He & Hocc); [done..|].
  exists d. do 3 (split; [done|]). by apply insert_loop_at.
Qed.

Lemma slot_word (slot : nat) : Z.of_nat slot < HASH_EMPTY -> u16 (Z.of_nat slot) = Z.of_nat slot.
Proof. unfold HASH_EMPTY. intros. word. Qed.

Lemma reach_insert (tab : list Z) (h p q : nat) (s : Z) :
  s <> HASH_EMPTY -> (q < length tab)%nat -> reach tab h p -> reach (<[q := s]> tab) h p.
Proof.
  intros Hs Hq (d & Hd & -> & Hocc). exists d. split; [done|]. split; [done|].
  intros d' ?. apply occ_insert; auto.
Qed.

Lemma hash_insert_ok (tab L : list Z) (entries entries' : list CacheEntry) (k : Z) (slot : nat) (e : CacheEntry) :
  hash_ok tab L entries -> (length L < HASH_TABLE_SIZE)%nat -> Z.of_nat slot < HASH_EMPTY ->
  entries' !! slot = Some e -> lba e = k ->
  (forall s, s ∈ L -> entries' !! Z.to_nat s = entries !! Z.to_nat s) ->
  exists tab', table_insert tab k slot = Some tab' /\ hash_ok tab' (Z.of_nat slot :: L) entries'.
Proof.
  intros [Hl Hs Hr] Hlt Hslot He Hk Hsame.
  destruct (table_insert_at tab k slot) as (d & Hd & Hemp & Hocc & ->); [done|by rewrite Hs|].
  rewrite slot_word by done. eexists; split; [done|].
  pose proof (pos_lt (hash_lba k) d) as Hlp. rewrite <- Hl in Hlp.
  split; [by rewrite length_insert|rewrite slots_set, Hs; [done|done|lia]|].
  intros p s Hp Hne. destruct (decide (p = pos (hash_lba k) d)) as [->|Hpne].
  - rewrite list_lookup_insert_eq in Hp by done. injection Hp as <-. split; [lia|].
    exists e. rewrite Nat2Z.id. split; [done|]. rewrite Hk. exists d. do 2 (split; [done|]).
    intros d' Hd'. destruct (decide (d' = d)) as [->|].
    + eexists. split; [by apply list_lookup_insert_eq|done].
    + apply occ_insert; [done..|]. apply Hocc. lia.
  - rewrite list_lookup_insert_ne in Hp by done. destruct (Hr p s Hp Hne) as (Hsr & e' & He' & Hreach).
    split; [done|]. exists e'. rewrite Hsame; [split; [done|]|].
    + by apply reach_insert; [lia|..].
    + rewrite <- Hs. apply slots_elem. eauto.
Qed.

(** ** Lookup *)

Section Lookup.
Context (tab L : list Z) (entries : list CacheEntry) (Hok : hash_ok tab L entries).

Lemma lookup_loop_found (k : Z) (n d idx : nat) (s : Z) (e : CacheEntry) :
  (d < n)%nat -> (idx < HASH_TABLE_SIZE)%nat -> (forall d', (d' <= d)%nat -> occ tab (pos idx d')) ->
  tab !! pos idx d = Some s -> entries !! Z.to_nat s = Some e -> lba e = k ->
  exists i e', lookup_loop tab entries k n idx = Some (Some i) /\ entries !! i = Some e' /\ lba e' = k.
Proof.
  revert d idx. induction n as [|n IH]; intros d idx Hd Hi Hocc Hs He Hk; [lia|]. simpl.
  destruct (Hocc 0%nat) as (s0 & Hs0 & Hne); [lia|].
  rewrite pos_0 in Hs0 by done. rewrite Hs0. simpl. rewrite (proj2 (Z.eqb_neq _ _)) by done.
  destruct (ok_reach _ _ _ Hok _ _ Hs0 Hne) as (Hr & e0 & He0 & _). rewrite He0. simpl.
  destruct (Z.eqb_spec (lba e0) k) as [|Hke]; [by eauto|].
  destruct d as [|d]; [rewrite pos_0 in Hs by done; congruence|].
  rewrite next_index_mod. apply (IH d); [lia|apply pos_lt|..|done|done].
  - intros d' ?. rewrite pos_pos. apply Hocc. lia.
  - by rewrite pos_pos.
Qed.

Lemma lookup_loop_absent (k : Z) (n idx : nat) :
  (idx < HASH_TABLE_SIZE)%nat -> (forall s e, s ∈ L -> entries !! Z.to_nat s = Some e -> lba e <> k) ->
  lookup_loop tab entries k n idx = Some None.
Proof.
  revert idx. induction n as [|n IH]; intros idx Hi Habs; [done|]. simpl.
  destruct (lookup_lt_is_Some_2 tab idx) as [s Hs]; [by rewrite (ok_length _ _ _ Hok)|].
  rewrite Hs. simpl. destruct (Z.eqb_spec s HASH_EMPTY) as [|Hne]; [done|].
  destruct (ok_reach _ _ _ Hok _ _ Hs Hne) as (_ & e0 & He0 & _). rewrite He0. simpl.
  rewrite (proj2 (Z.eqb_neq _ _)).
  - rewrite next_index_mod. apply IH; [apply pos_lt|done].
  - apply (Habs s); [|done]. rewrite <- (ok_slots _ _ _ Hok). apply slots_elem. eauto.
Qed.

Lemma remove_loop_found (k : Z) (n d idx : nat) (s : Z) (e : CacheEntry) :
  (d < n)%nat -> (idx < HASH_TABLE_SIZE)%nat -> (forall d', (d' <= d)%nat -> occ tab (pos idx d')) ->
  tab !! pos idx d = Some s -> entries !! Z.to_nat s = Some e -> lba e = k ->
  exists p s' e', tab !! p = Some s' /\ s' <> HASH_EMPTY /\ entries !! Z.to_nat s' = Some e' /\ lba e' = k /\
    remove_loop tab entries k n idx =
      rehash_loop HASH_TABLE_SIZE (<[p := HASH_EMPTY]> tab) entries (next_index p).
Proof.
  revert d idx. induction n as [|n IH]; intros d idx Hd Hi Hocc Hs He Hk; [lia|]. simpl.
  destruct (Hocc 0%nat) as (s0 & Hs0 & Hne); [lia|].
  rewrite pos_0 in Hs0 by done. rewrite Hs0. simpl. rewrite (proj2 (Z.eqb_neq _ _)) by done.
  destruct (ok_reach _ _ _ Hok _ _ Hs0 Hne) as (Hr & e0 & He0 & _). rewrite He0. simpl.
  destruct (Z.eqb_spec (lba e0) k) as [|Hke]; [by exists idx, s0, e0|].
  destruct d as [|d]; [rewrite pos_0 in Hs by done; congruence|].
  rewrite next_index_mod. apply (IH d); [lia|apply pos_lt|..|done|done].
  - intros d' ?. rewrite pos_pos. apply Hocc. lia.
  - by rewrite pos_pos.
Qed.

(** Every slot of the table is found from the home of its sector. *)
Lemma slot_reached (s : Z) : s ∈ L ->
  0 <= s < HASH_EMPTY /\ exists e d, entries !! Z.to_nat s = Some e /\ (d < HASH_TABLE_SIZE)%nat /\
    tab !! pos (hash_lba (lba e)) d = Some s /\
    forall d', (d' <= d)%nat -> occ tab (pos (hash_lba (lba e)) d').
Proof.
  rewrite <- (ok_slots _ _ _ Hok), slots_elem. intros (Hne & p & Hp).
  destruct (ok_reach _ _ _ Hok _ _ Hp Hne) as (Hr & e & He & d & Hd & -> & Hocc). eauto 10.
Qed.
End Lookup.

(** ** Removal

    The cells are numbered from the one after an empty cell [q], so that no
    probe sequence wraps around.  When the loop stands at cell [j], the cells
    before [j] are already in order; a probe sequence that ends later may
    still cross the gap that opened at [p]. *)
Section Removal.
Context (entries : list CacheEntry) (q : nat) (Hq : (q < HASH_TABLE_SIZE)%nat).

Definition cell (c : nat) : nat := pos (q + 1) c.
Definition home (e : CacheEntry) : nat :=
  ((hash_lba (lba e) + HASH_TABLE_SIZE - (q + 1)) mod HASH_TABLE_SIZE)%nat.

Lemma cell_home (e : CacheEntry) (d : nat) : pos (hash_lba (lba e)) d = cell (home e + d).
Proof.
  pose proof (hash_lba_lt (lba e)). unfold cell, home, pos.
  rewrite (Nat.add_comm (_ mod _)), Nat.add_assoc, Nat.Div0.add_mod_idemp_r.
  replace (q + 1 + d + (hash_lba (lba e) + HASH_TABLE_SIZE - (q + 1)))%nat
    with (hash_lba (lba e) + d + 1 * HASH_TABLE_SIZE)%nat by lia.
  by rewrite Nat.Div0.mod_add.
Qed.

Lemma home_lt (e : CacheEntry) : (home e < HASH_TABLE_SIZE)%nat.
Proof. pose proof size_pos. apply Nat.mod_upper_bound. lia. Qed.

Lemma cell_last : cell (HASH_TABLE_SIZE - 1) = q.
Proof.
  pose proof size_pos. unfold cell, pos.
  replace (q + 1 + (HASH_TABLE_SIZE - 1))%nat with (q + 1 * HASH_TABLE_SIZE)%nat by lia.
  by rewrite Nat.Div0.mod_add, Nat.mod_small.
Qed.

Lemma cell_inj (c c' : nat) :
  (c < HASH_TABLE_SIZE)%nat -> (c' < HASH_TABLE_SIZE)%nat -> cell c = cell c' -> c = c'.
Proof.
  unfold cell, pos. intros Hc Hc' Heq.
  pose proof (Nat.Div0.div_mod (q + 1 + c) HASH_TABLE_SIZE).
  pose proof (Nat.Div0.div_mod (q + 1 + c') HASH_TABLE_SIZE). rewrite Heq in *.
  assert ((q + 1 + c) / HASH_TABLE_SIZE = (q + 1 + c') / HASH_TABLE_SIZE)%nat; nia.
Qed.

Lemma cell_surj (p : nat) : (p < HASH_TABLE_SIZE)%nat -> exists c, (c < HASH_TABLE_SIZE)%nat /\ p = cell c.
Proof.
  intros Hp. exists ((p + HASH_TABLE_SIZE - (q + 1)) mod HASH_TABLE_SIZE)%nat.
  split; [apply Nat.mod_upper_bound; lia|]. unfold cell, pos. rewrite Nat.Div0.add_mod_idemp_r.
  replace (q + 1 + (p + HASH_TABLE_SIZE - (q + 1)))%nat with (p + 1 * HASH_TABLE_SIZE)%nat by lia.
  by rewrite Nat.Div0.mod_add, Nat.mod_small.
Qed.

Record gap_ok (p j : nat) (tab : list Z) : Prop := {
  gap_length : length tab = HASH_TABLE_SIZE;
  gap_end : tab !! q = Some HASH_EMPTY;
  gap_cell c s : (c < HASH_TABLE_SIZE)%nat -> tab !! cell c = Some s -> s <> HASH_EMPTY ->
    0 <= s < HASH_EMPTY /\
    exists e, entries !! Z.to_nat s = Some e /\ (home e <= c)%nat /\
      forall y, (home e <= y <= c)%nat -> ((c < j)%nat \/ ~ (p <= y < j)%nat) -> occ tab (cell y)
}.

(** Reinserting the slot of cell [j] puts it at or before [j]. *)
Lemma gap_reinsert (p j : nat) (tab : list Z) (s : Z) (e : CacheEntry) :
  gap_ok p j tab -> (p <= j)%nat -> (j < HASH_TABLE_SIZE)%nat -> tab !! cell j = Some s -> s <> HASH_EMPTY ->
  entries !! Z.to_nat s = Some e ->
  exists c, (home e <= c <= j)%nat /\ <[cell j := HASH_EMPTY]> tab !! cell c = Some HASH_EMPTY /\
    (forall y, (home e <= y < c)%nat -> occ (<[cell j := HASH_EMPTY]> tab) (cell y)) /\
    table_insert (<[cell j := HASH_EMPTY]> tab) (lba e) (Z.to_nat s) =
      Some (<[cell c := s]> (<[cell j := HASH_EMPTY]> tab)).
Proof.
  intros Hgap Hpj Hj Hs Hne He.
  destruct (gap_cell _ _ _ Hgap _ _ Hj Hs Hne) as (Hsr & e' & He' & Hh & _). simplify_eq.
  pose proof (lookup_lt_Some _ _ _ Hs) as Hlt.
  destruct (table_insert_at (<[cell j := HASH_EMPTY]> tab) (lba e) (Z.to_nat s)) as (d & Hd & Hemp & Hocc & Hins).
  { rewrite length_insert. apply Hgap. }
  { pose proof (slots_clear _ _ _ Hs Hne) as Hp. apply Permutation_length in Hp. simpl in Hp.
    assert (length (slots tab) <= length tab)%nat by apply length_filter.
    rewrite (gap_length _ _ _ Hgap) in *. lia. }
  rewrite slot_word, Z2Nat.id in Hins by lia.
  rewrite cell_home in Hemp, Hins. exists (home e + d)%nat.
  assert (home e + d <= j)%nat.
  { destruct (Nat.le_gt_cases (home e + d) j); [done|]. exfalso.
    destruct (Hocc (j - home e)%nat) as (s' & Hs' & Hne'); [lia|].
    rewrite cell_home in Hs'. replace (home e + (j - home e))%nat with j in Hs' by lia.
    rewrite list_lookup_insert_eq in Hs' by done. congruence. }
  split; [lia|]. split; [done|]. split; [|done]. intros y Hy.
  specialize (Hocc (y - home e)%nat). rewrite cell_home in Hocc.
  replace (home e + (y - home e))%nat with y in Hocc by lia. apply Hocc. lia.
Qed.

Lemma gap_step (p j c : nat) (tab : list Z) (s : Z) (e : CacheEntry) :
  gap_ok p j tab -> (p <= j)%nat -> (j < HASH_TABLE_SIZE - 1)%nat -> tab !! cell j = Some s -> s <> HASH_EMPTY ->
  entries !! Z.to_nat s = Some e -> (home e <= c <= j)%nat ->
  (forall y, (home e <= y < c)%nat -> occ (<[cell j := HASH_EMPTY]> tab) (cell y)) ->
  gap_ok p (S j) (<[cell c := s]> (<[cell j := HASH_EMPTY]> tab)).
Proof.
  intros Hgap Hpj Hj Hs Hne He Hc Hocc.
  pose proof (gap_length _ _ _ Hgap) as Hl. pose proof (pos_lt (q + 1) c). pose proof (pos_lt (q + 1) j).
  assert (forall y, (y < HASH_TABLE_SIZE)%nat -> y <> j -> occ tab (cell y) ->
    occ (<[cell c := s]> (<[cell j := HASH_EMPTY]> tab)) (cell y)) as Hkeep.
  { intros y Hy Hyj Ho. apply occ_insert; [done|unfold cell; rewrite length_insert; lia|].
    apply occ_clear; [|done]. intros ?%cell_inj; lia. }
  split; [by rewrite !length_insert|..].
  - rewrite <- cell_last, !list_lookup_insert_ne, cell_last; [apply Hgap|intros ?%cell_inj; lia..].
  - intros x s' Hx Hs' Hne'. destruct (decide (x = c)) as [->|Hxc].
    + rewrite list_lookup_insert_eq in Hs' by (unfold cell; rewrite length_insert; lia). simplify_eq.
      destruct (gap_cell _ _ _ Hgap j s') as (Hsr & _); [lia|done..|].
      split; [done|]. exists e. split; [done|]. split; [lia|]. intros y Hy _.
      destruct (decide (y = c)) as [->|].
      * exists s'. split; [|done]. apply list_lookup_insert_eq. unfold cell. rewrite length_insert. lia.
      * apply occ_insert; [done|unfold cell; rewrite length_insert; lia|]. apply Hocc. lia.
    + rewrite list_lookup_insert_ne in Hs' by (intros ?%cell_inj; lia).
      destruct (decide (x = j)) as [->|Hxj].
      { rewrite list_lookup_insert_eq in Hs' by (unfold cell; lia). congruence. }
      rewrite list_lookup_insert_ne in Hs' by (intros ?%cell_inj; lia).
      destruct (gap_cell _ _ _ Hgap x s') as (Hsr & e' & He' & Hh & Hpath); [done..|].
      split; [done|]. exists e'. split; [done|]. split; [done|]. intros y Hy Hcond.
      apply Hkeep; [lia| |apply Hpath; lia]. lia.
Qed.

Lemma rehash_loop_ok (p j fuel : nat) (tab : list Z) :
  gap_ok p j tab -> (p <= j)%nat -> (j < HASH_TABLE_SIZE)%nat -> (HASH_TABLE_SIZE - j <= fuel)%nat ->
  exists tab' j', rehash_loop fuel tab entries (cell j) = Some tab' /\ (p <= j' < HASH_TABLE_SIZE)%nat /\
    gap_ok p j' tab' /\ tab' !! cell j' = Some HASH_EMPTY /\ slots tab' ≡ₚ slots tab.
Proof.
  revert j tab. induction fuel as [|fuel IH]; intros j tab Hgap Hpj Hj Hfuel; [lia|]. simpl.
  destruct (lookup_lt_is_Some_2 tab (cell j)) as [s Hs].
  { rewrite (gap_length _ _ _ Hgap). apply pos_lt. }
  rewrite Hs. simpl. destruct (Z.eqb_spec s HASH_EMPTY) as [->|Hne].
  { exists tab, j. split_and!; done || lia. }
  assert (j < HASH_TABLE_SIZE - 1)%nat as Hj1.
  { destruct (decide (j = HASH_TABLE_SIZE - 1)%nat) as [->|]; [|lia].
    rewrite cell_last, (gap_end _ _ _ Hgap) in Hs. congruence. }
  destruct (gap_cell _ _ _ Hgap j s) as (_ & e & He & _); [done..|]. rewrite He. simpl.
  destruct (gap_reinsert p j tab s e) as (c & Hc & Hemp & Hocc & ->); [done..|]. simpl.
  unfold cell at 3. rewrite next_pos. fold (cell (S j)).
  destruct (IH (S j) (<[cell c := s]> (<[cell j := HASH_EMPTY]> tab))) as (tab' & j' & Hr & Hj' & Hg' & He' & Hp);
    [by eapply gap_step|lia..|].
  exists tab', j'. split; [done|]. split; [lia|]. do 2 (split; [done|]).
  rewrite Hp, slots_set by done. symmetry. by apply slots_clear.
Qed.
End Removal.

(** Clearing a cell opens a gap there. *)
Lemma gap_open (tab L : list Z) (entries : list CacheEntry) (q cp : nat) :
  hash_ok tab L entries -> tab !! q = Some HASH_EMPTY -> (q < HASH_TABLE_SIZE)%nat ->
  (cp < HASH_TABLE_SIZE - 1)%nat ->
  gap_ok entries q cp (S cp) (<[cell q cp := HASH_EMPTY]> tab).
Proof.
  intros [Hl Hs Hr] Hemp Hq Hcp. split.
  - by rewrite length_insert.
  - rewrite list_lookup_insert_ne; [done|]. rewrite <- (cell_last q Hq) at 2. intros ?%cell_inj; lia.
  - intros c s Hc Hcs Hne. destruct (decide (c = cp)) as [->|Hccp].
    { rewrite list_lookup_insert_eq in Hcs by (rewrite Hl; apply pos_lt). congruence. }
    rewrite list_lookup_insert_ne in Hcs by (intros ?%cell_inj; lia).
    destruct (Hr _ _ Hcs Hne) as (Hsr & e & He & d & Hd & Heq & Hocc).
    split; [done|]. exists e. split; [done|].
    rewrite (cell_home q Hq) in Heq. pose proof (home_lt q Hq e).
    assert (home q e + d < HASH_TABLE_SIZE)%nat as Hlt.
    { destruct (Nat.lt_ge_cases (home q e + d) HASH_TABLE_SIZE); [done|]. exfalso.
      destruct (Hocc (HASH_TABLE_SIZE - 1 - home q e)%nat) as (s' & Hs' & Hne'); [lia|].
      rewrite (cell_home q Hq) in Hs'.
      replace (home q e + _)%nat with (HASH_TABLE_SIZE - 1)%nat in Hs' by lia.
      rewrite cell_last in Hs' by done. congruence. }
    apply cell_inj in Heq; [|done..]. subst c. split; [lia|]. intros y Hy Hcond.
    apply occ_clear; [intros ?%cell_inj; lia|].
    specialize (Hocc (y - home q e)%nat). rewrite (cell_home q Hq) in Hocc.
    replace (home q e + (y - home q e))%nat with y in Hocc by lia. apply Hocc. lia.
Qed.

(** When the loop has stopped at an empty cell, the gap is closed. *)
Lemma gap_close (tab : list Z) (entries : list CacheEntry) (q cp j : nat) :
  gap_ok entries q cp j tab -> (q < HASH_TABLE_SIZE)%nat -> (cp <= j < HASH_TABLE_SIZE)%nat ->
  tab !! cell q j = Some HASH_EMPTY -> hash_ok tab (slots tab) entries.
Proof.
  intros Hgap Hq Hj Hemp. split; [apply Hgap|done|]. intros p s Hp Hne.
  pose proof (lookup_lt_Some _ _ _ Hp) as Hlt. rewrite (gap_length _ _ _ _ _ Hgap) in Hlt.
  destruct (cell_surj q Hq p Hlt) as (c & Hc & ->).
  destruct (gap_cell _ _ _ _ _ Hgap c s Hc Hp Hne) as (Hsr & e & He & Hh & Hpath).
  split; [done|]. exists e. split; [done|]. exists (c - home q e)%nat.
  rewrite (cell_home q Hq). split; [lia|]. split; [f_equal; lia|].
  intros d' Hd'. rewrite (cell_home q Hq). apply Hpath; [lia|].
  destruct (Nat.lt_ge_cases c j) as [|Hcj]; [by left|right]. intros Hgapy.
  destruct (Hpath j) as (s' & Hs' & Hne'); [lia|right; lia|congruence].
Qed.

(** [hash_remove] takes exactly the slot of [k] out of the table. *)
Lemma hash_remove_ok (tab L : list Z) (entries : list CacheEntry) (s : Z) (e : CacheEntry) :
  hash_ok tab L entries -> (length L < HASH_TABLE_SIZE)%nat -> s ∈ L -> entries !! Z.to_nat s = Some e ->
  (forall s' e', s' ∈ L -> entries !! Z.to_nat s' = Some e' -> lba e' = lba e -> s' = s) ->
  exists tab' L', remove_loop tab entries (lba e) HASH_TABLE_SIZE (hash_lba (lba e)) = Some tab' /\
    hash_ok tab' L' entries /\ L ≡ₚ s :: L'.
Proof.
  intros Hok HL Hs He Huniq. pose proof (ok_length _ _ _ Hok) as Hl. pose proof (ok_slots _ _ _ Hok) as Hsl.
  destruct (slot_reached _ _ _ Hok s Hs) as (Hsr & e0 & d & He0 & Hd & Hcell & Hocc). simplify_eq.
  destruct (remove_loop_found _ _ _ Hok (lba e) HASH_TABLE_SIZE d (hash_lba (lba e)) s e)
    as (p & s' & e' & Hp & Hne & He' & Hk & ->); [done|apply hash_lba_lt|done..|].
  assert (s' = s) as ->.
  { apply (Huniq s' e'); [|done..]. rewrite <- Hsl. apply slots_elem. eauto. }
  destruct (first_empty tab p) as (dq & _ & Hq & _);
    [done|rewrite <- Hl; by eapply lookup_lt_Some|by rewrite Hsl|].
  pose proof (pos_lt p dq) as Hql. remember (pos p dq) as q eqn:Hqd. clear Hqd.
  destruct (cell_surj q Hql p) as (cp & Hcp & ->); [rewrite <- Hl; by eapply lookup_lt_Some|].
  assert (cp < HASH_TABLE_SIZE - 1)%nat.
  { destruct (decide (cp = HASH_TABLE_SIZE - 1)%nat) as [->|]; [|lia].
    rewrite cell_last in Hp by done. congruence. }
  unfold cell at 2. rewrite next_pos. fold (cell q (S cp)).
  destruct (rehash_loop_ok entries q Hql cp (S cp) HASH_TABLE_SIZE (<[cell q cp := HASH_EMPTY]> tab))
    as (tab' & j & Hr & Hj & Hg & Hj' & Hperm); [by eapply gap_open|lia..|].
  exists tab', (slots tab'). split; [done|]. split; [by eapply gap_close|].
  rewrite <- Hsl, Hperm. by apply slots_clear.
Qed.
