(* ===== verification/FatCache.v ===== *)
(** * The sector cache is invisible

    The invariant of [DiskAccess] ([components/drivers/fatdriver/src/disk.rs])
    relates the cache and the device to one flat array of bytes.  Every
    operation keeps it; [DiskLaws] is the interface the rest of the FAT driver
    is verified against, and the cache over any lawful device implements it. *)

From S2P Require Import Prelude FatDisk FatHash.
Import DiskAccess.

#[local] Opaque HASH_TABLE_SIZE.

(** ** The interface

    A disk as the rest of the driver uses it.  [rep n d v]: [d] holds the bytes
    [v] and admits [n] more sector accesses before its 32-bit access counter
    wraps. *)
Class Disk (D : Type) := {
  read_bytes_from_disk : D -> Z -> list Z -> option (D * list Z * Z);
  write_bytes_to_disk : D -> Z -> list Z -> option D;
  flush_all : D -> option D
}.

(** The number of sectors an access of [len] bytes may touch. *)
Definition access_cost (len : nat) : Z := Z.of_nat len / 512 + 2.

Class DiskLaws (D : Type) `{Disk D} := {
  rep : Z -> D -> list Z -> Prop;
  durable : D -> list Z;
  rep_weaken n m d v : rep n d v -> m <= n -> rep m d v;
  rep_size n d v : rep n d v -> Z.of_nat (length v) < 2 ^ 32;
  read_law n d v off buf :
    rep n d v -> 0 <= off -> off + Z.of_nat (length buf) <= Z.of_nat (length v) ->
    access_cost (length buf) <= n ->
    exists d', read_bytes_from_disk d off buf =
        Some (d', take (length buf) (drop (Z.to_nat off) v), Z.of_nat (length buf)) /\
      rep (n - access_cost (length buf)) d' v;
  write_law n d v off data :
    rep n d v -> 0 <= off -> off + Z.of_nat (length data) <= Z.of_nat (length v) ->
    access_cost (length data) <= n ->
    exists d', write_bytes_to_disk d off data = Some d' /\
      rep (n - access_cost (length data)) d' (list_inserts (Z.to_nat off) data v);
  flush_law n d v :
    rep n d v -> exists d', flush_all d = Some d' /\ rep n d' v /\ durable d' = v
}.

(** ** The invariant *)

Definition sector_eq (a b : list Z) (i j : nat) : Prop :=
  forall o, (o < 512)%nat -> a !! (i * 512 + o)%nat = b !! (j * 512 + o)%nat.

Section Cache.
Context {D : Type} `{DiskIOLaws D}.
Implicit Types (d : DiskAccess.t D) (v : list Z) (e : CacheEntry).

(** Sector [k] of the array. *)
Definition in_disk v (k : Z) : Prop := (Z.to_nat k * 512 < length v)%nat.

Record shape d v : Prop := {
  sh_contents : length (contents (disk_io d)) = length v;
  sh_sectors : (512 | Z.of_nat (length v));
  sh_size : Z.of_nat (length v) <= 2 ^ 32 - 512;
  sh_buffer : Z.of_nat (length (buffer d)) = buffer_size d;
  sh_max : (READAHEAD_SECTORS <= get_max_cache_entries d < HASH_TABLE_SIZE)%nat;
  sh_entries : (length (cache_entries d) <= get_max_cache_entries d)%nat
}.

(** [pend] are the sectors whose slots are allocated and not yet loaded. *)
Record cache_inv (pend : list Z) d v : Prop := {
  ci_shape : shape d v;
  ci_hash : hash_ok (hash_table d) (seqZ 0 (Z.of_nat (length (cache_entries d)))) (cache_entries d);
  ci_nodup : NoDup (lba <$> cache_entries d);
  ci_lba e : e ∈ cache_entries d -> is_u32 (lba e);
  ci_age e : e ∈ cache_entries d -> 0 <= last_access e <= global_age d;
  ci_global : 0 <= global_age d < 2 ^ 32;
  ci_pend k : k ∈ pend -> exists e, e ∈ cache_entries d /\ lba e = k /\
      last_access e = global_age d /\ dirty e = false;
  ci_dirty e : e ∈ cache_entries d -> dirty e = true -> in_disk v (lba e);
  ci_cached i e : cache_entries d !! i = Some e -> lba e ∉ pend -> in_disk v (lba e) ->
      sector_eq (buffer d) v i (Z.to_nat (lba e));
  ci_device k : 0 <= k -> in_disk v k ->
      (forall e, e ∈ cache_entries d -> lba e = k -> dirty e = false) ->
      sector_eq (contents (disk_io d)) v (Z.to_nat k) (Z.to_nat k)
}.

Definition cached d (k : Z) : Prop := k ∈ lba <$> cache_entries d.

(** ** Slots *)

Lemma slot_mem d (i : nat) :
  (i < length (cache_entries d))%nat -> Z.of_nat i ∈ seqZ 0 (Z.of_nat (length (cache_entries d))).
Proof. intros. apply elem_of_seqZ. lia. Qed.

Lemma entry_unique pend d v (i j : nat) e e' :
  cache_inv pend d v -> cache_entries d !! i = Some e -> cache_entries d !! j = Some e' ->
  lba e = lba e' -> i = j.
Proof.
  intros Hc Hi Hj Heq. eapply (NoDup_lookup (lba <$> cache_entries d) i j); [apply Hc|..];
    rewrite list_lookup_fmap; by rewrite ?Hi, ?Hj; simpl; rewrite ?Heq.
Qed.

Lemma hash_lookup_cached pend d v (i : nat) e :
  cache_inv pend d v -> cache_entries d !! i = Some e -> hash_lookup d (lba e) = Some (Some i).
Proof.
  intros Hc Hi. pose proof (ci_hash _ _ _ Hc) as Hok.
  destruct (slot_reached _ _ _ Hok (Z.of_nat i)) as (_ & e0 & dd & He0 & Hd & Hcell & Hocc).
  { apply slot_mem. by eapply lookup_lt_Some. }
  rewrite Nat2Z.id in He0. simplify_eq.
  destruct (lookup_loop_found _ _ _ Hok (lba e) HASH_TABLE_SIZE dd (hash_lba (lba e)) (Z.of_nat i) e)
    as (j & e' & Hl & Hj & Hk); [done|apply hash_lba_lt|done|done|by rewrite Nat2Z.id|done|].
  unfold hash_lookup. rewrite Hl. do 2 f_equal. by eapply entry_unique.
Qed.

Lemma hash_lookup_uncached pend d v (k : Z) :
  cache_inv pend d v -> ~ cached d k -> hash_lookup d k = Some None.
Proof.
  intros Hc Hk. eapply lookup_loop_absent; [apply (ci_hash _ _ _ Hc)|apply hash_lba_lt|].
  intros s e _ He ->%eq_sym. apply Hk. apply list_elem_of_fmap. exists e. split; [done|].
  by eapply list_elem_of_lookup_2.
Qed.

Lemma cached_dec d (k : Z) : cached d k \/ ~ cached d k.
Proof. destruct (decide (k ∈ lba <$> cache_entries d)); auto. Qed.

Lemma cached_entry d (k : Z) : cached d k -> exists i e, cache_entries d !! i = Some e /\ lba e = k.
Proof.
  unfold cached. rewrite list_elem_of_fmap. intros (e & -> & He).
  apply list_elem_of_lookup in He as [i Hi]. eauto.
Qed.

(** ** The least recently used entry *)

Lemma oldest_loop_spec (l : list CacheEntry) (i idx : nat) (a : Z) (w : list CacheEntry) :
  (forall j e, l !! j = Some e -> w !! (i + j)%nat = Some e) ->
  (exists e, w !! idx = Some e /\ last_access e = a) \/ (exists e, e ∈ l /\ last_access e < a) ->
  exists e, w !! oldest_loop l i idx a = Some e /\ last_access e <= a /\
    forall e', e' ∈ l -> last_access e <= last_access e'.
Proof.
  revert i idx a. induction l as [|x l IH]; intros i idx a Hw Ha; simpl.
  { destruct Ha as [(e & He & <-)|(e & He & _)]; [|by apply elem_of_nil in He].
    exists e. split_and!; [done|lia|]. by intros ? ?%elem_of_nil. }
  assert (w !! i = Some x) as Hx by (rewrite <- (Nat.add_0_r i); by apply Hw).
  assert (forall j e, l !! j = Some e -> w !! (S i + j)%nat = Some e) as Hw'.
  { intros j e He. rewrite Nat.add_succ_comm. by apply Hw. }
  destruct (Z.ltb_spec (last_access x) a) as [Hlt|Hge].
  - destruct (IH (S i) i (last_access x)) as (e & He & Hle & Hmin); [done|left; by exists x|].
    exists e. split_and!; [done|lia|]. intros e' [->|?]%elem_of_cons; auto.
  - destruct (IH (S i) idx a) as (e & He & Hle & Hmin); [done|..].
    { destruct Ha as [|(e & [->|]%elem_of_cons & ?)]; [by left|lia|right; eauto]. }
    exists e. split_and!; [done|lia|]. intros e' [->|?]%elem_of_cons; [lia|auto].
Qed.

(** A list longer than the pending sectors has an entry that is not pending. *)
Lemma not_pending (pend : list Z) d v :
  cache_inv pend d v -> (length pend < length (cache_entries d))%nat ->
  exists e, e ∈ cache_entries d /\ lba e ∉ pend.
Proof.
  intros Hc Hlt.
  destruct (decide (Exists (fun e => lba e ∉ pend) (cache_entries d))) as [He|He].
  - apply Exists_exists in He as (e & ? & ?). eauto.
  - exfalso. apply not_Exists_Forall in He; [|intros; apply _].
    assert (length (lba <$> cache_entries d) <= length pend)%nat; [|rewrite length_fmap in *; lia].
    apply submseteq_length, NoDup_submseteq; [apply Hc|]. intros k Hk.
    apply list_elem_of_fmap in Hk as (e & -> & Hin).
    rewrite Forall_forall in He. specialize (He e Hin). by destruct (decide (lba e ∈ pend)).
Qed.

(** ** Writing back *)

#[local] Arguments get_max_cache_entries : simpl never.

Lemma max_eq d d' : buffer_size d = buffer_size d' -> get_max_cache_entries d = get_max_cache_entries d'.
Proof. unfold get_max_cache_entries. by intros ->. Qed.

Lemma max_fits d v : shape d v -> (get_max_cache_entries d * 512 + STAGING_SIZE <= length (buffer d))%nat.
Proof.
  intros [_ _ _ Hb [Hm _] _]. unfold get_max_cache_entries, STAGING_SIZE, READAHEAD_SECTORS in *. word.
Qed.

Lemma entry_lt_max d v (i : nat) e :
  shape d v -> cache_entries d !! i = Some e -> (i < get_max_cache_entries d)%nat.
Proof. intros Hs Hi. apply lookup_lt_Some in Hi. pose proof (sh_entries _ _ Hs). lia. Qed.

Lemma in_disk_end d v (k : Z) : shape d v -> in_disk v k -> (Z.to_nat k * 512 + 512 <= length v)%nat.
Proof. intros [_ [c Hc] _ _ _ _]. unfold in_disk. lia. Qed.

Lemma in_disk_word d v (k : Z) : shape d v -> 0 <= k -> in_disk v k -> u32 (k * 512) = k * 512.
Proof. intros Hs Hk Hd. pose proof (in_disk_end _ _ _ Hs Hd). pose proof (sh_size _ _ Hs). word. Qed.

Lemma write_back_ok pend d v (i : nat) e :
  cache_inv pend d v -> cache_entries d !! i = Some e -> dirty e = true -> lba e ∉ pend ->
  exists dk, write_back d i e = Some (with_disk d dk) /\ length (contents dk) = length v /\
    sector_eq (contents dk) v (Z.to_nat (lba e)) (Z.to_nat (lba e)) /\
    forall k, 0 <= k -> k <> lba e -> sector_eq (contents (disk_io d)) v (Z.to_nat k) (Z.to_nat k) ->
      sector_eq (contents dk) v (Z.to_nat k) (Z.to_nat k).
Proof.
  intros Hc Hi Hd Hp. pose proof (ci_shape _ _ _ Hc) as Hs. pose proof (max_fits _ _ Hs).
  pose proof (list_elem_of_lookup_2 _ _ _ Hi) as Hin.
  pose proof (ci_dirty _ _ _ Hc e Hin Hd) as Hdisk. pose proof (ci_lba _ _ _ Hc e Hin) as Hlba.
  pose proof (in_disk_end _ _ _ Hs Hdisk) as Hend. pose proof (entry_lt_max _ _ _ _ Hs Hi).
  unfold is_u32 in Hlba. pose proof (sh_contents _ _ Hs) as Hlen.
  unfold write_back, get_buffer_sector. rewrite slice_ok by lia. simpl.
  eexists. split; [done|]. rewrite (in_disk_word d v) by (done || lia).
  set (data := take 512 (drop (i * 512) (buffer d))).
  assert (length data = 512%nat) as Hdl by (unfold data; rewrite length_take, length_drop; lia).
  rewrite io_write_contents; [|lia|apply Z.divide_factor_r|done|lia].
  replace (Z.to_nat (lba e * 512)) with (Z.to_nat (lba e) * 512)%nat by lia.
  split; [by rewrite length_inserts|]. split.
  - intros o Ho. rewrite lookup_inserts, decide_True by lia. unfold data.
    rewrite lookup_sub, decide_True by lia. rewrite <- (ci_cached _ _ _ Hc i e) by done. f_equal. lia.
  - intros k Hk Hne Heq o Ho. rewrite lookup_inserts, decide_False by lia. by apply Heq.
Qed.

(** ** Allocation of a slot *)

Definition fresh_entry d (k : Z) : CacheEntry :=
  {| lba := k; last_access := global_age d; dirty := false |}.

Record allocated (pend : list Z) d v (k : Z) (slot : nat) d' : Prop := {
  al_inv : cache_inv (k :: pend) d' v;
  al_buffer : buffer d' = buffer d;
  al_size : buffer_size d' = buffer_size d;
  al_age : global_age d' = global_age d;
  al_slot : cache_entries d' !! slot = Some (fresh_entry d k);
  al_pend i e : cache_entries d !! i = Some e -> lba e ∈ pend -> cache_entries d' !! i = Some e;
  al_only e : e ∈ cache_entries d' -> e ∈ cache_entries d \/ e = fresh_entry d k
}.

Lemma hash_ok_perm (tab L L' : list Z) (entries : list CacheEntry) :
  hash_ok tab L entries -> L ≡ₚ L' -> hash_ok tab L' entries.
Proof. intros [Hl Hs Hr] Hp. split; [done|by rewrite Hs|done]. Qed.

Lemma is_u32_disk_age d v pend : cache_inv pend d v -> is_u32 (global_age d).
Proof. intros Hc. apply Hc. Qed.

Lemma allocate_append pend d v (k : Z) :
  cache_inv pend d v -> is_u32 k -> ~ cached d k ->
  (length (cache_entries d) < get_max_cache_entries d)%nat ->
  exists slot d', allocate_slot d k = Some (slot, d') /\ allocated pend d v k slot d'.
Proof.
  intros Hc Hk Hnc Hlt. pose proof (ci_shape _ _ _ Hc) as Hs. pose proof (sh_max _ _ Hs) as Hmax.
  unfold allocate_slot. rewrite decide_True by done. unfold hash_insert. simpl.
  set (n := length (cache_entries d)) in *. set (entries' := cache_entries d ++ [_]).
  assert (entries' !! n = Some (fresh_entry d k)) as Hn by apply list_lookup_middle, eq_refl.
  assert (forall e, e ∈ entries' -> e ∈ cache_entries d \/ e = fresh_entry d k) as Honly.
  { intros e [?|Hx%list_elem_of_singleton]%elem_of_app; auto. }
  assert (forall e, e ∈ cache_entries d -> e ∈ entries') as Hkeep by (intros; apply elem_of_app; auto).
  destruct (hash_insert_ok (hash_table d) (seqZ 0 (Z.of_nat n)) (cache_entries d) entries' k n (fresh_entry d k))
    as (tab' & -> & Hok'); [apply Hc|rewrite length_seqZ; lia|rewrite hash_size in *; unfold HASH_EMPTY; lia|done|done|..].
  { intros s Hin%elem_of_seqZ. unfold entries'. rewrite lookup_app_l; [done|lia]. }
  simpl. eexists n, _. split; [done|]. split; simpl; try done.
  2:{ intros i e Hi _. unfold entries'. rewrite lookup_app_l; [done|]. by eapply lookup_lt_Some. }
  split; simpl; try apply Hc.
  - destruct Hs. split; simpl; try done. unfold entries'. rewrite length_app. simpl. rewrite (max_eq _ d) by done. fold n. lia.
  - eapply hash_ok_perm; [done|]. unfold entries'. rewrite length_app. simpl. fold n.
    replace (Z.of_nat (n + 1)) with (Z.of_nat n + 1) by lia. rewrite seqZ_app by lia. simpl.
    by rewrite Permutation_app_comm.
  - unfold entries'. rewrite fmap_app. apply NoDup_app. split; [apply Hc|]. split; [|apply NoDup_singleton].
    intros x Hx ->%list_elem_of_singleton. done.
  - intros e [Hin| ->]%Honly; [by apply Hc|done].
  - intros e [Hin| ->]%Honly; [by apply Hc|]. pose proof (ci_global _ _ _ Hc). simpl. lia.
  - intros k' [->|Hp]%elem_of_cons; [exists (fresh_entry d k); split_and!; try done; by eapply list_elem_of_lookup_2|].
    destruct (ci_pend _ _ _ Hc k' Hp) as (e & He & ?). exists e. auto.
  - intros e [Hin| ->]%Honly; [by apply Hc|done].
  - intros i e Hi Hnp Hd. apply not_elem_of_cons in Hnp as [Hne Hnp].
    apply lookup_app_Some in Hi as [Hi|[_ Hi]]; [by apply (ci_cached _ _ _ Hc)|].
    apply list_lookup_singleton_Some in Hi as [_ <-]. done.
  - intros k' Hk' Hd Hclean. apply Hc; auto.
Qed.

Lemma NoDup_insert_fresh {A} (l : list A) (i : nat) (x : A) :
  NoDup l -> x ∉ l -> NoDup (<[i := x]> l).
Proof.
  intros Hn Hx. apply NoDup_alt. intros a b y Ha Hb.
  apply list_lookup_insert_Some in Ha, Hb.
  destruct Ha as [(-> & -> & _)|[Hia Ha]], Hb as [(-> & Hy & _)|[Hib Hb]]; try done.
  - by apply list_elem_of_lookup_2 in Hb.
  - subst. by apply list_elem_of_lookup_2 in Ha.
  - by eapply NoDup_lookup.
Qed.

(** The entry chosen for eviction is never one that is pending. *)
Lemma oldest_not_pending pend d v :
  cache_inv pend d v -> (length pend < length (cache_entries d))%nat ->
  (forall e, e ∈ cache_entries d -> lba e ∉ pend -> last_access e < global_age d) ->
  exists e, cache_entries d !! oldest_loop (cache_entries d) 0 0 (2 ^ 32 - 1) = Some e /\ lba e ∉ pend.
Proof.
  intros Hc Hlt Hold. destruct (not_pending _ _ _ Hc Hlt) as (e0 & Hin0 & Hp0).
  pose proof (Hold e0 Hin0 Hp0). pose proof (ci_global _ _ _ Hc).
  destruct (oldest_loop_spec (cache_entries d) 0 0 (2 ^ 32 - 1) (cache_entries d)) as (e & He & _ & Hmin).
  { done. }
  { right. exists e0. split; [done|lia]. }
  exists e. split; [done|]. intros Hp. destruct (ci_pend _ _ _ Hc _ Hp) as (e' & Hin' & Hl & Ha & _).
  apply list_elem_of_lookup in Hin' as [i Hi].
  assert (i = oldest_loop (cache_entries d) 0 0 (2 ^ 32 - 1)) as -> by by eapply entry_unique.
  simplify_eq. specialize (Hmin e0 Hin0). lia.
Qed.

(** Replacing the entry at [o], once its sector is back on the device. *)
Lemma replace_entry pend d v (k : Z) (o : nat) e dk tab :
  cache_inv pend d v -> is_u32 k -> ~ cached d k -> cache_entries d !! o = Some e -> lba e ∉ pend ->
  length (contents dk) = length v ->
  (dirty e = true -> sector_eq (contents dk) v (Z.to_nat (lba e)) (Z.to_nat (lba e))) ->
  (forall k', 0 <= k' -> (k' <> lba e \/ dirty e = false) ->
     sector_eq (contents (disk_io d)) v (Z.to_nat k') (Z.to_nat k') ->
     sector_eq (contents dk) v (Z.to_nat k') (Z.to_nat k')) ->
  hash_ok tab (seqZ 0 (Z.of_nat (length (cache_entries d)))) (<[o := fresh_entry d k]> (cache_entries d)) ->
  allocated pend d v k o
    (with_entries (with_table (with_disk d dk) tab) (<[o := fresh_entry d k]> (cache_entries d))).
Proof.
  intros Hc Hk Hnc Ho Hp Hlen Hback Hsame Hok. pose proof (ci_shape _ _ _ Hc) as Hs.
  pose proof (lookup_lt_Some _ _ _ Ho) as Hlt.
  assert (forall x, x ∈ <[o := fresh_entry d k]> (cache_entries d) ->
    x ∈ cache_entries d \/ x = fresh_entry d k) as Honly.
  { intros x [i Hi]%list_elem_of_lookup. apply list_lookup_insert_Some in Hi as [(_ & -> & _)|[_ Hi]]; [by right|].
    left. by eapply list_elem_of_lookup_2. }
  assert (forall i x, cache_entries d !! i = Some x -> lba x <> lba e ->
    <[o := fresh_entry d k]> (cache_entries d) !! i = Some x) as Hkeep.
  { intros i x Hi Hne. rewrite list_lookup_insert_ne; [done|]. intros <-. congruence. }
  split; simpl; try done; [|by apply list_lookup_insert_eq|intros i x Hi Hx; apply Hkeep; [done|congruence]].
  split; simpl; try apply Hc.
  - destruct Hs. split; simpl; try done. by rewrite length_insert.
  - by rewrite length_insert.
  - rewrite list_fmap_insert. apply NoDup_insert_fresh; [apply Hc|done].
  - intros x [Hin| ->]%Honly; [by apply Hc|done].
  - intros x [Hin| ->]%Honly; [by apply Hc|]. pose proof (ci_global _ _ _ Hc). simpl. lia.
  - intros k' [->|Hp']%elem_of_cons.
    + exists (fresh_entry d k). split_and!; try done. eapply list_elem_of_lookup_2. by apply list_lookup_insert_eq.
    + destruct (ci_pend _ _ _ Hc k' Hp') as (x & Hx & Hl & ?). exists x. split; [|done].
      apply list_elem_of_lookup in Hx as [i Hi]. eapply list_elem_of_lookup_2, Hkeep; [done|congruence].
  - intros x [Hin| ->]%Honly; [by apply Hc|done].
  - intros i x Hi Hnp Hd. apply not_elem_of_cons in Hnp as [Hne Hnp].
    apply list_lookup_insert_Some in Hi as [(_ & <- & _)|[_ Hi]]; [done|by apply (ci_cached _ _ _ Hc)].
  - intros k' Hk' Hd Hclean. destruct (decide (k' = lba e /\ dirty e = true)) as [[-> Hde]|Hcase]; [auto|].
    apply Hsame; [done|destruct (dirty e); [left; naive_solver|by right]|].
    apply Hc; [done|done|]. intros x Hx Hl. destruct (decide (lba x = lba e)) as [Hle|Hne].
    + apply list_elem_of_lookup in Hx as [i Hi]. assert (i = o) as -> by by eapply entry_unique.
      assert (x = e) as -> by congruence. by destruct (dirty e); [destruct Hcase|].
    + apply Hclean; [|done]. apply list_elem_of_lookup in Hx as [i Hi]. eapply list_elem_of_lookup_2, Hkeep; eauto.
Qed.

Lemma allocate_evict pend d v (k : Z) :
  cache_inv pend d v -> is_u32 k -> ~ cached d k ->
  (get_max_cache_entries d <= length (cache_entries d))%nat -> (length pend < READAHEAD_SECTORS)%nat ->
  (forall e, e ∈ cache_entries d -> lba e ∉ pend -> last_access e < global_age d) ->
  exists slot d', allocate_slot d k = Some (slot, d') /\ allocated pend d v k slot d'.
Proof.
  intros Hc Hk Hnc Hge Hpl Hold. pose proof (ci_shape _ _ _ Hc) as Hs. pose proof (sh_max _ _ Hs) as Hmax.
  destruct (oldest_not_pending pend d v) as (e & He & Hp); [done|lia|done|].
  unfold allocate_slot. rewrite decide_False by lia. set (o := oldest_loop _ _ _ _) in *.
  rewrite He. simpl. pose proof (lookup_lt_Some _ _ _ He) as Hlt.
  assert (exists dk, (if dirty e then write_back d o e else Some d) = Some (with_disk d dk) /\
    length (contents dk) = length v /\
    (dirty e = true -> sector_eq (contents dk) v (Z.to_nat (lba e)) (Z.to_nat (lba e))) /\
    (forall k', 0 <= k' -> (k' <> lba e \/ dirty e = false) ->
      sector_eq (contents (disk_io d)) v (Z.to_nat k') (Z.to_nat k') ->
      sector_eq (contents dk) v (Z.to_nat k') (Z.to_nat k'))) as (dk & -> & Hlen & Hback & Hsame).
  { destruct (dirty e) eqn:Hd.
    - destruct (write_back_ok _ _ _ _ _ Hc He Hd Hp) as (dk & -> & ? & ? & Hother).
      exists dk. split_and!; try done. intros k' ? [?|?]; [auto|done].
    - exists (disk_io d). split; [by destruct d|]. split; [apply Hs|]. split; [done|auto]. }
  unfold hash_remove, hash_insert. simpl.
  pose proof (ci_hash _ _ _ Hc) as Hok. set (L := seqZ 0 _) in *.
  assert (Z.of_nat o ∈ L) as HoL by by apply slot_mem.
  assert (NoDup L) as HL by apply NoDup_seqZ.
  destruct (hash_remove_ok _ _ _ (Z.of_nat o) e Hok) as (tab1 & L1 & -> & Hok1 & HL1).
  { unfold L. rewrite length_seqZ. pose proof (sh_entries _ _ Hs). lia. }
  { done. }
  { by rewrite Nat2Z.id. }
  { intros s' e' Hin%elem_of_seqZ He' Hl.
    assert (Z.to_nat s' = o) by (by eapply entry_unique). lia. }
  simpl. rewrite HL1 in HL. apply NoDup_cons in HL as [Hno HL].
  destruct (hash_insert_ok tab1 L1 _ (<[o := fresh_entry d k]> (cache_entries d)) k o (fresh_entry d k) Hok1)
    as (tab2 & -> & Hok2).
  { apply Permutation_length in HL1. unfold L in HL1. rewrite length_seqZ in HL1. simpl in HL1.
    pose proof (sh_entries _ _ Hs). lia. }
  { rewrite hash_size in *; unfold HASH_EMPTY. pose proof (sh_entries _ _ Hs). lia. }
  { by apply list_lookup_insert_eq. }
  { done. }
  { intros s Hin. rewrite list_lookup_insert_ne; [done|]. intros ->. apply Hno.
    assert (s ∈ L) as Hs'%elem_of_seqZ by (rewrite HL1; by right). by rewrite Z2Nat.id by lia. }
  simpl. rewrite vec_set_ok by done. simpl. eexists o, _. split; [done|].
  apply (replace_entry pend d v k o e); try done. eapply hash_ok_perm; [done|]. by rewrite <- HL1.
Qed.

Lemma allocate_slot_ok pend d v (k : Z) :
  cache_inv pend d v -> is_u32 k -> ~ cached d k -> (length pend < READAHEAD_SECTORS)%nat ->
  (forall e, e ∈ cache_entries d -> lba e ∉ pend -> last_access e < global_age d) ->
  exists slot d', allocate_slot d k = Some (slot, d') /\ allocated pend d v k slot d'.
Proof.
  intros. destruct (decide (length (cache_entries d) < get_max_cache_entries d)%nat).
  - by apply allocate_append.
  - apply allocate_evict; [done..|lia|done|done].
Qed.

(** ** Reading ahead *)

Lemma uncached_count_ok pend d v (k : Z) (n i : nat) :
  cache_inv pend d v -> 0 <= k -> k + Z.of_nat (i + n) <= 2 ^ 32 ->
  exists count, uncached_count d k n i = Some count /\ (count <= n)%nat /\
    (forall j, (j < count)%nat -> ~ cached d (k + Z.of_nat (i + j))) /\
    ((0 < n)%nat -> ~ cached d (k + Z.of_nat i) -> (0 < count)%nat).
Proof.
  intros Hc Hk. revert i. induction n as [|n IH]; intros i Hw; simpl.
  { exists 0%nat. split_and!; [done|lia|lia|lia]. }
  assert (u32 (k + Z.of_nat i) = k + Z.of_nat i) as -> by word.
  destruct (cached_dec d (k + Z.of_nat i)) as [Hca|Hn].
  - destruct (cached_entry _ _ Hca) as (s & e & Hs & Hl). rewrite <- Hl, (hash_lookup_cached _ _ _ _ _ Hc Hs). simpl.
    exists 0%nat. rewrite Hl. split_and!; [done|lia|lia|done].
  - rewrite (hash_lookup_uncached _ _ _ _ Hc Hn). simpl.
    destruct (IH (S i)) as (count & -> & Hle & Hall & _); [lia|]. simpl. exists (S count).
    split_and!; [done|lia|..|lia]. intros [|j] Hj; [by rewrite Nat.add_0_r|].
    rewrite <- Nat.add_succ_comm. apply Hall. lia.
Qed.

Record slots_allocated (pend : list Z) d v (k : Z) (i count : nat) (l : list nat) d' : Prop := {
  sa_inv : exists pend', cache_inv pend' d' v /\
    forall x, x ∈ pend' -> x ∈ pend \/ k + Z.of_nat i <= x < k + Z.of_nat (i + count);
  sa_buffer : buffer d' = buffer d;
  sa_size : buffer_size d' = buffer_size d;
  sa_age : global_age d' = global_age d;
  sa_length : length l = count;
  sa_slots j s : l !! j = Some s -> cache_entries d' !! s = Some (fresh_entry d (k + Z.of_nat (i + j)));
  sa_pend s e : cache_entries d !! s = Some e -> lba e ∈ pend -> cache_entries d' !! s = Some e
}.

Lemma allocate_slots_ok pend d v (k : Z) (count i : nat) :
  cache_inv pend d v -> 0 <= k -> k + Z.of_nat (i + count) <= 2 ^ 32 ->
  (length pend + count <= READAHEAD_SECTORS)%nat ->
  (forall j, (j < count)%nat -> ~ cached d (k + Z.of_nat (i + j))) ->
  (forall e, e ∈ cache_entries d -> lba e ∉ pend -> last_access e < global_age d) ->
  exists l d', allocate_slots d k count i = Some (l, d') /\ slots_allocated pend d v k i count l d'.
Proof.
  intros Hc Hk. revert pend d i Hc. induction count as [|count IH]; intros pend d i Hc Hw Hlen Hnc Hold; simpl.
  { eexists [], d. split; [done|]. split; try done. exists pend. auto. }
  assert (u32 (k + Z.of_nat i) = k + Z.of_nat i) as -> by word.
  destruct (allocate_slot_ok pend d v (k + Z.of_nat i)) as (slot & d1 & -> & Hal);
    [done|word|rewrite <- (Nat.add_0_r i); apply Hnc; lia|lia|done|].
  destruct Hal as [Hc1 Hb1 Hs1 Ha1 Hslot Hp1 Honly]. simpl.
  destruct (IH (k + Z.of_nat i :: pend) d1 (S i)) as (l & d' & -> & Hsa); [done|lia|simpl; lia|..].
  { intros j Hj [x [Hx Hin]]%list_elem_of_fmap. destruct (Honly x Hin) as [Hin0| ->]; [|simpl in Hx; lia].
    apply (Hnc (S j)); [lia|]. apply list_elem_of_fmap. exists x. split; [|done]. rewrite <- Hx. lia. }
  { intros x Hin Hnp. apply not_elem_of_cons in Hnp as [Hne Hnp]. rewrite Ha1.
    destruct (Honly x Hin) as [Hin0| ->]; [by apply Hold|done]. }
  destruct Hsa as [(pend' & Hc' & Hp') Hb' Hs' Ha' Hl' Hsl' Hpe'].
  exists (slot :: l), d'. split; [done|]. split; try congruence.
  - exists pend'. split; [done|]. intros x Hx. destruct (Hp' x Hx) as [[->|?]%elem_of_cons|?]; [right; lia|by left|right; lia].
  - simpl. lia.
  - intros [|j] s Hj; simpl in Hj.
    + injection Hj as <-. rewrite Nat.add_0_r. apply Hpe'; [done|]. left.
    + specialize (Hsl' j s Hj). rewrite Hsl'. unfold fresh_entry. rewrite Ha1. by rewrite <- Nat.add_succ_comm.
  - intros s e Hs Hin. apply Hpe'; [by apply Hp1|by right].
Qed.

Lemma distribute_ok (buf : list Z) (m : nat) (l : list nat) (i : nat) :
  NoDup l -> (forall s, s ∈ l -> (s < m)%nat) -> (m * 512 + (i + length l) * 512 <= length buf)%nat ->
  exists buf', distribute buf (m * 512) l i = Some buf' /\ length buf' = length buf /\
    (forall j s, l !! j = Some s -> sector_eq buf' buf s (m + i + j)) /\
    (forall s, s ∉ l -> sector_eq buf' buf s s).
Proof.
  revert buf i. induction l as [|s l IH]; intros buf i Hnd Hm Hlen; simpl.
  { exists buf. by split_and!. }
  apply NoDup_cons in Hnd as [Hs Hnd]. simpl in Hlen.
  assert (s < m)%nat by (apply Hm; left).
  rewrite slice_ok by lia. simpl. set (src := take 512 _).
  assert (length src = 512%nat) as Hsrc by (unfold src; rewrite length_take, length_drop; lia).
  rewrite copy_from_slice_ok by lia. simpl. set (buf1 := list_inserts _ _ _).
  assert (length buf1 = length buf) as Hl1 by (unfold buf1; by rewrite length_inserts).
  assert (forall x, buf1 !! x = if decide (s * 512 <= x < s * 512 + 512)%nat then src !! (x - s * 512)%nat else buf !! x)
    as Hlk by (intros x; unfold buf1; rewrite lookup_inserts by lia; by rewrite Hsrc).
  destruct (IH buf1 (S i)) as (buf' & -> & Hl' & Hin & Hout);
    [done|intros; apply Hm; by right|rewrite Hl1; lia|].
  exists buf'. split; [done|]. split; [congruence|]. split.
  - intros [|j] s' Hj o Ho; simpl in Hj.
    + injection Hj as <-. rewrite (Hout s Hs o Ho), Hlk, decide_True by lia. unfold src.
      rewrite lookup_sub, decide_True by lia. f_equal. lia.
    + rewrite (Hin j s' Hj o Ho), Hlk, decide_False by lia. f_equal. lia.
  - intros s' Hs' o Ho. apply not_elem_of_cons in Hs' as [Hne Hs'].
    rewrite (Hout s' Hs' o Ho), Hlk, decide_False; [done|]. nia.
Qed.

(** Once the pending slots hold the sectors of the device, nothing is pending. *)
Lemma load_pending pend d v (k : Z) (count : nat) (l : list nat) dk buf :
  cache_inv pend d v -> 0 <= k ->
  (forall x, x ∈ pend -> k <= x < k + Z.of_nat count) -> length l = count ->
  (forall j s, l !! j = Some s -> exists e, cache_entries d !! s = Some e /\ lba e = k + Z.of_nat j /\ dirty e = false) ->
  contents dk = contents (disk_io d) -> length buf = length (buffer d) ->
  (forall j s, l !! j = Some s -> in_disk v (k + Z.of_nat j) ->
     sector_eq buf (contents (disk_io d)) s (Z.to_nat k + j)) ->
  (forall s, s ∉ l -> (s < get_max_cache_entries d)%nat -> sector_eq buf (buffer d) s s) ->
  cache_inv [] (with_buffer (with_disk d dk) buf) v.
Proof.
  intros Hc Hk Hpend Hl Hslots Hdk Hlen Hin Hout. pose proof (ci_shape _ _ _ Hc) as Hs.
  split; simpl; try apply Hc.
  - destruct Hs. split; simpl; try done; congruence.
  - by intros x ?%elem_of_nil.
  - intros i e Hi _ Hd. destruct (decide (i ∈ l)) as [Hil|Hil].
    + apply list_elem_of_lookup in Hil as [j Hj].
      destruct (Hslots j i Hj) as (e' & He' & Hle & Hcl). simplify_eq.
      rewrite Hle in *. intros o Ho. rewrite (Hin j i Hj Hd o Ho).
      replace (Z.to_nat k + j)%nat with (Z.to_nat (k + Z.of_nat j)) by lia.
      apply (ci_device _ _ _ Hc); [lia|done|..|done]. intros x Hx Hxl.
      apply list_elem_of_lookup in Hx as [i' Hi'].
      assert (i' = i) as -> by (eapply entry_unique; [done..|congruence]). congruence.
    + intros o Ho. rewrite (Hout i Hil) by (done || by eapply entry_lt_max).
      apply (ci_cached _ _ _ Hc); [done| |done|done]. intros Hp. specialize (Hpend _ Hp).
      destruct (lookup_lt_is_Some_2 l (Z.to_nat (lba e - k))) as [s Hs']; [lia|].
      destruct (Hslots _ _ Hs') as (e' & He' & Hle & _).
      assert (i = s) as -> by (eapply entry_unique; [done..|lia]).
      by apply Hil, (list_elem_of_lookup_2 _ (Z.to_nat (lba e - k))).
  - rewrite Hdk. apply Hc.
Qed.

Lemma readahead_ok d v (k : Z) :
  cache_inv [] d v -> 0 <= k -> in_disk v k -> ~ cached d k ->
  (forall e, e ∈ cache_entries d -> last_access e < global_age d) ->
  exists d', readahead d k = Some d' /\ cache_inv [] d' v /\ cached d' k /\ global_age d' = global_age d.
Proof.
  intros Hc Hk Hd Hnc Hold. pose proof (ci_shape _ _ _ Hc) as Hs.
  pose proof (in_disk_end _ _ _ Hs Hd) as Hend. pose proof (sh_size _ _ Hs) as Hsz.
  unfold readahead.
  destruct (uncached_count_ok [] d v k READAHEAD_SECTORS 0) as (count & -> & Hle & Hun & Hpos);
    [done|done|unfold READAHEAD_SECTORS; lia|].
  assert (0 < count)%nat as Hcount.
  { apply Hpos; [unfold READAHEAD_SECTORS; lia|by rewrite Z.add_0_r]. }
  simpl. rewrite decide_False by lia.
  destruct (allocate_slots_ok [] d v k count 0) as (l & d1 & -> & Hsa);
    [done|done|unfold READAHEAD_SECTORS in *; lia|simpl; lia|done|by intros; apply Hold|].
  destruct Hsa as [(pend & Hc1 & Hp) Hb Hbs Ha Hl Hsl _]. simpl in Hp.
  pose proof (ci_shape _ _ _ Hc1) as Hs1. pose proof (max_fits _ _ Hs1) as Hfit.
  unfold STAGING_SIZE in Hfit. simpl. set (m := get_max_cache_entries d1) in *.
  assert (m * 512 + count * 512 <= length (buffer d1))%nat as Hroom by nia.
  rewrite slice_ok by done. simpl. set (staging := take _ _).
  assert (length staging = count * 512)%nat as Hst by (unfold staging; rewrite length_take, length_drop; nia).
  rewrite (in_disk_word d v) by done.
  pose proof (io_read_contents (disk_io d1) staging (k * 512)) as Hrc.
  pose proof (io_read_length (disk_io d1) staging (k * 512)) as Hrl.
  pose proof (io_read_lookup (disk_io d1) staging (k * 512)) as Hrk.
  destruct (io_read (disk_io d1) staging (k * 512)) as [[dk data] cnt]. simpl in *.
  rewrite copy_from_slice_ok by lia. simpl.
  assert (forall j s, l !! j = Some s -> exists e, cache_entries d1 !! s = Some e /\
    lba e = k + Z.of_nat j /\ dirty e = false) as Hslots.
  { intros j s Hj. eexists. split; [by apply Hsl|done]. }
  destruct (distribute_ok (list_inserts (m * 512) data (buffer d1)) m l 0) as (buf & -> & Hbl & Hbin & Hbout).
  { apply NoDup_alt. intros i j s Hi Hj. apply Hsl in Hi, Hj. rewrite Hi in Hj. injection Hj. lia. }
  { intros s [j Hj]%list_elem_of_lookup. eapply entry_lt_max; [done|by apply Hsl]. }
  { rewrite length_inserts. lia. }
  simpl. eexists. split; [done|]. rewrite length_inserts in Hbl. split_and!; [|..|done].
  - apply (load_pending pend d1 v k count l); try done.
    + intros x Hx. destruct (Hp x Hx) as [?%elem_of_nil|?]; [done|lia].
    + intros j s Hj Hdk o Ho. pose proof (lookup_lt_Some _ _ _ Hj). rewrite Hl in *.
      rewrite (Hbin j s Hj o Ho), lookup_inserts, decide_True by nia.
      pose proof (in_disk_end _ _ _ Hs1 Hdk). pose proof (sh_contents _ _ Hs1).
      rewrite Hrk by (try apply Z.divide_factor_r; lia || nia). f_equal. nia.
    + intros s Hsn Hsm o Ho. rewrite (Hbout s Hsn o Ho), lookup_inserts, decide_False; [done|nia..].
  - destruct (lookup_lt_is_Some_2 l 0) as [s Hs0]; [lia|]. apply Hsl in Hs0. simpl in *.
    apply list_elem_of_fmap. eexists. split; [|by eapply list_elem_of_lookup_2]. simpl. lia.
Qed.

(** ** One sector *)

Lemma hash_ok_ext (tab L : list Z) (l l' : list CacheEntry) :
  hash_ok tab L l -> (forall i e, l !! i = Some e -> exists e', l' !! i = Some e' /\ lba e' = lba e) ->
  hash_ok tab L l'.
Proof.
  intros [Hl Hs Hr] Hext. split; [done..|]. intros p s Hp Hne.
  destruct (Hr p s Hp Hne) as (? & e & He & Hreach). split; [done|].
  destruct (Hext _ _ He) as (e' & He' & Heq). exists e'. by rewrite Heq.
Qed.

(** Changing the metadata of one entry, not its sector. *)
Lemma update_entry d v (i : nat) e e' :
  cache_inv [] d v -> cache_entries d !! i = Some e -> lba e' = lba e ->
  0 <= last_access e' <= global_age d -> dirty e' = dirty e ->
  cache_inv [] (with_entries d (<[i := e']> (cache_entries d))) v.
Proof.
  intros Hc Hi Hl Ha Hd. pose proof (ci_shape _ _ _ Hc) as Hs. pose proof (lookup_lt_Some _ _ _ Hi).
  assert (forall x, x ∈ <[i := e']> (cache_entries d) -> exists y, y ∈ cache_entries d /\
     lba x = lba y /\ dirty x = dirty y /\ (last_access x = last_access y \/ x = e')) as Hold.
  { intros x [j Hj]%list_elem_of_lookup. apply list_lookup_insert_Some in Hj as [(-> & -> & _)|[_ Hj]].
    - exists e. split; [by eapply list_elem_of_lookup_2|auto].
    - exists x. split; [by eapply list_elem_of_lookup_2|auto]. }
  split; simpl; try apply Hc; try by intros ? ?%elem_of_nil.
  - destruct Hs. split; simpl; try done. by rewrite length_insert.
  - rewrite length_insert. eapply hash_ok_ext; [apply Hc|]. intros j x Hj.
    destruct (decide (i = j)) as [<-|]; [|exists x; by rewrite list_lookup_insert_ne].
    exists e'. rewrite list_lookup_insert_eq by done. split; congruence.
  - rewrite list_fmap_insert, list_insert_id; [apply Hc|]. by rewrite list_lookup_fmap, Hi, Hl.
  - intros x (y & Hy & -> & _)%Hold. by apply Hc.
  - intros x (y & Hy & _ & _ & [->| ->])%Hold; [by apply Hc|done].
  - intros x (y & Hy & -> & -> & _)%Hold. by apply Hc.
  - intros j x Hj Hnp Hin. apply list_lookup_insert_Some in Hj as [(<- & <- & _)|[_ Hj]].
    + rewrite Hl in *. by apply (ci_cached _ _ _ Hc).
    + by apply (ci_cached _ _ _ Hc).
  - intros k Hk Hin Hcl. apply Hc; [done..|]. intros x Hx Hxl. apply list_elem_of_lookup in Hx as [j Hj].
    destruct (decide (i = j)) as [<-|Hne].
    + simplify_eq. rewrite <- Hd. apply Hcl; [|done]. eapply list_elem_of_lookup_2. by apply list_lookup_insert_eq.
    + apply Hcl; [|done]. eapply list_elem_of_lookup_2. by rewrite list_lookup_insert_ne.
Qed.

Lemma with_age_inv d v (a : Z) :
  cache_inv [] d v -> global_age d <= a < 2 ^ 32 -> cache_inv [] (with_age d a) v.
Proof.
  intros Hc Ha. pose proof (ci_shape _ _ _ Hc) as Hs. pose proof (ci_global _ _ _ Hc).
  split; simpl; try apply Hc; try by intros ? ?%elem_of_nil.
  - by destruct Hs.
  - intros e He. pose proof (ci_age _ _ _ Hc e He). lia.
  - lia.
Qed.

Lemma cache_sector_ok d v (k : Z) :
  cache_inv [] d v -> 0 <= k -> in_disk v k -> global_age d + 1 < 2 ^ 32 ->
  exists slot d' e, cache_sector d k = Some (slot, d') /\ cache_inv [] d' v /\
    global_age d' = global_age d + 1 /\ cache_entries d' !! slot = Some e /\ lba e = k.
Proof.
  intros Hc Hk Hd Ha. pose proof (ci_global _ _ _ Hc). unfold cache_sector.
  assert (u32 (global_age d + 1) = global_age d + 1) as -> by word.
  set (d0 := with_age d (global_age d + 1)).
  assert (cache_inv [] d0 v) as Hc0 by (apply with_age_inv; [done|lia]).
  destruct (cached_dec d0 k) as [Hca|Hnc].
  - destruct (cached_entry _ _ Hca) as (s & e & He & Hl). rewrite <- Hl, (hash_lookup_cached _ _ _ _ _ Hc0 He).
    simpl. simpl in He. rewrite He. simpl. rewrite vec_set_ok by (by eapply lookup_lt_Some). simpl.
    eexists s, _, _. split; [done|]. split; [|split; [done|]].
    + apply (update_entry d0 v s e); simpl; try done; lia.
    + simpl. rewrite list_lookup_insert_eq by (by eapply lookup_lt_Some). done.
  - rewrite (hash_lookup_uncached _ _ _ _ Hc0 Hnc). simpl.
    destruct (readahead_ok d0 v k) as (d' & -> & Hc' & Hca & Ha'); [done..| |].
    { intros e He. pose proof (ci_age _ _ _ Hc e He). simpl. lia. }
    simpl. destruct (cached_entry _ _ Hca) as (s & e & He & Hl).
    pose proof (hash_lookup_cached _ _ _ _ _ Hc' He) as Hlk. rewrite Hl in Hlk. rewrite Hlk. simpl.
    exists s, d', e. done.
Qed.

(** ** Byte ranges *)

(** The number of sectors of the range is its length in sectors, rounded up. *)
Lemma sector_count v (off : Z) (len : nat) :
  Z.of_nat (length v) <= 2 ^ 32 - 512 -> 0 <= off -> off + Z.of_nat len <= Z.of_nat (length v) ->
  exists n, Z.to_nat (last_sector off len - first_sector off) = n /\
    off mod 512 + Z.of_nat len <= Z.of_nat n * 512 < off mod 512 + Z.of_nat len + 512 /\
    Z.of_nat n <= access_cost len.
Proof. intros. eexists. split; [done|]. unfold last_sector, first_sector, access_cost. word. Qed.

Lemma sector_in_disk v (s so tr : Z) :
  0 <= s -> 0 <= so -> 0 <= tr -> 0 < so + tr -> s * 512 + so + tr <= Z.of_nat (length v) -> in_disk v s.
Proof. unfold in_disk. lia. Qed.

Lemma read_loop_ok v (n : nat) d (buf : list Z) (s so tr br : Z) :
  cache_inv [] d v -> 0 <= s -> 0 <= so < 512 -> 0 <= tr -> 0 <= br -> br + tr = Z.of_nat (length buf) ->
  s * 512 + so + tr <= Z.of_nat (length v) -> so + tr <= Z.of_nat n * 512 < so + tr + 512 ->
  global_age d + Z.of_nat n < 2 ^ 32 ->
  exists d' buf', read_loop d buf s so tr br n = Some (d', buf', br + tr) /\ cache_inv [] d' v /\
    global_age d' = global_age d + Z.of_nat n /\ length buf' = length buf /\
    forall i, (i < length buf)%nat -> buf' !! i =
      if decide (Z.to_nat br <= i)%nat then v !! (Z.to_nat (s * 512 + so) + (i - Z.to_nat br))%nat else buf !! i.
Proof.
  revert d buf s so tr br. induction n as [|n IH]; intros d buf s so tr br Hc Hs Hso Htr Hbr Hlen Hv Hn Ha; simpl.
  { assert (tr = 0) as -> by lia. exists d, buf. split_and!; [repeat f_equal; lia|done|lia|done|].
    intros i Hi. by rewrite decide_False by lia. }
  pose proof (sector_in_disk v s so tr) as Hdisk.
  destruct (cache_sector_ok d v s) as (slot & d1 & e & -> & Hc1 & Ha1 & He & Hl); [done|done|apply Hdisk; lia|lia|].
  simpl. pose proof (ci_shape _ _ _ Hc1) as Hs1. pose proof (max_fits _ _ Hs1).
  pose proof (entry_lt_max _ _ _ _ Hs1 He). pose proof (in_disk_end _ _ s Hs1 ltac:(apply Hdisk; lia)).
  remember (Z.min tr (512 - so)) as c eqn:Hceq.
  rewrite slice_ok by lia. simpl. set (src := take _ _).
  assert (length src = Z.to_nat c) as Hsrc by (unfold src; rewrite length_take, length_drop; lia).
  rewrite copy_from_slice_ok by lia. simpl.
  destruct (IH d1 (list_inserts (Z.to_nat br) src buf) (s + 1) 0 (tr - c) (br + c))
    as (d' & buf' & Hr & Hc' & Ha' & Hl' & Hb'); [done|lia..|rewrite length_inserts; lia| |lia|lia|].
  { lia. }
  rewrite length_inserts in *. replace (br + c + (tr - c)) with (br + tr) in Hr by lia.
  exists d', buf'. split_and!; [done|done|lia|done|]. intros i Hi. rewrite (Hb' i Hi).
  destruct (decide (Z.to_nat (br + c) <= i)%nat) as [Hge|Hlt].
  - rewrite decide_True by lia. f_equal. lia.
  - rewrite lookup_inserts by lia. destruct (decide (Z.to_nat br <= i)%nat).
    + rewrite decide_True by lia. unfold src. rewrite lookup_sub, decide_True by lia.
      pose proof (ci_cached _ _ _ Hc1 slot e He ltac:(apply not_elem_of_nil) ltac:(rewrite Hl; apply Hdisk; lia)) as Hse.
      specialize (Hse (Z.to_nat so + (i - Z.to_nat br))%nat ltac:(lia)). rewrite Hl in Hse.
      rewrite <- Nat.add_assoc, Hse. f_equal. lia.
    + by rewrite decide_False by lia.
Qed.

Lemma read_bytes_ok d v (off : Z) (buf : list Z) :
  cache_inv [] d v -> 0 <= off -> off + Z.of_nat (length buf) <= Z.of_nat (length v) ->
  global_age d + access_cost (length buf) < 2 ^ 32 ->
  exists d', DiskAccess.read_bytes_from_disk d off buf =
      Some (d', take (length buf) (drop (Z.to_nat off) v), Z.of_nat (length buf)) /\
    cache_inv [] d' v /\ global_age d' <= global_age d + access_cost (length buf).
Proof.
  intros Hc Hoff Hv Ha. pose proof (ci_shape _ _ _ Hc) as Hs.
  destruct (sector_count v off (length buf) (sh_size _ _ Hs)) as (n & Hn & Hr & Hcost); [done..|].
  unfold DiskAccess.read_bytes_from_disk. rewrite Hn.
  pose proof (Z.mod_pos_bound off 512). pose proof (Z.div_mod off 512).
  destruct (read_loop_ok v n d buf (off / 512) (off mod 512) (Z.of_nat (length buf)) 0)
    as (d' & buf' & Hrd & Hc' & Ha' & Hl & Hb); [done|lia..|].
  exists d'. unfold first_sector. rewrite Hrd. split; [|split; [done|lia]]. repeat f_equal.
  apply list_eq. intros i. rewrite lookup_sub. case_decide.
  - rewrite Hb, decide_True by lia. f_equal. lia.
  - apply lookup_ge_None. lia.
Qed.

(** A write to a cached sector writes the array. *)
Lemma store_bytes d v (slot : nat) e (so : Z) (src : list Z) :
  cache_inv [] d v -> cache_entries d !! slot = Some e -> in_disk v (lba e) -> 0 <= so ->
  so + Z.of_nat (length src) <= 512 ->
  cache_inv [] (with_buffer (with_entries d (<[slot := set_dirty e]> (cache_entries d)))
                  (list_inserts (slot * 512 + Z.to_nat so) src (buffer d)))
    (list_inserts (Z.to_nat (lba e * 512 + so)) src v).
Proof.
  intros Hc He Hd Hso Hlen. pose proof (ci_shape _ _ _ Hc) as Hs. pose proof (max_fits _ _ Hs).
  pose proof (lookup_lt_Some _ _ _ He). pose proof (entry_lt_max _ _ _ _ Hs He).
  pose proof (in_disk_end _ _ _ Hs Hd). pose proof (list_elem_of_lookup_2 _ _ _ He) as Hin.
  pose proof (ci_lba _ _ _ Hc e Hin) as [Hlo _].
  assert (forall x, x ∈ <[slot := set_dirty e]> (cache_entries d) ->
     (x = set_dirty e) \/ (x ∈ cache_entries d /\ lba x <> lba e)) as Hold.
  { intros x [j Hj]%list_elem_of_lookup. apply list_lookup_insert_Some in Hj as [(-> & -> & _)|[Hne Hj]]; [by left|].
    right. split; [by eapply list_elem_of_lookup_2|]. intros Heq. apply Hne. by eapply entry_unique. }
  assert (forall k, in_disk (list_inserts (Z.to_nat (lba e * 512 + so)) src v) k <-> in_disk v k) as Hid.
  { intros k. unfold in_disk. by rewrite length_inserts. }
  split; simpl; try apply Hc; try by intros ? ?%elem_of_nil.
  - destruct Hs. split; simpl; rewrite ?length_inserts, ?length_insert; done.
  - rewrite length_insert. eapply hash_ok_ext; [apply Hc|]. intros j x Hj.
    destruct (decide (slot = j)) as [<-|]; [|exists x; by rewrite list_lookup_insert_ne].
    exists (set_dirty e). rewrite list_lookup_insert_eq by done. simplify_eq. done.
  - rewrite list_fmap_insert, list_insert_id; [apply Hc|]. by rewrite list_lookup_fmap, He.
  - intros x [->|[Hx _]]%Hold; [by apply (ci_lba _ _ _ Hc e)|by apply Hc].
  - intros x [->|[Hx _]]%Hold; [by apply (ci_age _ _ _ Hc e)|by apply Hc].
  - intros x [->|[Hx _]]%Hold Hdx; apply Hid; [done|by apply Hc].
  - intros j x Hj _ Hdx%Hid o Ho. rewrite !lookup_inserts by lia.
    apply list_lookup_insert_Some in Hj as [(<- & <- & _)|[Hne Hj]]; simpl.
    + pose proof (ci_cached _ _ _ Hc slot e He ltac:(apply not_elem_of_nil) Hd o Ho) as Hse.
      case_decide; case_decide; try lia; [f_equal; lia|done].
    + assert (lba x <> lba e) by (intros Heq; apply Hne; by eapply entry_unique).
      pose proof (ci_lba _ _ _ Hc x (list_elem_of_lookup_2 _ _ _ Hj)) as [Hlx _].
      rewrite !decide_False by lia. by apply (ci_cached _ _ _ Hc); [|apply not_elem_of_nil|..].
  - intros k Hk Hdk%Hid Hcl o Ho.
    assert (k <> lba e) as Hke.
    { intros ->. specialize (Hcl (set_dirty e)). simpl in Hcl.
      assert (true = false); [|done]. apply Hcl; [|done]. eapply list_elem_of_lookup_2. by apply list_lookup_insert_eq. }
    rewrite lookup_inserts, decide_False by lia. apply (ci_device _ _ _ Hc); try done.
    intros x [j Hj]%list_elem_of_lookup Hxl. apply Hcl; [|done]. eapply list_elem_of_lookup_2.
    rewrite list_lookup_insert_ne; [done|]. intros <-. congruence.
Qed.

(** Two adjacent writes are one. *)
Lemma inserts_adjacent {A} (l a b : list A) (i j : nat) :
  j = (i + length a)%nat -> (j + length b <= length l)%nat ->
  list_inserts j b (list_inserts i a l) = list_inserts i (a ++ b) l.
Proof.
  intros -> Hlen. apply list_eq. intros x.
  rewrite !lookup_inserts by (rewrite ?length_inserts, ?length_app; lia). rewrite length_app.
  case_decide.
  - rewrite decide_True, lookup_app_r by lia. f_equal. lia.
  - case_decide; [by rewrite decide_True, lookup_app_l by lia|by rewrite decide_False by lia].
Qed.

Lemma write_loop_ok (n : nat) d v (data : list Z) (s so : Z) (w : nat) :
  cache_inv [] d v -> 0 <= s -> 0 <= so < 512 -> (w <= length data)%nat ->
  s * 512 + so + Z.of_nat (length data - w) <= Z.of_nat (length v) ->
  so + Z.of_nat (length data - w) <= Z.of_nat n * 512 < so + Z.of_nat (length data - w) + 512 ->
  global_age d + Z.of_nat n < 2 ^ 32 ->
  exists d', write_loop d data s so w n = Some d' /\ global_age d' = global_age d + Z.of_nat n /\
    cache_inv [] d' (list_inserts (Z.to_nat (s * 512 + so)) (drop w data) v).
Proof.
  revert d v s so w. induction n as [|n IH]; intros d v s so w Hc Hs Hso Hw Hv Hn Ha; simpl.
  { exists d. split_and!; [done|lia|]. by rewrite drop_ge by lia. }
  pose proof (sector_in_disk v s so (Z.of_nat (length data - w))) as Hdisk.
  destruct (cache_sector_ok d v s) as (slot & d1 & e & -> & Hc1 & Ha1 & He & Hl); [done|done|apply Hdisk; lia|lia|].
  simpl. rewrite He. simpl. pose proof (ci_shape _ _ _ Hc1) as Hs1. pose proof (max_fits _ _ Hs1).
  pose proof (entry_lt_max _ _ _ _ Hs1 He). pose proof (in_disk_end _ _ s Hs1 ltac:(apply Hdisk; lia)).
  remember (Nat.min (length data - w) (Z.to_nat (512 - so))) as c eqn:Hceq.
  rewrite slice_ok by lia. simpl. set (src := take c (drop w data)).
  assert (length src = c) as Hsrc by (unfold src; rewrite length_take, length_drop; lia).
  rewrite copy_from_slice_ok by lia. simpl.
  pose proof (store_bytes d1 v slot e so src Hc1 He ltac:(rewrite Hl; apply Hdisk; lia)) as Hst.
  rewrite Hl in Hst. specialize (Hst ltac:(lia) ltac:(lia)).
  destruct (IH _ _ (s + 1) 0 (w + c)%nat Hst) as (d' & Hr & Ha' & Hc'); [lia..|rewrite length_inserts; lia| |simpl; lia|].
  { destruct (Nat.le_gt_cases (length data - w) (Z.to_nat (512 - so))); lia. }
  exists d'. split; [done|]. split; [simpl in Ha'; lia|].
  destruct (decide (length data - w <= Z.to_nat (512 - so))%nat).
  - rewrite (drop_ge data (w + c)) in Hc' by lia. simpl in Hc'.
    replace (drop w data) with src; [done|]. unfold src. apply take_ge. rewrite length_drop. lia.
  - rewrite inserts_adjacent in Hc' by (rewrite ?length_drop; lia).
    replace (src ++ drop (w + c) data) with (drop w data) in Hc'; [done|].
    unfold src. by rewrite <- drop_drop, take_drop.
Qed.

Lemma write_bytes_ok d v (off : Z) (data : list Z) :
  cache_inv [] d v -> 0 <= off -> off + Z.of_nat (length data) <= Z.of_nat (length v) ->
  global_age d + access_cost (length data) < 2 ^ 32 ->
  exists d', DiskAccess.write_bytes_to_disk d off data = Some d' /\
    cache_inv [] d' (list_inserts (Z.to_nat off) data v) /\
    global_age d' <= global_age d + access_cost (length data).
Proof.
  intros Hc Hoff Hv Ha. pose proof (ci_shape _ _ _ Hc) as Hs.
  destruct (sector_count v off (length data) (sh_size _ _ Hs)) as (n & Hn & Hr & Hcost); [done..|].
  unfold DiskAccess.write_bytes_to_disk, first_sector in *. rewrite Hn.
  pose proof (Z.mod_pos_bound off 512). pose proof (Z.div_mod off 512).
  destruct (write_loop_ok n d v data (off / 512) (off mod 512) 0) as (d' & Hw & Ha' & Hc'); [done|lia..|].
  exists d'. split; [done|]. split; [|lia]. rewrite drop_0 in Hc'.
  by replace (off / 512 * 512 + off mod 512) with off in Hc' by lia.
Qed.

(** ** Flushing *)

Lemma clean_entry d v (i : nat) e dk :
  cache_inv [] d v -> cache_entries d !! i = Some e -> length (contents dk) = length v ->
  sector_eq (contents dk) v (Z.to_nat (lba e)) (Z.to_nat (lba e)) ->
  (forall k, 0 <= k -> k <> lba e -> sector_eq (contents (disk_io d)) v (Z.to_nat k) (Z.to_nat k) ->
     sector_eq (contents dk) v (Z.to_nat k) (Z.to_nat k)) ->
  cache_inv [] (with_entries (with_disk d dk) (<[i := set_clean e]> (cache_entries d))) v.
Proof.
  intros Hc Hi Hlen Hback Hother. pose proof (ci_shape _ _ _ Hc) as Hs. pose proof (lookup_lt_Some _ _ _ Hi).
  pose proof (list_elem_of_lookup_2 _ _ _ Hi) as Hin.
  assert (forall x, x ∈ <[i := set_clean e]> (cache_entries d) -> x = set_clean e \/ x ∈ cache_entries d) as Hold.
  { intros x [j Hj]%list_elem_of_lookup. apply list_lookup_insert_Some in Hj as [(-> & -> & _)|[_ Hj]]; [by left|].
    right. by eapply list_elem_of_lookup_2. }
  split; simpl; try apply Hc; try by intros ? ?%elem_of_nil.
  - destruct Hs. split; simpl; try done. by rewrite length_insert.
  - rewrite length_insert. eapply hash_ok_ext; [apply Hc|]. intros j x Hj.
    destruct (decide (i = j)) as [<-|]; [|exists x; by rewrite list_lookup_insert_ne].
    exists (set_clean e). rewrite list_lookup_insert_eq by done. simplify_eq. done.
  - rewrite list_fmap_insert, list_insert_id; [apply Hc|]. by rewrite list_lookup_fmap, Hi.
  - intros x [->|Hx]%Hold; [by apply (ci_lba _ _ _ Hc e)|by apply Hc].
  - intros x [->|Hx]%Hold; [by apply (ci_age _ _ _ Hc e)|by apply Hc].
  - intros x [->|Hx]%Hold Hd; [done|by apply Hc].
  - intros j x Hj Hnp Hd. apply list_lookup_insert_Some in Hj as [(<- & <- & _)|[_ Hj]].
    + by apply (ci_cached _ _ _ Hc i e).
    + by apply (ci_cached _ _ _ Hc).
  - intros k Hk Hd Hcl. destruct (decide (k = lba e)) as [->|Hne]; [done|]. apply Hother; [done..|].
    apply Hc; [done..|]. intros x [j Hj]%list_elem_of_lookup Hl. apply Hcl; [|done].
    eapply list_elem_of_lookup_2. rewrite list_lookup_insert_ne; [done|]. intros <-. congruence.
Qed.

Lemma flush_loop_ok v (n : nat) d (index : nat) :
  cache_inv [] d v -> (index + n = length (cache_entries d))%nat ->
  (forall i e, (i < index)%nat -> cache_entries d !! i = Some e -> dirty e = false) ->
  exists d', flush_loop d index n = Some d' /\ cache_inv [] d' v /\ global_age d' = global_age d /\
    forall e, e ∈ cache_entries d' -> dirty e = false.
Proof.
  revert d index. induction n as [|n IH]; intros d index Hc Hn Hcl; simpl.
  { exists d. split_and!; try done. intros e [i Hi]%list_elem_of_lookup. eapply Hcl; [|done].
    apply lookup_lt_Some in Hi. lia. }
  destruct (lookup_lt_is_Some_2 (cache_entries d) index) as [e He]; [lia|]. rewrite He. simpl.
  destruct (dirty e) eqn:Hd.
  - destruct (write_back_ok _ _ _ _ _ Hc He Hd ltac:(apply not_elem_of_nil)) as (dk & -> & Hl & Hb & Ho). simpl.
    destruct (IH (with_entries (with_disk d dk) (<[index := set_clean e]> (cache_entries d))) (S index))
      as (d' & Hf & Hc' & Ha & Hall); [by apply clean_entry|simpl; rewrite length_insert; lia| |].
    { intros i x Hi Hx. simpl in Hx. apply list_lookup_insert_Some in Hx as [(_ & <- & _)|[Hne Hx]]; [done|].
      eapply Hcl; [|done]. lia. }
    exists d'. done.
  - destruct (IH d (S index)) as (d' & Hf & Hrest); [done|lia| |by exists d'].
    intros i x Hi Hx. destruct (decide (i = index)) as [->|]; [congruence|]. eapply Hcl; [|done]. lia.
Qed.

Lemma flush_all_ok d v :
  cache_inv [] d v ->
  exists d', DiskAccess.flush_all d = Some d' /\ cache_inv [] d' v /\ global_age d' = global_age d /\
    contents (disk_io d') = v.
Proof.
  intros Hc. destruct (flush_loop_ok v (length (cache_entries d)) d 0) as (d' & Hf & Hc' & Ha & Hcl); [done|done|lia|].
  exists d'. split_and!; try done. pose proof (ci_shape _ _ _ Hc') as Hs. apply list_eq_same_length with (length v);
    [done|apply Hs|]. intros i x y Hi Hx Hy.
  assert (in_disk v (Z.of_nat (i / 512))) as Hd.
  { unfold in_disk. rewrite Nat2Z.id. pose proof (Nat.Div0.div_mod i 512). lia. }
  pose proof (ci_device _ _ _ Hc' (Z.of_nat (i / 512)) ltac:(lia) Hd ltac:(auto) (i mod 512)%nat) as Heq.
  rewrite Nat2Z.id in Heq. replace (i / 512 * 512 + i mod 512)%nat with i in Heq.
  - rewrite Heq in Hx by (apply Nat.mod_upper_bound; lia). congruence.
  - pose proof (Nat.Div0.div_mod i 512). lia.
Qed.

(** ** The cache implements the interface *)

#[export] Instance DiskAccess_disk : Disk (DiskAccess.t D) := {
  read_bytes_from_disk := DiskAccess.read_bytes_from_disk;
  write_bytes_to_disk := DiskAccess.write_bytes_to_disk;
  flush_all := DiskAccess.flush_all
}.

#[export] Program Instance DiskAccess_laws : DiskLaws (DiskAccess.t D) := {
  rep n d v := cache_inv [] d v /\ global_age d + n < 2 ^ 32;
  durable d := contents (disk_io d)
}.
Next Obligation. intros n m d v [Hc Ha] Hle. split; [done|lia]. Qed.
Next Obligation. intros n d v [Hc Ha]. pose proof (sh_size _ _ (ci_shape _ _ _ Hc)). lia. Qed.
Next Obligation.
  intros n d v off buf [Hc Ha] Hoff Hlen Hn. destruct (read_bytes_ok d v off buf) as (d' & Hr & Hc' & Ha'); [done|done|done|lia|].
  exists d'. split; [done|]. split; [done|lia].
Qed.
Next Obligation.
  intros n d v off data [Hc Ha] Hoff Hlen Hn. destruct (write_bytes_ok d v off data) as (d' & Hr & Hc' & Ha'); [done|done|done|lia|].
  exists d'. split; [done|]. split; [done|lia].
Qed.
Next Obligation.
  intros n d v [Hc Ha]. destruct (flush_all_ok d v Hc) as (d' & Hf & Hc' & Ha' & Hd). exists d'.
  split_and!; try done. lia.
Qed.

Lemma new_ok (mmap : nat -> list Z) (dk : D) :
  (forall n, length (mmap n) = n) -> (512 | Z.of_nat (length (contents dk))) ->
  Z.of_nat (length (contents dk)) <= 2 ^ 32 - 512 ->
  cache_inv [] (DiskAccess.new mmap dk 65536) (contents dk).
Proof.
  intros Hm Hdiv Hsz. unfold DiskAccess.new.
  replace (u32 (u32 (65536 + Z.of_nat STAGING_SIZE) + 0xFFF) .& bnot 32 0xFFF) with 73728 by (vm_compute; reflexivity).
  split; simpl; try by intros ? ?%elem_of_nil.
  - split; simpl; try done; [by rewrite Hm|..].
    + rewrite hash_size. unfold READAHEAD_SECTORS. replace (get_max_cache_entries _) with 128%nat by (vm_compute; reflexivity). lia.
    + lia.
  - split; [apply length_replicate|..].
    + unfold slots. rewrite filter_none; [done|]. apply Forall_replicate. by intros [].
    + intros p s Hp Hne. apply lookup_replicate in Hp as [-> _]. done.
  - apply NoDup_nil_2.
  - lia.
  - done.
  - by intros k _ _ _ o _.
Qed.
End Cache.

(** ** The cache refines a flat array *)

Inductive disk_op :=
| OpRead (off : Z) (buf : list Z)
| OpWrite (off : Z) (data : list Z)
| OpFlush.

Definition op_cost (o : disk_op) : Z :=
  match o with OpRead _ l | OpWrite _ l => access_cost (length l) | OpFlush => 0 end.

Definition op_in_range (size : nat) (o : disk_op) : bool :=
  match o with
  | OpRead off l | OpWrite off l => (0 <=? off) && (off + Z.of_nat (length l) <=? Z.of_nat size)
  | OpFlush => true
  end.

Section Run.
Context {D : Type} `{Disk D}.

(** The accesses of a driver, with the bytes the reads return. *)
Fixpoint run_ops (d : D) (ops : list disk_op) : option (D * list (list Z)) :=
  match ops with
  | [] => Some (d, [])
  | OpRead off buf :: ops =>
      match read_bytes_from_disk d off buf with
      | Some (d, bytes, _) => '(d, outs) ← run_ops d ops; Some (d, bytes :: outs)
      | None => None
      end
  | OpWrite off data :: ops => d ← write_bytes_to_disk d off data; run_ops d ops
  | OpFlush :: ops => d ← flush_all d; run_ops d ops
  end.
End Run.

(** The same accesses on an array. *)
Fixpoint array_ops (v : list Z) (ops : list disk_op) : list Z * list (list Z) :=
  match ops with
  | [] => (v, [])
  | OpRead off buf :: ops =>
      let '(v', outs) := array_ops v ops in (v', take (length buf) (drop (Z.to_nat off) v) :: outs)
  | OpWrite off data :: ops => array_ops (list_inserts (Z.to_nat off) data v) ops
  | OpFlush :: ops => array_ops v ops
  end.

Definition total_cost (ops : list disk_op) : Z := foldr (fun o acc => op_cost o + acc) 0 ops.

Lemma run_ops_refines {D} `{DiskLaws D} (ops : list disk_op) (n : Z) (d : D) (v : list Z) :
  rep n d v -> total_cost ops <= n -> forallb (op_in_range (length v)) ops = true ->
  exists d', run_ops d ops = Some (d', (array_ops v ops).2) /\
    rep (n - total_cost ops) d' (array_ops v ops).1.
Proof.
  revert n d v. induction ops as [|o ops IH]; intros n d v Hr Hn Hv; simpl in *.
  { exists d. by rewrite Z.sub_0_r. }
  assert (0 <= total_cost ops) as Hpos.
  { clear. induction ops as [|[] ops IH]; simpl; unfold access_cost; Z.div_mod_to_equations; lia. }
  apply andb_true_iff in Hv as [Ho Hv]. destruct o as [off buf|off data|]; simpl in *; bool_facts.
  - destruct (read_law n d v off buf) as (d1 & -> & Hr1); [done..|lia|]. simpl.
    destruct (IH _ _ _ Hr1) as (d' & -> & Hr'); [lia|done|]. simpl. exists d'.
    destruct (array_ops v ops) as [v' outs]. split; [done|]. simpl in *. by rewrite Z.sub_add_distr.
  - destruct (write_law n d v off data) as (d1 & -> & Hr1); [done..|lia|]. simpl.
    destruct (IH _ _ _ Hr1) as (d' & -> & Hr'); [lia|by rewrite length_inserts|]. exists d'.
    split; [done|]. by rewrite Z.sub_add_distr.
  - destruct (flush_law n d v) as (d1 & -> & Hr1 & _); [done|]. simpl.
    destruct (IH _ _ _ Hr1) as (d' & -> & Hr'); [lia|done|]. exists d'. split; [done|].
    by replace (n - (0 + total_cost ops)) with (n - total_cost ops) by lia.
Qed.

(** C3: over a device that reads and writes whole sectors, the 128-sector
    cache of the FAT driver (hash table with linear probing, read-ahead, LRU
    eviction with write-back) answers any sequence of in-range reads, writes
    and flushes exactly as a flat array of bytes would, without a panic, for
    fewer than 2^32 sector accesses; after [flush_all] the device holds
    exactly the bytes of that array. *)
Theorem disk_cache_refines_bytes {D} `{DiskIOLaws D} (mmap : nat -> list Z) (dk : D) (ops : list disk_op) :
  (forall n, length (mmap n) = n) ->
  (512 | Z.of_nat (length (contents dk))) -> Z.of_nat (length (contents dk)) <= 2 ^ 32 - 512 ->
  forallb (op_in_range (length (contents dk))) ops = true -> total_cost ops < 2 ^ 32 ->
  exists d d', run_ops (DiskAccess.new mmap dk 65536) ops = Some (d, (array_ops (contents dk) ops).2) /\
    DiskAccess.flush_all d = Some d' /\ contents (disk_io d') = (array_ops (contents dk) ops).1.
Proof.
  intros Hm Hdiv Hsz Hv Hcost.
  destruct (run_ops_refines ops (2 ^ 32 - 1) (DiskAccess.new mmap dk 65536) (contents dk))
    as (d & Hrun & Hrep); [|lia|done|].
  { split; [by apply new_ok|]. simpl. lia. }
  destruct (flush_law _ _ _ Hrep) as (d' & Hf & _ & Hd). by exists d, d'.
Qed.

(** The reference disk: the array itself. *)
#[local] Instance array_disk : Disk (list Z) := {
  read_bytes_from_disk v off buf :=
    bytes ← slice v (Z.to_nat off) (length buf); Some (v, bytes, Z.of_nat (length buf));
  write_bytes_to_disk v off data := copy_from_slice v (Z.to_nat off) data;
  flush_all v := Some v
}.

#[local] Program Instance array_disk_laws : DiskLaws (list Z) := {
  rep n d v := d = v /\ Z.of_nat (length v) < 2 ^ 32;
  durable d := d
}.
Next Obligation. done. Qed.
Next Obligation. by intros n d v [_ ?]. Qed.
Next Obligation.
  intros n d v off buf [-> Hs] Ho Hl _. exists v. simpl. rewrite slice_ok by lia. done.
Qed.
Next Obligation.
  intros n d v off data [-> Hs] Ho Hl _. eexists. simpl. rewrite copy_from_slice_ok by lia.
  split; [done|]. by rewrite length_inserts.
Qed.
Next Obligation. intros n d v [-> Hs]. by exists v. Qed.

(** A device in memory. *)
#[local] Instance mem_disk : DiskIO (list Z) := {
  io_read d buf off :=
    let got := take (length buf) (drop (Z.to_nat off) d) in
    (d, list_inserts 0 got buf, Z.of_nat (length got));
  io_write d data off := list_inserts (Z.to_nat off) data d
}.

#[local] Program Instance mem_disk_laws : DiskIOLaws (list Z) := { contents d := d }.
Next Obligation. done. Qed.
Next Obligation. intros. simpl. by rewrite length_inserts. Qed.
Next Obligation.
  intros d buf off i _ _ Hi Hd. simpl.
  assert (length (take (length buf) (drop (Z.to_nat off) d)) <= length buf)%nat by (rewrite length_take; lia).
  rewrite lookup_inserts by lia. rewrite decide_True.
  - by rewrite Nat.sub_0_r, lookup_sub, decide_True.
  - rewrite length_take, length_drop. lia.
Qed.
Next Obligation. done. Qed.

Definition sample_ops : list disk_op :=
  [OpWrite 510 [1; 2; 3; 4]; OpRead 511 [0; 0]; OpFlush; OpRead 1023 [9]].
Definition sample_disk : list Z := replicate 2048 7.

Lemma disk_cache_witness :
  (array_ops sample_disk sample_ops).2 = [[2; 3]; [7]] /\
  exists d d', run_ops (DiskAccess.new (fun n => replicate n 0) sample_disk 65536) sample_ops =
      Some (d, (array_ops (contents sample_disk) sample_ops).2) /\
    DiskAccess.flush_all d = Some d' /\
    contents (disk_io d') = (array_ops (contents sample_disk) sample_ops).1.
Proof.
  split; [vm_compute; reflexivity|].
  apply (disk_cache_refines_bytes (fun n => replicate n 0) sample_disk sample_ops).
  - intros n. apply length_replicate.
  - by exists 4.
  - vm_compute. discriminate.
  - vm_compute. reflexivity.
  - vm_compute. reflexivity.
Defined.
