(* ===== verification/FatTable.v ===== *)
(** * The allocation table of a FAT12 volume

    [components/drivers/fatdriver/src/bpb.rs] and [table.rs]: the geometry in
    the boot sector and the table of 12-bit cluster entries, two to three
    bytes.  The code runs on any disk; its theorems use the laws of the sector
    cache.  A volume is read as a map from clusters to entries, one per copy
    of the table. *)

From S2P Require Import Prelude FatDisk FatCache.

Module BiosParamBlock.
Record t := {
  bytes_per_sector : Z; sectors_per_cluster : Z; reserved_sectors : Z; fat_count : Z;
  root_directory_entries : Z; total_sectors : Z; media_descriptor : Z; sectors_per_fat : Z
}.

Definition first_root_directory_sector (self : t) : Z :=
  let fat_sectors := u32 (fat_count self * sectors_per_fat self) in
  u32 (reserved_sectors self + fat_sectors).

Definition root_directory_size (self : t) : Z := u32 (root_directory_entries self * 32).
End BiosParamBlock.

Module AllocationTable.
Record t := {
  table_start : Z; sectors_per_cluster : Z; bytes_per_fat : Z; fat_count : Z;
  first_cluster_location : Z
}.

Definition from_bpb (bpb : BiosParamBlock.t) : t :=
  let first_cluster_location :=
    u32 (u32 (BiosParamBlock.first_root_directory_sector bpb * 512) +
         BiosParamBlock.root_directory_size bpb) in
  {| table_start := u32 (BiosParamBlock.reserved_sectors bpb * 512);
     sectors_per_cluster := BiosParamBlock.sectors_per_cluster bpb;
     bytes_per_fat := u32 (BiosParamBlock.sectors_per_fat bpb * 512);
     fat_count := BiosParamBlock.fat_count bpb;
     first_cluster_location := first_cluster_location |}.

Definition bytes_per_cluster (self : t) : Z := u32 (sectors_per_cluster self * 512).

Definition get_cluster_location (self : t) (cluster : Z) : Z :=
  u32 (first_cluster_location self + u32 (bytes_per_cluster self * u32 (cluster - 2))).

(** The three bytes that hold the entries of a pair of clusters. *)
Definition pair_value (pair_bytes : list Z) : option Z :=
  b0 ← pair_bytes !! 0%nat; b1 ← pair_bytes !! 1%nat; b2 ← pair_bytes !! 2%nat;
  Some ((b2 ≪ 16) .| (b1 ≪ 8) .| b0).

Section Ops.
Context {D : Type} `{Disk D}.
Implicit Types (self : t) (disk : D).

Definition get_next_cluster self (cluster : Z) disk : option (option Z * D) :=
  let pair_offset := u32 (cluster / 2 * 3) in
  match read_bytes_from_disk disk (u32 (table_start self + pair_offset)) [0; 0; 0] with
  | None => None
  | Some (disk, pair_bytes, _) =>
      pair_value ← pair_value pair_bytes;
      let next_cluster :=
        if cluster .& 1 =? 0 then pair_value .& 0xfff else (pair_value .& 0xfff000) ≫ 12 in
      Some (if next_cluster =? 0xfff then None else Some next_cluster, disk)
  end.

Fixpoint nth_loop self (current : Z) (n : nat) disk : option (option Z * D) :=
  match n with
  | O => Some (Some current, disk)
  | S n =>
      '(next, disk) ← get_next_cluster self current disk;
      match next with
      | Some current => nth_loop self current n disk
      | None => Some (None, disk)
      end
  end.

Definition get_nth_cluster self (first_cluster index : Z) disk : option (option Z * D) :=
  nth_loop self first_cluster (Z.to_nat index) disk.

(** One iteration of the loop over the copies of the table. *)
Definition set_copy self (cluster value fat_index : Z) disk : option D :=
  let fat_start := u32 (table_start self + u32 (fat_index * bytes_per_fat self)) in
  let pair_offset := u32 (cluster / 2 * 3) in
  match read_bytes_from_disk disk (u32 (fat_start + pair_offset)) [0; 0; 0] with
  | None => None
  | Some (disk, pair_bytes, _) =>
      pair_value ← pair_value pair_bytes;
      let pair_value :=
        if cluster .& 1 =? 0 then (pair_value .& 0xFFF000) .| value
        else (pair_value .& 0x000FFF) .| (value ≪ 12) in
      write_bytes_to_disk disk (u32 (fat_start + pair_offset))
        [pair_value .& 0xFF; (pair_value ≫ 8) .& 0xFF; (pair_value ≫ 16) .& 0xFF]
  end.

Fixpoint set_loop self (cluster value : Z) (n : nat) (fat_index : Z) disk : option D :=
  match n with
  | O => Some disk
  | S n => disk ← set_copy self cluster value fat_index disk;
           set_loop self cluster value n (fat_index + 1) disk
  end.

Definition set_cluster_entry self (cluster value : Z) disk : option D :=
  let value := value .& 0xFFF in
  set_loop self cluster value (Z.to_nat (fat_count self)) 0 disk.

Fixpoint allocate_loop self (n : nat) (cluster : Z) disk : option (option Z * D) :=
  match n with
  | O => Some (None, disk)
  | S n =>
      let pair_offset := u32 (cluster / 2 * 3) in
      match read_bytes_from_disk disk (u32 (table_start self + pair_offset)) [0; 0; 0] with
      | None => None
      | Some (disk, pair_bytes, _) =>
          pair_value ← pair_value pair_bytes;
          let entry :=
            if cluster .& 1 =? 0 then pair_value .& 0xFFF else (pair_value ≫ 12) .& 0xFFF in
          if entry =? 0 then
            disk ← set_cluster_entry self cluster 0xFFF disk;
            Some (Some cluster, disk)
          else allocate_loop self n (cluster + 1) disk
      end
  end.

(** [for cluster in 2..4085] *)
Definition allocate_cluster self disk : option (option Z * D) :=
  allocate_loop self (Z.to_nat (4085 - 2)) 2 disk.

(** The [loop] of [free_chain]; [None] when the fuel runs out. *)
Fixpoint free_chain (fuel : nat) self (current : Z) disk : option D :=
  match fuel with
  | O => None
  | S fuel =>
      '(next, disk) ← get_next_cluster self current disk;
      disk ← set_cluster_entry self current 0 disk;
      match next with
      | Some n => free_chain fuel self n disk
      | None => Some disk
      end
  end.
End Ops.
End AllocationTable.

(** ** A volume as a map of entries *)

Module FatView.
Import AllocationTable.

#[local] Arguments pair_value : simpl never.

Definition byte_at (v : list Z) (i : Z) : Z := default 0 (v !! Z.to_nat i).

#[local] Arguments byte_at : simpl never.

(** The 24 bits of the pair of [c], and the entry of [c], in the copy of the
    table at [start]. *)
Definition pair_at (v : list Z) (start c : Z) : Z :=
  let o := start + c / 2 * 3 in
  byte_at v o + byte_at v (o + 1) * 256 + byte_at v (o + 2) * 65536.
Definition entry_at (v : list Z) (start c : Z) : Z :=
  if Z.even c then pair_at v start c mod 4096 else pair_at v start c / 4096.

Definition put_pair (v : list Z) (start c p : Z) : list Z :=
  list_inserts (Z.to_nat (start + c / 2 * 3)) [p mod 256; p / 256 mod 256; p / 65536] v.
Definition put_entry (v : list Z) (start c x : Z) : list Z :=
  put_pair v start c
    (if Z.even c then pair_at v start c / 4096 * 4096 + x
     else x * 4096 + pair_at v start c mod 4096).

Definition bytes_ok (v : list Z) : Prop := Forall is_u8 v.

Lemma byte_at_range (v : list Z) (i : Z) : bytes_ok v -> 0 <= byte_at v i < 256.
Proof.
  intros Hv. unfold byte_at. destruct (v !! Z.to_nat i) as [b|] eqn:Hb; simpl; [|lia].
  by apply (Forall_lookup_1 _ _ _ _ Hv Hb).
Qed.

Lemma pair_at_range (v : list Z) (start c : Z) : bytes_ok v -> 0 <= pair_at v start c < 2 ^ 24.
Proof.
  intros Hv. unfold pair_at. pose proof (byte_at_range v (start + c / 2 * 3) Hv).
  pose proof (byte_at_range v (start + c / 2 * 3 + 1) Hv). pose proof (byte_at_range v (start + c / 2 * 3 + 2) Hv). lia.
Qed.

Lemma entry_at_range (v : list Z) (start c : Z) : bytes_ok v -> 0 <= entry_at v start c < 4096.
Proof. intros Hv. pose proof (pair_at_range v start c Hv). unfold entry_at. destruct (Z.even c); word. Qed.

Lemma bytes_ok_inserts (v l : list Z) (i : nat) : bytes_ok v -> bytes_ok l -> bytes_ok (list_inserts i l v).
Proof. intros Hv Hl. unfold bytes_ok. revert i. induction Hl; intros i; simpl; [done|]. by apply Forall_insert. Qed.

(** *** Bit operations of the code *)

Lemma pair_value_sum (b0 b1 b2 : Z) :
  0 <= b0 < 256 -> 0 <= b1 < 256 -> 0 <= b2 -> (b2 ≪ 16) .| (b1 ≪ 8) .| b0 = b0 + b1 * 256 + b2 * 65536.
Proof.
  intros. change 16 with (8 + 8). rewrite <- (Z.shiftl_shiftl b2 8 8), <- Z.shiftl_lor by lia.
  rewrite lor_add, lor_add by lia. lia.
Qed.

Lemma parity (c : Z) : (c .& 1 =? 0) = Z.even c.
Proof.
  change 1 with (Z.ones 1). rewrite Z.land_ones, Zeven_mod by lia. done.
Qed.

Lemma land_high12 (p : Z) : 0 <= p < 2 ^ 24 -> p .& 0xfff000 = p / 4096 * 4096.
Proof.
  intros. change 0xfff000 with (2 ^ 24 - 2 ^ 12). rewrite land_high_mask by lia. word.
Qed.

Lemma low_entry (p : Z) : p .& 0xfff = p mod 4096.
Proof. apply land_fff. Qed.

Lemma high_entry (p : Z) : 0 <= p < 2 ^ 24 -> (p .& 0xfff000) ≫ 12 = p / 4096.
Proof. intros. rewrite land_high12, shiftr_div by lia. change (2 ^ 12) with 4096. by rewrite Z.div_mul. Qed.

Lemma high_entry' (p : Z) : 0 <= p < 2 ^ 24 -> (p ≫ 12) .& 0xfff = p / 4096.
Proof. intros. rewrite land_fff, shiftr_div by lia. change (2 ^ 12) with 4096. rewrite Z.mod_small; word. Qed.

Lemma set_low (p x : Z) : 0 <= p < 2 ^ 24 -> 0 <= x < 4096 -> (p .& 0xfff000) .| x = p / 4096 * 4096 + x.
Proof.
  intros. rewrite land_high12 by lia. pose proof (lor_add x (p / 4096) 12 ltac:(lia) ltac:(lia)) as Hl.
  rewrite shiftl_mul in Hl by lia. apply Hl.
Qed.

Lemma set_high (p x : Z) : 0 <= x -> (p .& 0x000fff) .| (x ≪ 12) = x * 4096 + p mod 4096.
Proof.
  intros. rewrite land_fff, Z.lor_comm, lor_add by (try (pose proof (Z.mod_pos_bound p 4096)); lia). done.
Qed.

Lemma pair_bytes (p : Z) :
  0 <= p < 2 ^ 24 -> [p .& 0xFF; (p ≫ 8) .& 0xFF; (p ≫ 16) .& 0xFF] = [p mod 256; p / 256 mod 256; p / 65536].
Proof.
  intros. change 0xFF with (Z.ones 8). rewrite !Z.land_ones, !shiftr_div by lia.
  change (2 ^ 8) with 256. change (2 ^ 16) with 65536. rewrite (Z.mod_small (p / 65536)) by word. done.
Qed.

(** *** Writing an entry *)

Definition fits (v : list Z) (start c : Z) : Prop :=
  0 <= start /\ 0 <= c /\ start + c / 2 * 3 + 3 <= Z.of_nat (length v).

Lemma put_entry_length (v : list Z) (start c x : Z) : length (put_entry v start c x) = length v.
Proof. unfold put_entry, put_pair. apply length_inserts. Qed.

Lemma pair_word (v : list Z) (start c x : Z) :
  bytes_ok v -> 0 <= x < 4096 ->
  0 <= (if Z.even c then pair_at v start c / 4096 * 4096 + x else x * 4096 + pair_at v start c mod 4096) < 2 ^ 24.
Proof. intros Hv Hx. pose proof (pair_at_range v start c Hv). destruct (Z.even c); word. Qed.

Lemma put_entry_bytes (v : list Z) (start c x : Z) :
  bytes_ok v -> 0 <= x < 4096 -> bytes_ok (put_entry v start c x).
Proof.
  intros Hv Hx. apply bytes_ok_inserts; [done|]. pose proof (pair_word v start c x Hv Hx).
  repeat apply Forall_cons_2; [unfold is_u8; word..|apply Forall_nil_2].
Qed.

Lemma byte_at_put (v : list Z) (start c p i : Z) :
  fits v start c -> 0 <= i ->
  byte_at (put_pair v start c p) i =
    if decide (i = start + c / 2 * 3) then p mod 256
    else if decide (i = start + c / 2 * 3 + 1) then p / 256 mod 256
    else if decide (i = start + c / 2 * 3 + 2) then p / 65536
    else byte_at v i.
Proof.
  intros (Hs & Hc & Hl) Hi. pose proof (Z.div_pos c 2 Hc ltac:(lia)).
  unfold byte_at, put_pair. rewrite lookup_inserts by (simpl; lia). simpl.
  set (o := start + c / 2 * 3) in *.
  destruct (decide (i = o)) as [->|]; [rewrite decide_True, Nat.sub_diag by lia; done|].
  destruct (decide (i = o + 1)) as [->|].
  { rewrite decide_True by lia. by replace (Z.to_nat (o + 1) - Z.to_nat o)%nat with 1%nat by lia. }
  destruct (decide (i = o + 2)) as [->|].
  { rewrite decide_True by lia. by replace (Z.to_nat (o + 2) - Z.to_nat o)%nat with 2%nat by lia. }
  by rewrite decide_False by lia.
Qed.

Lemma pair_at_put (v : list Z) (start c c' p : Z) :
  fits v start c -> 0 <= c' -> 0 <= p < 2 ^ 24 ->
  pair_at (put_pair v start c p) start c' = if decide (c' / 2 = c / 2) then p else pair_at v start c'.
Proof.
  intros Hf Hc' Hp. pose proof (Z.div_pos c' 2 Hc' ltac:(lia)). destruct Hf as (Hs & Hc & Hl).
  unfold pair_at. rewrite !byte_at_put by (done || lia).
  destruct (decide (c' / 2 = c / 2)) as [->|Hne].
  - rewrite decide_True by lia. rewrite (decide_False (P := _ + 1 = _)), (decide_True (P := _ + 1 = _)) by lia.
    rewrite !(decide_False (P := _ + 2 = _)), decide_True by lia. word.
  - by rewrite !decide_False by lia.
Qed.

(** An entry written is read back, and no other entry of the copy changes. *)
Lemma entry_at_put (v : list Z) (start c c' x : Z) :
  bytes_ok v -> fits v start c -> 0 <= c' -> 0 <= x < 4096 ->
  entry_at (put_entry v start c x) start c' = if decide (c' = c) then x else entry_at v start c'.
Proof.
  intros Hv Hf Hc' Hx. pose proof (pair_word v start c x Hv Hx) as Hp. pose proof (pair_at_range v start c Hv).
  destruct Hf as (Hs & Hc & Hl). unfold entry_at, put_entry.
  rewrite pair_at_put by (done || split_and!; done).
  pose proof (Zmod_even c) as Hec. pose proof (Zmod_even c') as Hec'.
  pose proof (Z.div_mod c 2 ltac:(lia)). pose proof (Z.div_mod c' 2 ltac:(lia)).
  destruct (decide (c' / 2 = c / 2)) as [Hq|Hq].
  - assert (pair_at v start c' = pair_at v start c) as -> by (unfold pair_at; by rewrite Hq).
    destruct (Z.even c) eqn:He, (Z.even c') eqn:He'; try (rewrite decide_True by lia; word);
      rewrite decide_False by lia; word.
  - rewrite decide_False by congruence. done.
Qed.

Lemma put_entry_other (v : list Z) (start c x i : Z) :
  fits v start c -> 0 <= i -> (i < start + c / 2 * 3 \/ start + c / 2 * 3 + 3 <= i) ->
  put_entry v start c x !! Z.to_nat i = v !! Z.to_nat i.
Proof.
  intros (Hs & Hc & Hl) Hi Ho. pose proof (Z.div_pos c 2 Hc ltac:(lia)).
  unfold put_entry, put_pair. rewrite lookup_inserts, decide_False by (simpl; lia). done.
Qed.

Lemma entry_at_ext (v v' : list Z) (start c : Z) :
  0 <= start -> 0 <= c ->
  (forall i, start + c / 2 * 3 <= i < start + c / 2 * 3 + 3 -> v' !! Z.to_nat i = v !! Z.to_nat i) ->
  entry_at v' start c = entry_at v start c.
Proof.
  intros Hs Hc He. assert (pair_at v' start c = pair_at v start c) as Hp; [|unfold entry_at; by rewrite Hp].
  unfold pair_at, byte_at. by rewrite !He by lia.
Qed.

(** ** The operations on a volume *)

Section Volume.
Context {D : Type} `{DiskLaws D}.
Implicit Types (d : D) (v : list Z) (self : AllocationTable.t).

(** The layout of a volume: the copies of the table, then the root directory,
    then the clusters. *)
Record volume self v : Prop := {
  vo_start : 0 <= table_start self;
  vo_fat : 0 < bytes_per_fat self;
  vo_count : 1 <= fat_count self;
  vo_data : table_start self + fat_count self * bytes_per_fat self <= first_cluster_location self;
  vo_size : first_cluster_location self <= Z.of_nat (length v);
  vo_cluster : 1 <= AllocationTable.sectors_per_cluster self <= 128;
  vo_bytes : bytes_ok v
}.

Definition copy_start self (i : Z) : Z := table_start self + i * bytes_per_fat self.
Definition entry self v (c : Z) : Z := entry_at v (table_start self) c.
Definition in_fat self (c : Z) : Prop := 0 <= c /\ c / 2 * 3 + 3 <= bytes_per_fat self.

Definition next_of (e : Z) : option Z := if e =? 0xfff then None else Some e.

Lemma copy_fits self v (i c : Z) :
  volume self v -> 0 <= i < fat_count self -> in_fat self c -> fits v (copy_start self i) c.
Proof.
  intros [] Hi [Hc Hf]. unfold fits, copy_start.
  assert ((i + 1) * bytes_per_fat self <= fat_count self * bytes_per_fat self) by (apply Z.mul_le_mono_nonneg_r; lia).
  split_and!; lia.
Qed.

Lemma table_fits self v (c : Z) : volume self v -> in_fat self c -> fits v (table_start self) c.
Proof.
  intros Hv Hc. pose proof (copy_fits self v 0 c Hv ltac:(pose proof (vo_count _ _ Hv); lia) Hc) as Hf.
  unfold copy_start in Hf. by rewrite Z.add_0_r in Hf.
Qed.

Lemma take3 (v : list Z) (o : Z) :
  0 <= o -> o + 3 <= Z.of_nat (length v) ->
  take 3 (drop (Z.to_nat o) v) = [byte_at v o; byte_at v (o + 1); byte_at v (o + 2)].
Proof.
  intros Ho Hl. unfold byte_at.
  destruct (lookup_lt_is_Some_2 v (Z.to_nat o)) as [a Ha]; [lia|].
  destruct (lookup_lt_is_Some_2 v (Z.to_nat (o + 1))) as [b Hb]; [lia|].
  destruct (lookup_lt_is_Some_2 v (Z.to_nat (o + 2))) as [c Hc]; [lia|]. rewrite Ha, Hb, Hc. simpl.
  replace (Z.to_nat (o + 1)) with (S (Z.to_nat o)) in Hb by lia.
  replace (Z.to_nat (o + 2)) with (S (S (Z.to_nat o))) in Hc by lia.
  rewrite (drop_S _ _ _ Ha), (drop_S _ _ _ Hb), (drop_S _ _ _ Hc). done.
Qed.

(** Reading the pair of a cluster. *)
Lemma read_pair (n : Z) d v (start c : Z) :
  rep n d v -> bytes_ok v -> fits v start c -> 2 <= n ->
  exists d', read_bytes_from_disk d (u32 (start + u32 (c / 2 * 3))) [0; 0; 0] =
      Some (d', [byte_at v (start + c / 2 * 3); byte_at v (start + c / 2 * 3 + 1); byte_at v (start + c / 2 * 3 + 2)], 3) /\
    rep (n - 2) d' v /\ pair_value [byte_at v (start + c / 2 * 3); byte_at v (start + c / 2 * 3 + 1);
      byte_at v (start + c / 2 * 3 + 2)] = Some (pair_at v start c).
Proof.
  intros Hr Hb (Hs & Hc & Hl) Hn. pose proof (rep_size _ _ _ Hr). pose proof (Z.div_pos c 2 Hc ltac:(lia)).
  assert (u32 (start + u32 (c / 2 * 3)) = start + c / 2 * 3) as -> by word.
  destruct (read_law n d v (start + c / 2 * 3) [0; 0; 0]) as (d' & -> & Hr'); [done|lia|simpl; lia|done|].
  exists d'. simpl. rewrite take3 by lia. split; [done|]. split; [done|].
  unfold pair_value. simpl. rewrite pair_value_sum; [done|apply byte_at_range, Hb..|].
  by apply byte_at_range.
Qed.

Lemma get_next_ok (n : Z) d v self (c : Z) :
  rep n d v -> bytes_ok v -> fits v (table_start self) c -> 2 <= n ->
  exists d', get_next_cluster self c d = Some (next_of (entry self v c), d') /\ rep (n - 2) d' v.
Proof.
  intros Hr Hb Hf Hn. destruct (read_pair n d v (table_start self) c) as (d' & Hrd & Hr' & Hp); [done..|].
  unfold get_next_cluster. rewrite Hrd. cbv beta iota. rewrite Hp. simpl. exists d'. split; [|done].
  unfold next_of, entry, entry_at. rewrite parity, low_entry, high_entry by (by apply pair_at_range). done.
Qed.

Lemma set_copy_ok (n : Z) d v self (c x i : Z) :
  rep n d v -> bytes_ok v -> fits v (copy_start self i) c -> 0 <= x < 4096 -> 0 <= i -> 0 <= table_start self ->
  0 <= bytes_per_fat self -> 4 <= n ->
  exists d', set_copy self c x i d = Some d' /\ rep (n - 4) d' (put_entry v (copy_start self i) c x).
Proof.
  intros Hr Hb Hf Hx Hi Hts Hbf Hn. pose proof (rep_size _ _ _ Hr). pose proof Hf as (Hs & Hc & Hl).
  pose proof (Z.div_pos c 2 Hc ltac:(lia)).
  assert (u32 (table_start self + u32 (i * bytes_per_fat self)) = copy_start self i) as Hst.
  { unfold copy_start in *. assert (0 <= i * bytes_per_fat self) by nia. unfold u32.
    rewrite (Z.mod_small (i * _)), Z.mod_small by lia. done. }
  unfold set_copy. rewrite Hst.
  destruct (read_pair n d v (copy_start self i) c) as (d1 & Hrd & Hr1 & Hp); [done..|lia|].
  rewrite Hrd. cbv beta iota. rewrite Hp. simpl. pose proof (pair_at_range v (copy_start self i) c Hb).
  rewrite parity, set_low, set_high, pair_bytes by (done || lia || by apply pair_word).
  assert (u32 (copy_start self i + u32 (c / 2 * 3)) = copy_start self i + c / 2 * 3) as -> by word.
  destruct (write_law _ d1 v (copy_start self i + c / 2 * 3)
    [(if Z.even c then pair_at v (copy_start self i) c / 4096 * 4096 + x
      else x * 4096 + pair_at v (copy_start self i) c mod 4096) mod 256;
     (if Z.even c then pair_at v (copy_start self i) c / 4096 * 4096 + x
      else x * 4096 + pair_at v (copy_start self i) c mod 4096) / 256 mod 256;
     (if Z.even c then pair_at v (copy_start self i) c / 4096 * 4096 + x
      else x * 4096 + pair_at v (copy_start self i) c mod 4096) / 65536] Hr1)
    as (d2 & -> & Hr2); [lia|simpl; lia|change (access_cost _) with 2; lia|].
  exists d2. split; [done|]. eapply rep_weaken; [done|]. change (access_cost _) with 2. lia.
Qed.

(** The volume after [c] has been set to [x] in [n] copies from copy [i]. *)
Fixpoint set_all self (c x : Z) (n : nat) (i : Z) v : list Z :=
  match n with
  | O => v
  | S n => set_all self c x n (i + 1) (put_entry v (copy_start self i) c x)
  end.

Lemma set_all_length self (c x : Z) (k : nat) (i : Z) v : length (set_all self c x k i v) = length v.
Proof. revert i v. induction k as [|k IH]; intros i v; simpl; [done|]. by rewrite IH, put_entry_length. Qed.

Lemma set_all_bytes self (c x : Z) (k : nat) (i : Z) v :
  0 <= x < 4096 -> bytes_ok v -> bytes_ok (set_all self c x k i v).
Proof.
  intros Hx. revert i v. induction k as [|k IH]; intros i v Hv; simpl; [done|]. apply IH. by apply put_entry_bytes.
Qed.

Lemma set_loop_ok (k : nat) (n : Z) d v self (c x i : Z) :
  rep n d v -> bytes_ok v -> 0 <= x < 4096 -> 0 <= i -> 0 <= table_start self -> 0 <= bytes_per_fat self ->
  (forall j, i <= j < i + Z.of_nat k -> fits v (copy_start self j) c) -> 4 * Z.of_nat k <= n ->
  exists d', set_loop self c x k i d = Some d' /\ rep (n - 4 * Z.of_nat k) d' (set_all self c x k i v).
Proof.
  revert n d v i. induction k as [|k IH]; intros n d v i Hr Hb Hx Hi Hts Hbf Hf Hn; simpl.
  { exists d. split; [done|]. by rewrite Z.sub_0_r. }
  destruct (set_copy_ok n d v self c x i) as (d1 & -> & Hr1); [done|done|apply Hf; lia|done..|lia|]. simpl.
  destruct (IH (n - 4) d1 (put_entry v (copy_start self i) c x) (i + 1)) as (d' & -> & Hr');
    [done|by apply put_entry_bytes|done|lia|done|done| |lia|].
  { intros j Hj. unfold fits. rewrite put_entry_length. apply Hf. lia. }
  exists d'. split; [done|]. by replace (n - 4 - 4 * Z.of_nat k) with (n - 4 * Z.of_nat (S k)) in Hr' by lia.
Qed.

(** [v'] is [v] with the entry of [c] set to [x] in every copy of the table. *)
Record fat_set self v v' (c x : Z) : Prop := {
  fs_length : length v' = length v;
  fs_bytes : bytes_ok v';
  fs_entry i c' : 0 <= i < fat_count self -> in_fat self c' ->
    entry_at v' (copy_start self i) c' = if decide (c' = c) then x else entry_at v (copy_start self i) c';
  fs_other i : 0 <= i -> (i < table_start self \/ table_start self + fat_count self * bytes_per_fat self <= i) ->
    v' !! Z.to_nat i = v !! Z.to_nat i
}.

Lemma put_entry_copy self v (c x i j c' : Z) :
  volume self v -> in_fat self c -> in_fat self c' -> 0 <= x < 4096 ->
  0 <= i < fat_count self -> 0 <= j < fat_count self ->
  entry_at (put_entry v (copy_start self i) c x) (copy_start self j) c' =
    if decide (j = i /\ c' = c) then x else entry_at v (copy_start self j) c'.
Proof.
  intros Hv Hc Hc' Hx Hi Hj. pose proof (copy_fits _ _ _ _ Hv Hi Hc) as Hf.
  destruct (decide (j = i)) as [->|Hne].
  - rewrite entry_at_put by (try apply Hv; try apply Hc'; done).
    destruct (decide (c' = c)); [by rewrite decide_True|by rewrite decide_False by naive_solver].
  - rewrite decide_False by naive_solver. pose proof (copy_fits _ _ _ _ Hv Hj Hc') as (Hs & _ & _).
    destruct Hc as [Hc0 Hc1], Hc' as [Hc0' Hc1']. pose proof (vo_fat _ _ Hv). pose proof (vo_start _ _ Hv).
    apply entry_at_ext; [done..|]. intros k Hk. pose proof (Z.div_pos c' 2 Hc0' ltac:(lia)).
    pose proof (Z.div_pos c 2 Hc0 ltac:(lia)).
    apply put_entry_other; [done|unfold copy_start in *; nia|]. unfold copy_start in *.
    destruct (Z.lt_total i j) as [|[|]]; [right|lia|left]; nia.
Qed.

Lemma volume_put self v (c x i : Z) :
  volume self v -> 0 <= x < 4096 -> volume self (put_entry v (copy_start self i) c x).
Proof.
  intros [] Hx. split; rewrite ?put_entry_length; try done. by apply put_entry_bytes.
Qed.

Lemma set_all_entry self (c x : Z) (k : nat) (i : Z) v (j c' : Z) :
  volume self v -> in_fat self c -> in_fat self c' -> 0 <= x < 4096 -> 0 <= i ->
  i + Z.of_nat k <= fat_count self -> 0 <= j < fat_count self ->
  entry_at (set_all self c x k i v) (copy_start self j) c' =
    if decide (i <= j < i + Z.of_nat k /\ c' = c) then x else entry_at v (copy_start self j) c'.
Proof.
  revert i v. induction k as [|k IH]; intros i v Hv Hc Hc' Hx Hi Hk Hj; simpl.
  { by rewrite decide_False by lia. }
  rewrite IH by (try apply volume_put; done || lia). rewrite put_entry_copy by (done || lia).
  repeat case_decide; try done; exfalso; lia.
Qed.

Lemma set_all_other self (c x : Z) (k : nat) (i : Z) v (p : Z) :
  volume self v -> in_fat self c -> 0 <= x < 4096 -> 0 <= i -> i + Z.of_nat k <= fat_count self -> 0 <= p ->
  (p < table_start self \/ table_start self + fat_count self * bytes_per_fat self <= p) ->
  set_all self c x k i v !! Z.to_nat p = v !! Z.to_nat p.
Proof.
  revert i v. induction k as [|k IH]; intros i v Hv Hc Hx Hi Hk Hp Ho; simpl; [done|].
  rewrite IH by (try apply volume_put; done || lia).
  apply put_entry_other; [apply copy_fits; (done || lia)|done|].
  destruct Hc as [Hc0 Hc1]. pose proof (Z.div_pos c 2 Hc0 ltac:(lia)). pose proof (vo_fat _ _ Hv).
  unfold copy_start. destruct Ho; [left; nia|right].
  assert ((i + 1) * bytes_per_fat self <= fat_count self * bytes_per_fat self) by (apply Z.mul_le_mono_nonneg_r; lia). lia.
Qed.

Lemma set_cluster_entry_ok (n : Z) d v self (c x : Z) :
  rep n d v -> volume self v -> in_fat self c -> 0 <= x -> 4 * fat_count self <= n ->
  exists d' v', set_cluster_entry self c x d = Some d' /\ rep (n - 4 * fat_count self) d' v' /\
    fat_set self v v' c (x mod 4096).
Proof.
  intros Hr Hv Hc Hx Hn. pose proof (vo_count _ _ Hv). pose proof (vo_start _ _ Hv). pose proof (vo_fat _ _ Hv).
  assert (0 <= x mod 4096 < 4096) by (apply Z.mod_pos_bound; lia).
  unfold set_cluster_entry. rewrite land_fff.
  destruct (set_loop_ok (Z.to_nat (fat_count self)) n d v self c (x mod 4096) 0) as (d' & Hs & Hr');
    [done|apply Hv|done|lia..| |lia|].
  { intros j Hj. apply copy_fits; (done || lia). }
  exists d', (set_all self c (x mod 4096) (Z.to_nat (fat_count self)) 0 v).
  split; [done|]. rewrite Z2Nat.id in Hr' by lia. split; [done|]. split.
  - apply set_all_length.
  - apply set_all_bytes; [done|apply Hv].
  - intros i c' Hi Hc'. rewrite set_all_entry by (done || lia).
    destruct (decide (c' = c)); [by rewrite decide_True by lia|by rewrite decide_False by lia].
  - intros i Hi Ho. apply set_all_other; (done || lia).
Qed.

Lemma fat_set_volume self v v' (c x : Z) : volume self v -> fat_set self v v' c x -> volume self v'.
Proof. intros [] []. split; try done. congruence. Qed.

Lemma fat_set_entry self v v' (c x c' : Z) :
  volume self v -> fat_set self v v' c x -> in_fat self c' ->
  entry self v' c' = if decide (c' = c) then x else entry self v c'.
Proof.
  intros Hv Hf Hc'. pose proof (fs_entry _ _ _ _ _ Hf 0 c' ltac:(pose proof (vo_count _ _ Hv); lia) Hc') as He.
  unfold copy_start in He. by rewrite Z.add_0_r in He.
Qed.

(** ** Allocation *)

(** The whole range the search may read lies on the disk. *)
Definition scan_fits self v : Prop := table_start self + 6129 <= Z.of_nat (length v).

Definition first_free self v (c : Z) : Prop :=
  2 <= c < 4085 /\ entry self v c = 0 /\ forall c', 2 <= c' < c -> entry self v c' <> 0.

Lemma allocate_loop_ok (k : nat) (n : Z) d v self (c : Z) :
  rep n d v -> bytes_ok v -> 0 <= table_start self -> scan_fits self v -> 2 <= c -> c + Z.of_nat k = 4085 ->
  2 * Z.of_nat k <= n ->
  (exists c' d', c <= c' < 4085 /\ entry self v c' = 0 /\ (forall c'', c <= c'' < c' -> entry self v c'' <> 0) /\
     allocate_loop self k c d = (disk ← set_cluster_entry self c' 0xFFF d'; Some (Some c', disk)) /\
     rep (n - 2 * Z.of_nat k) d' v) \/
  (exists d', (forall c', c <= c' < 4085 -> entry self v c' <> 0) /\
     allocate_loop self k c d = Some (None, d') /\ rep (n - 2 * Z.of_nat k) d' v).
Proof.
  revert n d c. induction k as [|k IH]; intros n d c Hr Hb Hts Hsc Hc Hk Hn; simpl.
  { right. exists d. split_and!; [lia|done|]. by rewrite Z.sub_0_r. }
  assert (fits v (table_start self) c) as Hf.
  { unfold fits, scan_fits in *. split_and!; [done|lia|]. Z.div_mod_to_equations; lia. }
  destruct (read_pair n d v (table_start self) c) as (d1 & Hrd & Hr1 & Hp); [done..|lia|].
  rewrite Hrd. cbv beta iota. rewrite Hp. simpl.
  rewrite parity, low_entry, high_entry' by (by apply pair_at_range).
  change (if Z.even c then _ else _) with (entry self v c).
  destruct (Z.eqb_spec (entry self v c) 0) as [He|He].
  - left. exists c, d1. split_and!; [lia|lia|done|lia|done|]. eapply rep_weaken; [done|lia].
  - destruct (IH (n - 2) d1 (c + 1)) as [(c' & d' & Hc' & He' & Hmin & -> & Hr')|(d' & Hall & -> & Hr')];
      [done..|lia|lia|lia|left|right].
    + exists c', d'. split_and!; [lia|lia|done| |done|eapply rep_weaken; [done|lia]].
      intros c'' ?. destruct (decide (c'' = c)) as [->|]; [done|apply Hmin; lia].
    + exists d'. split_and!; [|done|eapply rep_weaken; [done|lia]].
      intros c' ?. destruct (decide (c' = c)) as [->|]; [done|apply Hall; lia].
Qed.

Definition allocate_cost self : Z := 2 * 4083 + 4 * fat_count self.

Lemma allocate_cluster_ok (n : Z) d v self :
  rep n d v -> volume self v -> scan_fits self v -> allocate_cost self <= n ->
  (exists c d1, first_free self v c /\ rep (n - 2 * 4083) d1 v /\
     allocate_cluster self d = (disk ← set_cluster_entry self c 0xFFF d1; Some (Some c, disk))) \/
  (exists d', (forall c, 2 <= c < 4085 -> entry self v c <> 0) /\
     allocate_cluster self d = Some (None, d') /\ rep (n - 2 * 4083) d' v).
Proof.
  intros Hr Hv Hsc Hn. unfold allocate_cost in Hn. pose proof (vo_count _ _ Hv).
  unfold allocate_cluster.
  destruct (allocate_loop_ok (Z.to_nat (4085 - 2)) n d v self 2)
    as [(c & d1 & Hc & He & Hmin & -> & Hr')|(d' & Hall & -> & Hr')];
    [done|apply Hv|apply Hv|done|lia|lia|lia|left|right].
  - exists c, d1. split; [done|]. by rewrite Z2Nat.id in Hr' by lia.
  - exists d'. split; [done|]. by rewrite Z2Nat.id in Hr' by lia.
Qed.

(** A free cluster that has an entry in the table is found and taken. *)
Lemma allocate_takes (n : Z) d v self (c : Z) :
  rep n d v -> volume self v -> scan_fits self v -> allocate_cost self <= n ->
  first_free self v c -> in_fat self c ->
  exists d' v', allocate_cluster self d = Some (Some c, d') /\ rep (n - allocate_cost self) d' v' /\
    fat_set self v v' c 0xfff.
Proof.
  intros Hr Hv Hsc Hn Hff Hc.
  destruct (allocate_cluster_ok n d v self Hr Hv Hsc Hn) as [(c' & d1 & Hff' & Hr1 & ->)|(d' & Hall & _)].
  - assert (c' = c) as ->.
    { destruct Hff as (? & ? & Hm), Hff' as (? & ? & Hm').
      destruct (Z.lt_total c c') as [|[|]]; [exfalso; apply (Hm' c); [lia|done]|done|exfalso; apply (Hm c'); [lia|done]]. }
    unfold allocate_cost in *.
    destruct (set_cluster_entry_ok _ d1 v self c 0xfff Hr1 Hv Hc) as (d' & v' & -> & Hr' & Hset); [lia|lia|].
    exists d', v'. split; [done|]. split; [eapply rep_weaken; [done|lia]|done].
  - exfalso. destruct Hff as (? & ? & _). by eapply Hall.
Qed.

Lemma set_all_snoc self (c x : Z) (k : nat) (i : Z) v :
  set_all self c x (S k) i v = put_entry (set_all self c x k i v) (copy_start self (i + Z.of_nat k)) c x.
Proof.
  revert i v. induction k as [|k IH]; intros i v; [simpl; by rewrite Z.add_0_r|].
  change (set_all self c x (S (S k)) i v)
    with (set_all self c x (S k) (i + 1) (put_entry v (copy_start self i) c x)).
  rewrite IH. replace (i + 1 + Z.of_nat k) with (i + Z.of_nat (S k)) by lia. done.
Qed.

(** ** Chains *)

(** [l] is the chain of clusters that starts at [c]. *)
Inductive chain self v : Z -> list Z -> Prop :=
| chain_last c : entry self v c = 0xfff -> chain self v c [c]
| chain_next c c' l : entry self v c = c' -> c' <> 0xfff -> chain self v c' l -> chain self v c (c :: l).

Lemma chain_head self v (c : Z) (l : list Z) : chain self v c l -> exists l', l = c :: l'.
Proof. inversion 1; eauto. Qed.

(** A chain depends only on the entries of its clusters. *)
Lemma chain_ext self v v' (c : Z) (l : list Z) :
  chain self v c l -> (forall x, x ∈ l -> entry self v' x = entry self v x) -> chain self v' c l.
Proof.
  induction 1 as [c He|c c' l He Hne Hch IH]; intros Hext.
  - apply chain_last. rewrite Hext; [done|left].
  - eapply chain_next; [rewrite Hext; [done|left]|done|]. apply IH. intros x Hx. apply Hext. by right.
Qed.

(** [v'] is [v] with every entry of [l] set to 0 in every copy. *)
Record chain_freed self v v' (l : list Z) : Prop := {
  cf_length : length v' = length v;
  cf_bytes : bytes_ok v';
  cf_entry i c' : 0 <= i < fat_count self -> in_fat self c' ->
    entry_at v' (copy_start self i) c' = if decide (c' ∈ l) then 0 else entry_at v (copy_start self i) c';
  cf_other i : 0 <= i -> (i < table_start self \/ table_start self + fat_count self * bytes_per_fat self <= i) ->
    v' !! Z.to_nat i = v !! Z.to_nat i
}.

Lemma fat_set_freed self v v' v'' (c : Z) (l : list Z) :
  fat_set self v v' c 0 -> chain_freed self v' v'' l -> chain_freed self v v'' (c :: l).
Proof.
  intros [Hl Hb He Ho] [Hl' Hb' He' Ho']. split; [congruence|done|..].
  - intros i c' Hi Hc'. rewrite He' by done. rewrite He by done.
    destruct (decide (c' ∈ l)); [by rewrite decide_True by (by right)|].
    destruct (decide (c' = c)) as [->|]; [by rewrite decide_True by left|].
    rewrite decide_False; [done|]. by rewrite not_elem_of_cons.
  - intros i Hi Hr. by rewrite Ho', Ho.
Qed.

Lemma free_step (n : Z) d v self (c : Z) :
  rep n d v -> volume self v -> in_fat self c -> 2 + 4 * fat_count self <= n ->
  exists d1 d2 v2, get_next_cluster self c d = Some (next_of (entry self v c), d1) /\
    set_cluster_entry self c 0 d1 = Some d2 /\ rep (n - (2 + 4 * fat_count self)) d2 v2 /\ fat_set self v v2 c 0.
Proof.
  intros Hr Hv Hc Hn. pose proof (vo_count _ _ Hv).
  destruct (get_next_ok n d v self c) as (d1 & Hg & Hr1); [done|apply Hv|by apply table_fits|lia|].
  destruct (set_cluster_entry_ok _ d1 v self c 0 Hr1 Hv Hc) as (d2 & v2 & Hs & Hr2 & Hset); [lia|lia|].
  exists d1, d2, v2. split_and!; try done. eapply rep_weaken; [done|lia].
Qed.

Lemma free_chain_ok self (l : list Z) (fuel : nat) (c n : Z) d v :
  chain self v c l -> rep n d v -> volume self v -> NoDup l ->
  (forall x, x ∈ l -> in_fat self x) -> (length l <= fuel)%nat ->
  (2 + 4 * fat_count self) * Z.of_nat (length l) <= n ->
  exists d' v', free_chain fuel self c d = Some d' /\
    rep (n - (2 + 4 * fat_count self) * Z.of_nat (length l)) d' v' /\ chain_freed self v v' l.
Proof.
  revert fuel c n d v. induction l as [|x l IH]; intros fuel c n d v Hch Hr Hv Hnd Hin Hfuel Hn;
    [by inversion Hch|].
  pose proof (chain_head _ _ _ _ Hch) as [? [= -> <-]]. simpl in Hfuel, Hn.
  destruct fuel as [|fuel]; [lia|]. apply NoDup_cons in Hnd as [Hnc Hnd]. pose proof (vo_count _ _ Hv).
  destruct (free_step n d v self c) as (d1 & d2 & v2 & Hg & Hs & Hr2 & Hset); [done|done|apply Hin; left|nia|].
  simpl. rewrite Hg. simpl. rewrite Hs. simpl.
  inversion Hch as [? He|? c' ? He Hne Hch']; subst; unfold next_of.
  - rewrite He. exists d2, v2. split; [done|]. split; [eapply rep_weaken; [done|simpl; lia]|].
    apply (fat_set_freed self v v2 v2 c []); [done|]. split; try done. apply Hset.
  - rewrite (proj2 (Z.eqb_neq _ _)) by done.
    destruct (IH fuel (entry self v c) (n - (2 + 4 * fat_count self)) d2 v2) as (d' & v' & Hf & Hr' & Hfr);
      [|done|by eapply fat_set_volume|done|intros; apply Hin; by right|lia|lia|].
    { eapply chain_ext; [done|]. intros x Hx.
      rewrite (fat_set_entry self v v2 c 0) by (done || apply Hin; by right).
      rewrite decide_False; [done|]. by intros ->. }
    exists d', v'. split; [done|]. split; [eapply rep_weaken; [done|simpl; lia]|]. by eapply fat_set_freed.
Qed.
End Volume.
End FatView.

Module FatTableProps.
Import AllocationTable FatView.

(** writing an entry of the allocation table changes exactly that entry,
    in every copy of the table, to its low 12 bits; the other 12-bit entry of
    the same three bytes, all other entries and all bytes outside the tables
    are unchanged, and reading the entry back gives the value written
    (0xfff as the end of a chain). *)
Theorem fat_entry_roundtrip {D} `{DiskLaws D} (n : Z) (d : D) (v : list Z) (self : t) (c x : Z) :
  rep n d v -> volume self v -> in_fat self c -> 0 <= x -> 4 * fat_count self + 2 <= n ->
  exists d1 d2 v', set_cluster_entry self c x d = Some d1 /\ fat_set self v v' c (x mod 4096) /\
    get_next_cluster self c d1 = Some (next_of (x mod 4096), d2) /\
    rep (n - (4 * fat_count self + 2)) d2 v'.
Proof.
  intros Hr Hv Hc Hx Hn. destruct (set_cluster_entry_ok n d v self c x) as (d1 & v' & Hs & Hr1 & Hset); [done..|lia|].
  pose proof (fat_set_volume _ _ _ _ _ Hv Hset) as Hv'.
  destruct (get_next_ok _ d1 v' self c Hr1) as (d2 & Hg & Hr2); [apply Hv'|by apply table_fits|lia|].
  rewrite (fat_set_entry self v v' c (x mod 4096)), decide_True in Hg by done.
  exists d1, d2, v'. split_and!; try done. eapply rep_weaken; [done|lia].
Qed.

(** [allocate_cluster] returns the first cluster whose entry is 0, marks
    it as the end of a chain in every copy and changes nothing else, or
    returns nothing and leaves the volume as it was when no entry of the range
    it searches is 0. *)
Theorem allocate_cluster_correct {D} `{DiskLaws D} (n : Z) (d : D) (v : list Z) (self : t) :
  rep n d v -> volume self v -> scan_fits self v -> allocate_cost self <= n ->
  (forall c, 2 <= c < 4085 -> entry self v c = 0 -> in_fat self c) ->
  exists r d' v', allocate_cluster self d = Some (r, d') /\ rep (n - allocate_cost self) d' v' /\
    match r with
    | Some c => first_free self v c /\ fat_set self v v' c 0xfff
    | None => v' = v /\ forall c, 2 <= c < 4085 -> entry self v c <> 0
    end.
Proof.
  intros Hr Hv Hsc Hn Hin. pose proof (vo_count _ _ Hv).
  destruct (allocate_cluster_ok n d v self Hr Hv Hsc Hn) as [(c & _ & Hff & _)|(d' & Hall & Ha & Hr')].
  - destruct (allocate_takes n d v self c) as (d' & v' & Ha & Hr' & Hset); [done..| |].
    { by apply Hin; apply Hff. }
    by exists (Some c), d', v'.
  - exists None, d', v. split; [done|]. split; [|done]. unfold allocate_cost. eapply rep_weaken; [done|lia].
Qed.

(** [free_chain] on a chain without a repeated cluster terminates and
    sets the entries of exactly that chain to 0 in every copy of the table,
    leaving every other entry and every byte outside the tables unchanged. *)
Theorem free_chain_frees {D} `{DiskLaws D} (n : Z) (d : D) (v : list Z) (self : t) (c : Z) (l : list Z) (fuel : nat) :
  rep n d v -> volume self v -> chain self v c l -> NoDup l -> (forall x, x ∈ l -> in_fat self x) ->
  (length l <= fuel)%nat -> (2 + 4 * fat_count self) * Z.of_nat (length l) <= n ->
  exists d' v', free_chain fuel self c d = Some d' /\
    rep (n - (2 + 4 * fat_count self) * Z.of_nat (length l)) d' v' /\ chain_freed self v v' l.
Proof. intros. by apply free_chain_ok. Qed.

(** the search of [allocate_cluster] is bounded by the largest FAT12
    volume and not by the size of the table.  When every cluster of the table
    is in use it goes on reading past the table; if it meets three bytes there
    that look like a free entry, it returns a cluster the volume does not have
    and writes the end-of-chain mark past the end of the tables. *)
Theorem allocate_cluster_past_table {D} `{DiskLaws D} (n : Z) (d : D) (v : list Z) (self : t) :
  rep n d v -> volume self v -> copy_start self (fat_count self - 1) + 6129 <= Z.of_nat (length v) ->
  allocate_cost self <= n ->
  (forall c, 2 <= c -> in_fat self c -> entry self v c <> 0) ->
  (exists c, 2 <= c < 4085 /\ entry self v c = 0) ->
  exists c d' v', allocate_cluster self d = Some (Some c, d') /\ rep (n - allocate_cost self) d' v' /\
    ~ in_fat self c /\ entry_at v' (copy_start self (fat_count self - 1)) c = 0xfff /\
    table_start self + fat_count self * bytes_per_fat self <
      copy_start self (fat_count self - 1) + c / 2 * 3 + 3.
Proof.
  intros Hr Hv Hsc Hn Hfull (c0 & Hc0 & He0).
  pose proof (vo_count _ _ Hv). pose proof (vo_fat _ _ Hv). pose proof (vo_start _ _ Hv).
  assert (scan_fits self v) as Hscan by (unfold scan_fits, copy_start in *; nia).
  destruct (allocate_cluster_ok n d v self Hr Hv Hscan Hn) as [(c & d1 & Hff & Hr1 & Ha)|(d' & Hall & _)];
    [|exfalso; by apply (Hall c0)].
  destruct Hff as (Hc & He & _). assert (~ in_fat self c) as Hnin by (intros Hin; by apply (Hfull c); [lia|..]).
  assert (forall j, 0 <= j < fat_count self -> fits v (copy_start self j) c) as Hfits.
  { intros j Hj. unfold fits, copy_start in *. split_and!; [nia|lia|].
    assert (j * bytes_per_fat self <= (fat_count self - 1) * bytes_per_fat self) by nia.
    assert (c / 2 * 3 <= 6126) by (Z.div_mod_to_equations; lia). lia. }
  unfold allocate_cost in *. unfold set_cluster_entry in Ha. change (0xfff .& 0xfff) with 0xfff in Ha.
  destruct (set_loop_ok (Z.to_nat (fat_count self)) _ d1 v self c 0xfff 0 Hr1) as (d' & Hs & Hr');
    [apply Hv|lia..|intros j Hj; apply Hfits; lia|lia|].
  rewrite Hs in Ha. exists c, d'. eexists. split; [done|]. split; [eapply rep_weaken; [done|lia]|].
  split; [done|]. replace (Z.to_nat (fat_count self)) with (S (Z.to_nat (fat_count self - 1))) by lia.
  rewrite set_all_snoc. replace (0 + Z.of_nat (Z.to_nat (fat_count self - 1))) with (fat_count self - 1) by lia.
  split.
  - rewrite entry_at_put; [by rewrite decide_True|apply set_all_bytes; [lia|apply Hv]| |lia|lia].
    unfold fits. rewrite set_all_length. apply Hfits. lia.
  - unfold in_fat, copy_start in *. lia.
Qed.

(** A volume with one table of twelve sectors, and one with a table of one
    sector, on arrays. *)
#[local] Existing Instance array_disk.
#[local] Existing Instance array_disk_laws.

Definition sample_table : t :=
  {| table_start := 512; sectors_per_cluster := 1; bytes_per_fat := 6144; fat_count := 1;
     first_cluster_location := 7168 |}.
Definition small_table : t :=
  {| table_start := 512; sectors_per_cluster := 1; bytes_per_fat := 512; fat_count := 1;
     first_cluster_location := 1536 |}.
Definition blank : list Z := replicate (Z.to_nat 8192) 0.
(** Clusters 2 -> 5 -> end. *)
Definition sample_volume : list Z := put_entry (put_entry blank 512 2 5) 512 5 0xfff.
(** Every entry of the table in use. *)
Definition full_volume : list Z := replicate 512 0 ++ replicate 512 255 ++ replicate (Z.to_nat 6144) 0.

Lemma blank_volume : volume sample_table blank.
Proof.
  split; try (vm_compute; split; congruence); try (vm_compute; congruence).
  apply Forall_replicate. unfold is_u8. lia.
Qed.

Lemma sample_volume_ok : volume sample_table sample_volume.
Proof.
  apply (volume_put sample_table _ 5 0xfff 0); [|lia]. apply (volume_put sample_table _ 2 5 0); [|lia]. apply blank_volume.
Qed.

Lemma full_volume_ok : volume small_table full_volume.
Proof.
  split; try (vm_compute; split; congruence); try (vm_compute; congruence).
  apply Forall_app; split; [|apply Forall_app; split]; apply Forall_replicate; unfold is_u8; lia.
Qed.

Ltac array_rep := split; [reflexivity|vm_compute; reflexivity].

Lemma fat_entry_witness :
  exists d1 d2 v', set_cluster_entry sample_table 5 0x123 sample_volume = Some d1 /\
    fat_set sample_table sample_volume v' 5 (0x123 mod 4096) /\
    get_next_cluster sample_table 5 d1 = Some (next_of (0x123 mod 4096), d2) /\
    rep (10 - (4 * fat_count sample_table + 2)) d2 v'.
Proof.
  apply (fat_entry_roundtrip 10 sample_volume sample_volume sample_table 5 0x123);
    [array_rep|exact sample_volume_ok|vm_compute; split; congruence|lia|simpl; lia].
Defined.

Lemma allocate_cluster_witness :
  exists r d' v', allocate_cluster sample_table sample_volume = Some (r, d') /\
    rep (10000 - allocate_cost sample_table) d' v' /\
    match r with
    | Some c => first_free sample_table sample_volume c /\ fat_set sample_table sample_volume v' c 0xfff
    | None => v' = sample_volume /\ forall c, 2 <= c < 4085 -> entry sample_table sample_volume c <> 0
    end.
Proof.
  apply (allocate_cluster_correct 10000 sample_volume sample_volume sample_table);
    [array_rep|exact sample_volume_ok|vm_compute; congruence|vm_compute; congruence|].
  intros c Hc _. unfold in_fat, sample_table, bytes_per_fat. clear -Hc. Z.div_mod_to_equations; lia.
Defined.

Lemma sample_chain : chain sample_table sample_volume 2 [2; 5].
Proof.
  apply chain_next with 5; [vm_compute; reflexivity|lia|]. apply chain_last. vm_compute. reflexivity.
Qed.

Lemma free_chain_witness :
  exists d' v', free_chain 2 sample_table 2 sample_volume = Some d' /\
    rep (20 - (2 + 4 * fat_count sample_table) * Z.of_nat (length [2; 5])) d' v' /\
    chain_freed sample_table sample_volume v' [2; 5].
Proof.
  apply (free_chain_frees 20 sample_volume sample_volume sample_table 2 [2; 5] 2);
    [array_rep|exact sample_volume_ok|exact sample_chain|..].
  - apply NoDup_cons; split; [|apply NoDup_singleton]. rewrite list_elem_of_singleton. lia.
  - intros x Hx. apply elem_of_cons in Hx as [->|Hx]; [vm_compute; split; congruence|].
    apply list_elem_of_singleton in Hx as ->. vm_compute; split; congruence.
  - simpl. lia.
  - vm_compute. congruence.
Defined.

Lemma full_entries (c : Z) : 2 <= c -> in_fat small_table c -> entry small_table full_volume c <> 0.
Proof.
  intros Hc [_ Hf]. simpl in Hf.
  assert (Forall (fun c => entry small_table full_volume c <> 0) (seqZ 2 338)) as Hall.
  { apply (bool_decide_unpack _). vm_compute. exact I. }
  rewrite Forall_forall in Hall. apply Hall, elem_of_seqZ. Z.div_mod_to_equations; lia.
Qed.

Lemma past_table_witness :
  exists c d' v', allocate_cluster small_table full_volume = Some (Some c, d') /\
    rep (10000 - allocate_cost small_table) d' v' /\ ~ in_fat small_table c /\
    entry_at v' (copy_start small_table (fat_count small_table - 1)) c = 0xfff /\
    table_start small_table + fat_count small_table * bytes_per_fat small_table <
      copy_start small_table (fat_count small_table - 1) + c / 2 * 3 + 3.
Proof.
  apply (allocate_cluster_past_table 10000 full_volume full_volume small_table);
    [array_rep|exact full_volume_ok|vm_compute; congruence|vm_compute; congruence|exact full_entries|].
  exists 400. split; [lia|vm_compute; reflexivity].
Defined.
End FatTableProps.
