(* ===== verification/FatEntry.v ===== *)
(** * Directory entries of a FAT volume

    The 32-byte directory entry of [components/drivers/fatdriver/src/dir.rs]:
    its layout on disk, the packed dates and times, 8.3 names and their
    comparison.  A [str] or byte array is the list of its bytes. *)

From S2P Require Import Prelude DriverProtocol.

(** [str::rsplit_once] *)
Fixpoint rsplit_once (sep : Z) (s : list Z) : option (list Z * list Z) :=
  match s with
  | [] => None
  | x :: s =>
      match rsplit_once sep s with
      | Some (a, b) => Some (x :: a, b)
      | None => if x =? sep then Some ([], s) else None
      end
  end.

(** [u8::to_ascii_uppercase] *)
Definition to_ascii_uppercase (b : Z) : Z := if (0x61 <=? b) && (b <=? 0x7a) then b - 0x20 else b.

Module FileTime.
Definition get_hours (self : Z) : Z := self ≫ 11.
Definition get_minutes (self : Z) : Z := (self ≫ 5) .& 0x3f.
Definition get_seconds (self : Z) : Z := u16 ((self .& 0x1f) ≪ 1).
Definition from_parts (hours minutes seconds : Z) : Z :=
  u16 (hours ≪ 11) .| u16 (minutes ≪ 5) .| (seconds ≫ 1).
End FileTime.

Module FileDate.
Definition get_year (self : Z) : Z := u16 (((self ≫ 9) .& 0x7f) + 1980).
Definition get_month (self : Z) : Z := (self ≫ 5) .& 0xf.
Definition get_day (self : Z) : Z := self .& 0x1f.
Definition from_parts (year month day : Z) : Z :=
  let year_val := if 1980 <=? year then year - 1980 else 0 in
  u16 ((year_val .& 0x7f) ≪ 9) .| u16 ((month .& 0xf) ≪ 5) .| (day .& 0x1f).
End FileDate.

Module Timestamp.
Definition MONTH_START_OFFSET : list Z := [0; 31; 59; 90; 120; 151; 181; 212; 243; 273; 304; 334].

Definition is_leap_year (year : Z) : bool :=
  (year mod 4 =? 0) && (negb (year mod 100 =? 0) || (year mod 400 =? 0)).

Definition encode_timestamp (year month day hours minutes seconds : Z) : option Z :=
  if (year <? 1980) || (month =? 0) || (12 <? month) then Some 0
  else
    let yr := year - 1980 in
    let quadrennials := yr / 4 in
    let year_remainder := yr mod 4 in
    let days := u32 (quadrennials * (366 + 365 + 365 + 365) + year_remainder * 365) in
    let days := if 0 <? year_remainder then u32 (days + 1) else days in
    start ← MONTH_START_OFFSET !! Z.to_nat (month - 1);
    let days := u32 (days + start) in
    let days := if (2 <? month) && is_leap_year year then u32 (days + 1) else days in
    let days := u32 (days + u32 (day - 1)) in
    Some (u32 (u32 (u32 (u32 (days * 86400) + u32 (hours * 3600)) + u32 (minutes * 60)) + seconds)).

(** [while month < 12 && MONTH_START_OFFSET[month] + leap <= year_days] *)
Fixpoint month_loop (fuel : nat) (year_offset year_days month leap : Z) : option (Z * Z) :=
  match fuel with
  | O => Some (month, leap)
  | S fuel =>
      if month <? 12 then
        start ← MONTH_START_OFFSET !! Z.to_nat month;
        if start + leap <=? year_days then
          let month := month + 1 in
          let leap := if (month =? 2) && (year_offset mod 4 =? 0) then 1 else leap in
          month_loop fuel year_offset year_days month leap
        else Some (month, leap)
      else Some (month, leap)
  end.

Definition decode_timestamp (ts : Z) : option (Z * Z) :=
  let days := ts / 86400 in
  let raw_time := ts mod 86400 in
  let year_offset := u32 (days * 100) / 36525 in
  let quadrennial_days := days mod (365 + 365 + 365 + 366) in
  let year_days := if 365 <? quadrennial_days then (quadrennial_days - 366) mod 365 else quadrennial_days in
  '(month, leap) ← month_loop 13 year_offset year_days 0 0;
  start ← MONTH_START_OFFSET !! Z.to_nat (month - 1);
  let day := u32 (year_days + 1 - start) in
  let day := if 2 <? month then u32 (day - leap) else day in
  let total_minutes := raw_time / 60 in
  let seconds := raw_time mod 60 in
  let hours := total_minutes / 60 in
  let minutes := total_minutes mod 60 in
  let year := u16 (u16 year_offset + 1980) in
  Some (FileDate.from_parts year (u8 month) (u8 day), FileTime.from_parts (u8 hours) (u8 minutes) (u8 seconds)).
End Timestamp.

(** ** The entry *)

Module DirEntry.
Record t := {
  file_name : list Z; ext : list Z; attributes : Z; nonstandard_attributes : Z; fine_create_time : Z;
  creation_time : Z; creation_date : Z; access_date : Z; extended_attributes : Z;
  last_modify_time : Z; last_modify_date : Z; first_file_cluster : Z; byte_size : Z
}.

Definition SIZE : nat := 32.

Definition new : t :=
  {| file_name := replicate 8 0x20; ext := replicate 3 0x20; attributes := 0; nonstandard_attributes := 0;
     fine_create_time := 0; creation_time := 0; creation_date := 0; access_date := 0; extended_attributes := 0;
     last_modify_time := 0; last_modify_date := 0; first_file_cluster := 0; byte_size := 0 |}.

(** The bytes of the [repr(C, packed)] struct on a little-endian machine. *)
Definition le16 (x : Z) : list Z := [x mod 256; x / 256 mod 256].
Definition le32 (x : Z) : list Z := [x mod 256; x / 256 mod 256; x / 65536 mod 256; x / 16777216 mod 256].

Definition to_bytes (e : t) : list Z :=
  file_name e ++ ext e ++ [attributes e; nonstandard_attributes e; fine_create_time e] ++
  le16 (creation_time e) ++ le16 (creation_date e) ++ le16 (access_date e) ++ le16 (extended_attributes e) ++
  le16 (last_modify_time e) ++ le16 (last_modify_date e) ++ le16 (first_file_cluster e) ++ le32 (byte_size e).

Definition u8_at (b : list Z) (i : nat) : Z := default 0 (b !! i).
Definition u16_at (b : list Z) (i : nat) : Z := u8_at b i + u8_at b (i + 1) * 256.
Definition u32_at (b : list Z) (i : nat) : Z := u16_at b i + u16_at b (i + 2) * 65536.

Definition of_bytes (b : list Z) : t :=
  {| file_name := take 8 b; ext := take 3 (drop 8 b); attributes := u8_at b 11;
     nonstandard_attributes := u8_at b 12; fine_create_time := u8_at b 13;
     creation_time := u16_at b 14; creation_date := u16_at b 16; access_date := u16_at b 18;
     extended_attributes := u16_at b 20; last_modify_time := u16_at b 22; last_modify_date := u16_at b 24;
     first_file_cluster := u16_at b 26; byte_size := u32_at b 28 |}.

(** [self.file_name[0]] of a well-formed entry. *)
Definition name0 (self : t) : Z := u8_at (file_name self) 0.

Definition is_empty (self : t) : bool := (name0 self =? 0x00) || (name0 self =? 0xe5).

(** The bytes before the first space. *)
Fixpoint until_space (l : list Z) : list Z :=
  match l with
  | [] => []
  | b :: l => if b =? 0x20 then [] else b :: until_space l
  end.

Definition get_filename (self : t) : list Z :=
  default (replicate 8 0x21) (Utf8.from_utf8 (until_space (file_name self))).
Definition get_ext (self : t) : list Z :=
  default (replicate 3 0x21) (Utf8.from_utf8 (until_space (ext self))).

Definition get_full_name (self : t) : list Z :=
  get_filename self ++ (if u8_at (ext self) 0 =? 0x20 then [] else 0x2e :: get_ext self).

Definition get_modification_timestamp (self : t) : option Z :=
  let mod_time := last_modify_time self in
  let mod_date := last_modify_date self in
  Timestamp.encode_timestamp (FileDate.get_year mod_date) (FileDate.get_month mod_date)
    (FileDate.get_day mod_date) (FileTime.get_hours mod_time) (FileTime.get_minutes mod_time)
    (FileTime.get_seconds mod_time).

Definition is_directory (self : t) : bool := negb (attributes self .& 0x10 =? 0).

Definition set_size (self : t) (size : Z) : t :=
  {| file_name := file_name self; ext := ext self; attributes := attributes self;
     nonstandard_attributes := nonstandard_attributes self; fine_create_time := fine_create_time self;
     creation_time := creation_time self; creation_date := creation_date self; access_date := access_date self;
     extended_attributes := extended_attributes self; last_modify_time := last_modify_time self;
     last_modify_date := last_modify_date self; first_file_cluster := first_file_cluster self;
     byte_size := size |}.
Definition set_first_cluster (self : t) (cluster : Z) : t :=
  {| file_name := file_name self; ext := ext self; attributes := attributes self;
     nonstandard_attributes := nonstandard_attributes self; fine_create_time := fine_create_time self;
     creation_time := creation_time self; creation_date := creation_date self; access_date := access_date self;
     extended_attributes := extended_attributes self; last_modify_time := last_modify_time self;
     last_modify_date := last_modify_date self; first_file_cluster := cluster;
     byte_size := byte_size self |}.
Definition set_filename (self : t) (filename ext' : list Z) : t :=
  {| file_name := filename; ext := ext'; attributes := attributes self;
     nonstandard_attributes := nonstandard_attributes self; fine_create_time := fine_create_time self;
     creation_time := creation_time self; creation_date := creation_date self; access_date := access_date self;
     extended_attributes := extended_attributes self; last_modify_time := last_modify_time self;
     last_modify_date := last_modify_date self; first_file_cluster := first_file_cluster self;
     byte_size := byte_size self |}.
Definition set_attributes (self : t) (attributes' : Z) : t :=
  {| file_name := file_name self; ext := ext self; attributes := attributes';
     nonstandard_attributes := nonstandard_attributes self; fine_create_time := fine_create_time self;
     creation_time := creation_time self; creation_date := creation_date self; access_date := access_date self;
     extended_attributes := extended_attributes self; last_modify_time := last_modify_time self;
     last_modify_date := last_modify_date self; first_file_cluster := first_file_cluster self;
     byte_size := byte_size self |}.
(** The creation, modification and access stamps [add_entry] sets. *)
Definition set_stamps (self : t) (fat_date fat_time : Z) : t :=
  {| file_name := file_name self; ext := ext self; attributes := attributes self;
     nonstandard_attributes := nonstandard_attributes self; fine_create_time := fine_create_time self;
     creation_time := fat_time; creation_date := fat_date; access_date := fat_date;
     extended_attributes := extended_attributes self; last_modify_time := fat_time;
     last_modify_date := fat_date; first_file_cluster := first_file_cluster self;
     byte_size := byte_size self |}.

Definition mark_deleted (self : t) : t := set_filename self (<[0%nat := 0xE5]> (file_name self)) (ext self).

Definition ascii_char_matches (a b : Z) : bool :=
  if (0x40 <? a) && (a <? 0x5b) then (a =? b) || (u8 (a + 0x20) =? b)
  else if (0x60 <? a) && (a <? 0x7b) then (a =? b) || (a =? u8 (b + 0x20))
  else a =? b.

(** The loops over the 8 and the 3 bytes. *)
Fixpoint all_match (l l' : list Z) : bool :=
  match l, l' with
  | a :: l, b :: l' => if ascii_char_matches a b then all_match l l' else false
  | _, _ => true
  end.

Definition matches_name (self : t) (filename ext' : list Z) : bool :=
  all_match (file_name self) filename && all_match (ext self) ext'.
End DirEntry.

(** ** Short names *)

Module ShortName.
(** [s] cut or padded with spaces to [n] bytes. *)
Definition pad (n : nat) (s : list Z) : list Z := take n s ++ replicate (n - length s) 0x20.

Definition split_name (name : list Z) : list Z * list Z :=
  match rsplit_once 0x2e name with Some p => p | None => (name, []) end.

Definition parse_short_name (name : list Z) : list Z * list Z :=
  let '(filename, ext) := split_name name in
  (pad 8 (map to_ascii_uppercase filename), pad 3 (map to_ascii_uppercase ext)).

(** The same without upper-casing, from [RootDirectory::find_entry]. *)
Definition raw_short_name (name : list Z) : list Z * list Z :=
  let '(filename, ext) := split_name name in (pad 8 filename, pad 3 ext).
End ShortName.

(** ** Facts *)

Module FatEntryFacts.

(** *** The layout *)

Import DirEntry.

Record entry_wf (e : DirEntry.t) : Prop := {
  ew_name : length (file_name e) = 8%nat;
  ew_ext : length (ext e) = 3%nat;
  ew_name_bytes : Forall is_u8 (file_name e);
  ew_ext_bytes : Forall is_u8 (ext e);
  ew_u8 : is_u8 (attributes e) /\ is_u8 (nonstandard_attributes e) /\ is_u8 (fine_create_time e);
  ew_u16 : is_u16 (creation_time e) /\ is_u16 (creation_date e) /\ is_u16 (access_date e) /\
           is_u16 (extended_attributes e) /\ is_u16 (last_modify_time e) /\ is_u16 (last_modify_date e) /\
           is_u16 (first_file_cluster e);
  ew_size : is_u32 (byte_size e)
}.

Lemma to_bytes_length (e : DirEntry.t) : entry_wf e -> length (to_bytes e) = SIZE.
Proof. intros [Hn He _ _ _ _ _]. unfold to_bytes. rewrite !length_app, Hn, He. done. Qed.

Lemma byte_range (x : Z) : is_u8 (x mod 256).
Proof. unfold is_u8. apply Z.mod_pos_bound. lia. Qed.

Lemma to_bytes_bytes (e : DirEntry.t) : entry_wf e -> Forall is_u8 (to_bytes e).
Proof.
  intros [_ _ Hn He (H1 & H2 & H3) _ _]. unfold to_bytes, le16, le32.
  repeat (apply Forall_app; split); try done; repeat apply Forall_cons_2; try apply Forall_nil_2; try apply byte_range; done.
Qed.

(** An entry read back from its bytes is the entry written. *)
Lemma of_to_bytes (e : DirEntry.t) : entry_wf e -> of_bytes (to_bytes e) = e.
Proof.
  intros [Hn He _ _ (? & ? & ?) (? & ? & ? & ? & ? & ? & ?) ?]. destruct e as [name ext' a b c t1 d1 d2 x t2 d3 fc sz]. simpl in *.
  do 8 (destruct name as [|? name]; [done|]). destruct name; [|done].
  do 3 (destruct ext' as [|? ext']; [done|]). destruct ext'; [|done].
  unfold of_bytes, u32_at, u16_at, u8_at, to_bytes, le16, le32. simpl. f_equal; word.
Qed.

(** *** Packed dates and times *)

Lemma pack3 (a b c i j : Z) :
  0 <= a -> 0 <= j <= i -> 0 <= b < 2 ^ (i - j) -> 0 <= c < 2 ^ j ->
  (a ≪ i) .| (b ≪ j) .| c = a * 2 ^ i + b * 2 ^ j + c.
Proof.
  intros Ha Hj Hb Hc. replace i with ((i - j) + j) at 1 by lia.
  rewrite <- Z.shiftl_shiftl, <- Z.shiftl_lor, lor_add, lor_add by lia.
  replace (2 ^ i) with (2 ^ (i - j) * 2 ^ j) by (rewrite <- Z.pow_add_r by lia; f_equal; lia). lia.
Qed.

Lemma time_fields (h m s : Z) :
  0 <= h < 24 -> 0 <= m < 60 -> 0 <= s < 60 ->
  let t := FileTime.from_parts h m s in
  FileTime.get_hours t = h /\ FileTime.get_minutes t = m /\ FileTime.get_seconds t = s - s mod 2.
Proof.
  intros Hh Hm Hs. unfold FileTime.from_parts.
  assert (u16 (h ≪ 11) = h ≪ 11) as -> by (rewrite shiftl_mul by lia; change (2 ^ 11) with 2048; word).
  assert (u16 (m ≪ 5) = m ≪ 5) as -> by (rewrite shiftl_mul by lia; change (2 ^ 5) with 32; word).
  rewrite shiftr_div by lia. rewrite (pack3 h m (s / 2 ^ 1) 11 5) by (simpl; lia || word).
  unfold FileTime.get_hours, FileTime.get_minutes, FileTime.get_seconds.
  change 0x3f with (Z.ones 6). change 0x1f with (Z.ones 5). rewrite !Z.land_ones, !shiftr_div, shiftl_mul by lia.
  change (2 ^ 11) with 2048. change (2 ^ 5) with 32. change (2 ^ 6) with 64. change (2 ^ 1) with 2.
  split_and!; word.
Qed.

Lemma date_fields (y m d : Z) :
  1980 <= y < 2108 -> 0 <= m < 16 -> 0 <= d < 32 ->
  let t := FileDate.from_parts y m d in
  FileDate.get_year t = y /\ FileDate.get_month t = m /\ FileDate.get_day t = d.
Proof.
  intros Hy Hm Hd. unfold FileDate.from_parts. rewrite (proj2 (Z.leb_le _ _)) by lia.
  change 0x7f with (Z.ones 7). change 0xf with (Z.ones 4). change 0x1f with (Z.ones 5).
  rewrite !Z.land_ones by lia. rewrite !Z.mod_small by (simpl; lia).
  assert (u16 ((y - 1980) ≪ 9) = (y - 1980) ≪ 9) as -> by (rewrite shiftl_mul by lia; change (2 ^ 9) with 512; word).
  assert (u16 (m ≪ 5) = m ≪ 5) as -> by (rewrite shiftl_mul by lia; change (2 ^ 5) with 32; word).
  rewrite (pack3 (y - 1980) m d 9 5) by (simpl; lia).
  unfold FileDate.get_year, FileDate.get_month, FileDate.get_day.
  change 0x7f with (Z.ones 7). change 0xf with (Z.ones 4). change 0x1f with (Z.ones 5).
  rewrite !Z.land_ones, !shiftr_div by lia.
  change (2 ^ 9) with 512. change (2 ^ 5) with 32. change (2 ^ 7) with 128. change (2 ^ 4) with 16.
  split_and!; word.
Qed.

(** *** Timestamps *)

Import Timestamp.

(** Day [r] of a four-year period: its year, and the month and day the search
    finds. *)
Definition year_day (r : Z) : Z := if 365 <? r then (r - 366) mod 365 else r.

Definition date_of (r : Z) : option (Z * Z * Z) :=
  let yr := r * 100 / 36525 in
  '(month, leap) ← month_loop 13 yr (year_day r) 0 0;
  start ← MONTH_START_OFFSET !! Z.to_nat (month - 1);
  let day := u32 (year_day r + 1 - start) in
  Some (month, if 2 <? month then u32 (day - leap) else day, start).

Definition date_good (r : Z) : bool :=
  let yr := r * 100 / 36525 in
  match date_of r with
  | Some (month, day, start) =>
      (1 <=? month) && (month <=? 12) && (1 <=? day) && (day <=? 31) && (0 <=? start) && (start <? 366) &&
      (yr * 365 + (if 0 <? yr then 1 else 0) + start + (if (2 <? month) && (yr =? 0) then 1 else 0) + day - 1 =? r)
  | None => false
  end.

Lemma dates_good (r : Z) : 0 <= r < 1461 -> date_good r = true.
Proof.
  intros Hr. assert (forallb date_good (seqZ 0 1461) = true) as Hall by (vm_compute; reflexivity).
  rewrite forallb_forall in Hall. apply Hall, list_elem_of_In, elem_of_seqZ. lia.
Qed.

(** Only the position in the four-year period matters for the search. *)
Lemma month_loop_mod (fuel : nat) (y y' yd m l : Z) :
  y mod 4 = y' mod 4 -> month_loop fuel y yd m l = month_loop fuel y' yd m l.
Proof.
  intros Hy. revert m l. induction fuel as [|fuel IH]; intros m l; simpl; [done|].
  case_match; [|done]. destruct (MONTH_START_OFFSET !! Z.to_nat m); simpl; [|done].
  rewrite Hy. case_match; [apply IH|done].
Qed.

Lemma leap_before_2100 (q yr : Z) : 0 <= q < 30 -> 0 <= yr < 4 -> is_leap_year (1980 + 4 * q + yr) = (yr =? 0).
Proof.
  intros Hq Hyr. unfold is_leap_year.
  assert ((1980 + 4 * q + yr) mod 4 = yr) as -> by word.
  destruct (Z.eqb_spec yr 0) as [->|]; [|done].
  destruct (Z.eqb_spec ((1980 + 4 * q + 0) mod 100) 0) as [E|]; [|done].
  destruct (Z.eqb_spec ((1980 + 4 * q + 0) mod 400) 0) as [|Hn]; [done|]. exfalso.
  assert (q = 5) as -> by word. done.
Qed.

(** The parts of a timestamp before 2100. *)
Lemma decode_parts (ts month day start : Z) :
  0 <= ts < 43830 * 86400 -> date_of (ts / 86400 mod 1461) = Some (month, day, start) ->
  let yr := ts / 86400 mod 1461 * 100 / 36525 in
  1 <= month <= 12 -> 1 <= day <= 31 ->
  decode_timestamp ts = Some
    (FileDate.from_parts (1980 + 4 * (ts / 86400 / 1461) + yr) month day,
     FileTime.from_parts (ts mod 86400 / 60 / 60) (ts mod 86400 / 60 mod 60) (ts mod 86400 mod 60)).
Proof.
  intros Hts Hd yr Hm Hday. unfold decode_timestamp, date_of in *.
  set (days := ts / 86400) in *. assert (0 <= days < 43830) by (unfold days; word).
  assert (u32 (days * 100) / 36525 = 4 * (days / 1461) + yr) as -> by (unfold yr; word).
  assert (0 <= yr < 4) by (unfold yr; word).
  change (365 + 365 + 365 + 366) with 1461. fold (year_day (days mod 1461)).
  rewrite (month_loop_mod 13 _ yr) by word. fold yr in Hd.
  destruct (month_loop 13 yr _ 0 0) as [[m l]|]; simpl in *; [|done].
  destruct (MONTH_START_OFFSET !! _) as [st|]; simpl in *; [|done]. injection Hd as <- <- <-.
  set (dd := if 2 <? m then _ else _) in *. clearbody dd.
  assert (u16 (u16 (4 * (days / 1461) + yr) + 1980) = 1980 + 4 * (days / 1461) + yr) as -> by word.
  assert (u8 m = m) as -> by word. assert (u8 dd = dd) as -> by word.
  assert (0 <= ts mod 86400 < 86400) by (apply Z.mod_pos_bound; lia).
  do 3 f_equal; [word..|]. word.
Qed.

Lemma encode_parts (q yr month day start h m s : Z) :
  0 <= q < 30 -> 0 <= yr < 4 -> 1 <= month <= 12 -> 1 <= day <= 31 -> 0 <= start < 366 ->
  MONTH_START_OFFSET !! Z.to_nat (month - 1) = Some start ->
  0 <= h < 24 -> 0 <= m < 60 -> 0 <= s < 60 ->
  encode_timestamp (1980 + 4 * q + yr) month day h m s = Some
    ((q * 1461 + (yr * 365 + (if 0 <? yr then 1 else 0) + start +
        (if (2 <? month) && (yr =? 0) then 1 else 0) + day - 1)) * 86400 + h * 3600 + m * 60 + s).
Proof.
  intros Hq Hyr Hmo Hd Hst Hlk Hh Hm Hs. unfold encode_timestamp.
  rewrite (proj2 (Z.ltb_ge _ _)), (proj2 (Z.eqb_neq _ _)), (proj2 (Z.ltb_ge 12 _)) by lia. simpl.
  rewrite Hlk, leap_before_2100 by done. simpl.
  replace (1980 + 4 * q + yr - 1980) with (yr + q * 4) by lia.
  rewrite Z.div_add, Z.mod_add, Z.div_small, (Z.mod_small yr) by lia.
  set (lp := if (2 <? month) && (yr =? 0) then 1 else 0).
  assert (0 <= lp <= 1) by (unfold lp; destruct ((2 <? month) && (yr =? 0)); lia).
  set (fy := if 0 <? yr then 1 else 0). assert (0 <= fy <= 1) by (unfold fy; destruct (0 <? yr); lia).
  assert (forall a, 0 <= a < 100000 -> (if 0 <? yr then u32 (a + 1) else a) = a + fy) as Hfy
    by (intros a Ha; unfold fy; destruct (0 <? yr); word).
  assert (forall a, 0 <= a < 100000 -> (if (2 <? month) && (yr =? 0) then u32 (a + 1) else a) = a + lp) as Hlp
    by (intros a Ha; unfold lp; destruct ((2 <? month) && (yr =? 0)); word).
  f_equal. rewrite Hfy by word. rewrite Hlp by word. word.
Qed.

(** the FAT driver's packed dates and times lose nothing but the odd
    second: decoding a system timestamp (seconds since 1980) into a FAT date
    and time and encoding it again gives the timestamp rounded down to an even
    second, for every timestamp before the year 2100; neither direction
    panics. *)
Theorem fat_timestamp_roundtrip (ts : Z) :
  0 <= ts < 43830 * 86400 ->
  exists date time, decode_timestamp ts = Some (date, time) /\
    encode_timestamp (FileDate.get_year date) (FileDate.get_month date) (FileDate.get_day date)
      (FileTime.get_hours time) (FileTime.get_minutes time) (FileTime.get_seconds time) = Some (ts - ts mod 2).
Proof.
  intros Hts. set (r := ts / 86400 mod 1461). assert (0 <= r < 1461) as Hr by (apply Z.mod_pos_bound; lia).
  pose proof (dates_good r Hr) as Hg. unfold date_good in Hg.
  destruct (date_of r) as [[[month day] start]|] eqn:Hd; [|done]. bool_facts.
  set (yr := r * 100 / 36525) in *. assert (0 <= yr < 4) by (unfold yr; word).
  eexists _, _. split; [by eapply decode_parts|]. fold r. fold yr.
  set (q := ts / 86400 / 1461). assert (0 <= q < 30) by (unfold q; word).
  set (tod := ts mod 86400). assert (0 <= tod < 86400) by (apply Z.mod_pos_bound; lia).
  destruct (date_fields (1980 + 4 * q + yr) month day) as (-> & -> & ->); [lia..|].
  destruct (time_fields (tod / 60 / 60) (tod / 60 mod 60) (tod mod 60)) as (-> & -> & ->); [word..|].
  rewrite (encode_parts q yr month day start); [|word..| |word|word|word].
  - f_equal. replace (yr * 365 + _ + start + _ + day - 1) with r by lia.
    assert (q * 1461 + r = ts / 86400) as -> by (unfold q, r; word). unfold tod. word.
  - unfold date_of in Hd. fold yr in Hd. destruct (month_loop 13 yr _ 0 0) as [[m l]|]; simpl in Hd; [|done].
    destruct (MONTH_START_OFFSET !! Z.to_nat (m - 1)) eqn:E; simpl in Hd; [|done]. by injection Hd as <- _ <-.
Qed.

Lemma fat_timestamp_witness :
  exists date time, decode_timestamp 1388534401 = Some (date, time) /\
    encode_timestamp (FileDate.get_year date) (FileDate.get_month date) (FileDate.get_day date)
      (FileTime.get_hours time) (FileTime.get_minutes time) (FileTime.get_seconds time) =
      Some (1388534401 - 1388534401 mod 2).
Proof. apply (fat_timestamp_roundtrip 1388534401). lia. Defined.
End FatEntryFacts.
