(* ===== verification/FatFileSpec.v ===== *)
(** * Files keep the bytes written to them

    A file of a volume is a chain of clusters of the data area.  These lemmas
    show that loading a chain, growing it and copying bytes keep the chain and
    change only what belongs to the file; the theorems at the end state what
    [File::read] and [File::write] of
    [components/drivers/fatdriver/src/dir.rs] do. *)

From S2P Require Import Prelude FatDisk FatCache FatTable FatEntry FatFile.
Import AllocationTable FatView.

Section Files.
Context {D : Type} `{DiskLaws D} (table : AllocationTable.t).
Implicit Types (d : D) (v : list Z).

(** ** Clusters of the data area *)

Definition bpc : Z := AllocationTable.sectors_per_cluster table * 512.
Definition location (c : Z) : Z := first_cluster_location table + bpc * (c - 2).
Definition data_cluster v (c : Z) : Prop :=
  2 <= c /\ in_fat table c /\ location c + bpc <= Z.of_nat (length v).

(** The byte at position [p] of the file stored in the clusters [l]. *)
Definition file_at v (l : list Z) (p : Z) : option Z :=
  c ← l !! Z.to_nat (p / bpc); v !! Z.to_nat (location c + p mod bpc).

(** The bytes of the copies of the table. *)
Definition in_tables (x : Z) : Prop :=
  table_start table <= x < table_start table + fat_count table * bytes_per_fat table.
Definition in_cluster (c x : Z) : Prop := location c <= x < location c + bpc.

Lemma bpc_ok v : volume table v -> 512 <= bpc <= 65536 /\ bytes_per_cluster table = bpc.
Proof. intros Hv. pose proof (vo_cluster _ _ Hv). unfold bpc, bytes_per_cluster. split; [lia|word]. Qed.

Lemma location_ok v (c : Z) :
  volume table v -> Z.of_nat (length v) < 2 ^ 32 -> data_cluster v c ->
  get_cluster_location table c = location c /\ first_cluster_location table <= location c.
Proof.
  intros Hv Hs (Hc & _ & Hl). destruct (bpc_ok v Hv) as [Hb Hbe].
  pose proof (vo_data _ _ Hv). pose proof (vo_start _ _ Hv). pose proof (vo_fat _ _ Hv). pose proof (vo_count _ _ Hv).
  assert (0 <= bpc * (c - 2)) by nia. assert (0 <= fat_count table * bytes_per_fat table) by nia.
  unfold get_cluster_location, location in *. rewrite Hbe.
  assert (c - 2 <= bpc * (c - 2)) by nia.
  unfold u32. rewrite (Z.mod_small (c - 2)) by lia. rewrite (Z.mod_small (bpc * _)), Z.mod_small by lia. lia.
Qed.

Lemma clusters_disjoint v (c c' x : Z) :
  volume table v -> in_cluster c x -> in_cluster c' x -> c = c'.
Proof.
  intros Hv. destruct (bpc_ok v Hv) as [Hb _]. unfold in_cluster, location. intros H1 H2.
  destruct (Z.lt_total c c') as [|[|]]; [|done|]; exfalso; nia.
Qed.

Lemma cluster_not_table v (c x : Z) :
  volume table v -> 2 <= c -> in_cluster c x -> ~ in_tables x.
Proof.
  intros Hv Hc [Hx _]. destruct (bpc_ok v Hv) as [Hb _]. pose proof (vo_data _ _ Hv).
  unfold in_tables, location in *. assert (0 <= bpc * (c - 2)) by nia. lia.
Qed.

(** A position of a file lies in one of its clusters. *)
Lemma position_in_cluster v (c p : Z) : volume table v -> in_cluster c (location c + p mod bpc).
Proof.
  intros Hv. destruct (bpc_ok v Hv) as [Hb _]. pose proof (Z.mod_pos_bound p bpc). unfold in_cluster. lia.
Qed.

(** ** What a file relies on *)

(** A change of the volume that keeps its size and stays inside the tables or
    inside the data area. *)
Record fat_change v v' : Prop := {
  fc_length : length v' = length v;
  fc_bytes : bytes_ok v';
  fc_other x : 0 <= x -> ~ in_tables x -> v' !! Z.to_nat x = v !! Z.to_nat x
}.

Record data_change v v' : Prop := {
  dc_length : length v' = length v;
  dc_bytes : bytes_ok v';
  dc_tables x : 0 <= x -> in_tables x -> v' !! Z.to_nat x = v !! Z.to_nat x
}.

Lemma fat_set_change v v' (c x : Z) : fat_set table v v' c x -> fat_change v v'.
Proof. intros [Hl Hb _ Ho]. split; [done..|]. intros y Hy Hn. apply Ho; [done|]. unfold in_tables in Hn. lia. Qed.

Lemma fat_change_trans v v1 v2 : fat_change v v1 -> fat_change v1 v2 -> fat_change v v2.
Proof. intros [] []. split; [congruence|done|]. intros x Hx Hn. rewrite fc_other1 by done. auto. Qed.

Lemma fat_change_refl v : bytes_ok v -> fat_change v v.
Proof. by split. Qed.

Lemma volume_change v v' : volume table v -> length v' = length v -> bytes_ok v' -> volume table v'.
Proof. intros [] Hl Hb. split; try done. by rewrite Hl. Qed.

Lemma data_cluster_length v v' (c : Z) : length v' = length v -> data_cluster v c -> data_cluster v' c.
Proof. intros Hl. unfold data_cluster. by rewrite Hl. Qed.

Lemma file_at_fat_change v v' (l : list Z) (p : Z) :
  volume table v -> fat_change v v' -> (forall c, c ∈ l -> data_cluster v c) -> 0 <= p ->
  file_at v' l p = file_at v l p.
Proof.
  intros Hv Hch Hd Hp. unfold file_at. destruct (l !! Z.to_nat (p / bpc)) as [c|] eqn:Hc; [|done]. simpl.
  assert (data_cluster v c) as (Hc2 & _ & _) by (apply Hd; by eapply list_elem_of_lookup_2).
  pose proof (position_in_cluster v c p Hv) as Hpos. destruct (bpc_ok v Hv) as [Hb _].
  apply Hch; [|by eapply cluster_not_table].
  pose proof (vo_data _ _ Hv). pose proof (vo_start _ _ Hv). pose proof (vo_fat _ _ Hv). pose proof (vo_count _ _ Hv).
  unfold in_cluster, location in *. nia.
Qed.

Lemma entry_data_change v v' (c : Z) :
  volume table v -> data_change v v' -> in_fat table c -> entry table v' c = entry table v c.
Proof.
  intros Hv Hch [Hc Hf]. pose proof (vo_start _ _ Hv). pose proof (vo_count _ _ Hv). pose proof (vo_fat _ _ Hv).
  pose proof (Z.div_pos c 2 Hc ltac:(lia)).
  apply entry_at_ext; [done..|]. intros i Hi. apply Hch; [lia|]. unfold in_tables. nia.
Qed.

(** ** The clusters of a file *)

Record file_clusters v (c0 : Z) (l : list Z) : Prop := {
  fl_chain : chain table v c0 l;
  fl_nodup : NoDup l;
  fl_data c : c ∈ l -> data_cluster v c
}.

#[global] Instance data_cluster_dec v (c : Z) : Decision (data_cluster v c).
Proof. unfold data_cluster, in_fat. apply _. Defined.

(** The clusters of the data area that are free to be taken. *)
Definition free_list v : list Z := filter (fun c => data_cluster v c /\ entry table v c = 0) (seqZ 2 4083).

Lemma free_elem v (c : Z) : c ∈ free_list v <-> c < 4085 /\ data_cluster v c /\ entry table v c = 0.
Proof.
  unfold free_list. rewrite list_elem_of_filter, elem_of_seqZ. unfold data_cluster. intuition lia.
Qed.

(** Clusters below one of the data area are in the data area. *)
Lemma data_cluster_below v (c c' : Z) : volume table v -> data_cluster v c -> 2 <= c' <= c -> data_cluster v c'.
Proof.
  intros Hv (Hc & [Hc0 Hin] & Hl) Hc'. destruct (bpc_ok v Hv) as [Hb _].
  assert (c' / 2 <= c / 2) by (apply Z.div_le_mono; lia). unfold data_cluster, in_fat, location in *.
  split_and!; [lia|lia|lia|]. assert (bpc * (c' - 2) <= bpc * (c - 2)) by nia. lia.
Qed.

Lemma free_nodup v : NoDup (free_list v).
Proof. apply NoDup_filter, NoDup_seqZ. Qed.

(** Entries of a chain are never 0. *)
Lemma chain_entries v (c0 : Z) (l : list Z) (c : Z) :
  chain table v c0 l -> (forall x, x ∈ l -> 2 <= x) -> c ∈ l -> entry table v c <> 0.
Proof.
  induction 1 as [c1 He|c1 c2 l He Hne Hch IH]; intros Hd Hc.
  - apply list_elem_of_singleton in Hc as ->. lia.
  - apply elem_of_cons in Hc as [->|Hc]; [|apply IH; [|done]; intros; apply Hd; by right].
    destruct (chain_head _ _ _ _ Hch) as [l' ->]. rewrite He. specialize (Hd c2). intros ->.
    assert (2 <= 0); [|lia]. apply Hd. right. left.
Qed.

Lemma file_not_free v (c0 : Z) (l : list Z) (c : Z) : file_clusters v c0 l -> c ∈ l -> c ∉ free_list v.
Proof.
  intros [Hch _ Hd] Hc Hf. apply free_elem in Hf as (_ & _ & He).
  eapply chain_entries; [done| |done|done]. intros x Hx. by apply (Hd x Hx).
Qed.

Lemma file_data_change v v' (c0 : Z) (l : list Z) :
  volume table v -> data_change v v' -> file_clusters v c0 l -> file_clusters v' c0 l.
Proof.
  intros Hv Hch [Hc Hn Hd]. split; [|done|].
  - eapply chain_ext; [done|]. intros x Hx. eapply entry_data_change; [done..|]. apply (Hd x Hx).
  - intros c Hx. eapply data_cluster_length; [apply Hch|by apply Hd].
Qed.

(** ** Loading a chain *)

Lemma chain_loop_ok (l : list Z) (fuel : nat) (n c0 : Z) d v (acc : list Z) :
  chain table v c0 l -> c0 <> 0xfff -> rep n d v -> volume table v -> (forall c, c ∈ l -> in_fat table c) ->
  (length l <= fuel)%nat -> 2 * Z.of_nat (length l) <= n ->
  exists d', File.chain_loop fuel table acc c0 d = Some (acc ++ l, d') /\ rep (n - 2 * Z.of_nat (length l)) d' v.
Proof.
  revert fuel n c0 d acc. induction l as [|x l IH]; intros fuel n c0 d acc Hch Hc0 Hr Hv Hin Hf Hn; [by inversion Hch|].
  destruct (chain_head _ _ _ _ Hch) as [? [= -> <-]]. simpl in *. destruct fuel as [|fuel]; [lia|]. simpl.
  rewrite (proj2 (Z.eqb_neq _ _)) by done.
  destruct (get_next_ok n d v table c0) as (d1 & -> & Hr1);
    [done|apply Hv|apply table_fits; [done|apply Hin; left]|lia|]. simpl.
  inversion Hch as [? He|? c' ? He Hne Hch']; subst; unfold next_of.
  - rewrite He. exists d1. split; [done|]. eapply rep_weaken; [done|simpl; lia].
  - rewrite (proj2 (Z.eqb_neq _ _)) by done.
    destruct (IH fuel (n - 2) (entry table v c0) d1 (acc ++ [c0])) as (d' & -> & Hr');
      [done|done|done|done|intros; apply Hin; by right|lia|lia|].
    exists d'. rewrite <- app_assoc. split; [done|]. eapply rep_weaken; [done|lia].
Qed.

(** The chain of a file is loaded, or can be. *)
Record file_ok v (f : File.t) (l : list Z) : Prop := {
  fo_clusters : file_clusters v (File.first_cluster f) l;
  fo_first : File.first_cluster f <> 0xfff;
  fo_cache : File.cluster_cache f = l \/ File.cluster_cache f = [];
  fo_size : 0 <= File.byte_size f <= bpc * Z.of_nat (length l)
}.

Lemma file_nonempty v (f : File.t) (l : list Z) : file_ok v f l -> l <> [].
Proof. intros Hf ->. pose proof (fl_chain _ _ _ (fo_clusters _ _ _ Hf)) as Hc. inversion Hc. Qed.

Lemma load_cache (fuel : nat) (n : Z) d v (f : File.t) (l : list Z) :
  rep n d v -> volume table v -> file_ok v f l -> (length l <= fuel)%nat -> 2 * Z.of_nat (length l) <= n ->
  exists d', (if decide (File.cluster_cache f = [])
              then File.cache_cluster_chain fuel f table (File.first_cluster f) d
              else Some (f, d)) = Some (File.with_cache f l, d') /\ rep (n - 2 * Z.of_nat (length l)) d' v.
Proof.
  intros Hr Hv Hf Hfuel Hn. pose proof (file_nonempty _ _ _ Hf) as Hne. destruct Hf as [[Hch _ Hd] Hc0 Hcache _].
  case_decide as Hc.
  - unfold File.cache_cluster_chain.
    destruct (chain_loop_ok l fuel n (File.first_cluster f) d v []) as (d' & -> & Hr');
      [done|done|done|done|intros c ?; by apply (Hd c)|done|done|].
    by exists d'.
  - destruct Hcache as [Hl|]; [|done]. exists d. split; [|eapply rep_weaken; [done|lia]].
    destruct f. simpl in *. by subst.
Qed.

(** ** Reading *)

Lemma chunk_cost (k : nat) : (1 <= k)%nat -> access_cost k <= 3 * Z.of_nat k.
Proof. intros. unfold access_cost. Z.div_mod_to_equations; lia. Qed.

(** Reading [k] bytes at position [p] of a file, inside one cluster. *)
Lemma read_chunk (n : Z) d v (l : list Z) (c p : Z) (buf : list Z) :
  rep n d v -> volume table v -> (forall x, x ∈ l -> data_cluster v x) -> 0 <= p ->
  l !! Z.to_nat (p / bpc) = Some c -> Z.of_nat (length buf) <= bpc - p mod bpc -> access_cost (length buf) <= n ->
  exists d' got, read_bytes_from_disk d (u32 (get_cluster_location table c + p mod bpc)) buf =
      Some (d', got, Z.of_nat (length buf)) /\ rep (n - access_cost (length buf)) d' v /\
    length got = length buf /\
    forall i, (i < length buf)%nat -> got !! i = file_at v l (p + Z.of_nat i).
Proof.
  intros Hr Hv Hd Hp Hc Hk Hn. pose proof (rep_size _ _ _ Hr) as Hs. destruct (bpc_ok v Hv) as [Hb _].
  pose proof (Z.mod_pos_bound p bpc ltac:(lia)).
  assert (data_cluster v c) as Hdc by (apply Hd; by eapply list_elem_of_lookup_2).
  destruct (location_ok v c Hv Hs Hdc) as [-> Hlo]. destruct Hdc as (_ & _ & Hend).
  pose proof (vo_data _ _ Hv). pose proof (vo_start _ _ Hv). pose proof (vo_fat _ _ Hv). pose proof (vo_count _ _ Hv).
  assert (0 <= location c) by nia.
  assert (u32 (location c + p mod bpc) = location c + p mod bpc) as -> by (unfold u32; apply Z.mod_small; lia).
  destruct (read_law n d v (location c + p mod bpc) buf) as (d' & -> & Hr'); [done|lia|lia|done|].
  eexists d', _. split; [done|]. split; [done|]. split; [rewrite length_take, length_drop; lia|].
  intros i Hi. rewrite lookup_sub, decide_True by done. unfold file_at.
  assert ((p + Z.of_nat i) / bpc = p / bpc) as ->.
  { symmetry. apply (Z.div_unique _ _ _ (p mod bpc + Z.of_nat i)); [lia|]. pose proof (Z.div_mod p bpc). lia. }
  assert ((p + Z.of_nat i) mod bpc = p mod bpc + Z.of_nat i) as ->.
  { symmetry. apply (Z.mod_unique _ _ (p / bpc)); [lia|]. pose proof (Z.div_mod p bpc). lia. }
  rewrite Hc. simpl. f_equal. lia.
Qed.

Lemma position_cluster v (l : list Z) (p : Z) :
  volume table v -> 0 <= p < bpc * Z.of_nat (length l) -> is_Some (l !! Z.to_nat (p / bpc)).
Proof.
  intros Hv Hp. destruct (bpc_ok v Hv) as [Hb _]. apply lookup_lt_is_Some.
  assert (0 <= p / bpc) by (apply Z.div_pos; lia). assert (p / bpc < Z.of_nat (length l)); [|lia].
  apply Z.div_lt_upper_bound; lia.
Qed.

Definition read_count (f : File.t) (len : nat) (off : Z) : Z := Z.min (Z.of_nat len) (File.byte_size f - off).

Lemma file_read_loop_ok (fuel chain_fuel : nat) (n : Z) d v (f : File.t) (l buf : list Z) (off : Z) (bw : nat) :
  rep n d v -> volume table v -> file_ok v f l -> File.cluster_cache f = l -> 0 <= off ->
  off + Z.of_nat bw <= File.byte_size f -> File.byte_size f < 2 ^ 32 -> (bw <= length buf)%nat ->
  (length buf - bw < fuel)%nat -> 3 * Z.of_nat (length buf - bw) + 2 <= n ->
  exists buf' d', File.read_loop fuel chain_fuel f buf off (off + Z.of_nat bw) bw table d =
      Some (read_count f (length buf) off, buf', f, d') /\
    rep (n - (3 * Z.of_nat (length buf - bw) + 2)) d' v /\ length buf' = length buf /\
    forall i, (i < length buf)%nat -> buf' !! i =
      if decide ((bw <= i)%nat /\ Z.of_nat i < read_count f (length buf) off)
      then file_at v l (off + Z.of_nat i) else buf !! i.
Proof.
  revert n d buf bw. induction fuel as [|fuel IH]; intros n d buf bw Hr Hv Hf Hcache Hoff Hsz Hw Hbw Hfuel Hn; [lia|].
  simpl. destruct (bpc_ok v Hv) as [Hb ->]. rewrite (proj2 (Z.eqb_neq _ _)) by lia.
  pose proof (file_nonempty _ _ _ Hf) as Hne. rewrite decide_False by congruence. simpl.
  set (p := off + Z.of_nat bw) in *. assert (0 <= p) by (unfold p; lia).
  pose proof (Z.mod_pos_bound p bpc ltac:(lia)) as Hmod. pose proof (fo_size _ _ _ Hf) as Hcap.
  unfold read_count. rewrite Hcache. destruct (l !! Z.to_nat (p / bpc)) as [c|] eqn:Hc.
  2:{ assert (p = File.byte_size f) as Hpe.
      { destruct (Z.lt_ge_cases p (bpc * Z.of_nat (length l))) as [Hlt|]; [|lia].
        destruct (position_cluster v l p Hv) as [? ?]; [lia|congruence]. }
      exists buf, d. split; [do 4 f_equal; unfold p in *; lia|]. split; [eapply rep_weaken; [done|lia]|].
      split; [done|]. intros i Hi. rewrite decide_False; [done|]. unfold p in *. lia. }
  assert (u32 (File.byte_size f - p) = File.byte_size f - p) as -> by (apply Z.mod_small; lia).
  set (m := Z.to_nat (Z.min (File.byte_size f - p) (bpc - p mod bpc))).
  set (k := (Nat.min (length buf) (bw + m) - bw)%nat).
  assert (k <= length buf - bw)%nat as Hk by lia. assert (k <= m)%nat as Hkm by lia.
  rewrite slice_ok by lia. simpl. set (sub := take k (drop bw buf)).
  assert (length sub = k) as Hsub by (unfold sub; rewrite length_take, length_drop; lia).
  assert (access_cost k <= 3 * Z.of_nat k + 2) as Hcost by (unfold access_cost; Z.div_mod_to_equations; lia).
  destruct (read_chunk n d v l c p sub) as (d1 & got & -> & Hr1 & Hgl & Hgot);
    [done|done|apply Hf|done|done|rewrite Hsub; lia|rewrite Hsub; lia|].
  rewrite Hsub in *. simpl. rewrite copy_from_slice_ok by lia. simpl. rewrite Nat2Z.id.
  set (buf1 := list_inserts bw got buf).
  assert (length buf1 = length buf) as Hl1 by apply length_inserts.
  assert (forall i, buf1 !! i = if decide (bw <= i < bw + k)%nat then file_at v l (off + Z.of_nat i) else buf !! i) as Hb1.
  { intros i. unfold buf1. rewrite lookup_inserts by lia. rewrite Hgl. case_decide; [|done].
    rewrite Hgot by lia. f_equal. unfold p. lia. }
  assert (u32 (Z.of_nat (bw + k) + off) = p + Z.of_nat k) as -> by (unfold p, u32 in *; rewrite Z.mod_small; lia).
  rewrite Hl1. destruct (Z.leb_spec (File.byte_size f) (p + Z.of_nat k)) as [Hdone|Hmore].
  { exists buf1, d1. split; [do 4 f_equal; unfold p in *; lia|]. split; [eapply rep_weaken; [done|lia]|]. split; [done|].
    intros i Hi. rewrite Hb1. repeat case_decide; try done; unfold p in *; lia. }
  destruct (decide (length buf <= bw + k)%nat) as [Hfull|Hroom].
  { exists buf1, d1. split; [do 4 f_equal; unfold p in *; lia|]. split; [eapply rep_weaken; [done|lia]|]. split; [done|].
    intros i Hi. rewrite Hb1. repeat case_decide; try done; unfold p in *; lia. }
  assert (1 <= k)%nat as Hk1 by (unfold k, m in *; lia). pose proof (chunk_cost k Hk1).
  assert (u32 (p + Z.of_nat k) = off + Z.of_nat (bw + k)) as -> by (unfold p, u32 in *; rewrite Z.mod_small; lia).
  destruct (IH (n - access_cost k) d1 buf1 (bw + k)%nat) as (buf' & d' & Hrd & Hr' & Hl' & Hlk);
    [done|done|done|done|done|unfold p in *; lia|done|lia|lia|lia|].
  rewrite Hl1 in *. exists buf', d'. split; [exact Hrd|]. split; [eapply rep_weaken; [done|lia]|]. split; [done|].
  intros i Hi. rewrite Hlk by done. unfold read_count. rewrite Hb1. repeat case_decide; try done; unfold p in *; lia.
Qed.

Lemma file_ok_cached v (f : File.t) (l : list Z) : file_ok v f l -> file_ok v (File.with_cache f l) l.
Proof. intros [? ? ? ?]. split; try done. by left. Qed.

Lemma file_read_ok (chain_fuel : nat) (n : Z) d v (f : File.t) (l buf : list Z) (off : Z) :
  rep n d v -> volume table v -> file_ok v f l -> 0 <= off <= File.byte_size f -> File.byte_size f < 2 ^ 32 ->
  (length l <= chain_fuel)%nat -> 2 * Z.of_nat (length l) + 3 * Z.of_nat (length buf) + 2 <= n ->
  exists buf' d', File.read chain_fuel f buf off table d =
      Some (read_count f (length buf) off, buf', File.with_cache f l, d') /\
    rep (n - (2 * Z.of_nat (length l) + 3 * Z.of_nat (length buf) + 2)) d' v /\ length buf' = length buf /\
    forall i, (i < length buf)%nat -> buf' !! i =
      if decide (Z.of_nat i < read_count f (length buf) off)
      then file_at v l (off + Z.of_nat i) else buf !! i.
Proof.
  intros Hr Hv Hf Hoff Hsz Hfuel Hn. pose proof (file_nonempty _ _ _ Hf) as Hne.
  destruct (load_cache chain_fuel n d v f l) as (d1 & Hload & Hr1); [done..|lia|].
  destruct (file_read_loop_ok (S (length buf)) chain_fuel _ d1 v (File.with_cache f l) l buf off 0 Hr1)
    as (buf' & d' & Hrd & Hr' & Hl & Hb);
    [done|by apply file_ok_cached|done|lia|change (File.byte_size (File.with_cache f l)) with (File.byte_size f); lia|done|lia|lia|lia|].
  exists buf', d'. rewrite Z.add_0_r in Hrd. split; [|split; [|split; [done|]]].
  - unfold File.read. simpl in *. rewrite Hload. simpl. rewrite decide_False in Hrd by done. exact Hrd.
  - eapply rep_weaken; [done|lia].
  - intros i Hi. rewrite Hb by done. change (read_count (File.with_cache f l) (length buf) off) with (read_count f (length buf) off). repeat case_decide; try done; lia.
Qed.

(** ** Growing a chain *)

Lemma fat_chain_snoc v v' (c0 : Z) (l : list Z) (prev c : Z) :
  chain table v c0 l -> last l = Some prev -> NoDup l -> c ∉ l -> c <> 0xfff ->
  entry table v' prev = c -> entry table v' c = 0xfff ->
  (forall x, x ∈ l -> x <> prev -> entry table v' x = entry table v x) ->
  chain table v' c0 (l ++ [c]).
Proof.
  induction 1 as [c1 He|c1 c2 l He Hne Hch IH]; intros Hl Hnd Hc Hcne Hp Hc' Hext.
  - injection Hl as ->. eapply chain_next; [done|done|]. by apply chain_last.
  - apply NoDup_cons in Hnd as [Hn Hnd]. destruct (chain_head _ _ _ _ Hch) as [l' ->].
    rewrite last_cons_cons in Hl. apply not_elem_of_cons in Hc as [_ Hc].
    assert (c1 <> prev) as Hcp.
    { intros ->. apply Hn. apply last_Some_elem_of in Hl. done. }
    simpl. eapply chain_next; [rewrite Hext; [done|left|done]|done|]. apply IH; try done.
    intros x Hx. apply Hext. by right.
Qed.

(** [v'] differs from [v] by clusters [new], free in [v], linked to the file. *)
Record grown v (l : list Z) v' (new : list Z) : Prop := {
  gr_change : fat_change v v';
  gr_free c : c ∈ free_list v' <-> c ∈ free_list v /\ c ∉ new;
  gr_new c : c ∈ new -> c ∈ free_list v;
  gr_nodup : NoDup new;
  gr_entry c : in_fat table c -> c ∉ l -> c ∉ new -> entry table v' c = entry table v c
}.

Definition link_cost : Z := allocate_cost table + 4 * fat_count table.

(** A free cluster of the data area is found and taken. *)
Lemma take_free (n : Z) d v :
  rep n d v -> volume table v -> scan_fits table v -> free_list v <> [] -> allocate_cost table <= n ->
  exists c d' v', allocate_cluster table d = Some (Some c, d') /\ rep (n - allocate_cost table) d' v' /\
    c ∈ free_list v /\ fat_set table v v' c 0xfff.
Proof.
  intros Hr Hv Hsc Hne Hn. destruct (free_list v) as [|x fl] eqn:E; [done|].
  assert (x ∈ free_list v) as Hx by (rewrite E; left). apply free_elem in Hx as (Hx & Hdx & Hex).
  destruct (allocate_cluster_ok n d v table Hr Hv Hsc Hn) as [(c & _ & Hff & _)|(d' & Hall & _)].
  2:{ destruct (Hall x); [|done]. by destruct Hdx as (? & _). }
  assert (c <= x) as Hcx.
  { destruct Hff as (_ & _ & Hmin). destruct (Z.le_gt_cases c x); [done|]. destruct (Hmin x); [|done].
    by destruct Hdx as (? & _). }
  assert (data_cluster v c) as Hdc by (eapply data_cluster_below; [done..|]; destruct Hff as (? & _); lia).
  destruct (allocate_takes n d v table c) as (d1 & v1 & Ha & Hr1 & Hs1); [done..|by apply Hdc|].
  exists c, d1, v1. split_and!; try done. rewrite <- E. apply free_elem. destruct Hff as (? & ? & _). split_and!; [lia|done|done].
Qed.

(** Linking a free cluster [c] after [prev]. *)
Lemma grown_link v v1 v2 (c0 : Z) (l : list Z) (prev c : Z) :
  volume table v -> file_clusters v c0 l -> last l = Some prev -> c ∈ free_list v ->
  fat_set table v v1 c 0xfff -> fat_set table v1 v2 prev c ->
  file_clusters v2 c0 (l ++ [c]) /\ grown v l v2 [c].
Proof.
  intros Hv Hf Hl Hcf Hs1 Hs2. pose proof (fat_set_volume _ _ _ _ _ Hv Hs1) as Hv1.
  assert (prev ∈ l) as Hprev by (by eapply last_Some_elem_of).
  assert (c ∉ l) as Hcn by (intros Hc; by apply (file_not_free v c0 l c Hf Hc)).
  assert (forall x, in_fat table x -> entry table v2 x =
    if decide (x = prev) then c else if decide (x = c) then 0xfff else entry table v x) as He2.
  { intros x Hx. rewrite (fat_set_entry table v1 v2 prev c) by done.
    by rewrite (fat_set_entry table v v1 c 0xfff) by done. }
  assert (fat_change v v2) as Hch by (eapply fat_change_trans; eapply fat_set_change; eassumption).
  pose proof (proj1 (free_elem _ _) Hcf) as (Hclt & Hdc & Hec). pose proof (fl_data _ _ _ Hf prev Hprev) as Hdp.
  assert (c <> prev) as Hcp by congruence.
  split; [split|split]; try done.
  - eapply fat_chain_snoc; [apply Hf|done|apply Hf|done|lia|..].
    + by rewrite He2, decide_True by (done || apply Hdp).
    + by rewrite He2, decide_False, decide_True by (done || apply Hdc).
    + intros x Hx Hxp. by rewrite He2, decide_False, decide_False by (congruence || apply (fl_data _ _ _ Hf x Hx)).
  - apply NoDup_app. split; [apply Hf|]. split; [|apply NoDup_singleton].
    intros x Hx ->%list_elem_of_singleton. done.
  - intros x [Hx|Hx]%elem_of_app; (eapply data_cluster_length; [apply Hch|]); [by apply (fl_data _ _ _ Hf)|].
    by apply list_elem_of_singleton in Hx as ->.
  - intros x. rewrite list_elem_of_singleton, !free_elem. pose proof (fc_length _ _ Hch) as Hlen.
    assert (data_cluster v2 x <-> data_cluster v x) as -> by (unfold data_cluster; by rewrite Hlen).
    split; [intros (Hx & Hdx & Hex)|intros [(Hx & Hdx & Hex) Hxc]]; rewrite He2 in * by apply Hdx.
    + repeat case_decide; [destruct Hdc; lia|lia|done].
    + rewrite decide_False, decide_False; [done|done|]. intros ->.
      apply (file_not_free v c0 l prev Hf Hprev). by apply free_elem.
  - by intros x ->%list_elem_of_singleton.
  - apply NoDup_singleton.
  - intros x Hx Hxl Hxc. rewrite list_elem_of_singleton in Hxc. by rewrite He2, decide_False, decide_False by congruence.
Qed.

Lemma link_one (n : Z) d v (c0 : Z) (l : list Z) (prev : Z) :
  rep n d v -> volume table v -> scan_fits table v -> file_clusters v c0 l -> last l = Some prev ->
  free_list v <> [] -> link_cost <= n ->
  exists c d1 d2 v2, allocate_cluster table d = Some (Some c, d1) /\
    set_cluster_entry table prev c d1 = Some d2 /\ rep (n - link_cost) d2 v2 /\
    file_clusters v2 c0 (l ++ [c]) /\ grown v l v2 [c].
Proof.
  intros Hr Hv Hsc Hf Hl Hne Hn. unfold link_cost in *. pose proof (vo_count _ _ Hv).
  destruct (take_free n d v) as (c & d1 & v1 & Ha & Hr1 & Hcf & Hs1); [done|done|done|done|lia|].
  pose proof (fat_set_volume _ _ _ _ _ Hv Hs1) as Hv1.
  assert (prev ∈ l) as Hprev by (by eapply last_Some_elem_of).
  pose proof (proj1 (free_elem _ _) Hcf) as (Hclt & (Hc2 & _) & _).
  destruct (set_cluster_entry_ok _ d1 v1 table prev c Hr1 Hv1) as (d2 & v2 & Hset & Hr2 & Hs2);
    [by apply (fl_data _ _ _ Hf)|lia|lia|].
  rewrite (Z.mod_small c) in Hs2 by lia.
  destruct (grown_link v v1 v2 c0 l prev c) as [? ?]; [done..|].
  exists c, d1, d2, v2. split_and!; try done. eapply rep_weaken; [done|lia].
Qed.

Lemma grown_refl v (l : list Z) : bytes_ok v -> grown v l v [].
Proof.
  intros Hb. split; [by apply fat_change_refl| | |apply NoDup_nil_2|done].
  - intros c. split; [intros; split; [done|apply not_elem_of_nil]|by intros [? _]].
  - by intros c ?%elem_of_nil.
Qed.

Lemma grown_trans v v1 v2 (l new1 new2 : list Z) :
  grown v l v1 new1 -> grown v1 (l ++ new1) v2 new2 -> grown v l v2 (new1 ++ new2).
Proof.
  intros [Hc1 Hf1 Hn1 Hd1 He1] [Hc2 Hf2 Hn2 Hd2 He2]. split.
  - by eapply fat_change_trans.
  - intros c. rewrite Hf2, Hf1, elem_of_app. tauto.
  - intros c [Hc|Hc]%elem_of_app; [by apply Hn1|]. by apply Hf1, Hn2.
  - apply NoDup_app. split; [done|]. split; [|done]. intros c Hc Hc'. apply Hn2, Hf1 in Hc'. by destruct Hc'.
  - intros c Hc Hcl Hcn. rewrite elem_of_app in Hcn. rewrite He2, He1 by (rewrite ?elem_of_app; tauto). done.
Qed.

Lemma free_length_grown v v' (l new : list Z) :
  grown v l v' new -> (length (free_list v') + length new = length (free_list v))%nat.
Proof.
  intros [_ Hf Hn Hd _]. rewrite <- length_app. apply Permutation_length, NoDup_Permutation.
  - apply NoDup_app. split; [apply free_nodup|]. split; [|done]. intros c Hc. by apply Hf in Hc as [_ ?].
  - apply free_nodup.
  - intros c. rewrite elem_of_app, Hf. split; [intros [[]|]; auto|].
    intros Hc. destruct (decide (c ∈ new)); auto.
Qed.

Lemma extend_ok (fuel : nat) (n rel : Z) d v (c0 : Z) (l : list Z) :
  rep n d v -> volume table v -> scan_fits table v -> file_clusters v c0 l -> l <> [] -> 0 <= rel ->
  let k := Z.max 0 (rel + 1 - Z.of_nat (length l)) in
  k <= Z.of_nat (length (free_list v)) -> (Z.to_nat k <= fuel)%nat -> link_cost * k <= n ->
  exists new d' v', File.extend fuel table rel l d = Some (true, l ++ new, d') /\ rep (n - link_cost * k) d' v' /\
    Z.of_nat (length new) = k /\ file_clusters v' c0 (l ++ new) /\ grown v l v' new.
Proof.
  intros Hr Hv. assert (0 <= link_cost) as Hlc by (pose proof (vo_count _ _ Hv); unfold link_cost, allocate_cost; lia).
  revert n d v l Hr Hv. induction fuel as [|fuel IH]; intros n d v l Hr Hv Hsc Hf Hne Hrel k Hfree Hfuel Hn;
    simpl; destruct (Z.ltb_spec rel (Z.of_nat (length l))) as [Hlt|Hge]; try lia.
  1,2: assert (k = 0) as -> by lia; exists [], d, v; rewrite app_nil_r;
    split_and!; [done|by rewrite Z.mul_0_r, Z.sub_0_r|done|done|apply grown_refl, Hv].
  destruct (last l) as [prev|] eqn:Hl; [|by apply last_None in Hl]. simpl.
  assert (link_cost * k = link_cost + link_cost * (k - 1)) as Hk1 by lia. assert (0 <= link_cost * (k - 1)) by nia.
  destruct (link_one n d v c0 l prev) as (c & d1 & d2 & v2 & -> & Hset & Hr2 & Hf2 & Hg); [done..| |lia|].
  { intros E. rewrite E in Hfree. simpl in Hfree. lia. }
  simpl. rewrite Hset. simpl. pose proof (free_length_grown _ _ _ _ Hg) as Hfl. simpl in Hfl.
  destruct (IH (n - link_cost) d2 v2 (l ++ [c])) as (new & d' & v' & -> & Hr' & Hlen & Hf' & Hg');
    try done; rewrite ?length_app; simpl; try lia.
  { eapply volume_change; [done|apply Hg|apply Hg]. }
  { unfold scan_fits in *. by rewrite (fc_length _ _ (gr_change _ _ _ _ Hg)). }
  { by destruct l. }
  rewrite length_app in *. simpl in *. replace (Z.max 0 (rel + 1 - Z.of_nat (length l + 1))) with (k - 1) in * by lia.
  exists (c :: new), d', v'. rewrite <- app_assoc in *. simpl in *. split_and!; try done.
  - eapply rep_weaken; [done|lia].
  - lia.
  - by apply (grown_trans v v2 v' l [c] new).
Qed.

(** ** Writing *)

(** [v'] is [v] after [data] has been written at position [off] of the file in
    the clusters [l], which [new] clusters have joined. *)
Record written (c0 : Z) v (l : list Z) v' (new : list Z) (off : Z) (data : list Z) : Prop := {
  wr_length : length v' = length v;
  wr_bytes : bytes_ok v';
  wr_file : file_clusters v' c0 (l ++ new);
  wr_at q : off <= q < off + Z.of_nat (length data) ->
    file_at v' (l ++ new) q = data !! Z.to_nat (q - off);
  wr_keep q : 0 <= q < bpc * Z.of_nat (length l) -> ~ (off <= q < off + Z.of_nat (length data)) ->
    file_at v' (l ++ new) q = file_at v l q;
  wr_other x : 0 <= x -> ~ in_tables x -> (forall c, c ∈ l ++ new -> ~ in_cluster c x) ->
    v' !! Z.to_nat x = v !! Z.to_nat x;
  wr_entry c : in_fat table c -> c ∉ l ++ new -> entry table v' c = entry table v c;
  wr_free c : c ∈ free_list v' <-> c ∈ free_list v /\ c ∉ new;
  wr_new c : c ∈ new -> c ∈ free_list v
}.

Lemma file_at_app v (l new : list Z) (q : Z) :
  volume table v -> 0 <= q < bpc * Z.of_nat (length l) -> file_at v (l ++ new) q = file_at v l q.
Proof.
  intros Hv Hq. destruct (position_cluster v l q Hv Hq) as [c Hc]. unfold file_at.
  by rewrite lookup_app_l by (by eapply lookup_lt_Some).
Qed.

Lemma free_list_data_change v v' (c : Z) :
  volume table v -> data_change v v' -> (c ∈ free_list v' <-> c ∈ free_list v).
Proof.
  intros Hv Hch. rewrite !free_elem. unfold data_cluster. rewrite (dc_length _ _ Hch).
  split; intros (Hc & Hd & He); split_and!; try apply Hd; try done;
    rewrite (entry_data_change v v') in * by (done || apply Hd); done.
Qed.

(** Positions of a file are the places of its clusters. *)
Lemma position_split v (p q : Z) (k : Z) :
  volume table v -> 0 <= p -> 0 <= q -> 0 <= k <= bpc - p mod bpc -> q / bpc = p / bpc ->
  (p <= q < p + k <-> p mod bpc <= q mod bpc < p mod bpc + k).
Proof.
  intros Hv Hp Hq Hk Heq. destruct (bpc_ok v Hv) as [Hb _].
  pose proof (Z.div_mod p bpc ltac:(lia)). pose proof (Z.div_mod q bpc ltac:(lia)). rewrite Heq in *. lia.
Qed.

Lemma position_other v (p q : Z) (k : Z) :
  volume table v -> 0 <= p -> 0 <= q -> 0 <= k <= bpc - p mod bpc -> q / bpc <> p / bpc -> ~ (p <= q < p + k).
Proof.
  intros Hv Hp Hq Hk Hne [H1 H2]. apply Hne. destruct (bpc_ok v Hv) as [Hb _].
  pose proof (Z.div_mod p bpc ltac:(lia)). pose proof (Z.mod_pos_bound p bpc ltac:(lia)).
  symmetry. apply (Z.div_unique _ _ _ (q - bpc * (p / bpc))); lia.
Qed.

(** The volume with [chunk] at position [p], in cluster [c] of a file. *)
Definition put_chunk v (c p : Z) (chunk : list Z) : list Z :=
  list_inserts (Z.to_nat (location c + p mod bpc)) chunk v.

Section Chunk.
Context (v : list Z) (c0 : Z) (l : list Z) (c p : Z) (chunk : list Z).
Context (Hv : volume table v) (Hf : file_clusters v c0 l) (Hbk : bytes_ok chunk) (Hp : 0 <= p).
Context (Hc : l !! Z.to_nat (p / bpc) = Some c) (Hk : Z.of_nat (length chunk) <= bpc - p mod bpc).

Lemma chunk_place : 2 <= c /\ 0 <= location c /\ location c + bpc <= Z.of_nat (length v) /\ 0 <= p mod bpc < bpc.
Proof using Hv Hf Hc.
  clear Hk Hbk Hp. destruct (bpc_ok v Hv) as [Hb _]. pose proof (Z.mod_pos_bound p bpc ltac:(lia)).
  destruct (fl_data _ _ _ Hf c (list_elem_of_lookup_2 _ _ _ Hc)) as (Hc2 & _ & Hend).
  pose proof (vo_data _ _ Hv). pose proof (vo_start _ _ Hv). pose proof (vo_fat _ _ Hv). pose proof (vo_count _ _ Hv).
  unfold location in *. assert (0 <= bpc * (c - 2)) by nia. assert (0 <= fat_count table * bytes_per_fat table) by nia. lia.
Qed.

Lemma chunk_lookup (x : Z) : 0 <= x -> put_chunk v c p chunk !! Z.to_nat x =
  if decide (location c + p mod bpc <= x < location c + p mod bpc + Z.of_nat (length chunk))
  then chunk !! Z.to_nat (x - (location c + p mod bpc)) else v !! Z.to_nat x.
Proof.
  intros Hx. pose proof chunk_place. unfold put_chunk. rewrite lookup_inserts by lia.
  repeat case_decide; try lia; [f_equal; lia|done].
Qed.

Lemma chunk_outside (x : Z) : 0 <= x -> ~ in_cluster c x -> put_chunk v c p chunk !! Z.to_nat x = v !! Z.to_nat x.
Proof.
  intros Hx Hn. pose proof chunk_place. rewrite chunk_lookup, decide_False; [done| |done]. unfold in_cluster in Hn. lia.
Qed.

Lemma chunk_data_change : data_change v (put_chunk v c p chunk).
Proof.
  split; [apply length_inserts|apply bytes_ok_inserts; [apply Hv|done]|]. intros x Hx Ht.
  apply chunk_outside; [done|]. intros Hx'. by apply (cluster_not_table v c x Hv); [apply chunk_place|..].
Qed.

Lemma chunk_same_cluster (q : Z) : 0 <= q -> q / bpc = p / bpc -> file_at (put_chunk v c p chunk) l q =
  if decide (p <= q < p + Z.of_nat (length chunk)) then chunk !! Z.to_nat (q - p) else file_at v l q.
Proof.
  intros Hq Heq. pose proof chunk_place. unfold file_at. rewrite Heq, Hc. simpl.
  pose proof (Z.mod_pos_bound q bpc ltac:(lia)). rewrite chunk_lookup by lia.
  pose proof (position_split v p q (Z.of_nat (length chunk)) Hv Hp Hq ltac:(lia) Heq).
  pose proof (Z.div_mod p bpc ltac:(lia)). pose proof (Z.div_mod q bpc ltac:(lia)). rewrite Heq in *.
  repeat case_decide; try lia; [f_equal; lia|done].
Qed.

Lemma chunk_other_cluster (q : Z) : 0 <= q -> q / bpc <> p / bpc -> file_at (put_chunk v c p chunk) l q = file_at v l q.
Proof.
  intros Hq Hne. pose proof chunk_place. unfold file_at. destruct (l !! Z.to_nat (q / bpc)) as [c'|] eqn:Hc'; [|done]. simpl.
  pose proof (position_in_cluster v c' q Hv) as Hpos.
  destruct (fl_data _ _ _ Hf c' (list_elem_of_lookup_2 _ _ _ Hc')) as (Hc2' & _ & _).
  pose proof (vo_data _ _ Hv). pose proof (vo_start _ _ Hv). pose proof (vo_fat _ _ Hv). pose proof (vo_count _ _ Hv).
  destruct (bpc_ok v Hv) as [Hb _]. apply chunk_outside.
  { unfold in_cluster, location in *. assert (0 <= bpc * (c' - 2)) by nia.
    assert (0 <= fat_count table * bytes_per_fat table) by nia. lia. }
  intros Hx. assert (c' = c) as -> by (eapply clusters_disjoint; eassumption).
  apply Hne. pose proof (NoDup_lookup _ _ _ _ (fl_nodup _ _ _ Hf) Hc Hc').
  assert (0 <= q / bpc) by (apply Z.div_pos; lia). assert (0 <= p / bpc) by (apply Z.div_pos; lia). lia.
Qed.

Lemma chunk_written : written c0 v l (put_chunk v c p chunk) [] p chunk.
Proof.
  pose proof chunk_place. pose proof chunk_data_change as Hch. split; rewrite ?app_nil_r; try apply Hch.
  - by eapply file_data_change.
  - intros q Hq. rewrite chunk_same_cluster, decide_True; [done|lia..|]. destruct (decide (q / bpc = p / bpc)); [done|].
    exfalso. apply (position_other v p q (Z.of_nat (length chunk))); (done || lia).
  - intros q Hq Hnq. destruct (decide (q / bpc = p / bpc)) as [Heq|Hne].
    + by rewrite chunk_same_cluster, decide_False by lia.
    + apply chunk_other_cluster; [lia|done].
  - intros x Hx Hnt Hnc. apply chunk_outside; [done|]. apply Hnc. by eapply list_elem_of_lookup_2.
  - intros x Hx _. by eapply entry_data_change.
  - intros x. rewrite (free_list_data_change v _ x Hv Hch).
    split; [intros; split; [done|apply not_elem_of_nil]|by intros [? _]].
  - by intros x ?%elem_of_nil.
Qed.
End Chunk.

Lemma write_chunk (n : Z) d v (c0 : Z) (l : list Z) (c p : Z) (chunk : list Z) :
  rep n d v -> volume table v -> file_clusters v c0 l -> bytes_ok chunk -> 0 <= p ->
  l !! Z.to_nat (p / bpc) = Some c -> Z.of_nat (length chunk) <= bpc - p mod bpc ->
  access_cost (length chunk) <= n ->
  exists d' v', write_bytes_to_disk d (u32 (get_cluster_location table c + p mod bpc)) chunk = Some d' /\
    rep (n - access_cost (length chunk)) d' v' /\ written c0 v l v' [] p chunk.
Proof.
  intros Hr Hv Hf Hbk Hp Hc Hk Hn. pose proof (rep_size _ _ _ Hr) as Hs.
  pose proof (fl_data _ _ _ Hf c (list_elem_of_lookup_2 _ _ _ Hc)) as Hdc.
  destruct (location_ok v c Hv Hs Hdc) as [-> _].
  pose proof (chunk_place v c0 l c p Hv Hf Hc) as (_ & Hl0 & Hle & Hm).
  assert (u32 (location c + p mod bpc) = location c + p mod bpc) as -> by (unfold u32; apply Z.mod_small; lia).
  destruct (write_law n d v (location c + p mod bpc) chunk) as (d' & -> & Hr'); [done|lia|lia|done|].
  exists d', (put_chunk v c p chunk). split; [done|]. split; [done|]. by apply chunk_written.
Qed.

Lemma written_grown (c0 : Z) v v1 v2 (l new new2 data : list Z) (off : Z) :
  volume table v -> (forall c, c ∈ l -> data_cluster v c) ->
  grown v l v1 new -> written c0 v1 (l ++ new) v2 new2 off data -> written c0 v l v2 (new ++ new2) off data.
Proof.
  intros Hv Hd Hg Hw. pose proof (gr_change _ _ _ _ Hg) as Hch. destruct Hw as [Hl Hb Hf2 Hat Hk Ho He Hfr Hn2].
  rewrite <- app_assoc in *. assert (volume table v1) as Hv1 by (eapply volume_change; [done|apply Hch..]).
  split; try done.
  - rewrite Hl. apply Hch.
  - intros q Hq Hn. destruct (bpc_ok v Hv) as [Hbp _].
    rewrite Hk; [|rewrite length_app; nia|done]. rewrite file_at_app by done.
    by apply file_at_fat_change; [..|lia].
  - intros x Hx Hnt Hnc. rewrite Ho by done. by apply Hch.
  - intros c Hc Hn. rewrite He by done. rewrite !elem_of_app in Hn. apply Hg; tauto.
  - intros c. rewrite Hfr, (gr_free _ _ _ _ Hg), elem_of_app. tauto.
  - intros c [Hc|Hc]%elem_of_app; [by apply (gr_new _ _ _ _ Hg)|]. by apply (gr_free _ _ _ _ Hg), Hn2.
Qed.

Lemma written_twice (c0 : Z) v v1 v2 (l new1 new2 a b : list Z) (off : Z) :
  volume table v1 -> off + Z.of_nat (length a) <= bpc * Z.of_nat (length (l ++ new1)) -> 0 <= off ->
  written c0 v l v1 new1 off a -> written c0 v1 (l ++ new1) v2 new2 (off + Z.of_nat (length a)) b ->
  written c0 v l v2 (new1 ++ new2) off (a ++ b).
Proof.
  intros Hv1 Hcap Hoff [Hl1 Hb1 Hf1 Hat1 Hk1 Ho1 He1 Hfr1 Hn1] [Hl2 Hb2 Hf2 Hat2 Hk2 Ho2 He2 Hfr2 Hn2].
  rewrite <- app_assoc in *. split; try done.
  - congruence.
  - intros q Hq. rewrite length_app in Hq. destruct (decide (q < off + Z.of_nat (length a))).
    + rewrite Hk2, Hat1, lookup_app_l by lia. done.
    + rewrite Hat2, lookup_app_r by lia. f_equal. lia.
  - intros q Hq Hnq. rewrite length_app in Hnq. destruct (bpc_ok v1 Hv1) as [Hbp _].
    rewrite Hk2; [apply Hk1; lia| |lia]. rewrite length_app. nia.
  - intros x Hx Hnt Hnc. rewrite Ho2 by done. apply Ho1; [done..|]. intros c Hc. apply Hnc.
    clear -Hc. set_solver.
  - intros c Hc Hn. rewrite !elem_of_app in Hn. rewrite He2, He1; [done|done|rewrite elem_of_app; tauto|done|].
    rewrite !elem_of_app. tauto.
  - intros c. rewrite Hfr2, Hfr1, elem_of_app. tauto.
  - intros c [Hc|Hc]%elem_of_app; [by apply Hn1|]. by apply Hfr1, Hn2.
Qed.

(** The number of clusters a file needs to reach [e] bytes, beyond [k]. *)
Definition missing (e : Z) (k : nat) : Z := Z.max 0 ((e - 1) / bpc + 1 - Z.of_nat k).

Lemma written_nil (c0 : Z) v (l : list Z) (off : Z) :
  volume table v -> file_clusters v c0 l -> written c0 v l v [] off [].
Proof.
  intros Hv Hf. split; rewrite ?app_nil_r; try done; [apply Hv|simpl; lia|..|by intros ? ?%elem_of_nil].
  intros c. pose proof (not_elem_of_nil c). tauto.
Qed.

Lemma written_volume (c0 : Z) v (l : list Z) v' (new : list Z) (off : Z) (data : list Z) :
  volume table v -> scan_fits table v -> written c0 v l v' new off data -> volume table v' /\ scan_fits table v'.
Proof.
  intros Hv Hs Hw. pose proof (wr_length _ _ _ _ _ _ _ Hw) as Hl. split.
  - eapply volume_change; [done|done|apply Hw].
  - unfold scan_fits in *. by rewrite Hl.
Qed.

(** One round of the loop: grow the chain to hold position [off], then copy. *)
Lemma write_round (n : Z) d v (c0 : Z) (l chunk : list Z) (off : Z) :
  rep n d v -> volume table v -> scan_fits table v -> file_clusters v c0 l -> l <> [] -> bytes_ok chunk -> 0 <= off ->
  let k := Z.max 0 (off / bpc + 1 - Z.of_nat (length l)) in
  (1 <= length chunk)%nat -> Z.of_nat (length chunk) <= bpc - off mod bpc ->
  k <= Z.of_nat (length (free_list v)) -> 3 * Z.of_nat (length chunk) + link_cost * k <= n ->
  exists new d1 d2 v2 c, File.extend (S (Z.to_nat (off / bpc))) table (off / bpc) l d = Some (true, l ++ new, d1) /\
    (l ++ new) !! Z.to_nat (off / bpc) = Some c /\
    write_bytes_to_disk d1 (u32 (get_cluster_location table c + off mod bpc)) chunk = Some d2 /\
    rep (n - (3 * Z.of_nat (length chunk) + link_cost * k)) d2 v2 /\ Z.of_nat (length new) = k /\
    written c0 v l v2 new off chunk.
Proof.
  intros Hr Hv Hsc Hf Hne Hbk Hoff k Hc1 Hcl Hfree Hn. destruct (bpc_ok v Hv) as [Hb _].
  assert (0 <= off / bpc) by (apply Z.div_pos; lia). pose proof (chunk_cost _ Hc1) as Hcost.
  assert (1 <= Z.of_nat (length l)) by (destruct l; [done|simpl; lia]).
  destruct (extend_ok (S (Z.to_nat (off / bpc))) n (off / bpc) d v c0 l)
    as (new & d1 & v1 & Hext & Hr1 & Hlen & Hf1 & Hg); [done..|lia|lia|].
  assert (volume table v1) as Hv1 by (eapply volume_change; [done|apply Hg..]).
  destruct (lookup_lt_is_Some_2 (l ++ new) (Z.to_nat (off / bpc))) as [c Hc]; [rewrite length_app; lia|].
  destruct (write_chunk _ d1 v1 c0 (l ++ new) c off chunk Hr1) as (d2 & v2 & Hw & Hr2 & Hwr); [done..|lia|].
  exists new, d1, d2, v2, c. split_and!; try done.
  - eapply rep_weaken; [done|lia].
  - rewrite <- (app_nil_r new). eapply written_grown; [done|apply Hf|done|done].
Qed.

Lemma missing_step v (off rem : Z) (a : Z) (k : nat) :
  volume table v -> 0 <= off -> 1 <= rem -> a = Z.min rem (bpc - off mod bpc) ->
  let k1 := Z.max 0 (off / bpc + 1 - Z.of_nat k) in
  1 <= a /\ k1 <= missing (off + rem) k /\ off + a <= bpc * (Z.of_nat k + k1) /\
  (a < rem -> missing (off + rem) (k + Z.to_nat k1) = missing (off + rem) k - k1).
Proof.
  intros Hv Hoff Hrem -> k1. destruct (bpc_ok v Hv) as [Hb _]. pose proof (Z.mod_pos_bound off bpc ltac:(lia)).
  pose proof (Z.div_mod off bpc ltac:(lia)) as Hdm.
  assert (off / bpc <= (off + rem - 1) / bpc) by (apply Z.div_le_mono; lia).
  unfold missing. split_and!; [lia|lia| |lia].
  assert (off / bpc + 1 <= Z.of_nat k + k1) by lia.
  assert (bpc * (off / bpc + 1) <= bpc * (Z.of_nat k + k1)) by nia. lia.
Qed.

#[local] Arguments File.extend : simpl never.

(** The clusters still missing when [bw] of the bytes are written. *)
Definition still_missing (data : list Z) (off : Z) (bw : nat) (l : list Z) : Z :=
  if decide (bw < length data)%nat then missing (off + Z.of_nat (length data - bw)) (length l) else 0.

Lemma free_length_written (c0 : Z) v (l : list Z) v' (new : list Z) (off : Z) (data : list Z) :
  NoDup new -> written c0 v l v' new off data -> (length (free_list v') + length new = length (free_list v))%nat.
Proof.
  intros Hd Hw. rewrite <- length_app. apply Permutation_length, NoDup_Permutation.
  - apply NoDup_app. split; [apply free_nodup|]. split; [|done]. intros c Hc.
    by apply (wr_free _ _ _ _ _ _ _ Hw) in Hc as [_ ?].
  - apply free_nodup.
  - intros c. rewrite elem_of_app, (wr_free _ _ _ _ _ _ _ Hw). split; [intros [[]|Hc]; [done|by apply (wr_new _ _ _ _ _ _ _ Hw)]|].
    intros Hc. destruct (decide (c ∈ new)); auto.
Qed.

Lemma written_new_nodup (c0 : Z) v (l : list Z) v' (new : list Z) (off : Z) (data : list Z) :
  written c0 v l v' new off data -> NoDup new.
Proof. intros Hw. pose proof (fl_nodup _ _ _ (wr_file _ _ _ _ _ _ _ Hw)) as Hn. by apply NoDup_app in Hn as (_ & _ & ?). Qed.

Lemma link_cost_pos v : volume table v -> 0 <= link_cost.
Proof. intros Hv. pose proof (vo_count _ _ Hv). unfold link_cost, allocate_cost. lia. Qed.

Lemma file_write_loop_ok (fuel : nat) (n : Z) d v (c0 : Z) (l data : list Z) (off : Z) (bw : nat) :
  rep n d v -> volume table v -> scan_fits table v -> file_clusters v c0 l -> l <> [] -> bytes_ok data -> 0 <= off ->
  (bw <= length data)%nat -> off + Z.of_nat (length data - bw) < 2 ^ 32 ->
  still_missing data off bw l <= Z.of_nat (length (free_list v)) -> (length data - bw < fuel)%nat ->
  3 * Z.of_nat (length data - bw) + link_cost * still_missing data off bw l <= n ->
  exists new d' v', File.write_loop fuel table data off bw l d = Some (true, length data, l ++ new, d') /\
    rep (n - (3 * Z.of_nat (length data - bw) + link_cost * still_missing data off bw l)) d' v' /\
    written c0 v l v' new off (drop bw data).
Proof.
  revert n d v l off bw.
  induction fuel as [|fuel IH]; intros n d v l off bw Hr Hv Hsc Hf Hne Hbd Hoff Hbw Hw Hfree Hfuel Hn; [lia|].
  unfold still_missing in *. simpl. destruct (decide (length data <= bw)%nat) as [Hdone|Hmore].
  { assert (bw = length data) as -> by lia. exists [], d, v. rewrite app_nil_r, drop_ge by lia.
    split; [done|]. split; [|by apply written_nil]. rewrite decide_False in * by lia. eapply rep_weaken; [done|lia]. }
  rewrite decide_True in * by lia. destruct (bpc_ok v Hv) as [Hb ->]. rewrite (proj2 (Z.eqb_neq _ _)) by lia.
  pose proof (Z.mod_pos_bound off bpc ltac:(lia)) as Hmod. pose proof (link_cost_pos v Hv) as Hlc.
  set (a := Nat.min (length data - bw) (Z.to_nat (bpc - off mod bpc))). set (chunk := take a (drop bw data)).
  assert (length chunk = a) as Hcl by (unfold chunk; rewrite length_take, length_drop; lia).
  destruct (missing_step v off (Z.of_nat (length data - bw)) (Z.of_nat a) (length l)) as (Ha1 & Hk1 & Hcap & Hk2); [done|done|lia|lia|].
  destruct (write_round n d v c0 l chunk off) as (new & d1 & d2 & v2 & c & -> & Hc & Hwr & Hr2 & Hlen & Hw2);
    [done..|by apply Forall_take, Forall_drop|done|lia|rewrite Hcl; lia|lia|rewrite Hcl; nia|].
  set (k1 := Z.max 0 (off / bpc + 1 - Z.of_nat (length l))) in *.
  rewrite Hc. simpl. rewrite slice_ok by lia. simpl. fold chunk. rewrite Hwr. simpl.
  destruct (written_volume _ _ _ _ _ _ _ Hv Hsc Hw2) as [Hv2 Hsc2].
  assert (u32 (off + Z.of_nat a) = off + Z.of_nat a) as -> by (apply Z.mod_small; lia).
  pose proof (free_length_written _ _ _ _ _ _ _ (written_new_nodup _ _ _ _ _ _ _ Hw2) Hw2) as Hfl.
  set (k := missing (off + Z.of_nat (length data - bw)) (length l)) in *.
  assert ((if decide (bw + a < length data)%nat
    then missing (off + Z.of_nat a + Z.of_nat (length data - (bw + a))) (length (l ++ new)) else 0) <= k - k1) as Hk'.
  { case_decide; [|lia]. rewrite length_app. replace (length new) with (Z.to_nat k1) by lia.
    replace (off + Z.of_nat a + _) with (off + Z.of_nat (length data - bw)) by lia. rewrite Hk2 by lia. done. }
  rewrite Hcl in *. assert (link_cost * k1 + link_cost * (k - k1) = link_cost * k) by lia.
  destruct (IH (n - (3 * Z.of_nat a + link_cost * k1)) d2 v2 (l ++ new) (off + Z.of_nat a) (bw + a)%nat)
    as (new' & d' & v' & -> & Hr' & Hw'); [done|done|done|apply Hw2|by destruct l|done|lia..| |].
  { set (kk := if decide _ then _ else _) in *. assert (link_cost * kk <= link_cost * (k - k1)) by nia. lia. }
  exists (new ++ new'), d', v'. rewrite <- app_assoc. split; [done|]. split.
  - eapply rep_weaken; [done|]. set (kk := if decide _ then _ else _) in *.
    assert (link_cost * kk <= link_cost * (k - k1)) by nia. lia.
  - replace (drop bw data) with (chunk ++ drop (bw + a) data) by (unfold chunk; by rewrite <- drop_drop, take_drop).
    apply (written_twice c0 v v2 v' l new new'); [done| |done|done|by rewrite Hcl].
    rewrite Hcl, length_app. lia.
Qed.

(** ** The directory entry *)

(** The 32 bytes of the directory entry lie outside the tables, the clusters
    of the file and the free clusters. *)
Record entry_place v (l : list Z) (o : Z) : Prop := {
  ep_range : 0 <= o /\ o + 32 <= Z.of_nat (length v);
  ep_tables x : o <= x < o + 32 -> ~ in_tables x;
  ep_clusters c x : c ∈ l \/ c ∈ free_list v -> o <= x < o + 32 -> ~ in_cluster c x
}.

Lemma put_entry_written (c0 : Z) v v' (l new data : list Z) (off o : Z) (e : DirEntry.t) :
  volume table v -> entry_place v l o -> FatEntryFacts.entry_wf e -> written c0 v l v' new off data ->
  let v'' := list_inserts (Z.to_nat o) (DirEntry.to_bytes e) v' in
  bytes_ok v'' /\ length v'' = length v /\ file_clusters v'' c0 (l ++ new) /\
  (forall q, 0 <= q -> file_at v'' (l ++ new) q = file_at v' (l ++ new) q) /\
  (forall c, in_fat table c -> entry table v'' c = entry table v' c) /\
  (forall x, 0 <= x -> ~ (o <= x < o + 32) -> v'' !! Z.to_nat x = v' !! Z.to_nat x) /\
  DirEntry.of_bytes (take 32 (drop (Z.to_nat o) v'')) = e.
Proof.
  intros Hv [[Ho Hoe] Hot Hoc] Hwf Hw v''. pose proof (FatEntryFacts.to_bytes_length e Hwf) as Hlen. unfold DirEntry.SIZE in Hlen.
  pose proof (wr_length _ _ _ _ _ _ _ Hw) as Hl.
  assert (forall x, 0 <= x -> ~ (o <= x < o + 32) -> v'' !! Z.to_nat x = v' !! Z.to_nat x) as Hout.
  { intros x Hx Hn. unfold v''. rewrite lookup_inserts, decide_False by lia. done. }
  assert (volume table v') as Hv' by (eapply volume_change; [done|done|apply Hw]).
  assert (bytes_ok v'') as Hb by (apply bytes_ok_inserts; [apply Hw|by apply FatEntryFacts.to_bytes_bytes]).
  assert (data_change v' v'') as Hch.
  { split; [apply length_inserts|done|]. intros x Hx Ht. apply Hout; [done|]. intros Hr. by apply (Hot x). }
  split; [done|]. split; [unfold v''; by rewrite length_inserts|]. split; [eapply file_data_change; [done|done|apply Hw]|].
  split_and!.
  - intros q Hq. unfold file_at. destruct ((l ++ new) !! Z.to_nat (q / bpc)) as [c|] eqn:Hc; [|done]. simpl.
    pose proof (position_in_cluster v c q Hv) as Hpos. pose proof (list_elem_of_lookup_2 _ _ _ Hc) as Hcl.
    assert (c ∈ l \/ c ∈ free_list v) as Hcf.
    { apply elem_of_app in Hcl as [|Hn]; [by left|right]. by apply (wr_new _ _ _ _ _ _ _ Hw). }
    destruct (fl_data _ _ _ (wr_file _ _ _ _ _ _ _ Hw) c Hcl) as (Hc2 & _ & _).
    apply Hout; [|intros Hr; by apply (Hoc c _ Hcf Hr)].
    destruct (bpc_ok v Hv) as [Hb' _]. pose proof (vo_data _ _ Hv). pose proof (vo_start _ _ Hv).
    pose proof (vo_fat _ _ Hv). pose proof (vo_count _ _ Hv). unfold in_cluster, location in *.
    assert (0 <= bpc * (c - 2)) by nia. assert (0 <= fat_count table * bytes_per_fat table) by nia. lia.
  - intros c Hc. by eapply entry_data_change.
  - done.
  - transitivity (DirEntry.of_bytes (DirEntry.to_bytes e)); [|by apply FatEntryFacts.of_to_bytes]. f_equal. apply list_eq. intros i. rewrite lookup_sub.
    case_decide; [|symmetry; apply lookup_ge_None; lia]. unfold v''. rewrite lookup_inserts, decide_True by lia. f_equal. lia.
Qed.

(** ** [write] *)

(** A file that is ready for a write: it has a chain, or it is empty and takes
    its first cluster. *)
Definition writable v (f : File.t) (l : list Z) : Prop :=
  file_ok v f l \/
  (l = [] /\ File.cluster_cache f = [] /\ File.first_cluster f = 0 /\ File.byte_size f = 0).

Definition prepare_cost (l : list Z) : Z := 2 * Z.of_nat (length l) + allocate_cost table.

Lemma missing_pos v (e : Z) : volume table v -> 1 <= e -> 1 <= missing e 0.
Proof.
  intros Hv He. destruct (bpc_ok v Hv) as [Hb _]. unfold missing.
  assert (0 <= (e - 1) / bpc) by (apply Z.div_pos; lia). lia.
Qed.

Lemma prepare_ok (fuel : nat) (n : Z) d v (f : File.t) (l : list Z) :
  rep n d v -> volume table v -> scan_fits table v -> writable v f l -> (length l <= fuel)%nat ->
  (l = [] -> free_list v <> []) -> prepare_cost l <= n ->
  exists new f1 d1 v1, File.prepare fuel f table d = Some (true, f1, d1) /\ rep (n - prepare_cost l) d1 v1 /\
    File.cluster_cache f1 = l ++ new /\ l ++ new <> [] /\
    file_clusters v1 (File.first_cluster f1) (l ++ new) /\ File.first_cluster f1 <> 0xfff /\
    grown v l v1 new /\ Z.of_nat (length new) = (if decide (l = []) then 1 else 0) /\
    File.dir_entry_disk_offset f1 = File.dir_entry_disk_offset f /\
    (l <> [] -> File.dir_entry f1 = File.dir_entry f) /\
    (l = [] -> is_u16 (File.first_cluster f1) /\
       File.dir_entry f1 = DirEntry.set_first_cluster (File.dir_entry f) (File.first_cluster f1)).
Proof.
  intros Hr Hv Hsc Hw Hfuel Hfree Hn. pose proof (vo_count _ _ Hv). unfold File.prepare, prepare_cost, allocate_cost in *.
  destruct Hw as [Hf|(-> & Hcache & Hfirst & Hsize)].
  - pose proof (file_nonempty _ _ _ Hf) as Hne. rewrite (decide_False (P := l = [])) by done.
    assert (File.first_cluster f <> 0) as Hnz.
    { destruct (fo_clusters _ _ _ Hf) as [Hch _ Hd]. destruct (chain_head _ _ _ _ Hch) as [l' ->].
      destruct (Hd (File.first_cluster f)) as (? & _); [left|lia]. }
    destruct (load_cache fuel n d v f l) as (d1 & Hload & Hr1); [done..|lia|].
    assert ((if decide (File.cluster_cache f = [] /\ File.first_cluster f <> 0)
      then File.cache_cluster_chain fuel f table (File.first_cluster f) d else Some (f, d)) =
      Some (File.with_cache f l, d1)) as ->.
    { rewrite <- Hload. repeat case_decide; try done; naive_solver. }
    simpl. rewrite decide_False by done. exists [], (File.with_cache f l), d1, v. rewrite app_nil_r.
    split_and!; try done; [eapply rep_weaken; [done|lia]|apply Hf|apply Hf|apply grown_refl, Hv].
  - rewrite decide_False by naive_solver. simpl. rewrite decide_True by done.
    destruct (take_free n d v) as (c & d1 & v1 & -> & Hr1 & Hcf & Hs1); [done|done|done|by apply Hfree|unfold allocate_cost; lia|].
    simpl. pose proof (proj1 (free_elem _ _) Hcf) as (Hclt & Hdc & Hec). pose proof Hdc as (Hc2 & Hcin & _).
    assert (u16 c = c) as -> by (apply Z.mod_small; lia).
    pose proof (fat_set_change _ _ _ _ Hs1) as Hch.
    eexists [c], _, d1, v1. split; [done|]. simpl. change (File.first_cluster _) with c.
    split_and!; try done; try lia.
    + split; [|apply NoDup_singleton|].
      * apply chain_last. by rewrite (fat_set_entry table v v1 c 0xfff), decide_True by done.
      * intros x ->%list_elem_of_singleton. eapply data_cluster_length; [apply Hch|done].
    + split; [done| |by intros x ->%list_elem_of_singleton|apply NoDup_singleton|].
      * intros x. rewrite list_elem_of_singleton, !free_elem. pose proof (fc_length _ _ Hch) as Hlen.
        assert (data_cluster v1 x <-> data_cluster v x) as -> by (unfold data_cluster; by rewrite Hlen).
        split; [intros (Hx & Hdx & Hex)|intros [(Hx & Hdx & Hex) Hxc]];
          rewrite (fat_set_entry table v v1 c 0xfff) in * by (done || apply Hdx); case_decide; (done || lia).
      * intros x Hx _ Hxc. rewrite list_elem_of_singleton in Hxc. by rewrite (fat_set_entry table v v1 c 0xfff), decide_False by done.
    + intros _. split; [unfold is_u16; lia|done].
Qed.

(** The directory entry on the disk is the one the file holds. *)
Definition synced v (f : File.t) : Prop :=
  DirEntry.of_bytes (take 32 (drop (Z.to_nat (File.dir_entry_disk_offset f)) v)) = File.dir_entry f.

Record write_post v (f : File.t) (l : list Z) v' (f' : File.t) (new : list Z) (off : Z) (data : list Z) : Prop := {
  wp_file : file_ok v' f' (l ++ new);
  wp_size : File.byte_size f' = Z.max (File.byte_size f) (off + Z.of_nat (length data));
  wp_at q : off <= q < off + Z.of_nat (length data) -> file_at v' (l ++ new) q = data !! Z.to_nat (q - off);
  wp_keep q : 0 <= q < File.byte_size f -> ~ (off <= q < off + Z.of_nat (length data)) ->
    file_at v' (l ++ new) q = file_at v l q;
  wp_new c : c ∈ new -> c ∈ free_list v;
  wp_entry c : in_fat table c -> c ∉ l ++ new -> entry table v' c = entry table v c;
  wp_other x : 0 <= x -> ~ in_tables x -> (forall c, c ∈ l ++ new -> ~ in_cluster c x) ->
    ~ (File.dir_entry_disk_offset f <= x < File.dir_entry_disk_offset f + 32) ->
    v' !! Z.to_nat x = v !! Z.to_nat x;
  wp_volume : volume table v' /\ length v' = length v;
  wp_synced : synced v' f'
}.

Lemma writable_size v (f : File.t) (l : list Z) :
  writable v f l -> 0 <= File.byte_size f <= bpc * Z.of_nat (length l).
Proof. intros [Hf|(-> & _ & _ & ->)]; [apply Hf|simpl; lia]. Qed.

(** The chain reaches the end of the data. *)
Lemma written_capacity (c0 : Z) v (l : list Z) v' (new : list Z) (off : Z) (data : list Z) :
  volume table v -> data <> [] -> 0 <= off -> written c0 v l v' new off data ->
  off + Z.of_nat (length data) <= bpc * Z.of_nat (length (l ++ new)).
Proof.
  intros Hv Hne Hoff Hw. destruct (bpc_ok v Hv) as [Hb _].
  assert (0 < length data)%nat by (destruct data; [done|simpl; lia]).
  set (q := off + Z.of_nat (length data) - 1).
  pose proof (wr_at _ _ _ _ _ _ _ Hw q ltac:(unfold q; lia)) as Hq. unfold file_at in Hq.
  destruct (lookup_lt_is_Some_2 data (Z.to_nat (q - off))) as [b Hb']; [unfold q; lia|]. rewrite Hb' in Hq.
  destruct ((l ++ new) !! Z.to_nat (q / bpc)) as [c|] eqn:Hc; [|done]. apply lookup_lt_Some in Hc.
  assert (0 <= q / bpc) by (apply Z.div_pos; unfold q; lia). pose proof (Z.div_mod q bpc ltac:(lia)).
  pose proof (Z.mod_pos_bound q bpc ltac:(lia)).
  assert (bpc * (q / bpc + 1) <= bpc * Z.of_nat (length (l ++ new))) by nia. unfold q in *. lia.
Qed.

Lemma synced_same v v' (f : File.t) (o : Z) :
  o = File.dir_entry_disk_offset f -> 0 <= o -> o + 32 <= Z.of_nat (length v) -> length v' = length v ->
  (forall x, o <= x < o + 32 -> v' !! Z.to_nat x = v !! Z.to_nat x) -> synced v f -> synced v' f.
Proof.
  intros -> Ho Hoe Hl Hx Hs. unfold synced. rewrite <- Hs. f_equal. apply list_eq. intros i. rewrite !lookup_sub.
  case_decide; [|done]. specialize (Hx (File.dir_entry_disk_offset f + Z.of_nat i) ltac:(lia)).
  by replace (Z.to_nat (File.dir_entry_disk_offset f + Z.of_nat i))
    with (Z.to_nat (File.dir_entry_disk_offset f) + i)%nat in Hx by lia.
Qed.

Definition write_cost (l : list Z) (off : Z) (len : nat) : Z :=
  prepare_cost l + 3 * Z.of_nat len + link_cost * missing (off + Z.of_nat len) (length l) + 2.

(** What the loop leaves behind is what [write] promises, whether or not the
    directory entry is written. *)
Lemma write_post_keep v (f f1 : File.t) (l new data : list Z) v' (off : Z) :
  volume table v -> writable v f l -> data <> [] -> 0 <= off -> File.first_cluster f1 <> 0xfff ->
  entry_place v l (File.dir_entry_disk_offset f) ->
  written (File.first_cluster f1) v l v' new off data -> File.dir_entry f1 = File.dir_entry f ->
  File.dir_entry_disk_offset f1 = File.dir_entry_disk_offset f ->
  File.cluster_cache f1 = l ++ new -> off + Z.of_nat (length data) <= File.byte_size f -> synced v f ->
  write_post v f l v' f1 new off data.
Proof.
  intros Hv Hwf Hne Hoff Hfc [[Ho Hoe] Hot Hoc] Hw Hde Hdo Hcc Hsz Hsy. pose proof (writable_size _ _ _ Hwf) as Hcap.
  destruct (bpc_ok v Hv) as [Hb _]. assert (File.byte_size f1 = File.byte_size f) as Hbs by (unfold File.byte_size; by rewrite Hde).
  split; try apply Hw.
  - split; [apply Hw|done|by left|]. rewrite Hbs, length_app. nia.
  - rewrite Hbs. lia.
  - intros q Hq Hn. apply (wr_keep _ _ _ _ _ _ _ Hw); [lia|done].
  - intros x Hx Hnt Hnc _. by apply (wr_other _ _ _ _ _ _ _ Hw).
  - split; [eapply volume_change; [done|apply Hw..]|apply Hw].
  - unfold synced. rewrite Hde, Hdo. change (synced v' f).
    apply (synced_same v v' f (File.dir_entry_disk_offset f)); [done|lia|lia|apply Hw| |done]. intros x Hx.
    apply (wr_other _ _ _ _ _ _ _ Hw); [lia|by apply Hot|]. intros c Hc. apply Hoc; [|done].
    apply elem_of_app in Hc as [|Hc]; [by left|right]. by apply (wr_new _ _ _ _ _ _ _ Hw).
Qed.

Lemma write_post_grow v (f f1 : File.t) (l new data : list Z) v' (off : Z) :
  volume table v -> writable v f l -> data <> [] -> 0 <= off -> File.first_cluster f1 <> 0xfff ->
  let o := File.dir_entry_disk_offset f in
  let e := DirEntry.set_size (File.dir_entry f1) (off + Z.of_nat (length data)) in
  entry_place v l o -> written (File.first_cluster f1) v l v' new off data -> FatEntryFacts.entry_wf e ->
  File.dir_entry_disk_offset f1 = o ->
  File.cluster_cache f1 = l ++ new -> File.byte_size f < off + Z.of_nat (length data) ->
  write_post v f l (list_inserts (Z.to_nat o) (DirEntry.to_bytes e) v') (File.with_entry f1 e) new off data.
Proof.
  intros Hv Hwf Hne Hoff Hfc o e Hep Hw He Hdo Hcc Hsz. pose proof (writable_size _ _ _ Hwf) as Hcap.
  destruct (put_entry_written _ _ _ _ _ _ _ _ _ Hv Hep He Hw) as (Hb & Hl & Hf & Hat & Hen & Hout & Hdec).
  pose proof (written_capacity _ _ _ _ _ _ _ Hv Hne Hoff Hw). destruct (bpc_ok v Hv) as [Hbp _].
  split; try apply Hw.
  - split; [exact Hf|exact Hfc|by left|]. change (File.byte_size _) with (off + Z.of_nat (length data)). lia.
  - change (File.byte_size (File.with_entry f1 e)) with (off + Z.of_nat (length data)). lia.
  - intros q Hq. rewrite Hat by lia. by apply (wr_at _ _ _ _ _ _ _ Hw).
  - intros q Hq Hn. rewrite Hat by lia. apply (wr_keep _ _ _ _ _ _ _ Hw); [lia|done].
  - intros c Hc Hn. rewrite Hen by done. by apply (wr_entry _ _ _ _ _ _ _ Hw).
  - intros x Hx Hnt Hnc Hno. rewrite Hout by done. by apply (wr_other _ _ _ _ _ _ _ Hw).
  - split; [by eapply volume_change|done].
  - unfold synced. change (File.dir_entry_disk_offset _) with (File.dir_entry_disk_offset f1). by rewrite Hdo.
Qed.

Lemma entry_wf_set_size (e : DirEntry.t) (s : Z) :
  FatEntryFacts.entry_wf e -> is_u32 s -> FatEntryFacts.entry_wf (DirEntry.set_size e s).
Proof. intros [] Hs. by split. Qed.

Lemma entry_wf_set_first (e : DirEntry.t) (c : Z) :
  FatEntryFacts.entry_wf e -> is_u16 c -> FatEntryFacts.entry_wf (DirEntry.set_first_cluster e c).
Proof. intros [? ? ? ? ? (? & ? & ? & ? & ? & ? & ?) ?] Hc. by split. Qed.

(** The clusters missing once the first one has been taken. *)
Lemma missing_first (e : Z) (l new : list Z) v :
  volume table v -> 1 <= e -> Z.of_nat (length new) = (if decide (l = []) then 1 else 0) ->
  missing e (length (l ++ new)) + Z.of_nat (length new) = missing e (length l).
Proof.
  intros Hv He Hn. rewrite length_app. case_decide as Hl.
  - subst l. pose proof (missing_pos v e Hv He). unfold missing in *. simpl. lia.
  - replace (length l + length new)%nat with (length l) by lia. lia.
Qed.

(** The chain is prepared and the bytes are in the clusters. *)
Lemma write_data_ok (fuel : nat) (n : Z) d v (f : File.t) (l data : list Z) (off : Z) :
  rep n d v -> volume table v -> scan_fits table v -> writable v f l -> (length l <= fuel)%nat ->
  bytes_ok data -> data <> [] -> 0 <= off -> off + Z.of_nat (length data) < 2 ^ 32 ->
  missing (off + Z.of_nat (length data)) (length l) <= Z.of_nat (length (free_list v)) ->
  write_cost l off (length data) <= n ->
  exists f1 d1 d2 v2 new, File.prepare fuel f table d = Some (true, f1, d1) /\
    File.write_loop (S (length data)) table data off 0 (File.cluster_cache f1) d1 =
      Some (true, length data, l ++ new, d2) /\
    rep (n - (write_cost l off (length data) - 2)) d2 v2 /\
    written (File.first_cluster f1) v l v2 new off data /\ File.first_cluster f1 <> 0xfff /\
    File.dir_entry_disk_offset f1 = File.dir_entry_disk_offset f /\
    (l <> [] -> File.dir_entry f1 = File.dir_entry f) /\
    (l = [] -> is_u16 (File.first_cluster f1) /\
       File.dir_entry f1 = DirEntry.set_first_cluster (File.dir_entry f) (File.first_cluster f1)).
Proof.
  intros Hr Hv Hsc Hwf Hfuel Hbd Hne Hoff Hend Hfree Hn.
  assert (0 < length data)%nat as Hlen by (destruct data; [done|simpl; lia]).
  unfold write_cost in *. set (m := missing (off + Z.of_nat (length data)) (length l)) in *.
  pose proof (link_cost_pos v Hv) as Hlc. assert (0 <= m) by (unfold m, missing; lia). assert (0 <= link_cost * m) by nia.
  destruct (prepare_ok fuel n d v f l) as
    (new1 & f1 & d1 & v1 & Hprep & Hr1 & Hcc & Hne1 & Hf1 & Hfc & Hg & Hln & Hdo & Hde & Hdf); [done..| |lia|].
  { intros ->. intros E. rewrite E in Hfree. pose proof (missing_pos v (off + Z.of_nat (length data)) Hv). simpl in *. lia. }
  pose proof (missing_first (off + Z.of_nat (length data)) l new1 v Hv ltac:(lia) Hln) as Hmiss. fold m in Hmiss.
  pose proof (free_length_grown _ _ _ _ Hg) as Hfl.
  assert (volume table v1) as Hv1 by (eapply volume_change; [done|apply Hg..]).
  assert (scan_fits table v1) as Hsc1 by (unfold scan_fits in *; by rewrite (fc_length _ _ (gr_change _ _ _ _ Hg))).
  assert (still_missing data off 0 (l ++ new1) = m - Z.of_nat (length new1)) as Hsm.
  { unfold still_missing. rewrite decide_True, Nat.sub_0_r by done. lia. }
  assert (link_cost * (m - Z.of_nat (length new1)) <= link_cost * m) as Hcost by nia.
  destruct (file_write_loop_ok (S (length data)) _ d1 v1 (File.first_cluster f1) (l ++ new1) data off 0 Hr1)
    as (new2 & d2 & v2 & Hloop & Hr2 & Hw2); try done; try lia; rewrite ?Nat.sub_0_r, ?Hsm; try lia.
  rewrite Hsm, Nat.sub_0_r in Hr2. rewrite drop_0 in Hw2.
  apply (written_grown _ v) in Hw2; [|done| |done].
  2:{ intros c Hc. destruct Hwf as [Hf|(-> & _)]; [by apply Hf|by apply elem_of_nil in Hc]. }
  exists f1, d1, d2, v2, (new1 ++ new2). rewrite Hcc, Hloop, <- app_assoc.
  split_and!; try done. eapply rep_weaken; [exact Hr2|lia].
Qed.

Lemma file_write_ok (fuel : nat) (n : Z) d v (f : File.t) (l data : list Z) (off : Z) :
  rep n d v -> volume table v -> scan_fits table v -> writable v f l -> (length l <= fuel)%nat ->
  FatEntryFacts.entry_wf (File.dir_entry f) -> entry_place v l (File.dir_entry_disk_offset f) -> synced v f ->
  bytes_ok data -> data <> [] -> 0 <= off -> off + Z.of_nat (length data) < 2 ^ 32 ->
  missing (off + Z.of_nat (length data)) (length l) <= Z.of_nat (length (free_list v)) ->
  write_cost l off (length data) <= n ->
  exists f' d' v' new, File.write fuel f data off table d = Some (Z.of_nat (length data), f', d') /\
    rep (n - write_cost l off (length data)) d' v' /\ write_post v f l v' f' new off data /\
    File.cluster_cache f' = l ++ new.
Proof.
  intros Hr Hv Hsc Hwf Hfuel Hew Hep Hsy Hbd Hne Hoff Hend Hfree Hn.
  destruct (write_data_ok fuel n d v f l data off) as
    (f1 & d1 & d2 & v2 & new & Hprep & Hloop & Hr2 & Hw2 & Hfc & Hdo & Hde & Hdf); [done..|].
  unfold File.write. rewrite Hprep, Hloop.
  set (f2 := File.with_cache f1 (l ++ new)). change (File.byte_size f2) with (File.byte_size f1).
  assert (File.byte_size f1 = File.byte_size f) as ->.
  { unfold File.byte_size. destruct (decide (l = [])) as [El|El]; [by rewrite (proj2 (Hdf El))|by rewrite (Hde El)]. }
  assert (u32 (off + Z.of_nat (length data)) = off + Z.of_nat (length data)) as -> by (apply Z.mod_small; lia).
  destruct (Z.ltb_spec (File.byte_size f) (off + Z.of_nat (length data))) as [Hgrow|Hkeep].
  - set (e := DirEntry.set_size (File.dir_entry f2) (off + Z.of_nat (length data))).
    assert (FatEntryFacts.entry_wf e) as He.
    { apply entry_wf_set_size; [|unfold is_u32; lia]. change (File.dir_entry f2) with (File.dir_entry f1).
      destruct (decide (l = [])) as [El|El]; [|by rewrite (Hde El)]. destruct (Hdf El) as [? ->]. by apply entry_wf_set_first. }
    pose proof (FatEntryFacts.to_bytes_length e He) as Hl32. unfold DirEntry.SIZE in Hl32.
    assert (access_cost (length (DirEntry.to_bytes e)) = 2) as Hc32 by (by rewrite Hl32).
    pose proof (ep_range _ _ _ Hep) as [Ho Hoe]. pose proof (wr_length _ _ _ _ _ _ _ Hw2) as Hl2.
    assert (0 <= write_cost l off (length data) - 2).
    { pose proof (link_cost_pos v Hv). pose proof (vo_count _ _ Hv). unfold write_cost, prepare_cost, allocate_cost, missing. nia. }
    unfold DiskStruct.write_entry. change (File.dir_entry_disk_offset _) with (File.dir_entry_disk_offset f1). rewrite Hdo.
    change (File.dir_entry (File.with_entry f2 e)) with e.
    destruct (write_law _ d2 v2 (File.dir_entry_disk_offset f) (DirEntry.to_bytes e) Hr2) as (d3 & -> & Hr3); [lia|lia|lia|].
    eexists _, d3, _, new. split; [done|]. rewrite Hc32 in Hr3. split; [eapply rep_weaken; [exact Hr3|lia]|]. split; [|done].
    by apply (write_post_grow v f f2 l new data v2 off).
  - exists f2, d2, v2, new. split; [done|]. split; [eapply rep_weaken; [exact Hr2|lia]|]. split; [|done].
    apply (write_post_keep v f f2 l new data v2 off); try done.
    apply Hde. intros ->. pose proof (writable_size _ _ _ Hwf) as Hs0. simpl in Hs0.
    destruct data; [done|simpl in Hkeep; lia].
Qed.

(** ** A chain that loops *)

(** From a set of clusters no entry of which ends a chain, the chain is never
    exhausted. *)
Definition no_end v (S : list Z) : Prop :=
  forall x, x ∈ S -> x <> 0xfff /\ fits v (table_start table) x /\ entry table v x ∈ S.

Lemma chain_loop_diverges (S : list Z) (fuel : nat) (n c : Z) d v (acc : list Z) :
  rep n d v -> bytes_ok v -> no_end v S -> c ∈ S -> 2 * Z.of_nat fuel <= n -> File.chain_loop fuel table acc c d = None.
Proof.
  intros Hr Hb HS. revert n d c acc Hr. induction fuel as [|fuel IH]; intros n d c acc Hr Hc Hn; [done|]. simpl.
  destruct (HS c Hc) as (Hne & Hf & Hnext). rewrite (proj2 (Z.eqb_neq _ _)) by done.
  destruct (get_next_ok n d v table c) as (d1 & -> & Hr1); [done..|lia|]. simpl. unfold next_of.
  destruct (HS _ Hnext) as (Hne' & _). rewrite (proj2 (Z.eqb_neq _ _)) by done. eapply IH; [done..|lia].
Qed.
End Files.

Module FatFileProps.


(** [File::read] returns the bytes of the file and nothing else: at any
    offset up to the size it fills the buffer with the bytes of the clusters,
    stopping at the end of the file, leaves the rest of the buffer alone and
    returns the number of bytes copied. *)
Theorem file_read_correct {D} `{DiskLaws D} (table : AllocationTable.t) (fuel : nat) (n : Z) (d : D)
    (v : list Z) (f : File.t) (l buf : list Z) (off : Z) :
  rep n d v -> volume table v -> file_ok table v f l -> 0 <= off <= File.byte_size f -> File.byte_size f < 2 ^ 32 ->
  (length l <= fuel)%nat -> 2 * Z.of_nat (length l) + 3 * Z.of_nat (length buf) + 2 <= n ->
  exists buf' d', File.read fuel f buf off table d =
      Some (Z.min (Z.of_nat (length buf)) (File.byte_size f - off), buf', File.with_cache f l, d') /\
    rep (n - (2 * Z.of_nat (length l) + 3 * Z.of_nat (length buf) + 2)) d' v /\ length buf' = length buf /\
    forall i, (i < length buf)%nat -> buf' !! i =
      if decide (Z.of_nat i < Z.min (Z.of_nat (length buf)) (File.byte_size f - off))
      then file_at table v l (off + Z.of_nat i) else buf !! i.
Proof. intros. by apply file_read_ok. Qed.

(** reading a file that has no cluster yet follows the chain of cluster 0,
    which is the media descriptor and not a chain.  When no entry reached from
    there marks the end of a chain the driver never stops: the read of an
    empty file does not return for any number of steps. *)
Theorem empty_file_read_diverges {D} `{DiskLaws D} (table : AllocationTable.t) (S : list Z) (fuel : nat) (n : Z) (d : D)
    (v : list Z) (f : File.t) (buf : list Z) (off : Z) :
  rep n d v -> volume table v -> File.cluster_cache f = [] -> File.first_cluster f = 0 -> 0 ∈ S ->
  no_end table v S -> 2 * Z.of_nat fuel <= n ->
  File.read fuel f buf off table d = None.
Proof.
  intros Hr Hv Hc Hf H0S HS Hn. unfold File.read. simpl. destruct (_ =? 0); [done|].
  rewrite decide_True by done. unfold File.cache_cluster_chain.
  rewrite Hf, (chain_loop_diverges table S fuel n 0 d v []); try done. apply Hv.
Qed.
(** ** A sample volume *)

Import FatTableProps.

#[local] Existing Instance array_disk.
#[local] Existing Instance array_disk_laws.

Definition sample_entry : DirEntry.t := DirEntry.set_filename DirEntry.new (0x41 :: replicate 7 0x20) (replicate 3 0x20).
(** An empty file, with its directory entry in the root directory. *)
Definition empty_volume : list Z := list_inserts (Z.to_nat 6656) (DirEntry.to_bytes sample_entry) blank.
Definition empty_file : File.t := File.from_dir_entry sample_entry 6656.
(** A file of 520 bytes in the clusters 2 and 3. *)
Definition full_entry : DirEntry.t := DirEntry.set_size (DirEntry.set_first_cluster sample_entry 2) 520.
Definition two_clusters : list Z := put_entry (put_entry empty_volume 512 2 3) 512 3 0xfff.
Definition two_cluster_file : File.t := File.from_dir_entry full_entry 6656.
(** The media descriptor 0xF0 in the entry of cluster 0. *)
Definition media_volume : list Z := put_entry empty_volume 512 0 0xff0.
Ltac bytes_of_volume := apply (bool_decide_unpack _); vm_compute; exact I.

Lemma empty_volume_ok : volume sample_table empty_volume.
Proof. split; try (vm_compute; split; congruence); try (vm_compute; congruence). bytes_of_volume. Qed.

Lemma sample_entry_wf : FatEntryFacts.entry_wf sample_entry.
Proof. split; try (vm_compute; split; congruence); try reflexivity; bytes_of_volume. Qed.

Lemma empty_place : entry_place sample_table empty_volume [] 6656.
Proof.
  split; [vm_compute; split; congruence|unfold in_tables; simpl; lia|].
  intros c x [Hc%elem_of_nil|Hc%free_elem] Hx; [done|]. destruct Hc as (_ & (Hc & _) & _).
  unfold in_cluster, location, bpc. simpl. lia.
Qed.

Lemma empty_free : 1 <= Z.of_nat (length (free_list sample_table empty_volume)).
Proof.
  assert (2 ∈ free_list sample_table empty_volume) as H2.
  { apply free_elem. split; [lia|]. split; [vm_compute; split_and!; congruence|vm_compute; reflexivity]. }
  destruct (free_list sample_table empty_volume); [by apply elem_of_nil in H2|simpl; lia].
Qed.


Lemma two_clusters_ok : volume sample_table two_clusters.
Proof.
  apply (volume_put sample_table _ 3 0xfff 0); [|lia]. apply (volume_put sample_table _ 2 3 0); [|lia].
  apply empty_volume_ok.
Qed.

Lemma two_cluster_file_ok : file_ok sample_table two_clusters two_cluster_file [2; 3].
Proof.
  split; [|vm_compute; congruence|by right|vm_compute; split; congruence]. split.
  - apply chain_next with 3; [vm_compute; reflexivity|lia|]. apply chain_last. vm_compute. reflexivity.
  - apply (bool_decide_unpack _). vm_compute. exact I.
  - intros c [->|[->|[]%elem_of_nil]%elem_of_cons]%elem_of_cons; vm_compute; split_and!; congruence.
Qed.

Lemma file_read_witness :
  exists buf' d', File.read 2 two_cluster_file (replicate 20 7) 510 sample_table two_clusters =
      Some (Z.min 20 (520 - 510), buf', File.with_cache two_cluster_file [2; 3], d') /\
    rep (200 - (2 * 2 + 3 * 20 + 2)) d' two_clusters /\ length buf' = 20%nat /\
    forall i, (i < 20)%nat -> buf' !! i =
      if decide (Z.of_nat i < Z.min 20 (520 - 510))
      then file_at sample_table two_clusters [2; 3] (510 + Z.of_nat i) else replicate 20 7 !! i.
Proof.
  apply (file_read_correct sample_table 2 200 two_clusters two_clusters two_cluster_file [2; 3] (replicate 20 7) 510);
    [array_rep|exact two_clusters_ok|exact two_cluster_file_ok|vm_compute; split; congruence|vm_compute; reflexivity|
     simpl; lia|simpl; lia].
Defined.

Lemma empty_file_witness : File.read 100 empty_file [0; 0] 0 sample_table media_volume = None.
Proof.
  apply (empty_file_read_diverges sample_table [0; 0xff0] 100 1000 media_volume media_volume empty_file [0; 0] 0);
    [array_rep| |done|done|left| |lia].
  - apply (volume_put sample_table _ 0 0xff0 0); [|lia]. exact empty_volume_ok.
  - intros c [->|[->|[]%elem_of_nil]%elem_of_cons]%elem_of_cons; (split; [done|]);
      (split; [vm_compute; split_and!; congruence|]); apply (bool_decide_unpack _); vm_compute; exact I.
Defined.
End FatFileProps.
