(* ===== verification/FatDir.v ===== *)
(** * Directories of a FAT volume

    The root directory, the subdirectories and path resolution of
    [components/drivers/fatdriver/src/dir.rs].  A [for] loop over the slots of
    a directory runs over the list of their offsets; a walk along a cluster
    chain takes fuel, one unit for every cluster or entry visited.  [None] of
    the outer option is a panic or a loop that has not ended; the time read by
    [get_timestamp] is an argument. *)

From S2P Require Import Prelude FatDisk FatCache FatTable FatEntry FatFile.

(** The end of a [for] loop that may return from the function. *)
Inductive for_exit (A : Type) : Type :=
| Return (a : A)
| Ended.
Arguments Return {A} a.
Arguments Ended {A}.

(** ** Slots *)

Module Slots.
Definition entry_size : Z := 32.

(** The offsets of [n] consecutive slots from [base]. *)
Definition offsets (base n : Z) : list Z :=
  map (fun i => u32 (base + u32 (i * entry_size))) (seqZ 0 n).

Section Ops.
Context {D : Type} `{Disk D}.

(** The loop of [write_entry]: take the first free slot. *)
Fixpoint write_slots (offs : list Z) (entry : DirEntry.t) (disk : D) : option (for_exit Z * D) :=
  match offs with
  | [] => Some (Ended, disk)
  | offset :: offs =>
      '(slot, disk) ← DiskStruct.read_entry disk offset;
      if (DirEntry.name0 slot =? 0x00) || (DirEntry.name0 slot =? 0xE5) then
        disk ← DiskStruct.write_entry disk offset entry; Some (Return offset, disk)
      else write_slots offs entry disk
  end.

(** The loop of [remove_entry]: delete the first live slot of that name. *)
Fixpoint remove_slots (offs : list Z) (filename ext : list Z) (disk : D)
    : option (for_exit (option DirEntry.t) * D) :=
  match offs with
  | [] => Some (Ended, disk)
  | offset :: offs =>
      '(entry, disk) ← DiskStruct.read_entry disk offset;
      if DirEntry.name0 entry =? 0x00 then Some (Return None, disk)
      else if DirEntry.name0 entry =? 0xE5 then remove_slots offs filename ext disk
      else if DirEntry.matches_name entry filename ext then
        disk ← DiskStruct.write_entry disk offset (DirEntry.mark_deleted entry);
        Some (Return (Some entry), disk)
      else remove_slots offs filename ext disk
  end.

(** The loop of [is_subdir_empty]. *)
Fixpoint empty_slots (offs : list Z) (disk : D) : option (for_exit bool * D) :=
  match offs with
  | [] => Some (Ended, disk)
  | offset :: offs =>
      '(entry, disk) ← DiskStruct.read_entry disk offset;
      if DirEntry.name0 entry =? 0x00 then Some (Return true, disk)
      else if DirEntry.name0 entry =? 0xE5 then empty_slots offs disk
      else if decide (DirEntry.get_filename entry = [0x2e] \/ DirEntry.get_filename entry = [0x2e; 0x2e])
      then empty_slots offs disk
      else Some (Return false, disk)
  end.
End Ops.

(** The entry [add_entry] writes. *)
Definition fresh_entry (filename ext : list Z) (attributes first_cluster timestamp : Z) : option DirEntry.t :=
  let new_entry := DirEntry.set_filename DirEntry.new filename ext in
  let new_entry := DirEntry.set_attributes new_entry attributes in
  let new_entry := DirEntry.set_first_cluster new_entry first_cluster in
  '(fat_date, fat_time) ← Timestamp.decode_timestamp timestamp;
  Some (DirEntry.set_stamps new_entry fat_date fat_time).
End Slots.

(** ** The root directory *)

Module RootDirectoryIter.
Record t := { dir_offset : Z; current_index : Z; max_index : Z; current : DirEntry.t }.

Definition current_entry_offset (self : t) : Z :=
  u32 (dir_offset self + u32 (current_index self * Slots.entry_size)).

Section Ops.
Context {D : Type} `{Disk D}.

Definition next (self : t) (disk : D) : option (option (DirEntry.t * Z) * t * D) :=
  if DirEntry.is_empty (current self) then Some (None, self, disk)
  else if max_index self <=? u32 (current_index self + 1) then Some (None, self, disk)
  else
    let entry := current self in
    let entry_offset := current_entry_offset self in
    let current_index := u32 (current_index self + 1) in
    let offset := u32 (dir_offset self + u32 (current_index * Slots.entry_size)) in
    '(current, disk) ← DiskStruct.read_entry disk offset;
    Some (Some (entry, entry_offset),
          {| dir_offset := dir_offset self; current_index := current_index; max_index := max_index self;
             current := current |}, disk).
End Ops.
End RootDirectoryIter.

Module RootDirectory.
Record t := { first_sector : Z; max_entries : Z }.

Definition new (first_sector max_entries : Z) : t :=
  {| first_sector := first_sector; max_entries := max_entries |}.

Definition dir_offset (self : t) : Z := u32 (first_sector self * 512).

Section Ops.
Context {D : Type} `{Disk D}.

Definition iter (self : t) (disk : D) : option (RootDirectoryIter.t * D) :=
  '(current, disk) ← DiskStruct.read_entry disk (dir_offset self);
  Some ({| RootDirectoryIter.dir_offset := dir_offset self; RootDirectoryIter.current_index := 0;
           RootDirectoryIter.max_index := max_entries self; RootDirectoryIter.current := current |}, disk).

Definition write_entry (self : t) (entry : DirEntry.t) (disk : D) : option (option Z * D) :=
  '(r, disk) ← Slots.write_slots (Slots.offsets (dir_offset self) (max_entries self)) entry disk;
  Some (match r with Return offset => Some offset | Ended => None end, disk).

Definition add_entry (self : t) (filename ext : list Z) (attributes first_cluster : Z) (disk : D) (now : Z)
    : option (option Z * D) :=
  new_entry ← Slots.fresh_entry filename ext attributes first_cluster now;
  write_entry self new_entry disk.

Definition remove_entry (self : t) (filename ext : list Z) (disk : D) : option (option DirEntry.t * D) :=
  '(r, disk) ← Slots.remove_slots (Slots.offsets (dir_offset self) (max_entries self)) filename ext disk;
  Some (match r with Return e => e | Ended => None end, disk).

(** The [for] loop over the iterator, up to the first entry of that name. *)
Fixpoint find_loop (fuel : nat) (it : RootDirectoryIter.t) (filename ext : list Z) (disk : D)
    : option (option (DirEntry.t * Z) * D) :=
  match fuel with
  | O => None
  | S fuel =>
      '(item, it, disk) ← RootDirectoryIter.next it disk;
      match item with
      | None => Some (None, disk)
      | Some (entry, disk_offset) =>
          if DirEntry.matches_name entry filename ext then Some (Some (entry, disk_offset), disk)
          else find_loop fuel it filename ext disk
      end
  end.

(** The [for] loop of [Directory::read], collecting the names. *)
Fixpoint names_loop (fuel : nat) (it : RootDirectoryIter.t) (entries : list Z) (disk : D)
    : option (list Z * D) :=
  match fuel with
  | O => None
  | S fuel =>
      '(item, it, disk) ← RootDirectoryIter.next it disk;
      match item with
      | None => Some (entries, disk)
      | Some (entry, _) => names_loop fuel it (entries ++ DirEntry.get_full_name entry ++ [0]) disk
      end
  end.
End Ops.
End RootDirectory.

(** ** Open directories *)

Module Directory.
Inductive dir_type_t :=
| Root (root : RootDirectory.t)
| Subdir (entry : DirEntry.t).

Record t := { dir_type : dir_type_t; entries_fetched : bool; entries : list Z }.

Definition get_modification_time (self : t) : option Z :=
  match dir_type self with
  | Root _ => Some 0
  | Subdir entry => DirEntry.get_modification_timestamp entry
  end.

Definition from_dir_entry (dir_entry : DirEntry.t) : t :=
  {| dir_type := Subdir dir_entry; entries_fetched := false; entries := [] |}.
Definition from_root_dir (root : RootDirectory.t) : t :=
  {| dir_type := Root root; entries_fetched := false; entries := [] |}.
End Directory.

Inductive Entity :=
| EntityDir (d : Directory.t)
| EntityFile (f : File.t).

(** What [find_entry] makes of a slot. *)
Definition entity_of (entry : DirEntry.t) (disk_offset : Z) : Entity :=
  if DirEntry.is_directory entry then EntityDir (Directory.from_dir_entry entry)
  else EntityFile (File.from_dir_entry entry disk_offset).

Module RootFind.
Section Ops.
Context {D : Type} `{Disk D}.

Definition find_entry (self : RootDirectory.t) (name : list Z) (disk : D) : option (option Entity * D) :=
  let '(filename, ext) := ShortName.raw_short_name name in
  '(it, disk) ← RootDirectory.iter self disk;
  '(r, disk) ← RootDirectory.find_loop (S (Z.to_nat (RootDirectory.max_entries self))) it filename ext disk;
  Some ('(entry, disk_offset) ← r; Some (entity_of entry disk_offset), disk).
End Ops.
End RootFind.

(** ** Subdirectories *)

Module SubdirIter.
Import AllocationTable.

Record t := {
  table : AllocationTable.t; current_cluster : Z; current_index_in_cluster : Z; entries_per_cluster : Z;
  current : DirEntry.t
}.

Definition current_entry_offset (self : t) : Z :=
  u32 (get_cluster_location (table self) (current_cluster self) + u32 (current_index_in_cluster self * Slots.entry_size)).

Definition at_slot (self : t) (cluster index : Z) (current : DirEntry.t) : t :=
  {| table := table self; current_cluster := cluster; current_index_in_cluster := index;
     entries_per_cluster := entries_per_cluster self; current := current |}.

(** [self.current.file_name[0] = 0x00] *)
Definition exhaust (entry : DirEntry.t) : DirEntry.t :=
  DirEntry.set_filename entry (<[0%nat := 0x00]> (DirEntry.file_name entry)) (DirEntry.ext entry).

Section Ops.
Context {D : Type} `{Disk D}.

(** To the next slot of the chain, from the body of the [loop] of [next]. *)
Definition advance (self : t) (disk : D) : option (t * D) :=
  let index := u32 (current_index_in_cluster self + 1) in
  '(self, disk) ←
    (if entries_per_cluster self <=? index then
       '(next, disk) ← get_next_cluster (table self) (current_cluster self) disk;
       match next with
       | Some next => Some (at_slot self next 0 (current self), disk)
       | None => Some (at_slot self (current_cluster self) index (exhaust (current self)), disk)
       end
     else Some (at_slot self (current_cluster self) index (current self), disk));
  if DirEntry.name0 (current self) =? 0x00 then Some (self, disk)
  else
    '(current, disk) ← DiskStruct.read_entry disk (current_entry_offset self);
    Some (at_slot self (current_cluster self) (current_index_in_cluster self) current, disk).

Fixpoint next (fuel : nat) (self : t) (disk : D) : option (option (DirEntry.t * Z) * t * D) :=
  match fuel with
  | O => None
  | S fuel =>
      if DirEntry.name0 (current self) =? 0x00 then Some (None, self, disk)
      else
        let entry := current self in
        let offset := current_entry_offset self in
        '(self, disk) ← advance self disk;
        if DirEntry.name0 entry =? 0xE5 then next fuel self disk
        else Some (Some (entry, offset), self, disk)
  end.
End Ops.
End SubdirIter.

Module SubDirectory.
Import AllocationTable.

Record t := { first_cluster : Z }.
Definition new (first_cluster : Z) : t := {| first_cluster := first_cluster |}.

Definition entries_per_cluster (table : AllocationTable.t) : Z := bytes_per_cluster table / Slots.entry_size.

(** The slots of one cluster. *)
Definition cluster_offsets (table : AllocationTable.t) (cluster : Z) : list Z :=
  Slots.offsets (get_cluster_location table cluster) (entries_per_cluster table).

Section Ops.
Context {D : Type} `{Disk D}.
Implicit Types (table : AllocationTable.t) (disk : D).

Definition iter (self : t) table disk : option (SubdirIter.t * D) :=
  '(current, disk) ← DiskStruct.read_entry disk (get_cluster_location table (first_cluster self));
  Some ({| SubdirIter.table := table; SubdirIter.current_cluster := first_cluster self;
           SubdirIter.current_index_in_cluster := 0;
           SubdirIter.entries_per_cluster := entries_per_cluster table;
           SubdirIter.current := current |}, disk).

Fixpoint find_loop (fuel slot_fuel : nat) (it : SubdirIter.t) (filename ext : list Z) disk
    : option (option (DirEntry.t * Z) * D) :=
  match fuel with
  | O => None
  | S fuel =>
      '(item, it, disk) ← SubdirIter.next slot_fuel it disk;
      match item with
      | None => Some (None, disk)
      | Some (entry, disk_offset) =>
          if DirEntry.matches_name entry filename ext then Some (Some (entry, disk_offset), disk)
          else find_loop fuel slot_fuel it filename ext disk
      end
  end.

Definition find_entry (fuel : nat) (self : t) (name : list Z) table disk : option (option Entity * D) :=
  let '(short_filename, short_ext) := ShortName.parse_short_name name in
  '(it, disk) ← iter self table disk;
  '(r, disk) ← find_loop fuel fuel it short_filename short_ext disk;
  Some ('(entry, disk_offset) ← r; Some (entity_of entry disk_offset), disk).

Fixpoint names_loop (fuel slot_fuel : nat) (it : SubdirIter.t) (entries : list Z) disk : option (list Z * D) :=
  match fuel with
  | O => None
  | S fuel =>
      '(item, it, disk) ← SubdirIter.next slot_fuel it disk;
      match item with
      | None => Some (entries, disk)
      | Some (entry, _) => names_loop fuel slot_fuel it (entries ++ DirEntry.get_full_name entry ++ [0]) disk
      end
  end.

(** The [loop] of [write_entry]: the slot written, or the last cluster. *)
Fixpoint write_chain (fuel : nat) (cluster : Z) (entry : DirEntry.t) table disk : option ((Z + Z) * D) :=
  match fuel with
  | O => None
  | S fuel =>
      '(r, disk) ← Slots.write_slots (cluster_offsets table cluster) entry disk;
      match r with
      | Return offset => Some (inl offset, disk)
      | Ended =>
          '(next, disk) ← get_next_cluster table cluster disk;
          match next with
          | Some next => write_chain fuel next entry table disk
          | None => Some (inr cluster, disk)
          end
      end
  end.

(** [while off < bytes_per_cluster]: clear a cluster in pieces of 512 bytes. *)
Fixpoint zero_loop (fuel : nat) (location bytes_per_cluster off : Z) disk : option D :=
  match fuel with
  | O => None
  | S fuel =>
      if off <? bytes_per_cluster then
        let n := Z.min (bytes_per_cluster - off) 512 in
        disk ← write_bytes_to_disk disk (u32 (location + off)) (replicate (Z.to_nat n) 0);
        zero_loop fuel location bytes_per_cluster (u32 (off + n)) disk
      else Some disk
  end.

Definition zero_cluster table (cluster : Z) disk : option D :=
  zero_loop (S (Z.to_nat (bytes_per_cluster table))) (get_cluster_location table cluster)
    (bytes_per_cluster table) 0 disk.

Definition write_entry (fuel : nat) (self : t) (entry : DirEntry.t) table disk : option (option Z * D) :=
  '(r, disk) ← write_chain fuel (first_cluster self) entry table disk;
  match r with
  | inl offset => Some (Some offset, disk)
  | inr cluster =>
      '(new, disk) ← allocate_cluster table disk;
      match new with
      | None => Some (None, disk)
      | Some new_cluster =>
          disk ← set_cluster_entry table cluster new_cluster disk;
          let new_loc := get_cluster_location table new_cluster in
          disk ← zero_cluster table new_cluster disk;
          disk ← DiskStruct.write_entry disk new_loc entry;
          Some (Some new_loc, disk)
      end
  end.

Definition add_entry (fuel : nat) (self : t) (filename ext : list Z) (attributes first_cluster : Z) table disk
    (now : Z) : option (option Z * D) :=
  new_entry ← Slots.fresh_entry filename ext attributes first_cluster now;
  write_entry fuel self new_entry table disk.

Fixpoint remove_chain (fuel : nat) (cluster : Z) (filename ext : list Z) table disk
    : option (option DirEntry.t * D) :=
  match fuel with
  | O => None
  | S fuel =>
      '(r, disk) ← Slots.remove_slots (cluster_offsets table cluster) filename ext disk;
      match r with
      | Return e => Some (e, disk)
      | Ended =>
          '(next, disk) ← get_next_cluster table cluster disk;
          match next with
          | Some next => remove_chain fuel next filename ext table disk
          | None => Some (None, disk)
          end
      end
  end.

Definition remove_entry (fuel : nat) (self : t) (filename ext : list Z) table disk : option (option DirEntry.t * D) :=
  remove_chain fuel (first_cluster self) filename ext table disk.

Fixpoint is_subdir_empty (fuel : nat) (cluster : Z) table disk : option (bool * D) :=
  match fuel with
  | O => None
  | S fuel =>
      '(r, disk) ← Slots.empty_slots (cluster_offsets table cluster) disk;
      match r with
      | Return b => Some (b, disk)
      | Ended =>
          '(next, disk) ← get_next_cluster table cluster disk;
          match next with
          | Some next => is_subdir_empty fuel next table disk
          | None => Some (true, disk)
          end
      end
  end.
End Ops.
End SubDirectory.

(** ** Reading a directory *)

Module DirectoryRead.
Import Directory.
Section Ops.
Context {D : Type} `{Disk D}.

Definition fetch (fuel : nat) (self : t) (table : AllocationTable.t) (disk : D) : option (t * D) :=
  if entries_fetched self then Some (self, disk)
  else
    '(names, disk) ←
      match dir_type self with
      | Root root =>
          '(it, disk) ← RootDirectory.iter root disk;
          RootDirectory.names_loop (S (Z.to_nat (RootDirectory.max_entries root))) it (entries self) disk
      | Subdir entry =>
          '(it, disk) ← SubDirectory.iter (SubDirectory.new (DirEntry.first_file_cluster entry)) table disk;
          SubDirectory.names_loop fuel fuel it (entries self) disk
      end;
    Some ({| dir_type := dir_type self; entries_fetched := true; entries := names |}, disk).

(** The [while] loop that copies the names into the buffer. *)
Fixpoint copy_loop (k : nat) (entries : list Z) (offset : nat) (buffer : list Z) (bytes_written : nat)
    : option (list Z) :=
  match k with
  | O => Some buffer
  | S k =>
      b ← entries !! (offset + bytes_written)%nat;
      copy_loop k entries offset (<[bytes_written := b]> buffer) (S bytes_written)
  end.

Definition read (fuel : nat) (self : t) (buffer : list Z) (offset : Z) (table : AllocationTable.t) (disk : D)
    : option (Z * list Z * t * D) :=
  '(self, disk) ← fetch fuel self table disk;
  let bytes_remaining := u32 (Z.of_nat (length (entries self)) - offset) in
  let bytes_to_write := Z.min bytes_remaining (Z.of_nat (length buffer)) in
  buffer ← copy_loop (Z.to_nat bytes_to_write) (entries self) (Z.to_nat offset) buffer 0;
  Some (bytes_to_write, buffer, self, disk).
End Ops.
End DirectoryRead.

(** ** Any directory, and paths *)

Inductive AnyDirectory :=
| AnyRoot (root : RootDirectory.t)
| AnySub (sub : SubDirectory.t).

Inductive PathError := InvalidArgument | NotFound.

Module AnyDir.
Definition first_cluster (self : AnyDirectory) : Z :=
  match self with AnyRoot _ => 0 | AnySub sub => SubDirectory.first_cluster sub end.

Section Ops.
Context {D : Type} `{Disk D}.
Implicit Types (table : AllocationTable.t) (disk : D) (self : AnyDirectory).

Definition find_entry (fuel : nat) self (name : list Z) table disk : option (option Entity * D) :=
  match self with
  | AnyRoot root => RootFind.find_entry root name disk
  | AnySub sub => SubDirectory.find_entry fuel sub name table disk
  end.

Definition add_entry (fuel : nat) self (filename ext : list Z) (attributes first_cluster : Z) table disk (now : Z)
    : option (option Z * D) :=
  match self with
  | AnyRoot root => RootDirectory.add_entry root filename ext attributes first_cluster disk now
  | AnySub sub => SubDirectory.add_entry fuel sub filename ext attributes first_cluster table disk now
  end.

Definition remove_entry (fuel : nat) self (filename ext : list Z) table disk : option (option DirEntry.t * D) :=
  match self with
  | AnyRoot root => RootDirectory.remove_entry root filename ext disk
  | AnySub sub => SubDirectory.remove_entry fuel sub filename ext table disk
  end.

Definition write_entry (fuel : nat) self (entry : DirEntry.t) table disk : option (option Z * D) :=
  match self with
  | AnyRoot root => RootDirectory.write_entry root entry disk
  | AnySub sub => SubDirectory.write_entry fuel sub entry table disk
  end.
End Ops.
End AnyDir.

Module Path.
Definition SLASH : Z := 0x2f.
Definition BACKSLASH : Z := 0x5c.

Definition is_separator (c : Z) : bool := (c =? SLASH) || (c =? BACKSLASH).

(** The parent path and the leaf: cut at the last slash, or at the last
    backslash when there is no slash. *)
Definition split_leaf (path : list Z) : list Z * list Z :=
  match rsplit_once SLASH path with
  | Some p => p
  | None => match rsplit_once BACKSLASH path with Some p => p | None => ([], path) end
  end.

(** [str::split] on either separator. *)
Fixpoint split (path : list Z) : list (list Z) :=
  match path with
  | [] => [[]]
  | c :: path =>
      if is_separator c then [] :: split path
      else match split path with
           | comp :: rest => (c :: comp) :: rest
           | [] => [[c]]
           end
  end.

Section Ops.
Context {D : Type} `{Disk D}.
Implicit Types (table : AllocationTable.t) (disk : D).

(** The [for] loop over the components of the parent path. *)
Fixpoint walk (fuel : nat) (components : list (list Z)) (current : AnyDirectory) table disk
    : option (result AnyDirectory PathError * D) :=
  match components with
  | [] => Some (Ok current, disk)
  | component :: components =>
      if decide (component = []) then walk fuel components current table disk
      else
        '(entity, disk) ← AnyDir.find_entry fuel current component table disk;
        match entity with
        | None => Some (Err NotFound, disk)
        | Some (EntityDir d) =>
            match Directory.dir_type d with
            | Directory.Subdir entry =>
                walk fuel components (AnySub (SubDirectory.new (DirEntry.first_file_cluster entry))) table disk
            | Directory.Root _ => Some (Err InvalidArgument, disk)
            end
        | Some (EntityFile _) => Some (Err NotFound, disk)
        end
  end.

Definition resolve_path (fuel : nat) (path : list Z) (root : RootDirectory.t) table disk
    : option (result (AnyDirectory * list Z) PathError * D) :=
  if decide (path = []) then Some (Err InvalidArgument, disk)
  else
    let '(parent_path, leaf) := split_leaf path in
    if decide (leaf = []) then Some (Err InvalidArgument, disk)
    else
      '(r, disk) ← (if decide (parent_path = []) then Some (Ok (AnyRoot root), disk)
                    else walk fuel (split parent_path) (AnyRoot root) table disk);
      Some (match r with Ok current => Ok (current, leaf) | Err e => Err e end, disk).
End Ops.
End Path.
