(* ===== verification/FatDirSpec.v ===== *)
(** * What the directories of a FAT volume do

    The slots of a directory are read off the bytes of the volume.  Looking up
    a name, taking a free slot and deleting a slot are related to the list of
    the slots; on top of that, an entry that is added is found again, in the
    root directory and in a subdirectory whose chain may have to grow. *)

From S2P Require Import Prelude FatDisk FatCache FatTable FatEntry FatFile FatFileSpec FatDir.
Import AllocationTable FatView.

(** ** Names *)

Section Names.
Import FatEntryFacts.

Lemma upper_matches (a b : Z) :
  is_u8 b -> to_ascii_uppercase b = a -> DirEntry.ascii_char_matches a b = true.
Proof.
  unfold is_u8, to_ascii_uppercase, DirEntry.ascii_char_matches. intros Hb.
  repeat case_match; intros <-; bool_facts; try lia; rewrite ?orb_true_iff, ?Z.eqb_eq; try (right; word); try lia.
Qed.

Lemma all_match_map (l : list Z) :
  Forall is_u8 l -> DirEntry.all_match (map to_ascii_uppercase l) l = true.
Proof. induction 1; simpl; [done|]. by rewrite upper_matches. Qed.

Lemma upper_idemp (b : Z) : to_ascii_uppercase (to_ascii_uppercase b) = to_ascii_uppercase b.
Proof. unfold to_ascii_uppercase. repeat case_match; bool_facts; lia. Qed.

Lemma upper_u8 (b : Z) : is_u8 b -> is_u8 (to_ascii_uppercase b).
Proof. unfold is_u8, to_ascii_uppercase. case_match; bool_facts; lia. Qed.

Lemma map_upper_idemp (l : list Z) : map to_ascii_uppercase (map to_ascii_uppercase l) = map to_ascii_uppercase l.
Proof. rewrite map_map. apply map_ext. apply upper_idemp. Qed.

Lemma map_upper_u8 (l : list Z) : Forall is_u8 l -> Forall is_u8 (map to_ascii_uppercase l).
Proof. induction 1; simpl; constructor; auto using upper_u8. Qed.

Lemma pad_upper (n : nat) (l : list Z) :
  ShortName.pad n (map to_ascii_uppercase l) = map to_ascii_uppercase (ShortName.pad n l).
Proof.
  unfold ShortName.pad. rewrite map_app, length_map. f_equal.
  - symmetry. apply (fmap_take to_ascii_uppercase).
  - by induction (n - length l)%nat; simpl; [|f_equal].
Qed.

Lemma pad_u8 (n : nat) (l : list Z) : Forall is_u8 l -> Forall is_u8 (ShortName.pad n l).
Proof.
  intros Hl. apply Forall_app. split; [by apply Forall_take|]. apply Forall_replicate. unfold is_u8. lia.
Qed.

Lemma pad_length (n : nat) (l : list Z) : length (ShortName.pad n l) = n.
Proof. unfold ShortName.pad. rewrite length_app, length_take, length_replicate. lia. Qed.

Lemma rsplit_upper (l : list Z) :
  rsplit_once 0x2e (map to_ascii_uppercase l) =
  (fun p => (map to_ascii_uppercase p.1, map to_ascii_uppercase p.2)) <$> rsplit_once 0x2e l.
Proof.
  induction l as [|x l IH]; [done|]. simpl. rewrite IH. destruct (rsplit_once 0x2e l) as [[a b]|]; [done|]. simpl.
  assert ((to_ascii_uppercase x =? 46) = (x =? 46)) as ->; [|by destruct (x =? 46)].
  unfold to_ascii_uppercase. case_match; bool_facts; [|done].
  rewrite (proj2 (Z.eqb_neq _ _)), (proj2 (Z.eqb_neq _ _)) by lia. done.
Qed.

Lemma split_upper (l : list Z) :
  ShortName.split_name (map to_ascii_uppercase l) =
  (map to_ascii_uppercase (ShortName.split_name l).1, map to_ascii_uppercase (ShortName.split_name l).2).
Proof. unfold ShortName.split_name. rewrite rsplit_upper. by destruct (rsplit_once 0x2e l) as [[]|]. Qed.

(** The short name is the upper-cased name, cut and padded. *)
Lemma parse_upper (name : list Z) :
  ShortName.parse_short_name name =
  (map to_ascii_uppercase (ShortName.raw_short_name name).1, map to_ascii_uppercase (ShortName.raw_short_name name).2).
Proof.
  unfold ShortName.parse_short_name, ShortName.raw_short_name. destruct (ShortName.split_name name) as [f x]. simpl.
  by rewrite !pad_upper.
Qed.

Lemma parse_same (a b : list Z) :
  map to_ascii_uppercase a = map to_ascii_uppercase b -> ShortName.parse_short_name a = ShortName.parse_short_name b.
Proof.
  intros Hab. pose proof (split_upper a) as Ha. rewrite Hab, split_upper in Ha.
  unfold ShortName.parse_short_name. destruct (ShortName.split_name a), (ShortName.split_name b). simpl in Ha.
  by simplify_eq; f_equal; f_equal.
Qed.

Lemma rsplit_once_sub (sep : Z) (l a b : list Z) : rsplit_once sep l = Some (a, b) -> l = a ++ sep :: b.
Proof.
  revert a b. induction l as [|x l IH]; intros a b; [done|]. simpl. destruct (rsplit_once sep l) as [[a' b']|].
  - intros [= <- <-]. by rewrite (IH a' b').
  - case_match; intros [= <- <-]. bool_facts. by subst.
Qed.

Lemma raw_u8 (name : list Z) : Forall is_u8 name ->
  Forall is_u8 (ShortName.raw_short_name name).1 /\ Forall is_u8 (ShortName.raw_short_name name).2.
Proof.
  intros Hn. unfold ShortName.raw_short_name, ShortName.split_name.
  destruct (rsplit_once 0x2e name) as [[a b]|] eqn:E; simpl; split; apply pad_u8; try done;
    apply rsplit_once_sub in E as ->; apply Forall_app in Hn as [? Hb]; by inversion Hb.
Qed.

(** An entry stored under [name] answers to every spelling of it, in the root
    directory, which compares the bytes as given, and in a subdirectory, which
    upper-cases them first. *)
Lemma stored_matches (e : DirEntry.t) (name name' : list Z) :
  Forall is_u8 name' -> map to_ascii_uppercase name' = map to_ascii_uppercase name ->
  (DirEntry.file_name e, DirEntry.ext e) = ShortName.parse_short_name name ->
  DirEntry.matches_name e (ShortName.raw_short_name name').1 (ShortName.raw_short_name name').2 = true /\
  DirEntry.matches_name e (ShortName.parse_short_name name').1 (ShortName.parse_short_name name').2 = true.
Proof.
  intros Hu Hn He. rewrite <- (parse_same name' name Hn), parse_upper in He. injection He as Hf Hx.
  destruct (raw_u8 name' Hu) as [H1 H2]. rewrite parse_upper. unfold DirEntry.matches_name. rewrite Hf, Hx. simpl. split.
  - by rewrite !all_match_map.
  - rewrite <- (map_upper_idemp (ShortName.raw_short_name name').1) at 1.
    rewrite <- (map_upper_idemp (ShortName.raw_short_name name').2) at 1.
    by rewrite !all_match_map by (by apply map_upper_u8).
Qed.
End Names.

(** ** Slots *)

(** The entry stored at [o], and the volume with [e] stored there. *)
Definition slot (v : list Z) (o : Z) : DirEntry.t := DirEntry.of_bytes (take 32 (drop (Z.to_nat o) v)).
Definition put_slot (v : list Z) (o : Z) (e : DirEntry.t) : list Z :=
  list_inserts (Z.to_nat o) (DirEntry.to_bytes e) v.
Definition slot_in (v : list Z) (o : Z) : Prop := 0 <= o /\ o + 32 <= Z.of_nat (length v).
Definition apart (o o' : Z) : Prop := o + 32 <= o' \/ o' + 32 <= o.

Section SlotFacts.
Context {D : Type} `{DiskLaws D}.
Implicit Types (d : D) (v : list Z) (o : Z) (e : DirEntry.t).

Lemma read_slot (n : Z) d v o :
  rep n d v -> slot_in v o -> 2 <= n ->
  exists d', DiskStruct.read_entry d o = Some (slot v o, d') /\ rep (n - 2) d' v.
Proof.
  intros Hr [Ho Hl] Hn. unfold DiskStruct.read_entry.
  assert (length (DirEntry.to_bytes DirEntry.new) = 32%nat) as Hb by done.
  destruct (read_law n d v o (DirEntry.to_bytes DirEntry.new) Hr Ho) as (d' & -> & Hr'); rewrite Hb in *; [lia|done|].
  by exists d'.
Qed.

Lemma write_slot (n : Z) d v o e :
  rep n d v -> slot_in v o -> FatEntryFacts.entry_wf e -> 2 <= n ->
  exists d', DiskStruct.write_entry d o e = Some d' /\ rep (n - 2) d' (put_slot v o e).
Proof.
  intros Hr [Ho Hl] He Hn. unfold DiskStruct.write_entry. pose proof (FatEntryFacts.to_bytes_length e He) as Hb.
  destruct (write_law n d v o (DirEntry.to_bytes e) Hr Ho) as (d' & -> & Hr'); rewrite Hb in *; [done..|]. by exists d'.
Qed.

Lemma put_slot_length v o e : length (put_slot v o e) = length v.
Proof. apply length_inserts. Qed.

Lemma put_slot_in v o o' e : slot_in v o -> slot_in (put_slot v o' e) o.
Proof. unfold slot_in. by rewrite put_slot_length. Qed.

Lemma put_slot_same v o e : slot_in v o -> FatEntryFacts.entry_wf e -> slot (put_slot v o e) o = e.
Proof.
  intros [Ho Hl] He. pose proof (FatEntryFacts.to_bytes_length e He) as Hb. unfold DirEntry.SIZE in Hb.
  unfold slot, put_slot. rewrite <- (FatEntryFacts.of_to_bytes e He) at 2. f_equal.
  apply list_eq. intros i. rewrite lookup_sub. destruct (decide (i < 32)%nat).
  - rewrite lookup_inserts by (rewrite Hb; lia). rewrite decide_True by lia. f_equal. lia.
  - symmetry. apply lookup_ge_None. lia.
Qed.

Lemma put_slot_lookup v o e (x : Z) :
  slot_in v o -> FatEntryFacts.entry_wf e -> 0 <= x -> ~ (o <= x < o + 32) ->
  put_slot v o e !! Z.to_nat x = v !! Z.to_nat x.
Proof.
  intros [Ho Hl] He Hx Hn. pose proof (FatEntryFacts.to_bytes_length e He) as Hb. unfold DirEntry.SIZE in Hb.
  unfold put_slot. rewrite lookup_inserts by (rewrite Hb; lia). rewrite decide_False; [done|]. rewrite Hb. lia.
Qed.

Lemma slot_ext v v' o :
  0 <= o -> (forall x, o <= x < o + 32 -> v' !! Z.to_nat x = v !! Z.to_nat x) -> slot v' o = slot v o.
Proof.
  intros Ho Hx. unfold slot. f_equal. apply list_eq. intros i. rewrite !lookup_sub. destruct (decide (i < 32)%nat); [|done].
  specialize (Hx (o + Z.of_nat i) ltac:(lia)). by replace (Z.to_nat (o + Z.of_nat i)) with (Z.to_nat o + i)%nat in Hx by lia.
Qed.

Lemma put_slot_other v o o' e :
  slot_in v o -> FatEntryFacts.entry_wf e -> 0 <= o' -> apart o o' -> slot (put_slot v o e) o' = slot v o'.
Proof.
  intros Hi He Ho' Ha. apply slot_ext; [done|]. intros x Hx. apply put_slot_lookup; [done..|lia|]. unfold apart in Ha. lia.
Qed.
End SlotFacts.

(** ** Well-formed entries *)

Lemma u8_at_ok (b : list Z) (i : nat) : bytes_ok b -> is_u8 (DirEntry.u8_at b i).
Proof.
  intros Hb. unfold DirEntry.u8_at. destruct (b !! i) as [x|] eqn:E; simpl; [|unfold is_u8; lia].
  by eapply Forall_lookup_1 in E.
Qed.

Lemma u16_at_ok (b : list Z) (i : nat) : bytes_ok b -> is_u16 (DirEntry.u16_at b i).
Proof.
  intros Hb. pose proof (u8_at_ok b i Hb). pose proof (u8_at_ok b (i + 1) Hb).
  unfold DirEntry.u16_at, is_u8, is_u16 in *. lia.
Qed.

Lemma slot_wf (v : list Z) (o : Z) : bytes_ok v -> slot_in v o -> FatEntryFacts.entry_wf (slot v o).
Proof.
  intros Hb [Ho Hl]. unfold slot. set (b := take 32 _).
  assert (bytes_ok b) as Hbb by (by apply Forall_take, Forall_drop).
  assert (length b = 32%nat) as Hlb by (unfold b; rewrite length_take, length_drop; lia).
  split; simpl; rewrite ?length_take, ?length_drop; try lia; try (by repeat first [apply Forall_take|apply Forall_drop]);
    split_and?; auto using u8_at_ok, u16_at_ok.
  pose proof (u16_at_ok b 28 Hbb). pose proof (u16_at_ok b 30 Hbb). unfold DirEntry.u32_at, is_u16, is_u32 in *. simpl. lia.
Qed.

Lemma put_slot_bytes (v : list Z) (o : Z) (e : DirEntry.t) :
  bytes_ok v -> FatEntryFacts.entry_wf e -> bytes_ok (put_slot v o e).
Proof. intros Hv He. apply bytes_ok_inserts; [done|]. by apply FatEntryFacts.to_bytes_bytes. Qed.

Lemma entry_wf_set_name (e : DirEntry.t) (f x : list Z) :
  FatEntryFacts.entry_wf e -> length f = 8%nat -> length x = 3%nat -> Forall is_u8 f -> Forall is_u8 x ->
  FatEntryFacts.entry_wf (DirEntry.set_filename e f x).
Proof. intros [] ? ? ? ?. by split. Qed.

Lemma mark_deleted_wf (e : DirEntry.t) : FatEntryFacts.entry_wf e -> FatEntryFacts.entry_wf (DirEntry.mark_deleted e).
Proof.
  intros He. apply entry_wf_set_name; try apply He; [rewrite length_insert; apply He|].
  apply Forall_insert; [apply He|unfold is_u8; lia].
Qed.

Lemma mark_deleted_name (e : DirEntry.t) : FatEntryFacts.entry_wf e -> DirEntry.name0 (DirEntry.mark_deleted e) = 0xE5.
Proof.
  intros He. pose proof (FatEntryFacts.ew_name _ He). unfold DirEntry.name0, DirEntry.u8_at. simpl.
  by rewrite list_lookup_insert_eq by lia.
Qed.

(** ** Scanning slots *)

Definition free_slot (v : list Z) (o : Z) : bool := DirEntry.is_empty (slot v o).

(** The slots in use: up to the first one that was never used, without the
    deleted ones. *)
Fixpoint live (v : list Z) (offs : list Z) : list Z :=
  match offs with
  | [] => []
  | o :: offs =>
      if DirEntry.name0 (slot v o) =? 0x00 then []
      else if DirEntry.name0 (slot v o) =? 0xE5 then live v offs
      else o :: live v offs
  end.
Definition ended (v : list Z) (offs : list Z) : bool := existsb (fun o => DirEntry.name0 (slot v o) =? 0x00) offs.

Definition named (v : list Z) (filename ext : list Z) (o : Z) : bool := DirEntry.matches_name (slot v o) filename ext.

Section Scan.
Context {D : Type} `{DiskLaws D}.
Implicit Types (d : D) (v offs : list Z) (o : Z) (e : DirEntry.t).

Lemma live_app v offs offs' : live v (offs ++ offs') = live v offs ++ (if ended v offs then [] else live v offs').
Proof.
  induction offs as [|o offs IH]; [done|]. simpl. destruct (_ =? 0x00); [done|]. simpl. rewrite IH. by destruct (_ =? _).
Qed.

(** Slots in use ahead of the others are all live. *)
Lemma live_prefix v pre rest :
  Forall (fun o => free_slot v o = false) pre -> live v (pre ++ rest) = pre ++ live v rest.
Proof.
  induction 1 as [|o pre Ho Hpre IH]; [done|]. simpl. unfold free_slot, DirEntry.is_empty in Ho.
  apply orb_false_iff in Ho as [-> ->]. by rewrite IH.
Qed.

Lemma live_sub v offs : live v offs ⊆ offs.
Proof.
  induction offs as [|o offs IH]; [done|]. simpl. repeat case_match; set_solver.
Qed.

Definition scan_cost offs : Z := 2 * Z.of_nat (length offs) + 2.

Lemma write_slots_ok (n : Z) d v offs e :
  rep n d v -> Forall (slot_in v) offs -> FatEntryFacts.entry_wf e -> scan_cost offs <= n ->
  exists d', Slots.write_slots offs e d =
      Some (match List.find (free_slot v) offs with Some o => Return o | None => Ended end, d') /\
    rep (n - scan_cost offs) d' (match List.find (free_slot v) offs with Some o => put_slot v o e | None => v end).
Proof.
  unfold scan_cost. intros Hr Ho He. revert n d Hr. induction Ho as [|o offs Hi Ho IH]; intros n d Hr Hn.
  - exists d. split; [done|]. eapply rep_weaken; [done|]. simpl. lia.
  - simpl in *. destruct (read_slot n d v o Hr Hi) as (d1 & -> & Hr1); [lia|]. simpl.
    unfold free_slot, DirEntry.is_empty. destruct (_ || _).
    + destruct (write_slot (n - 2) d1 v o e) as (d2 & -> & Hr2); [done..|lia|]. exists d2. split; [done|].
      eapply rep_weaken; [done|lia].
    + destruct (IH (n - 2) d1) as (d2 & -> & Hr2); [done|lia|]. exists d2. split; [done|]. eapply rep_weaken; [done|lia].
Qed.

Lemma remove_slots_ok (n : Z) d v offs (f x : list Z) :
  rep n d v -> bytes_ok v -> Forall (slot_in v) offs -> scan_cost offs <= n ->
  exists d', Slots.remove_slots offs f x d =
      Some (match List.find (named v f x) (live v offs) with
            | Some o => Return (Some (slot v o))
            | None => if ended v offs then Return None else Ended
            end, d') /\
    rep (n - scan_cost offs) d'
      (match List.find (named v f x) (live v offs) with
       | Some o => put_slot v o (DirEntry.mark_deleted (slot v o))
       | None => v
       end).
Proof.
  unfold scan_cost. intros Hr Hb Ho. revert n d Hr. induction Ho as [|o offs Hi Ho IH]; intros n d Hr Hn.
  - exists d. split; [done|]. eapply rep_weaken; [done|]. simpl. lia.
  - simpl in *. destruct (read_slot n d v o Hr Hi) as (d1 & -> & Hr1); [lia|]. simpl.
    destruct (IH (n - 2) d1 Hr1 ltac:(lia)) as (d3 & Hd3 & Hr3).
    destruct (_ =? 0x00); [|destruct (_ =? 0xE5)]; simpl.
    + exists d1. split; [done|]. eapply rep_weaken; [done|lia].
    + exists d3. split; [done|]. eapply rep_weaken; [done|lia].
    + change (DirEntry.matches_name (slot v o) f x) with (named v f x o). destruct (named v f x o).
      * destruct (write_slot (n - 2) d1 v o (DirEntry.mark_deleted (slot v o))) as (d2 & -> & Hr2);
          [done..|by apply mark_deleted_wf, slot_wf|lia|].
        exists d2. split; [done|]. eapply rep_weaken; [done|lia].
      * exists d3. split; [done|]. eapply rep_weaken; [done|lia].
Qed.
End Scan.

(** ** The first match of a list *)

Lemma find_decomp {A} (P : A -> bool) (l : list A) (x : A) :
  List.find P l = Some x ->
  exists pre post, l = pre ++ x :: post /\ P x = true /\ Forall (fun y => P y = false) pre.
Proof.
  induction l as [|y l IH]; simpl; [done|]. destruct (P y) eqn:E.
  - intros [= ->]. by exists [], l.
  - intros (pre & post & -> & Hx & Hpre)%IH. exists (y :: pre), post. split_and!; [done|done|by constructor].
Qed.

Lemma find_none {A} (P : A -> bool) (l : list A) : List.find P l = None <-> Forall (fun y => P y = false) l.
Proof.
  induction l as [|y l IH]; simpl; [by split|]. rewrite Forall_cons. destruct (P y); [|rewrite IH; tauto].
  split; [done|]. by intros [? _].
Qed.

Lemma find_app_none {A} (P : A -> bool) (l l' : list A) :
  List.find P l = None -> List.find P (l ++ l') = List.find P l'.
Proof. induction l as [|y l IH]; simpl; [done|]. by destruct (P y). Qed.

Lemma find_app_some {A} (P : A -> bool) (l l' : list A) (x : A) :
  List.find P l = Some x -> List.find P (l ++ l') = Some x.
Proof. induction l as [|y l IH]; simpl; [done|]. by destruct (P y). Qed.

Lemma find_ext {A} (P Q : A -> bool) (l : list A) :
  (forall x, x ∈ l -> P x = Q x) -> List.find P l = List.find Q l.
Proof.
  induction l as [|y l IH]; intros Hl; [done|]. simpl. rewrite (Hl y) by set_solver. destruct (Q y); [done|].
  apply IH. set_solver.
Qed.

(** ** Runs of slots *)

Definition slots_from (base n : Z) : list Z := (fun i => base + i * 32) <$> seqZ 0 n.

Lemma slots_from_cons (base n : Z) : 0 < n -> slots_from base n = base :: slots_from (base + 32) (n - 1).
Proof.
  intros Hn. unfold slots_from. rewrite seqZ_cons by done. simpl. f_equal; [lia|].
  change (Z.succ 0) with 1. replace (seqZ 1 (Z.pred n)) with (Z.add 1 <$> seqZ 0 (n - 1)).
  - rewrite <- list_fmap_compose. apply list_fmap_ext. intros i. simpl. lia.
  - apply (fmap_add_seqZ 1 0 (n - 1)).
Qed.

Lemma slots_from_nil (base n : Z) : n <= 0 -> slots_from base n = [].
Proof. intros Hn. unfold slots_from. by rewrite seqZ_nil. Qed.

Lemma slots_from_length (base n : Z) : length (slots_from base n) = Z.to_nat n.
Proof. unfold slots_from. by rewrite length_fmap, length_seqZ. Qed.

Lemma slots_from_elem (base n o : Z) : o ∈ slots_from base n <-> exists i, o = base + i * 32 /\ 0 <= i < n.
Proof.
  unfold slots_from. rewrite list_elem_of_fmap. setoid_rewrite elem_of_seqZ.
  split; intros (i & -> & Hi); exists i; (split; [done|lia]).
Qed.

Lemma slots_from_apart (base n o o' : Z) :
  o ∈ slots_from base n -> o' ∈ slots_from base n -> o <> o' -> apart o o'.
Proof. intros (i & -> & Hi)%slots_from_elem (j & -> & Hj)%slots_from_elem Hne. unfold apart. lia. Qed.

Lemma slots_from_nodup (base n : Z) : NoDup (slots_from base n).
Proof. unfold slots_from. apply NoDup_fmap_2_strong; [|apply NoDup_seqZ]. intros. lia. Qed.

Lemma offsets_plain (base n : Z) :
  0 <= base -> base + 32 * n < 2 ^ 32 -> Slots.offsets base n = slots_from base n.
Proof.
  intros Hb Hn. unfold Slots.offsets, slots_from, Slots.entry_size. apply map_ext_in. intros i Hi.
  apply list_elem_of_In, elem_of_seqZ in Hi. unfold u32. rewrite (Z.mod_small (i * 32)), Z.mod_small by lia. done.
Qed.

(** ** The root directory *)

(** The entries the iterator of the root directory yields: it stops at the
    first free slot and does not look at the last one. *)
Fixpoint visible (v : list Z) (offs : list Z) : list Z :=
  match offs with
  | [] => []
  | o :: rest =>
      match rest with
      | [] => []
      | _ :: _ => if free_slot v o then [] else o :: visible v rest
      end
  end.

Lemma visible_cons v o rest :
  rest <> [] -> visible v (o :: rest) = if free_slot v o then [] else o :: visible v rest.
Proof. by destruct rest. Qed.

Lemma visible_app v pre rest :
  Forall (fun o => free_slot v o = false) pre -> rest <> [] -> visible v (pre ++ rest) = pre ++ visible v rest.
Proof.
  intros Hp Hr. induction Hp as [|o pre Ho Hp IH]; [done|].
  change ((o :: pre) ++ rest) with (o :: (pre ++ rest)). rewrite visible_cons, Ho, IH; [done|].
  by destruct pre, rest.
Qed.

Definition root_offs (self : RootDirectory.t) : list Z :=
  slots_from (RootDirectory.first_sector self * 512) (RootDirectory.max_entries self).

Record root_ok (self : RootDirectory.t) (v : list Z) : Prop := {
  ro_first : 0 <= RootDirectory.first_sector self;
  ro_max : 1 <= RootDirectory.max_entries self < 2 ^ 16;
  ro_size : RootDirectory.first_sector self * 512 + 32 * RootDirectory.max_entries self <= Z.of_nat (length v)
}.

Section Root.
Context {D : Type} `{DiskLaws D}.
Implicit Types (d : D) (v : list Z) (self : RootDirectory.t).

Lemma root_offsets self v :
  root_ok self v -> Z.of_nat (length v) < 2 ^ 32 ->
  RootDirectory.dir_offset self = RootDirectory.first_sector self * 512 /\
  Slots.offsets (RootDirectory.dir_offset self) (RootDirectory.max_entries self) = root_offs self.
Proof.
  intros [Hf Hm Hs] Hl. assert (RootDirectory.dir_offset self = RootDirectory.first_sector self * 512) as Hd.
  { unfold RootDirectory.dir_offset. apply Z.mod_small. lia. }
  split; [done|]. rewrite Hd. apply offsets_plain; lia.
Qed.

Lemma root_slots_in self v : root_ok self v -> Forall (slot_in v) (root_offs self).
Proof.
  intros [Hf Hm Hs]. apply Forall_forall. intros o (i & -> & Hi)%slots_from_elem. unfold slot_in. lia.
Qed.

Lemma root_offs_length self v : root_ok self v -> Z.of_nat (length (root_offs self)) = RootDirectory.max_entries self.
Proof. intros Hr. pose proof (ro_max _ _ Hr). unfold root_offs. rewrite slots_from_length. lia. Qed.

(** The iterator, standing on the first of [n] remaining slots. *)
Record root_iter v (it : RootDirectoryIter.t) (i n : Z) : Prop := {
  ri_index : RootDirectoryIter.current_index it = i;
  ri_left : RootDirectoryIter.max_index it = i + n;
  ri_bounds : 0 <= i /\ 1 <= n /\ i + n < 2 ^ 16 /\ 0 <= RootDirectoryIter.dir_offset it;
  ri_size : RootDirectoryIter.dir_offset it + 32 * (i + n) <= Z.of_nat (length v);
  ri_current : RootDirectoryIter.current it = slot v (RootDirectoryIter.dir_offset it + 32 * i)
}.

Definition root_rest (it : RootDirectoryIter.t) (i n : Z) : list Z :=
  slots_from (RootDirectoryIter.dir_offset it + 32 * i) n.

Lemma root_next (k : Z) d v it (i n : Z) :
  rep k d v -> root_iter v it i n -> 2 <= k ->
  match visible v (root_rest it i n) with
  | [] => RootDirectoryIter.next it d = Some (None, it, d)
  | o :: rest => exists it' d', RootDirectoryIter.next it d = Some (Some (slot v o, o), it', d') /\
      rep (k - 2) d' v /\ root_iter v it' (i + 1) (n - 1) /\ rest = visible v (root_rest it' (i + 1) (n - 1))
  end.
Proof.
  intros Hr [Hi Hn (Hi0 & Hn1 & Hin & Hb) Hs Hc] Hk. pose proof (rep_size _ _ _ Hr) as Hsz.
  unfold RootDirectoryIter.next, root_rest. rewrite slots_from_cons by lia.
  set (o := RootDirectoryIter.dir_offset it + 32 * i) in *. rewrite Hc. rewrite Hi, Hn.
  assert (u32 (i + 1) = i + 1) as -> by (apply Z.mod_small; lia).
  destruct (Z.leb_spec (i + n) (i + 1)) as [Hlast|Hmore].
  { rewrite (slots_from_nil (o + 32)) by lia. simpl. by destruct (DirEntry.is_empty _). }
  rewrite visible_cons by (by rewrite slots_from_cons by lia). unfold free_slot at 1.
  destruct (DirEntry.is_empty (slot v o)); [done|].
  assert (u32 (RootDirectoryIter.dir_offset it + u32 ((i + 1) * Slots.entry_size)) = o + 32) as ->.
  { unfold Slots.entry_size, o, u32. rewrite (Z.mod_small ((i + 1) * 32)), Z.mod_small by lia. lia. }
  destruct (read_slot k d v (o + 32) Hr) as (d' & -> & Hr'); [unfold slot_in, o in *; lia|lia|]. simpl.
  assert (RootDirectoryIter.current_entry_offset it = o) as ->.
  { unfold RootDirectoryIter.current_entry_offset. rewrite Hi. unfold Slots.entry_size, o, u32.
    rewrite (Z.mod_small (i * 32)), Z.mod_small by lia. lia. }
  eexists _, d'. split; [done|]. split; [done|]. simpl. split.
  - split; simpl; try lia. f_equal. unfold o. lia.
  - f_equal. f_equal. unfold o. lia.
Qed.

Lemma root_find_loop (fuel : nat) (k : Z) d v it (i n : Z) (f x : list Z) :
  rep k d v -> root_iter v it i n -> n < Z.of_nat fuel -> 2 * n <= k ->
  exists d', RootDirectory.find_loop fuel it f x d =
      Some ((fun o => (slot v o, o)) <$> List.find (named v f x) (visible v (root_rest it i n)), d') /\
    rep (k - 2 * n) d' v.
Proof.
  revert k d it i n. induction fuel as [|fuel IH]; intros k d it i n Hr Hit Hf Hk; [pose proof (ri_bounds _ _ _ _ Hit); lia|].
  pose proof (ri_bounds _ _ _ _ Hit) as (_ & Hn & _). simpl.
  pose proof (root_next k d v it i n Hr Hit ltac:(lia)) as Hnext.
  destruct (visible v (root_rest it i n)) as [|o rest] eqn:E.
  - rewrite Hnext. exists d. split; [done|]. eapply rep_weaken; [done|lia].
  - destruct Hnext as (it' & d' & -> & Hr' & Hit' & ->). simpl. fold (named v f x o). destruct (named v f x o).
    + exists d'. split; [done|]. eapply rep_weaken; [done|lia].
    + destruct (IH (k - 2) d' it' (i + 1) (n - 1)) as (d2 & -> & Hr2); [done..|lia|lia|]. exists d2. split; [done|].
      eapply rep_weaken; [done|lia].
Qed.

(** The names of the entries, each with its terminator. *)
Definition names_of v (items : list Z) : list Z := items ≫= fun o => DirEntry.get_full_name (slot v o) ++ [0].

Lemma root_names_loop (fuel : nat) (k : Z) d v it (i n : Z) (names : list Z) :
  rep k d v -> root_iter v it i n -> n < Z.of_nat fuel -> 2 * n <= k ->
  exists d', RootDirectory.names_loop fuel it names d =
      Some (names ++ names_of v (visible v (root_rest it i n)), d') /\ rep (k - 2 * n) d' v.
Proof.
  revert k d it i n names.
  induction fuel as [|fuel IH]; intros k d it i n names Hr Hit Hf Hk; [pose proof (ri_bounds _ _ _ _ Hit); lia|].
  pose proof (ri_bounds _ _ _ _ Hit) as (_ & Hn & _). simpl.
  pose proof (root_next k d v it i n Hr Hit ltac:(lia)) as Hnext.
  destruct (visible v (root_rest it i n)) as [|o rest] eqn:E.
  - rewrite Hnext. exists d. simpl. rewrite app_nil_r. split; [done|]. eapply rep_weaken; [done|lia].
  - destruct Hnext as (it' & d' & -> & Hr' & Hit' & ->). simpl. pose proof (ri_bounds _ _ _ _ Hit') as (_ & Hn' & _).
    destruct (IH (k - 2) d' it' (i + 1) (n - 1) (names ++ DirEntry.get_full_name (slot v o) ++ [0]))
      as (d2 & -> & Hr2); [done..|lia|lia|].
    exists d2. split; [by rewrite <- !app_assoc|]. eapply rep_weaken; [done|lia].
Qed.

Lemma root_iter_start (k : Z) d v self :
  rep k d v -> root_ok self v -> 2 <= k ->
  exists it d', RootDirectory.iter self d = Some (it, d') /\ rep (k - 2) d' v /\
    root_iter v it 0 (RootDirectory.max_entries self) /\ root_rest it 0 (RootDirectory.max_entries self) = root_offs self.
Proof.
  intros Hr Hok Hk. destruct (root_offsets self v Hok (rep_size _ _ _ Hr)) as [Hd _].
  destruct Hok as [Hf Hm Hs]. unfold RootDirectory.iter. rewrite Hd.
  destruct (read_slot k d v (RootDirectory.first_sector self * 512) Hr) as (d' & -> & Hr'); [split; lia|done|]. simpl.
  eexists _, d'. split; [done|]. split; [done|]. split.
  - split; simpl; try lia. f_equal. lia.
  - unfold root_rest. simpl. unfold root_offs. f_equal. lia.
Qed.

(** [find_entry] looks at the visible slots only. *)
Lemma root_find_ok (k : Z) d v self (name : list Z) :
  rep k d v -> root_ok self v -> 2 * RootDirectory.max_entries self + 2 <= k ->
  let '(f, x) := ShortName.raw_short_name name in
  exists d', RootFind.find_entry self name d =
      Some ((fun o => entity_of (slot v o) o) <$> List.find (named v f x) (visible v (root_offs self)), d') /\
    rep (k - (2 * RootDirectory.max_entries self + 2)) d' v.
Proof.
  intros Hr Hok Hk. unfold RootFind.find_entry. destruct (ShortName.raw_short_name name) as [f x].
  pose proof (ro_max _ _ Hok) as Hm.
  destruct (root_iter_start k d v self Hr Hok ltac:(lia)) as (it & d1 & -> & Hr1 & Hit & Hrest).
  cbn [mbind option_bind].
  destruct (root_find_loop (S (Z.to_nat (RootDirectory.max_entries self))) (k - 2) d1 v it 0
    (RootDirectory.max_entries self) f x) as (d2 & -> & Hr2); [done..|lia|lia|].
  rewrite Hrest in *. exists d2. split; [|eapply rep_weaken; [done|lia]]. cbn [mbind option_bind]. by destruct (List.find _ _).
Qed.

Lemma root_write_ok (k : Z) d v self (e : DirEntry.t) :
  rep k d v -> root_ok self v -> FatEntryFacts.entry_wf e -> scan_cost (root_offs self) <= k ->
  exists d', RootDirectory.write_entry self e d = Some (List.find (free_slot v) (root_offs self), d') /\
    rep (k - scan_cost (root_offs self)) d'
      (match List.find (free_slot v) (root_offs self) with Some o => put_slot v o e | None => v end).
Proof.
  intros Hr Hok He Hk. unfold RootDirectory.write_entry.
  destruct (root_offsets self v Hok (rep_size _ _ _ Hr)) as [_ ->].
  destruct (write_slots_ok k d v (root_offs self) e Hr) as (d' & -> & Hr'); [by apply root_slots_in|done..|].
  exists d'. split; [|done]. simpl. by destruct (List.find _ _).
Qed.

Lemma root_remove_ok (k : Z) d v self (f x : list Z) :
  rep k d v -> bytes_ok v -> root_ok self v -> scan_cost (root_offs self) <= k ->
  exists d', RootDirectory.remove_entry self f x d =
      Some (slot v <$> List.find (named v f x) (live v (root_offs self)), d') /\
    rep (k - scan_cost (root_offs self)) d'
      (match List.find (named v f x) (live v (root_offs self)) with
       | Some o => put_slot v o (DirEntry.mark_deleted (slot v o))
       | None => v
       end).
Proof.
  intros Hr Hb Hok Hk. unfold RootDirectory.remove_entry.
  destruct (root_offsets self v Hok (rep_size _ _ _ Hr)) as [_ ->].
  destruct (remove_slots_ok k d v (root_offs self) f x Hr) as (d' & -> & Hr'); [done|by apply root_slots_in|done|].
  exists d'. split; [|done]. simpl. destruct (List.find _ _); [done|]. by destruct (ended _ _).
Qed.
End Root.

(** ** Subdirectories *)

Section Sub.
Context {D : Type} `{DiskLaws D} (table : AllocationTable.t).
Implicit Types (d : D) (v l : list Z) (it : SubdirIter.t).

Definition epc : Z := sectors_per_cluster table * 16.
Definition sub_offs l : list Z := l ≫= fun c => slots_from (location table c) epc.

Lemma epc_ok v : volume table v -> 16 <= epc /\ 32 * epc = bpc table /\ SubDirectory.entries_per_cluster table = epc.
Proof.
  intros Hv. pose proof (vo_cluster _ _ Hv). destruct (bpc_ok table v Hv) as [_ Hb].
  unfold SubDirectory.entries_per_cluster, Slots.entry_size. rewrite Hb. unfold epc, bpc. split_and!; [lia|lia|].
  replace (sectors_per_cluster table * 512) with (sectors_per_cluster table * 16 * 32) by lia. by rewrite Z.div_mul.
Qed.

Lemma cluster_range v (c : Z) :
  volume table v -> data_cluster table v c ->
  0 <= location table c /\ location table c + 32 * epc <= Z.of_nat (length v).
Proof.
  intros Hv (Hc & _ & Hl). destruct (epc_ok v Hv) as (_ & -> & _). destruct (bpc_ok table v Hv) as [Hb _].
  pose proof (vo_data _ _ Hv). pose proof (vo_start _ _ Hv). pose proof (vo_fat _ _ Hv). pose proof (vo_count _ _ Hv).
  unfold location in *. assert (0 <= bpc table * (c - 2)) by nia. assert (0 <= fat_count table * bytes_per_fat table) by nia. lia.
Qed.

Lemma cluster_offsets_ok v (c : Z) :
  volume table v -> Z.of_nat (length v) < 2 ^ 32 -> data_cluster table v c ->
  SubDirectory.cluster_offsets table c = slots_from (location table c) epc /\
  Forall (slot_in v) (slots_from (location table c) epc).
Proof.
  intros Hv Hs Hc. destruct (cluster_range v c Hv Hc) as [Hl0 Hl]. destruct (epc_ok v Hv) as (He & _ & Hep).
  destruct (location_ok table v c Hv Hs Hc) as [Hloc _]. unfold SubDirectory.cluster_offsets. rewrite Hep, Hloc.
  split; [apply offsets_plain; lia|]. apply Forall_forall. intros o (i & -> & Hi)%slots_from_elem. unfold slot_in. lia.
Qed.

(** The iterator, with the slots still to visit. *)
Inductive sub_iter v it : list Z -> Prop :=
| sub_done : DirEntry.name0 (SubdirIter.current it) = 0 -> sub_iter v it []
| sub_at (c i : Z) l :
    SubdirIter.table it = table -> SubdirIter.current_cluster it = c ->
    SubdirIter.current_index_in_cluster it = i -> SubdirIter.entries_per_cluster it = epc ->
    0 <= i < epc -> chain table v c (c :: l) -> (forall x, x ∈ c :: l -> data_cluster table v x) ->
    SubdirIter.current it = slot v (location table c + 32 * i) ->
    sub_iter v it (slots_from (location table c + 32 * i) (epc - i) ++ sub_offs l).

Lemma sub_iter_offset v (c i : Z) it :
  volume table v -> Z.of_nat (length v) < 2 ^ 32 -> data_cluster table v c -> 0 <= i < epc ->
  SubdirIter.table it = table -> SubdirIter.current_cluster it = c -> SubdirIter.current_index_in_cluster it = i ->
  SubdirIter.current_entry_offset it = location table c + 32 * i /\ slot_in v (location table c + 32 * i).
Proof.
  intros Hv Hs Hc Hi Ht Hcc Hci. destruct (cluster_range v c Hv Hc) as [Hl0 Hl].
  destruct (location_ok table v c Hv Hs Hc) as [Hloc _].
  unfold SubdirIter.current_entry_offset, Slots.entry_size. rewrite Ht, Hcc, Hci, Hloc.
  unfold u32. rewrite (Z.mod_small (i * 32)), Z.mod_small by lia. unfold slot_in. lia.
Qed.

(** Reading the slot an iterator has been moved to. *)
Lemma sub_arrive (k : Z) d v it (c i : Z) l :
  rep k d v -> volume table v -> SubdirIter.table it = table -> SubdirIter.current_cluster it = c ->
  SubdirIter.current_index_in_cluster it = i -> SubdirIter.entries_per_cluster it = epc -> 0 <= i < epc ->
  chain table v c (c :: l) -> (forall x, x ∈ c :: l -> data_cluster table v x) ->
  DirEntry.name0 (SubdirIter.current it) <> 0 -> 2 <= k ->
  exists it' d', (if DirEntry.name0 (SubdirIter.current it) =? 0x00 then Some (it, d)
                  else '(current, d) ← DiskStruct.read_entry d (SubdirIter.current_entry_offset it);
                       Some (SubdirIter.at_slot it (SubdirIter.current_cluster it)
                               (SubdirIter.current_index_in_cluster it) current, d)) = Some (it', d') /\
    rep (k - 2) d' v /\ sub_iter v it' (slots_from (location table c + 32 * i) (epc - i) ++ sub_offs l).
Proof.
  intros Hr Hv Ht Hcc Hci He Hi Hch Hdata Hne Hk. rewrite (proj2 (Z.eqb_neq _ _)) by done.
  destruct (sub_iter_offset v c i it Hv (rep_size _ _ _ Hr) (Hdata c ltac:(left)) Hi Ht Hcc Hci) as [-> Hin].
  destruct (read_slot k d v _ Hr Hin Hk) as (d1 & -> & Hr1). simpl. eexists _, d1. split; [done|]. split; [done|].
  by apply sub_at.
Qed.

Lemma exhaust_name (e : DirEntry.t) : FatEntryFacts.entry_wf e -> DirEntry.name0 (SubdirIter.exhaust e) = 0.
Proof.
  intros He. pose proof (FatEntryFacts.ew_name _ He). unfold DirEntry.name0, DirEntry.u8_at. simpl.
  by rewrite list_lookup_insert_eq by lia.
Qed.

Lemma sub_advance (k : Z) d v it (o : Z) rest :
  rep k d v -> volume table v -> sub_iter v it (o :: rest) -> DirEntry.name0 (slot v o) <> 0 -> 4 <= k ->
  SubdirIter.current it = slot v o /\ SubdirIter.current_entry_offset it = o /\
  exists it' d', SubdirIter.advance it d = Some (it', d') /\ rep (k - 4) d' v /\ sub_iter v it' rest.
Proof.
  intros Hr Hv Hit Hne Hk. pose proof (rep_size _ _ _ Hr) as Hs.
  inversion Hit as [|c i l Ht Hcc Hci He Hi Hch Hdata Hcur Hoffs].
  rewrite slots_from_cons in Hoffs by lia. simpl in Hoffs. injection Hoffs as <- Hrest. clear Hit.
  destruct (sub_iter_offset v c i it Hv Hs (Hdata c ltac:(left)) Hi Ht Hcc Hci) as [Hoff Hin].
  split; [done|]. split; [done|]. unfold SubdirIter.advance. rewrite Hci, He, Ht, Hcc.
  assert (u32 (i + 1) = i + 1) as -> by (pose proof (cluster_range v c Hv (Hdata c ltac:(left))); apply Z.mod_small; lia).
  destruct (Z.leb_spec epc (i + 1)) as [Hlast|Hmore].
  - rewrite slots_from_nil in Hrest by lia. simpl in Hrest. subst rest.
    destruct (get_next_ok k d v table c Hr) as (d1 & -> & Hr1);
      [apply Hv|apply table_fits; [done|apply Hdata; left]|lia|]. simpl. unfold next_of.
    inversion Hch as [c1 Hend|c1 c' l' Hent Hc' Hch']; subst c1.
    + rewrite Hend, Hcur. simpl. rewrite exhaust_name by (apply slot_wf; [apply Hv|done]). simpl.
      eexists _, d1. split; [done|]. split; [eapply rep_weaken; [done|lia]|]. apply sub_done. simpl.
      rewrite ?Hcur. apply exhaust_name, slot_wf; [apply Hv|done].
    + subst l'. rewrite Hent, (proj2 (Z.eqb_neq _ _)) by done. destruct (chain_head _ _ _ _ Hch') as [l2 ->].
      destruct (sub_arrive (k - 2) d1 v (SubdirIter.at_slot it c' 0 (SubdirIter.current it)) c' 0 l2)
        as (it' & d' & Hrun & Hr' & Hit'); try done; [destruct (epc_ok v Hv); lia|intros x Hx; apply Hdata; by right|by rewrite <- Hcur in Hne|lia|].
      exists it', d'. split; [exact Hrun|]. split; [eapply rep_weaken; [done|lia]|].
      replace (location table c' + 32 * 0) with (location table c') in Hit' by lia. by rewrite Z.sub_0_r in Hit'.
  - destruct (sub_arrive k d v (SubdirIter.at_slot it c (i + 1) (SubdirIter.current it)) c (i + 1) l)
      as (it' & d' & Hrun & Hr' & Hit'); try done; [lia|by rewrite <- Hcur in Hne|lia|].
    exists it', d'. split; [exact Hrun|]. split; [eapply rep_weaken; [done|lia]|].
    replace (location table c + 32 * (i + 1)) with (location table c + 32 * i + 32) in Hit' by lia.
    replace (epc - (i + 1)) with (epc - i - 1) in Hit' by lia. by rewrite Hrest in Hit'.
Qed.
Lemma sub_iter_zero v it : sub_iter v it [] -> DirEntry.name0 (SubdirIter.current it) = 0.
Proof.
  inversion 1 as [|c i l ? ? ? ? Hi ? ? ? Hoffs]; [done|]. by rewrite slots_from_cons in Hoffs by lia.
Qed.

Lemma sub_iter_current v it (o : Z) rest : sub_iter v it (o :: rest) -> SubdirIter.current it = slot v o.
Proof.
  inversion 1 as [|c i l ? ? ? ? Hi ? ? Hc Hoffs]. rewrite slots_from_cons in Hoffs by lia. by injection Hoffs as <- _.
Qed.

(** One item: the next live slot. *)
Lemma sub_next (fuel : nat) (k : Z) d v it rest :
  rep k d v -> volume table v -> sub_iter v it rest -> (length rest < fuel)%nat -> 4 * Z.of_nat (length rest) <= k ->
  exists it' d', match live v rest with
  | [] => SubdirIter.next fuel it d = Some (None, it', d') /\ rep (k - 4 * Z.of_nat (length rest)) d' v
  | o :: items => exists rest', SubdirIter.next fuel it d = Some (Some (slot v o, o), it', d') /\
      rep (k - 4 * Z.of_nat (length rest - length rest')) d' v /\ sub_iter v it' rest' /\ live v rest' = items /\
      (length rest' < length rest)%nat
  end.
Proof.
  revert k d it rest. induction fuel as [|fuel IH]; intros k d it rest Hr Hv Hit Hf Hk; [lia|]. simpl.
  destruct rest as [|o rest].
  - rewrite (sub_iter_zero _ _ Hit). simpl. exists it, d. split; [done|]. eapply rep_weaken; [done|lia].
  - simpl in Hf, Hk. rewrite (sub_iter_current _ _ _ _ Hit). simpl.
    destruct (Z.eqb_spec (DirEntry.name0 (slot v o)) 0) as [Hz|Hz].
    { exists it, d. split; [done|]. eapply rep_weaken; [done|lia]. }
    destruct (sub_advance k d v it o rest Hr Hv Hit Hz) as (_ & -> & it1 & d1 & -> & Hr1 & Hit1); [lia|]. simpl.
    destruct (Z.eqb_spec (DirEntry.name0 (slot v o)) 0xE5) as [Hd|Hd].
    + destruct (IH (k - 4) d1 it1 rest) as (it2 & d2 & H2); [done..|lia|lia|]. exists it2, d2.
      destruct (live v rest) as [|o' items].
      * destruct H2 as [-> H2]. split; [done|]. eapply rep_weaken; [done|lia].
      * destruct H2 as (rest' & -> & Hr2 & Hit2 & Hlive & Hlen). exists rest'. split; [done|].
        split; [eapply rep_weaken; [done|lia]|]. split; [done|]. split; [done|lia].
    + exists it1, d1, rest. split; [done|]. split; [eapply rep_weaken; [done|lia]|]. split; [done|]. split; [done|lia].
Qed.

Lemma sub_find_loop (fuel slot_fuel : nat) (k : Z) d v it rest (f x : list Z) :
  rep k d v -> volume table v -> sub_iter v it rest -> (length rest < fuel)%nat -> (length rest < slot_fuel)%nat ->
  4 * Z.of_nat (length rest) <= k ->
  exists d', SubDirectory.find_loop fuel slot_fuel it f x d =
      Some ((fun o => (slot v o, o)) <$> List.find (named v f x) (live v rest), d') /\
    rep (k - 4 * Z.of_nat (length rest)) d' v.
Proof.
  revert k d it rest. induction fuel as [|fuel IH]; intros k d it rest Hr Hv Hit Hf Hsf Hk; [lia|]. simpl.
  destruct (sub_next slot_fuel k d v it rest) as (it' & d' & Hnext); [done..|].
  destruct (live v rest) as [|o items] eqn:E.
  - destruct Hnext as [-> Hr']. by exists d'.
  - destruct Hnext as (rest' & -> & Hr' & Hit' & Hlive & Hlen). simpl. fold (named v f x o). destruct (named v f x o).
    + exists d'. split; [done|]. eapply rep_weaken; [done|lia].
    + destruct (IH (k - 4 * Z.of_nat (length rest - length rest')) d' it' rest') as (d2 & -> & Hr2); [done..|lia|lia|lia|].
      exists d2. rewrite Hlive. split; [done|]. eapply rep_weaken; [done|lia].
Qed.

Lemma sub_names_loop (fuel slot_fuel : nat) (k : Z) d v it rest (names : list Z) :
  rep k d v -> volume table v -> sub_iter v it rest -> (length rest < fuel)%nat -> (length rest < slot_fuel)%nat ->
  4 * Z.of_nat (length rest) <= k ->
  exists d', SubDirectory.names_loop fuel slot_fuel it names d =
      Some (names ++ names_of v (live v rest), d') /\
    rep (k - 4 * Z.of_nat (length rest)) d' v.
Proof.
  revert k d it rest names. induction fuel as [|fuel IH]; intros k d it rest names Hr Hv Hit Hf Hsf Hk; [lia|]. simpl.
  destruct (sub_next slot_fuel k d v it rest) as (it' & d' & Hnext); [done..|].
  destruct (live v rest) as [|o items] eqn:E.
  - destruct Hnext as [-> Hr']. exists d'. by rewrite app_nil_r.
  - destruct Hnext as (rest' & -> & Hr' & Hit' & Hlive & Hlen). simpl.
    destruct (IH (k - 4 * Z.of_nat (length rest - length rest')) d' it' rest' (names ++ DirEntry.get_full_name (slot v o) ++ [0]))
      as (d2 & -> & Hr2); [done..|lia|lia|lia|].
    exists d2. rewrite Hlive. split; [by rewrite <- !app_assoc|]. eapply rep_weaken; [done|lia].
Qed.

(** A subdirectory and the chain of its clusters. *)
Definition sub_ok (self : SubDirectory.t) v l : Prop := file_clusters table v (SubDirectory.first_cluster self) l.

Lemma sub_iter_start (k : Z) d v (self : SubDirectory.t) l :
  rep k d v -> volume table v -> sub_ok self v l -> 2 <= k ->
  exists it d', SubDirectory.iter self table d = Some (it, d') /\ rep (k - 2) d' v /\ sub_iter v it (sub_offs l).
Proof.
  intros Hr Hv [Hch Hnd Hdata] Hk. destruct (chain_head _ _ _ _ Hch) as [l' ->].
  set (c := SubDirectory.first_cluster self) in *. pose proof (Hdata c ltac:(left)) as Hc.
  destruct (epc_ok v Hv) as (He & _ & Hep). destruct (location_ok table v c Hv (rep_size _ _ _ Hr) Hc) as [Hloc _].
  destruct (cluster_range v c Hv Hc) as [Hl0 Hl]. unfold SubDirectory.iter. fold c. rewrite Hloc.
  destruct (read_slot k d v (location table c) Hr) as (d1 & -> & Hr1); [split; lia|done|]. simpl.
  eexists _, d1. split; [done|]. split; [done|].
  replace (slots_from (location table c) epc) with (slots_from (location table c + 32 * 0) (epc - 0)) by (f_equal; lia).
  apply sub_at; try done; [lia|]. simpl. f_equal. lia.
Qed.

Lemma sub_find_ok (fuel : nat) (k : Z) d v (self : SubDirectory.t) l (name : list Z) :
  rep k d v -> volume table v -> sub_ok self v l -> (length (sub_offs l) < fuel)%nat ->
  4 * Z.of_nat (length (sub_offs l)) + 2 <= k ->
  let '(f, x) := ShortName.parse_short_name name in
  exists d', SubDirectory.find_entry fuel self name table d =
      Some ((fun o => entity_of (slot v o) o) <$> List.find (named v f x) (live v (sub_offs l)), d') /\
    rep (k - (4 * Z.of_nat (length (sub_offs l)) + 2)) d' v.
Proof.
  intros Hr Hv Hok Hf Hk. unfold SubDirectory.find_entry. destruct (ShortName.parse_short_name name) as [f x].
  destruct (sub_iter_start k d v self l Hr Hv Hok ltac:(lia)) as (it & d1 & -> & Hr1 & Hit). cbn [mbind option_bind].
  destruct (sub_find_loop fuel fuel (k - 2) d1 v it (sub_offs l) f x) as (d2 & -> & Hr2); [done..|lia|].
  exists d2. split; [|eapply rep_weaken; [done|lia]]. cbn [mbind option_bind]. by destruct (List.find _ _).
Qed.
(** *** Taking and deleting slots along the chain *)

Definition chain_cost l : Z := (2 * epc + 4) * Z.of_nat (length l).

Lemma sub_offs_in v l :
  volume table v -> (forall c, c ∈ l -> data_cluster table v c) -> Forall (slot_in v) (sub_offs l).
Proof.
  intros Hv Hl. apply Forall_forall. intros o (c & Ho & Hc)%list_elem_of_bind.
  destruct (cluster_range v c Hv (Hl c Hc)). apply slots_from_elem in Ho as (i & -> & Hi). unfold slot_in. lia.
Qed.

Lemma sub_offs_apart l v (o o' : Z) :
  volume table v -> o ∈ sub_offs l -> o' ∈ sub_offs l -> o <> o' -> apart o o'.
Proof.
  intros Hv (c & Ho & _)%list_elem_of_bind (c' & Ho' & _)%list_elem_of_bind Hne.
  apply slots_from_elem in Ho as (i & -> & _). apply slots_from_elem in Ho' as (j & -> & _).
  destruct (epc_ok v Hv) as (_ & He & _). unfold location, apart in *. rewrite <- He in *.
  replace (32 * epc * (c - 2)) with (32 * (epc * (c - 2))) in * by lia.
  replace (32 * epc * (c' - 2)) with (32 * (epc * (c' - 2))) in * by lia. lia.
Qed.

Lemma write_chain_ok (fuel : nat) (k : Z) d v (c : Z) l (e : DirEntry.t) :
  rep k d v -> volume table v -> chain table v c l -> (forall x, x ∈ l -> data_cluster table v x) ->
  FatEntryFacts.entry_wf e -> (length l <= fuel)%nat -> chain_cost l <= k ->
  exists d', SubDirectory.write_chain fuel c e table d =
      Some (match List.find (free_slot v) (sub_offs l) with Some o => inl o | None => inr (default 0 (last l)) end, d') /\
    rep (k - chain_cost l) d' (match List.find (free_slot v) (sub_offs l) with Some o => put_slot v o e | None => v end).
Proof.
  intros Hr Hv Hch Hdata He. revert k d fuel Hr. destruct (epc_ok v Hv) as (Hep & _).
  induction Hch as [c Hend|c c' l Hent Hc' Hch IH]; intros k d fuel Hr Hf Hk; unfold chain_cost in *; simpl in Hf, Hk;
    destruct fuel as [|fuel]; try lia; cbn [SubDirectory.write_chain];
    destruct (cluster_offsets_ok v c Hv (rep_size _ _ _ Hr) (Hdata c ltac:(left))) as [-> Hin];
    destruct (write_slots_ok k d v (slots_from (location table c) epc) e Hr Hin He) as (d1 & -> & Hr1);
    unfold scan_cost in *; rewrite ?slots_from_length, ?Z2Nat.id in * by lia; try lia; simpl.
  - rewrite app_nil_r. destruct (List.find _ _) as [o|]; [exists d1; split; [done|]; eapply rep_weaken; [done|lia]|].
    destruct (get_next_ok _ d1 v table c Hr1) as (d2 & -> & Hr2);
      [apply Hv|apply table_fits; [done|apply Hdata; left]|lia|].
    simpl. rewrite Hend. simpl. exists d2. split; [done|]. eapply rep_weaken; [done|lia].
  - destruct (List.find _ (slots_from _ _)) as [o|] eqn:E.
    { rewrite (find_app_some _ _ _ _ E). exists d1. split; [done|]. eapply rep_weaken; [done|lia]. }
    rewrite (find_app_none _ _ _ E).
    destruct (get_next_ok _ d1 v table c Hr1) as (d2 & -> & Hr2);
      [apply Hv|apply table_fits; [done|apply Hdata; left]|lia|].
    simpl. rewrite Hent. unfold next_of. rewrite (proj2 (Z.eqb_neq _ _)) by done.
    destruct (IH ltac:(intros x Hx; apply Hdata; by right) (k - (2 * epc + 2) - 2) d2 fuel) as (d3 & -> & Hr3); [done|lia|lia|].
    destruct (chain_head _ _ _ _ Hch) as [l' ->]. exists d3. split; [done|]. eapply rep_weaken; [done|lia].
Qed.

Lemma remove_chain_ok (fuel : nat) (k : Z) d v (c : Z) l (f x : list Z) :
  rep k d v -> volume table v -> chain table v c l -> (forall x, x ∈ l -> data_cluster table v x) ->
  (length l <= fuel)%nat -> chain_cost l <= k ->
  exists d', SubDirectory.remove_chain fuel c f x table d =
      Some (slot v <$> List.find (named v f x) (live v (sub_offs l)), d') /\
    rep (k - chain_cost l) d' (match List.find (named v f x) (live v (sub_offs l)) with
                               | Some o => put_slot v o (DirEntry.mark_deleted (slot v o))
                               | None => v
                               end).
Proof.
  intros Hr Hv Hch Hdata. revert k d fuel Hr. destruct (epc_ok v Hv) as (Hep & _).
  induction Hch as [c Hend|c c' l Hent Hc' Hch IH]; intros k d fuel Hr Hf Hk; unfold chain_cost in *; simpl in Hf, Hk;
    destruct fuel as [|fuel]; try lia; cbn [SubDirectory.remove_chain];
    destruct (cluster_offsets_ok v c Hv (rep_size _ _ _ Hr) (Hdata c ltac:(left))) as [-> Hin];
    destruct (remove_slots_ok k d v (slots_from (location table c) epc) f x Hr (vo_bytes _ _ Hv) Hin) as (d1 & -> & Hr1);
    unfold scan_cost in *; rewrite ?slots_from_length, ?Z2Nat.id in * by lia; try lia; simpl.
  - rewrite app_nil_r. destruct (List.find _ _) as [o|]; [exists d1; split; [done|]; eapply rep_weaken; [done|lia]|].
    destruct (ended v _); [exists d1; split; [done|]; eapply rep_weaken; [done|lia]|].
    destruct (get_next_ok _ d1 v table c Hr1) as (d2 & -> & Hr2);
      [apply Hv|apply table_fits; [done|apply Hdata; left]|lia|].
    simpl. rewrite Hend. simpl. exists d2. split; [done|]. eapply rep_weaken; [done|lia].
  - rewrite live_app. destruct (List.find _ (live v (slots_from _ _))) as [o|] eqn:E.
    { rewrite (find_app_some _ _ _ _ E). exists d1. split; [done|]. eapply rep_weaken; [done|lia]. }
    rewrite (find_app_none _ _ _ E). destruct (ended v _); [exists d1; split; [done|]; eapply rep_weaken; [done|lia]|].
    destruct (get_next_ok _ d1 v table c Hr1) as (d2 & -> & Hr2);
      [apply Hv|apply table_fits; [done|apply Hdata; left]|lia|].
    simpl. rewrite Hent. unfold next_of. rewrite (proj2 (Z.eqb_neq _ _)) by done.
    destruct (IH ltac:(intros y Hy; apply Hdata; by right) (k - (2 * epc + 2) - 2) d2 fuel) as (d3 & -> & Hr3); [done|lia|lia|].
    exists d3. split; [done|]. eapply rep_weaken; [done|lia].
Qed.
(** *** Clearing a cluster *)

Lemma inserts_zeros v (i m m' : nat) :
  (i + (m + m') <= length v)%nat ->
  list_inserts (i + m) (replicate m' 0) (list_inserts i (replicate m 0) v) = list_inserts i (replicate (m + m') 0) v.
Proof.
  intros Hl. apply list_eq. intros j.
  rewrite !lookup_inserts by (rewrite ?length_inserts, ?length_replicate; lia). rewrite !length_replicate.
  repeat case_decide; try lia; try done; rewrite !lookup_replicate_2 by lia; done.
Qed.

Lemma zero_loop_ok (m fuel : nat) (k loc size off : Z) d v :
  rep k d v -> 0 <= loc -> loc + size <= Z.of_nat (length v) -> size = off + 512 * Z.of_nat m -> 0 <= off ->
  (m < fuel)%nat -> 3 * Z.of_nat m <= k ->
  exists d', SubDirectory.zero_loop fuel loc size off d = Some d' /\
    rep (k - 3 * Z.of_nat m) d' (list_inserts (Z.to_nat (loc + off)) (replicate (Z.to_nat (size - off)) 0) v).
Proof.
  revert fuel k off d v. induction m as [|m IH]; intros fuel k off d v Hr Hloc Hsz Heq Hoff Hf Hk;
    (destruct fuel as [|fuel]; [lia|]); cbn [SubDirectory.zero_loop]; pose proof (rep_size _ _ _ Hr) as Hlen.
  - destruct (Z.ltb_spec off size); [lia|]. replace (Z.to_nat (size - off)) with O by lia. simpl. exists d. split; [done|].
    eapply rep_weaken; [done|lia].
  - destruct (Z.ltb_spec off size); [|lia]. rewrite Z.min_r by lia.
    assert (u32 (loc + off) = loc + off) as -> by (apply Z.mod_small; lia).
    assert (u32 (off + 512) = off + 512) as -> by (apply Z.mod_small; lia).
    destruct (write_law k d v (loc + off) (replicate (Z.to_nat 512) 0) Hr) as (d1 & Hw & Hr1);
      rewrite ?length_replicate; [lia|lia|change (access_cost (Z.to_nat 512)) with 3; lia|].
    rewrite Hw. cbn [mbind option_bind]. rewrite length_replicate in Hr1. change (access_cost (Z.to_nat 512)) with 3 in Hr1.
    destruct (IH fuel (k - 3) (off + 512) d1 _ Hr1) as (d2 & -> & Hr2); try done; rewrite ?length_inserts; try lia.
    exists d2. split; [done|]. replace (Z.to_nat (loc + (off + 512))) with (Z.to_nat (loc + off) + Z.to_nat 512)%nat in Hr2 by lia.
    rewrite inserts_zeros in Hr2 by lia.
    replace (Z.to_nat 512 + Z.to_nat (size - (off + 512)))%nat with (Z.to_nat (size - off)) in Hr2 by lia.
    eapply rep_weaken; [done|lia].
Qed.

Definition zeroed v (c : Z) : list Z := list_inserts (Z.to_nat (location table c)) (replicate (Z.to_nat (bpc table)) 0) v.

Lemma zero_cluster_ok (k : Z) d v (c : Z) :
  rep k d v -> volume table v -> data_cluster table v c -> 3 * sectors_per_cluster table <= k ->
  exists d', SubDirectory.zero_cluster table c d = Some d' /\ rep (k - 3 * sectors_per_cluster table) d' (zeroed v c).
Proof.
  intros Hr Hv Hc Hk. destruct (location_ok table v c Hv (rep_size _ _ _ Hr) Hc) as [Hloc _].
  destruct (bpc_ok table v Hv) as [Hb Hbe]. pose proof (vo_cluster _ _ Hv) as Hs. destruct (cluster_range v c Hv Hc) as [Hl0 Hl].
  destruct (epc_ok v Hv) as (_ & He & _). unfold SubDirectory.zero_cluster. rewrite Hloc, Hbe.
  destruct (zero_loop_ok (Z.to_nat (sectors_per_cluster table)) (S (Z.to_nat (bpc table))) k (location table c) (bpc table) 0 d v)
    as (d' & -> & Hr'); try done; try (unfold bpc in *; lia).
  exists d'. split; [done|]. rewrite Z.add_0_r, Z.sub_0_r in Hr'. eapply rep_weaken; [exact Hr'|lia].
Qed.

#[local] Instance in_cluster_dec (c x : Z) : Decision (in_cluster table c x).
Proof. unfold in_cluster. apply _. Defined.

Lemma zeroed_lookup v (c x : Z) :
  volume table v -> data_cluster table v c -> 0 <= x ->
  zeroed v c !! Z.to_nat x = if decide (in_cluster table c x) then Some 0 else v !! Z.to_nat x.
Proof.
  intros Hv Hc Hx. destruct (cluster_range v c Hv Hc) as [Hl0 Hl]. destruct (epc_ok v Hv) as (_ & He & _).
  destruct (bpc_ok table v Hv) as [Hb _].
  unfold zeroed. rewrite lookup_inserts by (rewrite length_replicate; lia). rewrite length_replicate. unfold in_cluster.
  destruct (decide (location table c <= x < _)).
  - rewrite decide_True by lia. apply lookup_replicate_2. lia.
  - rewrite decide_False by lia. done.
Qed.

Lemma zeroed_data_change v (c : Z) : volume table v -> data_cluster table v c -> data_change table v (zeroed v c).
Proof.
  intros Hv Hc. split.
  - apply length_inserts.
  - apply bytes_ok_inserts; [apply Hv|]. apply Forall_replicate. unfold is_u8. lia.
  - intros x Hx Ht. rewrite zeroed_lookup, decide_False; try done. intros Hin.
    eapply cluster_not_table; [exact Hv|apply Hc|exact Hin|exact Ht].
Qed.

Lemma zeroed_slot v (c o : Z) :
  volume table v -> data_cluster table v c -> o ∈ slots_from (location table c) epc ->
  DirEntry.name0 (slot (zeroed v c) o) = 0.
Proof.
  intros Hv Hc (i & -> & Hi)%slots_from_elem. destruct (cluster_range v c Hv Hc) as [Hl0 _].
  destruct (epc_ok v Hv) as (_ & He & _). unfold slot, DirEntry.name0, DirEntry.u8_at, DirEntry.of_bytes. simpl.
  rewrite lookup_take_lt, lookup_take_lt, lookup_drop, Nat.add_0_r by lia.
  rewrite zeroed_lookup by (done || lia). by rewrite decide_True by (unfold in_cluster; lia).
Qed.
(** *** Adding an entry *)

Lemma slot_cluster v (c o x : Z) :
  volume table v -> o ∈ slots_from (location table c) epc -> o <= x < o + 32 -> in_cluster table c x.
Proof.
  intros Hv (i & -> & Hi)%slots_from_elem Hx. destruct (epc_ok v Hv) as (_ & He & _). unfold in_cluster. lia.
Qed.

Lemma sub_offs_elem l (o : Z) : o ∈ sub_offs l -> exists c, c ∈ l /\ o ∈ slots_from (location table c) epc.
Proof. intros (c & Ho & Hc)%list_elem_of_bind. by exists c. Qed.

(** A slot keeps its entry when the volume changes only elsewhere. *)
Lemma slot_kept v v' (o : Z) l :
  volume table v -> (forall c, c ∈ l -> data_cluster table v c) -> o ∈ sub_offs l ->
  (forall c x, c ∈ l -> in_cluster table c x -> v' !! Z.to_nat x = v !! Z.to_nat x) -> slot v' o = slot v o.
Proof.
  intros Hv Hd Ho Hx. pose proof (sub_offs_in v l Hv Hd) as Hin. rewrite Forall_forall in Hin.
  destruct (Hin o Ho) as [Ho0 _]. destruct (sub_offs_elem l o Ho) as (c & Hc & Hoc).
  apply slot_ext; [done|]. intros x Hxo. apply (Hx c); [done|]. by eapply slot_cluster.
Qed.

Lemma put_slot_data_change v l (o : Z) (e : DirEntry.t) :
  volume table v -> (forall c, c ∈ l -> data_cluster table v c) -> o ∈ sub_offs l -> FatEntryFacts.entry_wf e ->
  data_change table v (put_slot v o e).
Proof.
  intros Hv Hd Ho He. pose proof (sub_offs_in v l Hv Hd) as Hin. rewrite Forall_forall in Hin.
  destruct (sub_offs_elem l o Ho) as (c & Hc & Hoc). split.
  - apply put_slot_length.
  - by apply put_slot_bytes; [apply Hv|].
  - intros x Hx Ht. apply put_slot_lookup; [by apply Hin|done|done|]. intros Hxo.
    eapply cluster_not_table; [exact Hv|apply (Hd c Hc)|by eapply slot_cluster|done].
Qed.

(** The subdirectory in the clusters [l], after [e] has been stored in the slot
    [o]; [new] is the cluster that was linked to it, if any. *)
Record sub_added (c0 : Z) v l v' (new : list Z) (o : Z) (e : DirEntry.t) : Prop := {
  sa_clusters : file_clusters table v' c0 (l ++ new);
  sa_new c : c ∈ new -> c ∈ free_list table v;
  sa_one : (length new <= 1)%nat;
  sa_slot : slot v' o = e;
  sa_first : exists pre post rest, sub_offs (l ++ new) = pre ++ o :: post /\ sub_offs l = pre ++ rest /\ o ∉ pre /\
    Forall (fun o' => free_slot v o' = false) pre;
  sa_others o' : o' ∈ sub_offs l -> o' <> o -> slot v' o' = slot v o';
  sa_entries c : in_fat table c -> c ∉ l ++ new -> entry table v' c = entry table v c;
  sa_outside x : 0 <= x -> ~ in_tables table x -> (forall c, c ∈ l ++ new -> ~ in_cluster table c x) ->
    v' !! Z.to_nat x = v !! Z.to_nat x;
  sa_volume : volume table v' /\ length v' = length v
}.

Lemma sub_offs_length v l : volume table v -> Z.of_nat (length (sub_offs l)) = epc * Z.of_nat (length l).
Proof.
  intros Hv. destruct (epc_ok v Hv) as (He & _). induction l as [|c l IH]; [simpl; lia|].
  simpl. rewrite length_app, slots_from_length. lia.
Qed.

Lemma sub_offs_nodup v l : volume table v -> NoDup l -> NoDup (sub_offs l).
Proof.
  intros Hv Hl. induction Hl as [|c l Hc Hl IH]; [apply NoDup_nil_2|]. simpl. apply NoDup_app.
  split; [apply slots_from_nodup|]. split; [|done]. intros o Ho Ho'. destruct (sub_offs_elem l o Ho') as (c' & Hc' & Ho2).
  assert (c = c'); [|congruence]. eapply (clusters_disjoint table v c c' o); [done|eapply slot_cluster..]; try done; lia.
Qed.

Lemma add_in_place (c0 : Z) v l (o : Z) (e : DirEntry.t) :
  volume table v -> file_clusters table v c0 l -> FatEntryFacts.entry_wf e ->
  List.find (free_slot v) (sub_offs l) = Some o -> sub_added c0 v l (put_slot v o e) [] o e.
Proof.
  intros Hv Hf He Hfind. pose proof (fl_data _ _ _ _ Hf) as Hd. pose proof (sub_offs_in v l Hv Hd) as Hin.
  rewrite Forall_forall in Hin. destruct (find_decomp _ _ _ Hfind) as (pre & post & Hoffs & _ & Hpre).
  assert (o ∈ sub_offs l) as Ho by (rewrite Hoffs; set_solver).
  pose proof (put_slot_data_change v l o e Hv Hd Ho He) as Hch. split; rewrite ?app_nil_r.
  - by eapply file_data_change.
  - by intros c ?%elem_of_nil.
  - simpl. lia.
  - apply put_slot_same; [by apply Hin|done].
  - pose proof (sub_offs_nodup v l Hv (fl_nodup _ _ _ _ Hf)) as Hnd. rewrite Hoffs in Hnd.
    apply NoDup_app in Hnd as (_ & Hnd & _). exists pre, post, (o :: post). split_and!; [done|done| |done].
    intros Hp. apply (Hnd o Hp). left.
  - intros o' Ho' Hne. apply put_slot_other; [by apply Hin|done|apply (Hin o' Ho')|]. by eapply sub_offs_apart.
  - intros c Hc _. by eapply entry_data_change.
  - intros x Hx _ Hn. destruct (sub_offs_elem l o Ho) as (c & Hc & Hoc). apply put_slot_lookup; [by apply Hin|done|done|].
    intros Hxo. by eapply (Hn c Hc), slot_cluster.
  - split; [by eapply volume_change; [done|apply Hch..]|apply Hch].
Qed.

Lemma add_in_cluster (c0 c : Z) v v2 l (e : DirEntry.t) :
  volume table v -> file_clusters table v c0 l -> FatEntryFacts.entry_wf e ->
  Forall (fun o => free_slot v o = false) (sub_offs l) ->
  file_clusters table v2 c0 (l ++ [c]) -> grown table v l v2 [c] ->
  sub_added c0 v l (put_slot (zeroed v2 c) (location table c) e) [c] (location table c) e.
Proof.
  intros Hv Hf He Hnone Hf2 Hg. pose proof (gr_change _ _ _ _ _ Hg) as Hch1.
  assert (volume table v2) as Hv2 by (by eapply volume_change; [done|apply Hch1..]).
  pose proof (fl_data _ _ _ _ Hf2) as Hd2. pose proof (Hd2 c ltac:(set_solver)) as Hdc.
  pose proof (zeroed_data_change v2 c Hv2 Hdc) as Hz.
  assert (volume table (zeroed v2 c)) as Hv3 by (by eapply volume_change; [done|apply Hz..]).
  destruct (epc_ok v Hv) as (Hep & _).
  assert (location table c ∈ slots_from (location table c) epc) as Hloc.
  { apply slots_from_elem. exists 0. lia. }
  assert (location table c ∈ sub_offs (l ++ [c])) as Ho.
  { unfold sub_offs. apply list_elem_of_bind. exists c. split; [done|set_solver]. }
  assert (forall c', c' ∈ l ++ [c] -> data_cluster table (zeroed v2 c) c') as Hd3.
  { intros c' Hc'. eapply data_cluster_length; [apply Hz|by apply Hd2]. }
  pose proof (put_slot_data_change (zeroed v2 c) (l ++ [c]) _ e Hv3 Hd3 Ho He) as Hp.
  pose proof (sub_offs_in _ _ Hv3 Hd3) as Hin. rewrite Forall_forall in Hin. pose proof (Hin _ Ho) as Hin0.
  assert (c ∉ l) as Hcl.
  { intros Hc. pose proof (fl_nodup _ _ _ _ Hf2) as Hnd. apply NoDup_app in Hnd as (_ & Hnd & _). apply (Hnd c Hc). left. }
  assert (forall x, 0 <= x -> ~ in_tables table x -> ~ in_cluster table c x ->
    put_slot (zeroed v2 c) (location table c) e !! Z.to_nat x = v !! Z.to_nat x) as Hsame.
  { intros x Hx Ht Hc. rewrite put_slot_lookup; [|done..|].
    - rewrite zeroed_lookup, decide_False by done. by apply Hch1.
    - intros Hxo. apply Hc. by eapply slot_cluster. }
  split.
  - eapply file_data_change; [exact Hv3|exact Hp|]. eapply file_data_change; [exact Hv2|exact Hz|done].
  - apply Hg.
  - simpl. lia.
  - by apply put_slot_same.
  - exists (sub_offs l), (slots_from (location table c + 32) (epc - 1)), []. split_and!; [|by rewrite app_nil_r| |done].
    + unfold sub_offs. rewrite bind_app. simpl. rewrite app_nil_r, slots_from_cons by lia. done.
    + intros Ho'. destruct (sub_offs_elem l _ Ho') as (c' & Hc' & Ho2). apply Hcl.
      replace c with c'; [done|]. eapply (clusters_disjoint table v c' c (location table c)); [done|eapply slot_cluster..]; try done; lia.
  - intros o' Ho' Hne. apply (slot_kept v _ o' l Hv (fl_data _ _ _ _ Hf) Ho'). intros c' x Hc' Hx.
    pose proof (fl_data _ _ _ _ Hf c' Hc') as Hdc'. destruct (cluster_range v c' Hv Hdc'). apply Hsame.
    + unfold in_cluster in Hx. lia.
    + eapply cluster_not_table; [done|apply Hdc'|done].
    + intros Hx2. apply Hcl. by rewrite (clusters_disjoint table v c c' x Hv Hx2 Hx).
  - intros c' Hc' Hn. rewrite (entry_data_change table (zeroed v2 c)), (entry_data_change table v2) by done.
    apply Hg; [done|set_solver..].
  - intros x Hx Ht Hn. apply Hsame; [done..|]. apply Hn. set_solver.
  - split; [by eapply volume_change; [exact Hv3|apply Hp..]|]. rewrite (dc_length _ _ _ Hp), (dc_length _ _ _ Hz). apply Hch1.
Qed.

Definition sub_write_cost l : Z := chain_cost l + link_cost table + 3 * sectors_per_cluster table + 2.

Lemma sub_write_ok (fuel : nat) (k : Z) d v (self : SubDirectory.t) l (e : DirEntry.t) :
  rep k d v -> volume table v -> scan_fits table v -> sub_ok self v l -> FatEntryFacts.entry_wf e ->
  (length l <= fuel)%nat -> free_list table v <> [] \/ is_Some (List.find (free_slot v) (sub_offs l)) ->
  sub_write_cost l <= k ->
  exists o d' v' new, SubDirectory.write_entry fuel self e table d = Some (Some o, d') /\
    rep (k - sub_write_cost l) d' v' /\ sub_added (SubDirectory.first_cluster self) v l v' new o e.
Proof.
  intros Hr Hv Hsc Hf He Hfuel Hroom Hk. unfold sub_write_cost in *. pose proof (vo_cluster _ _ Hv) as Hspc.
  assert (0 <= link_cost table) as Hlc by (pose proof (vo_count _ _ Hv); unfold link_cost, allocate_cost; lia).
  destruct (write_chain_ok fuel k d v (SubDirectory.first_cluster self) l e Hr Hv (fl_chain _ _ _ _ Hf) (fl_data _ _ _ _ Hf))
    as (d1 & Hw & Hr1); [done..|lia|]. unfold SubDirectory.write_entry. rewrite Hw. cbn [mbind option_bind].
  destruct (List.find (free_slot v) (sub_offs l)) as [o|] eqn:E.
  { exists o, d1, (put_slot v o e), []. split; [done|]. split; [eapply rep_weaken; [done|lia]|]. by apply add_in_place. }
  destruct Hroom as [Hroom|[? ?]]; [|done]. apply find_none in E.
  destruct (last l) as [prev|] eqn:Hl;
    [|apply last_None in Hl as ->; pose proof (fl_chain _ _ _ _ Hf) as Hc; inversion Hc].
  destruct (link_one table _ d1 v _ l prev Hr1 Hv Hsc Hf Hl Hroom) as (c & d2 & d3 & v2 & Ha & Hs & Hr3 & Hf2 & Hg); [lia|].
  rewrite Ha. cbn [mbind option_bind default id]. rewrite Hs. cbn [mbind option_bind].
  assert (volume table v2) as Hv2 by (by eapply volume_change; [done|apply Hg..]).
  pose proof (fl_data _ _ _ _ Hf2 c ltac:(set_solver)) as Hdc.
  destruct (zero_cluster_ok _ d3 v2 c Hr3 Hv2 Hdc) as (d4 & -> & Hr4); [lia|]. cbn [mbind option_bind].
  destruct (location_ok table v2 c Hv2 (rep_size _ _ _ Hr3) Hdc) as [-> _].
  destruct (cluster_range v2 c Hv2 Hdc). destruct (epc_ok v Hv) as (Hep & _).
  destruct (write_slot _ d4 (zeroed v2 c) (location table c) e Hr4) as (d5 & -> & Hr5);
    [unfold slot_in, zeroed; rewrite length_inserts; lia|done|lia|]. cbn [mbind option_bind].
  eexists _, d5, _, [c]. split; [done|]. split; [eapply rep_weaken; [exact Hr5|lia]|].
  by eapply add_in_cluster.
Qed.
(** The entry is what the name leads to afterwards. *)
Lemma added_found (c0 : Z) v l v' new (o : Z) (e : DirEntry.t) (f x : list Z) :
  sub_added c0 v l v' new o e -> DirEntry.is_empty e = false -> DirEntry.matches_name e f x = true ->
  List.find (named v f x) (live v (sub_offs l)) = None ->
  List.find (named v' f x) (live v' (sub_offs (l ++ new))) = Some o.
Proof.
  intros Ha He Hm Hnone. destruct (sa_first _ _ _ _ _ _ _ Ha) as (pre & post & rest & -> & Hl & Ho & Hpre).
  assert (forall o', o' ∈ pre -> slot v' o' = slot v o') as Hsame.
  { intros o' Ho'. apply (sa_others _ _ _ _ _ _ _ Ha); [rewrite Hl; set_solver|congruence]. }
  rewrite Hl, live_prefix in Hnone by done.
  rewrite live_prefix.
  - simpl. rewrite (sa_slot _ _ _ _ _ _ _ Ha). unfold DirEntry.is_empty in He. apply orb_false_iff in He as [-> ->].
    rewrite find_app_none; [simpl; unfold named; by rewrite (sa_slot _ _ _ _ _ _ _ Ha), Hm|].
    rewrite (find_ext _ (named v f x)); [|intros o' Ho'; unfold named; by rewrite Hsame].
    destruct (List.find _ pre) eqn:E; [|done]. by rewrite (find_app_some _ _ _ _ E) in Hnone.
  - apply Forall_forall. intros o' Ho'. unfold free_slot. rewrite Hsame by done.
    rewrite Forall_forall in Hpre. by apply Hpre.
Qed.
End Sub.

(** ** Fresh entries *)

Lemma month_loop_total (y yd : Z) :
  0 <= yd -> exists m lp, Timestamp.month_loop 13 y yd 0 0 = Some (m, lp) /\ 1 <= m <= 12.
Proof.
  intros Hyd.
  assert (forall fuel m lp, 1 <= m <= 12 ->
    exists m' lp', Timestamp.month_loop fuel y yd m lp = Some (m', lp') /\ 1 <= m' <= 12) as Hloop.
  { intros fuel. induction fuel as [|fuel IH]; intros m lp Hm; [by eexists _, _|]. cbn [Timestamp.month_loop].
    destruct (Z.ltb_spec m 12); [|by eexists _, _].
    destruct (lookup_lt_is_Some_2 Timestamp.MONTH_START_OFFSET (Z.to_nat m)) as [st ->]; [simpl; lia|]. cbn [mbind option_bind].
    destruct (_ <=? yd); [apply IH; lia|by eexists _, _]. }
  change 13%nat with (S 12). remember 12%nat as fuel. simpl. destruct yd; [apply Hloop; lia..|lia].
Qed.

Lemma lor_u16 (a b : Z) : is_u16 a -> is_u16 b -> is_u16 (a .| b).
Proof.
  unfold is_u16. intros Ha Hb. split; [apply Z.lor_nonneg; lia|].
  destruct (Z.eq_dec (a .| b) 0) as [->|Hne]; [lia|].
  assert (0 <= a .| b) by (apply Z.lor_nonneg; lia). apply Z.log2_lt_pow2; [lia|]. rewrite Z.log2_lor by lia.
  apply Z.max_lub_lt; (destruct (Z.eq_dec a 0), (Z.eq_dec b 0); subst; try (simpl; lia); apply Z.log2_lt_pow2; lia).
Qed.

Lemma decode_total (ts : Z) :
  0 <= ts -> exists date time, Timestamp.decode_timestamp ts = Some (date, time) /\ is_u16 date /\ is_u16 time.
Proof.
  intros Hts. unfold Timestamp.decode_timestamp. set (days := ts / 86400). assert (0 <= days) by (apply Z.div_pos; lia).
  set (qd := days mod (365 + 365 + 365 + 366)). set (yd := if 365 <? qd then (qd - 366) mod 365 else qd).
  assert (0 <= yd) as Hyd.
  { unfold yd. case_match; [apply Z.mod_pos_bound; lia|]. apply Z.mod_pos_bound. lia. }
  destruct (month_loop_total (u32 (days * 100) / 36525) yd Hyd) as (m & lp & -> & Hm). cbn [mbind option_bind].
  destruct (lookup_lt_is_Some_2 Timestamp.MONTH_START_OFFSET (Z.to_nat (m - 1))) as [st ->]; [simpl; lia|]. cbn [mbind option_bind].
  eexists _, _. split; [done|].
  assert (forall x, is_u16 (u16 x)) as Hu by (intros x; unfold is_u16, u16; apply Z.mod_pos_bound; lia).
  assert (forall x, is_u16 (x .& 0x1f)) as H1f.
  { intros x. unfold is_u16. change 0x1f with (Z.ones 5). rewrite Z.land_ones by lia.
    pose proof (Z.mod_pos_bound x (2 ^ 5)). lia. }
  split; unfold FileDate.from_parts, FileTime.from_parts; repeat apply lor_u16; auto.
  unfold is_u16, u8. rewrite Z.shiftr_div_pow2 by lia. word.
Qed.

(** [add_entry] never panics on the clock. *)
Lemma fresh_entry_ok (f x : list Z) (attributes c now : Z) :
  length f = 8%nat -> length x = 3%nat -> Forall is_u8 f -> Forall is_u8 x -> is_u8 attributes -> is_u16 c -> 0 <= now ->
  exists e, Slots.fresh_entry f x attributes c now = Some e /\ FatEntryFacts.entry_wf e /\
    DirEntry.file_name e = f /\ DirEntry.ext e = x /\ DirEntry.attributes e = attributes /\
    DirEntry.first_file_cluster e = c /\ DirEntry.byte_size e = 0.
Proof.
  intros Hf Hx Hfb Hxb Ha Hc Hn. unfold Slots.fresh_entry.
  destruct (decode_total now Hn) as (date & time & -> & Hd & Ht). cbn [mbind option_bind]. eexists. split; [done|].
  split; [|done]. split; simpl; try done; split_and!; try done; unfold is_u8, is_u16, is_u32; lia.
Qed.

Lemma short_name_ok (name : list Z) : Forall is_u8 name ->
  length (ShortName.parse_short_name name).1 = 8%nat /\ length (ShortName.parse_short_name name).2 = 3%nat /\
  Forall is_u8 (ShortName.parse_short_name name).1 /\ Forall is_u8 (ShortName.parse_short_name name).2.
Proof.
  intros Hn. destruct (raw_u8 name Hn) as [H1 H2]. rewrite parse_upper. simpl. rewrite !length_map.
  split_and!; try (by apply map_upper_u8); unfold ShortName.raw_short_name; destruct (ShortName.split_name name); apply pad_length.
Qed.

(** The character comparison does not see the case of the name looked up. *)
Lemma char_matches_upper (a b : Z) :
  is_u8 b -> DirEntry.ascii_char_matches a (to_ascii_uppercase b) = DirEntry.ascii_char_matches a b.
Proof.
  unfold is_u8, to_ascii_uppercase, DirEntry.ascii_char_matches. intros Hb.
  repeat case_match; bool_facts; try done; try lia; apply eq_true_iff_eq; rewrite ?orb_true_iff, ?Z.eqb_eq; unfold u8;
    Z.div_mod_to_equations; lia.
Qed.

Lemma all_match_upper (l l' : list Z) :
  Forall is_u8 l' -> DirEntry.all_match l (map to_ascii_uppercase l') = DirEntry.all_match l l'.
Proof.
  intros Hl. revert l. induction Hl as [|b l' Hb Hl IH]; intros [|a l]; simpl; try done.
  by rewrite char_matches_upper, IH.
Qed.

(** The two ways [find_entry] prepares a name agree. *)
Lemma named_raw_parse (v name : list Z) (o : Z) :
  Forall is_u8 name ->
  named v (ShortName.parse_short_name name).1 (ShortName.parse_short_name name).2 o =
  named v (ShortName.raw_short_name name).1 (ShortName.raw_short_name name).2 o.
Proof.
  intros Hn. destruct (raw_u8 name Hn). unfold named, DirEntry.matches_name. rewrite parse_upper. simpl.
  by rewrite !all_match_upper.
Qed.

(** ** Listing a directory *)

Section Listing.
Context {D : Type} `{DiskLaws D} (table : AllocationTable.t).
Implicit Types (d : D) (v l : list Z).

(** A directory just opened, and the names a listing of it holds. *)
Inductive dir_listing v : Directory.t -> list Z -> nat -> Prop :=
| listing_root root :
    root_ok root v ->
    dir_listing v (Directory.from_root_dir root) (names_of v (visible v (root_offs root))) (length (root_offs root))
| listing_sub entry l :
    file_clusters table v (DirEntry.first_file_cluster entry) l ->
    dir_listing v (Directory.from_dir_entry entry) (names_of v (live v (sub_offs table l))) (length (sub_offs table l)).

Lemma fetch_ok (fuel : nat) (k : Z) d v (self : Directory.t) (names : list Z) (slots : nat) :
  rep k d v -> volume table v -> dir_listing v self names slots -> (slots < fuel)%nat -> 4 * Z.of_nat slots + 2 <= k ->
  exists d', DirectoryRead.fetch fuel self table d =
      Some ({| Directory.dir_type := Directory.dir_type self; Directory.entries_fetched := true;
               Directory.entries := names |}, d') /\ rep (k - (4 * Z.of_nat slots + 2)) d' v.
Proof.
  intros Hr Hv [root Hroot|entry l Hsub] Hf Hk; unfold DirectoryRead.fetch;
    cbn [Directory.entries_fetched Directory.dir_type Directory.entries Directory.from_root_dir Directory.from_dir_entry].
  - rewrite (root_offs_length root v Hroot) in *. pose proof (ro_max _ _ Hroot).
    destruct (root_iter_start k d v root Hr Hroot ltac:(lia)) as (it & d1 & -> & Hr1 & Hit & Hrest). cbn [mbind option_bind].
    destruct (root_names_loop (S (Z.to_nat (RootDirectory.max_entries root))) (k - 2) d1 v it 0
      (RootDirectory.max_entries root) []) as (d2 & -> & Hr2); [done..|lia|lia|].
    rewrite Hrest. exists d2. split; [done|]. eapply rep_weaken; [done|lia].
  - destruct (sub_iter_start table k d v (SubDirectory.new (DirEntry.first_file_cluster entry)) l Hr Hv Hsub ltac:(lia))
      as (it & d1 & -> & Hr1 & Hit). cbn [mbind option_bind].
    destruct (sub_names_loop table fuel fuel (k - 2) d1 v it (sub_offs table l) []) as (d2 & -> & Hr2); [done..|lia|].
    exists d2. split; [done|]. eapply rep_weaken; [done|lia].
Qed.

Lemma copy_loop_ok (k : nat) (entries buffer : list Z) (off bw : nat) :
  (off + bw + k <= length entries)%nat -> (bw + k <= length buffer)%nat ->
  DirectoryRead.copy_loop k entries off buffer bw = Some (list_inserts bw (take k (drop (off + bw) entries)) buffer).
Proof.
  revert buffer bw. induction k as [|k IH]; intros buffer bw He Hb; [done|]. simpl.
  destruct (lookup_lt_is_Some_2 entries (off + bw)) as [b Hlk]; [lia|]. rewrite Hlk. simpl.
  rewrite IH by (rewrite ?length_insert; lia). rewrite (drop_S entries b (off + bw) Hlk). simpl. f_equal.
  rewrite Nat.add_succ_r. apply list_eq. intros j.
  rewrite lookup_inserts by (rewrite length_insert, length_take, length_drop; lia).
  destruct (decide (j = bw)) as [->|Hne].
  - rewrite decide_False by lia. by rewrite !list_lookup_insert_eq by (rewrite ?length_inserts; lia).
  - rewrite (list_lookup_insert_ne (list_inserts _ _ _)), (list_lookup_insert_ne buffer) by done.
    rewrite lookup_inserts by (rewrite length_take, length_drop; lia). done.
Qed.
End Listing.

Module FatDirProps.

(** A name whose entry is neither an end marker nor deleted. *)
Definition storable (name : list Z) : Prop :=
  DirEntry.u8_at (ShortName.parse_short_name name).1 0 <> 0x00 /\
  DirEntry.u8_at (ShortName.parse_short_name name).1 0 <> 0xE5.

Lemma storable_entry (e : DirEntry.t) (name : list Z) :
  storable name -> DirEntry.file_name e = (ShortName.parse_short_name name).1 -> DirEntry.is_empty e = false.
Proof.
  intros [H0 H1] Hf. unfold DirEntry.is_empty, DirEntry.name0. rewrite Hf.
  by rewrite !(proj2 (Z.eqb_neq _ _)).
Qed.


(** reading a directory returns the names of its entries, each with a
    terminating 0, from the given offset on and as many bytes as fit: the
    entries in use for a subdirectory, those ahead of the first free slot for
    the root directory.  An offset beyond the end is not refused: the length
    left wraps around and the driver panics. *)
Theorem directory_read_spec {D} `{DiskLaws D} (table : AllocationTable.t) (fuel : nat) (k : Z) (d : D) (v : list Z)
    (self : Directory.t) (names : list Z) (slots : nat) (buffer : list Z) (offset : Z) :
  rep k d v -> volume table v -> dir_listing table v self names slots ->
  (slots < fuel)%nat -> 4 * Z.of_nat slots + 2 <= k ->
  0 <= offset < 2 ^ 32 -> Z.of_nat (length names) < 2 ^ 32 ->
  let n := Nat.min (length names - Z.to_nat offset) (length buffer) in
  if decide (offset <= Z.of_nat (length names)) then
    exists self' d', DirectoryRead.read fuel self buffer offset table d =
      Some (Z.of_nat n, take n (drop (Z.to_nat offset) names) ++ drop n buffer, self', d') /\
      Directory.entries self' = names /\ Directory.entries_fetched self' = true
  else buffer <> [] -> DirectoryRead.read fuel self buffer offset table d = None.
Proof.
  intros Hr Hv Hdir Hf Hk Hoff Hnames n. unfold DirectoryRead.read.
  destruct (fetch_ok table fuel k d v self names slots) as (d1 & -> & Hr1); [done..|]. cbn [mbind option_bind Directory.entries].
  destruct (decide (offset <= Z.of_nat (length names))) as [Hle|Hgt].
  - assert (u32 (Z.of_nat (length names) - offset) = Z.of_nat (length names) - offset) as -> by (apply Z.mod_small; lia).
    assert (Z.min (Z.of_nat (length names) - offset) (Z.of_nat (length buffer)) = Z.of_nat n) as -> by (unfold n; lia).
    rewrite Nat2Z.id, copy_loop_ok by (unfold n; lia). cbn [mbind option_bind]. rewrite Nat.add_0_r.
    eexists {| Directory.entries_fetched := true; Directory.entries := names |}, d1. split; [|done]. do 4 f_equal.
    apply list_eq. intros j. assert (length (take n (drop (Z.to_nat offset) names)) = n) as Hn.
    { rewrite length_take, length_drop. unfold n. lia. }
    rewrite lookup_inserts by (rewrite Hn; unfold n; lia). rewrite Hn. destruct (decide _).
    + rewrite lookup_app_l by lia. f_equal. lia.
    + rewrite lookup_app_r, Hn, lookup_drop by lia. f_equal. lia.
  - intros Hne. assert (1 <= u32 (Z.of_nat (length names) - offset)) as Hpos.
    { unfold u32. replace (Z.of_nat (length names) - offset)
        with (2 ^ 32 + Z.of_nat (length names) - offset + (-1) * 2 ^ 32) by lia.
      rewrite Z.mod_add, Z.mod_small by lia. lia. }
    assert (0 < length buffer)%nat by (destruct buffer; [by destruct Hne|simpl; lia]). set (m := Z.min _ _).
    assert (exists m', Z.to_nat m = S m') as [m' ->] by (exists (Z.to_nat m - 1)%nat; unfold m; lia).
    simpl. rewrite Nat.add_0_r, lookup_ge_None_2 by lia. done.
Qed.

(** ** A sample volume *)

Import FatTableProps FatFileProps.

#[local] Existing Instance array_disk.
#[local] Existing Instance array_disk_laws.

(** An empty subdirectory in cluster 2. *)
Definition sub_volume : list Z := put_entry empty_volume 512 2 0xfff.
Definition sample_sub : SubDirectory.t := SubDirectory.new 2.
(** The root directory of the sample volume: 16 entries ahead of the data area. *)
Definition sample_root : RootDirectory.t := RootDirectory.new 13 16.

Lemma sub_volume_ok : volume sample_table sub_volume.
Proof. apply (volume_put sample_table _ 2 0xfff 0); [exact empty_volume_ok|lia]. Qed.

Lemma sample_sub_ok : sub_ok sample_table sample_sub sub_volume [2].
Proof.
  split.
  - apply chain_last. vm_compute. reflexivity.
  - apply NoDup_singleton.
  - intros c ->%list_elem_of_singleton. vm_compute; split_and!; congruence.
Qed.

Lemma sample_root_ok : root_ok sample_root empty_volume.
Proof. split; [vm_compute; congruence|split; [vm_compute; congruence|vm_compute; reflexivity]|vm_compute; congruence]. Qed.


Lemma directory_read_witness :
  DirectoryRead.read 100 (Directory.from_root_dir sample_root) [7] 5 sample_table empty_volume = None.
Proof.
  assert (rep 100 empty_volume empty_volume) as Hrep by array_rep.
  pose proof (directory_read_spec sample_table 100 100 empty_volume empty_volume (Directory.from_root_dir sample_root)
    (names_of empty_volume (visible empty_volume (root_offs sample_root))) (length (root_offs sample_root)) [7] 5
    Hrep empty_volume_ok (listing_root _ _ _ sample_root_ok) ltac:(vm_compute; lia) ltac:(vm_compute; congruence)
    ltac:(lia) ltac:(vm_compute; reflexivity)) as Hw.
  cbv zeta in Hw. rewrite decide_False in Hw by (vm_compute; congruence). by apply Hw.
Defined.
End FatDirProps.
