(* ===== verification/FatDriver.v ===== *)
(** * The FAT driver

    [components/drivers/fatdriver/src/driver.rs] and [fs.rs]: the file system
    calls of the driver, over its open handles and its file mappings.  A call
    is a function of the driver's state that may panic or run out of fuel
    ([None]), fail with a [FatError], or return; in the last two cases the
    state after the call is given, so what a failed call leaves behind is
    visible.  The state monad [M] threads it.  The fuel bounds the walks along
    cluster chains. *)

From S2P Require Import Prelude Api FatDisk FatCache FatTable FatEntry FatFile FatDir.

(** ** The file system *)

Module FatFS.
Record t (D : Type) := { disk : D; bpb : BiosParamBlock.t; table : AllocationTable.t }.
#[global] Arguments disk {D} _.
#[global] Arguments bpb {D} _.
#[global] Arguments table {D} _.
#[global] Arguments Build_t {D} _ _ _.

(** [read_struct_from_disk] of the packed [BiosParamBlock]. *)
Definition bpb_size : nat := 13.
Definition bpb_of_bytes (b : list Z) : BiosParamBlock.t :=
  {| BiosParamBlock.bytes_per_sector := DirEntry.u16_at b 0;
     BiosParamBlock.sectors_per_cluster := DirEntry.u8_at b 2;
     BiosParamBlock.reserved_sectors := DirEntry.u16_at b 3;
     BiosParamBlock.fat_count := DirEntry.u8_at b 5;
     BiosParamBlock.root_directory_entries := DirEntry.u16_at b 6;
     BiosParamBlock.total_sectors := DirEntry.u16_at b 8;
     BiosParamBlock.media_descriptor := DirEntry.u8_at b 10;
     BiosParamBlock.sectors_per_fat := DirEntry.u16_at b 11 |}.

(** [new] after [DiskAccess::new]: read the parameter block. *)
Definition mount {D} `{Disk D} (disk : D) : option (t D) :=
  match read_bytes_from_disk disk 0xb (replicate bpb_size 0) with
  | Some (disk, bytes, _) =>
      let bpb := bpb_of_bytes bytes in
      Some {| disk := disk; bpb := bpb; table := AllocationTable.from_bpb bpb |}
  | None => None
  end.

Definition new {IO} `{DiskIO IO} (mmap : nat -> list Z) (disk_io : IO) : option (t (DiskAccess.t IO)) :=
  mount (DiskAccess.new mmap disk_io 65536).

Definition get_root_directory {D} (self : t D) : RootDirectory.t :=
  RootDirectory.new (BiosParamBlock.first_root_directory_sector (bpb self))
    (BiosParamBlock.root_directory_entries (bpb self)).
End FatFS.

(** ** Handles *)

(** The driver's own [SlotList]. *)
Module HandleSlots.
Section Defs.
Context {T : Type}.

Record t := { slots : list (option T) }.

Definition new : t := {| slots := [] |}.

Fixpoint first_none (l : list (option T)) : option nat :=
  match l with
  | [] => None
  | None :: _ => Some O
  | Some _ :: l => S <$> first_none l
  end.

Definition insert (self : t) (item : T) : nat * t :=
  match first_none (slots self) with
  | Some i => (i, {| slots := <[i := Some item]> (slots self) |})
  | None => (length (slots self), {| slots := slots self ++ [Some item] |})
  end.

Definition get_mut (self : t) (index : nat) : option T := mjoin (slots self !! index).

(** The write through the reference [get_mut] returns. *)
Definition update (self : t) (index : nat) (item : T) : t :=
  {| slots := <[index := Some item]> (slots self) |}.

Definition remove (self : t) (index : nat) : option T * t :=
  if decide (index < length (slots self))%nat
  then (mjoin (slots self !! index), {| slots := <[index := None]> (slots self) |})
  else (None, self).
End Defs.
Arguments t : clear implicits.
End HandleSlots.

(** [BTreeMap] as the list of its items in the order of the keys. *)
Module BTree.
Section Defs.
Context {K V : Type} (ltb eqb : K -> K -> bool).

Fixpoint get (m : list (K * V)) (k : K) : option V :=
  match m with
  | [] => None
  | (k', v) :: m => if eqb k k' then Some v else get m k
  end.

Fixpoint insert (m : list (K * V)) (k : K) (v : V) : list (K * V) :=
  match m with
  | [] => [(k, v)]
  | (k', v') :: m' =>
      if eqb k k' then (k, v) :: m'
      else if ltb k k' then (k, v) :: m
      else (k', v') :: insert m' k v
  end.

Fixpoint remove (m : list (K * V)) (k : K) : list (K * V) :=
  match m with
  | [] => []
  | (k', v) :: m => if eqb k k' then m else (k', v) :: remove m k
  end.
End Defs.

(** The byte-wise order of strings. *)
Fixpoint str_ltb (a b : list Z) : bool :=
  match a, b with
  | _, [] => false
  | [], _ :: _ => true
  | x :: a, y :: b => (x <? y) || ((x =? y) && str_ltb a b)
  end.
Definition str_eqb (a b : list Z) : bool := bool_decide (a = b).
End BTree.

Inductive FatError :=
| NotFound | FileHandleInvalid | OperationFailed | UnsupportedOperation | AlreadyOpen | InvalidArgument.

Inductive FileTypeInfo := TFile | TDir.
Record FileStatusInfo := { byte_size : Z; file_type : FileTypeInfo; modification_time : Z }.

(** ** The driver *)

Module FatDriver.
Record OpenHandle := { handle_entity : Entity; cursor : Z }.

Record t (D : Type) := {
  fs : FatFS.t D;
  open_handle_map : HandleSlots.t OpenHandle;
  next_mapping_token : Z;
  mapping_tokens : list (list Z * (Z * Z));
  mapping_files : list (Z * File.t)
}.
#[global] Arguments fs {D} _.
#[global] Arguments open_handle_map {D} _.
#[global] Arguments next_mapping_token {D} _.
#[global] Arguments mapping_tokens {D} _.
#[global] Arguments mapping_files {D} _.
#[global] Arguments Build_t {D} _ _ _ _ _.

Definition path_error (e : PathError) : FatError :=
  match e with FatDir.NotFound => NotFound | FatDir.InvalidArgument => InvalidArgument end.

Section Ops.
Context {D : Type} `{Disk D}.

Definition with_disk (self : t D) (d : D) : t D :=
  {| fs := {| FatFS.disk := d; FatFS.bpb := FatFS.bpb (fs self); FatFS.table := FatFS.table (fs self) |};
     open_handle_map := open_handle_map self; next_mapping_token := next_mapping_token self;
     mapping_tokens := mapping_tokens self; mapping_files := mapping_files self |}.
Definition with_handles (self : t D) (h : HandleSlots.t OpenHandle) : t D :=
  {| fs := fs self; open_handle_map := h; next_mapping_token := next_mapping_token self;
     mapping_tokens := mapping_tokens self; mapping_files := mapping_files self |}.
Definition with_mappings (self : t D) (next : Z) (tokens : list (list Z * (Z * Z))) (files : list (Z * File.t)) : t D :=
  {| fs := fs self; open_handle_map := open_handle_map self; next_mapping_token := next;
     mapping_tokens := tokens; mapping_files := files |}.

(** *** Calls *)

Definition M (A : Type) : Type := t D -> option (result A FatError * t D).

Definition ret {A} (a : A) : M A := fun s => Some (Ok a, s).
Definition fail {A} (e : FatError) : M A := fun s => Some (Err e, s).
Definition bind {A B} (m : M A) (k : A -> M B) : M B := fun s =>
  match m s with
  | Some (Ok a, s) => k a s
  | Some (Err e, s) => Some (Err e, s)
  | None => None
  end.
(** [Option::ok_or] followed by [?]. *)
Definition ok_or {A} (o : option A) (e : FatError) : M A :=
  match o with Some a => ret a | None => fail e end.
(** An operation of the disk, with [fs.borrow_mut().disk]. *)
Definition on_disk {A} (f : D -> option (A * D)) : M A := fun s =>
  match f (FatFS.disk (fs s)) with
  | Some (a, d) => Some (Ok a, with_disk s d)
  | None => None
  end.
Definition gets {A} (f : t D -> A) : M A := fun s => Some (Ok (f s), s).
Definition modify (f : t D -> t D) : M unit := fun s => Some (Ok tt, f s).

Local Notation "x <- m ;; k" := (bind m (fun x => k)) (at level 100, m at next level, right associativity).
Local Notation "m ;; k" := (bind m (fun _ => k)) (at level 100, right associativity).

Definition new (fs : FatFS.t D) : t D :=
  {| fs := fs; open_handle_map := HandleSlots.new; next_mapping_token := 1; mapping_tokens := []; mapping_files := [] |}.

Definition get_table (self : t D) : AllocationTable.t := FatFS.table (fs self).
Definition get_root (self : t D) : RootDirectory.t := FatFS.get_root_directory (fs self).

Definition flush : M unit :=
  on_disk (fun d => match flush_all d with Some d => Some (tt, d) | None => None end).

(** [resolve_path(...).map_err(...)?] *)
Definition resolve (fuel : nat) (path : list Z) : M (AnyDirectory * list Z) :=
  root <- gets get_root;; table <- gets get_table;;
  r <- on_disk (Path.resolve_path fuel path root table);;
  match r with Ok x => ret x | Err e => fail (path_error e) end.

Definition find (fuel : nat) (dir : AnyDirectory) (leaf : list Z) : M (option Entity) :=
  table <- gets get_table;; on_disk (AnyDir.find_entry fuel dir leaf table).

(** The entity [open] finds or creates. *)
Definition open_entity (fuel : nat) (path : list Z) (flags now : Z) : M Entity :=
  let create_flag := 0x1 in
  let exclusive_flag := 0x2 in
  if decide (path = []) then
    root <- gets get_root;; ret (EntityDir (Directory.from_root_dir root))
  else
    table <- gets get_table;;
    pl <- resolve fuel path;;
    let '(parent_dir, leaf) := pl in
    found <- find fuel parent_dir leaf;;
    match found with
    | Some entity =>
        if negb (flags .& exclusive_flag =? 0) && negb (flags .& create_flag =? 0)
        then fail AlreadyOpen else ret entity
    | None =>
        if flags .& create_flag =? 0 then fail NotFound
        else
          let '(filename, ext) := ShortName.parse_short_name leaf in
          r <- on_disk (fun d => AnyDir.add_entry fuel parent_dir filename ext 0x00 0 table d now);;
          disk_offset <- ok_or r OperationFailed;;
          new_entry <- on_disk (fun d => DiskStruct.read_entry d disk_offset);;
          flush;;
          ret (EntityFile (File.from_dir_entry new_entry disk_offset))
    end.

Definition open (fuel : nat) (path : list Z) (flags now : Z) : M Z :=
  entity <- open_entity fuel path flags now;;
  handles <- gets open_handle_map;;
  let '(index, handles) := HandleSlots.insert handles {| handle_entity := entity; cursor := 0 |} in
  modify (fun s => with_handles s handles);;
  ret (u32 (Z.of_nat index)).

(** [get_mut(file_ref).ok_or(FileHandleInvalid)?] *)
Definition get_handle (file_ref : Z) : M OpenHandle :=
  handles <- gets open_handle_map;; ok_or (HandleSlots.get_mut handles (Z.to_nat file_ref)) FileHandleInvalid.
Definition put_handle (file_ref : Z) (h : OpenHandle) : M unit :=
  modify (fun s => with_handles s (HandleSlots.update (open_handle_map s) (Z.to_nat file_ref) h)).

Definition read (fuel : nat) (file_ref : Z) (buffer : list Z) (offset : Z) : M (Z * list Z) :=
  table <- gets get_table;;
  handle <- get_handle file_ref;;
  r <- match handle_entity handle with
       | EntityFile f =>
           on_disk (fun d => '(written, buf, f, d) ← File.read fuel f buffer offset table d;
                             Some ((written, buf, EntityFile f), d))
       | EntityDir dir =>
           on_disk (fun d => '(written, buf, dir, d) ← DirectoryRead.read fuel dir buffer offset table d;
                             Some ((written, buf, EntityDir dir), d))
       end;;
  let '(written, buf, entity) := r in
  put_handle file_ref {| handle_entity := entity; cursor := u32 (cursor handle + written) |};;
  ret (written, buf).

Definition write (fuel : nat) (file_ref : Z) (buffer : list Z) (offset : Z) : M Z :=
  table <- gets get_table;;
  handle <- get_handle file_ref;;
  r <- match handle_entity handle with
       | EntityFile f =>
           on_disk (fun d => '(written, f, d) ← File.write fuel f buffer offset table d;
                             Some ((written, EntityFile f), d))
       | EntityDir _ => fail UnsupportedOperation
       end;;
  let '(written, entity) := r in
  put_handle file_ref {| handle_entity := entity; cursor := u32 (cursor handle + written) |};;
  ret written.

Definition close (file_ref : Z) : M Z :=
  handles <- gets open_handle_map;;
  let '(removed, handles) := HandleSlots.remove handles (Z.to_nat file_ref) in
  modify (fun s => with_handles s handles);;
  match removed with
  | Some _ => flush;; ret 0
  | None => fail FileHandleInvalid
  end.

(** A value whose computation may panic. *)
Definition checked {A} (o : option A) : M A := fun s =>
  match o with Some a => Some (Ok a, s) | None => None end.

Definition stat (file_ref : Z) : M FileStatusInfo :=
  handle <- get_handle file_ref;;
  match handle_entity handle with
  | EntityFile f =>
      time <- checked (File.get_modification_time f);;
      ret {| byte_size := File.byte_size f; file_type := TFile; modification_time := time |}
  | EntityDir d =>
      time <- checked (Directory.get_modification_time d);;
      ret {| byte_size := 0; file_type := TDir; modification_time := time |}
  end.

Definition dot_name : list Z := 0x2e :: replicate 7 0x20.
Definition dotdot_name : list Z := 0x2e :: 0x2e :: replicate 6 0x20.
Definition no_ext : list Z := replicate 3 0x20.

Definition no_value {A} (f : D -> option D) (k : M A) : M A :=
  on_disk (fun d => match f d with Some d => Some (tt, d) | None => None end);; k.

(** [now1], [now2] and [now3] are the times of the three entries. *)
Definition mkdir (fuel : nat) (path : list Z) (now1 now2 now3 : Z) : M Z :=
  table <- gets get_table;;
  pl <- resolve fuel path;;
  let '(parent_dir, leaf) := pl in
  let '(filename, ext) := ShortName.parse_short_name leaf in
  found <- find fuel parent_dir leaf;;
  if found then fail AlreadyOpen
  else
    r <- on_disk (AllocationTable.allocate_cluster table);;
    cluster <- ok_or r OperationFailed;;
    no_value (SubDirectory.zero_cluster table cluster) (
    let parent_cluster := u16 (AnyDir.first_cluster parent_dir) in
    let new_subdir := SubDirectory.new cluster in
    on_disk (fun d => SubDirectory.add_entry fuel new_subdir dot_name no_ext 0x10 (u16 cluster) table d now1);;
    on_disk (fun d => SubDirectory.add_entry fuel new_subdir dotdot_name no_ext 0x10 parent_cluster table d now2);;
    r <- on_disk (fun d => AnyDir.add_entry fuel parent_dir filename ext 0x10 (u16 cluster) table d now3);;
    ok_or r OperationFailed;;
    flush;;
    ret 0).

(** [if first_cluster != 0 { table.free_chain(...) }] *)
Definition free_from (fuel : nat) (first_cluster : Z) : M unit :=
  table <- gets get_table;;
  if first_cluster =? 0 then ret tt
  else no_value (AllocationTable.free_chain fuel table first_cluster) (ret tt).

Definition unlink (fuel : nat) (path : list Z) : M Z :=
  table <- gets get_table;;
  pl <- resolve fuel path;;
  let '(parent_dir, leaf) := pl in
  let '(filename, ext) := ShortName.parse_short_name leaf in
  found <- find fuel parent_dir leaf;;
  match found with
  | Some (EntityFile _) =>
      r <- on_disk (AnyDir.remove_entry fuel parent_dir filename ext table);;
      removed <- ok_or r NotFound;;
      free_from fuel (DirEntry.first_file_cluster removed);;
      flush;;
      ret 0
  | Some (EntityDir _) => fail InvalidArgument
  | None => fail NotFound
  end.

Definition rmdir (fuel : nat) (path : list Z) : M Z :=
  table <- gets get_table;;
  pl <- resolve fuel path;;
  let '(parent_dir, leaf) := pl in
  let '(filename, ext) := ShortName.parse_short_name leaf in
  found <- find fuel parent_dir leaf;;
  first_cluster <-
    match found with
    | Some (EntityDir d) =>
        match Directory.dir_type d with
        | Directory.Subdir entry => ret (DirEntry.first_file_cluster entry)
        | Directory.Root _ => fail InvalidArgument
        end
    | Some (EntityFile _) => fail InvalidArgument
    | None => fail NotFound
    end;;
  empty <- on_disk (SubDirectory.is_subdir_empty fuel first_cluster table);;
  if negb empty then fail InvalidArgument
  else
    r <- on_disk (AnyDir.remove_entry fuel parent_dir filename ext table);;
    ok_or r NotFound;;
    free_from fuel first_cluster;;
    flush;;
    ret 0.

Definition rename (fuel : nat) (old_path new_path : list Z) : M Z :=
  table <- gets get_table;;
  po <- resolve fuel old_path;;
  let '(old_parent, old_leaf) := po in
  found <- find fuel old_parent old_leaf;;
  ok_or found NotFound;;
  pn <- resolve fuel new_path;;
  let '(new_parent, new_leaf) := pn in
  found <- find fuel new_parent new_leaf;;
  if found then fail AlreadyOpen
  else
    let '(old_filename, old_ext) := ShortName.parse_short_name old_leaf in
    let '(new_filename, new_ext) := ShortName.parse_short_name new_leaf in
    r <- on_disk (AnyDir.remove_entry fuel old_parent old_filename old_ext table);;
    entry <- ok_or r NotFound;;
    let entry := DirEntry.set_filename entry new_filename new_ext in
    r <- on_disk (AnyDir.write_entry fuel new_parent entry table);;
    ok_or r OperationFailed;;
    flush;;
    ret 0.

(** *** Mappings *)

Definition create_mapping (fuel : nat) (path : list Z) : M Z :=
  tokens <- gets mapping_tokens;;
  match BTree.get BTree.str_eqb tokens path with
  | Some (token, refcount) =>
      modify (fun s => with_mappings s (next_mapping_token s)
        (BTree.insert BTree.str_ltb BTree.str_eqb tokens path (token, u32 (refcount + 1))) (mapping_files s));;
      ret token
  | None =>
      pl <- resolve fuel path;;
      let '(parent_dir, leaf) := pl in
      found <- find fuel parent_dir leaf;;
      entity <- ok_or found NotFound;;
      match entity with
      | EntityDir _ => fail InvalidArgument
      | EntityFile file =>
          token <- gets next_mapping_token;;
          modify (fun s => with_mappings s (u32 (token + 1))
            (BTree.insert BTree.str_ltb BTree.str_eqb (mapping_tokens s) path (token, 1))
            (BTree.insert Z.ltb Z.eqb (mapping_files s) token file));;
          ret token
      end
  end.

(** The [for] loop of [remove_mapping] over [iter_mut]: the map after it, and
    the path whose count reached 0. *)
Fixpoint release_loop (m : list (list Z * (Z * Z))) (map_token : Z) : list (list Z * (Z * Z)) * option (list Z) :=
  match m with
  | [] => ([], None)
  | (path, (token, refcount)) :: m =>
      if token =? map_token then
        let refcount := u32 (refcount - 1) in
        ((path, (token, refcount)) :: m, if refcount =? 0 then Some path else None)
      else let '(m, r) := release_loop m map_token in ((path, (token, refcount)) :: m, r)
  end.

Definition remove_mapping (map_token : Z) : M Z :=
  tokens <- gets mapping_tokens;;
  let '(tokens, remove_path) := release_loop tokens map_token in
  modify (fun s => with_mappings s (next_mapping_token s) tokens (mapping_files s));;
  files <- gets mapping_files;;
  match remove_path with
  | Some path =>
      modify (fun s => with_mappings s (next_mapping_token s) (BTree.remove BTree.str_eqb tokens path)
        (BTree.remove Z.eqb files map_token));;
      ret 1
  | None => if BTree.get Z.eqb files map_token then ret 1 else fail InvalidArgument
  end.

Definition page_in_mapping_to_buffer (fuel : nat) (map_token offset_in_file : Z) (buffer : list Z)
    : M (Z * list Z) :=
  table <- gets get_table;;
  files <- gets mapping_files;;
  file <- ok_or (BTree.get Z.eqb files map_token) InvalidArgument;;
  let buffer := replicate (length buffer) 0 in
  r <- on_disk (fun d => '(bytes_read, buf, f, d) ← File.read fuel file buffer offset_in_file table d;
                         Some ((bytes_read, buf, f), d));;
  let '(bytes_read, buf, f) := r in
  modify (fun s => with_mappings s (next_mapping_token s) (mapping_tokens s) (BTree.insert Z.ltb Z.eqb files map_token f));;
  ret (bytes_read, buf).
End Ops.
End FatDriver.
