(* ===== verification/FatDriverSpec.v ===== *)
(** * What the calls of the FAT driver do

    The calls of [components/drivers/fatdriver/src/driver.rs] on names in the
    root directory, from the call down to the bytes on the device: opening a
    file with the create flag, opening it again, and unlinking it.  The disk is
    any implementation of [DiskLaws], such as the sector cache. *)

From S2P Require Import Prelude FatDisk FatCache FatTable FatEntry FatFile FatFileSpec FatDir FatDirSpec FatDriver.
Import AllocationTable FatView FatDriver.

(** ** Handles *)

Section Handles.
Context {T : Type}.
Implicit Types (s : HandleSlots.t T) (l : list (option T)).

Lemma first_none_spec l :
  match HandleSlots.first_none l with
  | Some i => l !! i = Some None
  | None => forall i, l !! i <> Some None
  end.
Proof.
  induction l as [|[x|] l IH]; simpl; [done| |done]. destruct (HandleSlots.first_none l) as [i|]; [done|]. simpl.
  intros [|i]; simpl; [done|apply IH].
Qed.

(** An item gets an index that was free; no other index changes. *)
Lemma handle_insert s (x : T) :
  exists i s', HandleSlots.insert s x = (i, s') /\ HandleSlots.get_mut s i = None /\
    (i <= length (HandleSlots.slots s))%nat /\ (length (HandleSlots.slots s') <= S (length (HandleSlots.slots s)))%nat /\
    forall j, HandleSlots.get_mut s' j = if decide (j = i) then Some x else HandleSlots.get_mut s j.
Proof.
  unfold HandleSlots.insert, HandleSlots.get_mut. pose proof (first_none_spec (HandleSlots.slots s)) as Hf.
  destruct (HandleSlots.first_none (HandleSlots.slots s)) as [i|]; eexists _, _; (split; [done|]); simpl.
  - rewrite Hf, length_insert. pose proof (lookup_lt_Some _ _ _ Hf). split_and!; [done|lia|lia|]. intros j.
    destruct (decide (j = i)) as [->|]; [by rewrite list_lookup_insert_eq by done|by rewrite list_lookup_insert_ne].
  - rewrite lookup_ge_None_2, length_app by done. simpl. split_and!; [done|lia|lia|]. intros j.
    destruct (decide (j = length (HandleSlots.slots s))) as [->|]; [by rewrite lookup_app_r, Nat.sub_diag by done|].
    destruct (decide (j < length (HandleSlots.slots s))%nat); [by rewrite lookup_app_l by done|].
    rewrite !lookup_ge_None_2 by (rewrite ?length_app; simpl; lia). done.
Qed.
End Handles.

(** ** A mounted volume *)

Record geometry (b : BiosParamBlock.t) : Prop := {
  ge_reserved : 0 <= BiosParamBlock.reserved_sectors b;
  ge_fats : 0 <= BiosParamBlock.fat_count b /\ 0 <= BiosParamBlock.sectors_per_fat b;
  ge_root : 1 <= BiosParamBlock.root_directory_entries b < 2 ^ 16;
  ge_size : (BiosParamBlock.reserved_sectors b + BiosParamBlock.fat_count b * BiosParamBlock.sectors_per_fat b) * 512 +
    BiosParamBlock.root_directory_entries b * 32 < 2 ^ 32
}.

Section Mounted.
Context {D : Type} `{DiskLaws D}.
Implicit Types (s : FatDriver.t D) (v name : list Z).

Record mounted (k : Z) s v : Prop := {
  mo_rep : rep k (FatFS.disk (fs s)) v;
  mo_table : get_table s = from_bpb (FatFS.bpb (fs s));
  mo_bpb : geometry (FatFS.bpb (fs s));
  mo_volume : volume (get_table s) v
}.

(** The root directory lies between the allocation tables and the data area. *)
Lemma root_area (k : Z) s v :
  mounted k s v -> root_ok (get_root s) v /\
  (forall o, o ∈ root_offs (get_root s) ->
    table_start (get_table s) + fat_count (get_table s) * bytes_per_fat (get_table s) <= o /\
    o + 32 <= first_cluster_location (get_table s)).
Proof.
  intros [_ Ht [Hr [Hf Hs] He Hz] Hv]. pose proof (vo_size _ _ Hv) as Hsize. rewrite Ht in *.
  set (b := FatFS.bpb (fs s)) in *.
  assert (0 <= BiosParamBlock.fat_count b * BiosParamBlock.sectors_per_fat b) as Hp by nia.
  assert (BiosParamBlock.first_root_directory_sector b =
    BiosParamBlock.reserved_sectors b + BiosParamBlock.fat_count b * BiosParamBlock.sectors_per_fat b) as Hfirst.
  { unfold BiosParamBlock.first_root_directory_sector, u32. rewrite (Z.mod_small (_ * _)), Z.mod_small by lia. done. }
  assert (first_cluster_location (from_bpb b) = BiosParamBlock.first_root_directory_sector b * 512 +
    BiosParamBlock.root_directory_entries b * 32) as Hloc.
  { unfold from_bpb, BiosParamBlock.root_directory_size. simpl. rewrite Hfirst. unfold u32.
    rewrite (Z.mod_small (_ * 512)), (Z.mod_small (_ * 32)), Z.mod_small by lia. done. }
  assert (table_start (from_bpb b) = BiosParamBlock.reserved_sectors b * 512) as Hts.
  { unfold from_bpb. simpl. apply Z.mod_small. lia. }
  assert (fat_count (from_bpb b) * bytes_per_fat (from_bpb b) =
    BiosParamBlock.fat_count b * BiosParamBlock.sectors_per_fat b * 512) as Hbf.
  { simpl. destruct (Z.eq_dec (BiosParamBlock.fat_count b) 0) as [->|]; [lia|].
    unfold u32. rewrite (Z.mod_small (BiosParamBlock.sectors_per_fat b * 512)); nia. }
  split.
  - split; unfold get_root, FatFS.get_root_directory; simpl; fold b; lia.
  - intros o (i & -> & Hi)%slots_from_elem. rewrite Hts, Hbf, Hloc.
    change (RootDirectory.max_entries (get_root s)) with (BiosParamBlock.root_directory_entries b) in Hi.
    change (RootDirectory.first_sector (get_root s)) with (BiosParamBlock.first_root_directory_sector b).
    rewrite Hfirst. lia.
Qed.

Lemma mounted_disk (k k' : Z) s v v' (d : D) :
  mounted k s v -> rep k' d v' -> length v' = length v -> bytes_ok v' -> mounted k' (with_disk s d) v'.
Proof.
  intros [_ Ht Hb Hv] Hr Hl Hby. split; try done. by eapply volume_change.
Qed.

(** *** Names in the root directory *)

Definition simple name : Prop := name <> [] /\ Path.SLASH ∉ name /\ Path.BACKSLASH ∉ name.

Lemma rsplit_none (sep : Z) name : sep ∉ name -> rsplit_once sep name = None.
Proof.
  induction name as [|x name IH]; [done|]. intros [Hx Hn]%not_elem_of_cons. simpl. rewrite (IH Hn).
  by rewrite (proj2 (Z.eqb_neq _ _)) by done.
Qed.

Lemma resolve_simple (fuel : nat) name s : simple name -> resolve fuel name s = Some (Ok (AnyRoot (get_root s), name), s).
Proof.
  intros (Hne & Hs & Hb). unfold resolve, bind, gets, on_disk, Path.resolve_path, Path.split_leaf.
  rewrite decide_False, (rsplit_none Path.SLASH), (rsplit_none Path.BACKSLASH) by done.
  rewrite decide_False, decide_True by done. simpl. by destruct s as [[]].
Qed.

(** The slot a name leads to. *)
Definition root_lookup v (root : RootDirectory.t) name : option Z :=
  List.find (named v (ShortName.raw_short_name name).1 (ShortName.raw_short_name name).2) (visible v (root_offs root)).

Definition find_cost s : Z := 2 * RootDirectory.max_entries (get_root s) + 2.

Lemma find_simple (fuel : nat) (k : Z) s v name :
  mounted k s v -> find_cost s <= k ->
  exists d', find fuel (AnyRoot (get_root s)) name s =
      Some (Ok ((fun o => entity_of (slot v o) o) <$> root_lookup v (get_root s) name), with_disk s d') /\
    mounted (k - find_cost s) (with_disk s d') v.
Proof.
  intros Hm Hk. destruct (root_area k s v Hm) as [Hroot _].
  pose proof (root_find_ok k _ v (get_root s) name (mo_rep _ _ _ Hm) Hroot Hk) as Hf.
  unfold find, bind, gets, on_disk, root_lookup. simpl.
  destruct (ShortName.raw_short_name name) as [f x]. destruct Hf as (d' & -> & Hr). exists d'. split; [done|].
  eapply mounted_disk; [done..|]. apply (vo_bytes _ _ (mo_volume _ _ _ Hm)).
Qed.

Lemma flush_mounted (k : Z) s v :
  mounted k s v -> exists d', flush s = Some (Ok tt, with_disk s d') /\ mounted k (with_disk s d') v /\ durable d' = v.
Proof.
  intros Hm. destruct (flush_law k _ v (mo_rep _ _ _ Hm)) as (d' & Hf & Hr & Hd). exists d'.
  unfold flush, on_disk. rewrite Hf. split; [done|]. split; [|done].
  eapply mounted_disk; [done..|]. apply (vo_bytes _ _ (mo_volume _ _ _ Hm)).
Qed.
(** *** Adding an entry *)

Lemma root_apart (root : RootDirectory.t) (o o' : Z) :
  o ∈ root_offs root -> o' ∈ root_offs root -> o <> o' -> apart o o'.
Proof. apply slots_from_apart. Qed.

Lemma root_put v (root : RootDirectory.t) (o : Z) (e : DirEntry.t) :
  root_ok root v -> FatEntryFacts.entry_wf e -> o ∈ root_offs root ->
  slot (put_slot v o e) o = e /\
  forall o', o' ∈ root_offs root -> o' <> o -> slot (put_slot v o e) o' = slot v o'.
Proof.
  intros Hr He Ho. pose proof (root_slots_in root v Hr) as Hin. rewrite Forall_forall in Hin.
  split; [by apply put_slot_same; [apply Hin|]|]. intros o' Ho' Hne.
  apply put_slot_other; [by apply Hin|done|apply (Hin o' Ho')|]. apply (root_apart root); [done..|congruence].
Qed.

(** The slots ahead of the first free one are the visible ones. *)
Lemma visible_free v pre (o : Z) post :
  Forall (fun o' => free_slot v o' = false) pre -> free_slot v o = true -> visible v (pre ++ o :: post) = pre.
Proof.
  intros Hpre Ho. rewrite visible_app by done. simpl. rewrite Ho. destruct post; apply app_nil_r.
Qed.

Lemma root_added v (root : RootDirectory.t) (o : Z) (e : DirEntry.t) (name name' : list Z) :
  root_ok root v -> FatEntryFacts.entry_wf e -> DirEntry.is_empty e = false ->
  (DirEntry.file_name e, DirEntry.ext e) = ShortName.parse_short_name name ->
  Forall is_u8 name -> Forall is_u8 name' -> map to_ascii_uppercase name' = map to_ascii_uppercase name ->
  root_lookup v root name = None -> List.find (free_slot v) (root_offs root) = Some o -> last (root_offs root) <> Some o ->
  root_lookup (put_slot v o e) root name' = Some o.
Proof.
  intros Hr He Hne Hname Hu Hu' Hcase Hnone Hfree Hlast.
  destruct (find_decomp _ _ _ Hfree) as (pre & post & Hoffs & Ho & Hpre).
  assert (o ∈ root_offs root) as Hin by (rewrite Hoffs; set_solver).
  destruct (root_put v root o e Hr He Hin) as [Hself Hother].
  assert (o ∉ pre) as Hop.
  { pose proof (slots_from_nodup (RootDirectory.first_sector root * 512) (RootDirectory.max_entries root)) as Hnd.
    fold (root_offs root) in Hnd. rewrite Hoffs in Hnd. apply NoDup_app in Hnd as (_ & Hnd & _). intros Hp. apply (Hnd o Hp). left. }
  assert (forall o', o' ∈ pre -> slot (put_slot v o e) o' = slot v o') as Hsame.
  { intros o' Ho'. apply Hother; [rewrite Hoffs; set_solver|congruence]. }
  destruct (stored_matches e name name' Hu' Hcase Hname) as [Hm _].
  unfold root_lookup in *. rewrite Hoffs in *. rewrite (visible_free v pre o post Hpre Ho) in Hnone.
  assert (post <> []) as Hpost by (intros ->; by rewrite last_snoc in Hlast).
  rewrite visible_app; [|apply Forall_forall; intros o' Ho'; unfold free_slot; rewrite Hsame by done;
                         rewrite Forall_forall in Hpre; by apply Hpre|done].
  rewrite visible_cons by done. unfold free_slot at 1. rewrite Hself, Hne. rewrite find_app_none.
  - simpl. unfold named at 1. by rewrite Hself, Hm.
  - rewrite (find_ext _ (named v (ShortName.raw_short_name name).1 (ShortName.raw_short_name name).2)); [done|].
    intros o' Ho'. rewrite <- !named_raw_parse, (parse_same name' name) by done. unfold named. by rewrite Hsame.
Qed.
(** *** Deleting an entry *)

Lemma visible_split v offs pre (o : Z) post :
  visible v offs = pre ++ o :: post ->
  exists rest, offs = pre ++ o :: rest /\ Forall (fun o' => free_slot v o' = false) pre /\ free_slot v o = false.
Proof.
  revert pre. induction offs as [|x offs IH]; intros pre Hv; [by destruct pre|].
  destruct (decide (offs = [])) as [->|Hne]; [by destruct pre|]. rewrite visible_cons in Hv by done.
  destruct (free_slot v x) eqn:Hx; [by destruct pre|]. destruct pre as [|y pre]; simpl in Hv; injection Hv as -> Hv.
  - by exists offs.
  - destruct (IH pre Hv) as (rest & -> & Hpre & Ho). exists rest. split_and!; [done|by constructor|done].
Qed.

Lemma root_lookup_split v (root : RootDirectory.t) name (o : Z) :
  root_lookup v root name = Some o ->
  exists pre rest, root_offs root = pre ++ o :: rest /\ Forall (fun o' => free_slot v o' = false) pre /\
    free_slot v o = false /\
    named v (ShortName.raw_short_name name).1 (ShortName.raw_short_name name).2 o = true /\
    Forall (fun o' => named v (ShortName.raw_short_name name).1 (ShortName.raw_short_name name).2 o' = false) pre.
Proof.
  intros (pre & post & Hvis & Hn & Hpre)%find_decomp. destruct (visible_split v _ pre o post Hvis) as (rest & -> & ? & ?).
  by exists pre, rest.
Qed.

(** [remove_entry] deletes the slot [find_entry] finds. *)
Lemma lookup_live v (root : RootDirectory.t) name (o : Z) :
  Forall is_u8 name -> root_lookup v root name = Some o ->
  List.find (named v (ShortName.parse_short_name name).1 (ShortName.parse_short_name name).2) (live v (root_offs root)) = Some o.
Proof.
  intros Hu (pre & rest & -> & Hfree & Ho & Hn & Hpre)%root_lookup_split.
  rewrite (find_ext _ (named v (ShortName.raw_short_name name).1 (ShortName.raw_short_name name).2))
    by (intros; by apply named_raw_parse).
  rewrite live_prefix by done. rewrite find_app_none by (by apply find_none). simpl.
  unfold free_slot, DirEntry.is_empty in Ho. apply orb_false_iff in Ho as [-> ->]. simpl. by rewrite Hn.
Qed.

(** After the slot [o] is deleted, the slots ahead of it are what is left. *)
Lemma visible_deleted v v' pre (o : Z) rest :
  Forall (fun o' => free_slot v o' = false) pre -> (forall o', o' ∈ pre -> slot v' o' = slot v o') ->
  free_slot v' o = true -> visible v' (pre ++ o :: rest) = pre.
Proof.
  intros Hpre Hsame Ho. apply visible_free; [|done]. apply Forall_forall. intros o' Ho'. unfold free_slot.
  rewrite Hsame by done. rewrite Forall_forall in Hpre. by apply Hpre.
Qed.

Lemma root_offs_order (root : RootDirectory.t) pre (o : Z) rest o' :
  root_offs root = pre ++ o :: rest -> (o' ∈ pre -> o' < o) /\ (o' ∈ rest -> o < o').
Proof.
  intros Hoffs.
  assert (forall i x, root_offs root !! i = Some x -> x = RootDirectory.first_sector root * 512 + Z.of_nat i * 32) as Hlk.
  { intros i x. unfold root_offs, slots_from. rewrite list_lookup_fmap. intros (y & Hy & ->)%fmap_Some.
    apply lookup_seqZ in Hy as [-> _]. lia. }
  assert (o = RootDirectory.first_sector root * 512 + Z.of_nat (length pre) * 32) as ->.
  { apply Hlk. by rewrite Hoffs, lookup_app_r, Nat.sub_diag by done. }
  split; intros [i Hi]%list_elem_of_lookup; pose proof (lookup_lt_Some _ _ _ Hi).
  - rewrite (Hlk i o') by (rewrite Hoffs, lookup_app_l; done). lia.
  - rewrite (Hlk (length pre + S i)%nat o'); [lia|]. rewrite Hoffs, lookup_app_r by lia.
    by replace (length pre + S i - length pre)%nat with (S i) by lia.
Qed.

(** What [unlink] leaves: the slot deleted, the chain [l] free, all else kept. *)
Record unlinked s v v' (o : Z) (l : list Z) : Prop := {
  un_slot : slot v' o = DirEntry.mark_deleted (slot v o);
  un_others o' : o' ∈ root_offs (get_root s) -> o' <> o -> slot v' o' = slot v o';
  un_entries i c : 0 <= i < fat_count (get_table s) -> in_fat (get_table s) c ->
    entry_at v' (copy_start (get_table s) i) c =
      if decide (c ∈ l) then 0 else entry_at v (copy_start (get_table s) i) c;
  un_data x : first_cluster_location (get_table s) <= x -> v' !! Z.to_nat x = v !! Z.to_nat x
}.

(** The clusters of the file in a slot: none yet, or a chain. *)
Definition slot_clusters s v (o : Z) (l : list Z) : Prop :=
  let c := DirEntry.first_file_cluster (slot v o) in
  if c =? 0 then l = [] else file_clusters (get_table s) v c l.

Lemma unlinked_visible (k : Z) s v v' (o : Z) (l : list Z) name :
  mounted k s v -> root_lookup v (get_root s) name = Some o -> unlinked s v v' o l ->
  exists pre rest, root_offs (get_root s) = pre ++ o :: rest /\ visible v' (root_offs (get_root s)) = pre /\
    Forall (fun o' => free_slot v o' = false) pre /\ forall o', o' ∈ pre -> slot v' o' = slot v o'.
Proof.
  intros Hm Hlook Hun. destruct (root_area k s v Hm) as [Hroot _].
  destruct (root_lookup_split _ _ _ _ Hlook) as (pre & rest & Hoffs & Hfree & Ho & _ & _).
  assert (forall o', o' ∈ pre -> slot v' o' = slot v o') as Hsame.
  { intros o' Ho'. apply (un_others _ _ _ _ _ Hun); [rewrite Hoffs; set_solver|].
    pose proof (proj1 (root_offs_order _ _ _ _ _ Hoffs) Ho'). lia. }
  exists pre, rest. split; [done|]. split; [|done]. rewrite Hoffs. apply (visible_deleted v); try done.
  unfold free_slot. rewrite (un_slot _ _ _ _ _ Hun). unfold DirEntry.is_empty. rewrite mark_deleted_name; [done|].
  pose proof (root_slots_in _ _ Hroot) as Hin. rewrite Forall_forall in Hin. apply slot_wf; [apply (mo_volume _ _ _ Hm)|].
  apply Hin. rewrite Hoffs. set_solver.
Qed.
(** Neither the name nor that of a slot behind it is found any more. *)
Lemma unlinked_missing (k : Z) s v v' (o o2 : Z) (l : list Z) name later :
  mounted k s v -> root_lookup v (get_root s) name = Some o -> unlinked s v v' o l ->
  root_lookup v (get_root s) later = Some o2 -> o <= o2 -> root_lookup v' (get_root s) later = None.
Proof.
  intros Hm Hlook Hun Hlook2 Hle.
  destruct (unlinked_visible k s v v' o l name Hm Hlook Hun) as (pre & rest & Hoffs & Hvis & _ & Hsame).
  destruct (root_lookup_split _ _ _ _ Hlook2) as (pre2 & rest2 & Hoffs2 & _ & _ & _ & Hpre2).
  unfold root_lookup. rewrite Hvis. apply find_none. rewrite Forall_forall in *. intros o' Ho'. unfold named.
  rewrite Hsame by done. apply Hpre2. pose proof (proj1 (root_offs_order _ _ _ _ o' Hoffs) Ho') as Hlt.
  assert (o' ∈ pre2 ++ o2 :: rest2) as Hin by (rewrite <- Hoffs2, Hoffs; set_solver).
  apply elem_of_app in Hin as [?|[->|Hin]%elem_of_cons]; [done|lia|].
  pose proof (proj2 (root_offs_order _ _ _ _ o' Hoffs2) Hin). lia.
Qed.

(** Storing an entry in the root directory leaves the tables and the data
    area alone. *)
Lemma root_put_change (k : Z) s v (o : Z) (e : DirEntry.t) :
  mounted k s v -> FatEntryFacts.entry_wf e -> o ∈ root_offs (get_root s) ->
  data_change (get_table s) v (put_slot v o e) /\
  (forall i c, 0 <= i < fat_count (get_table s) -> in_fat (get_table s) c ->
     entry_at (put_slot v o e) (copy_start (get_table s) i) c = entry_at v (copy_start (get_table s) i) c) /\
  (forall x, first_cluster_location (get_table s) <= x -> put_slot v o e !! Z.to_nat x = v !! Z.to_nat x).
Proof.
  intros Hm He Ho. destruct (root_area k s v Hm) as [Hroot Harea]. destruct (Harea o Ho) as [Hlow Hhigh].
  pose proof (root_slots_in _ _ Hroot) as Hin. rewrite Forall_forall in Hin. specialize (Hin o Ho). pose proof (proj1 Hin) as Ho0.
  pose proof (mo_volume _ _ _ Hm) as Hv. pose proof (vo_start _ _ Hv). pose proof (vo_count _ _ Hv). pose proof (vo_fat _ _ Hv).
  assert (data_change (get_table s) v (put_slot v o e)) as Hch.
  { split; [apply put_slot_length|by apply put_slot_bytes; [apply Hv|]|]. intros x Hx Ht. unfold in_tables in Ht.
    apply put_slot_lookup; [done..|lia]. }
  split; [done|]. split.
  - intros i c Hi [Hc Hf]. pose proof (Z.div_pos c 2 Hc ltac:(lia)). unfold copy_start.
    assert ((i + 1) * bytes_per_fat (get_table s) <= fat_count (get_table s) * bytes_per_fat (get_table s)) by nia.
    apply entry_at_ext; [nia|done|]. intros x Hx. apply Hch; [nia|]. unfold in_tables. nia.
  - intros x Hx. assert (0 <= fat_count (get_table s) * bytes_per_fat (get_table s)) by nia.
    pose proof (vo_data _ _ Hv). apply put_slot_lookup; [done|done|lia|lia].
Qed.

Definition unlink_cost s (l : list Z) : Z :=
  2 * find_cost s + (2 + 4 * fat_count (get_table s)) * Z.of_nat (length l).

(** [free_from] on the chain of a deleted entry. *)
Lemma free_from_ok (fuel : nat) (k : Z) s v (c : Z) (l : list Z) :
  mounted k s v -> (if c =? 0 then l = [] else file_clusters (get_table s) v c l) -> (length l <= fuel)%nat ->
  (2 + 4 * fat_count (get_table s)) * Z.of_nat (length l) <= k ->
  exists d' v', free_from fuel c s = Some (Ok tt, with_disk s d') /\
    mounted (k - (2 + 4 * fat_count (get_table s)) * Z.of_nat (length l)) (with_disk s d') v' /\
    chain_freed (get_table s) v v' l.
Proof.
  intros Hm Hc Hf Hk. pose proof (mo_volume _ _ _ Hm) as Hv. unfold free_from, bind, gets, no_value, on_disk, ret.
  destruct (Z.eqb_spec c 0) as [->|Hne].
  - subst l. exists (FatFS.disk (fs s)), v. split; [by destruct s as [[]]|]. split; [|split; try done; apply Hv].
    eapply mounted_disk; [done| |done|apply Hv]. eapply rep_weaken; [apply (mo_rep _ _ _ Hm)|simpl; lia].
  - destruct Hc as [Hch Hnd Hd].
    destruct (free_chain_ok (get_table s) l fuel c k _ v Hch (mo_rep _ _ _ Hm) Hv Hnd) as (d' & v' & Hrun & Hr & Hfreed);
      [intros x Hx; apply (Hd x Hx)|done|done|].
    exists d', v'. unfold bind. rewrite Hrun. split; [done|]. split; [|done].
    eapply mounted_disk; [done|done|apply Hfreed|apply Hfreed].
Qed.

Lemma unlink_ok (fuel : nat) (k : Z) s v name (o : Z) (l : list Z) :
  mounted k s v -> simple name -> Forall is_u8 name -> root_lookup v (get_root s) name = Some o ->
  DirEntry.is_directory (slot v o) = false -> slot_clusters s v o l -> (length l <= fuel)%nat -> unlink_cost s l <= k ->
  exists d' v', unlink fuel name s = Some (Ok 0, with_disk s d') /\ mounted (k - unlink_cost s l) (with_disk s d') v' /\
    durable d' = v' /\ unlinked s v v' o l.
Proof.
  intros Hm Hsi Hu Hlook Hdir Hcl Hf Hk. unfold unlink_cost, find_cost in *. destruct (root_area k s v Hm) as [Hroot Harea].
  pose proof (ro_max _ _ Hroot) as Hmax. pose proof (root_offs_length _ _ Hroot) as Hlen.
  pose proof (mo_volume _ _ _ Hm) as Hv. pose proof (vo_count _ _ Hv) as Hcount.
  assert (0 <= (2 + 4 * fat_count (get_table s)) * Z.of_nat (length l)) as Hcost by nia.
  destruct (root_lookup_split _ _ _ _ Hlook) as (pre & rest & Hoffs & _ & _ & _ & _).
  assert (o ∈ root_offs (get_root s)) as Ho by (rewrite Hoffs; set_solver).
  pose proof (root_slots_in _ _ Hroot) as Hin. rewrite Forall_forall in Hin.
  assert (FatEntryFacts.entry_wf (DirEntry.mark_deleted (slot v o))) as Hwf
    by (apply mark_deleted_wf, slot_wf; [apply Hv|by apply Hin]).
  destruct (root_put_change k s v o _ Hm Hwf Ho) as (Hch & Hent & Hdata).
  destruct (root_put v _ o _ Hroot Hwf Ho) as [Hself Hother].
  unfold unlink. unfold bind at 1, gets at 1. unfold bind at 1. rewrite resolve_simple by done.
  pose proof (lookup_live v _ name o Hu Hlook) as Hlive.
  destruct (ShortName.parse_short_name name) as [f x]. cbn [fst snd] in Hlive. unfold bind at 1.
  destruct (find_simple fuel k s v name Hm) as (d1 & -> & Hm1); [unfold find_cost; lia|]. rewrite Hlook. simpl.
  unfold entity_of. rewrite Hdir. unfold bind at 1, on_disk at 1, AnyDir.remove_entry.
  destruct (root_remove_ok _ _ v (get_root s) f x (mo_rep _ _ _ Hm1) (vo_bytes _ _ Hv) Hroot) as (d2 & -> & Hr2);
    [unfold scan_cost, find_cost; lia|]. rewrite Hlive in *. simpl. unfold bind at 1, ret at 1.
  change (with_disk (with_disk s d1) d2) with (with_disk s d2).
  set (v2 := put_slot v o (DirEntry.mark_deleted (slot v o))) in *.
  assert (mounted (k - 2 * find_cost s) (with_disk s d2) v2) as Hm2.
  { eapply mounted_disk; [exact Hm|eapply rep_weaken; [exact Hr2|unfold scan_cost, find_cost; lia]|apply Hch|apply Hch]. }
  unfold bind at 1.
  destruct (free_from_ok fuel _ (with_disk s d2) v2 (DirEntry.first_file_cluster (slot v o)) l Hm2) as (d3 & v3 & -> & Hm3 & Hfr).
  { unfold slot_clusters in Hcl. destruct (_ =? 0); [done|]. by eapply file_data_change. }
  { done. }
  { change (get_table (with_disk s d2)) with (get_table s). unfold find_cost. lia. }
  change (with_disk (with_disk s d2) d3) with (with_disk s d3) in *. change (get_table (with_disk s d2)) with (get_table s) in *.
  unfold bind. destruct (flush_mounted _ _ _ Hm3) as (d4 & -> & Hm4 & Hd4). unfold ret.
  change (with_disk (with_disk s d3) d4) with (with_disk s d4) in *. exists d4, v3. split; [done|].
  split; [destruct Hm4 as [Hr4 ? ? ?]; split; try done; eapply rep_weaken; [exact Hr4|]|].
  { change (BiosParamBlock.root_directory_entries (FatFS.bpb (fs s))) with (RootDirectory.max_entries (get_root s)).
    unfold find_cost. lia. }
  split; [done|].
  pose proof (vo_start _ _ Hv). pose proof (vo_fat _ _ Hv).
  assert (forall o', o' ∈ root_offs (get_root s) -> slot v3 o' = slot v2 o') as Hkeep.
  { intros o' Ho'. destruct (Harea o' Ho'). apply slot_ext; [by apply Hin|]. intros y Hy. apply Hfr; nia. }
  split.
  - by rewrite Hkeep.
  - intros o' Ho' Hne. rewrite Hkeep by done. by apply Hother.
  - intros i c Hi Hc. rewrite (cf_entry _ _ _ _ Hfr) by done. by rewrite Hent.
  - intros y Hy. pose proof (vo_data _ _ Hv). rewrite (cf_other _ _ _ _ Hfr) by nia. by apply Hdata.
Qed.
End Mounted.

Module FatDriverProps.

Definition create_flag : Z := 0x1.
Definition exclusive_flag : Z := 0x2.

(** The handle [h] of the driver. *)
Definition handle {D} (s : FatDriver.t D) (h : Z) : option OpenHandle := HandleSlots.get_mut (open_handle_map s) (Z.to_nat h).

Definition open_cost {D} (s : FatDriver.t D) : Z := 2 * find_cost s + 2.

(** Opening a name that is not in the root directory, with the create flag. *)
Lemma open_entity_create {D} `{DiskLaws D} (fuel : nat) (k : Z) (s : FatDriver.t D) (v name : list Z) (flags now o : Z) :
  mounted k s v -> simple name -> Forall is_u8 name -> 0 <= now -> flags .& create_flag <> 0 ->
  root_lookup v (get_root s) name = None -> List.find (free_slot v) (root_offs (get_root s)) = Some o ->
  open_cost s <= k ->
  exists e d', open_entity fuel name flags now s = Some (Ok (EntityFile (File.from_dir_entry e o)), with_disk s d') /\
    FatEntryFacts.entry_wf e /\ (DirEntry.file_name e, DirEntry.ext e) = ShortName.parse_short_name name /\
    DirEntry.attributes e = 0 /\ DirEntry.first_file_cluster e = 0 /\ DirEntry.byte_size e = 0 /\
    mounted (k - open_cost s) (with_disk s d') (put_slot v o e) /\ durable d' = put_slot v o e.
Proof.
  intros Hm Hsi Hu Hnow Hfl Hnone Hfree Hk. unfold open_cost, find_cost in *. destruct (root_area k s v Hm) as [Hroot _].
  pose proof (ro_max _ _ Hroot) as Hmax. pose proof (root_offs_length _ _ Hroot) as Hlen.
  unfold open_entity. rewrite decide_False by apply Hsi. unfold bind at 1, gets at 1. unfold bind at 1.
  rewrite resolve_simple by done. unfold bind at 1.
  destruct (find_simple fuel k s v name Hm) as (d1 & -> & Hm1); [unfold find_cost; lia|]. rewrite Hnone. simpl.
  rewrite (proj2 (Z.eqb_neq _ _)) by done. destruct (short_name_ok name Hu) as (Hl8 & Hl3 & Hfb & Hxb).
  destruct (ShortName.parse_short_name name) as [f x] eqn:Hp. cbn [fst snd] in *.
  destruct (fresh_entry_ok f x 0 0 now) as (e & He & Hwf & Hef & Hex & Hea & Hec & Hes); try done.
  change (get_root (with_disk s d1)) with (get_root s) in *. change (get_table (with_disk s d1)) with (get_table s) in *.
  pose proof (mo_rep _ _ _ Hm1) as Hr1. destruct (find_decomp _ _ _ Hfree) as (pre & post & Hoffs & _).
  assert (o ∈ root_offs (get_root s)) as Hin by (rewrite Hoffs; set_solver).
  destruct (root_write_ok _ _ v (get_root s) e Hr1 Hroot Hwf) as (d2 & Hw & Hr2); [unfold scan_cost, find_cost; lia|].
  rewrite Hfree in Hw, Hr2.
  unfold bind at 1, on_disk at 1. unfold AnyDir.add_entry, RootDirectory.add_entry. rewrite He. cbn [mbind option_bind].
  rewrite Hw. unfold bind at 1, ok_or, ret at 1. unfold bind at 1, on_disk at 1. simpl.
  destruct (root_put v (get_root s) o e Hroot Hwf Hin) as [Hself _].
  pose proof (root_slots_in _ _ Hroot) as Hsi2. rewrite Forall_forall in Hsi2.
  destruct (read_slot _ d2 (put_slot v o e) o Hr2) as (d3 & -> & Hr3);
    [by apply put_slot_in, Hsi2|unfold scan_cost, find_cost; lia|]. rewrite Hself.
  change (with_disk (with_disk (with_disk s d1) d2) d3) with (with_disk s d3).
  assert (mounted (k - (2 * find_cost s + 2)) (with_disk s d3) (put_slot v o e)) as Hm3.
  { eapply mounted_disk; [exact Hm|eapply rep_weaken; [exact Hr3|unfold scan_cost, find_cost; lia]|apply put_slot_length|].
    apply put_slot_bytes; [apply (vo_bytes _ _ (mo_volume _ _ _ Hm))|done]. }
  unfold bind. destruct (flush_mounted _ _ _ Hm3) as (d4 & -> & Hm4 & Hd4). unfold ret.
  change (with_disk (with_disk s d3) d4) with (with_disk s d4) in *.
  exists e, d4. split; [done|]. rewrite Hef, Hex. unfold find_cost in Hm4. done.
Qed.

Lemma open_entity_find {D} `{DiskLaws D} (fuel : nat) (k : Z) (s : FatDriver.t D) (v name : list Z) (flags now : Z) :
  mounted k s v -> simple name -> flags .& exclusive_flag = 0 \/ flags .& create_flag = 0 -> find_cost s <= k ->
  flags .& create_flag = 0 \/ root_lookup v (get_root s) name <> None ->
  exists d', open_entity fuel name flags now s =
      Some (match root_lookup v (get_root s) name with
            | Some o => Ok (entity_of (slot v o) o)
            | None => Err NotFound
            end, with_disk s d') /\ mounted (k - find_cost s) (with_disk s d') v.
Proof.
  intros Hm Hsi Hfl Hk Hex. unfold open_entity. rewrite decide_False by apply Hsi.
  unfold bind at 1, gets at 1. unfold bind at 1. rewrite resolve_simple by done. unfold bind at 1.
  destruct (find_simple fuel k s v name Hm Hk) as (d' & -> & Hm'). exists d'. split; [|done].
  destruct (root_lookup v (get_root s) name) as [o|]; simpl.
  - destruct (negb (flags .& 2 =? 0) && negb (flags .& 1 =? 0)) eqn:E; [|done]. exfalso.
    apply andb_true_iff in E as [E1 E2]. apply negb_true_iff, Z.eqb_neq in E1, E2. by destruct Hfl.
  - destruct Hex as [Hc|[]]; [|done]. unfold create_flag in Hc. by rewrite Hc.
Qed.

(** The handle [open] returns. *)
Lemma open_handle {D} `{DiskLaws D} (fuel : nat) (k : Z) (s : FatDriver.t D) (v name : list Z) (flags now : Z) (e : Entity) d' :
  open_entity fuel name flags now s = Some (Ok e, with_disk s d') -> mounted k (with_disk s d') v ->
  Z.of_nat (length (HandleSlots.slots (open_handle_map s))) < 2 ^ 32 ->
  exists h s', open fuel name flags now s = Some (Ok h, s') /\ mounted k s' v /\ fs s' = fs (with_disk s d') /\ handle s h = None /\
    0 <= h /\ (forall h', 0 <= h' -> handle s' h' = if decide (h' = h) then Some {| handle_entity := e; cursor := 0 |} else handle s h') /\
    (length (HandleSlots.slots (open_handle_map s')) <= S (length (HandleSlots.slots (open_handle_map s))))%nat.
Proof.
  intros Ho Hm Hlen. unfold open, bind, gets, modify, ret. rewrite Ho. simpl.
  destruct (handle_insert (open_handle_map s) {| handle_entity := e; cursor := 0 |}) as (i & hs & -> & Hnone & Hi & Hl & Hget).
  assert (u32 (Z.of_nat i) = Z.of_nat i) as Hu by (apply Z.mod_small; lia). rewrite Hu.
  eexists _, _. split; [done|]. split; [by destruct Hm|]. unfold handle. simpl. rewrite Nat2Z.id.
  split_and!; [done|done|lia| |done]. intros h' Hh'. rewrite Hget. repeat case_decide; try done; lia.
Qed.

(** C33: opening a missing name of the root directory with the create flag
    makes an empty file: its entry fills the first free slot, and after the
    call the device itself holds the entry and is otherwise unchanged.  The
    call returns a handle that was not in use.  Opening the name again, in any
    spelling, finds the same entry under another handle, and both handles
    stay.  (The slot must not be the last one, which lookups do not reach.) *)
Theorem open_create_then_open {D} `{DiskLaws D} (fuel : nat) (k : Z) (s : FatDriver.t D) (v name name' : list Z)
    (flags flags' now now' o : Z) :
  mounted k s v -> simple name -> simple name' -> Forall is_u8 name -> Forall is_u8 name' ->
  map to_ascii_uppercase name' = map to_ascii_uppercase name -> FatDirProps.storable name -> 0 <= now ->
  flags .& create_flag <> 0 -> flags' .& exclusive_flag = 0 \/ flags' .& create_flag = 0 ->
  root_lookup v (get_root s) name = None ->
  List.find (free_slot v) (root_offs (get_root s)) = Some o -> last (root_offs (get_root s)) <> Some o ->
  Z.of_nat (length (HandleSlots.slots (open_handle_map s))) < 2 ^ 32 - 1 -> open_cost s + find_cost s <= k ->
  exists e h h' s1 s2, let file := {| handle_entity := EntityFile (File.from_dir_entry e o); cursor := 0 |} in
    open fuel name flags now s = Some (Ok h, s1) /\ handle s h = None /\ handle s1 h = Some file /\
    (DirEntry.file_name e, DirEntry.ext e) = ShortName.parse_short_name name /\
    DirEntry.attributes e = 0 /\ DirEntry.first_file_cluster e = 0 /\ DirEntry.byte_size e = 0 /\
    durable (FatFS.disk (fs s1)) = put_slot v o e /\
    open fuel name' flags' now' s1 = Some (Ok h', s2) /\ h' <> h /\ handle s2 h' = Some file /\ handle s2 h = Some file.
Proof.
  intros Hm Hsi Hsi' Hu Hu' Hcase Hst Hnow Hfl Hfl' Hnone Hfree Hlast Hlen Hk.
  assert (0 <= find_cost s) as Hfc by (unfold find_cost; destruct (root_area k s v Hm) as [Hroot _]; pose proof (ro_max _ _ Hroot); lia).
  destruct (open_entity_create fuel k s v name flags now o Hm Hsi Hu Hnow Hfl Hnone Hfree) as
    (e & d1 & Ho1 & Hwf & Hname & Hea & Hec & Hes & Hm1 & Hd1); [lia|].
  destruct (open_handle fuel _ s _ name flags now _ d1 Ho1 Hm1) as (h & s1 & Hopen1 & Hms1 & Hfs1 & Hh & Hh0 & Hget1 & Hl1); [lia|].
  assert (get_root s1 = get_root s) as Hroot1 by (unfold get_root; by rewrite Hfs1).
  assert (find_cost s1 = find_cost s) as Hc1 by (unfold find_cost; by rewrite Hroot1).
  assert (DirEntry.is_empty e = false) as Hee.
  { apply (FatDirProps.storable_entry e name Hst). by destruct (ShortName.parse_short_name name); simplify_eq. }
  assert (root_lookup (put_slot v o e) (get_root s) name' = Some o) as Hlook.
  { destruct (root_area k s v Hm) as [Hroot _]. by apply (root_added v (get_root s) o e name name'). }
  destruct (open_entity_find fuel _ s1 (put_slot v o e) name' flags' now' Hms1 Hsi' Hfl') as (d2 & Ho2 & Hm2);
    [lia|right; by rewrite Hroot1, Hlook|].
  rewrite Hroot1, Hlook in Ho2.
  assert (slot (put_slot v o e) o = e) as Hslot.
  { destruct (root_area k s v Hm) as [Hroot _]. apply (root_put v (get_root s) o e Hroot Hwf).
    by apply List.find_some in Hfree as [?%list_elem_of_In _]. }
  assert (entity_of (slot (put_slot v o e) o) o = EntityFile (File.from_dir_entry e o)) as Hent.
  { rewrite Hslot. unfold entity_of, DirEntry.is_directory. by rewrite Hea. }
  rewrite Hent in Ho2.
  destruct (open_handle fuel _ s1 _ name' flags' now' _ d2 Ho2 Hm2) as (h' & s2 & Hopen2 & Hms2 & Hfs2 & Hh' & Hh0' & Hget2 & _); [lia|].
  assert (h' <> h) as Hne. { intros ->. rewrite Hget1, decide_True in Hh' by done. done. }
  exists e, h, h', s1, s2. cbv zeta. split_and!; try done.
  - by rewrite Hget1, decide_True.
  - by rewrite Hfs1.
  - by rewrite Hget2, decide_True.
  - rewrite Hget2, decide_False by congruence. by rewrite Hget1, decide_True.
Qed.

(** unlinking a file of the root directory deletes its entry and frees
    every cluster of its chain in every copy of the allocation table; when the
    call returns the device holds the change.  No other entry of the directory,
    no other entry of the table and no byte of the data area is touched, the
    open handles stay, and the name is not found any more. *)
Theorem unlink_removes_file {D} `{DiskLaws D} (fuel : nat) (k : Z) (s : FatDriver.t D) (v name : list Z)
    (o now : Z) (l : list Z) :
  mounted k s v -> simple name -> Forall is_u8 name -> root_lookup v (get_root s) name = Some o ->
  DirEntry.is_directory (slot v o) = false -> slot_clusters s v o l -> (length l <= fuel)%nat ->
  unlink_cost s l + find_cost s <= k ->
  exists s' s'' v', unlink fuel name s = Some (Ok 0, s') /\ durable (FatFS.disk (fs s')) = v' /\
    open_handle_map s' = open_handle_map s /\ unlinked s v v' o l /\
    open fuel name 0 now s' = Some (Err NotFound, s'').
Proof.
  intros Hm Hsi Hu Hlook Hdir Hcl Hf Hk.
  assert (0 <= find_cost s) as Hfc by (unfold find_cost; destruct (root_area k s v Hm) as [Hroot _]; pose proof (ro_max _ _ Hroot); lia).
  destruct (unlink_ok fuel k s v name o l) as (d' & v' & Hun & Hm' & Hd & Hpost); [done..|lia|].
  pose proof (unlinked_missing k s v v' o o l name name Hm Hlook Hpost Hlook ltac:(lia)) as Hnone.
  destruct (open_entity_find fuel _ (with_disk s d') v' name 0 now Hm' Hsi) as (d2 & Ho2 & _);
    [by left|change (find_cost (with_disk s d')) with (find_cost s); lia|by left|].
  change (get_root (with_disk s d')) with (get_root s) in Ho2. rewrite Hnone in Ho2.
  exists (with_disk s d'). eexists _, v'. split_and!; try done. unfold open, bind. by rewrite Ho2.
Qed.

(** C39: unlinking a file of the root directory hides every file behind it.
    The entry of such a file is untouched on the disk, and its name was found
    before the call, but [RootDirectoryIter] stops at the deleted slot and the
    file is reported as missing. *)
Theorem unlink_hides_later_files {D} `{DiskLaws D} (fuel : nat) (k : Z) (s : FatDriver.t D) (v name later : list Z)
    (o o2 now : Z) (l : list Z) :
  mounted k s v -> simple name -> simple later -> Forall is_u8 name ->
  root_lookup v (get_root s) name = Some o -> root_lookup v (get_root s) later = Some o2 -> o < o2 ->
  DirEntry.is_directory (slot v o) = false -> slot_clusters s v o l -> (length l <= fuel)%nat ->
  unlink_cost s l + find_cost s <= k ->
  exists s' s'' v', unlink fuel name s = Some (Ok 0, s') /\ durable (FatFS.disk (fs s')) = v' /\
    slot v' o2 = slot v o2 /\ open fuel later 0 now s' = Some (Err NotFound, s'').
Proof.
  intros Hm Hsi Hsi2 Hu Hlook Hlook2 Hlt Hdir Hcl Hf Hk.
  assert (0 <= find_cost s) as Hfc by (unfold find_cost; destruct (root_area k s v Hm) as [Hroot _]; pose proof (ro_max _ _ Hroot); lia).
  destruct (unlink_ok fuel k s v name o l) as (d' & v' & Hun & Hm' & Hd & Hpost); [done..|lia|].
  pose proof (unlinked_missing k s v v' o o2 l name later Hm Hlook Hpost Hlook2 ltac:(lia)) as Hnone.
  assert (o2 ∈ root_offs (get_root s)) as Hin2.
  { destruct (root_lookup_split _ _ _ _ Hlook2) as (pre2 & rest2 & -> & _). set_solver. }
  destruct (open_entity_find fuel _ (with_disk s d') v' later 0 now Hm' Hsi2) as (d2 & Ho2 & _);
    [by left|change (find_cost (with_disk s d')) with (find_cost s); lia|by left|].
  change (get_root (with_disk s d')) with (get_root s) in Ho2. rewrite Hnone in Ho2.
  exists (with_disk s d'). eexists _, v'. split_and!; try done; [apply Hpost; [done|lia]|]. unfold open, bind. by rewrite Ho2.
Qed.

(** ** A sample driver *)

Import FatTableProps FatFileProps.

#[local] Existing Instance array_disk.
#[local] Existing Instance array_disk_laws.

Definition sample_bpb : BiosParamBlock.t :=
  {| BiosParamBlock.bytes_per_sector := 512; BiosParamBlock.sectors_per_cluster := 1;
     BiosParamBlock.reserved_sectors := 1; BiosParamBlock.fat_count := 1;
     BiosParamBlock.root_directory_entries := 16; BiosParamBlock.total_sectors := 16;
     BiosParamBlock.media_descriptor := 0xf0; BiosParamBlock.sectors_per_fat := 12 |}.
Definition driver_on (v : list Z) : FatDriver.t (list Z) :=
  FatDriver.new {| FatFS.disk := v; FatFS.bpb := sample_bpb; FatFS.table := from_bpb sample_bpb |}.

(** The files A, in the clusters 2 and 3, and B, empty. *)
Definition entry_b : DirEntry.t := DirEntry.set_filename DirEntry.new (0x42 :: replicate 7 0x20) (replicate 3 0x20).
Definition two_files : list Z := put_slot (put_slot two_clusters 6656 full_entry) 6688 entry_b.

Lemma sample_geometry : geometry sample_bpb.
Proof. split; vm_compute; try split; congruence. Qed.

Lemma driver_mounted (v : list Z) :
  volume sample_table v -> Z.of_nat (length v) < 2 ^ 32 -> mounted 10000 (driver_on v) v.
Proof. intros Hv Hl. split; [split; [reflexivity|exact Hl]|reflexivity|exact sample_geometry|exact Hv]. Qed.

Lemma full_entry_wf : FatEntryFacts.entry_wf full_entry.
Proof. split; try (vm_compute; split_and!; congruence); try reflexivity; bytes_of_volume. Qed.

Lemma entry_b_wf : FatEntryFacts.entry_wf entry_b.
Proof. split; try (vm_compute; split_and!; congruence); try reflexivity; bytes_of_volume. Qed.

Lemma two_files_change : data_change sample_table two_clusters two_files.
Proof.
  assert (mounted 10000 (driver_on two_clusters) two_clusters) as Hm
    by (apply driver_mounted; [exact two_clusters_ok|vm_compute; reflexivity]).
  destruct (root_put_change _ _ _ 6656 full_entry Hm full_entry_wf) as ([Hl1 Hb1 Ht1] & _ & _).
  { apply slots_from_elem. exists 0. vm_compute. split; [reflexivity|split; congruence]. }
  assert (mounted 10000 (driver_on (put_slot two_clusters 6656 full_entry)) (put_slot two_clusters 6656 full_entry)) as Hm1.
  { apply driver_mounted; [exact (volume_change sample_table _ _ two_clusters_ok Hl1 Hb1)|rewrite Hl1; vm_compute; reflexivity]. }
  destruct (root_put_change _ _ _ 6688 entry_b Hm1 entry_b_wf) as ([Hl2 Hb2 Ht2] & _ & _).
  { apply slots_from_elem. exists 1. vm_compute. split; [reflexivity|split; congruence]. }
  split; [exact (eq_trans Hl2 Hl1)|exact Hb2|]. intros x Hx Hin. exact (eq_trans (Ht2 x Hx Hin) (Ht1 x Hx Hin)).
Qed.

Lemma two_files_mounted : mounted 10000 (driver_on two_files) two_files.
Proof.
  pose proof two_files_change as [Hl Hb _].
  apply driver_mounted; [exact (volume_change sample_table two_clusters two_files two_clusters_ok Hl Hb)|].
  rewrite Hl. vm_compute. reflexivity.
Qed.

Lemma two_files_clusters : slot_clusters (driver_on two_files) two_files 6656 [2; 3].
Proof.
  unfold slot_clusters. assert (DirEntry.first_file_cluster (slot two_files 6656) = 2) as -> by (vm_compute; reflexivity).
  eapply (file_data_change sample_table); [exact two_clusters_ok|exact two_files_change|].
  exact (fo_clusters _ _ _ _ two_cluster_file_ok).
Qed.

Lemma letter_simple (c : Z) : 0x60 < c < 0x7b \/ 0x40 < c < 0x5b -> simple [c].
Proof. intros Hc. split; [done|]. rewrite !list_elem_of_singleton. unfold Path.SLASH, Path.BACKSLASH. lia. Qed.

Lemma open_create_witness :
  exists e h h' s1 s2, let file := {| handle_entity := EntityFile (File.from_dir_entry e 6688); cursor := 0 |} in
    open 100 [0x62] 1 0 (driver_on empty_volume) = Some (Ok h, s1) /\ handle (driver_on empty_volume) h = None /\
    handle s1 h = Some file /\ (DirEntry.file_name e, DirEntry.ext e) = ShortName.parse_short_name [0x62] /\
    DirEntry.attributes e = 0 /\ DirEntry.first_file_cluster e = 0 /\ DirEntry.byte_size e = 0 /\
    durable (FatFS.disk (fs s1)) = put_slot empty_volume 6688 e /\
    open 100 [0x42] 0 0 s1 = Some (Ok h', s2) /\ h' <> h /\ handle s2 h' = Some file /\ handle s2 h = Some file.
Proof.
  apply (open_create_then_open 100 10000 (driver_on empty_volume) empty_volume [0x62] [0x42] 1 0 0 0 6688);
    [apply driver_mounted; [exact empty_volume_ok|vm_compute; reflexivity]|apply letter_simple; lia|apply letter_simple; lia|
     bytes_of_volume|bytes_of_volume|reflexivity|vm_compute; split; congruence|lia|vm_compute; congruence|by left|
     vm_compute; reflexivity|vm_compute; reflexivity|vm_compute; congruence|vm_compute; reflexivity|vm_compute; congruence].
Defined.

Lemma unlink_witness :
  exists s' s'' v', unlink 100 [0x61] (driver_on two_files) = Some (Ok 0, s') /\ durable (FatFS.disk (fs s')) = v' /\
    open_handle_map s' = open_handle_map (driver_on two_files) /\
    unlinked (driver_on two_files) two_files v' 6656 [2; 3] /\ open 100 [0x61] 0 0 s' = Some (Err NotFound, s'').
Proof.
  apply (unlink_removes_file 100 10000 (driver_on two_files) two_files [0x61] 6656 0 [2; 3]);
    [exact two_files_mounted|apply letter_simple; lia|bytes_of_volume|vm_compute; reflexivity|vm_compute; reflexivity|
     exact two_files_clusters|simpl; lia|vm_compute; congruence].
Defined.

Lemma unlink_hides_witness :
  exists s' s'' v', unlink 100 [0x61] (driver_on two_files) = Some (Ok 0, s') /\ durable (FatFS.disk (fs s')) = v' /\
    slot v' 6688 = slot two_files 6688 /\ open 100 [0x62] 0 0 s' = Some (Err NotFound, s'').
Proof.
  apply (unlink_hides_later_files 100 10000 (driver_on two_files) two_files [0x61] [0x62] 6656 6688 0 [2; 3]);
    [exact two_files_mounted|apply letter_simple; lia|apply letter_simple; lia|bytes_of_volume|vm_compute; reflexivity|
     vm_compute; reflexivity|lia|vm_compute; reflexivity|exact two_files_clusters|simpl; lia|vm_compute; congruence].
Defined.
End FatDriverProps.
