(* ===== verification/FatServer.v ===== *)
(** * The FAT driver task

    [components/drivers/fatdriver/src/main.rs]: the task that runs the FAT
    driver implements the [AsyncDriver] interface by passing every request to
    the driver and translating its errors.  Buffers are ranges of the task's
    memory; the buffers handed back to the kernel are logged.  The last theorem
    follows a request all the way from the kernel's action to the device. *)

From S2P Require Import Prelude Api DriverProtocol FatDisk FatCache FatTable FatEntry FatFile FatFileSpec.
From S2P Require Import FatDir FatDirSpec FatDriver FatDriverSpec.

Definition fat_error_to_io_error (e : FatError) : IoError :=
  match e with
  | FatDriver.NotFound => Api.NotFound
  | FatDriver.FileHandleInvalid => Api.FileHandleInvalid
  | FatDriver.OperationFailed => Api.OperationFailed
  | FatDriver.UnsupportedOperation => Api.UnsupportedOperation
  | FatDriver.AlreadyOpen => Api.AlreadyOpen
  | FatDriver.InvalidArgument => Api.InvalidArgument
  end.

Module IdosFatDriver.
Section Server.
Context {D : Type} `{Disk D}.

(** [clock n] is the [n]th time the system clock is read, [map_frame] the
    answer of the [map_memory] call for a physical frame, and [fuel] bounds the
    chains the driver follows. *)
Context (fuel : nat) (clock : nat -> Z) (map_frame : Z -> option Z).

(** The state of the task: the driver, the task's memory, the ranges unmapped
    so far and the number of times the clock was read. *)
Record t := {
  inner : FatDriver.t D;
  memory : Z -> Z;
  unmapped : list (Z * Z);
  ticks : nat
}.

Definition with_inner (self : t) (i : FatDriver.t D) : t :=
  {| inner := i; memory := memory self; unmapped := unmapped self; ticks := ticks self |}.
Definition with_memory (self : t) (m : Z -> Z) : t :=
  {| inner := inner self; memory := m; unmapped := unmapped self; ticks := ticks self |}.
Definition tick (n : nat) (self : t) : t :=
  {| inner := inner self; memory := memory self; unmapped := unmapped self; ticks := ticks self + n |}.

(** A buffer of the task's memory. *)
Definition buffer (self : t) (ptr len : Z) : list Z := AsyncDriver.slice (memory self) ptr len.
Definition store (m : Z -> Z) (ptr : Z) (bytes : list Z) : Z -> Z := fun a =>
  if ptr <=? a then match bytes !! Z.to_nat (a - ptr) with Some b => b | None => m a end else m a.

(** The task's state is lost when the driver panics or never returns. *)
Definition call {A} (m : FatDriver.M A) (k : A -> t -> IoResult * t) (st : option t) : IoResult * option t :=
  match st with
  | None => (Err Api.OperationFailed, None)
  | Some self =>
      match m (inner self) with
      | None => (Err Api.OperationFailed, None)
      | Some (Err e, i) => (Err (fat_error_to_io_error e), Some (with_inner self i))
      | Some (Ok a, i) => let '(r, self) := k a (with_inner self i) in (r, Some self)
      end
  end.
Definition value (a : Z) (self : t) : IoResult * t := (Ok a, self).

(** The clock readings of the next calls. *)
Definition now (st : option t) (n : nat) : Z := match st with Some self => clock (ticks self + n) | None => 0 end.

Definition release_buffer (st : option t) (addr len : Z) : option t :=
  self ← st;
  let page_start := addr .& 0xfffff000 in
  let page_end := u32 (u32 (addr + len) + 0xfff) .& 0xfffff000 in
  let size := u32 (page_end - page_start) in
  Some {| inner := inner self; memory := memory self; unmapped := unmapped self ++ [(page_start, size)];
          ticks := ticks self |}.

(** The [FileStatus] struct [stat] fills in: size, type, drive and time. *)
Definition status_bytes (old : list Z) (info : FileStatusInfo) : list Z :=
  DirEntry.le32 (byte_size info) ++
  DirEntry.le32 (match file_type info with TFile => 1 | TDir => 2 end) ++
  take 4 (drop 8 old) ++ DirEntry.le32 (modification_time info).

Definition page_in_mapping (st : option t) (map_token offset_in_file frame_paddr : Z) : IoResult * option t :=
  match map_frame frame_paddr with
  | None => (Err Api.OperationFailed, st)
  | Some vaddr =>
      match st with
      | None => (Err Api.OperationFailed, None)
      | Some self =>
          call (FatDriver.page_in_mapping_to_buffer fuel map_token offset_in_file (buffer self vaddr 0x1000))
            (fun r self => (Ok r.1, with_memory self (store (memory self) vaddr r.2))) st
      end
  end.

Definition read (st : option t) (file_ref ptr len offset : Z) : IoResult * option t :=
  match st with
  | None => (Err Api.OperationFailed, None)
  | Some self =>
      call (FatDriver.read fuel file_ref (buffer self ptr len) offset)
        (fun r self => (Ok r.1, with_memory self (store (memory self) ptr r.2))) st
  end.

Definition write (st : option t) (file_ref ptr len offset : Z) : IoResult * option t :=
  match st with
  | None => (Err Api.OperationFailed, None)
  | Some self => call (FatDriver.write fuel file_ref (buffer self ptr len) offset) value st
  end.

Definition stat (st : option t) (file_ref ptr : Z) : IoResult * option t :=
  call (FatDriver.stat file_ref)
    (fun info self => (Ok 0, with_memory self (store (memory self) ptr
       (status_bytes (buffer self ptr AsyncDriver.FILE_STATUS_SIZE) info)))) st.

Definition open (st : option t) (path : list Z) (flags : Z) : IoResult * option t :=
  call (FatDriver.open fuel path flags (now st 0)) value (tick 1 <$> st).
Definition mkdir (st : option t) (path : list Z) : IoResult * option t :=
  call (FatDriver.mkdir fuel path (now st 0) (now st 1) (now st 2)) value (tick 3 <$> st).

(** [impl AsyncDriver for IdosFatDriver]; the other methods are the trait's
    own. *)
Definition ops : AsyncDriver.ops (option t) := {|
  AsyncDriver.release_buffer := release_buffer;
  AsyncDriver.open := open;
  AsyncDriver.create_mapping st path := call (FatDriver.create_mapping fuel path) value st;
  AsyncDriver.close st file_ref := call (FatDriver.close file_ref) value st;
  AsyncDriver.remove_mapping st token := call (FatDriver.remove_mapping token) value st;
  AsyncDriver.read := read;
  AsyncDriver.write := write;
  AsyncDriver.share := AsyncDriver.share (AsyncDriver.default_ops release_buffer);
  AsyncDriver.stat := stat;
  AsyncDriver.page_in_mapping := page_in_mapping;
  AsyncDriver.ioctl := AsyncDriver.ioctl (AsyncDriver.default_ops release_buffer);
  AsyncDriver.ioctl_struct := AsyncDriver.ioctl_struct (AsyncDriver.default_ops release_buffer);
  AsyncDriver.mkdir := mkdir;
  AsyncDriver.unlink st path := call (FatDriver.unlink fuel path) value st;
  AsyncDriver.rmdir st path := call (FatDriver.rmdir fuel path) value st;
  AsyncDriver.rename st old new := call (FatDriver.rename fuel old new) value st
|}.
End Server.
End IdosFatDriver.

Module FatServerProps.
Import FatView FatFileProps FatDriverProps IdosFatDriver.

(** [unlink] of a name that is missing or a directory changes nothing. *)
Lemma unlink_refused {D} `{DiskLaws D} (fuel : nat) (k : Z) (s : FatDriver.t D) (v name : list Z) :
  mounted k s v -> simple name -> find_cost s <= k ->
  let r := match root_lookup v (FatDriver.get_root s) name with
           | None => Some FatDriver.NotFound
           | Some o => if DirEntry.is_directory (slot v o) then Some FatDriver.InvalidArgument else None
           end in
  match r with
  | Some e => exists d', FatDriver.unlink fuel name s = Some (Err e, FatDriver.with_disk s d') /\
                mounted (k - find_cost s) (FatDriver.with_disk s d') v
  | None => True
  end.
Proof.
  intros Hm Hsi Hk. destruct (find_simple fuel k s v name Hm Hk) as (d1 & Hf & Hm1). cbv zeta.
  unfold FatDriver.unlink. unfold FatDriver.bind at 1, FatDriver.gets at 1. unfold FatDriver.bind at 1.
  rewrite resolve_simple by done. destruct (ShortName.parse_short_name name) as [f x]. unfold FatDriver.bind at 1. rewrite Hf.
  destruct (root_lookup v (FatDriver.get_root s) name) as [o|]; simpl; [|by exists d1].
  unfold entity_of. destruct (DirEntry.is_directory (slot v o)); [by exists d1|done].
Qed.

(** The buffer a request came in, as the range of pages to unmap. *)
Definition buffer_pages (p len : Z) : Z * Z :=
  let first := p .& 0xfffff000 in (first, u32 ((u32 (u32 (p + len) + 0xfff) .& 0xfffff000) - first)).

(** C26: an unlink request on its whole way.  The kernel encodes the action as
    a message; the driver task decodes it, reads the path from the shared
    buffer, runs the file system call and answers: [NotFound] for a name that
    is not in the root directory and [InvalidArgument] for a directory, both
    with the volume unchanged, and 0 for a file, whose entry is then deleted
    and whose clusters are free on the device.  In every case the pages of the
    buffer are handed back. *)
Theorem unlink_request {D} `{DiskLaws D} (fuel : nat) (clock : nat -> Z) (map_frame : Z -> option Z)
    (k : Z) (self : IdosFatDriver.t) (v : list Z) (p len request_id : Z) (l : list Z) :
  let name := IdosFatDriver.buffer self p len in
  let s := IdosFatDriver.inner self in
  mounted k s v -> 0 < len -> simple name -> Forall is_u8 name -> Utf8.valid_fuel (length name) name = true ->
  (length l <= fuel)%nat -> unlink_cost s l <= k ->
  (forall o, root_lookup v (FatDriver.get_root s) name = Some o -> DirEntry.is_directory (slot v o) = false ->
    slot_clusters s v o l) ->
  exists r self' v',
    AsyncDriver.handle_request (IdosFatDriver.ops fuel clock map_frame) (IdosFatDriver.memory self) (Some self)
      (DriverIoAction.encode_to_message (DriverIoAction.Unlink p len) request_id) = Some (Some r, Some self') /\
    IdosFatDriver.unmapped self' = IdosFatDriver.unmapped self ++ [buffer_pages p len] /\
    mounted (k - unlink_cost s l) (IdosFatDriver.inner self') v' /\
    match root_lookup v (FatDriver.get_root s) name with
    | None => r = Err Api.NotFound /\ v' = v
    | Some o =>
        if DirEntry.is_directory (slot v o) then r = Err Api.InvalidArgument /\ v' = v
        else r = Ok 0 /\ durable (FatFS.disk (FatDriver.fs (IdosFatDriver.inner self'))) = v' /\ unlinked s v v' o l
    end.
Proof.
  intros name s Hm Hlen Hsi Hu8 Hutf Hf Hk Hcl.
  destruct (root_area k s v Hm) as [Hroot _]. pose proof (ro_max _ _ Hroot) as Hmax.
  pose proof (vo_count _ _ (mo_volume _ _ _ Hm)) as Hcount.
  assert (find_cost s <= unlink_cost s l /\ 0 <= find_cost s) as [Hfc Hfc0] by (unfold unlink_cost, find_cost; nia).
  destruct (decode_encoded (IdosFatDriver.ops fuel clock map_frame) (IdosFatDriver.memory self) (Some self)
    (DriverIoAction.Unlink p len) request_id) as (dec & _ & ->); [exact Hlen|].
  cbn [Dispatch.run]. unfold Dispatch.utf8_or_drop. fold (IdosFatDriver.buffer self p len). fold name. rewrite Hutf.
  unfold Dispatch.reply_release. rewrite (proj2 (Z.eqb_neq len 0)) by lia. cbn [AsyncDriver.unlink IdosFatDriver.ops call].
  pose proof (unlink_refused fuel k s v name Hm Hsi ltac:(lia)) as Href. fold s.
  assert (forall d' v', mounted (k - find_cost s) (FatDriver.with_disk s d') v' ->
    mounted (k - unlink_cost s l) (FatDriver.with_disk s d') v') as Hweak.
  { intros d' v' [Hr ? ? ?]. split; try done. eapply rep_weaken; [exact Hr|lia]. }
  destruct (root_lookup v (FatDriver.get_root s) name) as [o|] eqn:Hlook; cbv zeta in Href.
  - destruct (DirEntry.is_directory (slot v o)) eqn:Hdir.
    + destruct Href as (d' & -> & Hm'). eexists _, _, v. split; [done|]. split; [done|]. by split; [apply Hweak|].
    + destruct (unlink_ok fuel k s v name o l) as (d' & v' & Hun & Hm' & Hd & Hpost); try done; [by apply Hcl|].
      rewrite Hun. eexists _, _, v'. by split_and!.
  - destruct Href as (d' & -> & Hm'). eexists _, _, v. split; [done|]. split; [done|]. by split; [apply Hweak|].
Qed.

#[local] Existing Instance array_disk.
#[local] Existing Instance array_disk_laws.

(** A driver task whose memory is full of the letter a. *)
Definition sample_server : IdosFatDriver.t :=
  {| inner := driver_on two_files; memory := fun _ => 0x61; unmapped := []; ticks := 0 |}.

Lemma unlink_request_witness :
  exists r self' v',
    AsyncDriver.handle_request (IdosFatDriver.ops 100 (fun _ => 0) (fun _ => None)) (fun _ => 0x61) (Some sample_server)
      (DriverIoAction.encode_to_message (DriverIoAction.Unlink 4096 1) 7) = Some (Some r, Some self') /\
    unmapped self' = [buffer_pages 4096 1] /\
    mounted (10000 - unlink_cost (driver_on two_files) [2; 3]) (inner self') v' /\
    match root_lookup two_files (FatDriver.get_root (driver_on two_files)) [0x61] with
    | None => r = Err Api.NotFound /\ v' = two_files
    | Some o =>
        if DirEntry.is_directory (slot two_files o) then r = Err Api.InvalidArgument /\ v' = two_files
        else r = Ok 0 /\ durable (FatFS.disk (FatDriver.fs (inner self'))) = v' /\
          unlinked (driver_on two_files) two_files v' o [2; 3]
    end.
Proof.
  apply (unlink_request 100 (fun _ => 0) (fun _ => None) 10000 sample_server two_files 4096 1 7 [2; 3]);
    [exact two_files_mounted|lia|exact (letter_simple 0x61 ltac:(lia))|bytes_of_volume|vm_compute; reflexivity|simpl; lia|vm_compute; congruence|].
  intros o Ho _. assert (o = 6656) as ->; [|exact two_files_clusters].
  assert (root_lookup two_files (FatDriver.get_root (driver_on two_files)) [0x61] = Some 6656) as Hl by (vm_compute; reflexivity).
  change (root_lookup two_files (FatDriver.get_root (driver_on two_files)) [0x61] = Some o) in Ho. rewrite Hl in Ho. congruence.
Defined.
End FatServerProps.
