(* ===== verification/Tasks.v ===== *)
(** * Tasks

    The run state of a task and its message queue, from
    [kernel/src/task/state.rs] and [kernel/src/task/messaging.rs].  A task is
    reduced to what the scheduler and the blocking calls use: its run state,
    its message queue and the result of its last file mapping request.  A
    panic is [None]. *)

From S2P Require Import Prelude Api.

Inductive BlockType := Sleep | Futex | FileMapping.

Inductive RunState :=
| Uninitialized
| Initialized
| Running
| Terminated
| Blocked (timeout : option Z) (block_type : BlockType).

#[global] Instance BlockType_eq_dec : EqDecision BlockType.
Proof. solve_decision. Defined.
#[global] Instance RunState_eq_dec : EqDecision RunState.
Proof. solve_decision. Defined.

(** ** Messages *)

Module MessageQueue.
Record MessagePacket := { from : Z; message : Message }.
Record EnqueuedMessage := { packet : MessagePacket; expiration_ticks : Z }.

Definition t : Type := list EnqueuedMessage.
Definition new : t := [].

Fixpoint remove_expired_items (queue : t) (current_ticks : Z) : t :=
  match queue with
  | [] => []
  | entry :: rest => if current_ticks <? expiration_ticks entry then queue else remove_expired_items rest current_ticks
  end.

Definition add (queue : t) (from : Z) (message : Message) (current_ticks expiration_ticks : Z) : t :=
  remove_expired_items queue current_ticks ++
    [{| packet := {| from := from; message := message |}; expiration_ticks := expiration_ticks |}].

Definition read (queue : t) (current_ticks : Z) : option MessagePacket * bool * t :=
  match remove_expired_items queue current_ticks with
  | [] => (None, false, [])
  | entry :: rest => (Some (packet entry), negb (bool_decide (rest = [])), rest)
  end.

Definition has_messages (queue : t) (current_ticks : Z) : bool * t :=
  let queue := remove_expired_items queue current_ticks in (negb (bool_decide (queue = [])), queue).
End MessageQueue.

(** ** The task *)

Module Task.
Record t := {
  state : RunState;
  message_queue : MessageQueue.t;
  last_map_result : option IoResult
}.

Definition new : t := {| state := Uninitialized; message_queue := MessageQueue.new; last_map_result := None |}.

Definition with_state (self : t) (s : RunState) : t :=
  {| state := s; message_queue := message_queue self; last_map_result := last_map_result self |}.

Definition can_resume (self : t) : bool :=
  match state self with Initialized | Running => true | _ => false end.

Definition make_runnable (self : t) : t :=
  match state self with Uninitialized => with_state self Initialized | _ => self end.

Definition terminate (self : t) : t := with_state self Terminated.
Definition is_terminated (self : t) : bool := match state self with Terminated => true | _ => false end.

Definition update_timeout (self : t) (ms : Z) : bool * t :=
  match state self with
  | Blocked (Some t) block_type =>
      if t <=? ms then (true, with_state self Running)
      else (false, with_state self (Blocked (Some (t - ms)) block_type))
  | _ => (false, self)
  end.

Definition sleep (self : t) (timeout_ms : Z) : option t :=
  match state self with
  | Running => Some (with_state self (Blocked (Some timeout_ms) Sleep))
  | _ => None
  end.

Definition read_message (self : t) (current_ticks : Z) : option MessageQueue.MessagePacket * bool * t :=
  let '(m, more, q) := MessageQueue.read (message_queue self) current_ticks in
  (m, more, {| state := state self; message_queue := q; last_map_result := last_map_result self |}).

Definition receive_message (self : t) (current_ticks from : Z) (message : Message) (expiration_ticks : Z) : t :=
  {| state := state self;
     message_queue := MessageQueue.add (message_queue self) from message current_ticks expiration_ticks;
     last_map_result := last_map_result self |}.

Definition futex_wait (self : t) (timeout : option Z) : t := with_state self (Blocked timeout Futex).

Definition futex_wake (self : t) : bool * t :=
  match state self with
  | Blocked _ Futex => (true, with_state self Running)
  | _ => (false, self)
  end.

Definition begin_file_mapping_request (self : t) : t :=
  match state self with
  | Running => match last_map_result self with
               | Some _ => self
               | None => with_state self (Blocked None FileMapping)
               end
  | _ => self
  end.

(** [last_map_result.take()] *)
Definition take_map_result (self : t) : option IoResult * t :=
  (last_map_result self, {| state := state self; message_queue := message_queue self; last_map_result := None |}).

Definition resolve_file_mapping_request (self : t) (result : IoResult) : bool * t :=
  let self := {| state := state self; message_queue := message_queue self; last_map_result := Some result |} in
  match state self with
  | Blocked _ FileMapping => (true, with_state self Running)
  | _ => (false, self)
  end.
End Task.

(** ** Delivery of messages *)

Module Messaging.
Import MessageQueue.

(** The reference queue drops every expired message at every access. *)
Definition valid (now : Z) (e : EnqueuedMessage) : bool := now <? expiration_ticks e.
Definition prune (now : Z) (q : list EnqueuedMessage) : list EnqueuedMessage := filter (fun e => valid now e = true) q.

Inductive access :=
| Add (from : Z) (m : Message) (expiration : Z)
| Read
| Peek.

(** One access at the time [now], and what it returns. *)
Definition run (q : list EnqueuedMessage) (a : access) (now : Z) : option MessagePacket * list EnqueuedMessage :=
  match a with
  | Add from m e => (None, add q from m now e)
  | Read => let '(m, _, q) := read q now in (m, q)
  | Peek => (None, (has_messages q now).2)
  end.
Definition run_eager (q : list EnqueuedMessage) (a : access) (now : Z) : option MessagePacket * list EnqueuedMessage :=
  let q := prune now q in
  match a with
  | Add from m e => (None, q ++ [{| packet := {| from := from; message := m |}; expiration_ticks := e |}])
  | Read => (packet <$> head q, tail q)
  | Peek => (None, q)
  end.

Fixpoint trace (step : list EnqueuedMessage -> access -> Z -> option MessagePacket * list EnqueuedMessage) (q : list EnqueuedMessage) (l : list (access * Z)) :
    list (option MessagePacket) :=
  match l with
  | [] => []
  | (a, now) :: l => let '(m, q) := step q a now in m :: trace step q l
  end.

(** The clock does not run backwards. *)
Fixpoint clocked (now : Z) (l : list (access * Z)) : Prop :=
  match l with
  | [] => True
  | (_, n) :: l => now <= n /\ clocked n l
  end.

(** The reference queue is the lazy one without its expired messages. *)
Definition matches (now : Z) (q q' : list EnqueuedMessage) : Prop := prune now q = prune now q'.

Lemma prune_mono (now now' : Z) (q : list EnqueuedMessage) : now <= now' -> prune now' (prune now q) = prune now' q.
Proof.
  intros Hn. unfold prune. induction q as [|e q IH]; [done|]. rewrite !filter_cons. unfold valid in *.
  destruct (now <? expiration_ticks e) eqn:E; [rewrite (decide_True (P := true = true)), filter_cons by done; by case_decide; rewrite ?IH|].
  rewrite (decide_False (P := false = true)) by done. rewrite IH. rewrite decide_False; [done|]. intros ?. bool_facts. lia.
Qed.

Lemma matches_later (now now' : Z) (q q' : list EnqueuedMessage) : now <= now' -> matches now q q' -> matches now' q q'.
Proof. intros Hn Hm. unfold matches. by rewrite <- (prune_mono now now' q), <- (prune_mono now now' q'), Hm. Qed.

(** Dropping the expired messages at the front keeps all valid ones. *)
Lemma prune_expired (now : Z) (q : list EnqueuedMessage) : prune now (remove_expired_items q now) = prune now q.
Proof.
  induction q as [|e q IH]; [done|]. simpl. unfold prune in *. rewrite (filter_cons _ e). unfold valid.
  destruct (now <? expiration_ticks e) eqn:E; [by rewrite filter_cons, decide_True by done|].
  by rewrite decide_False.
Qed.

Lemma expired_head (now : Z) (q : list EnqueuedMessage) :
  packet <$> head (remove_expired_items q now) = packet <$> head (prune now q) /\
  prune now (tail (remove_expired_items q now)) = tail (prune now q).
Proof.
  induction q as [|e q IH]; [done|]. simpl. unfold prune in *. rewrite filter_cons. unfold valid in *.
  destruct (now <? expiration_ticks e) eqn:E; [by rewrite decide_True|]. by rewrite decide_False.
Qed.

Lemma run_matches (now : Z) (q q' : list EnqueuedMessage) (a : access) :
  matches now q q' -> (run q a now).1 = (run_eager q' a now).1 /\ matches now (run q a now).2 (run_eager q' a now).2.
Proof.
  intros Hm. unfold matches in *. pose proof (prune_mono now now q' ltac:(lia)) as Hpp. destruct a as [from m e| |]; simpl.
  - split; [done|]. pose proof (prune_expired now q) as Hx. unfold prune, add in *. by rewrite !filter_app, Hpp, Hx, Hm.
  - destruct (expired_head now q) as [Hh Ht]. unfold read. rewrite <- Hm.
    destruct (remove_expired_items q now) as [|e rest] eqn:E; simpl in *; (split; [done|]).
    + rewrite <- Ht. done.
    + rewrite Ht. rewrite <- Ht. by rewrite prune_mono.
  - split; [done|]. by rewrite prune_expired, Hpp.
Qed.

Lemma trace_matches (now : Z) (q q' : list EnqueuedMessage) (l : list (access * Z)) :
  clocked now l -> matches now q q' -> trace run q l = trace run_eager q' l.
Proof.
  revert now q q'. induction l as [|[a n] l IH]; intros now q q' Hc Hm; [done|]. simpl in *. destruct Hc as [Hn Hc].
  destruct (run_matches n q q' a (matches_later now n q q' Hn Hm)) as [Hr Hm2].
  destruct (run q a n) as [m q2], (run_eager q' a n) as [m' q2']. simpl in *. subst m'. f_equal. by eapply IH.
Qed.

(** the lazy message queue, which only drops expired messages from its
    front, delivers the same messages in the same order as a queue that drops
    every expired message at every access, for any sequence of accesses under
    a clock that does not run backwards.  In particular no expired message is
    ever delivered. *)
Theorem message_queue_lazy_eager (l : list (access * Z)) (now : Z) :
  clocked now l -> trace run MessageQueue.new l = trace run_eager MessageQueue.new l.
Proof. intros Hc. by apply (trace_matches now). Qed.

Definition note (n : Z) : Message := {| message_type := n; unique_id := 0; args := [] |}.

Lemma message_queue_witness :
  trace run MessageQueue.new [(Add 1 (note 1) 10, 0); (Add 2 (note 2) 5, 1); (Read, 6); (Read, 7)] =
  trace run_eager MessageQueue.new [(Add 1 (note 1) 10, 0); (Add 2 (note 2) 5, 1); (Read, 6); (Read, 7)].
Proof. apply (message_queue_lazy_eager _ 0). simpl. lia. Defined.
End Messaging.
