(* ===== verification/Scheduler.v ===== *)
(** * The scheduler and the futexes

    [kernel/src/task/scheduling/mod.rs], [kernel/src/task/switching.rs] and
    [kernel/src/sync/futex.rs]: one work queue shared by all cores, the task
    map, the per-core state and the list of tasks that wait on a futex.
    [switch] is cut at its accesses to shared state, so that the steps of
    several cores interleave; [switch_steps] puts the pieces together again.
    The calls that block a task, wake it, create it and end it are steps of
    the core that runs them. *)

From S2P Require Import Prelude Api Tasks.

Inductive WorkItem :=
| WTask (id : Z)
| WTasklet.

#[global] Instance WorkItem_eq_dec : EqDecision WorkItem.
Proof. solve_decision. Defined.

(** Where a core is inside [switch]. *)
Inductive phase :=
| Executing
| Drained
| Deciding (should_reenqueue : bool)
| Popped (should_reenqueue : bool) (id : Z)
| Leaving (should_reenqueue : bool) (switch_to_id : Z)
| Arrived.

Module CPUScheduler.
Record t := { current_task : Z; idle_task : Z; pending_reenqueue : Z; position : phase; current_ticks : Z }.

Definition NONE : Z := 0xFFFFFFFF.

Definition new (idle_task : Z) : t :=
  {| current_task := idle_task; idle_task := idle_task; pending_reenqueue := NONE; position := Executing;
     current_ticks := 0 |}.

Definition at_phase (self : t) (p : phase) : t :=
  {| current_task := current_task self; idle_task := idle_task self; pending_reenqueue := pending_reenqueue self;
     position := p; current_ticks := current_ticks self |}.
Definition with_pending (self : t) (p : Z) : t :=
  {| current_task := current_task self; idle_task := idle_task self; pending_reenqueue := p;
     position := position self; current_ticks := current_ticks self |}.
Definition set_current_task (self : t) (id : Z) : t :=
  {| current_task := id; idle_task := idle_task self; pending_reenqueue := pending_reenqueue self;
     position := position self; current_ticks := current_ticks self |}.

(** A time slice is two timer ticks. *)
Definition tick (self : t) : bool * t :=
  let with_ticks n := {| current_task := current_task self; idle_task := idle_task self;
    pending_reenqueue := pending_reenqueue self; position := position self; current_ticks := n |} in
  if 1 <=? current_ticks self then (true, with_ticks 0) else (false, with_ticks (u8 (current_ticks self + 1))).
End CPUScheduler.

Module Kernel.
Import CPUScheduler.

Record t := {
  tasks : gmap Z Task.t;
  work_queue : list WorkItem;
  cpus : list CPUScheduler.t;
  next_id : Z;
  watch_list : gmap Z (list Z)
}.

Definition with_tasks (s : t) (m : gmap Z Task.t) : t :=
  {| tasks := m; work_queue := work_queue s; cpus := cpus s; next_id := next_id s; watch_list := watch_list s |}.
Definition with_queue (s : t) (q : list WorkItem) : t :=
  {| tasks := tasks s; work_queue := q; cpus := cpus s; next_id := next_id s; watch_list := watch_list s |}.
Definition with_cpu (s : t) (c : nat) (cpu : CPUScheduler.t) : t :=
  {| tasks := tasks s; work_queue := work_queue s; cpus := <[c := cpu]> (cpus s); next_id := next_id s;
     watch_list := watch_list s |}.
Definition with_next (s : t) (n : Z) : t :=
  {| tasks := tasks s; work_queue := work_queue s; cpus := cpus s; next_id := n; watch_list := watch_list s |}.
Definition with_watch (s : t) (w : gmap Z (list Z)) : t :=
  {| tasks := tasks s; work_queue := work_queue s; cpus := cpus s; next_id := next_id s; watch_list := w |}.

Definition put_task (s : t) (id : Z) (task : Task.t) : t := with_tasks s (<[id := task]> (tasks s)).

Definition reenqueue_task (s : t) (id : Z) : t := with_queue s (work_queue s ++ [WTask id]).

(** *** [switch] *)

(** Swap [pending_reenqueue] with "none" and put the task on the queue. *)
Definition drain_pending (s : t) (c : nat) (cpu : CPUScheduler.t) (p : phase) : t :=
  let s' := with_cpu s c (at_phase (with_pending cpu NONE) p) in
  if pending_reenqueue cpu =? NONE then s' else reenqueue_task s' (pending_reenqueue cpu).

Definition resumable (s : t) (id : Z) : bool :=
  match tasks s !! id with Some task => Task.can_resume task | None => false end.

Definition switch_drain (s : t) (c : nat) : option t :=
  cpu ← cpus s !! c;
  match position cpu with
  | Executing => Some (drain_pending s c cpu Drained)
  | _ => None
  end.

Definition switch_check (s : t) (c : nat) : option t :=
  cpu ← cpus s !! c;
  match position cpu with
  | Drained =>
      let should_reenqueue := negb (current_task cpu =? idle_task cpu) && resumable s (current_task cpu) in
      Some (with_cpu s c (at_phase cpu (Deciding should_reenqueue)))
  | _ => None
  end.

(** Popping a tasklet is a panic. *)
Definition switch_pop (s : t) (c : nat) : option t :=
  cpu ← cpus s !! c;
  match position cpu, work_queue s with
  | Deciding b, WTask id :: rest => Some (with_queue (with_cpu s c (at_phase cpu (Popped b id))) rest)
  | Deciding b, [] => Some (with_cpu s c (at_phase cpu (Leaving b (idle_task cpu))))
  | _, _ => None
  end.

Definition switch_accept (s : t) (c : nat) : option t :=
  cpu ← cpus s !! c;
  match position cpu with
  | Popped b id => Some (with_cpu s c (at_phase cpu (if resumable s id then Leaving b id else Deciding b)))
  | _ => None
  end.

(** [switch_to] up to the jump into the next task; both tasks must still be in
    the map.  A task that is [Initialized], or a kernel task that runs for the
    first time ([first]), does not return into [switch]. *)
Definition switch_to (s : t) (c : nat) (cpu : CPUScheduler.t) (next : Z) (first : bool) : option t :=
  _ ← tasks s !! current_task cpu;
  task ← tasks s !! next;
  let cpu := set_current_task cpu next in
  match Task.state task with
  | Initialized => Some (put_task (with_cpu s c (at_phase cpu Executing)) next (Task.with_state task Running))
  | _ => Some (with_cpu s c (at_phase cpu (if first then Executing else Arrived)))
  end.

Definition switch_leave (s : t) (c : nat) (first : bool) : option t :=
  cpu ← cpus s !! c;
  match position cpu with
  | Leaving b next =>
      if current_task cpu =? next then Some (with_cpu s c (at_phase cpu Executing))
      else switch_to s c (if b then with_pending cpu (current_task cpu) else cpu) next first
  | _ => None
  end.

Definition switch_return (s : t) (c : nat) : option t :=
  cpu ← cpus s !! c;
  match position cpu with
  | Arrived => Some (drain_pending s c cpu Executing)
  | _ => None
  end.

(** The whole of [switch] on a core that is not disturbed. *)
Fixpoint pop_loop (fuel : nat) (s : t) (c : nat) : option t :=
  match fuel with
  | O => None
  | S fuel =>
      s ← switch_pop s c;
      cpu ← cpus s !! c;
      match position cpu with
      | Leaving _ _ => Some s
      | _ =>
          s ← switch_accept s c;
          cpu ← cpus s !! c;
          match position cpu with
          | Leaving _ _ => Some s
          | _ => pop_loop fuel s c
          end
      end
  end.
Definition switch_steps (s : t) (c : nat) (first : bool) : option t :=
  s ← switch_drain s c;
  s ← switch_check s c;
  s ← pop_loop (S (length (work_queue s))) s c;
  s ← switch_leave s c first;
  cpu ← cpus s !! c;
  match position cpu with Arrived => switch_return s c | _ => Some s end.

(** *** Calls of the running task *)

(** The task that core [c] is executing, outside of [switch]. *)
Definition running (s : t) (c : nat) : option Z :=
  cpu ← cpus s !! c;
  match position cpu with Executing => Some (current_task cpu) | _ => None end.

Definition sleep (s : t) (c : nat) (ms : Z) : option t :=
  id ← running s c; task ← tasks s !! id; task ← Task.sleep task ms; Some (put_task s id task).

Definition begin_file_mapping_request (s : t) (c : nat) : option t :=
  id ← running s c; task ← tasks s !! id; Some (put_task s id (Task.begin_file_mapping_request task)).

(** The task goes on after its file mapping request. *)
Definition finish_file_mapping_request (s : t) (c : nat) : option (option IoResult * t) :=
  id ← running s c; task ← tasks s !! id;
  let '(result, task) := Task.take_map_result task in Some (result, put_task s id task).

(** [futex_wait_inner] once the value was found unchanged. *)
Definition futex_wait_inner (s : t) (c : nat) (paddr : Z) (timeout : option Z) : option t :=
  id ← running s c;
  task ← tasks s !! id;
  let set := match watch_list s !! paddr with Some set => set ++ [id] | None => [id] end in
  Some (put_task (with_watch s (<[paddr := set]> (watch_list s))) id (Task.futex_wait task timeout)).

(** [if task.write().futex_wake() { reenqueue_task(wake_id) }] *)
Definition futex_wake_task (s : t) (id : Z) : t :=
  match tasks s !! id with
  | Some task =>
      let '(woken, task) := Task.futex_wake task in
      let s := put_task s id task in
      if woken then reenqueue_task s id else s
  | None => s
  end.

(** The [while] loop over the waiting tasks. *)
Fixpoint wake_loop (s : t) (to_wake : nat) (set : list Z) : t * list Z :=
  match to_wake, set with
  | S to_wake, wake_id :: set => wake_loop (futex_wake_task s wake_id) to_wake set
  | _, _ => (s, set)
  end.

Definition futex_wake_inner (s : t) (paddr : Z) (count : Z) : t :=
  if count =? 0 then s
  else match watch_list s !! paddr with
       | None => s
       | Some set =>
           let '(s, set) := wake_loop s (Z.to_nat count) set in
           with_watch s (if decide (set = []) then delete paddr (watch_list s) else <[paddr := set]> (watch_list s))
       end.

Definition resolve_file_mapping_request (s : t) (id : Z) (result : IoResult) : t :=
  match tasks s !! id with
  | Some task =>
      let '(resumed, task) := Task.resolve_file_mapping_request task result in
      let s := put_task s id task in
      if resumed then reenqueue_task s id else s
  | None => s
  end.

(** The body of the loop of [update_timeouts]. *)
Definition update_timeout (s : t) (id : Z) (ms : Z) : t :=
  match tasks s !! id with
  | Some task =>
      let '(resumed, task) := Task.update_timeout task ms in
      let s := put_task s id task in
      if resumed then reenqueue_task s id else s
  | None => s
  end.

Definition create_task (s : t) : t * Z :=
  let id := next_id s in (with_next (put_task s id Task.new) (u32 (id + 1)), id).

Definition create_kernel_task (s : t) : t * Z :=
  let '(s, id) := create_task s in
  (reenqueue_task (put_task s id (Task.with_state Task.new Running)) id, id).

(** The end of [exec_program]: the task starts. *)
Definition start_task (s : t) (id : Z) : option t :=
  task ← tasks s !! id; Some (reenqueue_task (put_task s id (Task.make_runnable task)) id).

Definition terminate_id (s : t) (id : Z) : t :=
  match tasks s !! id with
  | Some task => put_task s id (Task.terminate task)
  | None => s
  end.

(** The cleanup task takes a terminated task out of the map. *)
Definition take_task (s : t) (id : Z) : t := with_tasks s (delete id (tasks s)).
End Kernel.
