(* ===== verification/SchedulerSpec.v ===== *)
(** * Every task has one place

    The steps of all cores interleave freely.  As long as a task is only woken
    after its core has switched away from it, every task that can run is in
    exactly one place: on the work queue, current on one core, about to become
    current, or waiting to be put back on the queue.  Without that condition a
    task can end up running on two cores. *)

From S2P Require Import Prelude Api Tasks Scheduler.
Import CPUScheduler Kernel.

(** ** Steps *)

(** [guard s id] must hold for a task to be woken.  Task ids are not reused
    before the counter reaches the value that stands for no task, and a task
    is started once: [exec_program] tests that it is uninitialized, and the
    steps assume that this still holds when it has loaded the program. *)
Inductive step (guard : Kernel.t -> Z -> Prop) (s : Kernel.t) : Kernel.t -> Prop :=
| st_drain c s' : switch_drain s c = Some s' -> step guard s s'
| st_check c s' : switch_check s c = Some s' -> step guard s s'
| st_pop c s' : switch_pop s c = Some s' -> step guard s s'
| st_accept c s' : switch_accept s c = Some s' -> step guard s s'
| st_leave c first s' : switch_leave s c first = Some s' -> step guard s s'
| st_return c s' : switch_return s c = Some s' -> step guard s s'
| st_sleep c ms s' : sleep s c ms = Some s' -> step guard s s'
| st_map c s' : begin_file_mapping_request s c = Some s' -> step guard s s'
| st_map_result c result s' : finish_file_mapping_request s c = Some (result, s') -> step guard s s'
| st_futex_wait c paddr timeout s' : futex_wait_inner s c paddr timeout = Some s' -> step guard s s'
| st_futex_wake paddr count :
    (forall set id, watch_list s !! paddr = Some set -> id ∈ take (Z.to_nat count) set -> guard s id) ->
    step guard s (futex_wake_inner s paddr count)
| st_resolve id result : guard s id -> step guard s (resolve_file_mapping_request s id result)
| st_timeout id ms : guard s id -> step guard s (update_timeout s id ms)
| st_create : next_id s < NONE -> step guard s (create_task s).1
| st_create_kernel : next_id s < NONE -> step guard s (create_kernel_task s).1
| st_start id task s' : tasks s !! id = Some task -> Task.state task = Uninitialized -> start_task s id = Some s' -> step guard s s'
| st_terminate id : step guard s (terminate_id s id)
| st_take id : step guard s (take_task s id).

Inductive reachable (guard : Kernel.t -> Z -> Prop) (s0 : Kernel.t) : Kernel.t -> Prop :=
| reach_init : reachable guard s0 s0
| reach_step s s' : reachable guard s0 s -> step guard s s' -> reachable guard s0 s'.

(** The boot state: every core runs its idle task.  Task 0 is the idle task of
    the first core; those of the others are never marked as running. *)
Definition boot (idle : list Z) (next : Z) : Kernel.t :=
  {| tasks := list_to_map ((fun id => (id, if id =? 0 then Task.with_state Task.new Running else Task.new)) <$> idle);
     work_queue := []; cpus := CPUScheduler.new <$> idle; next_id := next; watch_list := ∅ |}.

(** ** Places *)

Definition pending_of (cpu : CPUScheduler.t) : option Z :=
  if pending_reenqueue cpu =? NONE then None else Some (pending_reenqueue cpu).
Definition chosen_of (cpu : CPUScheduler.t) : option Z :=
  match position cpu with Popped _ id | Leaving _ id => Some id | _ => None end.

Definition is_id (o : option Z) (id : Z) : nat := if decide (o = Some id) then 1 else 0.

Lemma is_id_eq (id : Z) : is_id (Some id) id = 1%nat.
Proof. unfold is_id. by rewrite decide_True. Qed.
Lemma is_id_ne (i id : Z) : i <> id -> is_id (Some i) id = 0%nat.
Proof. intros. unfold is_id. rewrite decide_False; congruence. Qed.
Lemma is_id_none (id : Z) : is_id None id = 0%nat.
Proof. done. Qed.

Definition queued (q : list WorkItem) (id : Z) : nat := length (filter (fun w => w = WTask id) q).
Definition cpu_ready (id : Z) (cpu : CPUScheduler.t) : nat :=
  is_id (pending_of cpu) id + is_id (chosen_of cpu) id.
Definition cpu_current (id : Z) (cpu : CPUScheduler.t) : nat := is_id (Some (current_task cpu)) id.

Definition ready (s : Kernel.t) (id : Z) : nat := queued (work_queue s) id + sum_list_with (cpu_ready id) (cpus s).
Definition current (s : Kernel.t) (id : Z) : nat := sum_list_with (cpu_current id) (cpus s).
Definition places (s : Kernel.t) (id : Z) : nat := ready s id + current s id.

Definition idle (s : Kernel.t) (id : Z) : Prop := id ∈ (idle_task <$> cpus s).

(** No core has the task as its current one. *)
Definition switched_out (s : Kernel.t) (id : Z) : Prop := forall cpu, cpu ∈ cpus s -> current_task cpu <> id.

Lemma sum_insert {A} (f : A -> nat) (l : list A) (i : nat) (x y : A) :
  l !! i = Some x -> (sum_list_with f (<[i := y]> l) + f x = sum_list_with f l + f y)%nat.
Proof.
  revert i. induction l as [|z l IH]; intros [|i] Hi; simplify_eq/=; [lia|]. specialize (IH i Hi). lia.
Qed.

Lemma sum_elem {A} (f : A -> nat) (l : list A) (x : A) : x ∈ l -> (f x <= sum_list_with f l)%nat.
Proof. induction 1; simpl; lia. Qed.

Lemma sum_zero {A} (f : A -> nat) (l : list A) : (forall x, x ∈ l -> f x = 0%nat) -> sum_list_with f l = 0%nat.
Proof.
  induction l as [|x l IH]; intros Hl; [done|]. simpl. rewrite (Hl x) by set_solver. rewrite IH; [done|]. intros. apply Hl. set_solver.
Qed.

Lemma queued_snoc q (i id : Z) : queued (q ++ [WTask i]) id = (queued q id + is_id (Some i) id)%nat.
Proof.
  unfold queued, is_id. rewrite filter_app, length_app. f_equal. rewrite filter_cons, filter_nil.
  repeat case_decide; simplify_eq; done.
Qed.

Lemma queued_cons q (i id : Z) : queued (WTask i :: q) id = (is_id (Some i) id + queued q id)%nat.
Proof. unfold queued, is_id. rewrite filter_cons. repeat case_decide; simplify_eq; done. Qed.

Section Places.
Implicit Types (s : Kernel.t) (id : Z) (c : nat) (cpu : CPUScheduler.t).

Lemma places_cpu s c cpu cpu' id :
  cpus s !! c = Some cpu ->
  (ready (with_cpu s c cpu') id + cpu_ready id cpu = ready s id + cpu_ready id cpu')%nat /\
  (current (with_cpu s c cpu') id + cpu_current id cpu = current s id + cpu_current id cpu')%nat.
Proof.
  intros Hc. unfold ready, current. simpl. pose proof (sum_insert (cpu_ready id) _ c cpu cpu' Hc).
  pose proof (sum_insert (cpu_current id) _ c cpu cpu' Hc). lia.
Qed.

Lemma ready_enqueue s (i id : Z) : ready (reenqueue_task s i) id = (ready s id + is_id (Some i) id)%nat.
Proof. unfold ready. simpl. rewrite queued_snoc. lia. Qed.

Lemma idle_cpu s c cpu cpu' id :
  cpus s !! c = Some cpu -> idle_task cpu' = idle_task cpu -> idle (with_cpu s c cpu') id <-> idle s id.
Proof.
  intros Hc Hi. unfold idle. simpl. rewrite list_fmap_insert, Hi, list_insert_id; [done|]. by rewrite list_lookup_fmap, Hc.
Qed.
End Places.

(** ** The invariant *)

Definition blocked (r : RunState) : Prop := match r with Blocked _ _ => True | _ => False end.

(** What a core remembers about its current task while it looks for the next. *)
Definition decided (s : Kernel.t) (cpu : CPUScheduler.t) (b : bool) : Prop :=
  pending_reenqueue cpu = NONE /\
  (~ idle s (current_task cpu) ->
   if b then forall task, tasks s !! current_task cpu = Some task -> ~ blocked (Task.state task)
   else resumable s (current_task cpu) = false).

Definition cpu_ok (s : Kernel.t) (cpu : CPUScheduler.t) : Prop :=
  match position cpu with
  | Drained => pending_reenqueue cpu = NONE
  | Deciding b | Popped b _ | Leaving b _ => decided s cpu b
  | Executing | Arrived => True
  end.

(** The places a task may have in each run state: [r] counts the places where
    it waits to run, [c] the cores it is current on. *)
Definition place_ok (fresh : Prop) (task : option Task.t) (r c : nat) : Prop :=
  (r + c <= 1)%nat /\ (fresh -> task = None /\ (r + c = 0)%nat) /\
  match Task.state <$> task with
  | Some Uninitialized => (r + c = 0)%nat
  | Some (Initialized | Running) => (r + c = 1)%nat
  | Some (Blocked _ _) => r = 0%nat
  | Some Terminated | None => True
  end.

Definition fresh (s : Kernel.t) (id : Z) : Prop := next_id s <= id.
Definition id_ok (s : Kernel.t) (id : Z) : Prop := place_ok (fresh s id) (tasks s !! id) (ready s id) (current s id).

Record inv (s : Kernel.t) : Prop := {
  inv_ids id : ~ idle s id -> id_ok s id;
  inv_cpus cpu : cpu ∈ cpus s -> cpu_ok s cpu;
  inv_next : 0 <= next_id s <= NONE
}.

Section Invariant.
Implicit Types (s : Kernel.t) (id : Z) (c : nat) (cpu : CPUScheduler.t).

Lemma cpu_ok_same s s' cpu :
  (forall id, idle s' id <-> idle s id) -> tasks s' !! current_task cpu = tasks s !! current_task cpu ->
  cpu_ok s cpu -> cpu_ok s' cpu.
Proof.
  intros Hi Ht. unfold cpu_ok, decided, resumable. rewrite Ht.
  destruct (position cpu); try done; intros [? H]; (split; [done|]; intros Hn; apply H; by rewrite <- Hi).
Qed.

Lemma current_elem s cpu : cpu ∈ cpus s -> (1 <= current s (current_task cpu))%nat.
Proof.
  intros Hc. pose proof (sum_elem (cpu_current (current_task cpu)) _ _ Hc) as H.
  unfold cpu_current at 1, is_id in H. by rewrite decide_True in H.
Qed.

Lemma current_zero s id : switched_out s id -> current s id = 0%nat.
Proof. intros H. apply sum_zero. intros cpu Hc. unfold cpu_current, is_id. rewrite decide_False; [done|]. intros [= He]. by apply (H cpu). Qed.

(** A core changes its own state and the queue. *)
Lemma inv_move s c cpu cpu' q :
  inv s -> cpus s !! c = Some cpu -> idle_task cpu' = idle_task cpu -> cpu_ok s cpu' ->
  (forall id r n, ~ idle s id ->
     (r + queued (work_queue s) id + cpu_ready id cpu = ready s id + queued q id + cpu_ready id cpu')%nat ->
     (n + cpu_current id cpu = current s id + cpu_current id cpu')%nat ->
     id_ok s id -> place_ok (fresh s id) (tasks s !! id) r n) ->
  inv (with_queue (with_cpu s c cpu') q).
Proof.
  intros Hs Hc Hidle Hok Hids. pose proof (fun id => idle_cpu s c cpu cpu' id Hc Hidle) as Hi.
  split; [| |apply Hs].
  - intros id Hn. assert (~ idle s id) as Hn' by (by rewrite <- (Hi id)).
    destruct (places_cpu s c cpu cpu' id Hc) as [Hr Hcur].
    apply Hids; [done| |exact Hcur|by apply Hs]. unfold ready in Hr |- *. simpl in Hr |- *. lia.
  - intros x Hx. apply (cpu_ok_same s); [exact Hi|done|]. simpl in Hx.
    apply list_elem_of_lookup in Hx as [j Hj]. destruct (decide (j = c)) as [->|Hne].
    + rewrite list_lookup_insert_eq in Hj by (by eapply lookup_lt_Some). by simplify_eq.
    + rewrite list_lookup_insert_ne in Hj by done. apply Hs. by eapply list_elem_of_lookup_2.
Qed.

(** A task changes its run state, and may be put on the queue. *)
Lemma inv_task s id (m : gmap Z Task.t) (task : option Task.t) q :
  inv s -> (forall i, i <> id -> m !! i = tasks s !! i) -> m !! id = task ->
  (forall i, i <> id -> queued q i = queued (work_queue s) i) ->
  (~ idle s id -> forall r, (r + queued (work_queue s) id = ready s id + queued q id)%nat ->
     place_ok (fresh s id) task r (current s id) /\
     (forall cpu, cpu ∈ cpus s -> current_task cpu = id -> cpu_ok (with_tasks s m) cpu)) ->
  inv (with_queue (with_tasks s m) q).
Proof.
  intros Hs Hm Hid Hq Hnew. split; [| |apply Hs].
  - intros i Hn. change (~ idle s i) in Hn. destruct (decide (i = id)) as [->|Hne].
    + unfold id_ok. simpl. rewrite Hid. apply Hnew; [done|]. unfold ready. simpl. lia.
    + unfold id_ok, ready. simpl. rewrite Hm, Hq by done. by apply (inv_ids s Hs).
  - intros cpu Hc. simpl in Hc. apply (cpu_ok_same (with_tasks s m)); [done..|].
    destruct (decide (current_task cpu = id)) as [He|He].
    + destruct (decide (id ∈ (idle_task <$> cpus s))) as [Hi|Hi]; [|by apply (Hnew Hi (ready (with_queue s q) id)); [unfold ready; simpl; lia|..]].
      pose proof (inv_cpus s Hs cpu Hc) as H. unfold cpu_ok, decided in *. rewrite He in *.
      destruct (position cpu); try done; destruct H as [? _]; (split; [done|]; intros Hn; by destruct (Hn Hi)).
    + apply (cpu_ok_same s); [done|simpl; by apply Hm|by apply Hs].
Qed.

Lemma place_ok_eq (P : Prop) task (r n r' n' : nat) : place_ok P task r n -> r' = r -> n' = n -> place_ok P task r' n'.
Proof. by intros ? -> ->. Qed.

Ltac count_places :=
  unfold cpu_ready, cpu_current, chosen_of, pending_of, is_id in *; simpl in *;
  repeat case_decide; simplify_eq; try lia.

Lemma drain_inv s c cpu (p : phase) :
  inv s -> cpus s !! c = Some cpu -> chosen_of cpu = None -> p = Drained \/ p = Executing -> inv (drain_pending s c cpu p).
Proof.
  intros Hs Hc Hnone Hp. set (cpu' := at_phase (with_pending cpu NONE) p).
  assert (cpu_ok s cpu') as Hok by (by destruct Hp as [-> | ->]).
  assert (forall id, cpu_ready id cpu' = 0%nat) as Hr0 by (by intros; destruct Hp as [-> | ->]).
  unfold drain_pending. fold cpu'. destruct (pending_reenqueue cpu =? NONE) eqn:E.
  - apply (inv_move s c cpu cpu' (work_queue s)); [done..|]. intros id r n Hn Hr Hcur Hid.
    rewrite Hr0 in Hr. unfold cpu_ready, pending_of in Hr. rewrite Hnone, E in Hr. apply (place_ok_eq _ _ _ _ _ _ Hid); count_places.
  - apply (inv_move s c cpu cpu' (work_queue s ++ [WTask (pending_reenqueue cpu)])); [done..|]. intros id r n Hn Hr Hcur Hid.
    rewrite Hr0, queued_snoc in Hr. unfold cpu_ready, pending_of in Hr. rewrite Hnone, E in Hr. apply (place_ok_eq _ _ _ _ _ _ Hid); count_places.
Qed.

Lemma check_inv s c s' : inv s -> switch_check s c = Some s' -> inv s'.
Proof.
  intros Hs H. unfold switch_check in H. apply bind_Some in H as (cpu & Hc & H). destruct (position cpu) eqn:Ep; try done. simplify_eq.
  pose proof (inv_cpus s Hs cpu ltac:(by eapply list_elem_of_lookup_2)) as Hok. unfold cpu_ok in Hok. rewrite Ep in Hok.
  apply (inv_move s c cpu _ (work_queue s)); [done..| |].
  - unfold cpu_ok. simpl. split; [done|]. simpl. intros Hn. rewrite (proj2 (Z.eqb_neq _ _)).
    + simpl. unfold resumable. destruct (tasks s !! current_task cpu) as [task|]; [|done].
      destruct (Task.can_resume task) eqn:Er; [|done]. intros ? [= <-]. unfold Task.can_resume in Er. destruct (Task.state task); simpl; intros []; done.
    + intros He. apply Hn. unfold idle. rewrite He. apply list_elem_of_fmap_2. by eapply list_elem_of_lookup_2.
  - intros id r n Hn Hr Hcur Hid. apply (place_ok_eq _ _ _ _ _ _ Hid); count_places; rewrite Ep in *; count_places.
Qed.

Lemma cpu_decided s c cpu b :
  inv s -> cpus s !! c = Some cpu ->
  position cpu = Deciding b \/ (exists id, position cpu = Popped b id \/ position cpu = Leaving b id) -> decided s cpu b.
Proof.
  intros Hs Hc Hp. pose proof (inv_cpus s Hs cpu ltac:(by eapply list_elem_of_lookup_2)) as Hok. unfold cpu_ok in Hok.
  by destruct Hp as [Hp|(? & [Hp|Hp])]; rewrite Hp in Hok.
Qed.

Lemma pop_inv s c s' : inv s -> switch_pop s c = Some s' -> inv s'.
Proof.
  intros Hs H. unfold switch_pop in H. apply bind_Some in H as (cpu & Hc & H). destruct (position cpu) as [| |b|b ?|b ?|] eqn:Ep; try done.
  pose proof (cpu_decided s c cpu b Hs Hc ltac:(by left)) as Hd.
  destruct (work_queue s) as [|[i|] q] eqn:Eq; simplify_eq.
  - apply (inv_move s c cpu _ (work_queue s)); [done..|]. intros id r n Hn Hr Hcur Hid.
    assert (Some (idle_task cpu) <> Some id).
    { intros [= <-]. apply Hn. apply list_elem_of_fmap_2. by eapply list_elem_of_lookup_2. }
    apply (place_ok_eq _ _ _ _ _ _ Hid); unfold cpu_ready, chosen_of in Hr; rewrite Ep in Hr; count_places.
  - apply (inv_move s c cpu _ q); [done..|]. intros id r n Hn Hr Hcur Hid. rewrite Eq, queued_cons in Hr.
    apply (place_ok_eq _ _ _ _ _ _ Hid); unfold cpu_ready, chosen_of in Hr; rewrite Ep in Hr; count_places.
Qed.

Lemma accept_inv s c s' : inv s -> switch_accept s c = Some s' -> inv s'.
Proof.
  intros Hs H. unfold switch_accept in H. apply bind_Some in H as (cpu & Hc & H).
  destruct (position cpu) as [| |b|b i|b ?|] eqn:Ep; try done. simplify_eq.
  pose proof (cpu_decided s c cpu b Hs Hc ltac:(eauto)) as Hd.
  apply (inv_move s c cpu _ (work_queue s)); [done|done|done|by unfold cpu_ok; simpl; destruct (resumable s i)|].
  intros id r n Hn Hr Hcur Hid. unfold cpu_ready, chosen_of in Hr. rewrite Ep in Hr. simpl in Hr.
  destruct (resumable s i) eqn:Er; [apply (place_ok_eq _ _ _ _ _ _ Hid); count_places|].
  destruct (decide (i = id)) as [->|]; [|apply (place_ok_eq _ _ _ _ _ _ Hid); count_places].
  assert (r < ready s id)%nat as Hlt by count_places. assert (n = current s id) as -> by count_places.
  unfold id_ok, place_ok, resumable, Task.can_resume in *. destruct (tasks s !! id) as [task|]; simpl in *; [|intuition lia].
  destruct (Task.state task); simpl in *; intuition lia.
Qed.

Lemma chosen_ready s c cpu id : cpus s !! c = Some cpu -> chosen_of cpu = Some id -> (1 <= ready s id)%nat.
Proof.
  intros Hc Hch. pose proof (sum_elem (cpu_ready id) _ cpu ltac:(by eapply list_elem_of_lookup_2)) as H.
  unfold cpu_ready at 1, is_id in H. rewrite Hch, (decide_True (P := Some id = Some id)) in H by done. unfold ready. lia.
Qed.

Lemma current_lookup s c cpu id : cpus s !! c = Some cpu -> current_task cpu = id -> (1 <= current s id)%nat.
Proof. intros Hc <-. apply current_elem. by eapply list_elem_of_lookup_2. Qed.

(** The core moves to the task it has chosen. *)
Lemma leave_move s c cpu b next (p : phase) :
  inv s -> cpus s !! c = Some cpu -> position cpu = Leaving b next -> current_task cpu <> next -> p = Executing \/ p = Arrived ->
  inv (with_cpu s c (at_phase (set_current_task (if b then with_pending cpu (current_task cpu) else cpu) next) p)).
Proof.
  intros Hs Hc Ep Hne Hp. destruct (cpu_decided s c cpu b Hs Hc ltac:(eauto)) as [Hpend Hd].
  assert (chosen_of cpu = Some next) as Hch by (unfold chosen_of; by rewrite Ep).
  pose proof (chosen_ready s c cpu next Hc Hch) as Hready. pose proof (current_lookup s c cpu _ Hc eq_refl) as Hcurrent.
  set (cpu' := at_phase _ p). apply (inv_move s c cpu cpu' (work_queue s)); [done|done|by destruct b|by destruct Hp as [-> | ->]|].
  assert (chosen_of cpu' = None /\ current_task cpu' = next) as [Hch' Hcur'] by (by destruct Hp as [-> | ->]).
  intros id r n Hn Hr Hcur Hid. unfold cpu_ready, cpu_current in Hr, Hcur. rewrite Hch, Hch', ?Hcur' in *.
  unfold pending_of in Hr at 1. rewrite Hpend in Hr. simpl in Hr.
  assert (pending_of cpu' = if b then (if current_task cpu =? NONE then None else Some (current_task cpu)) else None) as Hpe
    by (destruct b; unfold pending_of; simpl; by rewrite ?Hpend).
  rewrite Hpe in Hr. unfold id_ok, place_ok in Hid |- *. unfold fresh in *. pose proof (inv_next s Hs) as Hnx.
  rewrite !is_id_none in Hr. destruct (decide (id = next)) as [->|Hnext].
  - rewrite is_id_eq, is_id_ne in Hcur by done. rewrite is_id_eq in Hr.
    replace (is_id _ next) with 0%nat in Hr by (destruct b; [destruct (_ =? _); [done|by rewrite is_id_ne]|done]).
    destruct (Task.state <$> tasks s !! next) as [[]|]; intuition lia.
  - rewrite (is_id_ne next id) in Hr, Hcur by done. destruct (decide (current_task cpu = id)) as [He|He].
    + rewrite He, is_id_eq in *. rewrite (proj2 (Z.eqb_neq id NONE)) in Hr by (intros ->; intuition lia). specialize (Hd Hn).
      unfold resumable, Task.can_resume in Hd. replace (is_id _ id) with (Nat.b2n b) in Hr by (destruct b; [by rewrite is_id_eq|done]).
      destruct (tasks s !! id) as [task|]; simpl in *; [|destruct b; simpl in Hr; intuition lia].
      destruct b; simpl in Hr; [specialize (Hd task eq_refl)|];
        (destruct (Task.state task); simpl in *; intuition (done || lia)).
    + replace (is_id (if b then _ else _) id) with 0%nat in Hr by (destruct b; [destruct (_ =? _); [done|by rewrite is_id_ne]|done]).
      rewrite is_id_ne in Hcur by done. assert (r = ready s id) as -> by lia. assert (n = current s id) as -> by lia. done.
Qed.

Lemma cpu_ok_state s id task task' cpu :
  tasks s !! id = Some task -> Task.can_resume task = true -> ~ blocked (Task.state task') -> current_task cpu = id ->
  cpu_ok s cpu -> cpu_ok (put_task s id task') cpu.
Proof.
  intros Ht Hres Hb Hc. unfold cpu_ok, decided, resumable. simpl. rewrite Hc, lookup_insert_eq, Ht, Hres.
  destruct (position cpu) as [| |b|b ?|b ?|]; try done; intros [? H]; (split; [done|]; intros Hn; specialize (H Hn); destruct b; [congruence|done]).
Qed.

Lemma inv_put s id task :
  inv s ->
  (~ idle s id -> place_ok (fresh s id) (Some task) (ready s id) (current s id) /\
     (forall cpu, cpu ∈ cpus s -> current_task cpu = id -> cpu_ok (put_task s id task) cpu)) ->
  inv (put_task s id task).
Proof.
  intros Hs Hnew. change (inv (with_queue (with_tasks s (<[id := task]> (tasks s))) (work_queue s))).
  apply (inv_task s id _ (Some task)); [done| |apply lookup_insert_eq|done|].
  - intros i Hi. by rewrite lookup_insert_ne.
  - intros Hn r Hr. assert (r = ready s id) as -> by lia. by apply Hnew.
Qed.

Lemma inv_put_enqueue s id task :
  inv s ->
  (~ idle s id -> place_ok (fresh s id) (Some task) (S (ready s id)) (current s id) /\
     (forall cpu, cpu ∈ cpus s -> current_task cpu = id -> cpu_ok (put_task s id task) cpu)) ->
  inv (reenqueue_task (put_task s id task) id).
Proof.
  intros Hs Hnew.
  apply (inv_task s id (<[id := task]> (tasks s)) (Some task) (work_queue s ++ [WTask id])); [done| |apply lookup_insert_eq| |].
  - intros i Hi. by rewrite lookup_insert_ne.
  - intros i Hi. rewrite queued_snoc, is_id_ne by done. lia.
  - intros Hn r Hr. rewrite queued_snoc, is_id_eq in Hr. assert (r = S (ready s id)) as -> by lia. by apply Hnew.
Qed.

Lemma leave_inv s c first s' : inv s -> switch_leave s c first = Some s' -> inv s'.
Proof.
  intros Hs H. unfold switch_leave in H. apply bind_Some in H as (cpu & Hc & H).
  destruct (position cpu) as [| |b|b ?|b next|] eqn:Ep; try done.
  destruct (current_task cpu =? next) eqn:E; bool_facts; simplify_eq.
  - assert (chosen_of cpu = Some (current_task cpu)) as Hch by (unfold chosen_of; by rewrite Ep).
    apply (inv_move s c cpu _ (work_queue s)); [done..|]. intros id r n Hn Hr Hcur Hid.
    destruct (decide (current_task cpu = id)) as [He|He].
    + rewrite He in Hch. pose proof (chosen_ready s c cpu id Hc Hch). pose proof (current_lookup s c cpu id Hc He).
      destruct Hid. lia.
    + apply (place_ok_eq _ _ _ _ _ _ Hid); unfold cpu_ready, cpu_current in *; [|simpl in *; lia].
      rewrite Hch, is_id_ne in Hr by done. change (pending_of (at_phase cpu Executing)) with (pending_of cpu) in Hr.
      change (chosen_of (at_phase cpu Executing)) with (@None Z) in Hr. rewrite is_id_none in Hr. lia.
  - unfold switch_to in H. apply bind_Some in H as (_ & _ & H). apply bind_Some in H as (task & Ht & H). destruct (Task.state task) eqn:Est; simplify_eq;
      try (apply leave_move; [done..|destruct first; auto]).
    set (s1 := with_cpu _ _ _). assert (inv s1) as Hs1 by (apply leave_move; auto).
    apply inv_put; [done|]. intros Hn. pose proof (inv_ids s1 Hs1 next Hn) as Hid. split.
    + unfold id_ok, place_ok in *. change (tasks s1) with (tasks s) in Hid. rewrite Ht in Hid. simpl in Hid. rewrite Est in Hid.
      destruct Hid as (? & Hf & ?). split; [done|]. split; [intros HF; by destruct (Hf HF)|done].
    + intros x Hx Hxc. apply (cpu_ok_state s1 next task); [done|unfold Task.can_resume; by rewrite Est|by intros []|done|by apply Hs1].
Qed.

(** *** Blocking and waking *)

Lemma running_spec s c id :
  running s c = Some id -> exists cpu, cpus s !! c = Some cpu /\ position cpu = Executing /\ current_task cpu = id.
Proof.
  intros H. unfold running in H. apply bind_Some in H as (cpu & Hc & H). exists cpu. by destruct (position cpu); simplify_eq.
Qed.

(** The cores of a task that is current on a core that executes it. *)
Lemma running_cpu_ok s c id task cpu :
  inv s -> ~ idle s id -> running s c = Some id -> cpu ∈ cpus s -> current_task cpu = id -> cpu_ok (put_task s id task) cpu.
Proof.
  intros Hs Hn Hr Hcpu Hid. apply running_spec in Hr as (cpu0 & Hc0 & Hp0 & Hid0).
  destruct (inv_ids s Hs id Hn) as (Hle & _). apply list_elem_of_lookup in Hcpu as [j Hj].
  destruct (decide (j = c)) as [->|Hne]; [simplify_eq; unfold cpu_ok; by rewrite Hp0|].
  destruct (places_cpu s c cpu0 (set_current_task cpu0 (id + 1)) id Hc0) as [_ Hcur].
  unfold cpu_current in Hcur. rewrite Hid0, is_id_eq in Hcur. simpl in Hcur. rewrite is_id_ne in Hcur by lia.
  pose proof (current_lookup (with_cpu s c (set_current_task cpu0 (id + 1))) j cpu id) as H. simpl in H.
  rewrite list_lookup_insert_ne in H by done. specialize (H Hj Hid). lia.
Qed.

(** The running task changes its state: it may block, but it stays current. *)
Lemma inv_block s c id task task' :
  inv s -> running s c = Some id -> tasks s !! id = Some task ->
  (blocked (Task.state task') \/ Task.state task' = Task.state task) -> inv (put_task s id task').
Proof.
  intros Hs Hr Ht Hst. apply inv_put; [done|]. intros Hn.
  split; [|intros cpu Hcpu Hid; by apply (running_cpu_ok s c)].
  destruct (running_spec s c id Hr) as (cpu & Hc & Hp & Hid). pose proof (current_lookup s c cpu id Hc Hid).
  destruct (inv_ids s Hs id Hn) as (? & Hf & Hst0). rewrite Ht in Hf, Hst0. split; [done|]. split; [intros HF; by destruct (Hf HF)|].
  simpl in *. destruct Hst as [Hb| ->]; [|done]. destruct (Task.state task'); simpl in Hb; try done. lia.
Qed.

(** A blocked task that no core still has as its current one is woken. *)
Lemma inv_wake s id task task' :
  inv s -> switched_out s id -> tasks s !! id = Some task -> blocked (Task.state task) -> Task.state task' = Running ->
  inv (reenqueue_task (put_task s id task') id).
Proof.
  intros Hs Hout Ht Hb Hst. apply inv_put_enqueue; [done|]. intros Hn.
  split; [|intros cpu Hcpu Hid; by destruct (Hout cpu Hcpu)].
  destruct (inv_ids s Hs id Hn) as (? & Hf & Hst0). rewrite Ht in Hf, Hst0. simpl in *. rewrite (current_zero s id Hout) in *.
  destruct (Task.state task); simpl in Hb; try done. split; [lia|]. split; [intros HF; by destruct (Hf HF)|]. simpl. rewrite Hst. lia.
Qed.

(** A task changes without changing its state, or a blocked one stays blocked. *)
Lemma inv_same s id task task' :
  inv s -> tasks s !! id = Some task ->
  (Task.state task' = Task.state task \/ (blocked (Task.state task) /\ blocked (Task.state task'))) -> inv (put_task s id task').
Proof.
  intros Hs Ht Hst. apply inv_put; [done|]. intros Hn. split.
  - destruct (inv_ids s Hs id Hn) as (? & Hf & Hst0). rewrite Ht in Hf, Hst0. split; [done|]. split; [intros HF; by destruct (Hf HF)|].
    simpl in *. destruct Hst as [-> |[H1 H2]]; [done|]. by destruct (Task.state task), (Task.state task').
  - intros cpu Hcpu Hid. pose proof (inv_cpus s Hs cpu Hcpu) as Hok. unfold cpu_ok, decided, resumable in *. simpl.
    rewrite Hid, lookup_insert_eq, Ht in *.
    assert (Task.can_resume task' = Task.can_resume task /\ (blocked (Task.state task') <-> blocked (Task.state task))) as [Hres Hbl].
    { unfold Task.can_resume. destruct Hst as [-> |[H1 H2]]; [done|]. by destruct (Task.state task), (Task.state task'). }
    rewrite Hres. destruct (position cpu) as [| |b|b ?|b ?|]; try done; destruct Hok as [? Hok]; (split; [done|]; intros Hni; specialize (Hok Hni));
      (destruct b; [intros ? [= <-]; rewrite Hbl; by apply Hok|done]).
Qed.

Lemma inv_watch s (w : gmap Z (list Z)) : inv s -> inv (with_watch s w).
Proof. intros Hs. split; [exact (inv_ids s Hs)|intros cpu Hc; apply (cpu_ok_same s); [done..|by apply Hs]|apply Hs]. Qed.

Lemma sleep_inv s c (ms : Z) s' : inv s -> Kernel.sleep s c ms = Some s' -> inv s'.
Proof.
  intros Hs H. unfold Kernel.sleep in H. apply bind_Some in H as (id & Hr & H). apply bind_Some in H as (task & Ht & H).
  apply bind_Some in H as (task' & Ht' & H). simplify_eq. apply (inv_block s c id task); [done..|].
  unfold Task.sleep in Ht'. destruct (Task.state task); simplify_eq. by left.
Qed.

Lemma mapping_inv s c s' : inv s -> Kernel.begin_file_mapping_request s c = Some s' -> inv s'.
Proof.
  intros Hs H. unfold Kernel.begin_file_mapping_request in H. apply bind_Some in H as (id & Hr & H).
  apply bind_Some in H as (task & Ht & H). simplify_eq. apply (inv_block s c id task); [done..|].
  unfold Task.begin_file_mapping_request. destruct (Task.state task) eqn:E; auto. destruct (Task.last_map_result task); auto. by left.
Qed.

Lemma map_result_inv s c result s' : inv s -> finish_file_mapping_request s c = Some (result, s') -> inv s'.
Proof.
  intros Hs H. unfold finish_file_mapping_request in H. apply bind_Some in H as (id & Hr & H).
  apply bind_Some in H as (task & Ht & H). simplify_eq/=. apply (inv_block s c id task); [done..|by right].
Qed.

Lemma futex_wait_inv s c (paddr : Z) timeout s' : inv s -> futex_wait_inner s c paddr timeout = Some s' -> inv s'.
Proof.
  intros Hs H. unfold futex_wait_inner in H. apply bind_Some in H as (id & Hr & H).
  apply bind_Some in H as (task & Ht & H). simplify_eq. apply (inv_block _ c id task); [by apply inv_watch|done|done|by left].
Qed.

(** The three ways to wake a task have one form. *)
Lemma wake_inv s id task (woken : bool) task' :
  inv s -> switched_out s id -> tasks s !! id = Some task ->
  (if woken then blocked (Task.state task) /\ Task.state task' = Running
   else Task.state task' = Task.state task \/ (blocked (Task.state task) /\ blocked (Task.state task'))) ->
  inv (if woken then reenqueue_task (put_task s id task') id else put_task s id task').
Proof. intros Hs Hout Ht Hw. destruct woken; [destruct Hw; by apply (inv_wake s id task)|by apply (inv_same s id task)]. Qed.

Lemma futex_wake_task_inv s id : inv s -> switched_out s id -> inv (futex_wake_task s id) /\ cpus (futex_wake_task s id) = cpus s.
Proof.
  intros Hs Hout. unfold futex_wake_task. destruct (tasks s !! id) as [task|] eqn:Ht; [|done].
  destruct (Task.futex_wake task) as [woken task'] eqn:E. split; [|by destruct woken].
  apply (wake_inv s id task); [done..|]. unfold Task.futex_wake in E.
  destruct (Task.state task) as [| | | |t []] eqn:Est; simplify_eq; rewrite ?Est; simpl; auto.
Qed.

Lemma wake_loop_inv (set : list Z) s (n : nat) :
  inv s -> (forall id, id ∈ take n set -> switched_out s id) -> inv (wake_loop s n set).1.
Proof.
  revert s n. induction set as [|id set IH]; intros s [|n] Hs Hout; [done..|]. simpl in *.
  destruct (futex_wake_task_inv s id Hs ltac:(apply Hout; set_solver)) as [Hs' Hc]. apply IH; [done|].
  intros i Hi. unfold switched_out. rewrite Hc. apply Hout. set_solver.
Qed.

Lemma futex_wake_inv s (paddr count : Z) :
  inv s -> (forall set id, watch_list s !! paddr = Some set -> id ∈ take (Z.to_nat count) set -> switched_out s id) ->
  inv (futex_wake_inner s paddr count).
Proof.
  intros Hs Hout. unfold futex_wake_inner. destruct (count =? 0); [done|]. destruct (watch_list s !! paddr) as [set|] eqn:E; [|done].
  pose proof (wake_loop_inv set s (Z.to_nat count) Hs (fun id => Hout set id eq_refl)) as Hl.
  destruct (wake_loop s (Z.to_nat count) set) as [s' set']. by apply inv_watch.
Qed.

Lemma resolve_inv s id result : inv s -> switched_out s id -> inv (Kernel.resolve_file_mapping_request s id result).
Proof.
  intros Hs Hout. unfold Kernel.resolve_file_mapping_request. destruct (tasks s !! id) as [task|] eqn:Ht; [|done].
  destruct (Task.resolve_file_mapping_request task result) as [woken task'] eqn:E. apply (wake_inv s id task); [done..|].
  unfold Task.resolve_file_mapping_request in E. simpl in E.
  destruct (Task.state task) as [| | | |t []] eqn:Est; simplify_eq; simpl; rewrite ?Est; simpl; auto.
Qed.

Lemma update_timeout_inv s id (ms : Z) : inv s -> switched_out s id -> inv (Kernel.update_timeout s id ms).
Proof.
  intros Hs Hout. unfold Kernel.update_timeout. destruct (tasks s !! id) as [task|] eqn:Ht; [|done].
  destruct (Task.update_timeout task ms) as [woken task'] eqn:E. apply (wake_inv s id task); [done..|].
  unfold Task.update_timeout in E. destruct (Task.state task) as [| | | |[t|] ty] eqn:Est; simplify_eq; rewrite ?Est; simpl; auto.
  destruct (t <=? ms); simplify_eq; simpl; auto.
Qed.

(** *** Creating and ending *)

Lemma uninitialized_put s id task :
  ~ idle s id -> inv s -> id_ok s id -> places s id = 0%nat ->
  (forall cpu, cpu ∈ cpus s -> current_task cpu = id -> cpu_ok (put_task s id task) cpu).
Proof. intros Hn Hs Hid Hp cpu Hcpu Hc. pose proof (current_elem s cpu Hcpu). rewrite Hc in *. unfold places in Hp. lia. Qed.

Lemma create_task_inv s : inv s -> next_id s < NONE -> inv (create_task s).1.
Proof.
  intros Hs Hlt. set (id := next_id s). pose proof (inv_next s Hs) as Hnx. fold id in Hnx, Hlt.
  assert (u32 (id + 1) = id + 1) as Hu by (unfold u32; apply Z.mod_small; unfold NONE in *; lia).
  change (inv (put_task (with_next s (u32 (id + 1))) id Task.new)). rewrite Hu.
  assert (inv (with_next s (id + 1))) as Hs1.
  { split; [|intros cpu Hc; apply (cpu_ok_same s); [done..|by apply Hs]|simpl; lia].
    intros i Hn. destruct (inv_ids s Hs i Hn) as (? & Hf & ?). split; [done|]. split; [|done]. intros HF. apply Hf.
    unfold fresh in *. simpl in HF. lia. }
  apply inv_put; [done|]. intros Hn. change (~ idle s id) in Hn. destruct (inv_ids s Hs id Hn) as (? & Hf & ?).
  destruct (Hf ltac:(unfold fresh; lia)) as [Ht Hp]. split.
  - split; [done|]. split; [unfold fresh; simpl; lia|exact Hp].
  - by apply (uninitialized_put (with_next s (id + 1)) id); [|exact Hs1|apply Hs1|].
Qed.

(** A task that has not run yet is put on the queue. *)
Lemma inv_start s id task task' :
  inv s -> tasks s !! id = Some task -> Task.state task = Uninitialized -> Task.can_resume task' = true ->
  inv (reenqueue_task (put_task s id task') id).
Proof.
  intros Hs Ht Hst Hres. apply inv_put_enqueue; [done|]. intros Hn. destruct (inv_ids s Hs id Hn) as (? & Hf & Hp).
  rewrite Ht in Hf, Hp. simpl in Hp. rewrite Hst in Hp. split; [|by apply uninitialized_put; [| |apply Hs|]].
  split; [lia|]. split; [intros HF; by destruct (Hf HF)|]. unfold Task.can_resume in Hres. simpl. destruct (Task.state task'); done || lia.
Qed.

Lemma terminate_inv s id : inv s -> inv (terminate_id s id).
Proof.
  intros Hs. unfold terminate_id. destruct (tasks s !! id) as [task|] eqn:Ht; [|done]. apply inv_put; [done|]. intros Hn. split.
  - destruct (inv_ids s Hs id Hn) as (? & Hf & _). rewrite Ht in Hf. split; [done|]. split; [intros HF; by destruct (Hf HF)|done].
  - intros cpu Hcpu Hid. pose proof (inv_cpus s Hs cpu Hcpu) as Hok. unfold cpu_ok, decided, resumable in *. simpl.
    rewrite Hid, lookup_insert_eq in *. destruct (position cpu) as [| |b|b ?|b ?|]; try done;
      destruct Hok as [? _]; (split; [done|]; intros _; destruct b; [intros ? [= <-] []|done]).
Qed.

Lemma take_inv s id : inv s -> inv (take_task s id).
Proof.
  intros Hs.
  change (inv (with_queue (with_tasks s (delete id (tasks s))) (work_queue s))).
  apply (inv_task s id _ None); [done| |apply lookup_delete_eq|done|].
  - intros i Hi. by rewrite lookup_delete_ne.
  - intros Hn r Hr. assert (r = ready s id) as -> by lia. destruct (inv_ids s Hs id Hn) as (? & Hf & _). split.
    + split; [done|]. split; [|done]. intros HF. split; [done|]. by destruct (Hf HF).
    + intros cpu Hcpu Hid. pose proof (inv_cpus s Hs cpu Hcpu) as Hok. unfold cpu_ok, decided, resumable in *. simpl.
      rewrite Hid, lookup_delete_eq. destruct (position cpu) as [| |b|b ?|b ?|]; try done;
        destruct Hok as [? _]; (split; [done|]; intros _; by destruct b).
Qed.

Lemma kernel_step_inv s s' : inv s -> step switched_out s s' -> inv s'.
Proof.
  intros Hs H. destruct H as [c s' H|c s' H|c s' H|c s' H|c first s' H|c s' H|c ms s' H|c s' H|c result s' H|c paddr timeout s' H| | | |Hn|Hn|id task s' Ht E H| |id].
  - unfold switch_drain in H. apply bind_Some in H as (cpu & Hc & H). destruct (position cpu) eqn:E; simplify_eq.
    apply drain_inv; auto. unfold chosen_of. by rewrite E.
  - by apply (check_inv s c).
  - by apply (pop_inv s c).
  - by apply (accept_inv s c).
  - by apply (leave_inv s c first).
  - unfold switch_return in H. apply bind_Some in H as (cpu & Hc & H). destruct (position cpu) eqn:E; simplify_eq.
    apply drain_inv; auto. unfold chosen_of. by rewrite E.
  - by apply (sleep_inv s c ms).
  - by apply (mapping_inv s c).
  - by apply (map_result_inv s c result).
  - by apply (futex_wait_inv s c paddr timeout).
  - by apply futex_wake_inv.
  - by apply resolve_inv.
  - by apply update_timeout_inv.
  - by apply create_task_inv.
  - apply (inv_start (create_task s).1 (next_id s) Task.new); [by apply create_task_inv|simpl; apply lookup_insert_eq|done..].
  - unfold start_task in H. rewrite Ht in H. simplify_eq/=.
    apply (inv_start s id task); [done..|]. unfold Task.make_runnable. by rewrite E.
  - by apply terminate_inv.
  - by apply take_inv.
Qed.

Lemma boot_inv (l : list Z) (next : Z) : 0 <= next <= NONE -> Forall (fun id => 0 <= id < next) l -> inv (boot l next).
Proof.
  intros Hn Hl. split; [| |done].
  - intros id Hid. assert (id ∉ l) as Hnl.
    { intros Hin. apply Hid. unfold idle. simpl. rewrite <- list_fmap_compose. apply list_elem_of_fmap. by exists id. }
    unfold id_ok, ready, current. assert (tasks (boot l next) !! id = None) as ->.
    { simpl. apply not_elem_of_list_to_map_1. rewrite <- list_fmap_compose. intros (x & -> & Hx)%list_elem_of_fmap. done. }
    simpl. rewrite !sum_zero; [by split; [unfold queued; simpl; lia|]|..]; intros x (i & -> & Hi)%list_elem_of_fmap; [|done].
    unfold cpu_current. rewrite is_id_ne; [done|]. simpl. by intros ->.
  - intros cpu (i & -> & _)%list_elem_of_fmap. done.
Qed.

Lemma kernel_reachable_inv s0 s : inv s0 -> reachable switched_out s0 s -> inv s.
Proof. intros H0. induction 1; [done|]. by eapply kernel_step_inv. Qed.
End Invariant.

(** ** One undisturbed [switch] *)

Section Switch.
Implicit Types (s : Kernel.t) (id : Z) (c : nat) (cpu : CPUScheduler.t).

(** The first task of the queue that can run, or the idle task. *)
Fixpoint first_runnable s (idle_id : Z) (q : list WorkItem) : Z * list WorkItem :=
  match q with
  | WTask id :: q => if resumable s id then (id, q) else first_runnable s idle_id q
  | _ => (idle_id, q)
  end.

Definition only_tasks (q : list WorkItem) : Prop := WTasklet ∉ q.

Definition as_items (o : option Z) : list WorkItem := match o with Some id => [WTask id] | None => [] end.

Lemma cpu_insert s c cpu cpu' : cpus s !! c = Some cpu -> cpus (with_cpu s c cpu') !! c = Some cpu'.
Proof. intros Hc. apply list_lookup_insert_eq. by eapply lookup_lt_Some. Qed.

Lemma with_cpu_twice s c cpu cpu' : with_cpu (with_cpu s c cpu) c cpu' = with_cpu s c cpu'.
Proof. unfold with_cpu. simpl. by rewrite list_insert_insert_eq. Qed.

Lemma first_runnable_tasks s s' i q : tasks s' = tasks s -> first_runnable s' i q = first_runnable s i q.
Proof. intros Ht. induction q as [|[id|] q IH]; [done| |done]. simpl. unfold resumable. by rewrite Ht, IH. Qed.

Lemma pop_loop_spec (fuel : nat) s c cpu b :
  cpus s !! c = Some cpu -> position cpu = Deciding b -> only_tasks (work_queue s) -> (length (work_queue s) < fuel)%nat ->
  let '(next, rest) := first_runnable s (idle_task cpu) (work_queue s) in
  pop_loop fuel s c = Some (with_queue (with_cpu s c (at_phase cpu (Leaving b next))) rest).
Proof.
  remember (work_queue s) as q eqn:Eq. revert fuel s cpu Eq. induction q as [|[id|] q IH]; intros [|fuel] s cpu Eq Hc Hp Ht Hf;
    try (simpl in Hf; lia); [| |destruct Ht; by left].
  - simpl. unfold switch_pop. rewrite Hc. cbn [mbind option_bind]. rewrite Hp, <- Eq. cbn [mbind option_bind].
    rewrite (cpu_insert s c cpu) by done. cbn [mbind option_bind position at_phase]. by rewrite Eq.
  - cbn [pop_loop first_runnable]. unfold switch_pop. rewrite Hc. cbn [mbind option_bind]. rewrite Hp, <- Eq. cbn [mbind option_bind].
    set (s1 := with_queue _ q). assert (cpus s1 !! c = Some (at_phase cpu (Popped b id))) as Hc1 by (by apply (cpu_insert s c cpu)).
    rewrite Hc1. cbn [mbind option_bind position at_phase]. unfold switch_accept. rewrite Hc1. cbn [mbind option_bind position at_phase].
    change (resumable s1 id) with (resumable s id). rewrite (cpu_insert s1 c (at_phase cpu (Popped b id))) by done.
    cbn [mbind option_bind]. destruct (resumable s id); cbn [position at_phase].
    + unfold s1, with_queue, with_cpu. simpl. by rewrite list_insert_insert_eq.
    + set (s2 := with_cpu s1 c _). specialize (IH fuel s2 (at_phase cpu (Deciding b)) eq_refl).
      rewrite (first_runnable_tasks s s2) in IH by done. cbn [idle_task at_phase] in IH.
      destruct (first_runnable s (idle_task cpu) q) as [next rest]. rewrite IH; [|by apply (cpu_insert s1 c (at_phase cpu (Popped b id)))|done|intros Hin; apply Ht; by right|simpl in Hf; lia].
      unfold s2, s1, with_queue, with_cpu. simpl. by rewrite !list_insert_insert_eq.
Qed.

(** The queue after the leftover task of the last switch was put on it. *)
Definition drained_queue s cpu : list WorkItem := work_queue s ++ as_items (pending_of cpu).

Lemma switch_choose s c cpu :
  cpus s !! c = Some cpu -> position cpu = Executing -> only_tasks (work_queue s) ->
  let b := negb (current_task cpu =? idle_task cpu) && resumable s (current_task cpu) in
  let '(next, rest) := first_runnable s (idle_task cpu) (drained_queue s cpu) in
  (s ← switch_drain s c; s ← switch_check s c; pop_loop (S (length (work_queue s))) s c) =
    Some (with_queue (with_cpu s c (at_phase (with_pending cpu NONE) (Leaving b next))) rest).
Proof.
  intros Hc Hp Ht b. set (cpu1 := at_phase (with_pending cpu NONE) Drained).
  assert (switch_drain s c = Some (with_queue (with_cpu s c cpu1) (drained_queue s cpu))) as ->.
  { unfold switch_drain. rewrite Hc. cbn [mbind option_bind]. rewrite Hp. unfold drain_pending, drained_queue, pending_of.
    destruct (_ =? NONE); simpl; [|done]. by rewrite app_nil_r. }
  cbn [mbind option_bind]. set (s1 := with_queue _ _). assert (cpus s1 !! c = Some cpu1) as Hc1 by (by apply (cpu_insert s c cpu)).
  unfold switch_check. rewrite Hc1. cbn [mbind option_bind]. change (position cpu1) with Drained. cbn [mbind option_bind].
  change (negb (current_task cpu1 =? idle_task cpu1) && resumable s1 (current_task cpu1)) with b.
  set (cpu2 := at_phase cpu1 (Deciding b)). set (s2 := with_cpu s1 c cpu2).
  pose proof (pop_loop_spec (S (length (work_queue s2))) s2 c cpu2 b ltac:(by apply (cpu_insert s1 c cpu1)) eq_refl) as H.
  rewrite (first_runnable_tasks s s2) in H by done. change (work_queue s2) with (drained_queue s cpu) in *.
  change (idle_task cpu2) with (idle_task cpu) in H. destruct (first_runnable s _ _) as [next rest].
  change (work_queue s2) with (drained_queue s cpu). rewrite H; [|by unfold drained_queue, pending_of; destruct (_ =? NONE); intros Hin; apply Ht; set_solver|lia].
  unfold s2, s1, with_queue, with_cpu. simpl. by rewrite !list_insert_insert_eq.
Qed.

(** The outgoing task is not the idle task and can go on. *)
Definition leaves_runnable s cpu : bool := negb (current_task cpu =? idle_task cpu) && resumable s (current_task cpu).

(** Only the task that is switched to may change, from initialized to running. *)
Definition tasks_kept s s' (next : Z) : Prop :=
  (forall id, id <> next -> tasks s' !! id = tasks s !! id) /\
  (forall id task, tasks s !! id = Some task -> Task.state task <> Initialized -> tasks s' !! id = Some task).

(** The outcome of a [switch] of core [c] from [cpu] to [next]: the outgoing
    task waits at the end of the queue, or is the one the core still has to
    put there. *)
Definition switched s s' c cpu (next : Z) (rest : list WorkItem) : Prop :=
  exists cpu', cpus s' = <[c := cpu']> (cpus s) /\ position cpu' = Executing /\ current_task cpu' = next /\
    idle_task cpu' = idle_task cpu /\
    work_queue s' ++ as_items (pending_of cpu') =
      rest ++ (if leaves_runnable s cpu && negb (current_task cpu =? next) then [WTask (current_task cpu)] else []) /\
    tasks_kept s s' next.

Definition outgoing cpu (b : bool) (next : Z) : CPUScheduler.t :=
  set_current_task (if b then with_pending cpu (current_task cpu) else cpu) next.

Lemma leave_result s c cpu (first : bool) (next : Z) b :
  cpus s !! c = Some cpu -> position cpu = Leaving b next -> current_task cpu <> next ->
  is_Some (tasks s !! current_task cpu) -> is_Some (tasks s !! next) ->
  exists s' p, switch_leave s c first = Some s' /\ cpus s' = <[c := at_phase (outgoing cpu b next) p]> (cpus s) /\
    (p = Executing \/ p = Arrived) /\ work_queue s' = work_queue s /\ tasks_kept s s' next.
Proof.
  intros Hc Hp Hne [task0 Ht0] [task Ht]. unfold switch_leave. rewrite Hc. cbn [mbind option_bind]. rewrite Hp.
  rewrite (proj2 (Z.eqb_neq _ _) Hne). unfold switch_to.
  assert (current_task (if b then with_pending cpu (current_task cpu) else cpu) = current_task cpu) as -> by (by destruct b).
  rewrite Ht0, Ht. cbn [mbind option_bind]. fold (outgoing cpu b next).
  destruct (decide (Task.state task = Initialized)) as [Hst|Hst].
  - rewrite Hst. eexists _, Executing. repeat split; auto.
    + intros id Hid. simpl. by rewrite lookup_insert_ne.
    + intros id t Hid Hni. simpl. rewrite lookup_insert_ne; [done|congruence].
  - exists (with_cpu s c (at_phase (outgoing cpu b next) (if first then Executing else Arrived))), (if first then Executing else Arrived).
    split; [by destruct (Task.state task)|]. repeat split; auto. destruct first; auto.
Qed.

Lemma switch_enter s c cpu (first : bool) (next : Z) :
  cpus s !! c = Some cpu -> pending_reenqueue cpu = NONE -> position cpu = Leaving (leaves_runnable s cpu) next ->
  current_task cpu <> NONE -> is_Some (tasks s !! current_task cpu) -> is_Some (tasks s !! next) ->
  exists s', (s ← switch_leave s c first; cpu ← cpus s !! c;
              match position cpu with Arrived => switch_return s c | _ => Some s end) = Some s' /\ switched s s' c cpu next (work_queue s).
Proof.
  intros Hc Hpend Hp Hnone Htask0 Htask. destruct (decide (current_task cpu = next)) as [E|E].
  - unfold switch_leave. rewrite Hc. cbn [mbind option_bind]. rewrite Hp, (proj2 (Z.eqb_eq _ _) E). cbn [mbind option_bind].
    rewrite (cpu_insert s c cpu) by done. eexists. split; [done|]. exists (at_phase cpu Executing). repeat (split; [done|]).
    split; [by unfold pending_of; simpl; rewrite Hpend, (proj2 (Z.eqb_eq _ _) E), andb_false_r|done].
  - destruct (leave_result s c cpu first next _ Hc Hp E Htask0 Htask) as (s3 & p & -> & Hcpus & Hph & Hq & Htk). cbn [mbind option_bind].
    set (cpu2 := outgoing _ _ _) in *. assert (cpus s3 !! c = Some (at_phase cpu2 p)) as Hc3.
    { rewrite Hcpus. apply list_lookup_insert_eq. by eapply lookup_lt_Some. }
    assert (as_items (pending_of (at_phase cpu2 p)) = if leaves_runnable s cpu then [WTask (current_task cpu)] else []) as Hpe.
    { unfold pending_of, cpu2, outgoing. destruct (leaves_runnable s cpu); simpl; [by rewrite (proj2 (Z.eqb_neq _ _) Hnone)|by rewrite Hpend]. }
    assert (idle_task cpu2 = idle_task cpu) as Hi by (unfold cpu2, outgoing; by destruct (leaves_runnable s cpu)).
    rewrite Hc3. cbn [mbind option_bind]. unfold switched. rewrite (proj2 (Z.eqb_neq _ _) E), andb_true_r.
    destruct Hph as [-> | ->]; cbn [position at_phase].
    + eexists. split; [done|]. exists (at_phase cpu2 Executing). by rewrite Hq, Hpe.
    + unfold switch_return. rewrite Hc3. cbn [mbind option_bind position at_phase]. eexists. split; [done|].
      exists (at_phase (with_pending (at_phase cpu2 Arrived) NONE) Executing). unfold drain_pending, pending_of in *.
      destruct (pending_reenqueue (at_phase cpu2 Arrived) =? NONE); simpl in *.
      * rewrite Hcpus, list_insert_insert_eq, Hq. by rewrite <- Hpe.
      * rewrite Hcpus, list_insert_insert_eq, Hq. by rewrite <- Hpe, app_nil_r.
Qed.

Lemma switched_from s s1 s' c cpu cpu1 (next : Z) rest :
  cpus s1 = <[c := cpu1]> (cpus s) -> tasks s1 = tasks s ->
  current_task cpu1 = current_task cpu -> idle_task cpu1 = idle_task cpu ->
  switched s1 s' c cpu1 next rest -> switched s s' c cpu next rest.
Proof.
  intros Hc Ht Hcur Hi (cpu' & H1 & H2 & H3 & H4 & H5 & H6). exists cpu'. unfold leaves_runnable, resumable, tasks_kept in *.
  rewrite Hc, list_insert_insert_eq in H1. rewrite Ht, Hcur, Hi in *. done.
Qed.

Lemma switch_steps_ok s c cpu (first : bool) next rest :
  cpus s !! c = Some cpu -> position cpu = Executing -> only_tasks (work_queue s) -> current_task cpu <> NONE ->
  first_runnable s (idle_task cpu) (drained_queue s cpu) = (next, rest) ->
  is_Some (tasks s !! current_task cpu) -> is_Some (tasks s !! next) ->
  exists s', switch_steps s c first = Some s' /\ switched s s' c cpu next rest.
Proof.
  intros Hc Hp Ht Hnone Hfirst Hcurrent Hnext. pose proof (switch_choose s c cpu Hc Hp Ht) as H. cbv zeta in H. rewrite Hfirst in H.
  fold (leaves_runnable s cpu) in H. set (cpu1 := at_phase (with_pending cpu NONE) (Leaving (leaves_runnable s cpu) next)) in H.
  set (s1 := with_queue _ rest) in H.
  destruct (switch_enter s1 c cpu1 first next ltac:(by apply (cpu_insert s c cpu)) eq_refl eq_refl Hnone Hcurrent Hnext) as (s' & Hs' & Hsw).
  exists s'. split; [|by apply (switched_from s s1 s' c cpu cpu1)].
  rewrite <- Hs'. unfold switch_steps. destruct (switch_drain s c) as [sa|]; [|done]. cbn [mbind option_bind] in *.
  destruct (switch_check sa c) as [sb|]; [|done]. cbn [mbind option_bind] in *. by rewrite H.
Qed.
End Switch.

(** ** Futexes *)

Section Futex.
Implicit Types (s : Kernel.t) (id : Z).

(** The task still waits on a futex. *)
Definition waiting s id : bool :=
  match Task.state <$> tasks s !! id with Some (Blocked _ Futex) => true | _ => false end.

Definition woken s (l : list Z) : list Z := filter (fun id => waiting s id = true) l.

Lemma futex_wake_task_spec s id :
  work_queue (futex_wake_task s id) = work_queue s ++ (WTask <$> woken s [id]) /\
  watch_list (futex_wake_task s id) = watch_list s /\ cpus (futex_wake_task s id) = cpus s /\
  (forall i, i <> id -> tasks (futex_wake_task s id) !! i = tasks s !! i) /\
  (waiting s id = true -> Task.state <$> tasks (futex_wake_task s id) !! id = Some Running) /\
  (waiting s id = false -> tasks (futex_wake_task s id) !! id = tasks s !! id).
Proof.
  unfold futex_wake_task, woken. rewrite filter_cons, filter_nil. unfold waiting.
  destruct (tasks s !! id) as [task|] eqn:Ht; simpl; [|by rewrite app_nil_r].
  unfold Task.futex_wake. destruct (Task.state task) as [| | | |t []] eqn:Est; simpl;
    rewrite ?app_nil_r, ?lookup_insert_eq; repeat split; try done; intros i Hi; by rewrite lookup_insert_ne.
Qed.

Lemma woken_ext s s' l : (forall id, id ∈ l -> tasks s' !! id = tasks s !! id) -> woken s' l = woken s l.
Proof.
  intros Hl. unfold woken. induction l as [|id l IH]; [done|]. rewrite !filter_cons.
  rewrite IH by (intros; apply Hl; set_solver). unfold waiting. by rewrite (Hl id) by set_solver.
Qed.

(** The effect of waking the tasks of [l] that still wait. *)
Definition wakes s s' (l : list Z) : Prop :=
  work_queue s' = work_queue s ++ (WTask <$> woken s l) /\ cpus s' = cpus s /\ next_id s' = next_id s /\
  (forall id, id ∈ woken s l -> Task.state <$> tasks s' !! id = Some Running) /\
  (forall id, id ∉ woken s l -> tasks s' !! id = tasks s !! id).

Lemma wakes_nil s : wakes s s [].
Proof. repeat split; [by rewrite app_nil_r|]. intros id Hid. by apply elem_of_nil in Hid. Qed.

Lemma wake_loop_spec (set : list Z) s (n : nat) :
  NoDup set -> exists s', wake_loop s n set = (s', drop n set) /\ wakes s s' (take n set) /\ watch_list s' = watch_list s.
Proof.
  revert s n. induction set as [|id set IH]; intros s [|n] Hnd; try (exists s; by split; [|split; [apply wakes_nil|]]).
  apply NoDup_cons in Hnd as [Hid Hnd]. destruct (futex_wake_task_spec s id) as (Hq & Hw & Hc & Hne & Hyes & Hno).
  assert (next_id (futex_wake_task s id) = next_id s) as Hnx.
  { unfold futex_wake_task. destruct (tasks s !! id); [|done]. by destruct (Task.futex_wake _) as [[] ?]. }
  set (s1 := futex_wake_task s id) in *. destruct (IH s1 n Hnd) as (s' & Hl & (Hq' & Hc' & Hnx' & Hrun & Hkeep) & Hw').
  assert (woken s1 (take n set) = woken s (take n set)) as Hext.
  { apply woken_ext. intros i Hi. apply Hne. intros ->. apply Hid. eapply elem_of_take in Hi as (j & Hj & _). by eapply list_elem_of_lookup_2. }
  assert (id ∉ woken s (take n set)) as Hnw.
  { intros Hin. apply list_elem_of_filter in Hin as [_ Hi]. apply Hid. apply elem_of_take in Hi as (j & Hj & _). by eapply list_elem_of_lookup_2. }
  rewrite Hext in *. exists s'. split; [exact Hl|]. split; [|congruence]. simpl take. unfold wakes.
  assert (woken s (id :: take n set) = woken s [id] ++ woken s (take n set)) as -> by (unfold woken; by rewrite !filter_cons, filter_nil; case_decide).
  split; [by rewrite Hq', Hq, fmap_app, app_assoc|]. split; [congruence|]. split; [congruence|].
  assert (forall i, i ∈ woken s [id] <-> i = id /\ waiting s id = true) as Hone by (intros i; unfold woken; rewrite list_elem_of_filter; set_solver).
  split; intros i; rewrite elem_of_app, Hone.
  - intros [[-> Hwt]|Hi]; [|by apply Hrun]. rewrite Hkeep by done. by apply Hyes.
  - intros Hn. rewrite Hkeep by tauto. destruct (decide (i = id)) as [->|]; [|by apply Hne]. apply Hno. destruct (waiting s id); [tauto|done].
Qed.
End Futex.

Module SchedulerProps.

(** C5: from boot, under every interleaving of the steps of all cores in which
    a task is only woken once its core has switched away from it, a task that
    is not an idle task is in at most one place (on the work queue, current
    on a core, chosen by a core, or pending on a core); a task that can run is
    in exactly one, so it is never lost and never runs on two cores; and a
    blocked task is not waiting to run anywhere. *)
Theorem scheduler_places_tasks_once (idle_ids : list Z) (next : Z) (s : Kernel.t) (id : Z) :
  0 <= next <= NONE -> Forall (fun i => 0 <= i < next) idle_ids -> reachable switched_out (boot idle_ids next) s -> ~ idle s id ->
  (places s id <= 1)%nat /\
  (forall task, tasks s !! id = Some task ->
     (Task.can_resume task = true -> places s id = 1%nat) /\ (blocked (Task.state task) -> ready s id = 0%nat)).
Proof.
  intros Hn Hl Hr Hid. destruct (inv_ids s (kernel_reachable_inv _ s (boot_inv idle_ids next Hn Hl) Hr) id Hid) as (Hle & _ & Hst).
  split; [done|]. intros task Ht. rewrite Ht in Hst. simpl in Hst. unfold Task.can_resume.
  split; destruct (Task.state task); done.
Qed.

(** C29: an undisturbed [switch] between tasks of the map always completes.
    It moves the core to the
    first task of the queue that can run, dropping those before it that
    cannot, or to the idle task when there is none; the outgoing task goes to
    the end of the queue if it can go on, and no other core or task
    changes. *)
Theorem switch_picks_next (s : Kernel.t) (c : nat) (cpu : CPUScheduler.t) (first : bool) (next : Z) (rest : list WorkItem) :
  cpus s !! c = Some cpu -> position cpu = Executing -> only_tasks (work_queue s) -> current_task cpu <> NONE ->
  first_runnable s (idle_task cpu) (drained_queue s cpu) = (next, rest) ->
  is_Some (tasks s !! current_task cpu) -> is_Some (tasks s !! next) ->
  exists s', switch_steps s c first = Some s' /\ switched s s' c cpu next rest.
Proof. apply switch_steps_ok. Qed.

(** [futex_wake] takes the first [count] tasks off the list of the futex,
    in the order in which they started to wait, and makes those of them
    runnable and enqueues them, in that order, that still wait on a futex.
    An entry of a task that no longer waits, for instance after a timeout,
    uses up one of the [count] wake-ups.  Nothing else changes. *)
Theorem futex_wake_order (s : Kernel.t) (paddr count : Z) (set : list Z) :
  0 < count -> watch_list s !! paddr = Some set -> NoDup set ->
  let n := Z.to_nat count in
  let s' := futex_wake_inner s paddr count in
  wakes s s' (take n set) /\
  watch_list s' !! paddr = (if decide (drop n set = []) then None else Some (drop n set)) /\
  (forall p, p <> paddr -> watch_list s' !! p = watch_list s !! p).
Proof.
  intros Hpos Hset Hnd n s'. subst s'. unfold futex_wake_inner. rewrite (proj2 (Z.eqb_neq count 0)), Hset by lia. fold n.
  destruct (wake_loop_spec set s n Hnd) as (s' & -> & Hw & Hwl). split; [exact Hw|]. simpl. rewrite Hwl. case_decide.
  - split; [apply lookup_delete_eq|]. intros p Hp. by rewrite lookup_delete_ne.
  - split; [apply lookup_insert_eq|]. intros p Hp. by rewrite lookup_insert_ne.
Qed.

Lemma reach_trans guard s0 s1 s2 : reachable guard s0 s1 -> reachable guard s1 s2 -> reachable guard s0 s2.
Proof. intros H1 H2. induction H2; [done|]. by eapply reach_step. Qed.

Lemma reach_first guard s0 s1 (P : Kernel.t -> Prop) :
  step guard s0 s1 -> (exists s, reachable guard s1 s /\ P s) -> exists s, reachable guard s0 s /\ P s.
Proof. intros Hs (s & Hr & HP). exists s. split; [|done]. eapply reach_trans; [|done]. eapply reach_step; [apply reach_init|done]. Qed.

Tactic Notation "then_step" uconstr(t) := eapply reach_first; [apply t; vm_compute; reflexivity|].
Ltac switch_to c first :=
  then_step (st_drain _ _ c); then_step (st_check _ _ c); then_step (st_pop _ _ c); then_step (st_accept _ _ c);
  then_step (st_leave _ _ c first).

Definition any_time (s : Kernel.t) (id : Z) : Prop := True.

(** C38: a task that is woken between blocking on a futex and the [switch] of
    its core can be picked up by a second core, so that two cores execute it
    at the same time. *)
Theorem early_wake_runs_task_twice :
  exists s, reachable any_time (boot [0; 1] 2) s /\ running s 0 = Some 2 /\ running s 1 = Some 2 /\ ~ idle s 2.
Proof.
  then_step st_create_kernel. switch_to 0%nat true. then_step (st_futex_wait _ _ 0%nat 4096 None).
  eapply reach_first; [by apply (st_futex_wake _ _ 4096 1)|].
  switch_to 1%nat false. then_step (st_return _ _ 1%nat).
  eexists. split; [apply reach_init|]. repeat split; [vm_compute; reflexivity..|].
  unfold idle. vm_compute. set_solver.
Qed.

(** *** Witnesses *)

Definition two_cores : Kernel.t := boot [0; 1] 2.

Lemma places_tasks_once_witness :
  (places (create_kernel_task two_cores).1 2 <= 1)%nat /\
  (forall task, tasks (create_kernel_task two_cores).1 !! 2 = Some task ->
     (Task.can_resume task = true -> places (create_kernel_task two_cores).1 2 = 1%nat) /\
     (blocked (Task.state task) -> ready (create_kernel_task two_cores).1 2 = 0%nat)).
Proof.
  apply (scheduler_places_tasks_once [0; 1] 2).
  - unfold NONE. lia.
  - repeat constructor; lia.
  - eapply reach_step; [apply reach_init|]. apply st_create_kernel. reflexivity.
  - unfold idle. vm_compute. set_solver.
Defined.

(** A task runs on the first core and another one waits in the queue. *)
Definition busy : Kernel.t :=
  reenqueue_task (put_task (put_task (with_cpu two_cores 0 (set_current_task (CPUScheduler.new 0) 2))
    2 (Task.with_state Task.new Running)) 3 (Task.with_state Task.new Running)) 3.

Lemma switch_picks_next_witness :
  exists s', switch_steps busy 0 false = Some s' /\ switched busy s' 0 (set_current_task (CPUScheduler.new 0) 2) 3 [].
Proof.
  apply (switch_picks_next busy 0 _ false 3 []); [reflexivity|reflexivity| |done|reflexivity|by eexists|by eexists].
  unfold only_tasks. simpl. set_solver.
Defined.

(** The first of the two waiting tasks has timed out. *)
Definition stale : Kernel.t :=
  with_watch (put_task (put_task two_cores 2 (Task.with_state Task.new Running))
    3 (Task.with_state Task.new (Blocked None Futex))) {[4096 := [2; 3]]}.

Lemma futex_wake_order_witness :
  wakes stale (futex_wake_inner stale 4096 1) [2] /\
  watch_list (futex_wake_inner stale 4096 1) !! 4096 = Some [3] /\
  (forall p, p <> 4096 -> watch_list (futex_wake_inner stale 4096 1) !! p = watch_list stale !! p).
Proof. apply (futex_wake_order stale 4096 1 [2; 3]); [lia|reflexivity|]. repeat constructor; set_solver. Defined.
End SchedulerProps.
