(* ===== verification/NetPacket.v ===== *)
(** * Packet headers

    [kernel/src/net/protocol/packet.rs], [hardware.rs], [ethernet.rs] and
    [arp.rs]: the [PacketHeader] trait, which casts a packed struct to and from
    the bytes of a packet, hardware addresses, the Ethernet frame header and
    the ARP packet.

    A packed struct is a record of its fields with the values the processor
    loads, so a field of two bytes holds the little-endian reading of its bytes
    and the code's [to_be]/[from_be] are explicit swaps.  A byte is a [Z] in
    [0, 256); [[u8; 4]] and [[u8; 6]] are records of their elements. *)

From S2P Require Import Prelude.

(** ** Bytes of machine words, in memory order *)

Definition le16 (x : Z) : list Z := [x mod 256; x / 256].
Definition le32 (x : Z) : list Z :=
  [x mod 256; x / 256 mod 256; x / 2 ^ 16 mod 256; x / 2 ^ 24].

(** [u16::to_be_bytes] and [u32::to_be_bytes]. *)
Definition be16 (x : Z) : list Z := [x / 256; x mod 256].
Definition be32 (x : Z) : list Z := [x / 2 ^ 24; x / 2 ^ 16 mod 256; x / 256 mod 256; x mod 256].

Definition byte_at (b : list Z) (i : nat) : Z := nth i b 0.
Definition load16 (b : list Z) (i : nat) : Z := byte_at b i + 256 * byte_at b (i + 1).
Definition load32 (b : list Z) (i : nat) : Z :=
  byte_at b i + 256 * byte_at b (i + 1) + 2 ^ 16 * byte_at b (i + 2) + 2 ^ 24 * byte_at b (i + 3).

(** The little-endian 16-bit words of a buffer; a last odd byte is padded
    with a zero byte. *)
Fixpoint words_le (b : list Z) : list Z :=
  match b with
  | x :: y :: rest => (x + 256 * y) :: words_le rest
  | [x] => [x]
  | [] => []
  end.

(** ** The [PacketHeader] trait

    [as_u8_buffer] and [of_u8_buffer] are the two pointer casts; [get_size] is
    [size_of::<Self>()]. *)

Class PacketHeader (H : Type) := {
  get_size : nat;
  as_u8_buffer : H -> list Z;
  of_u8_buffer : list Z -> H
}.
Arguments get_size H {_}.

Definition try_as_u16_buffer `{PacketHeader H} (self : H) : option (list Z) :=
  if (get_size H mod 2 =? 0)%nat then Some (words_le (as_u8_buffer self)) else None.

(** Copies the header to the end of the slice and returns the slice and the
    position of the header; the subtraction of a larger size wraps, and the
    slice index then panics. *)
Definition copy_to_u8_buffer `{PacketHeader H} (self : H) (buffer : list Z) : option (list Z * nat) :=
  if decide (get_size H <= length buffer)%nat then
    let location := (length buffer - get_size H)%nat in
    buffer ← copy_from_slice buffer location (as_u8_buffer self);
    Some (buffer, location)
  else None.

Definition try_from_u8_buffer `{PacketHeader H} (buffer : list Z) : option H :=
  if (length buffer <? get_size H)%nat then None else Some (of_u8_buffer buffer).

(** What the network code relies on: the two casts are inverse on headers
    whose fields have the width of their types. *)
Class PacketHeaderLaws (H : Type) `{PacketHeader H} := {
  header_wf : H -> Prop;
  as_u8_buffer_length (h : H) : length (as_u8_buffer h) = get_size H;
  as_u8_buffer_bytes (h : H) : header_wf h -> Forall is_u8 (as_u8_buffer h);
  of_as_u8_buffer (h : H) (rest : list Z) :
    header_wf h -> of_u8_buffer (as_u8_buffer h ++ rest) = h
}.

(** ** Hardware addresses *)

Module HardwareAddress.
Record t := HardwareAddress { m0 : Z; m1 : Z; m2 : Z; m3 : Z; m4 : Z; m5 : Z }.

Definition octets (self : t) : list Z :=
  [m0 self; m1 self; m2 self; m3 self; m4 self; m5 self].
Definition load (b : list Z) (i : nat) : t :=
  HardwareAddress (byte_at b i) (byte_at b (i + 1)) (byte_at b (i + 2))
    (byte_at b (i + 3)) (byte_at b (i + 4)) (byte_at b (i + 5)).

Definition BROADCAST : t := HardwareAddress 0xff 0xff 0xff 0xff 0xff 0xff.

Definition wf (self : t) : Prop := Forall is_u8 (octets self).

#[global] Instance eq_dec : EqDecision t.
Proof. solve_decision. Defined.
End HardwareAddress.

(** ** IPv4 addresses (the type; its parser is in [Ipv4]) *)

Module Ipv4Address.
Record t := Ipv4Address { a0 : Z; a1 : Z; a2 : Z; a3 : Z }.

Definition octets (self : t) : list Z := [a0 self; a1 self; a2 self; a3 self].
Definition load (b : list Z) (i : nat) : t :=
  Ipv4Address (byte_at b i) (byte_at b (i + 1)) (byte_at b (i + 2)) (byte_at b (i + 3)).

(** [Default for Ipv4Address]. *)
Definition default : t := Ipv4Address 0 0 0 0.

Definition bitand (self rhs : t) : t :=
  Ipv4Address (a0 self .& a0 rhs) (a1 self .& a1 rhs) (a2 self .& a2 rhs) (a3 self .& a3 rhs).

Definition wf (self : t) : Prop := Forall is_u8 (octets self).

#[global] Instance eq_dec : EqDecision t.
Proof. solve_decision. Defined.

#[global] Instance countable : Countable t.
Proof.
  apply (inj_countable' (fun a => (a0 a, a1 a, a2 a, a3 a))
           (fun '(x, y, z, w) => Ipv4Address x y z w)).
  by intros [].
Defined.
End Ipv4Address.
Notation Ipv4Address := Ipv4Address.Ipv4Address.

(** ** Ethernet frames *)

Module EthernetFrameHeader.
Record t := {
  dest_mac : HardwareAddress.t;
  src_mac : HardwareAddress.t;
  ethertype : Z
}.

Definition ETHERTYPE_IP : Z := 0x0800.
Definition ETHERTYPE_ARP : Z := 0x0806.

Definition new (src dest : HardwareAddress.t) (ethertype : Z) : t :=
  {| src_mac := src; dest_mac := dest; ethertype := u16_swap ethertype |}.

Definition get_ethertype (self : t) : Z := u16_swap (ethertype self).

Definition broadcast_arp (src : HardwareAddress.t) : t :=
  new src HardwareAddress.BROADCAST ETHERTYPE_ARP.

Definition new_ipv4 (src dest : HardwareAddress.t) : t := new src dest ETHERTYPE_IP.

#[global] Instance header : PacketHeader t := {|
  get_size := 14;
  as_u8_buffer h :=
    HardwareAddress.octets (dest_mac h) ++ HardwareAddress.octets (src_mac h) ++ le16 (ethertype h);
  of_u8_buffer b :=
    {| dest_mac := HardwareAddress.load b 0; src_mac := HardwareAddress.load b 6;
       ethertype := load16 b 12 |}
|}.
End EthernetFrameHeader.

(** ** ARP *)

Module ArpPacket.
Record t := {
  hardware_type : Z;
  protocol_type : Z;
  hardware_addr_length : Z;
  protocol_addr_length : Z;
  opcode : Z;
  source_hardware_addr : HardwareAddress.t;
  source_protocol_addr : Ipv4Address.t;
  dest_hardware_addr : HardwareAddress.t;
  dest_protocol_addr : Ipv4Address.t
}.

Definition request (src_mac : HardwareAddress.t) (src_ip lookup : Ipv4Address.t) : t :=
  {| hardware_type := u16_swap 1; protocol_type := u16_swap 0x0800;
     hardware_addr_length := 6; protocol_addr_length := 4; opcode := u16_swap 1;
     source_hardware_addr := src_mac; source_protocol_addr := src_ip;
     dest_hardware_addr := HardwareAddress.HardwareAddress 0 0 0 0 0 0;
     dest_protocol_addr := lookup |}.

Definition response (src_mac : HardwareAddress.t) (src_ip : Ipv4Address.t)
    (dest_mac : HardwareAddress.t) (dest_ip : Ipv4Address.t) : t :=
  {| hardware_type := u16_swap 1; protocol_type := u16_swap 0x0800;
     hardware_addr_length := 6; protocol_addr_length := 4; opcode := u16_swap 2;
     source_hardware_addr := src_mac; source_protocol_addr := src_ip;
     dest_hardware_addr := dest_mac; dest_protocol_addr := dest_ip |}.

Definition announce (mac : HardwareAddress.t) (ip : Ipv4Address.t) : t := request mac ip ip.

Definition respond_to (req : t) (mac : HardwareAddress.t) (ip : Ipv4Address.t) : option t :=
  if negb (opcode req =? u16_swap 1) then None
  else Some (response mac ip (source_hardware_addr req) (source_protocol_addr req)).

Definition is_request (self : t) : bool := opcode self =? u16_swap 1.

#[global] Instance header : PacketHeader t := {|
  get_size := 28;
  as_u8_buffer h :=
    le16 (hardware_type h) ++ le16 (protocol_type h) ++
    [hardware_addr_length h; protocol_addr_length h] ++ le16 (opcode h) ++
    HardwareAddress.octets (source_hardware_addr h) ++ Ipv4Address.octets (source_protocol_addr h) ++
    HardwareAddress.octets (dest_hardware_addr h) ++ Ipv4Address.octets (dest_protocol_addr h);
  of_u8_buffer b :=
    {| hardware_type := load16 b 0; protocol_type := load16 b 2;
       hardware_addr_length := byte_at b 4; protocol_addr_length := byte_at b 5;
       opcode := load16 b 6;
       source_hardware_addr := HardwareAddress.load b 8;
       source_protocol_addr := Ipv4Address.load b 14;
       dest_hardware_addr := HardwareAddress.load b 18;
       dest_protocol_addr := Ipv4Address.load b 24 |}
|}.
End ArpPacket.

(** ** Words and their bytes *)

Lemma u16_swap_range (x : Z) : is_u16 x -> is_u16 (u16_swap x).
Proof. unfold u16_swap. word. Qed.

Lemma u16_swap_swap (x : Z) : is_u16 x -> u16_swap (u16_swap x) = x.
Proof. unfold u16_swap. word. Qed.

(** A 32-bit word as its four bytes. *)
Lemma u32_bytes (x : Z) : is_u32 x ->
  exists b0 b1 b2 b3, Forall is_u8 [b0; b1; b2; b3] /\
    x = b0 + 256 * b1 + 65536 * b2 + 16777216 * b3.
Proof.
  intros. exists (x mod 256), (x / 256 mod 256), (x / 256 / 256 mod 256), (x / 256 / 256 / 256).
  unfold_words. split; [repeat constructor|]; Z.div_mod_to_equations; lia.
Qed.

Lemma u32_bytes_div (b0 b1 b2 b3 : Z) : Forall is_u8 [b0; b1; b2; b3] ->
  let x := b0 + 256 * b1 + 65536 * b2 + 16777216 * b3 in
  x mod 256 = b0 /\ x / 256 mod 256 = b1 /\ x / 2 ^ 16 mod 256 = b2 /\ x / 2 ^ 24 = b3.
Proof.
  intros H x. subst x. repeat (apply Forall_cons in H as [? H]). unfold_words.
  assert (E : forall a b c, 0 <= a < c -> 0 < c -> (a + c * b) mod c = a /\ (a + c * b) / c = b).
  { intros a b c ? ?. split; [rewrite Z.mul_comm, Z.mod_add, Z.mod_small by lia; lia|].
    rewrite Z.mul_comm, Z.div_add, Z.div_small by lia. lia. }
  destruct (E b0 (b1 + 256 * b2 + 65536 * b3) 256) as [E1 E2]; [lia..|].
  destruct (E b1 (b2 + 256 * b3) 256) as [E3 E4]; [lia..|].
  destruct (E (b0 + 256 * b1) (b2 + 256 * b3) 65536) as [E5 E6]; [lia..|].
  destruct (E b2 b3 256) as [E7 E8]; [lia..|].
  destruct (E (b0 + 256 * b1 + 65536 * b2) b3 16777216) as [E9 E10]; [lia..|].
  replace (b0 + 256 * b1 + 65536 * b2 + 16777216 * b3)
    with (b0 + 256 * (b1 + 256 * b2 + 65536 * b3)) at 1 2 by lia.
  rewrite E1, E2. replace (b1 + 256 * b2 + 65536 * b3) with (b1 + 256 * (b2 + 256 * b3)) by lia.
  rewrite E3. replace (b0 + 256 * b1 + 65536 * b2 + 16777216 * b3)
    with (b0 + 256 * b1 + 65536 * (b2 + 256 * b3)) at 1 by lia.
  by rewrite E6, E7, E10.
Qed.

Lemma u32_swap_bytes (b0 b1 b2 b3 : Z) : Forall is_u8 [b0; b1; b2; b3] ->
  u32_swap (b0 + 256 * b1 + 65536 * b2 + 16777216 * b3) =
  b3 + 256 * b2 + 65536 * b1 + 16777216 * b0.
Proof.
  intros H. unfold u32_swap. destruct (u32_bytes_div b0 b1 b2 b3 H) as (-> & -> & -> & ->).
  change (2 ^ 24) with 16777216. change (2 ^ 16) with 65536. lia.
Qed.

Lemma u32_swap_range (x : Z) : is_u32 x -> is_u32 (u32_swap x).
Proof.
  intros (b0 & b1 & b2 & b3 & Hb & ->)%u32_bytes. rewrite u32_swap_bytes by done.
  repeat (apply Forall_cons in Hb as [? Hb]). unfold_words. lia.
Qed.

Lemma u32_swap_swap (x : Z) : is_u32 x -> u32_swap (u32_swap x) = x.
Proof.
  intros (b0 & b1 & b2 & b3 & Hb & ->)%u32_bytes. rewrite u32_swap_bytes by done.
  rewrite (u32_swap_bytes b3 b2 b1 b0); [done|].
  repeat (apply Forall_cons in Hb as [? Hb]). repeat (constructor; [assumption|]). constructor.
Qed.

Lemma le16_bytes (x : Z) : is_u16 x -> Forall is_u8 (le16 x).
Proof. intros. repeat constructor; word. Qed.

Lemma le32_bytes (x : Z) : is_u32 x -> Forall is_u8 (le32 x).
Proof. intros. repeat constructor; word. Qed.

Lemma le16_load (x : Z) : x mod 256 + 256 * (x / 256) = x.
Proof. Z.div_mod_to_equations; lia. Qed.

Lemma le32_load (x : Z) :
  x mod 256 + 256 * (x / 256 mod 256) + 2 ^ 16 * (x / 2 ^ 16 mod 256) + 2 ^ 24 * (x / 2 ^ 24) = x.
Proof.
  change (2 ^ 16) with (256 * 256). change (2 ^ 24) with (256 * 256 * 256).
  rewrite <- !Z.div_div by lia. Z.div_mod_to_equations; lia.
Qed.

(** A swapped word in memory is the big-endian form of the number. *)
Lemma le16_swap (x : Z) : is_u16 x -> le16 (u16_swap x) = be16 x.
Proof. intros. unfold le16, be16, u16_swap. repeat f_equal; word. Qed.

#[export] Hint Resolve u16_swap_range u32_swap_range le16_bytes le32_bytes : words.
#[export] Hint Rewrite le16_load le32_load u16_swap_swap u32_swap_swap : words.

(** Decoding what was encoded: the bytes are at constant positions, so only
    the words remain to be put together. *)
Ltac decode_header :=
  unfold load16, load32, HardwareAddress.load, Ipv4Address.load, byte_at;
  cbn -[Z.modulo Z.div Z.mul Z.add Z.pow]; rewrite ?le16_load, ?le32_load.

#[export, refine] Instance ethernet_laws : PacketHeaderLaws EthernetFrameHeader.t := {|
  header_wf h :=
    HardwareAddress.wf (EthernetFrameHeader.dest_mac h) /\
    HardwareAddress.wf (EthernetFrameHeader.src_mac h) /\
    is_u16 (EthernetFrameHeader.ethertype h)
|}.
Proof.
  - reflexivity.
  - intros h (? & ? & ?). repeat apply Forall_app_2; [assumption..|by apply le16_bytes].
  - intros [[] [] ?] rest _. cbn [as_u8_buffer of_u8_buffer EthernetFrameHeader.header]. by decode_header.
Defined.

#[export, refine] Instance arp_laws : PacketHeaderLaws ArpPacket.t := {|
  header_wf h :=
    is_u16 (ArpPacket.hardware_type h) /\ is_u16 (ArpPacket.protocol_type h) /\
    is_u8 (ArpPacket.hardware_addr_length h) /\ is_u8 (ArpPacket.protocol_addr_length h) /\
    is_u16 (ArpPacket.opcode h) /\
    HardwareAddress.wf (ArpPacket.source_hardware_addr h) /\
    Ipv4Address.wf (ArpPacket.source_protocol_addr h) /\
    HardwareAddress.wf (ArpPacket.dest_hardware_addr h) /\
    Ipv4Address.wf (ArpPacket.dest_protocol_addr h)
|}.
Proof.
  - reflexivity.
  - intros h (? & ? & ? & ? & ? & ? & ? & ? & ?).
    repeat first [apply Forall_app_2 | assumption | by apply le16_bytes | constructor].
  - intros [? ? ? ? ? [] [] [] []] rest _. cbn [as_u8_buffer of_u8_buffer ArpPacket.header]. by decode_header.
Defined.

(** ** The trait's own operations *)

Section Trait.
Context `{PacketHeaderLaws H}.
Implicit Types h : H.

Lemma try_from_as_u8_buffer h rest :
  header_wf h -> try_from_u8_buffer (as_u8_buffer h ++ rest) = Some h.
Proof.
  intros Hwf. unfold try_from_u8_buffer.
  rewrite length_app, as_u8_buffer_length.
  replace (get_size H + length rest <? get_size H)%nat with false
    by (symmetry; apply Nat.ltb_ge; lia).
  by rewrite of_as_u8_buffer.
Qed.

(** On a slice that ends with the space for the header, only that space
    changes. *)
Lemma copy_to_u8_buffer_ok h pre space :
  length space = get_size H ->
  copy_to_u8_buffer h (pre ++ space) = Some (pre ++ as_u8_buffer h, length pre).
Proof.
  intros Hs. unfold copy_to_u8_buffer. rewrite length_app, Hs, decide_True by lia.
  rewrite Nat.add_sub, copy_from_slice_ok by (rewrite length_app, as_u8_buffer_length; lia).
  cbn [mbind option_bind]. do 2 f_equal. apply list_eq. intros i.
  rewrite lookup_inserts by (rewrite length_app, as_u8_buffer_length; lia).
  rewrite as_u8_buffer_length. case_decide as Hi.
  - by rewrite lookup_app_r by lia.
  - destruct (decide (i < length pre)%nat).
    + by rewrite !lookup_app_l by lia.
    + rewrite !lookup_ge_None_2; [done|rewrite length_app, as_u8_buffer_length; lia|
        rewrite length_app; lia].
Qed.

Lemma copy_to_u8_buffer_too_small h buffer :
  (length buffer < get_size H)%nat -> copy_to_u8_buffer h buffer = None.
Proof. intros. unfold copy_to_u8_buffer. by rewrite decide_False by lia. Qed.
End Trait.

(** The words of two buffers, the first of even length. *)
Lemma words_le_app (n : nat) (a b : list Z) :
  length a = (2 * n)%nat -> words_le (a ++ b) = words_le a ++ words_le b.
Proof.
  revert a. induction n as [|n IH]; intros a Ha.
  - destruct a; [done|simpl in Ha; lia].
  - destruct a as [|x [|y a]]; simpl in Ha; try lia.
    cbn [words_le app]. by rewrite (IH a) by lia.
Qed.

(** ** ARP exchange *)

(** A reply to a request names the requester as its destination and is read
    back, on the wire, as a reply from [ip] at [mac]. *)
Lemma arp_exchange (src_mac mac : HardwareAddress.t) (src_ip ip : Ipv4Address.t) :
  HardwareAddress.wf mac -> HardwareAddress.wf src_mac ->
  Ipv4Address.wf src_ip -> Ipv4Address.wf ip ->
  exists reply, ArpPacket.respond_to (ArpPacket.request src_mac src_ip ip) mac ip = Some reply /\
    try_from_u8_buffer (as_u8_buffer reply) = Some reply /\
    ArpPacket.is_request reply = false /\
    ArpPacket.source_protocol_addr reply = ip /\ ArpPacket.source_hardware_addr reply = mac /\
    ArpPacket.dest_protocol_addr reply = src_ip /\ ArpPacket.dest_hardware_addr reply = src_mac.
Proof.
  intros. eexists. split; [done|]. split; [|done].
  rewrite <- (app_nil_r (as_u8_buffer _)). apply try_from_as_u8_buffer.
  cbn. repeat split; try done; unfold u16_swap; word.
Qed.
