(* ===== verification/Ipv4.v ===== *)
(** * IPv4

    [kernel/src/net/protocol/ipv4.rs] and [checksum.rs]: the parser of dotted
    addresses, the Internet checksum and the IPv4 header.  An index out of
    bounds is [None] of the panic monad. *)

From S2P Require Import Prelude NetPacket.

(** ** Parsing an address *)

Definition ch_dot : Z := 46.
Definition is_digit (b : Z) : bool := (48 <=? b) && (b <=? 57).

(** The [while] loop of [parse_octet] on the bytes from [index] on; [None] is
    its early return. *)
Fixpoint parse_digits (bytes : list Z) (value digit_count : Z) : option (Z * Z) :=
  match bytes with
  | b :: rest =>
      if is_digit b then
        let value := u16 (value * 10 + (b - 48)) in
        let digit_count := digit_count + 1 in
        if (3 <? digit_count) || (255 <? value) then None
        else parse_digits rest value digit_count
      else Some (value, digit_count)
  | [] => Some (value, digit_count)
  end.

Definition parse_octet (bytes : list Z) : option (option Z) :=
  first ← bytes !! 0%nat;
  let starts_with_zero := first =? 48 in
  match parse_digits bytes 0 0 with
  | None => Some None
  | Some (value, digit_count) =>
      if starts_with_zero && (1 <? digit_count) then Some None else Some (Some (u8 value))
  end.

(** The [for] loop of [parse_bytes], with [k] octets left. *)
Fixpoint parse_octets (k : nat) (bytes : list Z) (index : nat) (octets : list Z)
    : option (option (nat * list Z)) :=
  match k with
  | O => Some (Some (index, octets))
  | S k =>
      bytes_from ← (if decide (index <= length bytes)%nat then Some (drop index bytes) else None);
      r ← parse_octet bytes_from;
      match r with
      | None => Some None
      | Some octet =>
          let index := (index + 1)%nat in
          let index := if 9 <? octet then (index + 1)%nat else index in
          let index := if 99 <? octet then (index + 1)%nat else index in
          match k with
          | O => parse_octets k bytes index (octets ++ [octet])
          | S _ =>
              if (length bytes - 1 <=? index)%nat then Some None
              else
                b ← bytes !! index;
                if negb (b =? ch_dot) then Some None
                else parse_octets k bytes (index + 1)%nat (octets ++ [octet])
          end
      end
  end.

Definition parse_bytes (bytes : list Z) : option (option Ipv4Address.t) :=
  if (length bytes <? 7)%nat || (15 <? length bytes)%nat then Some None
  else
    r ← parse_octets 4 bytes 0 [];
    match r with
    | None => Some None
    | Some (index, octets) =>
        if negb (index =? length bytes)%nat then Some None
        else Some (Some (Ipv4Address.load octets 0))
    end.

(** [Display]: each octet in decimal. *)
Definition fmt_octet (o : Z) : list Z :=
  if o <? 10 then [48 + o]
  else if o <? 100 then [48 + o / 10; 48 + o mod 10]
  else [48 + o / 100; 48 + o / 10 mod 10; 48 + o mod 10].

Definition fmt_address (a : Ipv4Address.t) : list Z :=
  fmt_octet (Ipv4Address.a0 a) ++ [ch_dot] ++ fmt_octet (Ipv4Address.a1 a) ++ [ch_dot] ++
  fmt_octet (Ipv4Address.a2 a) ++ [ch_dot] ++ fmt_octet (Ipv4Address.a3 a).

(** ** The Internet checksum *)

Module Checksum.
Definition new : Z := 0.
Definition add_u16 (self value : Z) : Z := u32 (self + value).
Definition compute (self : Z) : Z :=
  let running_sum := self in
  let carry := running_sum ≫ 16 in
  let running_sum := running_sum .& 0xffff in
  let running_sum := u32 (running_sum + carry) in
  let running_sum :=
    if negb (running_sum .& 0xffff0000 =? 0) then u32 (running_sum + 1) else running_sum in
  u16 (bnot 32 running_sum).
End Checksum.

(** Adding every word of a buffer, in order. *)
Definition add_words (checksum : Z) (words : list Z) : Z := foldl Checksum.add_u16 checksum words.

Module IpChecksumHeader.
Record t := {
  source_ip : Ipv4Address.t;
  dest_ip : Ipv4Address.t;
  zeroes : Z;
  protocol : Z;
  udp_length : Z
}.

#[global] Instance header : PacketHeader t := {|
  get_size := 12;
  as_u8_buffer h :=
    Ipv4Address.octets (source_ip h) ++ Ipv4Address.octets (dest_ip h) ++
    [zeroes h; protocol h] ++ le16 (udp_length h);
  of_u8_buffer b :=
    {| source_ip := Ipv4Address.load b 0; dest_ip := Ipv4Address.load b 4;
       zeroes := byte_at b 8; protocol := byte_at b 9; udp_length := load16 b 10 |}
|}.
End IpChecksumHeader.

(** ** The IPv4 header *)

Inductive IpProtocolType := Icmp | Tcp | Udp.

Definition protocol_code (p : IpProtocolType) : Z :=
  match p with Icmp => 0x01 | Tcp => 0x06 | Udp => 0x11 end.

Module Ipv4Header.
(** The [protocol] field holds its byte: a received header may have any. *)
Record t := {
  version_header_len : Z;
  diff_services : Z;
  total_length : Z;
  identification : Z;
  fragment : Z;
  ttl : Z;
  protocol : Z;
  checksum : Z;
  source : Ipv4Address.t;
  dest : Ipv4Address.t
}.

#[global] Instance header : PacketHeader t := {|
  get_size := 20;
  as_u8_buffer h :=
    [version_header_len h; diff_services h] ++ le16 (total_length h) ++
    le16 (identification h) ++ le16 (fragment h) ++ [ttl h; protocol h] ++
    le16 (checksum h) ++ Ipv4Address.octets (source h) ++ Ipv4Address.octets (dest h);
  of_u8_buffer b :=
    {| version_header_len := byte_at b 0; diff_services := byte_at b 1;
       total_length := load16 b 2; identification := load16 b 4; fragment := load16 b 6;
       ttl := byte_at b 8; protocol := byte_at b 9; checksum := load16 b 10;
       source := Ipv4Address.load b 12; dest := Ipv4Address.load b 16 |}
|}.

Definition set_checksum (self : t) (c : Z) : t :=
  {| version_header_len := version_header_len self; diff_services := diff_services self;
     total_length := total_length self; identification := identification self;
     fragment := fragment self; ttl := ttl self; protocol := protocol self;
     checksum := c; source := source self; dest := dest self |}.

Definition compute_checksum (self : t) : option Z :=
  slice ← try_as_u16_buffer self;
  Some (Checksum.compute (add_words Checksum.new slice)).

Definition new (source dest : Ipv4Address.t) (content_len ttl : Z) (protocol : IpProtocolType) : option t :=
  let header :=
    {| version_header_len := 0x45; diff_services := 0;
       total_length := u16_swap (u16 (20 + content_len)); identification := 0; fragment := 0;
       ttl := ttl; protocol := protocol_code protocol; checksum := 0;
       source := source; dest := dest |} in
  checksum ← compute_checksum header;
  Some (set_checksum header checksum).

Definition new_udp (source dest : Ipv4Address.t) (content_len ttl : Z) : option t :=
  new source dest content_len ttl Udp.
Definition new_tcp (source dest : Ipv4Address.t) (content_len ttl : Z) : option t :=
  new source dest content_len ttl Tcp.
End Ipv4Header.

#[export, refine] Instance ipv4_laws : PacketHeaderLaws Ipv4Header.t := {|
  header_wf h :=
    is_u8 (Ipv4Header.version_header_len h) /\ is_u8 (Ipv4Header.diff_services h) /\
    is_u16 (Ipv4Header.total_length h) /\ is_u16 (Ipv4Header.identification h) /\
    is_u16 (Ipv4Header.fragment h) /\ is_u8 (Ipv4Header.ttl h) /\ is_u8 (Ipv4Header.protocol h) /\
    is_u16 (Ipv4Header.checksum h) /\ Ipv4Address.wf (Ipv4Header.source h) /\
    Ipv4Address.wf (Ipv4Header.dest h)
|}.
Proof.
  - reflexivity.
  - intros h (? & ? & ? & ? & ? & ? & ? & ? & ? & ?).
    repeat first [apply Forall_app_2 | assumption | by apply le16_bytes | constructor].
  - intros [? ? ? ? ? ? ? ? [] []] rest _. cbn [as_u8_buffer of_u8_buffer Ipv4Header.header].
    by decode_header.
Defined.

#[export, refine] Instance checksum_header_laws : PacketHeaderLaws IpChecksumHeader.t := {|
  header_wf h :=
    Ipv4Address.wf (IpChecksumHeader.source_ip h) /\ Ipv4Address.wf (IpChecksumHeader.dest_ip h) /\
    is_u8 (IpChecksumHeader.zeroes h) /\ is_u8 (IpChecksumHeader.protocol h) /\
    is_u16 (IpChecksumHeader.udp_length h)
|}.
Proof.
  - reflexivity.
  - intros h (? & ? & ? & ? & ?).
    repeat first [apply Forall_app_2 | assumption | by apply le16_bytes | constructor].
  - intros [[] [] ? ? ?] rest _. cbn [as_u8_buffer of_u8_buffer IpChecksumHeader.header].
    by decode_header.
Defined.

(** ** Reference definitions

    The one's complement sum of RFC 1071, over the 16-bit words of the
    message in network byte order. *)

Definition ones_add (a b : Z) : Z := if 65535 <? a + b then a + b - 65535 else a + b.
Definition ones_sum (words : list Z) : Z := foldr ones_add 0 words.

Fixpoint words_be (b : list Z) : list Z :=
  match b with
  | x :: y :: rest => (256 * x + y) :: words_be rest
  | [x] => [256 * x]
  | [] => []
  end.

(** A receiver accepts a message, its checksum field included, when the sum of
    its words is all ones. *)
Definition rfc1071_valid (bytes : list Z) : bool := ones_sum (words_be bytes) =? 0xffff.

(** The strings [parse_bytes] accepts for an octet: its decimal form, and any
    single byte that is not a digit, for zero. *)
Definition octet_field (f : list Z) (o : Z) : Prop :=
  (is_u8 o /\ f = fmt_octet o) \/ (o = 0 /\ exists c, f = [c] /\ is_digit c = false).

Definition accepted (bytes : list Z) (a : Ipv4Address.t) : Prop :=
  exists f0 f1 f2 f3,
    bytes = f0 ++ [ch_dot] ++ f1 ++ [ch_dot] ++ f2 ++ [ch_dot] ++ f3 /\
    octet_field f0 (Ipv4Address.a0 a) /\ octet_field f1 (Ipv4Address.a1 a) /\
    octet_field f2 (Ipv4Address.a2 a) /\ octet_field f3 (Ipv4Address.a3 a).

(** ** Checksums verify *)

Definition sum (l : list Z) : Z := foldr Z.add 0 l.

Lemma sum_app (a b : list Z) : sum (a ++ b) = sum a + sum b.
Proof. induction a; simpl; [done|]. unfold sum in *. lia. Qed.

Lemma sum_nonneg (l : list Z) : Forall (fun x => 0 <= x) l -> 0 <= sum l.
Proof. induction 1; simpl; [done|]. unfold sum in *. lia. Qed.

Lemma sum_bound (l : list Z) : Forall is_u16 l -> 0 <= sum l <= 65535 * Z.of_nat (length l).
Proof. induction 1; simpl; [done|]. unfold sum in *. word. Qed.

(** The one's complement sum is the sum modulo 65535, with all ones for a
    nonzero multiple. *)
Lemma ones_sum_mod (l : list Z) : Forall is_u16 l ->
  ones_sum l = if sum l =? 0 then 0 else (sum l - 1) mod 65535 + 1.
Proof.
  induction 1 as [|a l Ha Hl IH]; [done|].
  change (ones_add a (ones_sum l) = if a + sum l =? 0 then 0 else (a + sum l - 1) mod 65535 + 1).
  pose proof (proj1 (sum_bound l Hl)). rewrite IH. unfold ones_add, is_u16 in *.
  change (2 ^ 16) with 65536 in *.
  destruct (Z.eqb_spec (sum l) 0) as [->|].
  - rewrite !Z.add_0_r. destruct (Z.eqb_spec a 0); [by subst|].
    destruct (Z.ltb_spec 65535 a); [lia|]. rewrite Z.mod_small; lia.
  - destruct (Z.eqb_spec (a + sum l) 0); [lia|].
    set (r := (sum l - 1) mod 65535). assert (0 <= r < 65535) by (apply Z.mod_pos_bound; lia).
    replace (a + sum l - 1) with (a + (sum l - 1)) by lia.
    rewrite <- Zplus_mod_idemp_r. fold r.
    destruct (Z.ltb_spec 65535 (a + (r + 1))).
    + replace (a + r) with (a + r - 65535 + 1 * 65535) by lia.
      rewrite Z.mod_add, Z.mod_small by lia. lia.
    + rewrite Z.mod_small; lia.
Qed.

Lemma words_le_u16 (b : list Z) : Forall is_u8 b -> Forall is_u16 (words_le b).
Proof.
  revert b. fix IH 1. intros [|x [|y b]] H; [constructor|..].
  - apply Forall_cons in H as [? _]. repeat constructor; word.
  - apply Forall_cons in H as [? [? H]%Forall_cons]. constructor; [word|by apply IH].
Qed.

(** Reading the words in the other byte order multiplies the sum by 256,
    modulo 65535. *)
Lemma words_be_sum (b : list Z) : Forall is_u8 b ->
  Forall is_u16 (words_be b) /\
  (exists k, sum (words_be b) = 256 * sum (words_le b) - 65535 * k) /\
  sum (words_le b) <= 256 * sum (words_be b).
Proof.
  revert b. fix IH 1. intros [|x [|y b]] H.
  - repeat split; [constructor|by exists 0|done].
  - apply Forall_cons in H as [? _]. cbn. repeat split; [|exists 0; lia|word].
    repeat constructor; word.
  - apply Forall_cons in H as [? [? H]%Forall_cons]. destruct (IH b H) as (Hr & [k Hk] & Hle).
    change (words_be (x :: y :: b)) with ((256 * x + y) :: words_be b).
    change (words_le (x :: y :: b)) with ((x + 256 * y) :: words_le b).
    unfold sum in *. cbn [foldr]. repeat split.
    + constructor; [word|done].
    + exists (k + y). lia.
    + word.
Qed.

Lemma rfc1071_of_sum (b : list Z) : Forall is_u8 b ->
  0 < sum (words_le b) -> sum (words_le b) mod 65535 = 0 -> rfc1071_valid b = true.
Proof.
  intros Hb Hpos Hmod. destruct (words_be_sum b Hb) as (Hr & [k Hk] & Hle).
  unfold rfc1071_valid. rewrite ones_sum_mod by done. apply Z.eqb_eq.
  pose proof (proj1 (sum_bound _ Hr)).
  destruct (Z.eqb_spec (sum (words_be b)) 0); [lia|].
  apply Z.mod_divide in Hmod as [j Hj]; [|lia].
  replace (sum (words_be b) - 1) with (65534 + (256 * j - k - 1) * 65535) by lia.
  rewrite Z.mod_add by lia. reflexivity.
Qed.

Lemma add_words_sum (l : list Z) (c : Z) :
  0 <= c -> Forall is_u16 l -> c + sum l < 2 ^ 32 -> add_words c l = c + sum l.
Proof.
  intros Hc Hl. revert c Hc. induction Hl as [|x l Hx Hl IH]; intros c Hc Hs.
  - unfold sum. simpl. lia.
  - pose proof (proj1 (sum_bound l Hl)). unfold sum in Hs. simpl in Hs. fold (sum l) in Hs.
    change (add_words (Checksum.add_u16 c x) l = c + (x + sum l)).
    unfold Checksum.add_u16, u32. rewrite Z.mod_small by word. rewrite IH; word.
Qed.

(** [compute] in arithmetic: the folded sum, with its carry, inverted. *)
Lemma compute_eq (q r : Z) : 0 <= q < 65536 -> 0 <= r < 65536 ->
  Checksum.compute (65536 * q + r) =
    if r + q <? 65536 then 65535 - (r + q) else 65535 - (r + q - 65535).
Proof.
  intros Hq Hr. unfold Checksum.compute. rewrite land_ffff, shiftr_div by lia.
  change (2 ^ 16) with 65536. replace (65536 * q + r) with (r + q * 65536) by lia.
  rewrite Z.div_add, Z.mod_add, Z.div_small, Z.mod_small, Z.add_0_l by lia.
  replace (u32 (r + q)) with (r + q) by (symmetry; apply Z.mod_small; word).
  change 0xffff0000 with (2 ^ 32 - 2 ^ 16). rewrite (land_high_mask 32 16) by word.
  assert (Hc : forall t, 0 <= t < 131072 -> u16 (bnot 32 t) = 65535 - t mod 65536) by (intros; word).
  change (2 ^ 16) with 65536. destruct (Z.ltb_spec (r + q) 65536).
  - rewrite (Z.mod_small (r + q)), Z.sub_diag by lia. cbn [Z.eqb negb].
    by rewrite Hc, (Z.mod_small (r + q)) by lia.
  - replace ((r + q) mod 65536) with (r + q - 65536) by (apply (Z.mod_unique_pos _ _ 1); lia).
    destruct (Z.eqb_spec (r + q - (r + q - 65536)) 0); [lia|]. cbn [negb].
    replace (u32 (r + q + 1)) with (r + q + 1) by (symmetry; apply Z.mod_small; word).
    rewrite Hc by lia. f_equal. symmetry. apply (Z.mod_unique_pos _ _ 1); lia.
Qed.

(** [compute] is the 16-bit number that makes the whole sum a nonzero multiple
    of 65535. *)
Lemma compute_complement (s : Z) : is_u32 s ->
  is_u16 (Checksum.compute s) /\ (s + Checksum.compute s) mod 65535 = 0 /\
  0 < s + Checksum.compute s.
Proof.
  intros Hs. assert (exists q r, 0 <= q < 65536 /\ 0 <= r < 65536 /\ s = 65536 * q + r)
    as (q & r & Hq & Hr & ->) by (exists (s / 65536), (s mod 65536); word).
  rewrite compute_eq by done. unfold is_u16. change (2 ^ 16) with 65536.
  destruct (Z.ltb_spec (r + q) 65536).
  - replace (65536 * q + r + (65535 - (r + q))) with ((q + 1) * 65535) by lia.
    rewrite Z.mod_mul by lia. lia.
  - replace (65536 * q + r + (65535 - (r + q - 65535))) with ((q + 2) * 65535) by lia.
    rewrite Z.mod_mul by lia. lia.
Qed.

(** A message whose words, but for a checksum word [c], sum to [s] is valid
    when [c] is the checksum computed of [s]. *)
Lemma checksum_valid (bytes : list Z) (s : Z) :
  Forall is_u8 bytes -> is_u32 s ->
  sum (words_le bytes) = s + Checksum.compute s -> rfc1071_valid bytes = true.
Proof.
  intros Hb Hs Hsum. destruct (compute_complement s Hs) as (_ & Hm & Hp).
  apply rfc1071_of_sum; [done|by rewrite Hsum..].
Qed.

(** The header built by [Ipv4Header::new]. *)
Lemma ipv4_new_ok (source dest : Ipv4Address.t) (content_len ttl : Z) (p : IpProtocolType) :
  Ipv4Address.wf source -> Ipv4Address.wf dest -> is_u8 ttl ->
  0 <= content_len <= 65515 ->
  exists h, Ipv4Header.new source dest content_len ttl p = Some h /\ header_wf h /\
    rfc1071_valid (as_u8_buffer h) = true /\
    u16_swap (Ipv4Header.total_length h) = 20 + content_len /\
    Ipv4Header.protocol h = protocol_code p /\
    Ipv4Header.source h = source /\ Ipv4Header.dest h = dest.
Proof.
  intros Hs Hd Ht Hc. unfold Ipv4Header.new, Ipv4Header.compute_checksum, try_as_u16_buffer.
  set (h0 := Ipv4Header.Build_t _ _ _ _ _ _ _ _ _ _).
  cbn [get_size Ipv4Header.header Nat.modulo Nat.divmod snd Nat.sub Nat.eqb mbind option_bind].
  assert (Hlen : is_u16 (u16 (20 + content_len))) by word.
  assert (Hw0 : header_wf h0).
  { unfold header_wf, ipv4_laws. pose proof (u16_swap_range _ Hlen).
    split_and!; try done; subst h0; destruct p; simpl; word. }
  pose proof (words_le_u16 _ (as_u8_buffer_bytes _ Hw0)) as H16.
  pose proof (sum_bound _ H16) as Hb. change (length (words_le _)) with 10%nat in Hb.
  rewrite add_words_sum by (try done; change Checksum.new with 0; change (2 ^ 32) with 4294967296; lia).
  change (Checksum.new + ?x) with x. set (s := sum (words_le (as_u8_buffer h0))) in *.
  assert (Hs32 : is_u32 s) by (unfold is_u32; change (2 ^ 32) with 4294967296; lia).
  destruct (compute_complement s Hs32) as (Hck & _).
  eexists. split; [done|]. split.
  { cbn in *. tauto. }
  split.
  { apply (checksum_valid _ s); [apply as_u8_buffer_bytes; cbn in *; tauto|done|].
    subst s. unfold sum. cbn -[Z.modulo Z.div Z.mul Z.add Checksum.compute u16_swap u16].
    rewrite !le16_load. change (0 mod 256 + 256 * (0 / 256)) with 0. lia. }
  split; [|done]. cbn. rewrite u16_swap_swap by done. word.
Qed.

(** ** The address parser *)

Lemma is_digit_spec (b : Z) : is_digit b = true <-> 48 <= b <= 57.
Proof. unfold is_digit. rewrite andb_true_iff, !Z.leb_le. lia. Qed.

Lemma is_digit_no (b : Z) : is_digit b = false <-> ~ 48 <= b <= 57.
Proof. rewrite <- is_digit_spec. by destruct (is_digit b). Qed.

Definition octet_width (o : Z) : nat :=
  (1 + (if (9 <? o)%Z then 1 else 0) + (if (99 <? o)%Z then 1 else 0))%nat.

Lemma octet_field_width (f : list Z) (o : Z) : octet_field f o -> length f = octet_width o.
Proof.
  intros [[Ho ->]|[-> [c [-> _]]]]; [|done].
  unfold fmt_octet, octet_width, is_u8 in *. repeat (case_test; try lia; try done).
Qed.

Lemma octet_field_nonempty (f : list Z) (o : Z) : octet_field f o -> f <> [].
Proof. intros H%octet_field_width ->. unfold octet_width in H. simpl in H. lia. Qed.

(** One, two and three digits. *)
Lemma parse_digits_step (b : Z) (rest : list Z) (v n : Z) :
  is_digit b = true -> 0 <= v <= 255 ->
  parse_digits (b :: rest) v n =
    if (3 <? n + 1) || (255 <? v * 10 + (b - 48)) then None
    else parse_digits rest (v * 10 + (b - 48)) (n + 1).
Proof.
  intros Hb Hv. cbn [parse_digits]. rewrite Hb. apply is_digit_spec in Hb.
  replace (u16 (v * 10 + (b - 48))) with (v * 10 + (b - 48)); [done|].
  symmetry. apply Z.mod_small. word.
Qed.

Definition no_digit_first (rest : list Z) : Prop :=
  match rest with [] => True | b :: _ => is_digit b = false end.

Lemma parse_digits_stop (rest : list Z) (v n : Z) :
  no_digit_first rest -> parse_digits rest v n = Some (v, n).
Proof. destruct rest; [done|]. intros H. simpl in *. by rewrite H. Qed.

Lemma parse_octet_ok (f rest : list Z) (o : Z) :
  octet_field f o -> no_digit_first rest -> parse_octet (f ++ rest) = Some (Some o).
Proof.
  intros [[Ho ->]|[-> [c [-> Hc]]]] Hrest.
  - assert (E : exists d fs, fmt_octet o = d :: fs /\ (fs <> [] -> d <> 48) /\
       parse_digits (fmt_octet o ++ rest) 0 0 = Some (o, Z.of_nat (length (fmt_octet o)))).
    { unfold fmt_octet, is_u8 in *. change (2 ^ 8) with 256 in *.
      repeat (case_test; try lia); (eexists _, _; split; [done|split; [try done; Z.div_mod_to_equations; lia|]]);
        cbn [app length]; 
        repeat (rewrite parse_digits_step by (try apply is_digit_spec; Z.div_mod_to_equations; lia);
          match goal with |- context [if ?b then _ else _] =>
            replace b with false by (symmetry; apply orb_false_iff; split; apply Z.ltb_ge;
              Z.div_mod_to_equations; lia) end);
        rewrite parse_digits_stop by done; do 2 f_equal; Z.div_mod_to_equations; lia. }
    destruct E as (d & fs & Ef & Hz & Hp). unfold parse_octet. rewrite Hp, Ef.
    cbn [app lookup list_lookup mbind option_bind length].
    destruct ((d =? 48) && (1 <? Z.of_nat (S (length fs)))) eqn:Eb.
    + bool_facts. destruct fs; simpl in *; [lia|]. by destruct Hz.
    + do 2 f_equal. apply Z.mod_small, Ho.
  - unfold parse_octet. cbn [app lookup list_lookup mbind option_bind parse_digits].
    rewrite Hc. destruct (c =? 48) eqn:E; [|done]. bool_facts. by subst.
Qed.

Lemma fmt_octet_digits (x y z : Z) : 0 <= y < 10 -> 0 <= z < 10 ->
  (0 <= x < 10 -> fmt_octet x = [48 + x]) /\
  (1 <= x < 10 -> fmt_octet (x * 10 + y) = [48 + x; 48 + y]) /\
  (1 <= x < 10 -> fmt_octet ((x * 10 + y) * 10 + z) = [48 + x; 48 + y; 48 + z]).
Proof.
  intros Hy Hz. unfold fmt_octet.
  split_and!; intros Hx; repeat (case_test; try lia); try done; repeat f_equal;
    Z.div_mod_to_equations; lia.
Qed.

Lemma parse_digits_inv (bytes : list Z) (v0 n0 v n : Z) :
  parse_digits bytes v0 n0 = Some (v, n) -> 0 <= v0 <= 255 -> n0 <= 3 ->
  exists ds rest, bytes = ((fun d => 48 + d) <$> ds) ++ rest /\
    Forall (fun d => 0 <= d < 10) ds /\ n = n0 + Z.of_nat (length ds) /\ n <= 3 /\
    v = foldl (fun v d => v * 10 + d) v0 ds /\ 0 <= v <= 255 /\
    (ds = [] -> no_digit_first bytes).
Proof.
  revert v0 n0. induction bytes as [|b bytes IH]; intros v0 n0 Hp Hv Hn.
  { injection Hp as <- <-. exists [], []. simpl. split_and!; (done || lia). }
  destruct (is_digit b) eqn:Eb.
  2:{ rewrite parse_digits_stop in Hp by done. injection Hp as <- <-.
      exists [], (b :: bytes). simpl. split_and!; (done || lia). }
  rewrite parse_digits_step in Hp by done. apply is_digit_spec in Eb.
  destruct (_ || _) eqn:Et; [done|]. bool_facts.
  destruct (IH _ _ Hp) as (ds & rest & -> & Hds & -> & Hn3 & -> & Hr & _); [lia..|].
  exists ((b - 48) :: ds), rest. simpl. split_and!; try done; try lia.
  - f_equal. lia.
  - constructor; [lia|done].
Qed.

Lemma parse_octet_inv (bytes : list Z) (r : option Z) :
  parse_octet bytes = Some r ->
    forall o, r = Some o -> exists f rest, bytes = f ++ rest /\ octet_field f o.
Proof.
  unfold parse_octet. destruct bytes as [|b bytes]; [done|]. cbn [lookup list_lookup mbind option_bind].
  destruct (parse_digits _ 0 0) as [[v n]|] eqn:Hp; [|by intros [= <-]].
  destruct (_ && _) eqn:Ez; [by intros [= <-]|]. intros [= <-] o [= <-].
  apply parse_digits_inv in Hp as (ds & rest & Hb & Hds & -> & Hn & -> & Hv & Hz); [|lia..].
  replace (u8 (foldl (fun v d => v * 10 + d) 0 ds)) with (foldl (fun v d => v * 10 + d) 0 ds)
    by (symmetry; apply Z.mod_small; word).
  destruct ds as [|x ds].
  { exists [b], bytes. split; [done|right]. split; [done|]. exists b. split; [done|]. by apply Hz. }
  exists ((fun d => 48 + d) <$> x :: ds), rest. split; [done|left]. split; [word|]. clear Hz.
  injection Hb as -> _. apply Forall_cons in Hds as [Hx Hds].
  apply andb_false_iff in Ez.
  destruct ds as [|y ds]; [|apply Forall_cons in Hds as [Hy Hds]; destruct ds as [|z ds]].
  - cbn [foldl fmap list_fmap]. change (0 * 10 + x) with x. by rewrite (proj1 (fmt_octet_digits x 0 0 ltac:(lia) ltac:(lia))).
  - simpl in *. change (0 * 10 + x) with x. destruct Ez as [Ez|Ez]; bool_facts; [|lia].
    by rewrite (proj1 (proj2 (fmt_octet_digits x y 0 Hy ltac:(lia)))) by lia.
  - apply Forall_cons in Hds as [Hw Hds]. destruct ds; [|simpl in Hn; lia].
    simpl in *. change (0 * 10 + x) with x. destruct Ez as [Ez|Ez]; bool_facts; [|lia].
    by rewrite (proj2 (proj2 (fmt_octet_digits x y z Hy Hw))) by lia.
Qed.

Lemma parse_octet_total (bytes : list Z) : bytes <> [] -> is_Some (parse_octet bytes).
Proof.
  destruct bytes; [done|intros _]. unfold parse_octet. cbn [lookup list_lookup mbind option_bind].
  destruct (parse_digits _ _ _) as [[]|]; [case_test|]; eauto.
Qed.

(** The index after an octet is the end of its field. *)
Lemma index_after (index : nat) (o : Z) :
  (if 99 <? o then ((if (9 <? o)%Z then (index + 1 + 1)%nat else (index + 1)%nat) + 1)%nat
   else if 9 <? o then (index + 1 + 1)%nat else (index + 1)%nat) = (index + octet_width o)%nat.
Proof. unfold octet_width. destruct (9 <? o), (99 <? o); lia. Qed.

(** The loop never panics, and a successful run has cut the rest of the
    buffer into fields and separators. *)
Fixpoint fields (fs : list (list Z)) : list Z :=
  match fs with
  | [] => []
  | [f] => f
  | f :: fs => f ++ [ch_dot] ++ fields fs
  end.

Lemma parse_octets_inv (k : nat) (bytes pre suf : list Z) (acc : list Z) :
  bytes = pre ++ suf -> (k <> 0%nat -> suf <> []) ->
  exists r, parse_octets k bytes (length pre) acc = Some r /\
    forall i os, r = Some (i, os) -> exists fs os' rest,
      suf = fields fs ++ rest /\ os = acc ++ os' /\ length fs = k /\
      Forall2 octet_field fs os' /\ i = (length pre + length (fields fs))%nat.
Proof.
  revert pre suf acc. induction k as [|k IH]; intros pre suf acc -> Hne.
  { eexists. split; [done|]. intros i os [= <- <-]. exists [], [], suf.
    rewrite app_nil_r. repeat split; [constructor|simpl; lia]. }
  cbn [parse_octets]. rewrite length_app, decide_True, drop_app_length by lia. cbn [mbind option_bind].
  destruct (parse_octet_total suf (Hne ltac:(lia))) as [r Hr]. rewrite Hr. cbn [mbind option_bind].
  destruct r as [o|]; [|by eexists].
  destruct (parse_octet_inv _ _ Hr o eq_refl) as (f & rest & -> & Hf).
  rewrite index_after, <- (octet_field_width f o Hf).
  destruct k as [|k].
  { eexists. split; [done|]. intros i os [= <- <-]. exists [f], [o], rest. simpl.
    repeat split. constructor; [done|constructor]. }
  rewrite !length_app. destruct (Nat.leb_spec (length pre + (length f + length rest) - 1) (length pre + length f)).
  { by eexists. }
  destruct rest as [|b rest]; [simpl in *; lia|].
  rewrite (app_assoc pre f), lookup_app_r, length_app, Nat.sub_diag by (rewrite length_app; lia).
  cbn [lookup list_lookup mbind option_bind].
  destruct (Z.eqb_spec b ch_dot) as [->|]; [|by eexists]. cbn [negb].
  destruct (IH ((pre ++ f) ++ [ch_dot]) rest (acc ++ [o])) as (r & Hr' & Hspec).
  { by rewrite <- !app_assoc. }
  { intros _ ->. simpl in *. lia. }
  rewrite !length_app in Hr'. simpl in Hr'. exists r. split.
  { rewrite <- Hr'. f_equal. by rewrite <- !app_assoc. }
  intros i os Hi. destruct (Hspec i os Hi) as (fs & os' & rest' & -> & -> & Hlen & HF & ->).
  exists (f :: fs), (o :: os'), rest'. destruct fs as [|f' fs]; [simpl in Hlen; lia|].
  cbn [fields]. repeat split.
  - by rewrite <- !app_assoc.
  - by rewrite <- app_assoc.
  - simpl in *. lia.
  - by constructor.
  - rewrite !length_app. simpl. lia.
Qed.

Lemma parse_octets_ok (fs : list (list Z)) (os bytes pre acc : list Z) :
  Forall2 octet_field fs os -> bytes = pre ++ fields fs ->
  (fs <> [] -> parse_octets (length fs) bytes (length pre) acc = Some (Some (length bytes, acc ++ os))).
Proof.
  intros HF. revert pre acc. induction HF as [|f o fs os Hf HF IH]; intros pre acc -> Hne; [done|].
  cbn [length parse_octets]. rewrite length_app, decide_True, drop_app_length by lia.
  cbn [mbind option_bind]. destruct fs as [|f' fs].
  - apply Forall2_nil_inv_l in HF as ->. cbn [fields].
    pose proof (parse_octet_ok f [] o Hf I) as Hp. rewrite app_nil_r in Hp. rewrite Hp.
    cbn [mbind option_bind].
    rewrite index_after, <- (octet_field_width f o Hf). cbn [length parse_octets]. done.
  - assert (Hne' : (0 < length (fields (f' :: fs)))%nat).
    { apply Forall2_cons_inv_l in HF as (o' & os' & Hf' & _ & ->).
      pose proof (octet_field_nonempty f' o' Hf'). destruct f'; [done|]. destruct fs; simpl; lia. }
    change (fields (f :: f' :: fs)) with (f ++ [ch_dot] ++ fields (f' :: fs)).
    rewrite (parse_octet_ok f _ o) by done. cbn [mbind option_bind].
    rewrite index_after, <- (octet_field_width f o Hf). cbn [length]. set (tail := fields (f' :: fs)) in Hne' |- *.
    rewrite !length_app. destruct (Nat.leb_spec (length pre + (length f + (length [ch_dot] + length tail)) - 1)
      (length pre + length f)) as [Hle|_]; [change (length [ch_dot]) with 1%nat in Hle; lia|].
    rewrite lookup_app_r, Nat.add_sub_swap, Nat.sub_diag by lia.
    rewrite lookup_app_r, Nat.add_0_l, Nat.sub_diag by lia.
    cbn [lookup list_lookup mbind option_bind app]. rewrite Z.eqb_refl. cbn [negb].
    specialize (IH (pre ++ f ++ [ch_dot]) (acc ++ [o])).
    replace (length (pre ++ f ++ [ch_dot])) with (length pre + length f + 1)%nat in IH
      by (rewrite !length_app; simpl; lia).
    change (S (length fs)) with (length (f' :: fs)).
    change (pre ++ f ++ ch_dot :: tail) with (pre ++ fields (f :: f' :: fs)).
    rewrite IH; [|by rewrite <- !app_assoc|done]. rewrite <- app_assoc. do 4 f_equal.
    change (fields (f :: f' :: fs)) with (f ++ [ch_dot] ++ tail). by rewrite !length_app.
Qed.

Lemma fields_4 (f0 f1 f2 f3 : list Z) :
  fields [f0; f1; f2; f3] = f0 ++ [ch_dot] ++ f1 ++ [ch_dot] ++ f2 ++ [ch_dot] ++ f3.
Proof. done. Qed.

Lemma octet_width_bounds (o : Z) : (1 <= octet_width o <= 3)%nat.
Proof. unfold octet_width. destruct (9 <? o), (99 <? o); lia. Qed.

Lemma parse_bytes_spec (bytes : list Z) :
  exists r, parse_bytes bytes = Some r /\ forall a, r = Some a <-> accepted bytes a.
Proof.
  unfold parse_bytes.
  assert (Hlen : forall a, accepted bytes a -> (7 <= length bytes <= 15)%nat).
  { intros a (f0 & f1 & f2 & f3 & -> & H0%octet_field_width & H1%octet_field_width &
      H2%octet_field_width & H3%octet_field_width).
    rewrite !length_app, H0, H1, H2, H3. cbn [length].
    pose proof (fun o => octet_width_bounds o) as Hw.
    pose proof (Hw (Ipv4Address.a0 a)). pose proof (Hw (Ipv4Address.a1 a)).
    pose proof (Hw (Ipv4Address.a2 a)). pose proof (Hw (Ipv4Address.a3 a)). lia. }
  destruct (_ || _) eqn:E.
  { exists None. split; [done|]. intros a. split; [done|]. intros Ha%Hlen.
    apply orb_true_iff in E as [E%Nat.ltb_lt|E%Nat.ltb_lt]; lia. }
  apply orb_false_iff in E as [E%Nat.ltb_ge _].
  destruct (parse_octets_inv 4 bytes [] bytes []) as (r & Hr & Hinv);
    [done|intros _ ->; simpl in E; lia|].
  simpl length in Hr. rewrite Hr. cbn [mbind option_bind]. eexists. split.
  { instantiate (1 := match r with None => None | Some (i, os) =>
      if negb (i =? length bytes)%nat then None else Some (Ipv4Address.load os 0) end).
    destruct r as [[i os]|]; [|done]. by destruct (negb _). }
  intros a. split.
  - destruct r as [[i os]|]; [|done]. destruct (Nat.eqb_spec i (length bytes)) as [->|]; [|done].
    cbn [negb]. intros [= <-].
    destruct (Hinv _ _ eq_refl) as (fs & os' & rest & Hb & -> & Hk & HF & Hi).
    destruct fs as [|f0 [|f1 [|f2 [|f3 []]]]]; try done.
    repeat match goal with H : Forall2 _ (_ :: _) _ |- _ =>
      apply Forall2_cons_inv_l in H as (? & ? & ? & H & ->) end.
    apply Forall2_nil_inv_l in HF as ->. exists f0, f1, f2, f3. split_and!; try done.
    rewrite <- fields_4. rewrite Hb at 1. rewrite Hb, length_app in Hi. simpl in Hi.
    destruct rest; [by rewrite app_nil_r|simpl in Hi; lia].
  - intros (f0 & f1 & f2 & f3 & Hb & H0 & H1 & H2 & H3). rewrite <- fields_4 in Hb.
    pose proof (parse_octets_ok [f0; f1; f2; f3] (Ipv4Address.octets a) bytes [] []) as Hok.
    assert (HF : Forall2 octet_field [f0; f1; f2; f3] (Ipv4Address.octets a))
      by (repeat (constructor; [done|]); constructor).
    specialize (Hok HF Hb ltac:(done)). simpl length in Hok. rewrite Hr in Hok. injection Hok as ->.
    rewrite Nat.eqb_refl. by destruct a.
Qed.

(** What [Display] prints is parsed back. *)
Lemma parse_fmt_address (a : Ipv4Address.t) :
  Ipv4Address.wf a -> parse_bytes (fmt_address a) = Some (Some a).
Proof.
  intros Ha. destruct (parse_bytes_spec (fmt_address a)) as (r & Hr & Hacc).
  rewrite Hr. f_equal. apply Hacc. destruct a as [x y z w].
  repeat (apply Forall_cons in Ha as [? Ha]).
  exists (fmt_octet x), (fmt_octet y), (fmt_octet z), (fmt_octet w).
  split; [done|]. split_and!; by left.
Qed.

(** [Ipv4Address::parse_bytes] never panics, and accepts exactly four
    fields separated by dots, each the decimal form of its octet without a
    leading zero or any single byte that is not a digit, which it reads as
    zero; so every address that [Display] prints is parsed back. *)
Theorem parse_bytes_accepts (bytes : list Z) (a : Ipv4Address.t) :
  (exists r, parse_bytes bytes = Some r /\ (r = Some a <-> accepted bytes a)) /\
  (Ipv4Address.wf a -> parse_bytes (fmt_address a) = Some (Some a)).
Proof.
  split; [|apply parse_fmt_address].
  destruct (parse_bytes_spec bytes) as (r & Hr & Ha). eauto.
Qed.
