(* ===== verification/NetTransport.v ===== *)
(** * UDP datagrams and TCP packets

    [kernel/src/net/protocol/udp.rs] and [tcp/header.rs]: the transport
    headers, their checksums over the pseudo header, and [create_datagram] and
    [create_packet], which lay out the IPv4 header, the transport header and
    the data in one buffer. *)

From S2P Require Import Prelude NetPacket Ipv4.

(** ** UDP *)

Module UdpHeader.
Record t := {
  source_port : Z;
  dest_port : Z;
  length : Z;
  checksum : Z
}.

#[global] Instance header : PacketHeader t := {|
  get_size := 8;
  as_u8_buffer h :=
    le16 (source_port h) ++ le16 (dest_port h) ++ le16 (length h) ++ le16 (checksum h);
  of_u8_buffer b :=
    {| source_port := load16 b 0; dest_port := load16 b 2; length := load16 b 4;
       checksum := load16 b 6 |}
|}.

Definition new (source_port dest_port : Z) (data_size : nat) : t :=
  let length := u16 (8 + Z.of_nat data_size) in
  let checksum := 0 in
  {| source_port := u16_swap source_port; dest_port := u16_swap dest_port;
     length := u16_swap length; checksum := u16_swap checksum |}.

(** The [while] loop over the data, two bytes at a time. *)
Fixpoint add_data (checksum : Z) (data : list Z) : Z :=
  match data with
  | [] => checksum
  | [low] => Checksum.add_u16 checksum (low .| (0 ≪ 8))
  | low :: high :: data => add_data (Checksum.add_u16 checksum (low .| (high ≪ 8))) data
  end.

Definition compute_checksum (self : t) (source_ip dest_ip : Ipv4Address.t) (data : list Z) : option Z :=
  let checksum_header :=
    {| IpChecksumHeader.source_ip := source_ip; IpChecksumHeader.dest_ip := dest_ip;
       IpChecksumHeader.zeroes := 0; IpChecksumHeader.protocol := protocol_code Udp;
       IpChecksumHeader.udp_length :=
         u16_swap (u16 (Z.of_nat (get_size t + List.length data))) |} in
  words ← try_as_u16_buffer checksum_header;
  let checksum := add_words Checksum.new words in
  let checksum := Checksum.add_u16 checksum (source_port self) in
  let checksum := Checksum.add_u16 checksum (dest_port self) in
  let checksum := Checksum.add_u16 checksum (length self) in
  Some (Checksum.compute (add_data checksum data)).

Definition set_checksum (self : t) (c : Z) : t :=
  {| source_port := source_port self; dest_port := dest_port self; length := length self;
     checksum := c |}.
End UdpHeader.

Definition create_datagram (source_ip : Ipv4Address.t) (source_port : Z)
    (dest_ip : Ipv4Address.t) (dest_port : Z) (data : list Z) : option (list Z) :=
  let total_size := (length data + get_size UdpHeader.t + get_size Ipv4Header.t)%nat in
  let datagram_buffer := replicate total_size 0 in
  let data_start_offset := (total_size - length data)%nat in
  datagram_buffer ← copy_from_slice datagram_buffer data_start_offset data;
  let udp_header := UdpHeader.new source_port dest_port (length data) in
  checksum ← UdpHeader.compute_checksum udp_header source_ip dest_ip data;
  let udp_header := UdpHeader.set_checksum udp_header checksum in
  '(udp_header_space, udp_start_offset) ←
    copy_to_u8_buffer udp_header (take data_start_offset datagram_buffer);
  let datagram_buffer := udp_header_space ++ drop data_start_offset datagram_buffer in
  let udp_size := u16 (Z.of_nat (get_size UdpHeader.t + length data)) in
  ip_header ← Ipv4Header.new_udp source_ip dest_ip udp_size 64;
  '(ip_header_space, ip_start_offset) ←
    copy_to_u8_buffer ip_header (take udp_start_offset datagram_buffer);
  let datagram_buffer := ip_header_space ++ drop udp_start_offset datagram_buffer in
  if (ip_start_offset =? 0)%nat then Some datagram_buffer else None.

(** ** TCP *)

Module TcpHeader.
Record t := {
  source_port : Z;
  dest_port : Z;
  sequence_number : Z;
  ack_number : Z;
  data_offset : Z;
  flags : Z;
  window_size : Z;
  checksum : Z;
  urgent_pointer : Z
}.

Definition FLAG_FIN : Z := 0x01.
Definition FLAG_SYN : Z := 0x02.
Definition FLAG_RST : Z := 0x04.
Definition FLAG_PSH : Z := 0x08.
Definition FLAG_ACK : Z := 0x10.

#[global] Instance header : PacketHeader t := {|
  get_size := 20;
  as_u8_buffer h :=
    le16 (source_port h) ++ le16 (dest_port h) ++ le32 (sequence_number h) ++
    le32 (ack_number h) ++ [data_offset h; flags h] ++ le16 (window_size h) ++
    le16 (checksum h) ++ le16 (urgent_pointer h);
  of_u8_buffer b :=
    {| source_port := load16 b 0; dest_port := load16 b 2; sequence_number := load32 b 4;
       ack_number := load32 b 8; data_offset := byte_at b 12; flags := byte_at b 13;
       window_size := load16 b 14; checksum := load16 b 16; urgent_pointer := load16 b 18 |}
|}.

Definition byte_size (self : t) : Z := (data_offset self ≫ 4) * 4.

Definition is_syn (self : t) : bool := negb (flags self .& FLAG_SYN =? 0).
Definition is_ack (self : t) : bool := negb (flags self .& FLAG_ACK =? 0).
Definition is_fin (self : t) : bool := negb (flags self .& FLAG_FIN =? 0).
Definition is_rst (self : t) : bool := negb (flags self .& FLAG_RST =? 0).

Definition compute_checksum (self : t) (source_ip dest_ip : Ipv4Address.t) (data : list Z) : option Z :=
  let checksum_header :=
    {| IpChecksumHeader.source_ip := source_ip; IpChecksumHeader.dest_ip := dest_ip;
       IpChecksumHeader.zeroes := 0; IpChecksumHeader.protocol := protocol_code Tcp;
       IpChecksumHeader.udp_length := u16_swap (u16 (Z.of_nat (get_size t + length data))) |} in
  words ← try_as_u16_buffer checksum_header;
  let checksum := add_words Checksum.new words in
  let checksum := add_words checksum (words_le (as_u8_buffer self)) in
  Some (Checksum.compute (add_words checksum (words_le data))).

Definition set_checksum (self : t) (c : Z) : t :=
  {| source_port := source_port self; dest_port := dest_port self;
     sequence_number := sequence_number self; ack_number := ack_number self;
     data_offset := data_offset self; flags := flags self; window_size := window_size self;
     checksum := c; urgent_pointer := urgent_pointer self |}.

Definition create_packet (source_ip : Ipv4Address.t) (source_port : Z)
    (dest_ip : Ipv4Address.t) (dest_port seq_number ack_number flags : Z) (data : list Z)
    : option (list Z) :=
  let total_size := (get_size Ipv4Header.t + get_size t + length data)%nat in
  let packet_buffer := replicate total_size 0 in
  let tcp_header :=
    {| source_port := u16_swap source_port; dest_port := u16_swap dest_port;
       sequence_number := u32_swap seq_number; ack_number := u32_swap ack_number;
       data_offset := u8 (Z.of_nat (get_size t / 4) ≪ 4); flags := flags;
       window_size := 0xffff; checksum := 0; urgent_pointer := 0 |} in
  checksum ← compute_checksum tcp_header source_ip dest_ip data;
  let tcp_header := set_checksum tcp_header checksum in
  let data_start := (total_size - length data)%nat in
  packet_buffer ← copy_from_slice packet_buffer data_start data;
  '(tcp_space, tcp_start) ← copy_to_u8_buffer tcp_header (take data_start packet_buffer);
  let packet_buffer := tcp_space ++ drop data_start packet_buffer in
  let tcp_size := u16 (Z.of_nat (get_size t + length data)) in
  ip_header ← Ipv4Header.new_tcp source_ip dest_ip tcp_size 127;
  '(ip_space, ip_start) ← copy_to_u8_buffer ip_header (take tcp_start packet_buffer);
  let packet_buffer := ip_space ++ drop tcp_start packet_buffer in
  if (ip_start =? 0)%nat then Some packet_buffer else None.
End TcpHeader.

#[export, refine] Instance udp_laws : PacketHeaderLaws UdpHeader.t := {|
  header_wf h :=
    is_u16 (UdpHeader.source_port h) /\ is_u16 (UdpHeader.dest_port h) /\
    is_u16 (UdpHeader.length h) /\ is_u16 (UdpHeader.checksum h)
|}.
Proof.
  - reflexivity.
  - intros h (? & ? & ? & ?). repeat first [apply Forall_app_2 | by apply le16_bytes].
  - intros [? ? ? ?] rest _. cbn [as_u8_buffer of_u8_buffer UdpHeader.header]. by decode_header.
Defined.

#[export, refine] Instance tcp_laws : PacketHeaderLaws TcpHeader.t := {|
  header_wf h :=
    is_u16 (TcpHeader.source_port h) /\ is_u16 (TcpHeader.dest_port h) /\
    is_u32 (TcpHeader.sequence_number h) /\ is_u32 (TcpHeader.ack_number h) /\
    is_u8 (TcpHeader.data_offset h) /\ is_u8 (TcpHeader.flags h) /\
    is_u16 (TcpHeader.window_size h) /\ is_u16 (TcpHeader.checksum h) /\
    is_u16 (TcpHeader.urgent_pointer h)
|}.
Proof.
  - reflexivity.
  - intros h (? & ? & ? & ? & ? & ? & ? & ? & ?).
    repeat first [apply Forall_app_2 | assumption | by apply le16_bytes | by apply le32_bytes | constructor].
  - intros [? ? ? ? ? ? ? ? ?] rest _. cbn [as_u8_buffer of_u8_buffer TcpHeader.header].
    by decode_header.
Defined.

(** ** Layout of a packet *)

(** Filling a zeroed buffer from its end: the data, the transport header, the
    IPv4 header. *)
Lemma packet_layout `{PacketHeaderLaws H} (hdr : H) (ip : Ipv4Header.t) (data : list Z) (n : nat) :
  n = (get_size Ipv4Header.t + get_size H + length data)%nat ->
  exists b1 b2,
    copy_from_slice (replicate n 0) (n - length data) data = Some b1 /\
    copy_to_u8_buffer hdr (take (n - length data) b1) = Some (b2, get_size Ipv4Header.t) /\
    copy_to_u8_buffer ip (take (get_size Ipv4Header.t) (b2 ++ drop (n - length data) b1)) =
      Some (as_u8_buffer ip, 0%nat) /\
    drop (get_size Ipv4Header.t) (b2 ++ drop (n - length data) b1) = as_u8_buffer hdr ++ data.
Proof.
  intros ->. set (s := get_size Ipv4Header.t). set (k := get_size H).
  replace (s + k + length data - length data)%nat with (s + k)%nat by lia.
  exists (replicate (s + k) 0 ++ data), (replicate s 0 ++ as_u8_buffer hdr).
  assert (Hs : length (replicate (s + k) 0) = (s + k)%nat) by apply length_replicate.
  split; [|split; [|split]].
  - rewrite copy_from_slice_ok by (rewrite length_replicate; lia). f_equal.
    apply list_eq. intros i. rewrite lookup_inserts by (rewrite length_replicate; lia).
    case_decide as Hi.
    + by rewrite lookup_app_r, Hs by lia.
    + destruct (decide (i < s + k)%nat).
      * rewrite lookup_app_l by lia. by rewrite !lookup_replicate_2 by lia.
      * rewrite !lookup_ge_None_2; [done|rewrite length_app, Hs; lia|rewrite length_replicate; lia].
  - rewrite <- Hs at 1. rewrite take_app_length, replicate_add.
    rewrite copy_to_u8_buffer_ok by apply length_replicate. by rewrite length_replicate.
  - rewrite <- app_assoc, take_app_le, take_ge by (rewrite length_replicate; done).
    rewrite <- (app_nil_l (replicate s 0)), copy_to_u8_buffer_ok by apply length_replicate. done.
  - rewrite <- app_assoc.
    rewrite drop_app_ge, length_replicate, Nat.sub_diag, drop_0 by (rewrite length_replicate; done).
    f_equal. rewrite <- Hs at 1. apply drop_app_length.
Qed.

(** ** Checksums of the transport headers *)

(** The message a receiver checks: the pseudo header of RFC 768 and RFC 793 in
    network byte order, then the segment. *)
Definition pseudo_header (source dest : Ipv4Address.t) (protocol : Z) (len : nat) : list Z :=
  Ipv4Address.octets source ++ Ipv4Address.octets dest ++ [0; protocol] ++ be16 (Z.of_nat len).

Definition segment_valid (source dest : Ipv4Address.t) (protocol : Z) (segment : list Z) : bool :=
  rfc1071_valid (pseudo_header source dest protocol (length segment) ++ segment).

(** The sum over the pseudo header, the header and the data stays below the
    width of the running sum. *)
Lemma segment_sum (p : IpChecksumHeader.t) (hdr data : list Z) (k : nat) :
  header_wf p -> Forall is_u8 hdr -> Forall is_u8 data ->
  length hdr = (2 * k)%nat -> (k <= 10)%nat -> Z.of_nat (length data) <= 65535 ->
  exists s, is_u32 s /\
    s = sum (words_le (as_u8_buffer p ++ hdr ++ data)) /\
    s = sum (words_le (as_u8_buffer p)) + sum (words_le hdr) + sum (words_le data) /\
    add_words (add_words (add_words 0 (words_le (as_u8_buffer p))) (words_le hdr)) (words_le data) = s.
Proof.
  intros Hp Hh Hd Hk Hk10 Hlen.
  pose proof (words_le_u16 _ (as_u8_buffer_bytes _ Hp)) as Wp.
  pose proof (words_le_u16 _ Hh) as Wh. pose proof (words_le_u16 _ Hd) as Wd.
  assert (Hl : forall b, (length (words_le b) <= length b)%nat).
  { fix IH 1. intros [|x [|y b]]; simpl; [lia..|]. specialize (IH b). lia. }
  pose proof (sum_bound _ Wp) as Sp. pose proof (sum_bound _ Wh) as Sh. pose proof (sum_bound _ Wd) as Sd.
  pose proof (Hl (as_u8_buffer p)) as Lp. rewrite as_u8_buffer_length in Lp.
  change (get_size IpChecksumHeader.t) with 12%nat in Lp.
  pose proof (Hl hdr). pose proof (Hl data).
  assert (2 ^ 32 = 65536 * 65536) as E32 by reflexivity.
  assert (Hd31 : Z.of_nat (length (words_le data)) <= 65535) by lia.
  assert (Hd32 : 2 * Z.of_nat (length (words_le data)) <= Z.of_nat (length data) + 1).
  { clear. revert data. fix IH 1. intros [|x [|y b]]; cbn [words_le length]; [lia..|].
    specialize (IH b). lia. }
  set (s := sum (words_le (as_u8_buffer p)) + sum (words_le hdr) + sum (words_le data)).
  assert (Hs : 0 <= s < 2 ^ 32) by (subst s; lia).
  exists s. split; [exact Hs|]. split; [|split; [done|]].
  - rewrite (words_le_app 6) by reflexivity.
    rewrite (words_le_app k) by done. rewrite !sum_app. subst s. lia.
  - unfold s in *. rewrite (add_words_sum _ 0) by (done || lia). rewrite (add_words_sum _ (0 + _)) by (done || lia).
    rewrite add_words_sum by (done || lia). lia.
Qed.

Lemma add_data_words (data : list Z) (c : Z) :
  Forall is_u8 data -> UdpHeader.add_data c data = add_words c (words_le data).
Proof.
  revert data c. fix IH 1. intros [|x [|y data]] c H; [done|..].
  - cbn [UdpHeader.add_data words_le add_words foldl]. rewrite Z.shiftl_0_l, Z.lor_0_r. done.
  - apply Forall_cons in H as [? [? H]%Forall_cons].
    cbn [UdpHeader.add_data words_le]. rewrite IH by done.
    rewrite Z.lor_comm, lor_add by (try lia; unfold is_u8 in *; lia).
    change (2 ^ 8) with 256. by rewrite (Z.add_comm (y * 256)), (Z.mul_comm y).
Qed.

(** The pseudo header of the code, as bytes. *)
Lemma checksum_header_bytes (source dest : Ipv4Address.t) (p : IpProtocolType) (len : nat) :
  Ipv4Address.wf source -> Ipv4Address.wf dest -> Z.of_nat len <= 65535 ->
  let h := {| IpChecksumHeader.source_ip := source; IpChecksumHeader.dest_ip := dest;
              IpChecksumHeader.zeroes := 0; IpChecksumHeader.protocol := protocol_code p;
              IpChecksumHeader.udp_length := u16_swap (u16 (Z.of_nat len)) |} in
  header_wf h /\ as_u8_buffer h = pseudo_header source dest (protocol_code p) len.
Proof.
  intros Hs Hd Hlen h. subst h. assert (Hu : is_u16 (Z.of_nat len)) by word.
  replace (u16 (Z.of_nat len)) with (Z.of_nat len) by (symmetry; apply Z.mod_small, Hu).
  split.
  - unfold header_wf, checksum_header_laws. pose proof (u16_swap_range _ Hu).
    split_and!; try done; destruct p; simpl; word.
  - cbn [as_u8_buffer IpChecksumHeader.header IpChecksumHeader.source_ip
      IpChecksumHeader.dest_ip IpChecksumHeader.zeroes IpChecksumHeader.protocol
      IpChecksumHeader.udp_length]. by rewrite le16_swap.
Qed.

(** ** [create_datagram] *)

Lemma udp_words (h : UdpHeader.t) :
  words_le (as_u8_buffer h) =
    [UdpHeader.source_port h; UdpHeader.dest_port h; UdpHeader.length h; UdpHeader.checksum h].
Proof. cbn -[Z.modulo Z.div Z.mul Z.add]. by rewrite !le16_load. Qed.

(** A zero checksum field adds nothing to the running sum. *)
Lemma add_u16_0 (c v : Z) :
  Checksum.add_u16 (Checksum.add_u16 c v) 0 = Checksum.add_u16 c v.
Proof. unfold Checksum.add_u16, u32. rewrite Z.add_0_r. by rewrite Z.mod_mod. Qed.

(** The field that [compute_checksum] fills in makes the datagram valid. *)
Lemma udp_checksum_ok (h : UdpHeader.t) (src dst : Ipv4Address.t) (data : list Z) :
  Ipv4Address.wf src -> Ipv4Address.wf dst -> header_wf h -> UdpHeader.checksum h = 0 ->
  Forall is_u8 data -> Z.of_nat (length data) <= 65507 ->
  exists c, UdpHeader.compute_checksum h src dst data = Some c /\ is_u16 c /\
    segment_valid src dst (protocol_code Udp) (as_u8_buffer (UdpHeader.set_checksum h c) ++ data) = true.
Proof.
  intros Hs Hd Hh H0 Hdata Hlen.
  destruct (checksum_header_bytes src dst Udp (get_size UdpHeader.t + length data)) as [Hph Epb];
    [done..|cbn; lia|].
  destruct (segment_sum _ (as_u8_buffer h) data 4 Hph (as_u8_buffer_bytes _ Hh) Hdata)
    as (s & Hs32 & _ & Es & Eadd); [done|lia..|].
  destruct (compute_complement s Hs32) as (Hck & _).
  exists (Checksum.compute s). split; [|split; [done|]].
  - unfold UdpHeader.compute_checksum, try_as_u16_buffer.
    cbn [get_size IpChecksumHeader.header Nat.modulo Nat.divmod snd Nat.sub Nat.eqb mbind option_bind].
    rewrite add_data_words by done. do 2 f_equal. rewrite <- Eadd. f_equal.
    rewrite udp_words. cbn [add_words foldl]. by rewrite H0, add_u16_0.
  - assert (Hw : header_wf (UdpHeader.set_checksum h (Checksum.compute s))) by (cbn in Hh |- *; tauto).
    unfold segment_valid. rewrite length_app, as_u8_buffer_length, <- Epb.
    apply (checksum_valid _ s); [|done|].
    + apply Forall_app_2; [exact (as_u8_buffer_bytes _ Hph)|].
      apply Forall_app_2; [exact (as_u8_buffer_bytes _ Hw)|done].
    + rewrite (words_le_app 6) by done. rewrite (words_le_app 4) by done. rewrite !sum_app.
      rewrite udp_words in Es |- *. rewrite H0 in Es.
      unfold sum at 2 in Es. unfold sum at 2. cbn [foldr] in Es |- *.
      unfold UdpHeader.set_checksum. cbn [UdpHeader.source_port UdpHeader.dest_port
        UdpHeader.length UdpHeader.checksum]. lia.
Qed.

Lemma create_datagram_wire (src dst : Ipv4Address.t) (sp dp : Z) (data : list Z) :
  Ipv4Address.wf src -> Ipv4Address.wf dst -> is_u16 sp -> is_u16 dp ->
  Forall is_u8 data -> Z.of_nat (length data) <= 65507 ->
  exists ip udp,
    create_datagram src sp dst dp data = Some (as_u8_buffer ip ++ as_u8_buffer udp ++ data) /\
    header_wf ip /\ header_wf udp /\ rfc1071_valid (as_u8_buffer ip) = true /\
    segment_valid src dst (protocol_code Udp) (as_u8_buffer udp ++ data) = true /\
    u16_swap (Ipv4Header.total_length ip) = 28 + Z.of_nat (length data) /\
    Ipv4Header.protocol ip = protocol_code Udp /\
    Ipv4Header.source ip = src /\ Ipv4Header.dest ip = dst /\
    u16_swap (UdpHeader.source_port udp) = sp /\ u16_swap (UdpHeader.dest_port udp) = dp /\
    u16_swap (UdpHeader.length udp) = 8 + Z.of_nat (length data).
Proof.
  intros Hs Hd Hsp Hdp Hdata Hlen. set (n := (length data + 8 + 20)%nat).
  assert (Hul : u16 (8 + Z.of_nat (length data)) = 8 + Z.of_nat (length data)) by word.
  set (udp0 := UdpHeader.new sp dp (length data)).
  assert (Hu0 : header_wf udp0).
  { unfold header_wf, udp_laws, udp0, UdpHeader.new. rewrite Hul.
    split_and!; apply u16_swap_range; (done || word). }
  destruct (udp_checksum_ok udp0 src dst data) as (c & Ec & Hc & Hseg); [done..|].
  set (udp := UdpHeader.set_checksum udp0 c) in *.
  assert (Hw : header_wf udp) by (cbn in Hu0 |- *; tauto).
  destruct (ipv4_new_ok src dst (u16 (Z.of_nat (8 + length data))) 64 Udp)
    as (ip & Eip & Hip & Hv & Htl & Hpr & His & Hid); [done..|word|word|].
  exists ip, udp. split.
  { unfold create_datagram.
    change (length data + get_size UdpHeader.t + get_size Ipv4Header.t)%nat with n.
    destruct (packet_layout udp ip data n) as (b1 & b2 & E1 & E2 & E3 & E4); [subst n; cbn; lia|].
    rewrite E1. cbn [mbind option_bind].
    fold udp0. rewrite Ec. cbn [mbind option_bind]. fold udp. rewrite E2. cbn [mbind option_bind].
    change (get_size UdpHeader.t + length data)%nat with (8 + length data)%nat.
    unfold Ipv4Header.new_udp. rewrite Eip. cbn [mbind option_bind].
    rewrite E3. cbn [mbind option_bind Nat.eqb]. by rewrite E4. }
  split_and!; try done.
  - rewrite Htl. word.
  - cbn. by rewrite u16_swap_swap.
  - cbn. by rewrite u16_swap_swap.
  - cbn -[u16]. rewrite Hul. apply u16_swap_swap. word.
Qed.

(** ** [TcpHeader::create_packet] *)

Lemma tcp_words (h : TcpHeader.t) (c : Z) :
  sum (words_le (as_u8_buffer (TcpHeader.set_checksum h c))) =
  sum (words_le (as_u8_buffer (TcpHeader.set_checksum h 0))) + c.
Proof.
  unfold sum. cbn -[Z.modulo Z.div Z.mul Z.add Z.pow]. rewrite !le16_load.
  change (0 mod 256 + 256 * (0 / 256)) with 0. lia.
Qed.

Lemma tcp_set_checksum_0 (h : TcpHeader.t) :
  TcpHeader.checksum h = 0 -> TcpHeader.set_checksum h 0 = h.
Proof. destruct h. cbn. by intros ->. Qed.

Lemma tcp_checksum_ok (h : TcpHeader.t) (src dst : Ipv4Address.t) (data : list Z) :
  Ipv4Address.wf src -> Ipv4Address.wf dst -> header_wf h -> TcpHeader.checksum h = 0 ->
  Forall is_u8 data -> Z.of_nat (length data) <= 65495 ->
  exists c, TcpHeader.compute_checksum h src dst data = Some c /\ is_u16 c /\
    segment_valid src dst (protocol_code Tcp) (as_u8_buffer (TcpHeader.set_checksum h c) ++ data) = true.
Proof.
  intros Hs Hd Hh H0 Hdata Hlen.
  destruct (checksum_header_bytes src dst Tcp (get_size TcpHeader.t + length data)) as [Hph Epb];
    [done..|cbn; lia|].
  destruct (segment_sum _ (as_u8_buffer h) data 10 Hph (as_u8_buffer_bytes _ Hh) Hdata)
    as (s & Hs32 & _ & Es & Eadd); [done|lia..|].
  destruct (compute_complement s Hs32) as (Hck & _).
  exists (Checksum.compute s). split; [|split; [done|]].
  - unfold TcpHeader.compute_checksum, try_as_u16_buffer.
    cbn [get_size IpChecksumHeader.header Nat.modulo Nat.divmod snd Nat.sub Nat.eqb mbind option_bind].
    unfold Checksum.new. rewrite Eadd. reflexivity.
  - assert (Hw : header_wf (TcpHeader.set_checksum h (Checksum.compute s))) by (cbn in Hh |- *; tauto).
    unfold segment_valid. rewrite length_app, as_u8_buffer_length, <- Epb.
    apply (checksum_valid _ s); [|done|].
    + apply Forall_app_2; [exact (as_u8_buffer_bytes _ Hph)|].
      apply Forall_app_2; [exact (as_u8_buffer_bytes _ Hw)|done].
    + rewrite (words_le_app 6) by done. rewrite (words_le_app 10) by done. rewrite !sum_app, tcp_words.
      rewrite tcp_set_checksum_0 by done. lia.
Qed.

Lemma create_packet_wire (src dst : Ipv4Address.t) (sp dp seq ack flags : Z) (data : list Z) :
  Ipv4Address.wf src -> Ipv4Address.wf dst -> is_u16 sp -> is_u16 dp ->
  is_u32 seq -> is_u32 ack -> is_u8 flags ->
  Forall is_u8 data -> Z.of_nat (length data) <= 65495 ->
  exists ip tcp,
    TcpHeader.create_packet src sp dst dp seq ack flags data =
      Some (as_u8_buffer ip ++ as_u8_buffer tcp ++ data) /\
    header_wf ip /\ header_wf tcp /\ rfc1071_valid (as_u8_buffer ip) = true /\
    segment_valid src dst (protocol_code Tcp) (as_u8_buffer tcp ++ data) = true /\
    u16_swap (Ipv4Header.total_length ip) = 40 + Z.of_nat (length data) /\
    Ipv4Header.protocol ip = protocol_code Tcp /\
    Ipv4Header.source ip = src /\ Ipv4Header.dest ip = dst /\
    u16_swap (TcpHeader.source_port tcp) = sp /\ u16_swap (TcpHeader.dest_port tcp) = dp /\
    u32_swap (TcpHeader.sequence_number tcp) = seq /\ u32_swap (TcpHeader.ack_number tcp) = ack /\
    TcpHeader.flags tcp = flags /\ TcpHeader.byte_size tcp = 20.
Proof.
  intros Hs Hd Hsp Hdp Hseq Hack Hfl Hdata Hlen. set (n := (20 + 20 + length data)%nat).
  set (tcp0 := TcpHeader.Build_t (u16_swap sp) (u16_swap dp) (u32_swap seq) (u32_swap ack)
    (u8 (Z.of_nat (get_size TcpHeader.t / 4) ≪ 4)) flags 0xffff 0 0).
  assert (Ht0 : header_wf tcp0).
  { unfold header_wf, tcp_laws, tcp0.
    split_and!; first [by apply u16_swap_range | by apply u32_swap_range | done | cbn; word]. }
  destruct (tcp_checksum_ok tcp0 src dst data) as (c & Ec & Hc & Hseg); [done..|].
  set (tcp := TcpHeader.set_checksum tcp0 c) in *.
  assert (Hw : header_wf tcp) by (cbn in Ht0 |- *; tauto).
  destruct (ipv4_new_ok src dst (u16 (Z.of_nat (20 + length data))) 127 Tcp)
    as (ip & Eip & Hip & Hv & Htl & Hpr & His & Hid); [done..|word|word|].
  exists ip, tcp. split.
  { unfold TcpHeader.create_packet.
    change (get_size Ipv4Header.t + get_size TcpHeader.t + length data)%nat with n.
    destruct (packet_layout tcp ip data n) as (b1 & b2 & E1 & E2 & E3 & E4); [subst n; cbn; lia|].
    fold tcp0. rewrite Ec. cbn [mbind option_bind]. rewrite E1. cbn [mbind option_bind].
    fold tcp. rewrite E2. cbn [mbind option_bind].
    change (get_size TcpHeader.t + length data)%nat with (20 + length data)%nat.
    unfold Ipv4Header.new_tcp. rewrite Eip. cbn [mbind option_bind].
    rewrite E3. cbn [mbind option_bind Nat.eqb]. by rewrite E4. }
  split_and!; try done.
  - rewrite Htl. word.
  - cbn. by rewrite u16_swap_swap.
  - cbn. by rewrite u16_swap_swap.
  - cbn. by rewrite u32_swap_swap.
  - cbn. by rewrite u32_swap_swap.
Qed.

(** Building a packet never panics, whatever its fields. *)
Lemma ipv4_new_total (src dst : Ipv4Address.t) (len ttl : Z) (p : IpProtocolType) :
  is_Some (Ipv4Header.new src dst len ttl p).
Proof. done. Qed.

Lemma create_packet_total (src dst : Ipv4Address.t) (sp dp seq ack flags : Z) (data : list Z) :
  is_Some (TcpHeader.create_packet src sp dst dp seq ack flags data).
Proof.
  unfold TcpHeader.create_packet, Ipv4Header.new_tcp. set (tcp0 := TcpHeader.Build_t _ _ _ _ _ _ _ _ _).
  assert (is_Some (TcpHeader.compute_checksum tcp0 src dst data)) as [c ->] by done.
  destruct (ipv4_new_total src dst (u16 (Z.of_nat (get_size TcpHeader.t + length data))) 127 Tcp)
    as [ip Eip].
  destruct (packet_layout (TcpHeader.set_checksum tcp0 c) ip data _ eq_refl)
    as (b1 & b2 & E1 & E2 & E3 & _).
  cbn [mbind option_bind]. rewrite E1. cbn [mbind option_bind]. rewrite E2. cbn [mbind option_bind].
  rewrite Eip. cbn [mbind option_bind]. rewrite E3. by eexists.
Qed.

Lemma create_datagram_shape (src dst : Ipv4Address.t) (sp dp : Z) (data : list Z) :
  exists (ip : Ipv4Header.t) (udp : UdpHeader.t),
    create_datagram src sp dst dp data = Some (as_u8_buffer ip ++ as_u8_buffer udp ++ data).
Proof.
  unfold create_datagram, Ipv4Header.new_udp. set (udp0 := UdpHeader.new _ _ _).
  replace (length data + get_size UdpHeader.t + get_size Ipv4Header.t)%nat
    with (get_size Ipv4Header.t + get_size UdpHeader.t + length data)%nat by lia.
  assert (is_Some (UdpHeader.compute_checksum udp0 src dst data)) as [c ->] by done.
  destruct (ipv4_new_total src dst (u16 (Z.of_nat (get_size UdpHeader.t + length data))) 64 Udp)
    as [ip Eip].
  destruct (packet_layout (UdpHeader.set_checksum udp0 c) ip data _ eq_refl)
    as (b1 & b2 & E1 & E2 & E3 & E4).
  rewrite E1. cbn [mbind option_bind]. rewrite E2. cbn [mbind option_bind].
  rewrite Eip. cbn [mbind option_bind]. rewrite E3. cbn [mbind option_bind Nat.eqb]. rewrite E4.
  by exists ip, (UdpHeader.set_checksum udp0 c).
Qed.

Lemma create_datagram_total (src dst : Ipv4Address.t) (sp dp : Z) (data : list Z) :
  is_Some (create_datagram src sp dst dp data).
Proof. destruct (create_datagram_shape src dst sp dp data) as (ip & udp & ->). by eexists. Qed.

Lemma create_datagram_length (src dst : Ipv4Address.t) (sp dp : Z) (data packet : list Z) :
  create_datagram src sp dst dp data = Some packet -> length packet = (28 + length data)%nat.
Proof.
  destruct (create_datagram_shape src dst sp dp data) as (ip & udp & E). intros H.
  assert (packet = as_u8_buffer ip ++ as_u8_buffer udp ++ data) as -> by congruence.
  by rewrite !length_app, !as_u8_buffer_length.
Qed.

#[global] Arguments TcpHeader.create_packet : simpl never.
#[global] Arguments create_datagram : simpl never.
