(* ===== verification/Utf8.v ===== *)
(** * [String::from_utf8_lossy]

    The standard library's conversion of bytes to a string, as the network
    code uses it.  A string is the list of its UTF-8 bytes; every maximal
    invalid sequence becomes the replacement character. *)

From S2P Require Import Prelude.

Definition REPLACEMENT : list Z := [0xef; 0xbf; 0xbd].

Definition utf8_char_width (b : Z) : Z :=
  if b <? 0x80 then 1
  else if (0xc2 <=? b) && (b <=? 0xdf) then 2
  else if (0xe0 <=? b) && (b <=? 0xef) then 3
  else if (0xf0 <=? b) && (b <=? 0xf4) then 4
  else 0.

Definition in_range (lo hi b : Z) : bool := (lo <=? b) && (b <=? hi).
Definition is_cont (b : Z) : bool := in_range 0x80 0xbf b.

(** The second byte that may follow a lead byte of a three or four byte
    sequence. *)
Definition second_ok (lead b : Z) : bool :=
  if lead =? 0xe0 then in_range 0xa0 0xbf b
  else if lead =? 0xed then in_range 0x80 0x9f b
  else if lead =? 0xf0 then in_range 0x90 0xbf b
  else if lead =? 0xf4 then in_range 0x80 0x8f b
  else is_cont b.

(** One character or one invalid sequence at the front: what it becomes, and
    the bytes it takes, at least one.  A missing byte reads as zero. *)
Definition lossy_step (lead : Z) (rest : list Z) : list Z * nat :=
  let get := fun i => nth i rest 0 in
  let w := utf8_char_width lead in
  if w =? 1 then ([lead], 1%nat)
  else if w =? 2 then
    if negb (is_cont (get 0%nat)) then (REPLACEMENT, 1%nat) else ([lead; get 0%nat], 2%nat)
  else if w =? 3 then
    if negb (second_ok lead (get 0%nat)) then (REPLACEMENT, 1%nat)
    else if negb (is_cont (get 1%nat)) then (REPLACEMENT, 2%nat)
    else ([lead; get 0%nat; get 1%nat], 3%nat)
  else if w =? 4 then
    if negb (second_ok lead (get 0%nat)) then (REPLACEMENT, 1%nat)
    else if negb (is_cont (get 1%nat)) then (REPLACEMENT, 2%nat)
    else if negb (is_cont (get 2%nat)) then (REPLACEMENT, 3%nat)
    else ([lead; get 0%nat; get 1%nat; get 2%nat], 4%nat)
  else (REPLACEMENT, 1%nat).

Fixpoint lossy_loop (fuel : nat) (bytes : list Z) : list Z :=
  match fuel, bytes with
  | S fuel, lead :: rest =>
      let '(out, n) := lossy_step lead rest in
      out ++ lossy_loop fuel (drop (n - 1) rest)
  | _, _ => []
  end.

(** Each step takes a byte, so the length is enough fuel. *)
Definition from_utf8_lossy (bytes : list Z) : list Z := lossy_loop (length bytes) bytes.

(** An ASCII string is unchanged. *)
Lemma from_utf8_lossy_ascii (bytes : list Z) :
  Forall (fun b => 0 <= b < 128) bytes -> from_utf8_lossy bytes = bytes.
Proof.
  unfold from_utf8_lossy. induction 1 as [|b bytes Hb _ IH]; [done|].
  cbn [length lossy_loop]. unfold lossy_step, utf8_char_width.
  replace (b <? 0x80) with true by (symmetry; apply Z.ltb_lt; lia). cbn [Z.eqb Pos.eqb].
  simpl. by rewrite drop_0, IH.
Qed.
