(* ===== verification/Tcp.v ===== *)
(** * TCP connections

    [kernel/src/net/protocol/tcp/connection.rs]: the state machine of a
    connection.  An operation returns the new connection and, in order, the
    calls it makes outside: packets and connection requests handed to the
    network task ([net_respond], [net_open_tcp]), completed ops ([complete_op]), the handle created for an
    accepted connection, and bytes copied to the buffer of a reader, through
    its virtual address in the reader's own call or through its physical
    address when a packet arrives.

    Parameters of the operations: [live], whether [get_task] finds a task, and
    [translate], the page mapping of the current task. *)

From S2P Require Import Prelude Api NetPacket Ipv4 NetTransport.

(** Task, IO object and op that wait for a result. *)
Definition AsyncCallback : Type := Z * Z * Z.

Inductive NetEffect :=
| NetRespond (destination : Ipv4Address.t) (packet : list Z)
| NetOpenTcp (local_port : Z) (destination : list Z) (remote_port : Z)
| CompleteOp (callback : AsyncCallback) (res : IoResult)
| CompleteAccept (callback : AsyncCallback) (own_id : Z)
| WriteVirtual (vaddr : Z) (bytes : list Z)
| WritePhysical (paddr : Z) (bytes : list Z).

(** A user buffer of the current task, [&mut [u8]]. *)
Record Buffer := { buf_vaddr : Z; buf_len : Z }.

Inductive TcpState := SynSent | SynReceived | Established | LastAck.

#[global] Instance TcpState_eq_dec : EqDecision TcpState.
Proof. solve_decision. Defined.

Inductive TcpAction := Enqueue | Discard | Close | Reset | FinAck | Connect | ConnectAck.

Record PendingRead := {
  buffer_paddr : Z;
  buffer_len : Z;
  read_callback : AsyncCallback
}.

Record PendingWrite := {
  end_sequence : Z;
  total_len : Z;
  write_callback : AsyncCallback
}.

Module TcpConnection.
Record t := {
  own_id : Z;
  local_address : Ipv4Address.t;
  local_port : Z;
  remote_address : Ipv4Address.t;
  remote_port : Z;
  state : TcpState;
  last_sequence_sent : Z;
  last_sequence_received : Z;
  on_connect : option (AsyncCallback * bool);
  pending_reads : list PendingRead;
  pending_writes : list PendingWrite;
  available_data : list Z
}.

Definition new (own_id local_port : Z) (remote_address : Ipv4Address.t) (remote_port : Z)
    (is_outbound : bool) (on_connect : option (AsyncCallback * bool)) : t :=
  {| own_id := own_id; local_address := Ipv4Address 0 0 0 0; local_port := local_port;
     remote_address := remote_address; remote_port := remote_port;
     state := if is_outbound then SynSent else SynReceived;
     last_sequence_sent := 0; last_sequence_received := 0; on_connect := on_connect;
     pending_reads := []; pending_writes := []; available_data := [] |}.

(** ** Field updates *)

Definition set_connected (self : t) (local remote : Ipv4Address.t) (sent received : Z) : t :=
  {| own_id := own_id self; local_address := local; local_port := local_port self;
     remote_address := remote; remote_port := remote_port self; state := Established;
     last_sequence_sent := sent; last_sequence_received := received;
     on_connect := None; pending_reads := pending_reads self;
     pending_writes := pending_writes self; available_data := available_data self |}.

Definition set_received (self : t) (received : Z) (reads : list PendingRead) (available : list Z) : t :=
  {| own_id := own_id self; local_address := local_address self; local_port := local_port self;
     remote_address := remote_address self; remote_port := remote_port self; state := state self;
     last_sequence_sent := last_sequence_sent self; last_sequence_received := received;
     on_connect := on_connect self; pending_reads := reads;
     pending_writes := pending_writes self; available_data := available |}.

Definition set_sent (self : t) (sent : Z) (writes : list PendingWrite) : t :=
  {| own_id := own_id self; local_address := local_address self; local_port := local_port self;
     remote_address := remote_address self; remote_port := remote_port self; state := state self;
     last_sequence_sent := sent; last_sequence_received := last_sequence_received self;
     on_connect := on_connect self; pending_reads := pending_reads self;
     pending_writes := writes; available_data := available_data self |}.

Definition set_state (self : t) (s : TcpState) : t :=
  {| own_id := own_id self; local_address := local_address self; local_port := local_port self;
     remote_address := remote_address self; remote_port := remote_port self; state := s;
     last_sequence_sent := last_sequence_sent self;
     last_sequence_received := last_sequence_received self;
     on_connect := on_connect self; pending_reads := pending_reads self;
     pending_writes := pending_writes self; available_data := available_data self |}.

(** [connection.last_sequence_received = last_seq] in [init_connection]. *)
Definition set_last_sequence_received (self : t) (received : Z) : t :=
  set_received self received (pending_reads self) (available_data self).

(** ** Receiving *)

Definition action_for_tcp_packet (self : t) (header : TcpHeader.t) : TcpAction :=
  if TcpHeader.is_rst header then Close
  else
    match state self with
    | SynSent =>
        if negb (TcpHeader.is_syn header) || negb (TcpHeader.is_ack header) then Reset
        else ConnectAck
    | SynReceived =>
        if negb (TcpHeader.is_ack header) then Reset
        else
          let ack := u32_swap (TcpHeader.ack_number header) in
          if negb (ack =? u32 (last_sequence_sent self + 1)) then Reset else Connect
    | Established =>
        if TcpHeader.is_fin header then FinAck
        else if TcpHeader.is_syn header then Reset
        else Enqueue
    | LastAck => Close
    end.

(** The [while let] loops that empty the queues of waiting ops. *)
Definition complete_reads (reads : list PendingRead) : list NetEffect :=
  map (fun read => CompleteOp (read_callback read) (Ok 0)) reads.
Definition fail_writes (writes : list PendingWrite) : list NetEffect :=
  map (fun write => CompleteOp (write_callback write) (Err OperationFailed)) writes.

Fixpoint process_ack_loop (ack_number : Z) (writes : list PendingWrite)
    : list PendingWrite * list NetEffect :=
  match writes with
  | [] => ([], [])
  | front :: rest =>
      let acked := u32 (ack_number - end_sequence front) <? 0x80000000 in
      if acked then
        let '(rest', effects) := process_ack_loop ack_number rest in
        (rest', CompleteOp (write_callback front) (Ok (total_len front)) :: effects)
      else (writes, [])
  end.

Definition process_ack (self : t) (ack_number : Z) : t * list NetEffect :=
  let '(rest', effects) := process_ack_loop ack_number (pending_writes self) in
  (set_sent self (last_sequence_sent self) rest', effects).

(** The part of a read's buffer that lies on its first page. *)
Definition usable_len (read : PendingRead) : Z :=
  let buffer_offset := buffer_paddr read .& 0xfff in
  let page_remaining := 0x1000 - buffer_offset in
  Z.min (buffer_len read) page_remaining.

(** In-order data: to the first waiting read, or to [available_data]. *)
Definition accept_data (self : t) (header : TcpHeader.t) (data : list Z) : t * list NetEffect :=
  let received := u32 (u32_swap (TcpHeader.sequence_number header) + Z.of_nat (length data)) in
  match pending_reads self with
  | [] => (set_received self received [] (available_data self ++ data), [])
  | read :: reads =>
      let write_length := Z.min (Z.of_nat (length data)) (usable_len read) in
      let n := Z.to_nat write_length in
      let available :=
        if (n <? length data)%nat then available_data self ++ drop n data else available_data self in
      (set_received self received reads available,
       [WritePhysical (buffer_paddr read) (take n data);
        CompleteOp (read_callback read) (Ok (u32 write_length))])
  end.

(** [net_respond] of a packet without data to the sender. *)
Definition respond (self : t) (local_addr remote_addr : Ipv4Address.t) (ack flags : Z)
    : option (list NetEffect) :=
  packet ← TcpHeader.create_packet local_addr (local_port self) remote_addr (remote_port self)
             (last_sequence_sent self) ack flags [];
  Some [NetRespond remote_addr packet].

(** The completion of the op that waits for the connection, and whether the
    handler goes on: it returns when the accepting task is gone. *)
Definition notify_connect (live : Z -> bool) (self : t) : list NetEffect * bool :=
  match on_connect self with
  | Some (callback, true) =>
      if live (fst (fst callback)) then ([CompleteAccept callback (own_id self)], true) else ([], false)
  | Some (callback, false) => ([CompleteOp callback (Ok (own_id self))], true)
  | None => ([], true)
  end.

(** The arms [Connect] and [ConnectAck]. *)
Definition handle_connect (live : Z -> bool) (self : t) (local_addr remote_addr : Ipv4Address.t)
    (header : TcpHeader.t) (ack : bool) : option (t * list NetEffect) :=
  let seq := u32_swap (TcpHeader.sequence_number header) in
  let received := if ack then u32 (seq + 1) else seq in
  let self' := set_connected self local_addr remote_addr (u32 (last_sequence_sent self + 1)) received in
  let '(notify, go_on) := notify_connect live self in
  if negb go_on then Some (self', notify)
  else if ack then
    answer ← respond self' local_addr remote_addr (u32 (seq + 1)) TcpHeader.FLAG_ACK;
    Some (self', notify ++ answer)
  else Some (self', notify).

Definition handle_enqueue (self : t) (local_addr remote_addr : Ipv4Address.t)
    (header : TcpHeader.t) (data : list Z) : option (t * list NetEffect) :=
  let '(self, acked) :=
    if TcpHeader.is_ack header then process_ack self (u32_swap (TcpHeader.ack_number header))
    else (self, []) in
  match data with
  | [] => Some (self, acked)
  | _ :: _ =>
      let actual_seq := u32_swap (TcpHeader.sequence_number header) in
      if negb (actual_seq =? last_sequence_received self) then
        answer ← respond self local_addr remote_addr (last_sequence_received self) TcpHeader.FLAG_ACK;
        Some (self, acked ++ answer)
      else
        let '(self, delivered) := accept_data self header data in
        answer ← respond self local_addr remote_addr (last_sequence_received self) TcpHeader.FLAG_ACK;
        Some (self, acked ++ delivered ++ answer)
  end.

Definition handle_fin (self : t) (local_addr remote_addr : Ipv4Address.t)
    (header : TcpHeader.t) (data : list Z) : option (t * list NetEffect) :=
  let '(self, acked) :=
    if TcpHeader.is_ack header then process_ack self (u32_swap (TcpHeader.ack_number header))
    else (self, []) in
  let '(self, delivered) :=
    match data with
    | [] => (self, [])
    | _ :: _ =>
        let actual_seq := u32_swap (TcpHeader.sequence_number header) in
        if negb (actual_seq =? last_sequence_received self) then (self, [])
        else accept_data self header data
    end in
  let self := set_state self LastAck in
  let eof := complete_reads (pending_reads self) in
  let self := set_received self (last_sequence_received self) [] (available_data self) in
  answer ← respond self local_addr remote_addr (u32 (last_sequence_received self + 1))
             (TcpHeader.FLAG_FIN .| TcpHeader.FLAG_ACK);
  Some (self, acked ++ delivered ++ eof ++ answer).

Definition handle_packet (live : Z -> bool) (self : t) (local_addr remote_addr : Ipv4Address.t)
    (header : TcpHeader.t) (data : list Z) : option (t * list NetEffect) :=
  match action_for_tcp_packet self header with
  | Close =>
      let effects := complete_reads (pending_reads self) ++ fail_writes (pending_writes self) in
      let self := set_received self (last_sequence_received self) [] (available_data self) in
      Some (set_sent self (last_sequence_sent self) [], effects)
  | Connect => handle_connect live self local_addr remote_addr header false
  | ConnectAck => handle_connect live self local_addr remote_addr header true
  | Discard => Some (self, [])
  | Enqueue => handle_enqueue self local_addr remote_addr header data
  | FinAck => handle_fin self local_addr remote_addr header data
  | Reset =>
      answer ← respond self local_addr remote_addr
                 (u32 (u32_swap (TcpHeader.sequence_number header) + 1))
                 (TcpHeader.FLAG_RST .| TcpHeader.FLAG_ACK);
      Some (self, answer)
  end.

(** ** Sending, reading and closing *)

Definition MSS : nat := 1460.

(** The [while] loop of [write]; each turn sends at least one byte, so the
    length of the data is enough fuel. *)
Fixpoint write_loop (fuel : nat) (self : t) (data : list Z) (offset : nat)
    : option (t * list NetEffect) :=
  if (length data <=? offset)%nat then Some (self, [])
  else
    match fuel with
    | O => None
    | S fuel =>
        let end_ := Nat.min (offset + MSS) (length data) in
        chunk ← slice data offset (end_ - offset);
        let is_last := (end_ =? length data)%nat in
        let flags :=
          if is_last then TcpHeader.FLAG_ACK .| TcpHeader.FLAG_PSH else TcpHeader.FLAG_ACK in
        packet ← TcpHeader.create_packet (local_address self) (local_port self)
                   (remote_address self) (remote_port self)
                   (last_sequence_sent self) (last_sequence_received self) flags chunk;
        let remote := remote_address self in
        let self := set_sent self (u32 (last_sequence_sent self + Z.of_nat (length chunk)))
                      (pending_writes self) in
        '(self, effects) ← write_loop fuel self data end_;
        Some (self, NetRespond remote packet :: effects)
    end.

Definition write (self : t) (data : list Z) (callback : AsyncCallback)
    : option (option IoResult * t * list NetEffect) :=
  match state self with
  | Established =>
      '(self, effects) ← write_loop (length data) self data 0;
      let pending :=
        {| end_sequence := last_sequence_sent self; total_len := u32 (Z.of_nat (length data));
           write_callback := callback |} in
      Some (None, set_sent self (last_sequence_sent self) (pending_writes self ++ [pending]), effects)
  | _ => Some (Some (Err OperationFailed), self, [])
  end.

Definition close (self : t) : option (t * list NetEffect) :=
  let effects := complete_reads (pending_reads self) ++ fail_writes (pending_writes self) in
  let self := set_received self (last_sequence_received self) [] (available_data self) in
  let self := set_sent self (last_sequence_sent self) [] in
  match state self with
  | Established =>
      packet ← TcpHeader.create_packet (local_address self) (local_port self)
                 (remote_address self) (remote_port self)
                 (last_sequence_sent self) (last_sequence_received self)
                 (TcpHeader.FLAG_FIN .| TcpHeader.FLAG_ACK) [];
      Some (self, effects ++ [NetRespond (remote_address self) packet])
  | _ => Some (self, effects)
  end.

Definition read (translate : Z -> option Z) (self : t) (buffer : Buffer) (callback : AsyncCallback)
    : option (option IoResult * t * list NetEffect) :=
  match available_data self with
  | _ :: _ =>
      let copy_len := Z.min (buf_len buffer) (Z.of_nat (length (available_data self))) in
      let n := Z.to_nat copy_len in
      Some (Some (Ok (u32 copy_len)),
            set_received self (last_sequence_received self) (pending_reads self)
              (drop n (available_data self)),
            [WriteVirtual (buf_vaddr buffer) (take n (available_data self))])
  | [] =>
      match state self with
      | LastAck => Some (Some (Ok 0), self, [])
      | _ =>
          paddr ← translate (buf_vaddr buffer);
          let pending := {| buffer_paddr := paddr; buffer_len := buf_len buffer;
                            read_callback := callback |} in
          Some (None,
                set_received self (last_sequence_received self) (pending_reads self ++ [pending])
                  (available_data self),
                [])
      end
  end.
End TcpConnection.
