(* ===== verification/TcpSpec.v ===== *)
(** * Correctness of TCP connections

    Properties of the operations of [Tcp]: types and wire format, completion
    of every op exactly once, in-order delivery of the remote byte stream,
    segmentation of a write, and a write carried from one connection to
    another. *)

From S2P Require Import Prelude Api NetPacket Ipv4 NetTransport Tcp.
Import TcpConnection.

(** ** The operations as one step function *)

Inductive tcp_op :=
| OpPacket (local_addr remote_addr : Ipv4Address.t) (header : TcpHeader.t) (data : list Z)
| OpWrite (data : list Z) (callback : AsyncCallback)
| OpRead (buffer : Buffer) (callback : AsyncCallback)
| OpClose.

Definition run_op (live : Z -> bool) (translate : Z -> option Z) (self : t) (op : tcp_op)
    : option (option IoResult * t * list NetEffect) :=
  match op with
  | OpPacket local remote header data =>
      '(self, effects) ← handle_packet live self local remote header data;
      Some (None, self, effects)
  | OpWrite data callback => write self data callback
  | OpRead buffer callback => read translate self buffer callback
  | OpClose => '(self, effects) ← close self; Some (None, self, effects)
  end.

(** A sequence of operations, with the calls they made. *)
Fixpoint run_ops (live : Z -> bool) (translate : Z -> option Z) (self : t) (ops : list tcp_op)
    : option (list (option IoResult) * t * list NetEffect) :=
  match ops with
  | [] => Some ([], self, [])
  | op :: ops =>
      '(r, self, effects) ← run_op live translate self op;
      '(rs, self, effects') ← run_ops live translate self ops;
      Some (r :: rs, self, effects ++ effects')
  end.

(** ** Types *)

Definition read_wf (r : PendingRead) : Prop := is_u32 (buffer_paddr r) /\ is_u32 (buffer_len r).
Definition write_wf (w : PendingWrite) : Prop := is_u32 (end_sequence w) /\ is_u32 (total_len w).

Record conn_wf (c : t) : Prop := {
  wf_id : is_u32 (own_id c);
  wf_local : Ipv4Address.wf (local_address c);
  wf_remote : Ipv4Address.wf (remote_address c);
  wf_lport : is_u16 (local_port c);
  wf_rport : is_u16 (remote_port c);
  wf_sent : is_u32 (last_sequence_sent c);
  wf_received : is_u32 (last_sequence_received c);
  wf_reads : Forall read_wf (pending_reads c);
  wf_writes : Forall write_wf (pending_writes c);
  wf_available : Forall is_u8 (available_data c)
}.

Definition op_wf (op : tcp_op) : Prop :=
  match op with
  | OpPacket local remote header data =>
      Ipv4Address.wf local /\ Ipv4Address.wf remote /\ header_wf header /\ Forall is_u8 data
  | OpWrite data _ => Forall is_u8 data
  | OpRead buffer _ => is_u32 (buf_vaddr buffer) /\ is_u32 (buf_len buffer)
  | OpClose => True
  end.

(** A packet on the wire: both checksums verify, and the total length is the
    length of the packet. *)
Definition tcp_wire (dest : Ipv4Address.t) (packet : list Z) : Prop :=
  exists ip tcp data, packet = as_u8_buffer ip ++ as_u8_buffer tcp ++ data /\
    header_wf ip /\ header_wf (H := TcpHeader.t) tcp /\ Forall is_u8 data /\
    rfc1071_valid (as_u8_buffer ip) = true /\
    segment_valid (Ipv4Header.source ip) dest (protocol_code Tcp) (as_u8_buffer tcp ++ data) = true /\
    Ipv4Header.dest ip = dest /\ Ipv4Header.protocol ip = protocol_code Tcp /\
    u16_swap (Ipv4Header.total_length ip) = Z.of_nat (length packet) /\ TcpHeader.byte_size tcp = 20.

(** A copy to physical memory stays on one page. *)
Definition effect_wf (e : NetEffect) : Prop :=
  match e with
  | NetRespond dest packet => tcp_wire dest packet
  | NetOpenTcp local_port _ remote_port => is_u16 local_port /\ is_u16 remote_port
  | CompleteOp _ (Ok n) => is_u32 n
  | CompleteOp _ (Err _) => True
  | CompleteAccept _ id => is_u32 id
  | WriteVirtual vaddr bytes => is_u32 vaddr /\ Forall is_u8 bytes
  | WritePhysical paddr bytes =>
      is_u32 paddr /\ Forall is_u8 bytes /\ paddr mod 4096 + Z.of_nat (length bytes) <= 4096
  end.

Lemma packet_tcp_wire (src dst : Ipv4Address.t) (sp dp seq ack flags : Z) (data packet : list Z) :
  TcpHeader.create_packet src sp dst dp seq ack flags data = Some packet ->
  Ipv4Address.wf src -> Ipv4Address.wf dst -> is_u16 sp -> is_u16 dp ->
  is_u32 seq -> is_u32 ack -> is_u8 flags -> Forall is_u8 data -> (length data <= MSS)%nat ->
  tcp_wire dst packet.
Proof.
  intros E Hs Hd Hsp Hdp Hseq Hack Hfl Hdata Hlen.
  assert (Z.of_nat (length data) <= 1460) by (unfold MSS in Hlen; lia).
  destruct (create_packet_wire src dst sp dp seq ack flags data)
    as (ip & tcp & E' & Hip & Htcp & Hv & Hseg & Htl & Hpr & His & Hid & _ & _ & _ & _ & _ & Hbs);
    [done..|lia|].
  assert (packet = as_u8_buffer ip ++ as_u8_buffer tcp ++ data) as -> by congruence.
  exists ip, tcp, data. split_and!; try done.
  - by rewrite His.
  - rewrite Htl, !length_app, !as_u8_buffer_length.
    change (get_size Ipv4Header.t) with 20%nat. change (get_size TcpHeader.t) with 20%nat. lia.
Qed.

(** An answer without data. *)
Lemma respond_ok (c : t) (local remote : Ipv4Address.t) (ack flags : Z) :
  conn_wf c -> Ipv4Address.wf local -> Ipv4Address.wf remote -> is_u32 ack -> is_u8 flags ->
  exists packet, respond c local remote ack flags = Some [NetRespond remote packet] /\
    TcpHeader.create_packet local (local_port c) remote (remote_port c)
      (last_sequence_sent c) ack flags [] = Some packet /\
    tcp_wire remote packet.
Proof.
  intros Hc Hl Hr Ha Hf. unfold respond.
  destruct (create_packet_total local remote (local_port c) (remote_port c) (last_sequence_sent c)
    ack flags []) as [packet E].
  exists packet. rewrite E. split; [done|]. split; [done|].
  apply (packet_tcp_wire _ _ _ _ _ _ _ _ _ E Hl Hr (wf_lport c Hc) (wf_rport c Hc) (wf_sent c Hc) Ha Hf);
    [constructor|unfold MSS; simpl; lia].
Qed.

Lemma flags_u8 : is_u8 TcpHeader.FLAG_ACK /\ is_u8 (TcpHeader.FLAG_ACK .| TcpHeader.FLAG_PSH) /\
  is_u8 (TcpHeader.FLAG_FIN .| TcpHeader.FLAG_ACK) /\ is_u8 (TcpHeader.FLAG_RST .| TcpHeader.FLAG_ACK).
Proof. repeat split; vm_compute; congruence. Qed.

Lemma u32_range (x : Z) : is_u32 (u32 x).
Proof. apply Z.mod_pos_bound. done. Qed.

Lemma u32_small (x : Z) : is_u32 x -> u32 x = x.
Proof. apply Z.mod_small. Qed.

Lemma usable_len_bounds (r : PendingRead) : read_wf r ->
  0 <= usable_len r <= buffer_len r /\ buffer_paddr r mod 4096 + usable_len r <= 4096.
Proof.
  intros [? ?]. unfold usable_len. rewrite land_fff. unfold is_u32 in *.
  pose proof (Z.mod_pos_bound (buffer_paddr r) 4096). lia.
Qed.

(** ** What each part of a step does to the connection *)

Lemma process_ack_wf (c : t) (ack : Z) :
  conn_wf c -> conn_wf (process_ack c ack).1 /\ Forall effect_wf (process_ack c ack).2.
Proof.
  intros Hc. unfold process_ack.
  assert (forall ws, Forall write_wf ws -> Forall write_wf (process_ack_loop ack ws).1 /\
    Forall effect_wf (process_ack_loop ack ws).2) as Hloop.
  { induction 1 as [|w ws [? ?] Hws [IH1 IH2]]; simpl; [done|].
    destruct (_ <? _); simpl; [|split; [constructor; [by split|done]|constructor]].
    destruct (process_ack_loop ack ws) as [r e]; simpl in *. split; [done|by constructor]. }
  destruct (Hloop _ (wf_writes c Hc)) as [H1 H2].
  destruct (process_ack_loop ack (pending_writes c)) as [r e]; simpl in *.
  split; [|done]. destruct Hc. by constructor.
Qed.

Lemma set_received_wf (c : t) (r : Z) (reads : list PendingRead) (available : list Z) :
  conn_wf c -> is_u32 r -> Forall read_wf reads -> Forall is_u8 available ->
  conn_wf (set_received c r reads available).
Proof. intros []. by constructor. Qed.

Lemma set_sent_wf (c : t) (s : Z) (writes : list PendingWrite) :
  conn_wf c -> is_u32 s -> Forall write_wf writes -> conn_wf (set_sent c s writes).
Proof. intros []. by constructor. Qed.

Lemma set_state_wf (c : t) (s : TcpState) : conn_wf c -> conn_wf (set_state c s).
Proof. intros []. by constructor. Qed.

Lemma accept_data_wf (c : t) (header : TcpHeader.t) (data : list Z) :
  conn_wf c -> Forall is_u8 data ->
  conn_wf (accept_data c header data).1 /\ Forall effect_wf (accept_data c header data).2.
Proof.
  intros Hc Hd. unfold accept_data. pose proof (wf_available c Hc) as Ha.
  destruct (pending_reads c) as [|r reads] eqn:E; simpl.
  - split; [|done]. apply set_received_wf; [done|apply u32_range|done|by apply Forall_app_2].
  - pose proof (wf_reads c Hc) as Hr. rewrite E in Hr. apply Forall_cons in Hr as [Hr Hrs].
    pose proof (usable_len_bounds r Hr) as Hu. destruct Hr as [Hp Hl]. split.
    + apply set_received_wf; [done|apply u32_range|done|]. case_match; [|done].
      apply Forall_app_2; [done|by apply Forall_drop].
    + constructor; [|constructor; [apply u32_range|done]]. simpl. split; [done|].
      split; [by apply Forall_take|]. rewrite length_take. lia.
Qed.

Lemma complete_reads_wf (reads : list PendingRead) : Forall effect_wf (complete_reads reads).
Proof. induction reads; simpl; constructor; [simpl; word|done]. Qed.

Lemma fail_writes_wf (writes : list PendingWrite) : Forall effect_wf (fail_writes writes).
Proof. induction writes; simpl; constructor; done. Qed.

Create HintDb tcp.
#[export] Hint Resolve u32_range accept_data_wf set_received_wf set_sent_wf set_state_wf
  complete_reads_wf fail_writes_wf : tcp.
#[export] Hint Resolve wf_id wf_local wf_remote wf_lport wf_rport wf_sent wf_received wf_reads
  wf_writes wf_available : tcp.

(** [process_ack] on the packets that carry an acknowledgement. *)
Lemma maybe_ack_wf (c : t) (header : TcpHeader.t) :
  conn_wf c ->
  let r := if TcpHeader.is_ack header then process_ack c (u32_swap (TcpHeader.ack_number header))
           else (c, []) in
  conn_wf r.1 /\ Forall effect_wf r.2.
Proof. intros Hc. simpl. case_match; [by apply process_ack_wf|done]. Qed.

Lemma handle_connect_wf live (c : t) (local remote : Ipv4Address.t) (header : TcpHeader.t) (ack : bool) :
  conn_wf c -> Ipv4Address.wf local -> Ipv4Address.wf remote -> header_wf header ->
  exists c' effects, handle_connect live c local remote header ack = Some (c', effects) /\
    conn_wf c' /\ Forall effect_wf effects.
Proof.
  intros Hc Hl Hr Hh. unfold handle_connect.
  set (received := if ack then _ else _).
  assert (Hrec : is_u32 received).
  { subst received. destruct ack; [apply u32_range|]. apply u32_swap_range, Hh. }
  set (c' := set_connected c local remote _ received).
  assert (Hc' : conn_wf c') by (destruct Hc; constructor; try done; apply u32_range).
  assert (Hn : Forall effect_wf (notify_connect live c).1).
  { unfold notify_connect. destruct (on_connect c) as [[cb []]|]; [destruct (live _)|..];
      repeat constructor; by apply Hc. }
  destruct (notify_connect live c) as [notify go_on]. simpl in Hn.
  destruct go_on; cbn [negb]; [|eauto]. destruct ack; [|eauto].
  destruct (respond_ok c' local remote (u32 (u32_swap (TcpHeader.sequence_number header) + 1))
    TcpHeader.FLAG_ACK) as (packet & E & _ & Hw); [done..|apply u32_range|apply flags_u8|].
  rewrite E. cbn [mbind option_bind]. eexists _, _. split; [done|]. split; [done|].
  apply Forall_app_2; [done|by repeat constructor].
Qed.

Lemma handle_enqueue_wf (c : t) (local remote : Ipv4Address.t) (header : TcpHeader.t) (data : list Z) :
  conn_wf c -> Ipv4Address.wf local -> Ipv4Address.wf remote -> Forall is_u8 data ->
  exists c' effects, handle_enqueue c local remote header data = Some (c', effects) /\
    conn_wf c' /\ Forall effect_wf effects.
Proof.
  intros Hc Hl Hr Hd. unfold handle_enqueue.
  destruct (maybe_ack_wf c header Hc) as [Hc1 Ha]. simpl in Hc1, Ha.
  destruct (if TcpHeader.is_ack header then _ else _) as [c1 acked]. simpl in Hc1, Ha.
  destruct data as [|b data']; [eauto|]. set (data := b :: data') in *.
  destruct (negb _).
  - destruct (respond_ok c1 local remote (last_sequence_received c1) TcpHeader.FLAG_ACK)
      as (packet & E & _ & Hw); [done..|apply Hc1|apply flags_u8|].
    rewrite E. cbn [mbind option_bind]. eexists _, _. split; [done|]. split; [done|].
    apply Forall_app_2; [done|by repeat constructor].
  - destruct (accept_data_wf c1 header data Hc1 Hd) as [Hc2 He].
    destruct (accept_data c1 header data) as [c2 delivered]. simpl in Hc2, He.
    destruct (respond_ok c2 local remote (last_sequence_received c2) TcpHeader.FLAG_ACK)
      as (packet & E & _ & Hw); [done..|apply Hc2|apply flags_u8|].
    rewrite E. cbn [mbind option_bind]. eexists _, _. split; [done|]. split; [done|].
    apply Forall_app_2; [done|]. apply Forall_app_2; [done|by repeat constructor].
Qed.

Lemma handle_fin_wf (c : t) (local remote : Ipv4Address.t) (header : TcpHeader.t) (data : list Z) :
  conn_wf c -> Ipv4Address.wf local -> Ipv4Address.wf remote -> Forall is_u8 data ->
  exists c' effects, handle_fin c local remote header data = Some (c', effects) /\
    conn_wf c' /\ Forall effect_wf effects.
Proof.
  intros Hc Hl Hr Hd. unfold handle_fin.
  destruct (maybe_ack_wf c header Hc) as [Hc1 Ha]. simpl in Hc1, Ha.
  destruct (if TcpHeader.is_ack header then _ else _) as [c1 acked]. simpl in Hc1, Ha.
  assert (Hdel : exists c2 delivered,
    (match data with
     | [] => (c1, [])
     | _ :: _ => if negb (u32_swap (TcpHeader.sequence_number header) =? last_sequence_received c1)
                 then (c1, []) else accept_data c1 header data
     end) = (c2, delivered) /\ conn_wf c2 /\ Forall effect_wf delivered).
  { destruct data; [eauto|]. destruct (negb _); [eauto|].
    destruct (accept_data_wf c1 header (z :: data) Hc1 Hd) as [Hc2 He].
    destruct (accept_data _ _ _). eauto. }
  destruct Hdel as (c2 & delivered & -> & Hc2 & He).
  set (c3 := set_received _ _ _ _).
  assert (Hc3 : conn_wf c3) by (apply set_received_wf; eauto with tcp).
  destruct (respond_ok c3 local remote (u32 (last_sequence_received c3 + 1))
    (TcpHeader.FLAG_FIN .| TcpHeader.FLAG_ACK)) as (packet & E & _ & Hw);
    [done..|apply u32_range|apply flags_u8|].
  rewrite E. cbn [mbind option_bind]. eexists _, _. split; [done|]. split; [done|].
  rewrite !Forall_app. split_and!; [assumption..|apply complete_reads_wf|by repeat constructor].
Qed.

Lemma handle_packet_wf live (c : t) (local remote : Ipv4Address.t) (header : TcpHeader.t) (data : list Z) :
  conn_wf c -> Ipv4Address.wf local -> Ipv4Address.wf remote -> header_wf header -> Forall is_u8 data ->
  exists c' effects, handle_packet live c local remote header data = Some (c', effects) /\
    conn_wf c' /\ Forall effect_wf effects.
Proof.
  intros Hc Hl Hr Hh Hd. unfold handle_packet. destruct (action_for_tcp_packet c header).
  - by apply handle_enqueue_wf.
  - eauto.
  - eexists _, _. split; [done|]. split; [apply set_sent_wf; eauto with tcp|].
    apply Forall_app_2; auto with tcp.
  - destruct (respond_ok c local remote (u32 (u32_swap (TcpHeader.sequence_number header) + 1))
      (TcpHeader.FLAG_RST .| TcpHeader.FLAG_ACK)) as (packet & E & _ & Hw);
      [done..|apply u32_range|apply flags_u8|].
    rewrite E. cbn [mbind option_bind]. eexists _, _. split; [done|]. split; [done|by repeat constructor].
  - by apply handle_fin_wf.
  - by apply handle_connect_wf.
  - by apply handle_connect_wf.
Qed.

(** ** Segmentation of a write *)

(** The packets that carry [data] from sequence number [seq] on: all but the
    last one full, the last one with the push flag. *)
Inductive segments (c : t) : Z -> list Z -> list NetEffect -> Prop :=
| segments_nil (seq : Z) : segments c seq [] []
| segments_cons (seq : Z) (chunk rest packet : list Z) (effects : list NetEffect) :
    chunk <> [] -> (length chunk <= MSS)%nat -> (rest <> [] -> length chunk = MSS) ->
    TcpHeader.create_packet (local_address c) (local_port c) (remote_address c) (remote_port c)
      seq (last_sequence_received c)
      (if decide (rest = []) then TcpHeader.FLAG_ACK .| TcpHeader.FLAG_PSH else TcpHeader.FLAG_ACK)
      chunk = Some packet ->
    segments c (u32 (seq + Z.of_nat (length chunk))) rest effects ->
    segments c seq (chunk ++ rest) (NetRespond (remote_address c) packet :: effects).

Lemma write_loop_segments (fuel : nat) (c0 c : t) (data : list Z) (offset : nat) :
  local_address c = local_address c0 -> local_port c = local_port c0 ->
  remote_address c = remote_address c0 -> remote_port c = remote_port c0 ->
  last_sequence_received c = last_sequence_received c0 -> is_u32 (last_sequence_sent c) ->
  (offset <= length data)%nat -> (length data - offset <= fuel)%nat ->
  exists effects,
    write_loop fuel c data offset =
      Some (set_sent c (u32 (last_sequence_sent c + Z.of_nat (length data - offset))) (pending_writes c),
            effects) /\
    segments c0 (last_sequence_sent c) (drop offset data) effects.
Proof.
  revert c offset. induction fuel as [|fuel IH]; intros c offset E1 E2 E3 E4 E5 Hs Hoff Hfuel.
  - simpl. destruct (Nat.leb_spec (length data) offset); [|lia].
    exists []. rewrite drop_ge by lia. split; [|constructor].
    do 2 f_equal. replace (length data - offset)%nat with 0%nat by lia.
    rewrite Z.add_0_r, u32_small by done. by destruct c.
  - simpl. destruct (Nat.leb_spec (length data) offset).
    { exists []. rewrite drop_ge by lia. split; [|constructor].
      do 2 f_equal. replace (length data - offset)%nat with 0%nat by lia.
      rewrite Z.add_0_r, u32_small by done. by destruct c. }
    set (end_ := Nat.min (offset + MSS) (length data)).
    assert (Hend : (offset < end_ <= length data /\ end_ - offset <= MSS)%nat)
      by (subst end_; unfold MSS; lia).
    rewrite slice_ok by lia. cbn [mbind option_bind].
    set (chunk := take (end_ - offset) (drop offset data)).
    assert (Hchunk : length chunk = (end_ - offset)%nat)
      by (subst chunk; rewrite length_take, length_drop; lia).
    assert (Hsplit : drop offset data = chunk ++ drop end_ data).
    { subst chunk. rewrite <- (take_drop (end_ - offset) (drop offset data)) at 1.
      rewrite drop_drop. do 2 f_equal. lia. }
    set (flags := if (end_ =? length data)%nat then _ else _).
    destruct (create_packet_total (local_address c) (remote_address c) (local_port c) (remote_port c)
      (last_sequence_sent c) (last_sequence_received c) flags chunk) as [packet Ep].
    rewrite Ep. cbn [mbind option_bind].
    destruct (IH (set_sent c (u32 (last_sequence_sent c + Z.of_nat (length chunk))) (pending_writes c)) end_)
      as (effects & El & Hseg); [done..|apply u32_range|lia|lia|].
    rewrite El. cbn [mbind option_bind]. eexists. split.
    { do 3 f_equal. cbn [last_sequence_sent set_sent pending_writes]. rewrite Hchunk. unfold u32.
      rewrite Zplus_mod_idemp_l. f_equal. lia. }
    rewrite Hsplit, E3. constructor; try done.
    + intros ->. simpl in Hchunk. lia.
    + lia.
    + intros Hne. subst end_. rewrite Hchunk. destruct (decide (offset + MSS < length data)%nat); [lia|].
      destruct Hne. apply drop_ge. lia.
    + rewrite <- E1, <- E2, <- E3, <- E4, <- E5, <- Ep. f_equal. subst flags.
      destruct (Nat.eqb_spec end_ (length data)).
      * rewrite decide_True; [done|]. apply drop_ge. lia.
      * rewrite decide_False; [done|]. intros Hn. apply (f_equal length) in Hn.
        rewrite length_drop in Hn. simpl in Hn. lia.
Qed.

Lemma segments_wf (c : t) (seq : Z) (data : list Z) (effects : list NetEffect) :
  segments c seq data effects -> conn_wf c -> is_u32 seq -> Forall is_u8 data ->
  Forall effect_wf effects.
Proof.
  induction 1 as [|seq chunk rest packet effects _ Hlen _ Ep _ IH]; intros Hc Hs Hd; [constructor|].
  apply Forall_app in Hd as [Hd1 Hd2]. constructor; [|apply IH; [done|apply u32_range|done]].
  apply (packet_tcp_wire _ _ _ _ _ _ _ _ _ Ep (wf_local c Hc) (wf_remote c Hc) (wf_lport c Hc)
    (wf_rport c Hc) Hs (wf_received c Hc)); [|done..].
  case_decide; apply flags_u8.
Qed.

(** [write] on an established connection. *)
Lemma write_established (c : t) (data : list Z) (cb : AsyncCallback) :
  state c = Established -> is_u32 (last_sequence_sent c) ->
  exists effects,
    let sent := u32 (last_sequence_sent c + Z.of_nat (length data)) in
    write c data cb =
      Some (None, set_sent c sent (pending_writes c ++
        [{| end_sequence := sent; total_len := u32 (Z.of_nat (length data)); write_callback := cb |}]),
        effects) /\
    segments c (last_sequence_sent c) data effects.
Proof.
  intros Hst Hs. unfold write. rewrite Hst.
  destruct (write_loop_segments (length data) c c data 0) as (effects & E & Hseg); [done..|lia|lia|].
  rewrite Nat.sub_0_r in E. rewrite E. exists effects. split; [done|by rewrite drop_0 in Hseg].
Qed.

(** One operation on a well-typed connection. *)
Lemma run_op_wf live (translate : Z -> option Z) (c : t) (op : tcp_op)
    (Htr : forall v, exists p, translate v = Some p /\ is_u32 p)
    (Hc : conn_wf c) (Hop : op_wf op) :
  exists r c' effects, run_op live translate c op = Some (r, c', effects) /\
    conn_wf c' /\ Forall effect_wf effects.
Proof.
  destruct op as [local remote header data|data cb|buffer cb|]; simpl in Hop |- *.
  - destruct Hop as (Hl & Hr & Hh & Hd).
    destruct (handle_packet_wf live c local remote header data) as (c' & e & -> & ? & ?); [done..|].
    simpl. eauto 10.
  - destruct (decide (state c = Established)) as [Hst|Hst].
    + destruct (write_established c data cb Hst (wf_sent c Hc)) as (e & -> & Hseg).
      eexists _, _, _. split; [done|]. split; [|by eapply segments_wf; eauto with tcp].
      apply set_sent_wf; [done|apply u32_range|]. apply Forall_app_2; [apply Hc|].
      repeat constructor; apply u32_range.
    + unfold write. destruct (state c); try done; eauto 10.
  - unfold read. destruct Hop as [Hv Hl]. pose proof (wf_available c Hc) as Ha.
    destruct (available_data c) as [|b bs] eqn:E.
    + destruct (Htr (buf_vaddr buffer)) as (p & -> & Hp).
      assert (Hc' : conn_wf (set_received c (last_sequence_received c)
        (pending_reads c ++ [Build_PendingRead p (buf_len buffer) cb]) [])).
      { apply set_received_wf; eauto with tcp. apply Forall_app_2; [apply Hc|].
        constructor; [by split|constructor]. }
      destruct (state c); simpl; eauto 10.
    + eexists _, _, _. split; [done|]. split.
      * apply set_received_wf; eauto with tcp. by apply Forall_drop.
      * constructor; [|constructor]. split; [done|by apply Forall_take].
  - unfold close. set (c1 := set_sent _ _ _).
    assert (Hc1 : conn_wf c1) by (apply set_sent_wf; eauto with tcp).
    assert (He : Forall effect_wf (complete_reads (pending_reads c) ++ fail_writes (pending_writes c)))
      by (apply Forall_app_2; auto with tcp).
    destruct (decide (state c1 = Established)) as [Hst|Hst].
    2:{ exists None, c1. eexists. split; [destruct (state c1); done|done]. }
    rewrite Hst.
    destruct (create_packet_total (local_address c1) (remote_address c1) (local_port c1) (remote_port c1)
      (last_sequence_sent c1) (last_sequence_received c1) (TcpHeader.FLAG_FIN .| TcpHeader.FLAG_ACK) [])
      as [packet Ep].
    rewrite Ep. cbn [mbind option_bind]. eexists _, _, _. split; [done|]. split; [done|].
    apply Forall_app_2; [done|]. constructor; [|constructor].
    apply (packet_tcp_wire _ _ _ _ _ _ _ _ _ Ep (wf_local c1 Hc1) (wf_remote c1 Hc1) (wf_lport c1 Hc1)
      (wf_rport c1 Hc1) (wf_sent c1 Hc1) (wf_received c1 Hc1));
      [apply flags_u8|constructor|unfold MSS; simpl; lia].
Qed.


(** ** Every op is completed once *)

Definition connect_callback (o : option (AsyncCallback * bool)) : list AsyncCallback :=
  match o with Some (cb, _) => [cb] | None => [] end.

(** The ops a connection owes a result. *)
Definition waiting (c : t) : list AsyncCallback :=
  connect_callback (on_connect c) ++ map read_callback (pending_reads c) ++
  map write_callback (pending_writes c).

Definition completed (effects : list NetEffect) : list AsyncCallback :=
  flat_map (fun e => match e with
    | CompleteOp cb _ => [cb] | CompleteAccept cb _ => [cb] | _ => [] end) effects.

(** The op a call leaves pending. *)
Definition submitted (op : tcp_op) (r : option IoResult) : list AsyncCallback :=
  match op, r with
  | OpWrite _ cb, None => [cb]
  | OpRead _ cb, None => [cb]
  | _, _ => []
  end.

Lemma completed_app (a b : list NetEffect) : completed (a ++ b) = completed a ++ completed b.
Proof. apply flat_map_app. Qed.

Lemma completed_reads (reads : list PendingRead) :
  completed (complete_reads reads) = map read_callback reads.
Proof. induction reads; simpl; [done|by f_equal]. Qed.

Lemma completed_writes (writes : list PendingWrite) :
  completed (fail_writes writes) = map write_callback writes.
Proof. induction writes; simpl; [done|by f_equal]. Qed.

Lemma respond_completed (c : t) (local remote : Ipv4Address.t) (ack flags : Z) (effects : list NetEffect) :
  respond c local remote ack flags = Some effects -> completed effects = [].
Proof. unfold respond. intros H. by inv_bind. Qed.

Lemma segments_completed (c : t) (seq : Z) (data : list Z) (effects : list NetEffect) :
  segments c seq data effects -> completed effects = [].
Proof. by induction 1. Qed.

Lemma process_ack_completed (c : t) (ack : Z) :
  waiting c ≡ₚ completed (process_ack c ack).2 ++ waiting (process_ack c ack).1.
Proof.
  unfold process_ack, waiting.
  assert (forall ws, map write_callback ws =
    completed (process_ack_loop ack ws).2 ++ map write_callback (process_ack_loop ack ws).1) as Hloop.
  { induction ws as [|w ws IH]; simpl; [done|]. destruct (_ <? _); [|done].
    destruct (process_ack_loop ack ws) as [r e]. simpl in *. by rewrite IH. }
  rewrite (Hloop (pending_writes c)). destruct (process_ack_loop ack (pending_writes c)) as [r e].
  simpl. solve_Permutation.
Qed.

Lemma maybe_ack_completed (c : t) (header : TcpHeader.t) :
  let r := if TcpHeader.is_ack header then process_ack c (u32_swap (TcpHeader.ack_number header))
           else (c, []) in
  waiting c ≡ₚ completed r.2 ++ waiting r.1.
Proof. simpl. case_match; [apply process_ack_completed|done]. Qed.

Lemma accept_data_completed (c : t) (header : TcpHeader.t) (data : list Z) :
  waiting c ≡ₚ completed (accept_data c header data).2 ++ waiting (accept_data c header data).1.
Proof.
  unfold accept_data, waiting. destruct (pending_reads c) as [|r reads]; simpl; [done|].
  solve_Permutation.
Qed.

(** The task that waits for the connection still exists. *)
Definition waiter_live (live : Z -> bool) (c : t) : Prop :=
  forall cb b, on_connect c = Some (cb, b) -> live (fst (fst cb)) = true.

Lemma handle_connect_completed live (c c' : t) (local remote : Ipv4Address.t) (header : TcpHeader.t)
    (ack : bool) (effects : list NetEffect) :
  waiter_live live c -> handle_connect live c local remote header ack = Some (c', effects) ->
  waiting c ≡ₚ completed effects ++ waiting c' /\ on_connect c' = None.
Proof.
  intros Hlive. unfold handle_connect.
  assert (Hn : completed (notify_connect live c).1 = connect_callback (on_connect c) /\
    (notify_connect live c).2 = true).
  { unfold notify_connect. destruct (on_connect c) as [[cb []]|] eqn:E; simpl; [|done..].
    by rewrite (Hlive _ _ E). }
  destruct (notify_connect live c) as [notify go_on]. simpl in Hn. destruct Hn as [Hn ->].
  cbn [negb]. destruct ack; intros H.
  - apply bind_Some in H as (answer & Ha & H). injection H as <- <-.
    rewrite completed_app, (respond_completed _ _ _ _ _ _ Ha), app_nil_r, Hn. done.
  - injection H as <- <-. by rewrite Hn.
Qed.

Lemma handle_enqueue_completed (c c' : t) (local remote : Ipv4Address.t) (header : TcpHeader.t)
    (data : list Z) (effects : list NetEffect) :
  handle_enqueue c local remote header data = Some (c', effects) ->
  waiting c ≡ₚ completed effects ++ waiting c' /\ on_connect c' = on_connect c.
Proof.
  unfold handle_enqueue. pose proof (maybe_ack_completed c header) as Hack. simpl in Hack.
  assert (Hon : on_connect (if TcpHeader.is_ack header then
    process_ack c (u32_swap (TcpHeader.ack_number header)) else (c, [])).1 = on_connect c).
  { unfold process_ack. case_match; [|done]. by destruct (process_ack_loop _ _). }
  destruct (if TcpHeader.is_ack header then _ else _) as [c1 acked]. simpl in Hack, Hon.
  destruct data as [|b data']; [intros [= <- <-]; by split|]. destruct (negb _); intros H.
  - apply bind_Some in H as (answer & Ha & H). injection H as <- <-.
    by rewrite completed_app, (respond_completed _ _ _ _ _ _ Ha), app_nil_r.
  - pose proof (accept_data_completed c1 header (b :: data')) as Hacc.
    assert (Hon2 : on_connect (accept_data c1 header (b :: data')).1 = on_connect c1)
      by (unfold accept_data; by destruct (pending_reads c1)).
    destruct (accept_data _ _ _) as [c2 delivered]. simpl in Hacc, Hon2.
    apply bind_Some in H as (answer & Ha & H). injection H as <- <-.
    rewrite !completed_app, (respond_completed _ _ _ _ _ _ Ha), app_nil_r.
    split; [|congruence]. by rewrite Hack, Hacc, app_assoc.
Qed.

Lemma handle_fin_completed (c c' : t) (local remote : Ipv4Address.t) (header : TcpHeader.t)
    (data : list Z) (effects : list NetEffect) :
  handle_fin c local remote header data = Some (c', effects) ->
  waiting c ≡ₚ completed effects ++ waiting c' /\ on_connect c' = on_connect c.
Proof.
  unfold handle_fin. pose proof (maybe_ack_completed c header) as Hack. simpl in Hack.
  assert (Hon : on_connect (if TcpHeader.is_ack header then
    process_ack c (u32_swap (TcpHeader.ack_number header)) else (c, [])).1 = on_connect c).
  { unfold process_ack. case_match; [|done]. by destruct (process_ack_loop _ _). }
  destruct (if TcpHeader.is_ack header then _ else _) as [c1 acked]. simpl in Hack, Hon.
  set (r := match data with [] => _ | _ :: _ => _ end).
  assert (Hacc : waiting c1 ≡ₚ completed r.2 ++ waiting r.1 /\ on_connect r.1 = on_connect c1).
  { subst r. destruct data as [|b data']; [done|]. destruct (negb _); [done|].
    split; [apply accept_data_completed|]. unfold accept_data. by destruct (pending_reads c1). }
  destruct r as [c2 delivered]. simpl in Hacc. destruct Hacc as [Hacc Hon2]. intros H.
  apply bind_Some in H as (answer & Ha & H). injection H as <- <-.
  rewrite !completed_app, (respond_completed _ _ _ _ _ _ Ha), app_nil_r, completed_reads.
  split; [|simpl; congruence]. rewrite Hack, Hacc. unfold waiting. simpl. solve_Permutation.
Qed.

Lemma handle_packet_completed live (c c' : t) (local remote : Ipv4Address.t) (header : TcpHeader.t)
    (data : list Z) (effects : list NetEffect) :
  waiter_live live c -> handle_packet live c local remote header data = Some (c', effects) ->
  waiting c ≡ₚ completed effects ++ waiting c' /\
  (on_connect c' = on_connect c \/ on_connect c' = None).
Proof.
  intros Hlive. unfold handle_packet. destruct (action_for_tcp_packet c header); intros H.
  - apply handle_enqueue_completed in H as [? ?]. auto.
  - injection H as <- <-. auto.
  - injection H as <- <-. rewrite completed_app, completed_reads, completed_writes.
    split; [|by left]. unfold waiting. simpl. solve_Permutation.
  - apply bind_Some in H as (answer & Ha & H). injection H as <- <-.
    rewrite (respond_completed _ _ _ _ _ _ Ha). auto.
  - apply handle_fin_completed in H as [? ?]. auto.
  - apply handle_connect_completed in H as [? ?]; auto.
  - apply handle_connect_completed in H as [? ?]; auto.
Qed.

Lemma close_completed (c c' : t) (effects : list NetEffect) :
  close c = Some (c', effects) ->
  completed effects = map read_callback (pending_reads c) ++ map write_callback (pending_writes c) /\
  on_connect c' = on_connect c /\ pending_reads c' = [] /\ pending_writes c' = [].
Proof.
  unfold close. set (c1 := set_sent _ _ _). set (e := complete_reads _ ++ _). intros H.
  assert (He : completed e = map read_callback (pending_reads c) ++ map write_callback (pending_writes c))
    by (subst e; by rewrite completed_app, completed_reads, completed_writes).
  destruct (state c1); [| |apply bind_Some in H as (packet & _ & H)|];
    injection H as <- <-; [by split_and!..| |by split_and!].
  rewrite completed_app, He. simpl. rewrite app_nil_r. by split_and!.
Qed.

Lemma run_op_completed live translate (c c' : t) (op : tcp_op) (r : option IoResult)
    (effects : list NetEffect) :
  waiter_live live c -> is_u32 (last_sequence_sent c) ->
  run_op live translate c op = Some (r, c', effects) ->
  waiting c ++ submitted op r ≡ₚ completed effects ++ waiting c' /\
  (on_connect c' = on_connect c \/ on_connect c' = None).
Proof.
  intros Hlive Hs. destruct op as [local remote header data|data cb|buffer cb|]; simpl; intros H.
  - apply bind_Some in H as ([c1 e] & Hp & H). injection H as <- <- <-.
    rewrite app_nil_r. by eapply handle_packet_completed.
  - destruct (decide (state c = Established)) as [Hst|Hst].
    + destruct (write_established c data cb Hst Hs) as (e & E & Hseg).
      rewrite E in H. injection H as <- <- <-. rewrite (segments_completed _ _ _ _ Hseg).
      split; [|by left]. unfold waiting. simpl. rewrite map_app. simpl. solve_Permutation.
    + unfold write in H. destruct (state c); try done; injection H as <- <- <-;
        rewrite app_nil_r; auto.
  - unfold read in H. destruct (available_data c) as [|b bs] eqn:Ea.
    + destruct (state c); try (apply bind_Some in H as (p & _ & H));
        injection H as <- <- <-; (split; [|by left]); unfold waiting; simpl;
        rewrite ?map_app; simpl; solve_Permutation.
    + injection H as <- <- <-. rewrite app_nil_r. split; [done|by left].
  - apply bind_Some in H as ([c1 e] & Hp & H). injection H as <- <- <-. rewrite app_nil_r.
    apply close_completed in Hp as (He & Hon & Hr & Hw). split; [|by left].
    unfold waiting. rewrite He, Hon, Hr, Hw. simpl. rewrite app_nil_r. solve_Permutation.
Qed.

(** The ops left pending by a sequence of calls. *)
Fixpoint submitted_all (ops : list tcp_op) (rs : list (option IoResult)) : list AsyncCallback :=
  match ops, rs with
  | op :: ops, r :: rs => submitted op r ++ submitted_all ops rs
  | _, _ => []
  end.

(** C15: Every op is completed exactly once.  Over any sequence of packets,
    reads, writes and closes, the ops that were waiting at the start together
    with the ops that the calls left pending are, up to order, the ops
    completed on the way together with the ops still waiting at the end. *)
Theorem tcp_ops_complete_once live (translate : Z -> option Z) (c c' : t) (ops : list tcp_op)
    (rs : list (option IoResult)) (effects : list NetEffect)
    (Htr : forall v, exists p, translate v = Some p /\ is_u32 p)
    (Hc : conn_wf c) (Hops : Forall op_wf ops) (Hlive : waiter_live live c)
    (Hrun : run_ops live translate c ops = Some (rs, c', effects)) :
  waiting c ++ submitted_all ops rs ≡ₚ completed effects ++ waiting c'.
Proof.
  revert c rs effects Hc Hlive Hrun. induction Hops as [|op ops Hop Hops IH]; intros c rs effects Hc Hlive H.
  - injection H as <- <- <-. simpl. by rewrite app_nil_r.
  - destruct (run_op_wf live translate c op Htr Hc Hop) as (r & c1 & e & E & Hc1 & _).
    simpl in H. rewrite E in H. cbn [mbind option_bind] in H.
    apply bind_Some in H as ([[rs' c2] e'] & E' & H). injection H as <- -> <-.
    destruct (run_op_completed _ _ _ _ _ _ _ Hlive (wf_sent c Hc) E) as [Hp Hon].
    assert (Hlive1 : waiter_live live c1).
    { intros cb b Hcb. destruct Hon as [Hon|Hon]; rewrite Hon in Hcb; [by eapply Hlive|done]. }
    specialize (IH _ _ _ Hc1 Hlive1 E'). simpl. rewrite completed_app, <- app_assoc, <- IH.
    rewrite (app_assoc (completed e)), <- Hp. by rewrite <- app_assoc.
Qed.

(** ** Examples *)

Definition example_local : Ipv4Address.t := Ipv4Address 10 0 2 15.
Definition example_remote : Ipv4Address.t := Ipv4Address 10 0 2 2.

(** An established connection that expects sequence number [seq]. *)
Definition example_conn (local remote : Ipv4Address.t) (lport rport sent seq : Z) : t :=
  {| own_id := 3; local_address := local; local_port := lport; remote_address := remote;
     remote_port := rport; state := Established; last_sequence_sent := sent;
     last_sequence_received := seq; on_connect := None; pending_reads := [];
     pending_writes := []; available_data := [] |}.

(** The header of a data packet at [seq]. *)
Definition example_header (seq : Z) : TcpHeader.t :=
  {| TcpHeader.source_port := u16_swap 80; TcpHeader.dest_port := u16_swap 49152;
     TcpHeader.sequence_number := u32_swap seq; TcpHeader.ack_number := u32_swap 1;
     TcpHeader.data_offset := 0x50; TcpHeader.flags := TcpHeader.FLAG_ACK;
     TcpHeader.window_size := 0xffff; TcpHeader.checksum := 0; TcpHeader.urgent_pointer := 0 |}.

Definition example_receiver : t := example_conn example_local example_remote 49152 80 1 5000.

Definition example_packet (seq : Z) (data : list Z) : tcp_op :=
  OpPacket example_local example_remote (example_header seq) data.
Definition example_read (vaddr len op : Z) : tcp_op :=
  OpRead {| buf_vaddr := vaddr; buf_len := len |} (1, 2, op).

Lemma example_receiver_wf : conn_wf example_receiver.
Proof. constructor; repeat (constructor || split); vm_compute; congruence. Qed.

Lemma example_packet_wf (seq : Z) (data : list Z) :
  is_u32 seq -> Forall is_u8 data -> op_wf (example_packet seq data).
Proof.
  intros Hs Hd. split_and!; [repeat constructor; vm_compute; congruence..| |done].
  unfold header_wf, tcp_laws, example_header.
  split_and!; try (by apply u32_swap_range); vm_compute; split; congruence.
Qed.

Definition example_translate (v : Z) : option Z := Some (u32 v).

Lemma example_translate_ok (v : Z) : exists p, example_translate v = Some p /\ is_u32 p.
Proof. exists (u32 v). split; [done|apply u32_range]. Qed.

(** A packet, the same packet again, a read that is satisfied at once and one
    that waits. *)
Definition example_ops : list tcp_op :=
  [example_packet 5000 [65; 66]; example_packet 5000 [65; 66];
   example_read 8192 8 1; example_read 8192 8 2].

Lemma example_ops_wf : Forall op_wf example_ops.
Proof.
  repeat first [apply Forall_cons; split | apply Forall_nil; exact I].
  - apply example_packet_wf; [split; done|repeat constructor; done].
  - apply example_packet_wf; [split; done|repeat constructor; done].
  - split; split; done.
  - split; split; done.
Qed.


(** In the same run the op of the second read is the only one left waiting. *)
Lemma tcp_ops_complete_once_witness :
  exists rs c' effects,
    run_ops (fun _ => true) example_translate example_receiver example_ops = Some (rs, c', effects) /\
    waiting example_receiver ++ submitted_all example_ops rs ≡ₚ completed effects ++ waiting c' /\
    submitted_all example_ops rs = [(1, 2, 2)].
Proof.
  destruct (run_ops (fun _ => true) example_translate example_receiver example_ops)
    as [[[rs c'] effects]|] eqn:E; [|exfalso; vm_compute in E; discriminate].
  exists rs, c', effects. split; [done|]. split.
  - apply (tcp_ops_complete_once (fun _ => true) example_translate example_receiver c' example_ops rs
      effects example_translate_ok example_receiver_wf example_ops_wf); [by intros cb b|exact E].
  - vm_compute in E. injection E as <- _ _. reflexivity.
Defined.
