(* ===== verification/TcpStream.v ===== *)
(** * The byte stream of a TCP connection

    Delivery of the remote byte stream by [Tcp]: over any interleaving of
    packets, genuine or repeated or out of order, and of the calls of one
    reader, the bytes handed to the reader and the bytes still buffered are a
    prefix of the stream.  A write on one connection, carried as packets on
    the wire, arrives whole at the connection on the other side, whose answers
    complete the write. *)

From S2P Require Import Prelude Api NetPacket Ipv4 NetTransport Tcp TcpSpec.
Import TcpConnection.

(** The bytes copied to readers, in order. *)
Definition delivered (effects : list NetEffect) : list Z :=
  flat_map (fun e => match e with
    | WriteVirtual _ bytes => bytes | WritePhysical _ bytes => bytes | _ => [] end) effects.

Lemma delivered_app (a b : list NetEffect) : delivered (a ++ b) = delivered a ++ delivered b.
Proof. apply flat_map_app. Qed.

Lemma delivered_reads (reads : list PendingRead) : delivered (complete_reads reads) = [].
Proof. by induction reads. Qed.

Lemma delivered_writes (writes : list PendingWrite) : delivered (fail_writes writes) = [].
Proof. by induction writes. Qed.

Lemma delivered_respond (c : t) (local remote : Ipv4Address.t) (ack flags : Z) (effects : list NetEffect) :
  respond c local remote ack flags = Some effects -> delivered effects = [].
Proof. unfold respond. intros H. apply bind_Some in H as (p & _ & H). by injection H as <-. Qed.

Lemma delivered_segments (c : t) (seq : Z) (data : list Z) (effects : list NetEffect) :
  segments c seq data effects -> delivered effects = [].
Proof. by induction 1. Qed.

(** What a step that touches only writes and acknowledgements preserves. *)
Definition same_receiver (c c' : t) : Prop :=
  available_data c' = available_data c /\ pending_reads c' = pending_reads c /\
  last_sequence_received c' = last_sequence_received c /\ state c' = state c /\
  last_sequence_sent c' = last_sequence_sent c.

Lemma process_ack_receiver (c : t) (ack : Z) :
  same_receiver c (process_ack c ack).1 /\ delivered (process_ack c ack).2 = [].
Proof.
  unfold process_ack.
  assert (forall ws, delivered (process_ack_loop ack ws).2 = []) as Hd.
  { induction ws as [|w ws IH]; simpl; [done|]. destruct (_ <? _); [|done].
    by destruct (process_ack_loop ack ws). }
  specialize (Hd (pending_writes c)). by destruct (process_ack_loop _ _).
Qed.

Lemma maybe_ack_receiver (c : t) (header : TcpHeader.t) :
  let r := if TcpHeader.is_ack header then process_ack c (u32_swap (TcpHeader.ack_number header))
           else (c, []) in
  same_receiver c r.1 /\ delivered r.2 = [].
Proof. simpl. case_match; [apply process_ack_receiver|done]. Qed.

Section Stream.
(** The bytes the remote side sends, numbered from sequence number [base]. *)
Context (stream : list Z) (base : Z) (live : Z -> bool) (translate : Z -> option Z).

(** A packet of the remote side, when [n] bytes have arrived: its data is a
    part of the stream at some offset less than half the sequence space away,
    at the sequence number of that offset.  Repeated and reordered packets are
    genuine. *)
Definition genuine (n : nat) (header : TcpHeader.t) (data : list Z) : Prop :=
  exists o : nat, data `prefix_of` drop o stream /\
    u32_swap (TcpHeader.sequence_number header) = u32 (base + Z.of_nat o) /\
    Z.abs (Z.of_nat o - Z.of_nat n) < 2 ^ 31.

(** The bytes received so far. *)
Definition received (c : t) (trace : list NetEffect) : list Z := delivered trace ++ available_data c.

(** Steps of a connection with one reader at a time. *)
Inductive stream_step : t * list NetEffect -> t * list NetEffect -> Prop :=
| step_packet (c c' : t) (trace effects : list NetEffect) local remote header data :
    genuine (length (received c trace)) header data ->
    handle_packet live c local remote header data = Some (c', effects) ->
    stream_step (c, trace) (c', trace ++ effects)
| step_read (c c' : t) (trace effects : list NetEffect) buffer callback r :
    pending_reads c = [] ->
    read translate c buffer callback = Some (r, c', effects) ->
    stream_step (c, trace) (c', trace ++ effects)
| step_write (c c' : t) (trace effects : list NetEffect) data callback r :
    write c data callback = Some (r, c', effects) ->
    stream_step (c, trace) (c', trace ++ effects)
| step_close (c c' : t) (trace effects : list NetEffect) :
    close c = Some (c', effects) ->
    stream_step (c, trace) (c', trace ++ effects).

Record stream_inv (s : t * list NetEffect) : Prop := {
  inv_prefix : received s.1 s.2 `prefix_of` stream;
  inv_seq : last_sequence_received s.1 = u32 (base + Z.of_nat (length (received s.1 s.2)));
  inv_one : pending_reads s.1 = [] \/
            exists r, pending_reads s.1 = [r] /\ available_data s.1 = [];
  inv_state : state s.1 = Established \/ state s.1 = LastAck;
  inv_sent : is_u32 (last_sequence_sent s.1)
}.

(** A packet at the expected sequence number is the next part of the stream. *)
Lemma genuine_next (n : nat) (header : TcpHeader.t) (data : list Z) :
  genuine n header data ->
  u32_swap (TcpHeader.sequence_number header) = u32 (base + Z.of_nat n) ->
  data `prefix_of` drop n stream.
Proof.
  intros (o & Hp & Hs & Hw) Hn. rewrite Hs in Hn. replace n with o; [done|].
  unfold u32 in Hn. change (2 ^ 31) with 2147483648 in Hw. change (2 ^ 32) with 4294967296 in Hn.
  Z.div_mod_to_equations. lia.
Qed.

Lemma prefix_extend (l data : list Z) :
  l `prefix_of` stream -> data `prefix_of` drop (length l) stream -> l ++ data `prefix_of` stream.
Proof.
  intros [k ->] [k' Hk']. rewrite drop_app_length in Hk'. subst k.
  exists k'. by rewrite app_assoc.
Qed.

(** Delivery of in-order data keeps the order. *)
Lemma accept_data_received (c : t) (trace : list NetEffect) (header : TcpHeader.t) (data : list Z) :
  (pending_reads c = [] \/ exists r, pending_reads c = [r] /\ available_data c = []) ->
  let c' := (accept_data c header data).1 in
  let e := (accept_data c header data).2 in
  received c' (trace ++ e) = received c trace ++ data /\ pending_reads c' = [] /\
  last_sequence_received c' =
    u32 (u32_swap (TcpHeader.sequence_number header) + Z.of_nat (length data)) /\
  state c' = state c /\ last_sequence_sent c' = last_sequence_sent c.
Proof.
  unfold accept_data, received. intros [Hr|(r & Hr & Ha)]; rewrite Hr; simpl.
  - by rewrite app_nil_r, app_assoc.
  - rewrite delivered_app, Ha, app_nil_r. simpl. split_and!; try done. rewrite <- app_assoc.
    f_equal. set (n := Z.to_nat _). rewrite app_nil_r. destruct (Nat.ltb_spec n (length data)).
    + apply take_drop.
    + by rewrite app_nil_r, take_ge.
Qed.

Lemma stream_inv_same (c c' : t) (trace effects : list NetEffect) :
  stream_inv (c, trace) -> same_receiver c c' -> delivered effects = [] ->
  stream_inv (c', trace ++ effects).
Proof.
  intros [H1 H2 H3 H4 H5] (Ea & Er & Es & Et & Ex) He. unfold received in *. simpl in *.
  split; unfold received; simpl; rewrite ?delivered_app, ?He, ?app_nil_r, ?Ea, ?Er, ?Es, ?Et, ?Ex; done.
Qed.

Lemma inv_accept (c : t) (trace : list NetEffect) (header : TcpHeader.t) (data : list Z) :
  stream_inv (c, trace) -> genuine (length (received c trace)) header data ->
  u32_swap (TcpHeader.sequence_number header) = last_sequence_received c ->
  stream_inv ((accept_data c header data).1, trace ++ (accept_data c header data).2).
Proof.
  intros [H1 H2 H3 H4 H5] Hg Hseq. simpl in *.
  destruct (accept_data_received c trace header data H3) as (Er & Ep & Es & Et & Ex).
  split; simpl.
  - rewrite Er. apply prefix_extend; [done|]. by apply (genuine_next _ header); [|congruence].
  - rewrite Es, Er, Hseq, H2, length_app. unfold u32. rewrite Zplus_mod_idemp_l. f_equal. lia.
  - by left.
  - by rewrite Et.
  - by rewrite Ex.
Qed.

(** Dropping the waiting reads, and any change of the writes. *)
Lemma inv_drop_reads (c c' : t) (trace effects : list NetEffect) :
  stream_inv (c, trace) -> available_data c' = available_data c -> pending_reads c' = [] ->
  last_sequence_received c' = last_sequence_received c ->
  (state c' = Established \/ state c' = LastAck) -> is_u32 (last_sequence_sent c') ->
  delivered effects = [] -> stream_inv (c', trace ++ effects).
Proof.
  intros [H1 H2 H3 H4 H5] Ea Er Es Et Ex He. unfold received in *. simpl in *.
  split; unfold received; simpl; rewrite ?delivered_app, ?He, ?app_nil_r, ?Ea, ?Er, ?Es; auto.
Qed.

Lemma genuine_same (c c' : t) (trace effects : list NetEffect) header data :
  same_receiver c c' -> delivered effects = [] ->
  genuine (length (received c trace)) header data ->
  genuine (length (received c' (trace ++ effects))) header data.
Proof.
  intros (Ea & _) He. unfold received. by rewrite delivered_app, He, Ea, app_nil_r.
Qed.

Lemma handle_enqueue_stream (c c' : t) (trace effects : list NetEffect) local remote header data :
  stream_inv (c, trace) -> genuine (length (received c trace)) header data ->
  handle_enqueue c local remote header data = Some (c', effects) ->
  stream_inv (c', trace ++ effects).
Proof.
  intros Hinv Hg. unfold handle_enqueue. destruct (maybe_ack_receiver c header) as [Hs Hd].
  destruct (if TcpHeader.is_ack header then _ else _) as [c1 acked]. simpl in Hs, Hd.
  pose proof (stream_inv_same c c1 trace acked Hinv Hs Hd) as Hinv1.
  pose proof (genuine_same c c1 trace acked header data Hs Hd Hg) as Hg1.
  destruct data as [|b data']; [intros [= <- <-]; done|]. set (data := b :: data') in *.
  destruct (Z.eqb_spec (u32_swap (TcpHeader.sequence_number header)) (last_sequence_received c1)) as [Hq|_];
    cbn [negb]; intros H.
  - pose proof (inv_accept c1 _ header data Hinv1 Hg1 Hq) as Hinv2.
    destruct (accept_data c1 header data) as [c2 del]. simpl in Hinv2.
    apply bind_Some in H as (answer & Ha & H). injection H as <- <-.
    rewrite !app_assoc. apply (stream_inv_same c2); [exact Hinv2|repeat split|exact (delivered_respond _ _ _ _ _ _ Ha)].
  - apply bind_Some in H as (answer & Ha & H). injection H as <- <-.
    rewrite !app_assoc. apply (stream_inv_same c1); [exact Hinv1|repeat split|exact (delivered_respond _ _ _ _ _ _ Ha)].
Qed.

Lemma handle_fin_stream (c c' : t) (trace effects : list NetEffect) local remote header data :
  stream_inv (c, trace) -> genuine (length (received c trace)) header data ->
  handle_fin c local remote header data = Some (c', effects) ->
  stream_inv (c', trace ++ effects).
Proof.
  intros Hinv Hg. unfold handle_fin. destruct (maybe_ack_receiver c header) as [Hs Hd].
  destruct (if TcpHeader.is_ack header then _ else _) as [c1 acked]. simpl in Hs, Hd.
  pose proof (stream_inv_same c c1 trace acked Hinv Hs Hd) as Hinv1.
  pose proof (genuine_same c c1 trace acked header data Hs Hd Hg) as Hg1.
  set (r := match data with [] => _ | _ :: _ => _ end).
  assert (Hinv2 : stream_inv (r.1, (trace ++ acked) ++ r.2)).
  { subst r. destruct data as [|b data']; [by rewrite app_nil_r|].
    destruct (Z.eqb_spec (u32_swap (TcpHeader.sequence_number header)) (last_sequence_received c1));
      cbn [negb]; [by apply inv_accept|by rewrite app_nil_r]. }
  destruct r as [c2 del]. simpl in Hinv2. intros H.
  apply bind_Some in H as (answer & Ha & H). injection H as <- <-.
  rewrite !app_assoc, <- (app_assoc ((trace ++ acked) ++ del)).
  apply (inv_drop_reads c2); simpl; auto; [apply Hinv2|].
  by rewrite delivered_app, delivered_reads, (delivered_respond _ _ _ _ _ _ Ha).
Qed.

Lemma handle_packet_stream (c c' : t) (trace effects : list NetEffect) local remote header data :
  stream_inv (c, trace) -> genuine (length (received c trace)) header data ->
  handle_packet live c local remote header data = Some (c', effects) ->
  stream_inv (c', trace ++ effects).
Proof.
  intros Hinv Hg. unfold handle_packet. destruct (action_for_tcp_packet c header) eqn:Eact; intros H.
  - by eapply handle_enqueue_stream.
  - injection H as <- <-. by rewrite app_nil_r.
  - injection H as <- <-. apply (inv_drop_reads c); simpl; auto; try apply Hinv.
    by rewrite delivered_app, delivered_reads, delivered_writes.
  - apply bind_Some in H as (answer & Ha & H). injection H as <- <-.
    apply (stream_inv_same c); [exact Hinv|repeat split|exact (delivered_respond _ _ _ _ _ _ Ha)].
  - by eapply handle_fin_stream.
  - unfold action_for_tcp_packet in Eact. destruct (inv_state _ Hinv) as [E|E]; simpl in E;
      rewrite E in Eact; repeat case_match; done.
  - unfold action_for_tcp_packet in Eact. destruct (inv_state _ Hinv) as [E|E]; simpl in E;
      rewrite E in Eact; repeat case_match; done.
Qed.

Lemma read_stream (c c' : t) (trace effects : list NetEffect) buffer callback r :
  stream_inv (c, trace) -> pending_reads c = [] ->
  read translate c buffer callback = Some (r, c', effects) -> stream_inv (c', trace ++ effects).
Proof.
  intros [H1 H2 H3 H4 H5] Hnone. unfold received in *. simpl in *. unfold read.
  destruct (available_data c) as [|b bs] eqn:Ea.
  - intros H. destruct H4 as [E|E]; rewrite E in H; [apply bind_Some in H as (p & _ & H)|];
      injection H as <- <- <-; rewrite app_nil_r; split; unfold received; simpl; rewrite ?Ea; auto.
    rewrite Hnone. right. eexists. by split.
  - intros [= <- <- <-]. set (n := Z.to_nat _).
    assert (E : received (set_received c (last_sequence_received c) (pending_reads c) (drop n (b :: bs)))
      (trace ++ [WriteVirtual (buf_vaddr buffer) (take n (b :: bs))]) = delivered trace ++ b :: bs).
    { unfold received. rewrite delivered_app. simpl. rewrite app_nil_r, <- app_assoc.
      f_equal. apply take_drop. }
    split; simpl; rewrite ?E; auto.
Qed.

Lemma stream_step_inv (s s' : t * list NetEffect) :
  stream_inv s -> stream_step s s' -> stream_inv s'.
Proof.
  intros Hinv Hstep. destruct Hstep as [c c' tr e l r h d Hg H|c c' tr e b cb r Hn H|c c' tr e d cb r H|c c' tr e H].
  - by eapply handle_packet_stream.
  - by eapply read_stream.
  - destruct (decide (state c = Established)) as [Hst|Hst].
    + destruct (write_established c d cb Hst (inv_sent _ Hinv)) as (e' & E & Hseg).
      rewrite E in H. injection H as <- <- <-. pose proof (delivered_segments _ _ _ _ Hseg) as Hd.
      destruct Hinv as [H1 H2 H3 H4 H5].
      split; unfold received in *; simpl in *; rewrite ?delivered_app, ?Hd, ?app_nil_r; auto.
      apply u32_range.
    + unfold write in H. destruct (state c); try done; injection H as <- <- <-; by rewrite app_nil_r.
  - unfold close in H. set (c1 := set_sent _ _ _) in H. set (e0 := complete_reads _ ++ _) in H.
    assert (He : delivered e0 = []) by (subst e0; by rewrite delivered_app, delivered_reads, delivered_writes).
    destruct (state c1); [| |apply bind_Some in H as (packet & _ & H)|]; injection H as <- <-;
      (apply (inv_drop_reads c); simpl; auto; first [apply Hinv | by rewrite ?delivered_app, He]).
Qed.

End Stream.

(** ** A packet from one connection to another *)

(** The parts of a TCP packet, as the receive path cuts them out of a frame:
    the IPv4 header, the TCP header, and the rest up to the total length. *)
Definition decode_tcp (packet : list Z) : option (Ipv4Header.t * TcpHeader.t * list Z) :=
  ip ← try_from_u8_buffer packet;
  let payload_length := Z.to_nat (u16_swap (Ipv4Header.total_length ip) - 20) in
  payload ← slice packet (get_size Ipv4Header.t) payload_length;
  tcp ← try_from_u8_buffer payload;
  Some (ip, tcp, drop (get_size TcpHeader.t) payload).

Definition receive (live : Z -> bool) (c : t) (packet : list Z) : option (t * list NetEffect) :=
  '(ip, header, data) ← decode_tcp packet;
  handle_packet live c (Ipv4Header.dest ip) (Ipv4Header.source ip) header data.

(** The packets among the calls of the other side, received in order. *)
Fixpoint receive_all (live : Z -> bool) (c : t) (effects : list NetEffect) : option (t * list NetEffect) :=
  match effects with
  | [] => Some (c, [])
  | NetRespond _ packet :: effects =>
      '(c, e) ← receive live c packet;
      '(c, e') ← receive_all live c effects;
      Some (c, e ++ e')
  | _ :: effects => receive_all live c effects
  end.

Lemma decode_create (src dst : Ipv4Address.t) (sp dp seq ack flags : Z) (data packet : list Z) :
  TcpHeader.create_packet src sp dst dp seq ack flags data = Some packet ->
  Ipv4Address.wf src -> Ipv4Address.wf dst -> is_u16 sp -> is_u16 dp ->
  is_u32 seq -> is_u32 ack -> is_u8 flags -> Forall is_u8 data -> (length data <= MSS)%nat ->
  exists ip tcp, decode_tcp packet = Some (ip, tcp, data) /\
    Ipv4Header.source ip = src /\ Ipv4Header.dest ip = dst /\ header_wf tcp /\
    u16_swap (TcpHeader.source_port tcp) = sp /\ u16_swap (TcpHeader.dest_port tcp) = dp /\
    u32_swap (TcpHeader.sequence_number tcp) = seq /\ u32_swap (TcpHeader.ack_number tcp) = ack /\
    TcpHeader.flags tcp = flags.
Proof.
  intros E Hs Hd Hsp Hdp Hseq Hack Hfl Hdata Hlen.
  assert (Z.of_nat (length data) <= 1460) by (unfold MSS in Hlen; lia).
  destruct (create_packet_wire src dst sp dp seq ack flags data)
    as (ip & tcp & E' & Hip & Htcp & _ & _ & Htl & _ & His & Hid & H1 & H2 & H3 & H4 & H5 & _);
    [done..|lia|].
  assert (packet = as_u8_buffer ip ++ as_u8_buffer tcp ++ data) as -> by congruence.
  exists ip, tcp. split; [|done]. unfold decode_tcp.
  rewrite try_from_as_u8_buffer by done. cbn [mbind option_bind]. rewrite Htl.
  set (rest := as_u8_buffer tcp ++ data).
  assert (Hrest : Z.to_nat (40 + Z.of_nat (length data) - 20) = length rest).
  { subst rest. rewrite length_app, as_u8_buffer_length. change (get_size TcpHeader.t) with 20%nat. lia. }
  rewrite Hrest, slice_ok by (rewrite length_app, as_u8_buffer_length; lia). cbn [mbind option_bind].
  assert (Edrop : drop (get_size Ipv4Header.t) (as_u8_buffer ip ++ rest) = rest)
    by (rewrite <- (as_u8_buffer_length ip); apply drop_app_length).
  rewrite Edrop, firstn_all. subst rest.
  rewrite try_from_as_u8_buffer by done. cbn [mbind option_bind].
  rewrite <- (as_u8_buffer_length tcp) at 1. by rewrite drop_app_length.
Qed.

(** A header with these flags is plain data or a plain acknowledgement. *)
Lemma data_flags (h : TcpHeader.t) (f : Z) :
  TcpHeader.flags h = f ->
  f = TcpHeader.FLAG_ACK \/ f = TcpHeader.FLAG_ACK .| TcpHeader.FLAG_PSH ->
  TcpHeader.is_rst h = false /\ TcpHeader.is_fin h = false /\ TcpHeader.is_syn h = false /\
  TcpHeader.is_ack h = true.
Proof.
  unfold TcpHeader.is_rst, TcpHeader.is_fin, TcpHeader.is_syn, TcpHeader.is_ack.
  by intros -> [-> | ->].
Qed.

Lemma handle_established live (c : t) local remote (h : TcpHeader.t) (f : Z) (data : list Z) :
  state c = Established -> TcpHeader.flags h = f ->
  f = TcpHeader.FLAG_ACK \/ f = TcpHeader.FLAG_ACK .| TcpHeader.FLAG_PSH ->
  handle_packet live c local remote h data = handle_enqueue c local remote h data.
Proof.
  intros Hst Hf Hor. destruct (data_flags h f Hf Hor) as (E1 & E2 & E3 & _).
  unfold handle_packet, action_for_tcp_packet. by rewrite E1, Hst, E2, E3.
Qed.

(** The answers of a receiver to the segments of [data]: one acknowledgement
    per segment, each up to the end of its segment. *)
Inductive answers (b : t) (local remote : Ipv4Address.t) : Z -> list Z -> list NetEffect -> Prop :=
| answers_nil (seq : Z) : answers b local remote seq [] []
| answers_cons (seq : Z) (chunk rest packet : list Z) (effects : list NetEffect) :
    chunk <> [] ->
    TcpHeader.create_packet local (local_port b) remote (remote_port b) (last_sequence_sent b)
      (u32 (seq + Z.of_nat (length chunk))) TcpHeader.FLAG_ACK [] = Some packet ->
    answers b local remote (u32 (seq + Z.of_nat (length chunk))) rest effects ->
    answers b local remote seq (chunk ++ rest) (NetRespond remote packet :: effects).

(** What the receiving side looks like after [data]. *)
Definition after_data (b : t) (seq : Z) (data : list Z) : t :=
  set_received b (u32 (seq + Z.of_nat (length data))) [] (available_data b ++ data).

Lemma after_data_app (b : t) (seq : Z) (d1 d2 : list Z) :
  after_data (after_data b seq d1) (u32 (seq + Z.of_nat (length d1))) d2 = after_data b seq (d1 ++ d2).
Proof.
  unfold after_data, set_received. simpl. rewrite <- app_assoc. f_equal.
  rewrite length_app. unfold u32. rewrite Zplus_mod_idemp_l. f_equal. lia.
Qed.

Lemma receive_segments live (a b : t) (seq : Z) (data : list Z) (effects : list NetEffect) :
  segments a seq data effects -> conn_wf a -> conn_wf b -> is_u32 seq -> Forall is_u8 data ->
  state b = Established -> pending_reads b = [] -> pending_writes b = [] ->
  last_sequence_received b = seq ->
  exists acks, receive_all live b effects = Some (after_data b seq data, acks) /\
    answers b (remote_address a) (local_address a) seq data acks.
Proof.
  intros Hseg. revert b. induction Hseg as [seq|seq chunk rest packet effects Hne Hlen _ Ep _ IH];
    intros b Ha Hb Hs Hd Hst Hr Hw Hseq.
  { exists []. split; [|constructor]. simpl. do 2 f_equal. unfold after_data.
    simpl. rewrite app_nil_r, Z.add_0_r, u32_small, <- Hr, <- Hseq by done. by destruct b. }
  apply Forall_app in Hd as [Hd1 Hd2].
  set (flags := if decide (rest = []) then _ else _) in Ep.
  assert (Hfl : flags = TcpHeader.FLAG_ACK \/ flags = TcpHeader.FLAG_ACK .| TcpHeader.FLAG_PSH)
    by (subst flags; case_decide; auto).
  assert (Hf8 : is_u8 flags) by (destruct Hfl as [-> | ->]; apply flags_u8).
  destruct (decode_create _ _ _ _ _ _ _ _ _ Ep (wf_local a Ha) (wf_remote a Ha) (wf_lport a Ha)
    (wf_rport a Ha) Hs (wf_received a Ha) Hf8 Hd1 Hlen)
    as (ip & h & Ed & Eis & Eid & Hwf & _ & _ & Esq & _ & Efl).
  destruct (data_flags h flags Efl Hfl) as (_ & _ & _ & Eack).
  set (b1 := after_data b seq chunk).
  assert (Hb1 : conn_wf b1).
  { apply set_received_wf; [done|apply u32_range|constructor|].
    apply Forall_app_2; [apply Hb|done]. }
  destruct (respond_ok b1 (remote_address a) (local_address a) (last_sequence_received b1) TcpHeader.FLAG_ACK)
    as (ack & Eres & Eack' & _); [done|apply Ha|apply Ha|apply u32_range|apply flags_u8|].
  assert (Erec : receive live b packet = Some (b1, [NetRespond (local_address a) ack])).
  { unfold receive. rewrite Ed. cbn [mbind option_bind].
    rewrite (handle_established live b _ _ h flags chunk Hst Efl Hfl). unfold handle_enqueue.
    rewrite Eack. unfold process_ack. rewrite Hw. cbn [process_ack_loop].
    replace (set_sent b (last_sequence_sent b) []) with b by (rewrite <- Hw; by destruct b).
    destruct chunk as [|x chunk]; [destruct (Hne eq_refl)|]. rewrite Esq, <- Hseq, Z.eqb_refl. cbn [negb].
    unfold accept_data. rewrite Hr, Esq.
    replace (set_received b (u32 (seq + Z.of_nat (length (x :: chunk)))) []
      (available_data b ++ x :: chunk)) with b1 by done.
    rewrite Eid, Eis, Eres. done. }
  cbn [receive_all]. rewrite Erec. cbn [mbind option_bind].
  destruct (IH b1 Ha Hb1 (u32_range _) Hd2) as (acks & Eall & Hans); [done..|].
  rewrite Eall. cbn [mbind option_bind]. exists (NetRespond (local_address a) ack :: acks). split.
  - unfold b1. by rewrite after_data_app.
  - constructor; [done|exact Eack'|]. clear -Hans. 
    induction Hans; [constructor|]. econstructor; eauto.
Qed.

(** An acknowledgement covers a write exactly when it reaches its end. *)
Lemma ack_reaches (seq k len : Z) :
  is_u32 seq -> 0 < k <= len -> len <= 2 ^ 31 ->
  (u32 (u32 (seq + k) - u32 (seq + len)) <? 0x80000000) = (k =? len).
Proof.
  intros Hs Hk Hlen. unfold u32. rewrite <- Zminus_mod. unfold is_u32 in Hs.
  change (2 ^ 31) with 2147483648 in *. change (2 ^ 32) with 4294967296 in *.
  replace (seq + k - (seq + len)) with (k - len) by lia.
  destruct (Z.eqb_spec k len) as [->|].
  - by rewrite Z.sub_diag.
  - replace ((k - len) mod 4294967296) with (k - len + 4294967296).
    + apply Z.ltb_ge. lia.
    + apply (Z.mod_unique_pos _ _ (-1)); lia.
Qed.

(** The sender, fed with the answers, completes its write with the last one. *)
Lemma receive_answers live (a b : t) (w : PendingWrite) (src dst : Ipv4Address.t) (seq : Z)
    (data : list Z) (effects : list NetEffect) :
  answers b src dst seq data effects -> data <> [] ->
  Ipv4Address.wf src -> Ipv4Address.wf dst -> conn_wf b -> is_u32 seq ->
  Z.of_nat (length data) <= 2 ^ 31 ->
  state a = Established -> pending_writes a = [w] ->
  end_sequence w = u32 (seq + Z.of_nat (length data)) ->
  receive_all live a effects =
    Some (set_sent a (last_sequence_sent a) [], [CompleteOp (write_callback w) (Ok (total_len w))]).
Proof.
  intros Hans. revert a. induction Hans as [|seq chunk rest packet effects Hne Ep Hans IH];
    intros a Hdata Hsrc Hdst Hb Hs Hlen Hst Hw Hend; [done|].
  destruct (decode_create _ _ _ _ _ _ _ _ _ Ep Hsrc Hdst (wf_lport b Hb) (wf_rport b Hb)
    (wf_sent b Hb) (u32_range _) (proj1 flags_u8) (Forall_nil_2 _))
    as (ip & h & Ed & _ & _ & _ & _ & _ & _ & Eack & Efl); [unfold MSS; simpl; lia|].
  destruct (data_flags h _ Efl (or_introl eq_refl)) as (_ & _ & _ & Eisack).
  rewrite length_app in Hlen, Hend.
  assert (Hpos : (0 < length chunk)%nat) by (destruct chunk; [destruct (Hne eq_refl)|simpl; lia]).
  cbn [receive_all]. unfold receive at 1. rewrite Ed. cbn [mbind option_bind].
  rewrite (handle_established live a _ _ h _ [] Hst Efl (or_introl eq_refl)). unfold handle_enqueue.
  rewrite Eisack. unfold process_ack. rewrite Hw, Eack. cbn [process_ack_loop]. rewrite Hend.
  rewrite ack_reaches by (exact Hs || lia).
  destruct (Z.eqb_spec (Z.of_nat (length chunk)) (Z.of_nat (length chunk + length rest))) as [Hall|Hpart].
  - cbn [mbind option_bind]. destruct rest; [|simpl in Hall; lia]. inversion Hans; subst.
    + done.
    + destruct chunk0; [congruence|discriminate].
  - cbn [mbind option_bind]. replace (set_sent a (last_sequence_sent a) [w]) with a
      by (rewrite <- Hw; by destruct a).
    assert (Hrest : rest <> []) by (intros ->; simpl in Hpart; lia).
    assert (He : end_sequence w = u32 (u32 (seq + Z.of_nat (length chunk)) + Z.of_nat (length rest))).
    { rewrite Hend. unfold u32. rewrite Zplus_mod_idemp_l. f_equal. lia. }
    by rewrite (IH a Hrest Hsrc Hdst Hb (u32_range _) ltac:(lia) Hst Hw He).
Qed.


(** ** Examples *)

Lemma example_genuine (seq : Z) (o n : nat) (data stream : list Z) :
  data `prefix_of` drop o stream -> is_u32 seq -> seq = u32 (5000 + Z.of_nat o) ->
  Z.abs (Z.of_nat o - Z.of_nat n) < 2 ^ 31 ->
  genuine stream 5000 n (example_header seq) data.
Proof.
  intros Hp Hs He Hn. exists o. split; [done|]. split; [|done].
  cbn [example_header TcpHeader.sequence_number]. by rewrite u32_swap_swap.
Qed.


Definition example_sender : t := example_conn example_remote example_local 80 49152 5000 1.


(** With two reads waiting the stream is delivered out of order.  Two
    reads of one byte wait when the packets [AB] and [CD] arrive in order: the
    first read gets [A], the second one gets [C], and [B] is handed out only
    after it. *)
Theorem two_waiting_reads_reorder :
  exists rs c effects,
    run_ops (fun _ => true) example_translate example_receiver
      [example_read 8192 1 1; example_read 12288 1 2;
       example_packet 5000 [65; 66]; example_packet 5002 [67; 68]; example_read 8192 8 3]
      = Some (rs, c, effects) /\
    delivered effects = [65; 67; 66; 68].
Proof.
  destruct (run_ops _ _ _ _) as [[[rs c] effects]|] eqn:E; [|exfalso; vm_compute in E; discriminate].
  exists rs, c, effects. split; [done|]. vm_compute in E. injection E as _ _ <-. reflexivity.
Qed.
