(* ===== verification/Sockets.v ===== *)
(** * Sockets

    [kernel/src/net/socket/mod.rs] and [listen.rs]: UDP sockets, TCP listeners
    and connections, the table of bound ports, and the entry points of the IO
    provider (bind, read, write, close) and of the receive path.

    The statics of the source are one record.  Each entry point holds the
    locks it needs and runs to completion; it returns the new state and, in
    order, the calls it makes outside ([NetEffect]).  [None] is a panic. *)

From S2P Require Import Prelude Api NetPacket Ipv4 NetTransport Utf8 Tcp.

(** ** UDP sockets *)

Module UdpListener.
Record t := {
  port : Z;
  pending_reads : list PendingRead;
  buffered_datagrams : list (list Z)
}.

Definition new (port : Z) : t :=
  {| port := port; pending_reads := []; buffered_datagrams := [] |}.
End UdpListener.

Record PendingUdpWrite := {
  source_port : Z;
  dest_ip : Ipv4Address.t;
  dest_port : Z;
  payload : list Z;
  udp_callback : AsyncCallback
}.

(** Copies to a reader's buffer, up to the end of its first page. *)
Definition deliver_to_buffer (buffer_paddr buffer_len : Z) (data : list Z) : Z * NetEffect :=
  let buffer_offset := buffer_paddr .& 0xfff in
  let page_remaining := 0x1000 - buffer_offset in
  let usable_len := Z.min buffer_len page_remaining in
  let write_length := Z.min (Z.of_nat (length data)) usable_len in
  (write_length, WritePhysical buffer_paddr (take (Z.to_nat write_length) data)).

Definition udp_handle_packet (self : UdpListener.t) (remote_addr : Ipv4Address.t) (remote_port : Z)
    (data : list Z) : UdpListener.t * list NetEffect :=
  let datagram := Ipv4Address.octets remote_addr ++ be16 remote_port ++ data in
  match UdpListener.pending_reads self with
  | read :: reads =>
      let '(written, effect) := deliver_to_buffer (buffer_paddr read) (buffer_len read) datagram in
      ({| UdpListener.port := UdpListener.port self; UdpListener.pending_reads := reads;
          UdpListener.buffered_datagrams := UdpListener.buffered_datagrams self |},
       [effect; CompleteOp (read_callback read) (Ok (u32 written))])
  | [] =>
      ({| UdpListener.port := UdpListener.port self; UdpListener.pending_reads := [];
          UdpListener.buffered_datagrams := UdpListener.buffered_datagrams self ++ [datagram] |},
       [])
  end.

Definition udp_read (translate : Z -> option Z) (self : UdpListener.t) (buffer : Buffer)
    (callback : AsyncCallback) : option (option IoResult * UdpListener.t * list NetEffect) :=
  match UdpListener.buffered_datagrams self with
  | datagram :: datagrams =>
      let copy_len := Z.min (buf_len buffer) (Z.of_nat (length datagram)) in
      Some (Some (Ok (u32 copy_len)),
            {| UdpListener.port := UdpListener.port self;
               UdpListener.pending_reads := UdpListener.pending_reads self;
               UdpListener.buffered_datagrams := datagrams |},
            [WriteVirtual (buf_vaddr buffer) (take (Z.to_nat copy_len) datagram)])
  | [] =>
      paddr ← translate (buf_vaddr buffer);
      let pending := {| buffer_paddr := paddr; buffer_len := buf_len buffer;
                        read_callback := callback |} in
      Some (None,
            {| UdpListener.port := UdpListener.port self;
               UdpListener.pending_reads := UdpListener.pending_reads self ++ [pending];
               UdpListener.buffered_datagrams := [] |},
            [])
  end.

(** Returns the result, the write queued for DHCP, and the calls. *)
Definition udp_write (self : UdpListener.t) (buffer : list Z) (local_ip : option Ipv4Address.t)
    (callback : AsyncCallback) : option (option IoResult * list PendingUdpWrite * list NetEffect) :=
  match buffer with
  | b0 :: b1 :: b2 :: b3 :: b4 :: b5 :: payload =>
      let dest_ip := Ipv4Address b0 b1 b2 b3 in
      let dest_port := 256 * b4 + b5 in
      match local_ip with
      | Some src_ip =>
          datagram ← create_datagram src_ip (UdpListener.port self) dest_ip dest_port payload;
          let n := u32 (Z.of_nat (length payload)) in
          Some (Some (Ok n), [], [NetRespond dest_ip datagram; CompleteOp callback (Ok n)])
      | None =>
          Some (None,
                [{| source_port := UdpListener.port self; dest_ip := dest_ip;
                    dest_port := dest_port; payload := payload; udp_callback := callback |}],
                [])
      end
  | _ => Some (Some (Err InvalidArgument), [], [])
  end.

(** ** TCP listeners *)

(** [RemoteEndpoint] and the order of [BTreeMap] on it. *)
Definition RemoteEndpoint : Type := Ipv4Address.t * Z.

Fixpoint lex_le (a b : list Z) : bool :=
  match a, b with
  | [], _ => true
  | _ :: _, [] => false
  | x :: a, y :: b => (x <? y) || ((x =? y) && lex_le a b)
  end.

Definition endpoint_le (e f : RemoteEndpoint * Z) : Prop :=
  let key := fun p : RemoteEndpoint * Z => Ipv4Address.octets p.1.1 ++ [p.1.2] in
  Is_true (lex_le (key e) (key f)).

#[global] Instance endpoint_le_dec : RelDecision endpoint_le.
Proof. intros e f. unfold endpoint_le. apply _. Defined.

Module ListenerConnections.
Notation t := (gmap RemoteEndpoint Z).

Definition add (self : t) (remote_address : Ipv4Address.t) (remote_port socket_id : Z) : t :=
  <[(remote_address, remote_port) := socket_id]> self.
Definition remove (self : t) (remote_address : Ipv4Address.t) (remote_port : Z) : t :=
  delete (remote_address, remote_port) self.
Definition find (self : t) (remote_address : Ipv4Address.t) (remote_port : Z) : option Z :=
  self !! (remote_address, remote_port).
(** The values in the order of the keys. *)
Definition all_connection_ids (self : t) : list Z :=
  snd <$> merge_sort endpoint_le (map_to_list self).
End ListenerConnections.

Module TcpListener.
Record t := {
  local_port : Z;
  connections : ListenerConnections.t;
  pending_syn : list (Ipv4Address.t * Ipv4Address.t * Z * Z);
  pending_accept : list AsyncCallback
}.

Definition new (port : Z) : t :=
  {| local_port := port; connections := ∅; pending_syn := []; pending_accept := [] |}.

Definition set_connections (self : t) (c : ListenerConnections.t) : t :=
  {| local_port := local_port self; connections := c; pending_syn := pending_syn self;
     pending_accept := pending_accept self |}.
Definition set_pending_syn (self : t) (l : list (Ipv4Address.t * Ipv4Address.t * Z * Z)) : t :=
  {| local_port := local_port self; connections := connections self; pending_syn := l;
     pending_accept := pending_accept self |}.
Definition set_pending_accept (self : t) (l : list AsyncCallback) : t :=
  {| local_port := local_port self; connections := connections self;
     pending_syn := pending_syn self; pending_accept := l |}.

(** [next_id] is [NEXT_SOCKET_ID.fetch_add(1)]. *)
Definition init_connection (self : t) (next_id : Z) (local_addr remote_addr : Ipv4Address.t)
    (remote_port last_seq : Z) (callback : AsyncCallback)
    : option (t * (Z * TcpConnection.t) * list NetEffect) :=
  let is_outbound := last_seq =? 0 in
  let socket_id := next_id in
  let connection := TcpConnection.new socket_id (local_port self) remote_addr remote_port is_outbound
                      (Some (callback, negb is_outbound)) in
  let connection := TcpConnection.set_last_sequence_received connection last_seq in
  let self := set_connections self
                (ListenerConnections.add (connections self) remote_addr remote_port socket_id) in
  let flags :=
    if is_outbound then TcpHeader.FLAG_SYN else TcpHeader.FLAG_SYN .| TcpHeader.FLAG_ACK in
  response ← TcpHeader.create_packet local_addr (local_port self) remote_addr remote_port
               (TcpConnection.last_sequence_sent connection)
               (u32 (TcpConnection.last_sequence_received connection + 1)) flags [];
  Some (self, (socket_id, connection), [NetRespond remote_addr response]).

(** The new connection, if the packet starts one. *)
Definition handle_packet (self : t) (next_id : Z) (local_addr remote_addr : Ipv4Address.t)
    (header : TcpHeader.t) : option (t * option (Z * TcpConnection.t) * list NetEffect) :=
  let remote_port := u16_swap (TcpHeader.source_port header) in
  let seq := u32_swap (TcpHeader.sequence_number header) in
  match ListenerConnections.find (connections self) remote_addr remote_port with
  | Some _ => None
  | None =>
      if TcpHeader.is_syn header then
        match pending_accept self with
        | [] =>
            Some (set_pending_syn self (pending_syn self ++ [(local_addr, remote_addr, remote_port, seq)]),
                  None, [])
        | callback :: rest =>
            let self := set_pending_accept self rest in
            '(self, conn, effects) ←
              init_connection self next_id local_addr remote_addr remote_port seq callback;
            Some (self, Some conn, effects)
        end
      else Some (self, None, [])
  end.

Definition accept (self : t) (next_id : Z) (callback : AsyncCallback)
    : option (t * option (Z * TcpConnection.t) * list NetEffect) :=
  match pending_syn self with
  | [] => Some (set_pending_accept self (pending_accept self ++ [callback]), None, [])
  | (local_addr, remote_addr, remote_port, seq) :: rest =>
      let self := set_pending_syn self rest in
      '(self, conn, effects) ←
        init_connection self next_id local_addr remote_addr remote_port seq callback;
      Some (self, Some conn, effects)
  end.
End TcpListener.

(** ** The socket tables *)

Inductive SocketType :=
| UdpSocket (listener : UdpListener.t)
| ListenerSocket (listener : TcpListener.t)
| ConnectionSocket (connection : TcpConnection.t).

Inductive SocketProtocol := ProtoUdp | ProtoTcp.

Record Net := {
  next_socket_id : Z;
  active_connections : gmap Z Z;
  socket_map : gmap Z SocketType;
  pending_udp_writes : list PendingUdpWrite;
  resolved_local_ip : option Ipv4Address.t
}.

Definition init_net : Net :=
  {| next_socket_id := 1; active_connections := ∅; socket_map := ∅; pending_udp_writes := [];
     resolved_local_ip := None |}.

Definition set_active (s : Net) (m : gmap Z Z) : Net :=
  {| next_socket_id := next_socket_id s; active_connections := m; socket_map := socket_map s;
     pending_udp_writes := pending_udp_writes s; resolved_local_ip := resolved_local_ip s |}.
Definition set_sockets (s : Net) (m : gmap Z SocketType) : Net :=
  {| next_socket_id := next_socket_id s; active_connections := active_connections s; socket_map := m;
     pending_udp_writes := pending_udp_writes s; resolved_local_ip := resolved_local_ip s |}.
Definition set_udp_writes (s : Net) (l : list PendingUdpWrite) : Net :=
  {| next_socket_id := next_socket_id s; active_connections := active_connections s;
     socket_map := socket_map s; pending_udp_writes := l; resolved_local_ip := resolved_local_ip s |}.
Definition set_local_ip (s : Net) (ip : Ipv4Address.t) : Net :=
  {| next_socket_id := next_socket_id s; active_connections := active_connections s;
     socket_map := socket_map s; pending_udp_writes := pending_udp_writes s;
     resolved_local_ip := Some ip |}.

(** [NEXT_SOCKET_ID.fetch_add(1)]: the old value, and the state after it. *)
Definition bump_id (s : Net) : Net :=
  {| next_socket_id := u32 (next_socket_id s + 1); active_connections := active_connections s;
     socket_map := socket_map s; pending_udp_writes := pending_udp_writes s;
     resolved_local_ip := resolved_local_ip s |}.
Definition put_socket (s : Net) (id : Z) (sock : SocketType) : Net :=
  set_sockets s (<[id := sock]> (socket_map s)).

Definition create_dns_socket (s : Net) (port : Z) : Net :=
  let socket_id := next_socket_id s in
  let s := bump_id s in
  set_active s (<[port := socket_id]> (active_connections s)).

(** The [while] loop from [test_port], with [n] ports left to try. *)
Fixpoint ephemeral_loop (n : nat) (test_port : Z) (active : gmap Z Z) : option Z :=
  match n with
  | O => None
  | S n =>
      match active !! test_port with
      | None => Some test_port
      | Some _ => ephemeral_loop n (test_port + 1) active
      end
  end.
Definition get_ephemeral_port (s : Net) : option Z :=
  ephemeral_loop (Z.to_nat (65535 - 49152)) 49152 (active_connections s).

Definition ANY : Ipv4Address.t := Ipv4Address 0 0 0 0.
Definition LOOPBACK : Ipv4Address.t := Ipv4Address 127 0 0 1.

Definition is_local_name (a : Ipv4Address.t) : bool := bool_decide (a = ANY) || bool_decide (a = LOOPBACK).

(** Binds [sock] to a local port under a fresh id. *)
Definition bind_local (s : Net) (port : Z) (sock : SocketType) : option IoResult * Net * list NetEffect :=
  match active_connections s !! port with
  | Some _ => (Some (Err ResourceInUse), s, [])
  | None =>
      let socket_id := next_socket_id s in
      let s := bump_id s in
      let s := set_active s (<[port := socket_id]> (active_connections s)) in
      (Some (Ok socket_id), put_socket s socket_id sock, [])
  end.

(** An outbound connection: the callback is completed later. *)
Definition bind_remote (s : Net) (addr_string : list Z) (remote : option Ipv4Address.t) (port : Z)
    (callback : AsyncCallback) : option IoResult * Net * list NetEffect :=
  let remote_port := port in
  match get_ephemeral_port s with
  | None => (Some (Err ResourceLimitExceeded), s, [])
  | Some local_port =>
      let socket_id := next_socket_id s in
      let s := bump_id s in
      let s := set_active s (<[local_port := socket_id]> (active_connections s)) in
      let remote_addr := default (Ipv4Address 255 255 255 255) remote in
      let conn := TcpConnection.new socket_id local_port remote_addr remote_port true
                    (Some (callback, false)) in
      (None, put_socket s socket_id (ConnectionSocket conn),
       [NetOpenTcp local_port (from_utf8_lossy addr_string) remote_port])
  end.

Definition socket_io_bind (s : Net) (protocol : SocketProtocol) (addr_string : list Z) (port : Z)
    (callback : AsyncCallback) : option (option IoResult * Net * list NetEffect) :=
  addr ← parse_bytes addr_string;
  match protocol with
  | ProtoUdp =>
      match addr with
      | None => Some (Some (Err InvalidArgument), s, [])
      | Some addr =>
          if negb (is_local_name addr) then Some (Some (Err InvalidArgument), s, [])
          else Some (bind_local s port (UdpSocket (UdpListener.new port)))
      end
  | ProtoTcp =>
      if match addr with Some a => is_local_name a | None => false end then
        Some (bind_local s port (ListenerSocket (TcpListener.new port)))
      else Some (bind_remote s addr_string addr port callback)
  end.

Definition socket_io_read (translate : Z -> option Z) (s : Net) (socket_id : Z) (buffer : Buffer)
    (callback : AsyncCallback) : option (option IoResult * Net * list NetEffect) :=
  match socket_map s !! socket_id with
  | None => Some (Some (Err FileHandleInvalid), s, [])
  | Some (UdpSocket listener) =>
      '(r, listener, effects) ← udp_read translate listener buffer callback;
      Some (r, put_socket s socket_id (UdpSocket listener), effects)
  | Some (ListenerSocket listener) =>
      '(listener, new_conn, effects) ← TcpListener.accept listener (next_socket_id s) callback;
      let s := put_socket s socket_id (ListenerSocket listener) in
      match new_conn with
      | Some (new_conn_id, conn) =>
          Some (None, put_socket (bump_id s) new_conn_id (ConnectionSocket conn), effects)
      | None => Some (None, s, effects)
      end
  | Some (ConnectionSocket connection) =>
      '(r, connection, effects) ← TcpConnection.read translate connection buffer callback;
      Some (r, put_socket s socket_id (ConnectionSocket connection), effects)
  end.

Definition socket_io_write (s : Net) (socket_id : Z) (buffer : list Z) (callback : AsyncCallback)
    : option (option IoResult * Net * list NetEffect) :=
  match socket_map s !! socket_id with
  | None => Some (Some (Err FileHandleInvalid), s, [])
  | Some (UdpSocket listener) =>
      '(r, queued, effects) ← udp_write listener buffer (resolved_local_ip s) callback;
      Some (r, set_udp_writes s (pending_udp_writes s ++ queued), effects)
  | Some (ListenerSocket _) => Some (Some (Err UnsupportedOperation), s, [])
  | Some (ConnectionSocket connection) =>
      '(r, connection, effects) ← TcpConnection.write connection buffer callback;
      Some (r, put_socket s socket_id (ConnectionSocket connection), effects)
  end.

(** The children of a closed listener, in order. *)
Fixpoint close_children (s : Net) (child_ids : list Z) : option (Net * list NetEffect) :=
  match child_ids with
  | [] => Some (s, [])
  | child_id :: rest =>
      let removed := socket_map s !! child_id in
      let s := set_sockets s (delete child_id (socket_map s)) in
      '(s, effects) ← match removed with
        | Some (ConnectionSocket conn) =>
            '(conn, effects) ← TcpConnection.close conn;
            Some (set_active s (delete (TcpConnection.local_port conn) (active_connections s)), effects)
        | _ => Some (s, [])
        end;
      '(s, effects') ← close_children s rest;
      Some (s, effects ++ effects')
  end.

(** [ACTIVE_CONNECTIONS.write().retain(|_, id| *id != socket_id)]. *)
Definition unbind (s : Net) (socket_id : Z) : Net :=
  set_active s (filter (fun kv => kv.2 <> socket_id) (active_connections s)).

Definition socket_io_close (s : Net) (socket_id : Z) : option (Net * list NetEffect) :=
  match socket_map s !! socket_id with
  | None => Some (s, [])
  | Some socket_type =>
      let s := set_sockets s (delete socket_id (socket_map s)) in
      match socket_type with
      | UdpSocket _ => Some (unbind s socket_id, [])
      | ListenerSocket listener =>
          '(s, effects) ← close_children s
            (ListenerConnections.all_connection_ids (TcpListener.connections listener));
          Some (unbind s socket_id, effects)
      | ConnectionSocket connection =>
          '(connection, effects) ← TcpConnection.close connection;
          let local_port := TcpConnection.local_port connection in
          match active_connections s !! local_port with
          | None => Some (s, effects)
          | Some listener_id =>
              if negb (listener_id =? socket_id) then
                match socket_map s !! listener_id with
                | Some (ListenerSocket listener) =>
                    let connections := ListenerConnections.remove (TcpListener.connections listener)
                      (TcpConnection.remote_address connection) (TcpConnection.remote_port connection) in
                    Some (put_socket s listener_id
                            (ListenerSocket (TcpListener.set_connections listener connections)), effects)
                | _ => Some (s, effects)
                end
              else Some (set_active s (delete local_port (active_connections s)), effects)
          end
      end
  end.

(** ** The receive path *)

Definition handle_udp_packet (s : Net) (local_port : Z) (remote_addr : Ipv4Address.t)
    (remote_port : Z) (data : list Z) : Net * list NetEffect :=
  match active_connections s !! local_port with
  | None => (s, [])
  | Some socket_id =>
      match socket_map s !! socket_id with
      | Some (UdpSocket listener) =>
          let '(listener, effects) := udp_handle_packet listener remote_addr remote_port data in
          (put_socket s socket_id (UdpSocket listener), effects)
      | _ => (s, [])
      end
  end.

(** The answer to a packet of an unknown connection. *)
Definition answer_unknown (local_addr : Ipv4Address.t) (local_port : Z) (remote_addr : Ipv4Address.t)
    (header : TcpHeader.t) (data : list Z) : option (list NetEffect) :=
  let remote_port := u16_swap (TcpHeader.source_port header) in
  let ack := u32 (u32_swap (TcpHeader.sequence_number header) + Z.of_nat (length data) +
                  (if TcpHeader.is_fin header then 1 else 0)) in
  rst ← TcpHeader.create_packet local_addr local_port remote_addr remote_port
          (u32_swap (TcpHeader.ack_number header)) ack
          (TcpHeader.FLAG_RST .| TcpHeader.FLAG_ACK) [];
  Some [NetRespond remote_addr rst].

Definition handle_tcp_packet (live : Z -> bool) (s : Net) (local_addr : Ipv4Address.t)
    (local_port : Z) (remote_addr : Ipv4Address.t) (header : TcpHeader.t) (data : list Z)
    : option (Net * list NetEffect) :=
  match active_connections s !! local_port with
  | None => Some (s, [])
  | Some socket_id =>
      let lookup_id :=
        match socket_map s !! socket_id with
        | Some (ListenerSocket listener) =>
            default socket_id (ListenerConnections.find (TcpListener.connections listener)
              remote_addr (u16_swap (TcpHeader.source_port header)))
        | _ => socket_id
        end in
      match socket_map s !! lookup_id with
      | Some (ListenerSocket listener) =>
          '(listener, new_conn, effects) ←
            TcpListener.handle_packet listener (next_socket_id s) local_addr remote_addr header;
          let s := put_socket s lookup_id (ListenerSocket listener) in
          match new_conn with
          | Some (new_conn_id, conn) =>
              Some (put_socket (bump_id s) new_conn_id (ConnectionSocket conn), effects)
          | None =>
              if negb (TcpHeader.is_syn header) && negb (TcpHeader.is_rst header) then
                answer ← answer_unknown local_addr local_port remote_addr header data;
                Some (s, effects ++ answer)
              else Some (s, effects)
          end
      | Some (ConnectionSocket connection) =>
          '(connection, effects) ←
            TcpConnection.handle_packet live connection local_addr remote_addr header data;
          Some (put_socket s lookup_id (ConnectionSocket connection), effects)
      | _ => Some (s, [])
      end
  end.

(** [flush_pending_udp_writes]: the queue is emptied in order. *)
Fixpoint flush_loop (local_ip : Ipv4Address.t) (pending : list PendingUdpWrite) : option (list NetEffect) :=
  match pending with
  | [] => Some []
  | write :: rest =>
      datagram ← create_datagram local_ip (source_port write) (dest_ip write) (dest_port write)
                   (payload write);
      effects ← flush_loop local_ip rest;
      Some (NetRespond (dest_ip write) datagram ::
            CompleteOp (udp_callback write) (Ok (u32 (Z.of_nat (length (payload write))))) :: effects)
  end.
Definition flush_pending_udp_writes (s : Net) (local_ip : Ipv4Address.t) : option (Net * list NetEffect) :=
  let s := set_local_ip s local_ip in
  effects ← flush_loop local_ip (pending_udp_writes s);
  Some (set_udp_writes s [], effects).
