(* ===== verification/SocketsSpec.v ===== *)
(** * Correctness of the socket tables

    The invariant that ties the table of sockets, the table of bound ports and
    the connection tables of the listeners together; that no entry point
    panics in a reachable state; and that traffic and calls on one port leave
    the sockets of every other port alone. *)

From S2P Require Import Prelude Api NetPacket Ipv4 NetTransport Utf8 Tcp TcpSpec Sockets.

(** ** Entry points as one step function *)

Inductive net_op :=
| NetBind (protocol : SocketProtocol) (addr : list Z) (port : Z) (callback : AsyncCallback)
| NetRead (id : Z) (buffer : Buffer) (callback : AsyncCallback)
| NetWrite (id : Z) (data : list Z) (callback : AsyncCallback)
| NetClose (id : Z)
| NetDns
| NetUdp (port : Z) (remote : Ipv4Address.t) (remote_port : Z) (data : list Z)
| NetTcp (local : Ipv4Address.t) (port : Z) (remote : Ipv4Address.t) (header : TcpHeader.t) (data : list Z)
| NetFlush (ip : Ipv4Address.t).

Definition net_step (live : Z -> bool) (translate : Z -> option Z) (s : Net) (op : net_op)
    : option (Net * list NetEffect) :=
  match op with
  | NetBind protocol addr port callback =>
      '(_, s, e) ← socket_io_bind s protocol addr port callback; Some (s, e)
  | NetRead id buffer callback =>
      '(_, s, e) ← socket_io_read translate s id buffer callback; Some (s, e)
  | NetWrite id data callback => '(_, s, e) ← socket_io_write s id data callback; Some (s, e)
  | NetClose id => socket_io_close s id
  | NetDns =>
      port ← get_ephemeral_port s;
      Some (create_dns_socket s port, [])
  | NetUdp port remote remote_port data => Some (handle_udp_packet s port remote remote_port data)
  | NetTcp local port remote header data => handle_tcp_packet live s local port remote header data
  | NetFlush ip => flush_pending_udp_writes s ip
  end.

(** ** The invariant *)

Definition port_of (sock : SocketType) : Z :=
  match sock with
  | UdpSocket l => UdpListener.port l
  | ListenerSocket l => TcpListener.local_port l
  | ConnectionSocket c => TcpConnection.local_port c
  end.

Definition is_connection (sock : SocketType) : bool :=
  match sock with ConnectionSocket _ => true | _ => false end.

Definition endpoint_of (c : TcpConnection.t) : RemoteEndpoint :=
  (TcpConnection.remote_address c, TcpConnection.remote_port c).

Record sock_inv (s : Net) : Prop := {
  (** Ids in use are older than the next one. *)
  inv_socket_ids : forall id sock, socket_map s !! id = Some sock -> id < next_socket_id s;
  inv_active_ids : forall p id, active_connections s !! p = Some id -> id < next_socket_id s;
  inv_child_ids : forall lid l e cid, socket_map s !! lid = Some (ListenerSocket l) ->
    TcpListener.connections l !! e = Some cid -> cid < next_socket_id s;
  (** A listener's table leads to connections on its port, under their remote
      endpoint. *)
  inv_children : forall lid l e cid sock, socket_map s !! lid = Some (ListenerSocket l) ->
    TcpListener.connections l !! e = Some cid -> socket_map s !! cid = Some sock ->
    exists c, sock = ConnectionSocket c /\ endpoint_of c = e /\
      TcpConnection.local_port c = TcpListener.local_port l;
  (** A bound port leads to a socket of that port, and a UDP socket or a
      listener is found at its port. *)
  inv_ports : forall p id sock, active_connections s !! p = Some id ->
    socket_map s !! id = Some sock -> port_of sock = p;
  inv_bound : forall id sock, socket_map s !! id = Some sock -> is_connection sock = false ->
    active_connections s !! port_of sock = Some id
}.

Lemma init_net_inv : sock_inv init_net.
Proof. by split. Qed.

(** ** Operations of a connection keep its addresses *)

Definition same_ends (c c' : TcpConnection.t) : Prop :=
  TcpConnection.local_port c' = TcpConnection.local_port c /\
  TcpConnection.remote_port c' = TcpConnection.remote_port c.

Lemma maybe_ack_ends (c : TcpConnection.t) (header : TcpHeader.t) :
  let r := if TcpHeader.is_ack header
           then TcpConnection.process_ack c (u32_swap (TcpHeader.ack_number header)) else (c, []) in
  same_ends c r.1 /\ TcpConnection.remote_address r.1 = TcpConnection.remote_address c.
Proof.
  simpl. case_match; [|done]. unfold TcpConnection.process_ack.
  by destruct (TcpConnection.process_ack_loop _ _).
Qed.

Lemma accept_data_ends (c : TcpConnection.t) (header : TcpHeader.t) (data : list Z) :
  same_ends c (TcpConnection.accept_data c header data).1 /\
  TcpConnection.remote_address (TcpConnection.accept_data c header data).1 = TcpConnection.remote_address c.
Proof. unfold TcpConnection.accept_data. by destruct (TcpConnection.pending_reads c). Qed.

(** A packet from [remote] keeps the ports; the remote address stays what it
    was or becomes [remote]. *)
Lemma handle_packet_ends live (c c' : TcpConnection.t) local remote header data effects :
  TcpConnection.handle_packet live c local remote header data = Some (c', effects) ->
  same_ends c c' /\
  (TcpConnection.remote_address c' = TcpConnection.remote_address c \/
   TcpConnection.remote_address c' = remote).
Proof.
  unfold TcpConnection.handle_packet. destruct (TcpConnection.action_for_tcp_packet c header); intros H.
  - unfold TcpConnection.handle_enqueue in H. destruct (maybe_ack_ends c header) as [H1 H2].
    destruct (if TcpHeader.is_ack header then _ else _) as [c1 acked]. simpl in H1, H2.
    destruct data as [|b data]; [injection H as <- <-; auto|]. destruct (negb _).
    + apply bind_Some in H as (a & _ & H). injection H as <- <-. auto.
    + destruct (accept_data_ends c1 header (b :: data)) as [H3 H4].
      destruct (TcpConnection.accept_data _ _ _) as [c2 del]. simpl in H3, H4.
      apply bind_Some in H as (a & _ & H). injection H as <- <-.
      unfold same_ends in *. intuition congruence.
  - injection H as <- <-. split; [split; reflexivity|auto].
  - injection H as <- <-. split; [split; reflexivity|auto].
  - apply bind_Some in H as (a & _ & H). injection H as <- <-. split; [split; reflexivity|auto].
  - unfold TcpConnection.handle_fin in H. destruct (maybe_ack_ends c header) as [H1 H2].
    destruct (if TcpHeader.is_ack header then _ else _) as [c1 acked]. simpl in H1, H2.
    set (r := match data with [] => _ | _ :: _ => _ end) in H.
    assert (H3 : same_ends c1 r.1 /\ TcpConnection.remote_address r.1 = TcpConnection.remote_address c1).
    { subst r. destruct data as [|b data]; [split; [split; reflexivity|reflexivity]|].
      destruct (negb _); [split; [split; reflexivity|reflexivity]|apply accept_data_ends]. }
    destruct r as [c2 del]. simpl in H3. apply bind_Some in H as (a & _ & H). injection H as <- <-.
    unfold same_ends in *. simpl. intuition congruence.
  - unfold TcpConnection.handle_connect in H. destruct (TcpConnection.notify_connect live c) as [n []];
      injection H as <- <-; simpl; auto; (split; [split; reflexivity|auto]).
  - unfold TcpConnection.handle_connect in H. destruct (TcpConnection.notify_connect live c) as [n []];
      cbn [negb] in H.
    + apply bind_Some in H as (a & _ & H). injection H as <- <-. split; [split; reflexivity|auto].
    + injection H as <- <-. split; [split; reflexivity|auto].
Qed.

Definition same_addresses (c c' : TcpConnection.t) : Prop :=
  same_ends c c' /\ TcpConnection.remote_address c' = TcpConnection.remote_address c.

Lemma read_addresses translate (c c' : TcpConnection.t) buffer callback r effects :
  TcpConnection.read translate c buffer callback = Some (r, c', effects) -> same_addresses c c'.
Proof.
  unfold TcpConnection.read. intros H. destruct (TcpConnection.available_data c).
  - destruct (TcpConnection.state c); try (apply bind_Some in H as (p & _ & H));
      injection H as <- <- <-; repeat split.
  - injection H as <- <- <-. repeat split.
Qed.

Lemma write_loop_addresses fuel (c c' : TcpConnection.t) data offset effects :
  TcpConnection.write_loop fuel c data offset = Some (c', effects) -> same_addresses c c'.
Proof.
  revert c offset effects. induction fuel as [|fuel IH]; intros c offset effects; simpl;
    (destruct (_ <=? _)%nat; [intros [= <- <-]; repeat split|]); [done|].
  intros H. apply bind_Some in H as (chunk & _ & H). apply bind_Some in H as (packet & _ & H).
  apply bind_Some in H as ([c1 e] & Hl & H). injection H as <- <-.
  apply IH in Hl. unfold same_addresses, same_ends in *. simpl in Hl. done.
Qed.

Lemma write_addresses (c c' : TcpConnection.t) data callback r effects :
  TcpConnection.write c data callback = Some (r, c', effects) -> same_addresses c c'.
Proof.
  unfold TcpConnection.write. intros H.
  destruct (TcpConnection.state c); try (injection H as <- <- <-; repeat split).
  apply bind_Some in H as ([c1 e] & Hl & H). injection H as <- <- <-.
  apply write_loop_addresses in Hl. done.
Qed.

Lemma close_addresses (c c' : TcpConnection.t) effects :
  TcpConnection.close c = Some (c', effects) -> same_addresses c c'.
Proof.
  unfold TcpConnection.close. intros H.
  destruct (TcpConnection.state _); [| |apply bind_Some in H as (p & _ & H)|]; injection H as <- <-;
    repeat split.
Qed.

(** ** Edits of the tables that keep the invariant *)

(** A state with fewer sockets and fewer bound ports, that keeps the ports of
    the UDP sockets and listeners it still has. *)
Lemma inv_shrink (s s' : Net) :
  sock_inv s -> socket_map s' ⊆ socket_map s -> active_connections s' ⊆ active_connections s ->
  next_socket_id s' = next_socket_id s ->
  (forall id sock, socket_map s' !! id = Some sock -> is_connection sock = false ->
    active_connections s' !! port_of sock = Some id) ->
  sock_inv s'.
Proof.
  intros [I1 I2 I3 I4 I5 I6] Hs Ha Hn Hb.
  assert (Ws : forall id sock, socket_map s' !! id = Some sock -> socket_map s !! id = Some sock)
    by (intros id sock H; exact (lookup_weaken _ _ _ _ H Hs)).
  assert (Wa : forall p id, active_connections s' !! p = Some id -> active_connections s !! p = Some id)
    by (intros p id H; exact (lookup_weaken _ _ _ _ H Ha)).
  split; rewrite ?Hn; eauto.
Qed.

Lemma inv_put_connection (s : Net) (id : Z) (c c' : TcpConnection.t) :
  sock_inv s -> socket_map s !! id = Some (ConnectionSocket c) -> same_ends c c' ->
  (endpoint_of c' = endpoint_of c \/
   forall lid l e, socket_map s !! lid = Some (ListenerSocket l) ->
     TcpListener.connections l !! e <> Some id) ->
  sock_inv (put_socket s id (ConnectionSocket c')).
Proof.
  intros [I1 I2 I3 I4 I5 I6] Hid [El Er] He. split; simpl.
  - intros i sock. rewrite lookup_insert_Some. intros [[<- _]|[_ Hi]]; eauto.
  - eauto.
  - intros lid l e cid. rewrite lookup_insert_Some. intros [[_ Hi]|[_ Hi]]; [done|eauto].
  - intros lid l e cid sock. rewrite lookup_insert_Some. intros [[_ Hi]|[_ Hi]] Hc; [done|].
    rewrite lookup_insert_Some. intros [[<- <-]|[_ Hs]]; [|eauto].
    destruct (I4 _ _ _ _ _ Hi Hc Hid) as (c1 & [= <-] & Ee & Ep).
    exists c'. split; [done|]. split; [|congruence].
    destruct He as [He|He]; [congruence|]. by destruct (He _ _ _ Hi Hc).
  - intros p i sock Hp. rewrite lookup_insert_Some. intros [[<- <-]|[_ Hs]]; [|eauto].
    simpl. rewrite El. exact (I5 _ _ _ Hp Hid).
  - intros i sock. rewrite lookup_insert_Some. intros [[<- <-]|[_ Hs]]; [done|eauto].
Qed.

Lemma inv_put_udp (s : Net) (id : Z) (l l' : UdpListener.t) :
  sock_inv s -> socket_map s !! id = Some (UdpSocket l) -> UdpListener.port l' = UdpListener.port l ->
  sock_inv (put_socket s id (UdpSocket l')).
Proof.
  intros [I1 I2 I3 I4 I5 I6] Hid El. split; simpl.
  - intros i sock. rewrite lookup_insert_Some. intros [[<- _]|[_ Hi]]; eauto.
  - eauto.
  - intros lid k e cid. rewrite lookup_insert_Some. intros [[_ Hi]|[_ Hi]]; [done|eauto].
  - intros lid k e cid sock. rewrite lookup_insert_Some. intros [[_ Hi]|[_ Hi]] Hc; [done|].
    rewrite lookup_insert_Some. intros [[<- <-]|[_ Hs]]; [|eauto].
    by destruct (I4 _ _ _ _ _ Hi Hc Hid) as (c1 & ? & _).
  - intros p i sock Hp. rewrite lookup_insert_Some. intros [[<- <-]|[_ Hs]]; [|eauto].
    simpl. rewrite El. exact (I5 _ _ _ Hp Hid).
  - intros i sock. rewrite lookup_insert_Some. intros [[<- <-]|[_ Hs]]; [|eauto].
    simpl. rewrite El. intros _. exact (I6 _ _ Hid eq_refl).
Qed.

(** A listener that gains no connection. *)
Lemma inv_put_listener (s : Net) (id : Z) (l l' : TcpListener.t) :
  sock_inv s -> socket_map s !! id = Some (ListenerSocket l) ->
  TcpListener.local_port l' = TcpListener.local_port l ->
  TcpListener.connections l' ⊆ TcpListener.connections l ->
  sock_inv (put_socket s id (ListenerSocket l')).
Proof.
  intros [I1 I2 I3 I4 I5 I6] Hid El Hsub.
  assert (W : forall e c, TcpListener.connections l' !! e = Some c -> TcpListener.connections l !! e = Some c)
    by (intros e c H; exact (lookup_weaken _ _ _ _ H Hsub)).
  split; simpl.
  - intros i sock. rewrite lookup_insert_Some. intros [[<- _]|[_ Hi]]; eauto.
  - eauto.
  - intros lid k e cid. rewrite lookup_insert_Some. intros [[<- [= <-]]|[_ Hi]]; eauto.
  - intros lid k e cid sock Hl Hc. rewrite lookup_insert_Some in Hl.
    rewrite lookup_insert_Some. intros Hs.
    assert (exists k0 lid0, socket_map s !! lid0 = Some (ListenerSocket k0) /\
      TcpListener.connections k0 !! e = Some cid /\
      TcpListener.local_port k0 = TcpListener.local_port k) as (k0 & lid0 & H1 & H2 & H3).
    { destruct Hl as [[<- [= <-]]|[_ Hl]]; eauto 10. }
    destruct Hs as [[<- <-]|[_ Hs]].
    + by destruct (I4 _ _ _ _ _ H1 H2 Hid) as (c1 & ? & _).
    + rewrite <- H3. eauto.
  - intros p i sock Hp. rewrite lookup_insert_Some. intros [[<- <-]|[_ Hs]]; [|eauto].
    simpl. rewrite El. exact (I5 _ _ _ Hp Hid).
  - intros i sock. rewrite lookup_insert_Some. intros [[<- <-]|[_ Hs]]; [|eauto].
    simpl. rewrite El. intros _. exact (I6 _ _ Hid eq_refl).
Qed.

(** Ids are handed out in order until they wrap around. *)
Definition id_left (s : Net) : Prop := 0 <= next_socket_id s < 2 ^ 32 - 1.

Lemma bump_id_next (s : Net) : id_left s -> next_socket_id (bump_id s) = next_socket_id s + 1.
Proof. unfold id_left. simpl. intros. apply Z.mod_small. lia. Qed.

(** A listener that gains a new connection under the next id. *)
Lemma inv_new_child (s : Net) (id : Z) (l l' : TcpListener.t) (c : TcpConnection.t) :
  sock_inv s -> id_left s -> socket_map s !! id = Some (ListenerSocket l) ->
  TcpListener.local_port l' = TcpListener.local_port l ->
  TcpListener.connections l' = <[endpoint_of c := next_socket_id s]> (TcpListener.connections l) ->
  TcpConnection.local_port c = TcpListener.local_port l ->
  sock_inv (put_socket (bump_id (put_socket s id (ListenerSocket l'))) (next_socket_id s) (ConnectionSocket c)).
Proof.
  intros Hinv Hleft Hid El Econ Ec. pose proof (bump_id_next s Hleft) as En.
  assert (Hne : id <> next_socket_id s) by (pose proof (inv_socket_ids s Hinv _ _ Hid); lia).
  destruct Hinv as [I1 I2 I3 I4 I5 I6]. simpl in En.
  assert (Hlt : forall i sock, <[next_socket_id s := ConnectionSocket c]>
    (<[id := ListenerSocket l']> (socket_map s)) !! i = Some sock -> i < next_socket_id s + 1).
  { intros i sock. rewrite !lookup_insert_Some. intros [[<- _]|[_ [[<- _]|[_ Hi]]]]; [lia| |].
    - pose proof (I1 _ _ Hid). lia.
    - pose proof (I1 _ _ Hi). lia. }
  split; simpl; rewrite ?En.
  - eauto.
  - intros p i Hp. pose proof (I2 _ _ Hp). lia.
  - intros lid k e cid. rewrite !lookup_insert_Some. intros [[_ ?]|[_ [[<- [= <-]]|[_ Hi]]]] Hc; [done| |].
    + rewrite Econ, lookup_insert_Some in Hc. destruct Hc as [[_ <-]|[_ Hc]]; [lia|].
      pose proof (I3 _ _ _ _ Hid Hc). lia.
    + pose proof (I3 _ _ _ _ Hi Hc). lia.
  - intros lid k e cid sock. rewrite !lookup_insert_Some.
    intros [[_ ?]|[_ [[<- [= <-]]|[_ Hi]]]] Hc Hs; [done| |].
    + rewrite Econ, lookup_insert_Some in Hc. destruct Hc as [[<- <-]|[_ Hc]].
      { destruct Hs as [[_ <-]|[Hn _]]; [|done]. exists c. split; [done|]. split; [done|]. congruence. }
      destruct Hs as [[<- _]|[_ [[<- _]|[_ Hs]]]].
      * pose proof (I3 _ _ _ _ Hid Hc). lia.
      * by destruct (I4 _ _ _ _ _ Hid Hc Hid) as (c1 & ? & _).
      * rewrite El. eauto.
    + destruct Hs as [[<- _]|[_ [[<- _]|[_ Hs]]]]; [| |eauto].
      * pose proof (I3 _ _ _ _ Hi Hc). lia.
      * by destruct (I4 _ _ _ _ _ Hi Hc Hid) as (c1 & ? & _).
  - intros p i sock Hp. rewrite !lookup_insert_Some. intros [[<- _]|[_ [[<- <-]|[_ Hs]]]]; [| |eauto].
    + pose proof (I2 _ _ Hp). lia.
    + simpl. rewrite El. exact (I5 _ _ _ Hp Hid).
  - intros i sock. rewrite !lookup_insert_Some. intros [[_ <-]|[_ [[<- <-]|[_ Hs]]]]; [done| |eauto].
    simpl. rewrite El. intros _. exact (I6 _ _ Hid eq_refl).
Qed.

(** A new socket on a free port. *)
Lemma inv_bind (s : Net) (p : Z) (sock : SocketType) :
  sock_inv s -> id_left s -> active_connections s !! p = None -> port_of sock = p ->
  (forall l, sock = ListenerSocket l -> TcpListener.connections l = ∅) ->
  sock_inv (put_socket (set_active (bump_id s) (<[p := next_socket_id s]> (active_connections s)))
              (next_socket_id s) sock).
Proof.
  intros [I1 I2 I3 I4 I5 I6] Hleft Hfree Hport Hl. pose proof (bump_id_next s Hleft) as En. simpl in En.
  split; simpl; rewrite ?En.
  - intros i k. rewrite lookup_insert_Some. intros [[<- _]|[_ Hi]]; [lia|]. pose proof (I1 _ _ Hi). lia.
  - intros q i. rewrite lookup_insert_Some. intros [[_ <-]|[_ Hi]]; [lia|]. pose proof (I2 _ _ Hi). lia.
  - intros lid l e cid. rewrite lookup_insert_Some. intros [[_ ->]|[_ Hi]] Hc.
    + by rewrite (Hl l eq_refl) in Hc.
    + pose proof (I3 _ _ _ _ Hi Hc). lia.
  - intros lid l e cid k. rewrite !lookup_insert_Some. intros [[_ ->]|[_ Hi]] Hc.
    + by rewrite (Hl l eq_refl) in Hc.
    + intros [[<- _]|[_ Hs]]; [|eauto]. pose proof (I3 _ _ _ _ Hi Hc). lia.
  - intros q i k. rewrite !lookup_insert_Some. intros [[<- <-]|[Hq Hp]] [[Hi <-]|[Hi Hs]]; try done.
    + pose proof (I2 _ _ Hp). lia.
    + eauto.
  - intros i k. rewrite lookup_insert_Some. intros [[<- <-]|[Hi Hs]] Hk.
    + rewrite Hport. apply lookup_insert_eq.
    + rewrite lookup_insert_ne; [eauto|]. intros E. rewrite E, (I6 _ _ Hs Hk) in Hfree. done.
Qed.

(** ** Nothing a connection does panics *)

Lemma respond_total (c : TcpConnection.t) local remote ack flags :
  is_Some (TcpConnection.respond c local remote ack flags).
Proof.
  unfold TcpConnection.respond.
  destruct (create_packet_total local remote (TcpConnection.local_port c) (TcpConnection.remote_port c)
    (TcpConnection.last_sequence_sent c) ack flags []) as [p ->]. by eexists.
Qed.

Lemma handle_packet_total live (c : TcpConnection.t) local remote header data :
  is_Some (TcpConnection.handle_packet live c local remote header data).
Proof.
  unfold TcpConnection.handle_packet. destruct (TcpConnection.action_for_tcp_packet c header).
  - unfold TcpConnection.handle_enqueue. destruct (if TcpHeader.is_ack header then _ else _) as [c1 e].
    destruct data; [by eexists|]. destruct (negb _); [|destruct (TcpConnection.accept_data _ _ _) as [c2 e2]];
      match goal with |- context [TcpConnection.respond ?c ?l ?r ?a ?f] =>
        destruct (respond_total c l r a f) as [x ->] end; by eexists.
  - by eexists.
  - by eexists.
  - match goal with |- context [TcpConnection.respond ?c ?l ?r ?a ?f] =>
      destruct (respond_total c l r a f) as [x ->] end. by eexists.
  - unfold TcpConnection.handle_fin. destruct (if TcpHeader.is_ack header then _ else _) as [c1 e].
    set (r := match data with [] => _ | _ :: _ => _ end). destruct r as [c2 e2].
    match goal with |- context [TcpConnection.respond ?c ?l ?r ?a ?f] =>
      destruct (respond_total c l r a f) as [x ->] end. by eexists.
  - unfold TcpConnection.handle_connect. destruct (TcpConnection.notify_connect live c) as [n []]; by eexists.
  - unfold TcpConnection.handle_connect. destruct (TcpConnection.notify_connect live c) as [n []];
      cbn [negb]; [|by eexists].
    match goal with |- context [TcpConnection.respond ?c ?l ?r ?a ?f] =>
      destruct (respond_total c l r a f) as [x ->] end. by eexists.
Qed.

Lemma write_loop_total fuel (c : TcpConnection.t) data offset :
  (length data - offset <= fuel)%nat -> is_Some (TcpConnection.write_loop fuel c data offset).
Proof.
  revert c offset. induction fuel as [|fuel IH]; intros c offset Hf; simpl;
    (destruct (Nat.leb_spec (length data) offset); [by eexists|]); [lia|].
  rewrite slice_ok by lia. cbn [mbind option_bind].
  match goal with |- context [TcpHeader.create_packet ?a ?b ?c ?d ?e ?f ?g ?h] =>
    destruct (create_packet_total a c b d e f g h) as [p ->] end. cbn [mbind option_bind].
  match goal with |- context [TcpConnection.write_loop fuel ?c ?d ?o] =>
    destruct (IH c o) as [[c1 e] ->] end; [unfold TcpConnection.MSS; lia|]. by eexists.
Qed.

Lemma write_total (c : TcpConnection.t) data callback : is_Some (TcpConnection.write c data callback).
Proof.
  unfold TcpConnection.write. destruct (TcpConnection.state c); [by eexists|by eexists| |by eexists].
  destruct (write_loop_total (length data) c data 0) as [[c1 e] ->]; [lia|]. by eexists.
Qed.

Lemma close_total (c : TcpConnection.t) : is_Some (TcpConnection.close c).
Proof.
  unfold TcpConnection.close. set (c1 := TcpConnection.set_sent _ _ _).
  destruct (TcpConnection.state c1); [by eexists|by eexists| |by eexists].
  match goal with |- context [TcpHeader.create_packet ?a ?b ?c ?d ?e ?f ?g ?h] =>
    destruct (create_packet_total a c b d e f g h) as [p ->] end. by eexists.
Qed.

Lemma read_total translate (c : TcpConnection.t) buffer callback :
  (forall v, is_Some (translate v)) -> is_Some (TcpConnection.read translate c buffer callback).
Proof.
  intros Ht. unfold TcpConnection.read. destruct (Ht (buf_vaddr buffer)) as [p ->].
  destruct (TcpConnection.available_data c), (TcpConnection.state c); by eexists.
Qed.

Lemma init_connection_ok (l : TcpListener.t) id local remote rport seq callback :
  exists c e, TcpListener.init_connection l id local remote rport seq callback =
    Some (TcpListener.set_connections l (<[(remote, rport) := id]> (TcpListener.connections l)), (id, c), e) /\
    endpoint_of c = (remote, rport) /\ TcpConnection.local_port c = TcpListener.local_port l.
Proof.
  unfold TcpListener.init_connection. set (c := TcpConnection.set_last_sequence_received _ _).
  match goal with |- context [TcpHeader.create_packet ?a ?b ?c ?d ?e ?f ?g ?h] =>
    destruct (create_packet_total a c b d e f g h) as [p ->] end.
  eexists _, _. split; [reflexivity|]. by split.
Qed.

(** ** Ephemeral ports *)

(** The search returns the first free port of its range. *)
Lemma ephemeral_loop_spec (n : nat) (p : Z) (active : gmap Z Z) :
  match ephemeral_loop n p active with
  | Some q => p <= q < p + Z.of_nat n /\ active !! q = None /\
              forall r, p <= r < q -> is_Some (active !! r)
  | None => forall r, p <= r < p + Z.of_nat n -> is_Some (active !! r)
  end.
Proof.
  revert p. induction n as [|n IH]; intros p; simpl; [intros; lia|].
  destruct (active !! p) as [v|] eqn:E.
  - specialize (IH (p + 1)). destruct (ephemeral_loop n (p + 1) active) as [q|].
    + destruct IH as (Hq & Hn & Hb). split; [lia|]. split; [done|].
      intros r Hr. destruct (decide (r = p)) as [->|]; [by eexists|]. apply Hb. lia.
    + intros r Hr. destruct (decide (r = p)) as [->|]; [by eexists|]. apply IH. lia.
  - split; [lia|]. split; [done|]. intros. lia.
Qed.

Lemma get_ephemeral_port_free (s : Net) (p : Z) :
  get_ephemeral_port s = Some p -> 49152 <= p < 65535 /\ active_connections s !! p = None.
Proof.
  unfold get_ephemeral_port. pose proof (ephemeral_loop_spec (Z.to_nat (65535 - 49152)) 49152
    (active_connections s)) as H.
  intros E. rewrite E in H. destruct H as (H1 & H2 & _). split; [lia|done].
Qed.

(** ** Each entry point keeps the invariant *)

Lemma bind_local_inv (s : Net) (port : Z) (sock : SocketType) :
  sock_inv s -> id_left s -> port_of sock = port ->
  (forall l, sock = ListenerSocket l -> TcpListener.connections l = ∅) ->
  sock_inv (bind_local s port sock).1.2.
Proof.
  intros Hinv Hleft Hp Hl. unfold bind_local.
  destruct (active_connections s !! port) eqn:E; [done|]. exact (inv_bind s port sock Hinv Hleft E Hp Hl).
Qed.

Lemma bind_remote_inv (s : Net) addr remote port callback :
  sock_inv s -> id_left s -> sock_inv (bind_remote s addr remote port callback).1.2.
Proof.
  intros Hinv Hleft. unfold bind_remote.
  destruct (get_ephemeral_port s) as [p|] eqn:E; [|done].
  apply get_ephemeral_port_free in E as [_ E].
  apply (inv_bind s p (ConnectionSocket _) Hinv Hleft E); done.
Qed.

Lemma bind_inv (s : Net) protocol addr port callback :
  sock_inv s -> id_left s ->
  exists r s' e, socket_io_bind s protocol addr port callback = Some (r, s', e) /\ sock_inv s'.
Proof.
  intros Hinv Hleft. unfold socket_io_bind.
  destruct (parse_bytes_spec addr) as (a & -> & _). cbn [mbind option_bind].
  assert (Hlocal : forall sock, port_of sock = port ->
    (forall l, sock = ListenerSocket l -> TcpListener.connections l = ∅) ->
    exists r s' e, Some (bind_local s port sock) = Some (r, s', e) /\ sock_inv s').
  { intros sock Hp Hl. pose proof (bind_local_inv s port sock Hinv Hleft Hp Hl) as H.
    destruct (bind_local s port sock) as [[r s'] e]. eauto. }
  destruct protocol.
  - destruct a as [a|]; [|by eauto]. destruct (is_local_name a); cbn [negb]; [|by eauto].
    by apply Hlocal.
  - destruct (match a with Some a => is_local_name a | None => false end).
    + apply Hlocal; [done|]. by intros l [= <-].
    + pose proof (bind_remote_inv s addr a port callback Hinv Hleft) as H.
      destruct (bind_remote s addr a port callback) as [[r s'] e]. eauto.
Qed.

Lemma read_inv translate (s : Net) id buffer callback :
  (forall v, is_Some (translate v)) -> sock_inv s -> id_left s ->
  exists r s' e, socket_io_read translate s id buffer callback = Some (r, s', e) /\ sock_inv s'.
Proof.
  intros Ht Hinv Hleft. unfold socket_io_read.
  destruct (socket_map s !! id) as [[l|l|c]|] eqn:E; [..|by eauto].
  - unfold udp_read. destruct (Ht (buf_vaddr buffer)) as [p ->].
    destruct (UdpListener.buffered_datagrams l); cbn [mbind option_bind];
      (eexists _, _, _; split; [done|]); by eapply inv_put_udp.
  - unfold TcpListener.accept. destruct (TcpListener.pending_syn l) as [|[[[la ra] rp] seq] rest].
    + cbn [mbind option_bind]. eexists _, _, _. split; [done|]. by eapply inv_put_listener.
    + destruct (init_connection_ok (TcpListener.set_pending_syn l rest) (next_socket_id s) la ra rp seq callback)
        as (c & e & -> & Hend & Hp). cbn [mbind option_bind].
      eexists _, _, _. split; [done|]. eapply inv_new_child; try done. by rewrite Hend.
  - destruct (read_total translate c buffer callback Ht) as [[[r c'] e] Er]. rewrite Er.
    cbn [mbind option_bind]. eexists _, _, _. split; [done|].
    apply read_addresses in Er as [Hends Hra]. eapply inv_put_connection; try done.
    left. unfold endpoint_of. destruct Hends. congruence.
Qed.

Lemma socket_write_inv (s : Net) id data callback :
  sock_inv s ->
  exists r s' e, socket_io_write s id data callback = Some (r, s', e) /\ sock_inv s'.
Proof.
  intros Hinv. unfold socket_io_write.
  destruct (socket_map s !! id) as [[l|l|c]|] eqn:E; [..|by eauto].
  - assert (exists r q e, udp_write l data (resolved_local_ip s) callback = Some (r, q, e)) as (r & q & e & ->).
    { unfold udp_write. repeat (destruct data as [|? data]; [by eauto|]).
      destruct (resolved_local_ip s) as [ip|]; [|by eauto].
      match goal with |- context [create_datagram ?a ?b ?c ?d ?e] =>
        destruct (create_datagram_total a c b d e) as [p ->] end. cbn [mbind option_bind]. eauto. }
    cbn [mbind option_bind]. eexists _, _, _. split; [done|]. by destruct Hinv.
  - eauto.
  - destruct (write_total c data callback) as [[[r c'] e] Er]. rewrite Er. cbn [mbind option_bind].
    eexists _, _, _. split; [done|]. apply write_addresses in Er as [Hends Hra].
    eapply inv_put_connection; try done. left. unfold endpoint_of. destruct Hends. congruence.
Qed.

(** Closing the children of a listener removes sockets, and the bindings of
    their own ports only. *)
Lemma close_children_ok (ids : list Z) (s : Net) :
  exists s' e, close_children s ids = Some (s', e) /\
    next_socket_id s' = next_socket_id s /\
    socket_map s' ⊆ socket_map s /\ active_connections s' ⊆ active_connections s /\
    (forall p, active_connections s' !! p = active_connections s !! p \/
      exists cid c, cid ∈ ids /\ socket_map s !! cid = Some (ConnectionSocket c) /\
        TcpConnection.local_port c = p) /\
    (forall i, i ∉ ids -> socket_map s' !! i = socket_map s !! i).
Proof.
  revert s. induction ids as [|id ids IH]; intros s; [by eexists _, _; split_and!; auto|].
  cbn [close_children]. set (s1 := set_sockets s (delete id (socket_map s))).
  assert (Hsub1 : socket_map s1 ⊆ socket_map s) by apply delete_subseteq.
  assert (exists s2 e, match socket_map s !! id with
    | Some (ConnectionSocket conn) =>
        '(conn, effects) ← TcpConnection.close conn;
        Some (set_active s1 (delete (TcpConnection.local_port conn) (active_connections s1)), effects)
    | _ => Some (s1, []) end = Some (s2, e) /\
    next_socket_id s2 = next_socket_id s /\ socket_map s2 = socket_map s1 /\
    active_connections s2 ⊆ active_connections s /\
    forall p, active_connections s2 !! p = active_connections s !! p \/
      exists c, socket_map s !! id = Some (ConnectionSocket c) /\ TcpConnection.local_port c = p)
    as (s2 & e & -> & Hn & Hm & Ha & Hp).
  { destruct (socket_map s !! id) as [[l|l|c]|]; try (eexists _, _; split_and!; by auto).
    destruct (close_total c) as [[c' e] Ec]. rewrite Ec. cbn [mbind option_bind].
    apply close_addresses in Ec as [[El _] _].
    eexists _, _. split; [done|]. split; [done|]. split; [done|]. simpl.
    split; [apply delete_subseteq|]. intros p. rewrite El.
    destruct (decide (TcpConnection.local_port c = p)) as [<-|Hne]; [right; eauto|left].
    by rewrite lookup_delete_ne. }
  cbn [mbind option_bind]. destruct (IH s2) as (s3 & e' & -> & Hn' & Hm' & Ha' & Hp' & Hi').
  cbn [mbind option_bind]. eexists _, _. split; [done|]. split; [congruence|].
  split; [etrans; [exact Hm'|]; by rewrite Hm|]. split; [by etrans|].
  split.
  2:{ intros i Hi. apply not_elem_of_cons in Hi as [Hne Hi]. rewrite Hi', Hm by done.
      simpl. by rewrite lookup_delete_ne. }
  intros p. destruct (Hp p) as [E|(c & Hc & El)].
  - destruct (Hp' p) as [E'|(cid & c & Hin & Hc & El)]; [left; congruence|right].
    exists cid, c. split; [by right|]. split; [|done]. rewrite Hm in Hc.
    exact (lookup_weaken _ _ _ _ Hc Hsub1).
  - right. exists id, c. split; [by left|done].
Qed.

Lemma unbind_lookup (s : Net) (id p i : Z) :
  active_connections (unbind s id) !! p = Some i <-> active_connections s !! p = Some i /\ i <> id.
Proof. simpl. apply map_lookup_filter_Some. Qed.

(** The ids of a listener's connections. *)
Lemma all_connection_ids_elem (m : ListenerConnections.t) (cid : Z) :
  cid ∈ ListenerConnections.all_connection_ids m -> exists e, m !! e = Some cid.
Proof.
  unfold ListenerConnections.all_connection_ids. intros H.
  apply list_elem_of_fmap in H as ([e i] & -> & H).
  rewrite (merge_sort_Permutation endpoint_le (map_to_list m)) in H.
  apply elem_of_map_to_list in H. eauto.
Qed.

Lemma close_inv (s : Net) (id : Z) :
  sock_inv s -> exists s' e, socket_io_close s id = Some (s', e) /\ sock_inv s'.
Proof.
  intros Hinv. unfold socket_io_close. destruct (socket_map s !! id) as [sock|] eqn:Hid; [|by eauto].
  set (s1 := set_sockets s (delete id (socket_map s))).
  assert (Hsub : socket_map s1 ⊆ socket_map s) by apply delete_subseteq.
  assert (Hkeep : forall i k, socket_map s1 !! i = Some k -> i <> id /\ socket_map s !! i = Some k).
  { intros i k Hi. simpl in Hi. rewrite lookup_delete_Some in Hi. destruct Hi. auto. }
  destruct sock as [l|l|c].
  - eexists _, _. split; [done|]. apply (inv_shrink s); [done|done| |done|].
    + apply map_filter_subseteq.
    + intros i k Hi Hk. apply unbind_lookup. apply Hkeep in Hi as [Hne Hi]. split; [|done].
      by apply (inv_bound s Hinv).
  - destruct (close_children_ok (ListenerConnections.all_connection_ids (TcpListener.connections l)) s1)
      as (s2 & e & -> & Hn & Hm & Ha & Hp & _). cbn [mbind option_bind].
    eexists _, _. split; [done|]. apply (inv_shrink s); [done|..].
    + simpl. by etrans.
    + etrans; [apply map_filter_subseteq|done].
    + done.
    + intros i k Hi Hk. apply unbind_lookup. simpl in Hi.
      pose proof (lookup_weaken _ _ _ _ Hi Hm) as Hi1. apply Hkeep in Hi1 as [Hne Hi1].
      split; [|done]. pose proof (inv_bound s Hinv _ _ Hi1 Hk) as Hb.
      destruct (Hp (port_of k)) as [E|(cid & c & Hin & Hc & El)]; [rewrite E; exact Hb|].
      exfalso. apply all_connection_ids_elem in Hin as [ep Hin]. apply Hkeep in Hc as [_ Hc].
      destruct (inv_children s Hinv _ _ _ _ _ Hid Hin Hc) as (c1 & [= <-] & _ & Ep).
      pose proof (inv_bound s Hinv _ _ Hid eq_refl) as Hbl. simpl in Hbl.
      rewrite <- Ep, El in Hbl. congruence.
  - destruct (close_total c) as [[c' e] Ec]. rewrite Ec. cbn [mbind option_bind].
    assert (Hs1 : sock_inv s1).
    { apply (inv_shrink s); [done|done|done|done|]. intros i k Hi Hk. apply Hkeep in Hi as [_ Hi].
      by apply (inv_bound s Hinv). }
    destruct (active_connections s1 !! TcpConnection.local_port c') as [lid|] eqn:El; [|by eauto].
    destruct (Z.eqb_spec lid id) as [->|Hne]; cbn [negb].
    + eexists _, _. split; [done|]. apply (inv_shrink s1); [done|done|apply delete_subseteq|done|].
      intros i k Hi Hk. pose proof (inv_bound s1 Hs1 _ _ Hi Hk) as Hb.
      cbn [active_connections set_active]. rewrite lookup_delete_ne; [done|]. intros E. rewrite E, Hb in El. injection El as ->.
      apply Hkeep in Hi as [? _]. done.
    + destruct (socket_map s1 !! lid) as [[k|k|k]|] eqn:Hk; try (by eauto).
      eexists _, _. split; [done|]. eapply inv_put_listener; [done|exact Hk|done|].
      apply delete_subseteq.
Qed.

Lemma udp_packet_inv (s : Net) port remote remote_port data :
  sock_inv s -> sock_inv (handle_udp_packet s port remote remote_port data).1.
Proof.
  intros Hinv. unfold handle_udp_packet.
  destruct (active_connections s !! port) as [id|]; [|done].
  destruct (socket_map s !! id) as [[l|l|c]|] eqn:E; try done.
  unfold udp_handle_packet. destruct (UdpListener.pending_reads l);
    [|destruct (deliver_to_buffer _ _ _)]; by eapply inv_put_udp.
Qed.

(** A connection that owns its port is in no listener's table. *)
Lemma owner_not_child (s : Net) (p id : Z) (c : TcpConnection.t) :
  sock_inv s -> active_connections s !! p = Some id -> socket_map s !! id = Some (ConnectionSocket c) ->
  forall lid l e, socket_map s !! lid = Some (ListenerSocket l) -> TcpListener.connections l !! e <> Some id.
Proof.
  intros Hinv Hp Hid lid l e Hl He.
  destruct (inv_children s Hinv _ _ _ _ _ Hl He Hid) as (c1 & [= <-] & _ & Ep).
  pose proof (inv_ports s Hinv _ _ _ Hp Hid) as E1. simpl in E1.
  pose proof (inv_bound s Hinv _ _ Hl eq_refl) as E2. simpl in E2. congruence.
Qed.

Lemma tcp_packet_inv live (s : Net) local port remote header data :
  sock_inv s -> id_left s ->
  exists s' e, handle_tcp_packet live s local port remote header data = Some (s', e) /\ sock_inv s'.
Proof.
  intros Hinv Hleft. unfold handle_tcp_packet.
  destruct (active_connections s !! port) as [id|] eqn:Hp; [|by eauto].
  set (rport := u16_swap (TcpHeader.source_port header)).
  assert (Hconn : forall i c, socket_map s !! i = Some (ConnectionSocket c) ->
    (TcpConnection.remote_address c = remote \/
     forall lid l e, socket_map s !! lid = Some (ListenerSocket l) ->
       TcpListener.connections l !! e <> Some i) ->
    exists s' e, ('(connection, effects) ←
      TcpConnection.handle_packet live c local remote header data;
      Some (put_socket s i (ConnectionSocket connection), effects)) = Some (s', e) /\ sock_inv s').
  { intros i c Hi Hor. destruct (handle_packet_total live c local remote header data) as [[c' e] Ec].
    rewrite Ec. cbn [mbind option_bind]. eexists _, _. split; [done|].
    apply handle_packet_ends in Ec as [Hends Hra]. eapply inv_put_connection; [done|exact Hi|done|].
    destruct Hor as [Hor|Hor]; [left|by right]. unfold endpoint_of. destruct Hends as [_ Er].
    rewrite Er. f_equal. destruct Hra; congruence. }
  destruct (socket_map s !! id) as [[l|l|c]|] eqn:Hid.
  - rewrite Hid. by eauto.
  - destruct (ListenerConnections.find (TcpListener.connections l) remote rport) as [cid|] eqn:Hf; cbv [from_option Datatypes.id].
    + destruct (socket_map s !! cid) as [sock|] eqn:Hc; [|by eauto].
      destruct (inv_children s Hinv _ _ _ _ _ Hid Hf Hc) as (c & -> & Hend & _).
      apply (Hconn cid c Hc). left. by injection Hend.
    + rewrite Hid. unfold TcpListener.handle_packet. fold rport. rewrite Hf.
      assert (Hans : exists s' e, (if negb (TcpHeader.is_syn header) && negb (TcpHeader.is_rst header) then
          answer ← answer_unknown local port remote header data;
          Some (put_socket s id (ListenerSocket l), [] ++ answer)
        else Some (put_socket s id (ListenerSocket l), [])) = Some (s', e) /\ sock_inv s').
      { assert (Hsame : sock_inv (put_socket s id (ListenerSocket l))) by by eapply inv_put_listener.
        destruct (_ && _); [|by eauto]. unfold answer_unknown.
        match goal with |- context [TcpHeader.create_packet ?a ?b ?c ?d ?e ?f ?g ?h] =>
          destruct (create_packet_total a c b d e f g h) as [p ->] end. cbn [mbind option_bind]. eauto. }
      destruct (TcpHeader.is_syn header) eqn:Esyn; [|exact Hans].
      destruct (TcpListener.pending_accept l) as [|cb rest].
      * cbn [mbind option_bind negb andb]. eexists _, _. split; [done|]. by eapply inv_put_listener.
      * destruct (init_connection_ok (TcpListener.set_pending_accept l rest) (next_socket_id s) local remote
          rport (u32_swap (TcpHeader.sequence_number header)) cb) as (c & e & -> & Hend & Hlp).
        cbn [mbind option_bind]. eexists _, _. split; [done|].
        eapply inv_new_child; try done. by rewrite Hend.
  - rewrite Hid. apply (Hconn id c Hid). right. by eapply owner_not_child.
  - rewrite Hid. by eauto.
Qed.

Lemma flush_loop_total (ip : Ipv4Address.t) (l : list PendingUdpWrite) : is_Some (flush_loop ip l).
Proof.
  induction l as [|w l [e IH]]; simpl; [by eexists|].
  destruct (create_datagram_total ip (dest_ip w) (source_port w) (dest_port w) (payload w)) as [p ->].
  cbn [mbind option_bind]. rewrite IH. by eexists.
Qed.

(** ** Reachable states *)

Section Reachable.
Context (live : Z -> bool) (translate : Z -> option Z).
Hypothesis translate_total : forall v, is_Some (translate v).

(** What a call needs: an id left to hand out, and for the DNS socket a free
    ephemeral port. *)
Definition net_ready (s : Net) (op : net_op) : Prop :=
  id_left s /\ (op = NetDns -> is_Some (get_ephemeral_port s)).

Lemma net_step_inv (s : Net) (op : net_op) :
  sock_inv s -> net_ready s op ->
  exists s' e, net_step live translate s op = Some (s', e) /\ sock_inv s'.
Proof.
  intros Hinv [Hleft Hdns]. destruct op; simpl.
  - destruct (bind_inv s protocol addr port callback Hinv Hleft) as (r & s' & e & -> & H).
    cbn [mbind option_bind]. eauto.
  - destruct (read_inv translate s id buffer callback translate_total Hinv Hleft) as (r & s' & e & -> & H).
    cbn [mbind option_bind]. eauto.
  - destruct (socket_write_inv s id data callback Hinv) as (r & s' & e & -> & H). cbn [mbind option_bind]. eauto.
  - by apply close_inv.
  - destruct (Hdns eq_refl) as [p Hp]. rewrite Hp. cbn [mbind option_bind].
    eexists _, _. split; [done|]. apply get_ephemeral_port_free in Hp as [_ Hp].
    unfold create_dns_socket. pose proof (bump_id_next s Hleft) as En. simpl in En.
    destruct Hinv as [I1 I2 I3 I4 I5 I6]. split; simpl; rewrite ?En.
    + intros i k Hi. pose proof (I1 _ _ Hi). lia.
    + intros q i. rewrite lookup_insert_Some. intros [[_ <-]|[_ Hi]]; [lia|]. pose proof (I2 _ _ Hi). lia.
    + intros lid l e cid Hl Hc. pose proof (I3 _ _ _ _ Hl Hc). lia.
    + exact I4.
    + intros q i k. rewrite lookup_insert_Some. intros [[_ <-]|[_ Hq]] Hs; [|eauto].
      pose proof (I1 _ _ Hs). lia.
    + intros i k Hs Hk. rewrite lookup_insert_ne; [eauto|]. intros E.
      rewrite E, (I6 _ _ Hs Hk) in Hp. done.
  - pose proof (udp_packet_inv s port remote remote_port data Hinv) as H.
    destruct (handle_udp_packet _ _ _ _ _) as [s' e]. eauto.
  - by apply tcp_packet_inv.
  - unfold flush_pending_udp_writes. destruct (flush_loop_total ip (pending_udp_writes s)) as [e He].
    simpl. rewrite He. cbn [mbind option_bind]. eexists _, _. split; [done|]. by destruct Hinv.
Qed.

Inductive net_reachable : Net -> Prop :=
| net_init : net_reachable init_net
| net_next (s s' : Net) (op : net_op) (e : list NetEffect) :
    net_reachable s -> net_ready s op -> net_step live translate s op = Some (s', e) ->
    net_reachable s'.

Lemma net_reachable_inv (s : Net) : net_reachable s -> sock_inv s.
Proof.
  induction 1 as [|s s' op e _ IH Hr Hs]; [apply init_net_inv|].
  destruct (net_step_inv s op IH Hr) as (s2 & e2 & E & H). congruence.
Qed.

End Reachable.

(** ** Isolation of ports *)

(** The port that a call on a socket, or a packet, is about. *)
Definition op_port (s : Net) (op : net_op) : option Z :=
  match op with
  | NetRead id _ _ | NetWrite id _ _ | NetClose id => port_of <$> socket_map s !! id
  | NetUdp port _ _ _ => Some port
  | NetTcp _ port _ _ _ => Some port
  | _ => None
  end.

Definition isolated (p : Z) (s s' : Net) : Prop :=
  (forall id sock, socket_map s !! id = Some sock -> port_of sock <> p ->
    socket_map s' !! id = Some sock) /\
  (forall q, q <> p -> active_connections s' !! q = active_connections s !! q).

Lemma isolated_refl (p : Z) (s : Net) : isolated p s s.
Proof. by split. Qed.

(** Changing a socket of port [p], and adding a socket under a new id. *)
Lemma isolated_put (p id : Z) (s : Net) (old new : SocketType) :
  socket_map s !! id = Some old -> port_of old = p -> isolated p s (put_socket s id new).
Proof.
  intros Hid Hp. split; [|done]. intros i sock Hi Hne. simpl.
  rewrite lookup_insert_ne; [done|]. intros <-. congruence.
Qed.

Lemma isolated_new (p : Z) (s s' : Net) (sock : SocketType) :
  sock_inv s -> isolated p s s' ->
  isolated p s (put_socket (bump_id s') (next_socket_id s) sock).
Proof.
  intros Hinv [H1 H2]. split; [|done]. intros i k Hi Hne. simpl. rewrite lookup_insert_ne; [eauto|].
  intros <-. pose proof (inv_socket_ids s Hinv _ _ Hi). lia.
Qed.

Lemma close_isolated (s s' : Net) (id : Z) (sock : SocketType) (e : list NetEffect) :
  sock_inv s -> socket_map s !! id = Some sock -> socket_io_close s id = Some (s', e) ->
  isolated (port_of sock) s s'.
Proof.
  intros Hinv Hid H. unfold socket_io_close in H. rewrite Hid in H.
  set (s1 := set_sockets s (delete id (socket_map s))) in H.
  assert (H1 : isolated (port_of sock) s s1).
  { split; [|done]. intros i k Hi Hne. simpl. rewrite lookup_delete_ne; [done|]. intros <-. congruence. }
  assert (Hun : forall p s2, isolated p s s2 -> active_connections s !! p = Some id ->
    isolated p s (unbind s2 id)).
  { intros p s2 [Ha Hb] Hp. split; [done|]. intros q Hq. rewrite <- Hb by done. apply option_eq.
    intros i. rewrite unbind_lookup. split; [by intros [? _]|]. intros Hi. split; [done|]. intros ->.
    rewrite Hb in Hi by done. apply Hq. 
    rewrite <- (inv_ports s Hinv _ _ _ Hi Hid). exact (inv_ports s Hinv _ _ _ Hp Hid). }
  destruct sock as [l|l|c].
  - injection H as <- <-. apply Hun; [done|]. exact (inv_bound s Hinv _ _ Hid eq_refl).
  - apply bind_Some in H as ([s2 e2] & Hc & H). injection H as <- <-.
    apply Hun; [|exact (inv_bound s Hinv _ _ Hid eq_refl)].
    destruct (close_children_ok (ListenerConnections.all_connection_ids (TcpListener.connections l)) s1)
      as (s3 & e3 & E & _ & _ & _ & Hp & Hi). rewrite Hc in E. injection E as <- <-.
    destruct H1 as [Ha Hb].
    assert (Hchild : forall cid k, cid ∈ ListenerConnections.all_connection_ids (TcpListener.connections l) ->
      socket_map s1 !! cid = Some k -> port_of k = TcpListener.local_port l).
    { intros cid k Hin Hk. apply all_connection_ids_elem in Hin as [ep Hin].
      simpl in Hk. rewrite lookup_delete_Some in Hk. destruct Hk as [_ Hk].
      destruct (inv_children s Hinv _ _ _ _ _ Hid Hin Hk) as (c & -> & _ & Ep). exact Ep. }
    split.
    + intros i k Hk Hne. pose proof (Ha _ _ Hk Hne) as Hk1. rewrite Hi; [done|]. intros Hin.
      by apply Hne, (Hchild i).
    + intros q Hq. rewrite <- Hb by done. destruct (Hp q) as [E|(cid & c & Hin & Hk & El)]; [done|].
      destruct Hq. rewrite <- El. exact (Hchild _ _ Hin Hk).
  - apply bind_Some in H as ([c' e2] & Hc & H). apply close_addresses in Hc as [[El _] _].
    rewrite El in H. destruct (active_connections s1 !! TcpConnection.local_port c) as [lid|] eqn:Hl.
    + destruct (lid =? id).
      * injection H as <- <-. destruct H1 as [Ha Hb]. split; [done|]. intros q Hq. simpl.
        rewrite lookup_delete_ne; [done|]. intros <-. by apply Hq.
      * cbn [negb] in H. destruct (socket_map s1 !! lid) as [[k|k|k]|] eqn:Hk;
          injection H as <- <-; try done. destruct H1 as [Ha Hb]. split; [|done].
        intros i sock Hi Hne. simpl. rewrite lookup_insert_ne; [by apply Ha|]. intros <-.
        simpl in Hk. rewrite lookup_delete_Some in Hk. destruct Hk as [_ Hk].
        apply Hne. rewrite Hk in Hi. injection Hi as <-. exact (inv_ports s Hinv _ _ _ Hl Hk).
    + by injection H as <- <-.
Qed.

Lemma tcp_isolated live (s s' : Net) local port remote header data e :
  sock_inv s -> handle_tcp_packet live s local port remote header data = Some (s', e) ->
  isolated port s s'.
Proof.
  intros Hinv H. unfold handle_tcp_packet in H.
  destruct (active_connections s !! port) as [id|] eqn:Hp; [|injection H as <- <-; apply isolated_refl].
  set (lookup_id := match socket_map s !! id with Some (ListenerSocket l) => _ | _ => id end) in H.
  assert (Hport : forall sock, socket_map s !! lookup_id = Some sock -> port_of sock = port).
  { intros sock Hs. subst lookup_id. destruct (socket_map s !! id) as [[l|l|c]|] eqn:Hid;
      try (rewrite Hid in Hs; injection Hs as <-; exact (inv_ports s Hinv _ _ _ Hp Hid)); [|congruence].
    destruct (ListenerConnections.find _ _ _) as [cid|] eqn:Hf; cbv [from_option Datatypes.id] in Hs.
    - destruct (inv_children s Hinv _ _ _ _ _ Hid Hf Hs) as (c & -> & _ & Ep). simpl. rewrite Ep.
      exact (inv_ports s Hinv _ _ _ Hp Hid).
    - exact (inv_ports s Hinv _ _ _ Hp Hs). }
  destruct (socket_map s !! lookup_id) as [[l|l|c]|] eqn:Hl.
  - injection H as <- <-. apply isolated_refl.
  - apply bind_Some in H as ([[l' new] e1] & Hlp & H).
    pose proof (isolated_put port lookup_id s _ (ListenerSocket l') Hl (Hport _ eq_refl)) as Hiso.
    destruct new as [[nid c]|].
    + injection H as <- <-. assert (nid = next_socket_id s) as ->; [|by apply isolated_new].
      unfold TcpListener.handle_packet in Hlp. destruct (ListenerConnections.find _ _ _); [done|].
      destruct (TcpHeader.is_syn header); [|done]. destruct (TcpListener.pending_accept l) as [|cb rest]; [done|].
      match goal with H : context [TcpListener.init_connection ?a ?b ?c ?d ?e ?f ?g] |- _ =>
        destruct (init_connection_ok a b c d e f g) as (c1 & e2 & E & _) end.
      rewrite E in Hlp. cbn [mbind option_bind] in Hlp. by injection Hlp.
    + destruct (_ && _); [apply bind_Some in H as (a & _ & H)|]; by injection H as <- <-.
  - apply bind_Some in H as ([c' e1] & _ & H). injection H as <- <-.
    by eapply isolated_put; [exact Hl|apply Hport].
  - injection H as <- <-. apply isolated_refl.
Qed.

Lemma read_isolated translate (s s' : Net) (id : Z) buffer callback r e (sock : SocketType) :
  sock_inv s -> socket_map s !! id = Some sock ->
  socket_io_read translate s id buffer callback = Some (r, s', e) -> isolated (port_of sock) s s'.
Proof.
  intros Hinv Hid H. unfold socket_io_read in H. rewrite Hid in H. destruct sock as [l|l|c].
  - apply bind_Some in H as ([[r1 l'] e1] & _ & H). injection H as <- <- <-. by eapply isolated_put.
  - apply bind_Some in H as ([[l' new] e1] & Ha & H).
    pose proof (isolated_put _ id s _ (ListenerSocket l') Hid eq_refl) as Hiso.
    destruct new as [[nid c]|]; injection H as <- <- <-; [|done].
    assert (nid = next_socket_id s) as ->; [|by apply isolated_new].
    unfold TcpListener.accept in Ha. destruct (TcpListener.pending_syn l) as [|[[[a1 a2] a3] a4] rest]; [done|].
    match goal with H : context [TcpListener.init_connection ?a ?b ?c ?d ?e ?f ?g] |- _ =>
      destruct (init_connection_ok a b c d e f g) as (c1 & e2 & E & _) end.
    rewrite E in Ha. cbn [mbind option_bind] in Ha. by injection Ha.
  - apply bind_Some in H as ([[r1 c'] e1] & _ & H). injection H as <- <- <-. by eapply isolated_put.
Qed.

(** C30: Ports are isolated.  In a reachable state, a read, write or close of a
    socket on port [p], and a UDP or TCP packet to port [p], leave every socket
    of every other port and the binding of every other port as they were. *)
Theorem ports_isolated (live : Z -> bool) (translate : Z -> option Z) (s s' : Net) (op : net_op)
    (e : list NetEffect) (p : Z)
    (Htr : forall v, is_Some (translate v)) (Hs : net_reachable live translate s)
    (Hport : op_port s op = Some p) (Hstep : net_step live translate s op = Some (s', e)) :
  (forall id sock, socket_map s !! id = Some sock -> port_of sock <> p ->
    socket_map s' !! id = Some sock) /\
  (forall q, q <> p -> active_connections s' !! q = active_connections s !! q).
Proof.
  pose proof (net_reachable_inv live translate Htr s Hs) as Hinv. change (isolated p s s').
  destruct op; simpl in Hport; try done; simpl in Hstep.
  - apply fmap_Some in Hport as (sock & Hid & ->).
    apply bind_Some in Hstep as ([[r s1] e1] & H & Hstep). injection Hstep as <- <-.
    by eapply read_isolated.
  - apply fmap_Some in Hport as (sock & Hid & ->).
    apply bind_Some in Hstep as ([[r s1] e1] & H & Hstep). injection Hstep as <- <-.
    unfold socket_io_write in H. rewrite Hid in H. destruct sock as [l|l|c].
    + apply bind_Some in H as ([[r1 q] e2] & _ & H). by injection H as <- <- <-.
    + by injection H as <- <- <-.
    + apply bind_Some in H as ([[r1 c'] e2] & _ & H). injection H as <- <- <-. by eapply isolated_put.
  - apply fmap_Some in Hport as (sock & Hid & ->). by eapply close_isolated.
  - injection Hport as <-. injection Hstep as Hstep. unfold handle_udp_packet in Hstep.
    destruct (active_connections s !! port) as [id|] eqn:Hp; [|by injection Hstep as <- <-].
    destruct (socket_map s !! id) as [[l|l|c]|] eqn:Hid; try by injection Hstep as <- <-.
    destruct (udp_handle_packet _ _ _ _) as [l' e']. injection Hstep as <- <-.
    eapply isolated_put; [done|]. exact (inv_ports s Hinv _ _ _ Hp Hid).
  - injection Hport as <-. by eapply tcp_isolated.
Qed.

(** ** Binding and closing *)

(** A port is bound once and freed by closing.  In a reachable state,
    binding a UDP socket or a TCP listener to a port that is in use fails with
    [ResourceInUse] and changes nothing; binding a free port succeeds with an
    id that no socket had, under which the socket is found; and closing that
    id at once restores both tables, so that the port can be bound again. *)
Theorem bind_once_and_close (live : Z -> bool) (translate : Z -> option Z) (s : Net)
    (protocol : SocketProtocol) (addr : list Z) (port : Z) (callback : AsyncCallback) (a : Ipv4Address.t)
    (Htr : forall v, is_Some (translate v)) (Hs : net_reachable live translate s) (Hleft : id_left s)
    (Haddr : parse_bytes addr = Some (Some a)) (Hlocal : a = ANY \/ a = LOOPBACK) :
  match active_connections s !! port with
  | Some _ => socket_io_bind s protocol addr port callback = Some (Some (Err ResourceInUse), s, [])
  | None =>
      exists id s1 sock s2 e,
        socket_io_bind s protocol addr port callback = Some (Some (Ok id), s1, []) /\
        socket_map s !! id = None /\ socket_map s1 = <[id := sock]> (socket_map s) /\
        port_of sock = port /\ active_connections s1 !! port = Some id /\
        socket_io_close s1 id = Some (s2, e) /\
        socket_map s2 = socket_map s /\ active_connections s2 = active_connections s
  end.
Proof.
  pose proof (net_reachable_inv live translate Htr s Hs) as Hinv.
  assert (Hname : is_local_name a = true).
  { unfold is_local_name. apply orb_true_iff.
    destruct Hlocal as [->| ->]; [left|right]; by apply bool_decide_eq_true. }
  set (sock := match protocol with ProtoUdp => UdpSocket (UdpListener.new port)
                                 | ProtoTcp => ListenerSocket (TcpListener.new port) end).
  assert (Hbind : socket_io_bind s protocol addr port callback = Some (bind_local s port sock)).
  { unfold socket_io_bind. rewrite Haddr. cbn [mbind option_bind]. rewrite Hname. by destruct protocol. }
  rewrite Hbind. unfold bind_local.
  destruct (active_connections s !! port) as [i|] eqn:Hp; [done|].
  set (id := next_socket_id s).
  assert (Hfresh : socket_map s !! id = None).
  { apply eq_None_not_Some. intros [k Hk]. pose proof (inv_socket_ids s Hinv _ _ Hk). unfold id in *. lia. }
  set (s1 := put_socket _ id sock).
  assert (Hclose : exists s2, socket_io_close s1 id = Some (s2, []) /\
    socket_map s2 = socket_map s /\ active_connections s2 = active_connections s).
  { unfold socket_io_close. cbn [socket_map s1 put_socket set_sockets]. rewrite lookup_insert_eq.
    assert (Hm : delete id (<[id := sock]> (socket_map s)) = socket_map s)
      by (rewrite delete_insert_eq; by apply delete_id).
    assert (Ha : filter (fun kv => kv.2 <> id) (<[port := id]> (active_connections s)) =
      active_connections s).
    { apply map_eq. intros q. apply option_eq. intros i. rewrite map_lookup_filter_Some, lookup_insert_Some.
      split.
      - intros [[[_ <-]|[_ Hq]] Hne]; [done|exact Hq].
      - intros Hq. split.
        + right. split; [intros <-; congruence|exact Hq].
        + simpl. pose proof (inv_active_ids s Hinv _ _ Hq). unfold id. lia. }
    destruct protocol; cbn [sock]; simpl; (eexists; split; [done|]); simpl; by rewrite Hm, Ha. }
  destruct Hclose as (s2 & Ec & E1 & E2).
  exists id, s1, sock, s2, []. split; [done|]. split; [done|]. split; [done|].
  split; [by destruct protocol|]. split; [apply lookup_insert_eq|]. done.
Qed.

(** ** Examples *)

Definition any_string : list Z := [48; 46; 48; 46; 48; 46; 48].

Lemma any_string_parses : parse_bytes any_string = Some (Some ANY).
Proof. vm_compute. reflexivity. Qed.

(** A UDP socket on port 7, a listener on port 80 with a waiting accept, and a
    connection request from 10.0.2.2:5000 to it. *)
Definition example_net_ops : list net_op :=
  [NetBind ProtoUdp any_string 7 (1, 1, 1); NetBind ProtoTcp any_string 80 (1, 2, 1);
   NetRead 2 {| buf_vaddr := 0; buf_len := 0 |} (1, 2, 2)].

Definition example_syn : TcpHeader.t :=
  {| TcpHeader.source_port := u16_swap 5000; TcpHeader.dest_port := u16_swap 80;
     TcpHeader.sequence_number := u32_swap 1000; TcpHeader.ack_number := 0;
     TcpHeader.data_offset := 0x50; TcpHeader.flags := TcpHeader.FLAG_SYN;
     TcpHeader.window_size := 0xffff; TcpHeader.checksum := 0; TcpHeader.urgent_pointer := 0 |}.

Definition example_syn_packet : net_op :=
  NetTcp (Ipv4Address 10 0 2 15) 80 (Ipv4Address 10 0 2 2) example_syn [].

Fixpoint run_net (s : Net) (ops : list net_op) : option Net :=
  match ops with
  | [] => Some s
  | op :: ops =>
      '(s, _) ← net_step (fun _ => true) Some s op;
      run_net s ops
  end.

Lemma example_state_reachable :
  exists s, run_net init_net example_net_ops = Some s /\
    net_reachable (fun _ => true) Some s /\ id_left s.
Proof.
  unfold example_net_ops. cbn [run_net].
  set (op1 := NetBind _ _ 7 _). set (op2 := NetBind _ _ 80 _). set (op3 := NetRead _ _ _).
  destruct (net_step (fun _ => true) Some init_net op1) as [[s1 e1]|] eqn:E1;
    [|exfalso; vm_compute in E1; discriminate]. cbn [mbind option_bind].
  assert (R1 : net_reachable (fun _ => true) Some s1).
  { eapply (net_next _ _ init_net s1 op1 e1); [constructor| |exact E1].
    split; [split; vm_compute; congruence|done]. }
  vm_compute in E1. injection E1 as <- <-.
  destruct (net_step (fun _ => true) Some _ op2) as [[s2 e2]|] eqn:E2;
    [|exfalso; vm_compute in E2; discriminate]. cbn [mbind option_bind].
  assert (R2 : net_reachable (fun _ => true) Some s2).
  { eapply net_next; [exact R1| |exact E2]. split; [split; vm_compute; congruence|done]. }
  clear R1. vm_compute in E2. injection E2 as <- <-.
  destruct (net_step (fun _ => true) Some _ op3) as [[s3 e3]|] eqn:E3;
    [|exfalso; vm_compute in E3; discriminate]. cbn [mbind option_bind].
  exists s3. split; [done|]. split.
  - eapply net_next; [exact R2| |exact E3]. split; [split; vm_compute; congruence|done].
  - vm_compute in E3. injection E3 as <- <-. split; vm_compute; congruence.
Qed.

Lemma some_total (v : Z) : is_Some (Some v).
Proof. by eexists. Qed.


(** The connection request to port 80 leaves the socket of port 7 alone. *)
Lemma ports_isolated_witness :
  exists s s' e, run_net init_net example_net_ops = Some s /\
    net_step (fun _ => true) Some s example_syn_packet = Some (s', e) /\
    (forall id sock, socket_map s !! id = Some sock -> port_of sock <> 80 ->
      socket_map s' !! id = Some sock) /\
    (forall q, q <> 80 -> active_connections s' !! q = active_connections s !! q).
Proof.
  destruct example_state_reachable as (s & E & R & L).
  assert (Hready : net_ready s example_syn_packet) by (split; [exact L|discriminate]).
  pose proof (net_reachable_inv (fun _ => true) Some some_total s R) as Hinv.
  destruct (net_step_inv (fun _ => true) Some some_total s example_syn_packet Hinv Hready)
    as (s' & e & Hstep & _).
  exists s, s', e. split; [exact E|]. split; [exact Hstep|].
  exact (ports_isolated (fun _ => true) Some s s' example_syn_packet e 80 some_total R eq_refl Hstep).
Defined.

Lemma bind_once_and_close_witness :
  exists id s1 sock s2 e,
    socket_io_bind init_net ProtoTcp any_string 80 (1, 2, 1) = Some (Some (Ok id), s1, []) /\
    socket_map init_net !! id = None /\ socket_map s1 = <[id := sock]> (socket_map init_net) /\
    port_of sock = 80 /\ active_connections s1 !! 80 = Some id /\
    socket_io_close s1 id = Some (s2, e) /\
    socket_map s2 = socket_map init_net /\ active_connections s2 = active_connections init_net.
Proof.
  refine (bind_once_and_close (fun _ => true) Some init_net ProtoTcp any_string 80 (1, 2, 1) ANY
    some_total (net_init _ _) _ any_string_parses (or_introl eq_refl)).
  split; vm_compute; congruence.
Defined.
