(* ===== verification/TcpHandshake.v ===== *)
(** * TCP handshakes

    The three-way handshake between a listener of [Sockets] and a remote
    client, and between an IDOS client and an IDOS listener. *)

From S2P Require Import Prelude Api NetPacket Ipv4 NetTransport Utf8 Tcp TcpSpec TcpStream Sockets SocketsSpec.

(** The packet with which [open_tcp] starts an outbound connection
    ([kernel/src/net/resident.rs]). *)
Definition open_tcp_packet (local_addr : Ipv4Address.t) (local_port : Z) (remote_addr : Ipv4Address.t)
    (remote_port : Z) : option (list Z) :=
  TcpHeader.create_packet local_addr local_port remote_addr remote_port 0 0 TcpHeader.FLAG_SYN [].

(** A listener on [port] with a waiting accept and no connection from the
    endpoint. *)
Record listening (s : Net) (port lid : Z) (l : TcpListener.t) (cb : AsyncCallback)
    (rest : list AsyncCallback) (remote : Ipv4Address.t) (rport : Z) : Prop := {
  lis_active : active_connections s !! port = Some lid;
  lis_socket : socket_map s !! lid = Some (ListenerSocket l);
  lis_port : TcpListener.local_port l = port;
  lis_accept : TcpListener.pending_accept l = cb :: rest;
  lis_none : TcpListener.connections l !! (remote, rport) = None
}.

(** The first packet: the listener records the connection under the next id
    and answers. *)
Lemma handle_syn live (s : Net) port lid l cb rest local remote h data :
  let rport := u16_swap (TcpHeader.source_port h) in
  let seq := u32_swap (TcpHeader.sequence_number h) in
  let out := seq =? 0 in
  let flags := if out then TcpHeader.FLAG_SYN else TcpHeader.FLAG_SYN .| TcpHeader.FLAG_ACK in
  listening s port lid l cb rest remote rport -> TcpHeader.is_syn h = true ->
  exists reply,
    TcpHeader.create_packet local port remote rport 0 (u32 (seq + 1)) flags [] = Some reply /\
    let c := TcpConnection.set_last_sequence_received
      (TcpConnection.new (next_socket_id s) port remote rport out (Some (cb, negb out))) seq in
    let l' := TcpListener.set_connections (TcpListener.set_pending_accept l rest)
      (<[(remote, rport) := next_socket_id s]> (TcpListener.connections l)) in
    handle_tcp_packet live s local port remote h data =
      Some (put_socket (bump_id (put_socket s lid (ListenerSocket l'))) (next_socket_id s)
              (ConnectionSocket c), [NetRespond remote reply]).
Proof.
  intros rport seq out flags [Ha Hl Hp Hacc Hn] Hsyn.
  destruct (create_packet_total local remote port rport 0 (u32 (seq + 1)) flags []) as [reply Er].
  exists reply. split; [done|]. unfold handle_tcp_packet. rewrite Ha, Hl.
  unfold ListenerConnections.find at 1. fold rport. rewrite Hn. cbv [from_option Datatypes.id].
  rewrite Hl. unfold TcpListener.handle_packet. fold rport seq.
  unfold ListenerConnections.find. rewrite Hn, Hsyn, Hacc.
  unfold TcpListener.init_connection. cbn [TcpListener.local_port TcpListener.set_pending_accept
    TcpListener.set_connections TcpConnection.last_sequence_sent TcpConnection.last_sequence_received
    TcpConnection.set_last_sequence_received TcpConnection.set_received TcpConnection.new].
  rewrite Hp. fold out. fold flags. rewrite Er. cbn [mbind option_bind]. reflexivity.
Qed.

(** A later packet from the endpoint reaches the connection. *)
Lemma handle_child live (s : Net) port lid l cid c local remote h data :
  active_connections s !! port = Some lid -> socket_map s !! lid = Some (ListenerSocket l) ->
  TcpListener.connections l !! (remote, u16_swap (TcpHeader.source_port h)) = Some cid ->
  socket_map s !! cid = Some (ConnectionSocket c) ->
  handle_tcp_packet live s local port remote h data =
    '(c', effects) ← TcpConnection.handle_packet live c local remote h data;
    Some (put_socket s cid (ConnectionSocket c'), effects).
Proof.
  intros Ha Hl Hc Hs. unfold handle_tcp_packet. rewrite Ha, Hl.
  unfold ListenerConnections.find. rewrite Hc. cbv [from_option Datatypes.id]. by rewrite Hs.
Qed.

(** The state after the first packet. *)
Section AfterSyn.
Context (s : Net) (port lid cid : Z) (l' : TcpListener.t) (c : TcpConnection.t).
Let s1 := put_socket (bump_id (put_socket s lid (ListenerSocket l'))) cid (ConnectionSocket c).

Lemma after_syn_lookups : lid <> cid ->
  socket_map s1 !! lid = Some (ListenerSocket l') /\ socket_map s1 !! cid = Some (ConnectionSocket c).
Proof.
  intros Hne. unfold s1. simpl. split; [|apply lookup_insert_eq].
  rewrite lookup_insert_ne by done. apply lookup_insert_eq.
Qed.
End AfterSyn.

(** C32: The three-way handshake.  A listener with a waiting accept gets a
    connection request with a nonzero sequence number, then an acknowledgement
    of its answer.  It answers the request with SYN and ACK for the next
    sequence number; after the acknowledgement the connection is established,
    expects the sequence number of that packet, and completes the accept with
    its socket id. *)
Theorem inbound_handshake live (s : Net) port lid l cb rest local remote (h1 h2 : TcpHeader.t)
    (d1 d2 : list Z)
    (Hlid : lid < next_socket_id s)
    (Hlis : listening s port lid l cb rest remote (u16_swap (TcpHeader.source_port h1)))
    (Hlive : live (fst (fst cb)) = true)
    (Hsyn : TcpHeader.is_syn h1 = true) (Hseq : u32_swap (TcpHeader.sequence_number h1) <> 0)
    (Hsame : TcpHeader.source_port h2 = TcpHeader.source_port h1)
    (Hack : TcpHeader.is_ack h2 = true) (Hrst : TcpHeader.is_rst h2 = false)
    (Hackno : u32_swap (TcpHeader.ack_number h2) = 1) :
  let rport := u16_swap (TcpHeader.source_port h1) in
  let cid := next_socket_id s in
  exists s1 s2 reply c,
    handle_tcp_packet live s local port remote h1 d1 = Some (s1, [NetRespond remote reply]) /\
    TcpHeader.create_packet local port remote rport 0
      (u32 (u32_swap (TcpHeader.sequence_number h1) + 1))
      (TcpHeader.FLAG_SYN .| TcpHeader.FLAG_ACK) [] = Some reply /\
    handle_tcp_packet live s1 local port remote h2 d2 = Some (s2, [CompleteAccept cb cid]) /\
    socket_map s2 !! cid = Some (ConnectionSocket c) /\
    TcpConnection.state c = Established /\ TcpConnection.last_sequence_sent c = 1 /\
    TcpConnection.last_sequence_received c = u32_swap (TcpHeader.sequence_number h2) /\
    endpoint_of c = (remote, rport) /\ TcpConnection.local_port c = port.
Proof.
  intros rport cid.
  destruct (handle_syn live s port lid l cb rest local remote h1 d1 Hlis Hsyn) as (reply & Er & E1).
  fold rport cid in Er, E1. apply Z.eqb_neq in Hseq. rewrite Hseq in Er, E1. cbn [negb] in E1.
  set (c0 := TcpConnection.set_last_sequence_received _ _) in E1.
  set (l' := TcpListener.set_connections _ _) in E1.
  assert (Hne : lid <> cid) by (unfold cid; lia).
  destruct (after_syn_lookups s lid cid l' c0 Hne) as [Hl1 Hc1].
  set (s1 := put_socket _ _ (ConnectionSocket c0)) in *.
  assert (Hfind : TcpListener.connections l' !! (remote, u16_swap (TcpHeader.source_port h2)) = Some cid)
    by (rewrite Hsame; apply lookup_insert_eq).
  pose proof (handle_child live s1 port lid l' cid c0 local remote h2 d2
    (lis_active _ _ _ _ _ _ _ _ Hlis) Hl1 Hfind Hc1) as E2.
  assert (Hact : TcpConnection.action_for_tcp_packet c0 h2 = Connect).
  { unfold TcpConnection.action_for_tcp_packet. rewrite Hrst. simpl. rewrite Hack, Hackno. done. }
  assert (Hn : TcpConnection.notify_connect live c0 = ([CompleteAccept cb cid], true)).
  { unfold TcpConnection.notify_connect. simpl. by rewrite Hlive. }
  unfold TcpConnection.handle_packet, TcpConnection.handle_connect in E2. rewrite Hact, Hn in E2.
  cbn [negb mbind option_bind] in E2.
  eexists s1, _, reply, _. split; [exact E1|]. split; [exact Er|]. split; [exact E2|].
  split; [apply lookup_insert_eq|]. by split_and!.
Qed.

(** Reading a packet without data back from the wire. *)
Lemma receive_control live (c : TcpConnection.t) src dst sp dp seq ack flags packet :
  TcpHeader.create_packet src sp dst dp seq ack flags [] = Some packet ->
  Ipv4Address.wf src -> Ipv4Address.wf dst -> is_u16 sp -> is_u16 dp ->
  is_u32 seq -> is_u32 ack -> is_u8 flags ->
  exists h, TcpHeader.flags h = flags /\ u16_swap (TcpHeader.source_port h) = sp /\
    u32_swap (TcpHeader.sequence_number h) = seq /\ u32_swap (TcpHeader.ack_number h) = ack /\
    receive live c packet = TcpConnection.handle_packet live c dst src h [].
Proof.
  intros E Hs Hd Hsp Hdp Hseq Hack Hfl.
  destruct (decode_create _ _ _ _ _ _ _ _ _ E Hs Hd Hsp Hdp Hseq Hack Hfl)
    as (ip & h & Ed & Es & Ed' & _ & H1 & _ & H2 & H3 & H4); [constructor|unfold TcpConnection.MSS; simpl; lia|].
  exists h. unfold receive. rewrite Ed. cbn [mbind option_bind]. by rewrite Es, Ed'.
Qed.

(** C40: Two IDOS machines cannot connect to each other.  An outbound
    connection starts with sequence number 0, which the listener takes for an
    outbound connection of its own: it answers with SYN alone and waits in
    [SynSent].  The client refuses that answer with RST and stays in [SynSent]
    too. *)
Theorem idos_peers_never_connect live (s : Net) port lid l cb rest (caddr saddr : Ipv4Address.t)
    (cport cid : Z) (on_connect : option (AsyncCallback * bool)) (h : TcpHeader.t) (syn : list Z)
    (ip : Ipv4Header.t)
    (Hca : Ipv4Address.wf caddr) (Hsa : Ipv4Address.wf saddr) (Hcp : is_u16 cport) (Hsp : is_u16 port)
    (Hsyn : open_tcp_packet caddr cport saddr port = Some syn)
    (Hdec : decode_tcp syn = Some (ip, h, []))
    (Hlis : listening s port lid l cb rest caddr cport) :
  let client := TcpConnection.new cid cport saddr port true on_connect in
  exists s1 reply c rst client',
    handle_tcp_packet live s saddr port caddr h [] = Some (s1, [NetRespond caddr reply]) /\
    socket_map s1 !! next_socket_id s = Some (ConnectionSocket c) /\
    TcpConnection.state c = SynSent /\
    receive live client reply = Some (client', [NetRespond saddr rst]) /\
    TcpConnection.state client' = SynSent /\
    TcpHeader.create_packet caddr cport saddr port 0 1
      (TcpHeader.FLAG_RST .| TcpHeader.FLAG_ACK) [] = Some rst.
Proof.
  intros client. unfold open_tcp_packet in Hsyn.
  assert (H0 : is_u32 0) by (split; done). assert (H1 : is_u32 1) by (split; done).
  assert (Hf : is_u8 TcpHeader.FLAG_SYN) by (split; done).
  destruct (decode_create _ _ _ _ _ _ _ _ _ Hsyn Hca Hsa Hcp Hsp H0 H0 Hf)
    as (ip' & h' & Ed & _ & _ & _ & E1 & _ & E2 & _ & E3); [constructor|unfold TcpConnection.MSS; simpl; lia|].
  rewrite Hdec in Ed. injection Ed as <- <-.
  assert (Hs1 : TcpHeader.is_syn h = true) by (unfold TcpHeader.is_syn; by rewrite E3).
  rewrite <- E1 in Hlis.
  destruct (handle_syn live s port lid l cb rest saddr caddr h [] Hlis Hs1) as (reply & Er & Eh).
  rewrite E2 in Er, Eh. rewrite E1 in Er, Eh. cbn [Z.eqb negb] in Er, Eh.
  destruct (receive_control live client _ _ _ _ _ _ _ _ Er Hsa Hca Hsp Hcp H0 H1 Hf)
    as (hr & F1 & _ & F3 & _ & F5).
  unfold TcpConnection.handle_packet, TcpConnection.action_for_tcp_packet in F5.
  assert (Hr1 : TcpHeader.is_rst hr = false) by (unfold TcpHeader.is_rst; by rewrite F1).
  assert (Hr2 : TcpHeader.is_ack hr = false) by (unfold TcpHeader.is_ack; by rewrite F1).
  rewrite Hr1, Hr2, orb_true_r, F3 in F5. cbn [TcpConnection.state client TcpConnection.new] in F5.
  unfold TcpConnection.respond in F5.
  destruct (create_packet_total caddr saddr cport port 0 1 (TcpHeader.FLAG_RST .| TcpHeader.FLAG_ACK) [])
    as [rst Erst].
  change (u32 (0 + 1)) with 1 in F5. cbn [TcpConnection.local_port TcpConnection.remote_port
    TcpConnection.last_sequence_sent client TcpConnection.new] in F5.
  rewrite Erst in F5. cbn [mbind option_bind] in F5.
  eexists _, reply, _, rst, client. split; [exact Eh|]. split; [apply lookup_insert_eq|].
  split; [done|]. split; [exact F5|]. by split.
Qed.

(** ** Examples *)

Definition example_listener : TcpListener.t :=
  {| TcpListener.local_port := 80; TcpListener.connections := ∅; TcpListener.pending_syn := [];
     TcpListener.pending_accept := [(1, 2, 3)] |}.

Definition example_listening : Net :=
  {| next_socket_id := 3; active_connections := {[80 := 2]};
     socket_map := {[2 := ListenerSocket example_listener]};
     pending_udp_writes := []; resolved_local_ip := None |}.

Lemma example_listening_ok (remote : Ipv4Address.t) (rport : Z) :
  listening example_listening 80 2 example_listener (1, 2, 3) [] remote rport.
Proof. by split. Qed.

Definition example_ack : TcpHeader.t :=
  {| TcpHeader.source_port := u16_swap 5000; TcpHeader.dest_port := u16_swap 80;
     TcpHeader.sequence_number := u32_swap 1001; TcpHeader.ack_number := u32_swap 1;
     TcpHeader.data_offset := 0x50; TcpHeader.flags := TcpHeader.FLAG_ACK;
     TcpHeader.window_size := 0xffff; TcpHeader.checksum := 0; TcpHeader.urgent_pointer := 0 |}.

Lemma inbound_handshake_witness :
  exists s1 s2 reply c,
    handle_tcp_packet (fun _ => true) example_listening example_local 80 example_remote example_syn []
      = Some (s1, [NetRespond example_remote reply]) /\
    TcpHeader.create_packet example_local 80 example_remote 5000 0 1001
      (TcpHeader.FLAG_SYN .| TcpHeader.FLAG_ACK) [] = Some reply /\
    handle_tcp_packet (fun _ => true) s1 example_local 80 example_remote example_ack []
      = Some (s2, [CompleteAccept (1, 2, 3) 3]) /\
    socket_map s2 !! 3 = Some (ConnectionSocket c) /\
    TcpConnection.state c = Established /\ TcpConnection.last_sequence_sent c = 1 /\
    TcpConnection.last_sequence_received c = 1001 /\
    endpoint_of c = (example_remote, 5000) /\ TcpConnection.local_port c = 80.
Proof.
  apply (inbound_handshake (fun _ => true) example_listening 80 2 example_listener (1, 2, 3) []
    example_local example_remote example_syn example_ack [] []);
    [reflexivity|apply example_listening_ok|reflexivity|reflexivity|vm_compute; congruence|reflexivity..].
Defined.

Lemma idos_peers_never_connect_witness :
  exists s1 reply c rst client' h,
    handle_tcp_packet (fun _ => true) example_listening example_local 80 example_remote h []
      = Some (s1, [NetRespond example_remote reply]) /\
    socket_map s1 !! 3 = Some (ConnectionSocket c) /\ TcpConnection.state c = SynSent /\
    receive (fun _ => true) (TcpConnection.new 9 5000 example_local 80 true None) reply
      = Some (client', [NetRespond example_local rst]) /\
    TcpConnection.state client' = SynSent /\
    TcpHeader.create_packet example_remote 5000 example_local 80 0 1
      (TcpHeader.FLAG_RST .| TcpHeader.FLAG_ACK) [] = Some rst.
Proof.
  destruct (open_tcp_packet example_remote 5000 example_local 80) as [syn|] eqn:Es;
    [|exfalso; vm_compute in Es; discriminate].
  destruct (decode_tcp syn) as [[[ip h] d]|] eqn:Ed.
  2:{ exfalso. vm_compute in Es. injection Es as <-. vm_compute in Ed. discriminate. }
  assert (d = []) as ->.
  { pose proof Es as Es'. vm_compute in Es'. injection Es' as <-. vm_compute in Ed. by injection Ed. }
  destruct (idos_peers_never_connect (fun _ => true) example_listening 80 2 example_listener (1, 2, 3) []
    example_remote example_local 5000 9 None h syn ip) as (s1 & reply & c & rst & client' & H);
    [repeat constructor; vm_compute; congruence..|split; done|split; done|exact Es|exact Ed|
     apply example_listening_ok|].
  exists s1, reply, c, rst, client', h. exact H.
Defined.
