(* ===== verification/Outcome.v ===== *)
(** * Runs of loops that may panic or not end

    Loops over received data whose number of turns is not fixed by a list take
    fuel.  Their result tells a panic from running out of fuel, so that
    termination is a statement of its own. *)

From S2P Require Import Prelude.

Inductive outcome (A : Type) : Type :=
| Done (a : A)
| Panic
| OutOfFuel.
Arguments Done {A} _.
Arguments Panic {A}.
Arguments OutOfFuel {A}.

#[global] Instance outcome_ret : MRet outcome := fun _ a => Done a.
#[global] Instance outcome_bind : MBind outcome := fun _ _ f m =>
  match m with Done a => f a | Panic => Panic | OutOfFuel => OutOfFuel end.

(** [v[i]], a panic out of bounds. *)
Definition index {A} (l : list A) (i : nat) : outcome A :=
  match l !! i with Some x => Done x | None => Panic end.

(** An operation of the panic monad. *)
Definition of_option {A} (o : option A) : outcome A :=
  match o with Some x => Done x | None => Panic end.

Lemma index_app_r {A} (pre : list A) (x : A) (rest : list A) (i : nat) :
  i = length pre -> index (pre ++ x :: rest) i = Done x.
Proof.
  intros ->. unfold index. rewrite lookup_app_r, Nat.sub_diag by lia. done.
Qed.

(** [ends m P]: the run stops, with a panic or with a value that has [P]. *)
Definition ends {A} (m : outcome A) (P : A -> Prop) : Prop :=
  match m with Done a => P a | Panic => True | OutOfFuel => False end.

Lemma ends_bind {A B} (m : outcome A) (f : A -> outcome B) (P : A -> Prop) (Q : B -> Prop) :
  ends m P -> (forall a, P a -> ends (f a) Q) -> ends (m ≫= f) Q.
Proof. destruct m; [|done..]. intros H Hf. by apply Hf. Qed.

Lemma ends_index {A} (l : list A) (i : nat) : ends (index l i) (fun _ => True).
Proof. unfold index. by destruct (l !! i). Qed.

Lemma ends_mono {A} (m : outcome A) (P Q : A -> Prop) :
  ends m P -> (forall a, P a -> Q a) -> ends m Q.
Proof. destruct m; [|done..]. intros H HPQ. by apply HPQ. Qed.

Create HintDb ends.
#[export] Hint Resolve ends_index : ends.
#[global] Hint Opaque ends : ends.

(** [ends_step] opens a run up to its next test, leaving the values. *)
Ltac ends_step :=
  repeat match goal with
  | |- ends (_ ≫= _) _ => eapply ends_bind; [by eauto with ends | intros ? ?]
  | |- ends (if ?b then _ else _) _ => destruct b eqn:?
  | |- ends (Done _) _ => cbn [ends]
  end.

(** ** Loops over a bounded position

    A loop whose next position is a partial function of the position alone,
    defined only below [n], stops within [n] steps or never. *)

Section Walk.
Context (f : nat -> option nat) (n : nat).
Hypothesis f_below : forall x y, f x = Some y -> (x < n)%nat.

(** The positions the loop leaves, in order, until it stops. *)
Inductive path : nat -> list nat -> Prop :=
| path_stop x : f x = None -> path x []
| path_step x y l : f x = Some y -> path y l -> path x (x :: l).

Fixpoint walk (k x : nat) : option nat :=
  match k with O => Some x | S k => f x ≫= walk k end.

Lemma path_det (x : nat) (l1 l2 : list nat) : path x l1 -> path x l2 -> l1 = l2.
Proof.
  intros H. revert l2. induction H as [x Hx|x y l Hx _ IH]; inversion 1; simplify_eq; [done|].
  f_equal. by apply IH.
Qed.

Lemma path_elem (x y : nat) (l : list nat) :
  path x l -> y ∈ l -> (y < n)%nat /\ exists l', path y l' /\ (length l' <= length l)%nat.
Proof.
  induction 1 as [x Hx|x z l Hx Hp IH]; intros Hy; [by apply elem_of_nil in Hy|].
  apply elem_of_cons in Hy as [->|Hy].
  - split; [by eapply f_below|]. exists (x :: l). split; [by econstructor | done].
  - destruct (IH Hy) as (? & l' & ? & ?). split; [done|]. exists l'. simpl. split; [done | lia].
Qed.

Lemma path_NoDup (x : nat) (l : list nat) : path x l -> NoDup l.
Proof.
  induction 1 as [x Hx|x y l Hx Hp IH]; constructor; [|done].
  intros (_ & l' & Hl' & Hlen)%(path_elem y _ l Hp).
  assert (x :: l = l') as <- by (eapply path_det; [by econstructor | done]). simpl in Hlen. lia.
Qed.

Lemma path_length (x : nat) (l : list nat) : path x l -> (length l <= n)%nat.
Proof.
  intros Hp. rewrite <- (length_seq n 0). apply submseteq_length, NoDup_submseteq; [by eapply path_NoDup|].
  intros y [Hy _]%(path_elem x y l Hp). apply elem_of_seq. lia.
Qed.

Lemma walk_path (k x : nat) : walk k x = None -> exists l, path x l /\ (length l < k)%nat.
Proof.
  revert x. induction k as [|k IH]; intros x H; [done|]. cbn [walk] in H.
  destruct (f x) as [y|] eqn:E; [|exists []; split; [by constructor | simpl; lia]].
  destruct (IH y H) as (l & Hl & Hk). exists (x :: l). split; [by econstructor | simpl; lia].
Qed.

Lemma path_walk (x : nat) (l : list nat) (k : nat) : path x l -> (length l < k)%nat -> walk k x = None.
Proof.
  intros H. revert k. induction H as [x Hx|x y l Hx _ IH]; intros [|k] Hk; simpl in *; try lia.
  - by rewrite Hx.
  - rewrite Hx. apply IH. lia.
Qed.

(** If the loop stops at all, [S n] turns are enough. *)
Lemma walk_bound (k x : nat) : walk k x = None -> walk (S n) x = None.
Proof.
  intros (l & Hl & _)%walk_path. apply (path_walk x l); [done|].
  pose proof (path_length x l Hl). lia.
Qed.
End Walk.
