(* ===== verification/Dhcp.v ===== *)
(** * DHCP

    [kernel/src/net/protocol/dhcp.rs]: the packets a device sends to obtain an
    address, the parser of the options of a reply, and the state of the
    resolution.  [now] is [Timestamp::now()], in seconds. *)

From S2P Require Import Prelude NetPacket Ipv4 Outcome.

(** [NetEvent] of [kernel/src/net/netdevice.rs]. *)
Inductive NetEvent :=
| LinkEstablished
| ArpResponse (ip : Ipv4Address.t)
| DhcpOffer (xid : Z)
| DhcpAck (xid : Z)
| DnsResponse.

#[global] Instance NetEvent_eq_dec : EqDecision NetEvent.
Proof. solve_decision. Defined.

Module DhcpPacket.
(** [chaddr], [sname] and [file] are arrays of 16, 64 and 128 bytes. *)
Record t := {
  op : Z;
  htype : Z;
  hlen : Z;
  hops : Z;
  xid : Z;
  secs : Z;
  flags : Z;
  ciaddr : Ipv4Address.t;
  yiaddr : Ipv4Address.t;
  siaddr : Ipv4Address.t;
  giaddr : Ipv4Address.t;
  chaddr : list Z;
  sname : list Z;
  file : list Z
}.

Definition REQUEST_OP : Z := 1.
Definition REPLY_OP : Z := 2.

#[global] Instance header : PacketHeader t := {|
  get_size := 236;
  as_u8_buffer h :=
    [op h; htype h; hlen h; hops h] ++ le32 (xid h) ++ le16 (secs h) ++ le16 (flags h) ++
    Ipv4Address.octets (ciaddr h) ++ Ipv4Address.octets (yiaddr h) ++
    Ipv4Address.octets (siaddr h) ++ Ipv4Address.octets (giaddr h) ++
    chaddr h ++ sname h ++ file h;
  of_u8_buffer b :=
    {| op := byte_at b 0; htype := byte_at b 1; hlen := byte_at b 2; hops := byte_at b 3;
       xid := load32 b 4; secs := load16 b 8; flags := load16 b 10;
       ciaddr := Ipv4Address.load b 12; yiaddr := Ipv4Address.load b 16;
       siaddr := Ipv4Address.load b 20; giaddr := Ipv4Address.load b 24;
       chaddr := take 16 (drop 28 b); sname := take 64 (drop 44 b); file := take 128 (drop 108 b) |}
|}.

(** The hardware address in a zeroed field of 16 bytes. *)
Definition chaddr_of (mac : HardwareAddress.t) : list Z := HardwareAddress.octets mac ++ replicate 10 0.

(** A zeroed buffer, with the header and then the options copied in. *)
Definition with_options (packet : t) (options : list Z) : option (list Z) :=
  let header_size := get_size t in
  let total_len := (header_size + length options)%nat in
  let packet_data := replicate total_len 0 in
  packet_data ← copy_from_slice packet_data 0 (as_u8_buffer packet);
  copy_from_slice packet_data header_size options.

Definition discover (mac : HardwareAddress.t) (xid : Z) : option (list Z) :=
  let packet :=
    {| op := REQUEST_OP; htype := 1; hlen := 6; hops := 0; xid := u32_swap xid; secs := 0; flags := 0;
       ciaddr := Ipv4Address.default; yiaddr := Ipv4Address.default;
       siaddr := Ipv4Address.default; giaddr := Ipv4Address.default;
       chaddr := chaddr_of mac; sname := replicate 64 0; file := replicate 128 0 |} in
  let options := [0x63; 0x82; 0x53; 0x63; 0x35; 0x01; 0x01; 0xff] in
  with_options packet options.

Definition request (mac : HardwareAddress.t) (server_ip requested_ip : Ipv4Address.t) (xid : Z)
    : option (list Z) :=
  let packet :=
    {| op := 1; htype := 1; hlen := 6; hops := 0; xid := u32_swap xid; secs := 0; flags := 0;
       ciaddr := Ipv4Address 0 0 0 0; yiaddr := Ipv4Address 0 0 0 0;
       siaddr := server_ip; giaddr := Ipv4Address 0 0 0 0;
       chaddr := chaddr_of mac; sname := replicate 64 0; file := replicate 128 0 |} in
  let options :=
    [0x63; 0x82; 0x53; 0x63; 0x35; 0x01; 0x03] ++
    [0x32; 0x04] ++ Ipv4Address.octets requested_ip ++
    [0x36; 0x04] ++ Ipv4Address.octets server_ip ++ [0xff] in
  with_options packet options.
End DhcpPacket.

(** ** State *)

Inductive IpResolution :=
| Unbound
| Progress (xid : Z)
| Bound (ip : Ipv4Address.t) (expiration : Z)
| Renewing (ip : Ipv4Address.t) (xid : Z).

Record DhcpState := {
  local_ip : IpResolution;
  server_ip : Ipv4Address.t;
  gateway_ip : Ipv4Address.t;
  subnet_mask : Ipv4Address.t;
  dns_servers : list Ipv4Address.t
}.

Definition dhcp_new : DhcpState :=
  {| local_ip := Unbound; server_ip := Ipv4Address.default; gateway_ip := Ipv4Address.default;
     subnet_mask := Ipv4Address.default; dns_servers := [] |}.

Definition get_local_ip (self : DhcpState) : option Ipv4Address.t :=
  match local_ip self with Bound ip _ => Some ip | _ => None end.

(** ** Options *)

(** The values collected by the loop, and its cursor. *)
Record Options := {
  cursor : nat;
  o_subnet_mask : Ipv4Address.t;
  o_router : Ipv4Address.t;
  o_dhcp_server : Ipv4Address.t;
  o_lease_time : Z;
  o_dns_servers : list Ipv4Address.t;
  o_packet_type : Z
}.

Definition options_init : Options :=
  {| cursor := 4; o_subnet_mask := Ipv4Address 0 0 0 0; o_router := Ipv4Address 0 0 0 0;
     o_dhcp_server := Ipv4Address 0 0 0 0; o_lease_time := 0; o_dns_servers := []; o_packet_type := 0 |}.

Definition at_cursor (o : Options) (c : nat) : Options :=
  {| cursor := c; o_subnet_mask := o_subnet_mask o; o_router := o_router o;
     o_dhcp_server := o_dhcp_server o; o_lease_time := o_lease_time o;
     o_dns_servers := o_dns_servers o; o_packet_type := o_packet_type o |}.
Definition set_subnet_mask (o : Options) (ip : Ipv4Address.t) : Options :=
  {| cursor := cursor o; o_subnet_mask := ip; o_router := o_router o;
     o_dhcp_server := o_dhcp_server o; o_lease_time := o_lease_time o;
     o_dns_servers := o_dns_servers o; o_packet_type := o_packet_type o |}.
Definition set_router (o : Options) (ip : Ipv4Address.t) : Options :=
  {| cursor := cursor o; o_subnet_mask := o_subnet_mask o; o_router := ip;
     o_dhcp_server := o_dhcp_server o; o_lease_time := o_lease_time o;
     o_dns_servers := o_dns_servers o; o_packet_type := o_packet_type o |}.
Definition set_dhcp_server (o : Options) (ip : Ipv4Address.t) : Options :=
  {| cursor := cursor o; o_subnet_mask := o_subnet_mask o; o_router := o_router o;
     o_dhcp_server := ip; o_lease_time := o_lease_time o;
     o_dns_servers := o_dns_servers o; o_packet_type := o_packet_type o |}.
Definition set_lease_time (o : Options) (v : Z) : Options :=
  {| cursor := cursor o; o_subnet_mask := o_subnet_mask o; o_router := o_router o;
     o_dhcp_server := o_dhcp_server o; o_lease_time := v;
     o_dns_servers := o_dns_servers o; o_packet_type := o_packet_type o |}.
Definition push_dns_servers (o : Options) (l : list Ipv4Address.t) : Options :=
  {| cursor := cursor o; o_subnet_mask := o_subnet_mask o; o_router := o_router o;
     o_dhcp_server := o_dhcp_server o; o_lease_time := o_lease_time o;
     o_dns_servers := o_dns_servers o ++ l; o_packet_type := o_packet_type o |}.
Definition set_packet_type (o : Options) (v : Z) : Options :=
  {| cursor := cursor o; o_subnet_mask := o_subnet_mask o; o_router := o_router o;
     o_dhcp_server := o_dhcp_server o; o_lease_time := o_lease_time o;
     o_dns_servers := o_dns_servers o; o_packet_type := v |}.

(** Four bytes of the options. *)
Definition read_ip (options : list Z) (c : nat) : outcome Ipv4Address.t :=
  b0 ← index options c;
  b1 ← index options (c + 1);
  b2 ← index options (c + 2);
  b3 ← index options (c + 3);
  Done (Ipv4Address b0 b1 b2 b3).

(** The inner [while] loop of the DNS server option. *)
Fixpoint dns_loop (fuel : nat) (options : list Z) (c stop : nat) : outcome (nat * list Ipv4Address.t) :=
  if (stop <=? c)%nat then Done (c, [])
  else
    match fuel with
    | O => OutOfFuel
    | S fuel =>
        ip ← read_ip options c;
        '(c, ips) ← dns_loop fuel options (c + 4) stop;
        Done (c, ip :: ips)
    end.

(** One turn of the [while] loop, at a cursor inside the options. *)
Definition option_step (options : list Z) (o : Options) : outcome Options :=
  tag ← index options (cursor o);
  let c := (cursor o + 1)%nat in
  if tag =? 0x00 then Done (at_cursor o c)
  else if tag =? 0xff then Done (at_cursor o (length options))
  else
    len ← index options c;
    let len := Z.to_nat len in
    let c := (c + 1)%nat in
    if tag =? 0x01 then
      ip ← read_ip options c;
      Done (at_cursor (set_subnet_mask o ip) (c + len))
    else if tag =? 0x03 then
      ip ← read_ip options c;
      Done (at_cursor (set_router o ip) (c + len))
    else if tag =? 0x06 then
      '(c, ips) ← dns_loop len options c (c + len);
      Done (at_cursor (push_dns_servers o ips) c)
    else if tag =? 0x33 then
      b0 ← index options c;
      b1 ← index options (c + 1);
      b2 ← index options (c + 2);
      b3 ← index options (c + 3);
      let v := (b0 ≪ 24) .| (b1 ≪ 16) .| (b2 ≪ 8) .| b3 in
      Done (at_cursor (set_lease_time o v) (c + len))
    else if tag =? 0x35 then
      v ← index options c;
      Done (at_cursor (set_packet_type o v) (c + len))
    else if tag =? 0x36 then
      ip ← read_ip options c;
      Done (at_cursor (set_dhcp_server o ip) (c + len))
    else Done (at_cursor o (c + len)).

Fixpoint options_loop (fuel : nat) (options : list Z) (o : Options) : outcome Options :=
  if (length options <=? cursor o)%nat then Done o
  else
    match fuel with
    | O => OutOfFuel
    | S fuel =>
        o ← option_step options o;
        options_loop fuel options o
    end.

Definition MAGIC : list Z := [0x63; 0x82; 0x53; 0x63].

Definition process_packet (now : Z) (self : DhcpState) (mac : HardwareAddress.t) (raw : list Z)
    : outcome (result (option (list Z) * NetEvent) unit * DhcpState) :=
  match try_from_u8_buffer (H := DhcpPacket.t) raw with
  | None => Done (Err tt, self)
  | Some packet =>
      let options := drop (get_size DhcpPacket.t) raw in
      let xid := u32_swap (DhcpPacket.xid packet) in
      if negb (match local_ip self with Progress current_xid => xid =? current_xid | _ => false end)
      then Done (Err tt, self)
      else if (length options <? 4)%nat || negb (bool_decide (take 4 options = MAGIC))
      then Done (Err tt, self)
      else
        o ← options_loop (length options) options options_init;
        if o_packet_type o =? 2 then
          response ← of_option (DhcpPacket.request mac (o_dhcp_server o) (DhcpPacket.yiaddr packet) xid);
          Done (Ok (Some response, DhcpOffer xid), self)
        else if o_packet_type o =? 5 then
          Done (Ok (None, DhcpAck xid),
                {| local_ip := Bound (DhcpPacket.yiaddr packet) (u32 (now + o_lease_time o));
                   server_ip := o_dhcp_server o; gateway_ip := o_router o;
                   subnet_mask := o_subnet_mask o; dns_servers := o_dns_servers o |})
        else Done (Err tt, self)
  end.

(** ** The options of a reply, as data *)

Inductive dhcp_opt :=
| PadOpt
| SubnetOpt (ip : Ipv4Address.t) (extra : list Z)
| RouterOpt (ip : Ipv4Address.t) (extra : list Z)
| DnsOpt (ips : list Ipv4Address.t)
| LeaseOpt (v : Z) (extra : list Z)
| TypeOpt (v : Z) (extra : list Z)
| ServerOpt (ip : Ipv4Address.t) (extra : list Z)
| OtherOpt (tag : Z) (data : list Z).

(** Tag, length, value. *)
Definition tlv (tag : Z) (value : list Z) : list Z := tag :: Z.of_nat (length value) :: value.
Definition encode_opt (o : dhcp_opt) : list Z :=
  match o with
  | PadOpt => [0]
  | SubnetOpt ip extra => tlv 0x01 (Ipv4Address.octets ip ++ extra)
  | RouterOpt ip extra => tlv 0x03 (Ipv4Address.octets ip ++ extra)
  | DnsOpt ips => tlv 0x06 (concat (Ipv4Address.octets <$> ips))
  | LeaseOpt v extra => tlv 0x33 (be32 v ++ extra)
  | TypeOpt v extra => tlv 0x35 (v :: extra)
  | ServerOpt ip extra => tlv 0x36 (Ipv4Address.octets ip ++ extra)
  | OtherOpt tag data => tlv tag data
  end.
Definition opt_wf (o : dhcp_opt) : Prop :=
  match o with
  | LeaseOpt v _ => is_u32 v
  | OtherOpt tag _ => tag ∉ [0x00; 0x01; 0x03; 0x06; 0x33; 0x35; 0x36; 0xff]
  | _ => True
  end.

(** The meaning of an option; a later one replaces an earlier one, DNS
    servers accumulate. *)
Definition apply_opt (o : Options) (opt : dhcp_opt) : Options :=
  match opt with
  | PadOpt => o
  | SubnetOpt ip _ => set_subnet_mask o ip
  | RouterOpt ip _ => set_router o ip
  | DnsOpt ips => push_dns_servers o ips
  | LeaseOpt v _ => set_lease_time o v
  | TypeOpt v _ => set_packet_type o v
  | ServerOpt ip _ => set_dhcp_server o ip
  | OtherOpt _ _ => o
  end.
Definition options_of (opts : list dhcp_opt) : Options := foldl apply_opt options_init opts.

Definition encode_opts (opts : list dhcp_opt) : list Z := concat (encode_opt <$> opts).

(** A reply: the header, the magic cookie, the options, the end marker and
    whatever follows it. *)
Definition reply (packet : DhcpPacket.t) (opts : list dhcp_opt) (rest : list Z) : list Z :=
  as_u8_buffer packet ++ MAGIC ++ encode_opts opts ++ 0xff :: rest.

Definition array_sizes (packet : DhcpPacket.t) : Prop :=
  length (DhcpPacket.chaddr packet) = 16%nat /\ length (DhcpPacket.sname packet) = 64%nat /\
  length (DhcpPacket.file packet) = 128%nat.

(** ** Reading at a cursor *)

Lemma index_at {A} (l pre : list A) (x : A) (rest : list A) (i : nat) :
  l = pre ++ x :: rest -> i = length pre -> index l i = Done x.
Proof. intros -> ->. by apply index_app_r. Qed.

Lemma index_at_add {A} (l pre v rest : list A) (x : A) (i k : nat) :
  l = pre ++ v ++ rest -> i = length pre -> v !! k = Some x -> index l (i + k) = Done x.
Proof.
  intros -> -> Hk. unfold index. rewrite lookup_app_r by lia.
  replace (length pre + k - length pre)%nat with k by lia. by rewrite (lookup_app_l_Some _ _ _ _ Hk).
Qed.

Lemma read_ip_at (l pre rest : list Z) (ip : Ipv4Address.t) (i : nat) :
  l = pre ++ Ipv4Address.octets ip ++ rest -> i = length pre -> read_ip l i = Done ip.
Proof.
  intros Hl Hi. unfold read_ip.
  pose proof (fun x k => index_at_add l pre _ rest x i k Hl Hi) as H.
  rewrite <- (Nat.add_0_r i) at 1. destruct ip as [x0 x1 x2 x3].
  by rewrite (H x0 0%nat), (H x1 1%nat), (H x2 2%nat), (H x3 3%nat) by done.
Qed.

Lemma dns_loop_at (ips : list Ipv4Address.t) : forall (l pre rest : list Z) (i fuel : nat),
  l = pre ++ concat (Ipv4Address.octets <$> ips) ++ rest -> i = length pre ->
  (length ips <= fuel)%nat ->
  dns_loop fuel l i (i + 4 * length ips) = Done ((i + 4 * length ips)%nat, ips).
Proof.
  induction ips as [|ip ips IH]; intros l pre rest i fuel Hl Hi Hf; cbn [length] in *.
  - rewrite Nat.mul_0_r, Nat.add_0_r. destruct fuel; cbn [dns_loop]; by rewrite Nat.leb_refl.
  - destruct fuel as [|fuel]; [lia|]. cbn [dns_loop].
    rewrite (proj2 (Nat.leb_gt _ _)) by lia.
    rewrite (read_ip_at l pre (concat (Ipv4Address.octets <$> ips) ++ rest) ip) by
      (rewrite ?Hl; cbn [fmap list_fmap concat]; by rewrite <- ?app_assoc).
    cbn [mbind outcome_bind].
    replace (i + 4 * S (length ips))%nat with ((i + 4) + 4 * length ips)%nat by lia.
    rewrite (IH l (pre ++ Ipv4Address.octets ip) rest) by
      (rewrite ?Hl; cbn [fmap list_fmap concat]; rewrite ?length_app; cbn [length Ipv4Address.octets];
       rewrite <- ?app_assoc; first [done | lia]).
    done.
Qed.

Lemma be32_lease (v : Z) :
  is_u32 v ->
  ((v / 2 ^ 24) ≪ 24) .| ((v / 2 ^ 16 mod 256) ≪ 16) .| ((v / 256 mod 256) ≪ 8) .| v mod 256 = v.
Proof.
  intros (b0 & b1 & b2 & b3 & Hb & ->)%u32_bytes.
  destruct (u32_bytes_div b0 b1 b2 b3 Hb) as (-> & -> & -> & ->).
  repeat (apply Forall_cons in Hb as [? Hb]). unfold_words.
  rewrite <- (Z.lor_assoc _ _ b0), (lor_add b0) by lia.
  rewrite <- Z.lor_assoc, (lor_add (b1 * 2 ^ 8 + b0)) by lia.
  rewrite lor_add by lia. lia.
Qed.

(** ** The parser reads the encoding *)

Lemma octets_length (ips : list Ipv4Address.t) :
  length (concat (Ipv4Address.octets <$> ips)) = (4 * length ips)%nat.
Proof.
  induction ips as [|ip ips IH]; [done|]. cbn [fmap list_fmap concat length].
  rewrite length_app, IH. simpl. lia.
Qed.

(** A tag, its length, and where the value starts. *)
Lemma tlv_at (tag : Z) (value l pre rest : list Z) (c : nat) :
  l = pre ++ tlv tag value ++ rest -> c = length pre ->
  index l c = Done tag /\ index l (c + 1) = Done (Z.of_nat (length value)) /\
  exists pre', l = pre' ++ value ++ rest /\ (c + 1 + 1)%nat = length pre'.
Proof.
  intros Hl Hc. split; [|split].
  - rewrite <- (Nat.add_0_r c). by apply (index_at_add l pre _ rest _ _ 0 Hl Hc).
  - by apply (index_at_add l pre _ rest _ _ 1 Hl Hc).
  - exists (pre ++ [tag; Z.of_nat (length value)]). rewrite Hl, <- app_assoc, length_app. simpl.
    split; [done | lia].
Qed.

Ltac at_value :=
  match goal with H : _ = _ ++ (_ ++ _) ++ _ |- _ => rewrite <- app_assoc in H end.

(** One turn of the loop, at an encoded option. *)
Lemma option_step_at (opt : dhcp_opt) (l pre rest : list Z) (o : Options) :
  opt_wf opt -> l = pre ++ encode_opt opt ++ rest -> cursor o = length pre ->
  option_step l o = Done (at_cursor (apply_opt o opt) (length pre + length (encode_opt opt))).
Proof.
  intros Hwf Hl Hc. unfold option_step.
  destruct opt as [|ip extra|ip extra|ips|v extra|v extra|ip extra|tag data];
    [rewrite (index_at l pre 0 rest _ Hl Hc); cbn; by rewrite Hc|..];
    destruct (tlv_at _ _ l pre rest _ Hl Hc) as (E1 & E2 & pre' & E3 & E4); rewrite E1;
    cbn [mbind outcome_bind]; cbn [Z.eqb Pos.eqb];
    rewrite E2; cbn [mbind outcome_bind]; rewrite Nat2Z.id.
  - at_value. rewrite (read_ip_at l pre' (extra ++ rest) ip) by assumption. cbn. do 2 f_equal. lia.
  - at_value. rewrite (read_ip_at l pre' (extra ++ rest) ip) by assumption. cbn. do 2 f_equal. lia.
  - rewrite octets_length, (dns_loop_at ips l pre' rest) by (assumption || lia).
    cbn. rewrite octets_length. do 2 f_equal. lia.
  - pose proof (fun x k => index_at_add l pre' _ rest x _ k E3 E4) as H.
    rewrite <- (Nat.add_0_r (cursor o + 1 + 1)) at 1.
    rewrite (H _ 0%nat eq_refl), (H _ 1%nat eq_refl), (H _ 2%nat eq_refl), (H _ 3%nat eq_refl).
    cbn [mbind outcome_bind]. rewrite be32_lease by exact Hwf. cbn. do 2 f_equal. lia.
  - rewrite (index_at l pre' v (extra ++ rest)) by assumption. cbn. do 2 f_equal. lia.
  - at_value. rewrite (read_ip_at l pre' (extra ++ rest) ip) by assumption. cbn. do 2 f_equal. lia.
  - cbn [opt_wf] in Hwf. repeat (apply not_elem_of_cons in Hwf as [? Hwf]).
    repeat (rewrite (proj2 (Z.eqb_neq tag _)) by assumption).
    cbn. do 2 f_equal. lia.
Qed.

Lemma encode_opt_nonempty (opt : dhcp_opt) : (1 <= length (encode_opt opt))%nat.
Proof. destruct opt; simpl; lia. Qed.

Lemma foldl_at_cursor (opts : list dhcp_opt) (o : Options) (c n : nat) :
  at_cursor (foldl apply_opt (at_cursor o c) opts) n = at_cursor (foldl apply_opt o opts) n.
Proof.
  revert o. induction opts as [|opt opts IH]; intros o; [done|].
  cbn [foldl]. rewrite <- (IH (apply_opt o opt)). by destruct opt.
Qed.

(** The whole loop, with the end marker. *)
Lemma options_loop_at (opts : list dhcp_opt) : forall (l pre rest : list Z) (o : Options) (fuel : nat),
  Forall opt_wf opts -> l = pre ++ encode_opts opts ++ 0xff :: rest -> cursor o = length pre ->
  (length l - length pre <= fuel)%nat ->
  options_loop fuel l o = Done (at_cursor (foldl apply_opt o opts) (length l)).
Proof.
  induction opts as [|opt opts IH]; intros l pre rest o fuel Hwf Hl Hc Hf;
    assert (length pre < length l)%nat
      by (rewrite Hl, !length_app; cbn [length]; lia);
    (destruct fuel as [|fuel]; [lia|]); cbn [options_loop];
    rewrite (proj2 (Nat.leb_gt _ _)) by lia.
  - unfold option_step. rewrite (index_at l pre 0xff rest _ Hl Hc). cbn [mbind outcome_bind Z.eqb Pos.eqb].
    destruct fuel; cbn [options_loop]; by rewrite Nat.leb_refl.
  - apply Forall_cons in Hwf as [Hwf1 Hwf].
    assert (l = pre ++ encode_opt opt ++ encode_opts opts ++ 0xff :: rest) as Hl1.
    { rewrite Hl. unfold encode_opts. cbn [fmap list_fmap concat]. by rewrite <- app_assoc. }
    rewrite (option_step_at opt l pre _ o Hwf1 Hl1 Hc). cbn [mbind outcome_bind].
    pose proof (encode_opt_nonempty opt).
    rewrite (IH l (pre ++ encode_opt opt) rest _ fuel Hwf).
    + cbn [foldl]. by rewrite foldl_at_cursor.
    + rewrite <- app_assoc. exact Hl1.
    + rewrite length_app. done.
    + rewrite length_app. lia.
Qed.

(** ** Termination *)

Lemma read_ip_ends (l : list Z) (c : nat) : ends (read_ip l c) (fun _ => True).
Proof. unfold read_ip. by ends_step. Qed.
#[export] Hint Resolve read_ip_ends : ends.

Lemma dns_loop_ends (l : list Z) (fuel : nat) : forall c stop : nat,
  (stop - c <= fuel)%nat -> ends (dns_loop fuel l c stop) (fun r => (c <= r.1)%nat).
Proof.
  induction fuel as [|fuel IH]; intros c stop Hf; cbn [dns_loop];
    destruct (Nat.leb_spec stop c); cbn [ends fst]; try lia.
  eapply ends_bind; [by eauto with ends | intros ip _].
  eapply ends_bind; [apply IH; lia | intros [c' ips] Hc]. cbn [ends fst] in *. lia.
Qed.

Lemma option_step_ends (l : list Z) (o : Options) :
  (cursor o < length l)%nat -> ends (option_step l o) (fun o' => (cursor o < cursor o')%nat).
Proof.
  intros Hc. unfold option_step. ends_step; cbn [at_cursor cursor]; try lia.
  eapply ends_bind; [apply dns_loop_ends; lia | intros [c' ips] Hc'].
  cbn [ends fst at_cursor cursor] in *. lia.
Qed.

(** The loop stops with the fuel [process_packet] gives it. *)
Lemma options_loop_ends (l : list Z) (fuel : nat) : forall o : Options,
  (length l - cursor o <= fuel)%nat -> ends (options_loop fuel l o) (fun _ => True).
Proof.
  induction fuel as [|fuel IH]; intros o Hf; cbn [options_loop];
    destruct (Nat.leb_spec (length l) (cursor o)); cbn [ends]; try done; [lia|].
  eapply ends_bind; [by apply option_step_ends | intros o' Ho; cbn beta in Ho]. apply IH. lia.
Qed.

(** ** The exchange *)

Lemma dhcp_buffer_length (packet : DhcpPacket.t) :
  array_sizes packet -> length (as_u8_buffer packet) = get_size DhcpPacket.t.
Proof.
  intros (H1 & H2 & H3). cbn [as_u8_buffer DhcpPacket.header get_size].
  rewrite !length_app, H1, H2, H3. reflexivity.
Qed.

Lemma dhcp_of_as (packet : DhcpPacket.t) (rest : list Z) :
  array_sizes packet -> try_from_u8_buffer (as_u8_buffer packet ++ rest) = Some packet.
Proof.
  intros Hs. unfold try_from_u8_buffer. rewrite length_app, (dhcp_buffer_length _ Hs).
  rewrite (proj2 (Nat.ltb_ge _ _)) by lia. f_equal.
  destruct packet as [? ? ? ? ? ? ? [] [] [] [] chaddr sname file], Hs as (H1 & H2 & H3).
  cbn [DhcpPacket.chaddr DhcpPacket.sname DhcpPacket.file] in H1, H2, H3.
  cbn [of_u8_buffer as_u8_buffer DhcpPacket.header]. rewrite <- !app_assoc. decode_header.
  f_equal.
  - by apply take_app_length'.
  - rewrite drop_app_length' by done. by apply take_app_length'.
  - rewrite (app_assoc chaddr), drop_app_length' by (rewrite length_app; lia).
    by apply take_app_length'.
Qed.

Lemma with_options_ok (packet : DhcpPacket.t) (options : list Z) :
  array_sizes packet -> DhcpPacket.with_options packet options = Some (as_u8_buffer packet ++ options).
Proof.
  intros Hs. unfold DhcpPacket.with_options. pose proof (dhcp_buffer_length _ Hs) as Hl.
  set (b := as_u8_buffer packet) in *. set (n := get_size DhcpPacket.t) in *.
  rewrite copy_from_slice_ok by (rewrite length_replicate; lia). cbn [mbind option_bind].
  rewrite copy_from_slice_ok by (rewrite length_inserts, length_replicate; lia). f_equal.
  apply list_eq. intros i. rewrite lookup_inserts by (rewrite length_inserts, length_replicate; lia).
  rewrite lookup_inserts by (rewrite length_replicate; lia).
  repeat case_decide; try lia.
  - rewrite lookup_app_r by lia. by rewrite Hl.
  - rewrite lookup_app_l by lia. f_equal. lia.
  - rewrite !lookup_ge_None_2; [done|..]; rewrite ?length_app, ?length_replicate; lia.
Qed.

(** The packet a client sends: the options an RFC 2131 server reads. *)
Definition client_packet (mac : HardwareAddress.t) (siaddr : Ipv4Address.t) (xid : Z) : DhcpPacket.t :=
  {| DhcpPacket.op := 1; DhcpPacket.htype := 1; DhcpPacket.hlen := 6; DhcpPacket.hops := 0;
     DhcpPacket.xid := u32_swap xid; DhcpPacket.secs := 0; DhcpPacket.flags := 0;
     DhcpPacket.ciaddr := Ipv4Address.default; DhcpPacket.yiaddr := Ipv4Address.default;
     DhcpPacket.siaddr := siaddr; DhcpPacket.giaddr := Ipv4Address.default;
     DhcpPacket.chaddr := HardwareAddress.octets mac ++ replicate 10 0;
     DhcpPacket.sname := replicate 64 0; DhcpPacket.file := replicate 128 0 |}.

Lemma discover_ok (mac : HardwareAddress.t) (xid : Z) :
  DhcpPacket.discover mac xid = Some (reply (client_packet mac Ipv4Address.default xid) [TypeOpt 1 []] []).
Proof. unfold DhcpPacket.discover. by rewrite with_options_ok. Qed.

Lemma request_ok (mac : HardwareAddress.t) (server requested : Ipv4Address.t) (xid : Z) :
  DhcpPacket.request mac server requested xid =
    Some (reply (client_packet mac server xid)
            [TypeOpt 3 []; OtherOpt 0x32 (Ipv4Address.octets requested); ServerOpt server []] []).
Proof. unfold DhcpPacket.request. by rewrite with_options_ok. Qed.

(** What a well-formed reply of the current transaction does. *)
Lemma process_reply (now xid : Z) (st : DhcpState) (mac : HardwareAddress.t) (packet : DhcpPacket.t)
    (opts : list dhcp_opt) (rest : list Z) :
  is_u32 xid -> array_sizes packet -> Forall opt_wf opts ->
  local_ip st = Progress xid -> DhcpPacket.xid packet = u32_swap xid ->
  process_packet now st mac (reply packet opts rest) =
    let o := options_of opts in
    let yiaddr := DhcpPacket.yiaddr packet in
    Done (if o_packet_type o =? 2 then
            (Ok (Some (reply (client_packet mac (o_dhcp_server o) xid)
                         [TypeOpt 3 []; OtherOpt 0x32 (Ipv4Address.octets yiaddr);
                          ServerOpt (o_dhcp_server o) []] []), DhcpOffer xid), st)
          else if o_packet_type o =? 5 then
            (Ok (None, DhcpAck xid),
             {| local_ip := Bound yiaddr (u32 (now + o_lease_time o)); server_ip := o_dhcp_server o;
                gateway_ip := o_router o; subnet_mask := o_subnet_mask o;
                dns_servers := o_dns_servers o |})
          else (Err tt, st)).
Proof.
  intros Hx Hs Hwf Hst Hp. unfold process_packet.
  set (l := MAGIC ++ encode_opts opts ++ 255 :: rest).
  assert (drop (get_size DhcpPacket.t) (reply packet opts rest) = l) as ->.
  { rewrite <- (dhcp_buffer_length _ Hs). apply drop_app_length. }
  assert (try_from_u8_buffer (reply packet opts rest) = Some packet) as -> by by apply dhcp_of_as.
  rewrite Hst, Hp, u32_swap_swap, Z.eqb_refl by done. cbn [negb].
  replace ((length l <? 4)%nat || negb (bool_decide (take 4 l = MAGIC))) with false by done.
  rewrite (options_loop_at opts l MAGIC rest options_init) by (first [done | lia]).
  cbn [mbind outcome_bind]. fold (options_of opts). cbn [at_cursor o_packet_type].
  destruct (o_packet_type (options_of opts) =? 2).
  - rewrite request_ok. done.
  - by destruct (o_packet_type (options_of opts) =? 5).
Qed.

(** Any other packet of a transaction is refused and changes nothing. *)
Lemma process_foreign (now : Z) (st : DhcpState) (mac : HardwareAddress.t) (raw : list Z) :
  (forall packet, try_from_u8_buffer raw = Some packet ->
     local_ip st <> Progress (u32_swap (DhcpPacket.xid packet))) ->
  process_packet now st mac raw = Done (Err tt, st).
Proof.
  intros H. unfold process_packet. destruct (try_from_u8_buffer raw) as [packet|]; [|done].
  specialize (H packet eq_refl). destruct (local_ip st) as [|x| |]; cbn [negb]; try done.
  destruct (Z.eqb_spec (u32_swap (DhcpPacket.xid packet)) x); [by subst|done].
Qed.

(** The parser stops on every packet. *)
Lemma process_packet_ends (now : Z) (st : DhcpState) (mac : HardwareAddress.t) (raw : list Z) :
  ends (process_packet now st mac raw) (fun _ => True).
Proof.
  unfold process_packet. destruct (try_from_u8_buffer raw) as [packet|]; [|done].
  set (l := drop _ raw). set (foreign := negb _). destruct foreign; [done|].
  set (no_magic := _ || _). destruct no_magic; [done|].
  eapply ends_bind; [apply options_loop_ends; lia | intros o _].
  destruct (o_packet_type o =? 2); [by rewrite request_ok|]. by destruct (o_packet_type o =? 5).
Qed.
