(* ===== verification/Dns.v ===== *)
(** * DNS

    [kernel/src/net/protocol/dns.rs]: queries, the parser of responses and the
    cache.  A [String] is the list of its bytes.  The parser's position is the
    state of [Parser]; a method that returns [Err] leaves the position where it
    stopped, as [&mut self] does.  The loop of [parse_name] takes [fuel]. *)

From S2P Require Import Prelude NetPacket Ipv4 Utf8 Outcome.

Module DnsHeader.
Record t := {
  id : Z;
  flags : Z;
  question_count : Z;
  answer_count : Z;
  authority_count : Z;
  additional_count : Z
}.

Definition FLAG_RESPONSE : Z := 0x8000.
Definition FLAG_RD : Z := 0x0100.

#[global] Instance header : PacketHeader t := {|
  get_size := 12;
  as_u8_buffer h :=
    le16 (id h) ++ le16 (flags h) ++ le16 (question_count h) ++ le16 (answer_count h) ++
    le16 (authority_count h) ++ le16 (additional_count h);
  of_u8_buffer b :=
    {| id := load16 b 0; flags := load16 b 2; question_count := load16 b 4;
       answer_count := load16 b 6; authority_count := load16 b 8; additional_count := load16 b 10 |}
|}.

Definition is_response (self : t) : bool := negb (flags self .& FLAG_RESPONSE =? 0).

Definition build_query_header (id question_count : Z) : t :=
  let flags := FLAG_RD in
  {| id := u16_swap id; flags := u16_swap flags; question_count := u16_swap question_count;
     answer_count := 0; authority_count := 0; additional_count := 0 |}.
End DnsHeader.

Inductive DnsQuestion :=
| QuestionA (name : list Z)
| QuestionCname (name : list Z).

Definition encode_question (question : DnsQuestion) : list Z :=
  match question with
  | QuestionA name => name ++ [0; 1] ++ [0; 1]
  | QuestionCname name => name ++ [0; 5] ++ [0; 1]
  end.

(** [xid] is the number [get_random_bytes] fills in. *)
Definition build_query_packet (xid : Z) (questions : list DnsQuestion) : list Z :=
  let header := DnsHeader.build_query_header xid (u16 (Z.of_nat (length questions))) in
  as_u8_buffer header ++ concat (encode_question <$> questions).

(** [str::split]. *)
Fixpoint split (sep : Z) (s : list Z) : list (list Z) :=
  match s with
  | [] => [[]]
  | c :: s =>
      if c =? sep then [] :: split sep s
      else match split sep s with
           | label :: labels => (c :: label) :: labels
           | [] => [[c]]
           end
  end.

Definition DOT : Z := 46.

Definition encode_labels (labels : list (list Z)) : list Z :=
  concat ((fun label => u8 (Z.of_nat (length label)) :: label) <$> labels).

Definition a_record (name : list Z) : DnsQuestion :=
  let labels := split DOT name in
  QuestionA (encode_labels labels ++ [0]).

(** ** The parser *)

Definition Parser (A : Type) : Type := nat -> outcome (result A unit * nat).

#[global] Instance parser_ret : MRet Parser := fun _ a pos => Done (Ok a, pos).
#[global] Instance parser_bind : MBind Parser := fun _ _ f m pos =>
  match m pos with
  | Done (Ok a, pos) => f a pos
  | Done (Err e, pos) => Done (Err e, pos)
  | Panic => Panic
  | OutOfFuel => OutOfFuel
  end.
Definition fail {A} : Parser A := fun pos => Done (Err tt, pos).
(** Reading and writing [self.pos]. *)
Definition get_pos : Parser nat := fun pos => Done (Ok pos, pos).
Definition set_pos (pos : nat) : Parser unit := fun _ => Done (Ok tt, pos).

Section Parser.
Context (packet : list Z) (fuel : nat).

Definition read_u8 : Parser Z := fun pos =>
  if (length packet <=? pos)%nat then Done (Err tt, pos)
  else Done (Ok (byte_at packet pos), (pos + 1)%nat).

Definition read_u16 : Parser Z := fun pos =>
  if (length packet <=? pos + 1)%nat then Done (Err tt, pos)
  else Done (Ok (256 * byte_at packet pos + byte_at packet (pos + 1)), (pos + 2)%nat).

Definition read_u32 : Parser Z := fun pos =>
  if (length packet <=? pos + 3)%nat then Done (Err tt, pos)
  else Done (Ok (2 ^ 24 * byte_at packet pos + 2 ^ 16 * byte_at packet (pos + 1) +
                 256 * byte_at packet (pos + 2) + byte_at packet (pos + 3)), (pos + 4)%nat).

Definition read_n_bytes (n : nat) : Parser (list Z) := fun pos =>
  if (length packet <? pos + n)%nat then Done (Err tt, pos)
  else Done (Ok (take n (drop pos packet)), (pos + n)%nat).

(** The loop of [parse_name]: [saved] is [original_pos] once a pointer has been
    followed.  The subtraction of the header size wraps. *)
Fixpoint name_loop (fuel : nat) (name_parts : list (list Z)) (saved : option nat)
    : Parser (list (list Z) * option nat) :=
  match fuel with
  | O => fun _ => OutOfFuel
  | S fuel =>
      label_len ← read_u8;
      if label_len =? 0 then mret (name_parts, saved)
      else if label_len .& 0xc0 =? 0xc0 then
        pos ← get_pos;
        let saved := match saved with Some p => Some p | None => Some (pos + 1)%nat end in
        low ← read_u8;
        let pointer := u16 ((((label_len .& 0x3f) ≪ 8) .| low) - Z.of_nat (get_size DnsHeader.t)) in
        set_pos (Z.to_nat pointer);;
        if (length packet <=? Z.to_nat pointer)%nat then fail
        else name_loop fuel name_parts saved
      else if negb (label_len .& 0xc0 =? 0) then fail
      else
        label_bytes ← read_n_bytes (Z.to_nat label_len);
        name_loop fuel (name_parts ++ [from_utf8_lossy label_bytes]) saved
  end.

(** [name_parts.join(".")]. *)
Fixpoint join (sep : Z) (parts : list (list Z)) : list Z :=
  match parts with
  | [] => []
  | [part] => part
  | part :: parts => part ++ sep :: join sep parts
  end.

Definition parse_name : Parser (list Z) :=
  '(name_parts, saved) ← name_loop fuel [] None;
  match saved with Some original_pos => set_pos original_pos | None => mret tt end;;
  mret (join DOT name_parts).

Definition parse_question : Parser DnsQuestion :=
  name ← parse_name;
  record_type ← read_u16;
  class ← read_u16;
  if negb (class =? 1) then fail
  else if record_type =? 1 then mret (QuestionA name)
  else if record_type =? 5 then mret (QuestionCname name)
  else fail.

Inductive RecordData :=
| RecordA (ip : Ipv4Address.t)
| RecordCname (cname : list Z).

Record DnsRecord := {
  name : list Z;
  record_type : Z;
  class : Z;
  ttl : Z;
  record_data : RecordData
}.

Definition parse_answer : Parser DnsRecord :=
  name ← parse_name;
  record_type ← read_u16;
  class ← read_u16;
  ttl ← read_u32;
  data_length ← read_u16;
  if negb (class =? 1) then fail
  else if data_length =? 0 then fail
  else
    record_data ←
      (if record_type =? 1 then
         if negb (data_length =? 4) then fail
         else
           a ← read_u8; b ← read_u8; c ← read_u8; d ← read_u8;
           mret (RecordA (Ipv4Address a b c d))
       else if record_type =? 5 then
         cname ← parse_name;
         mret (RecordCname cname)
       else fail);
    mret {| name := name; record_type := record_type; class := class; ttl := ttl;
            record_data := record_data |}.
End Parser.

(** ** The cache *)

Abbreviation DnsCache := (gmap (list Z) Ipv4Address.t).

Definition lookup_dns (cache : DnsCache) (name : list Z) : option Ipv4Address.t := cache !! name.
Definition add_dns_cache (cache : DnsCache) (name : list Z) (address : Ipv4Address.t) : DnsCache :=
  <[name := address]> cache.

(** The two [for] loops; the results of the questions are dropped. *)
Fixpoint skip_questions (packet : list Z) (fuel count pos : nat) : outcome nat :=
  match count with
  | O => Done pos
  | S count =>
      '(_, pos) ← parse_question packet fuel pos;
      skip_questions packet fuel count pos
  end.

Fixpoint read_answers (packet : list Z) (fuel count : nat) (cache : DnsCache) (pos : nat)
    : outcome DnsCache :=
  match count with
  | O => Done cache
  | S count =>
      '(r, pos) ← parse_answer packet fuel pos;
      let cache :=
        match r with
        | Ok {| name := name; record_data := RecordA ip |} => add_dns_cache cache name ip
        | _ => cache
        end in
      read_answers packet fuel count cache pos
  end.

Definition handle_dns_packet (fuel : nat) (cache : DnsCache) (packet : list Z)
    : outcome (result unit unit * DnsCache) :=
  match try_from_u8_buffer (H := DnsHeader.t) packet with
  | None => Done (Err tt, cache)
  | Some header =>
      if negb (DnsHeader.is_response header) then Done (Err tt, cache)
      else if DnsHeader.answer_count header =? 0 then Done (Err tt, cache)
      else
        let body := drop (get_size DnsHeader.t) packet in
        let question_count := u16_swap (DnsHeader.question_count header) in
        let answer_count := u16_swap (DnsHeader.answer_count header) in
        pos ← skip_questions body fuel (Z.to_nat question_count) 0;
        cache ← read_answers body fuel (Z.to_nat answer_count) cache pos;
        Done (Ok tt, cache)
  end.

(** ** Names of RFC 1035

    The grammar of section 4.1.4: labels up to a zero byte or a pointer into
    the packet.  [name_at packet pos labels e]: a name starts at [pos], is
    made of [labels], and its own bytes end before [e].  Positions count from
    the end of the header, pointers from its start. *)

Inductive name_at (packet : list Z) : nat -> list (list Z) -> nat -> Prop :=
| NameEnd pos : packet !! pos = Some 0 -> name_at packet pos [] (pos + 1)
| NameLabel pos label labels e :
    packet !! pos = Some (Z.of_nat (length label)) -> (0 < length label < 64)%nat ->
    (pos + 1 + length label <= length packet)%nat ->
    label = take (length label) (drop (pos + 1) packet) ->
    name_at packet (pos + 1 + length label) labels e ->
    name_at packet pos (label :: labels) e
| NamePointer pos hi lo target labels e :
    packet !! pos = Some (192 + hi) -> 0 <= hi < 64 -> packet !! (pos + 1)%nat = Some lo ->
    256 * hi + lo = 12 + Z.of_nat target -> (target < length packet)%nat ->
    name_at packet target labels e ->
    name_at packet pos labels (pos + 2).

(** ** One turn of the loop *)

Inductive next :=
| NextEnd (pos : nat)
| NextFail (pos : nat)
| NextLabel (label : list Z) (pos : nat)
| NextJump (pos : nat).

Definition name_next (packet : list Z) (pos : nat) : next :=
  match packet !! pos with
  | None => NextFail pos
  | Some b =>
      if b =? 0 then NextEnd (pos + 1)
      else if b .& 0xc0 =? 0xc0 then
        match packet !! (pos + 1)%nat with
        | None => NextFail (pos + 1)
        | Some low =>
            let p := Z.to_nat (u16 ((((b .& 0x3f) ≪ 8) .| low) - 12)) in
            if (length packet <=? p)%nat then NextFail p else NextJump p
        end
      else if negb (b .& 0xc0 =? 0) then NextFail (pos + 1)
      else if (length packet <? pos + 1 + Z.to_nat b)%nat then NextFail (pos + 1)
      else NextLabel (take (Z.to_nat b) (drop (pos + 1) packet)) (pos + 1 + Z.to_nat b)
  end.

Lemma read_u8_eq (packet : list Z) (pos : nat) :
  read_u8 packet pos =
    Done (match packet !! pos with Some b => (Ok b, (pos + 1)%nat) | None => (Err tt, pos) end).
Proof.
  unfold read_u8, byte_at. destruct (Nat.leb_spec (length packet) pos) as [H|H].
  - by rewrite lookup_ge_None_2.
  - rewrite nth_lookup. apply lookup_lt_is_Some_2 in H as [b ->]. done.
Qed.

Definition or_saved (saved : option nat) (pos : nat) : option nat :=
  match saved with Some p => Some p | None => Some pos end.

Lemma name_loop_next (packet : list Z) (fuel : nat) (parts : list (list Z)) (saved : option nat) (pos : nat) :
  name_loop packet (S fuel) parts saved pos =
    match name_next packet pos with
    | NextEnd p => Done (Ok (parts, saved), p)
    | NextFail p => Done (Err tt, p)
    | NextLabel label p => name_loop packet fuel (parts ++ [from_utf8_lossy label]) saved p
    | NextJump p => name_loop packet fuel parts (or_saved saved (pos + 2)) p
    end.
Proof.
  cbn [name_loop]. unfold mbind at 1, parser_bind at 1. rewrite read_u8_eq. unfold name_next.
  destruct (packet !! pos) as [b|]; [|done].
  destruct (b =? 0); [done|]. destruct (b .& 0xc0 =? 0xc0).
  - unfold get_pos, mbind, parser_bind. rewrite read_u8_eq.
    destruct (packet !! (pos + 1)%nat) as [low|]; [|done]. unfold set_pos.
    change (Z.of_nat (get_size DnsHeader.t)) with 12. cbv zeta.
    destruct (length packet <=? _)%nat; [done|]. unfold or_saved.
    by replace (pos + 1 + 1)%nat with (pos + 2)%nat by lia.
  - destruct (negb (b .& 0xc0 =? 0)); [done|]. unfold mbind, parser_bind, read_n_bytes.
    by destruct (length packet <? pos + 1 + Z.to_nat b)%nat.
Qed.

(** A property of bytes, checked on all of them. *)
Lemma forall_u8 (P : Z -> bool) :
  forallb P (seqZ 0 256) = true -> forall b, is_u8 b -> P b = true.
Proof.
  intros H b Hb. apply (proj1 (forallb_forall _ _) H), list_elem_of_In, elem_of_seqZ.
  unfold is_u8 in Hb. lia.
Qed.

(** ** Fuel *)

Definition next_pos (packet : list Z) (pos : nat) : option nat :=
  match name_next packet pos with
  | NextLabel _ p | NextJump p => Some p
  | NextEnd _ | NextFail _ => None
  end.

Lemma next_pos_below (packet : list Z) (pos p : nat) :
  next_pos packet pos = Some p -> (pos < length packet)%nat.
Proof.
  unfold next_pos, name_next. destruct (packet !! pos) eqn:E; [|done]. intros _.
  by eapply lookup_lt_Some.
Qed.

Lemma name_loop_walk (packet : list Z) (fuel : nat) :
  forall (parts : list (list Z)) (saved : option nat) (pos : nat),
  name_loop packet fuel parts saved pos = OutOfFuel <-> walk (next_pos packet) fuel pos <> None.
Proof.
  induction fuel as [|fuel IH]; intros parts saved pos; [done|].
  rewrite name_loop_next. cbn [walk].
  assert (next_pos packet pos = match name_next packet pos with
    NextLabel _ p | NextJump p => Some p | _ => None end) as -> by done.
  destruct (name_next packet pos) as [| |label p|p]; cbn [mbind option_bind];
    [split; congruence..| |]; apply IH.
Qed.

Lemma name_loop_mono (packet : list Z) (fuel : nat) :
  forall (fuel' : nat) (parts : list (list Z)) (saved : option nat) (pos : nat),
  (fuel <= fuel')%nat -> name_loop packet fuel parts saved pos <> OutOfFuel ->
  name_loop packet fuel' parts saved pos = name_loop packet fuel parts saved pos.
Proof.
  induction fuel as [|fuel IH]; intros fuel' parts saved pos Hf H; [done|].
  destruct fuel' as [|fuel']; [lia|]. rewrite name_loop_next in H. rewrite !name_loop_next.
  destruct (name_next packet pos) as [| |label p|p]; [done..| |]; apply IH; (lia || done).
Qed.

(** As many turns as the packet has bytes, and one more, are as good as any
    larger number: a run that has not ended then never ends. *)
Lemma name_loop_enough (packet : list Z) (fuel : nat) (parts : list (list Z)) (saved : option nat)
    (pos : nat) :
  (S (length packet) <= fuel)%nat ->
  name_loop packet fuel parts saved pos = name_loop packet (S (length packet)) parts saved pos.
Proof.
  intros Hf. destruct (walk (next_pos packet) (S (length packet)) pos) eqn:E.
  - assert (name_loop packet (S (length packet)) parts saved pos = OutOfFuel) as ->
      by (apply name_loop_walk; congruence).
    apply name_loop_walk. intros H. apply (walk_bound _ (length packet)) in H; [congruence|].
    apply next_pos_below.
  - apply name_loop_mono; [done|]. rewrite name_loop_walk, E. intros H. by apply H.
Qed.

Lemma parse_name_enough (packet : list Z) (fuel pos : nat) :
  (S (length packet) <= fuel)%nat ->
  parse_name packet fuel pos = parse_name packet (S (length packet)) pos.
Proof. intros Hf. unfold parse_name, mbind, parser_bind. by rewrite name_loop_enough. Qed.

(** ** The loop decodes the grammar *)

Lemma length_byte (b : Z) : is_u8 b ->
  (b .& 0xc0 =? 0xc0) = (192 <=? b) /\ (b .& 0xc0 =? 0) = (b <? 64) /\ b .& 0x3f = b mod 64.
Proof.
  intros Hb. apply (forall_u8 (fun b => (Bool.eqb (b .& 0xc0 =? 0xc0) (192 <=? b) &&
    Bool.eqb (b .& 0xc0 =? 0) (b <? 64)) && (b .& 0x3f =? b mod 64))) in Hb; [|by vm_compute].
  apply andb_prop in Hb as [[?%Bool.eqb_prop ?%Bool.eqb_prop]%andb_prop ?%Z.eqb_eq]. done.
Qed.

(** Where a pointer leads; below the header it wraps past the packet. *)
Lemma pointer_target (b low : Z) (n : nat) :
  192 <= b < 256 -> is_u8 low -> Z.of_nat n <= 65524 ->
  let p := Z.to_nat (u16 (((b mod 64) ≪ 8 .| low) - 12)) in
  (p < n)%nat -> 256 * (b - 192) + low = 12 + Z.of_nat p.
Proof.
  intros Hb Hl Hn p. unfold is_u8 in Hl. subst p. rewrite lor_add by lia.
  replace (b mod 64) with (b - 192) by (Z.div_mod_to_equations; lia). unfold u16. intros Hp.
  destruct (Z.lt_ge_cases ((b - 192) * 2 ^ 8 + low) 12); [|rewrite Z.mod_small in * by lia; lia].
  rewrite <- (Z.mod_add _ 1), Z.mod_small in Hp by lia. lia.
Qed.

Section Decode.
Context (packet : list Z).
Hypothesis packet_bytes : Forall is_u8 packet.
Hypothesis packet_short : Z.of_nat (length packet) <= 65524.

Lemma name_loop_sound (fuel : nat) :
  forall (parts parts' : list (list Z)) (saved saved' : option nat) (pos p : nat),
  name_loop packet fuel parts saved pos = Done (Ok (parts', saved'), p) ->
  exists labels e, name_at packet pos labels e /\
    parts' = parts ++ (from_utf8_lossy <$> labels) /\ default p saved' = default e saved.
Proof.
  induction fuel as [|fuel IH]; intros parts parts' saved saved' pos p H; [done|].
  rewrite name_loop_next in H. unfold name_next in H.
  destruct (packet !! pos) as [b|] eqn:Eb; [|done].
  pose proof (Forall_lookup_1 _ _ _ _ packet_bytes Eb) as Hb.
  destruct (length_byte b Hb) as (E1 & E2 & E3). unfold is_u8 in Hb.
  destruct (Z.eqb_spec b 0) as [->|Hb0].
  { injection H as <- <- <-. exists [], (pos + 1)%nat.
    split; [by constructor | split; [by rewrite app_nil_r | done]]. }
  rewrite E1, E2, E3 in H. destruct (Z.leb_spec 192 b) as [Hlo|Hlo].
  - destruct (packet !! (pos + 1)%nat) as [low|] eqn:El; [|done].
    pose proof (Forall_lookup_1 _ _ _ _ packet_bytes El) as Hl.
    pose proof (pointer_target b low (length packet) ltac:(lia) Hl packet_short) as Ht. cbv zeta in *.
    destruct (Nat.leb_spec (length packet) (Z.to_nat (u16 (((b mod 64) ≪ 8 .| low) - 12)))); [done|].
    apply IH in H as (labels & e & Hn & -> & Hs). exists labels, (pos + 2)%nat. split; [|split; [done|]].
    + eapply (NamePointer _ _ (b - 192) low); [|lia|done|by apply Ht|done|done]. rewrite Eb. f_equal. lia.
    + rewrite Hs. by destruct saved.
  - destruct (Z.ltb_spec b 64); [|done]. cbn [negb] in H.
    destruct (Nat.ltb_spec (length packet) (pos + 1 + Z.to_nat b)); [done|].
    apply IH in H as (labels & e & Hn & -> & Hs). set (label := take _ _) in *.
    assert (length label = Z.to_nat b) as Hlen
      by (subst label; rewrite length_take, length_drop; lia).
    exists (label :: labels), e. split; [|split; [by rewrite <- app_assoc | done]].
    apply NameLabel; rewrite ?Hlen; try (done || lia). rewrite Eb. f_equal. lia.
Qed.

Lemma name_loop_complete (pos : nat) (labels : list (list Z)) (e : nat) :
  name_at packet pos labels e ->
  exists fuel, forall parts saved, exists saved' p,
    name_loop packet fuel parts saved pos = Done (Ok (parts ++ (from_utf8_lossy <$> labels), saved'), p) /\
    default p saved' = default e saved.
Proof.
  induction 1 as [pos Hb|pos label labels e Hb Hl Hfit Hlabel _ (fuel & IH)
                 |pos hi lo target labels e Hb Hhi Hlo Ht Hin _ (fuel & IH)].
  - exists 1%nat. intros parts saved. exists saved, (pos + 1)%nat.
    rewrite name_loop_next, app_nil_r. unfold name_next. by rewrite Hb.
  - exists (S fuel). intros parts saved. rewrite name_loop_next. unfold name_next. rewrite Hb.
    pose proof (Forall_lookup_1 _ _ _ _ packet_bytes Hb) as Hu. cbn beta in Hu.
    destruct (length_byte _ Hu) as (-> & -> & _). rewrite Nat2Z.id.
    rewrite (proj2 (Z.eqb_neq _ _)), (proj2 (Z.leb_gt _ _)), (proj2 (Z.ltb_lt _ _)) by lia. cbn [negb].
    rewrite (proj2 (Nat.ltb_ge _ _)), <- Hlabel by lia.
    destruct (IH (parts ++ [from_utf8_lossy label]) saved) as (saved' & p & Hr & Hs).
    exists saved', p. rewrite Hr, <- app_assoc. done.
  - exists (S fuel). intros parts saved. rewrite name_loop_next. unfold name_next. rewrite Hb, Hlo.
    pose proof (Forall_lookup_1 _ _ _ _ packet_bytes Hb) as Hu.
    pose proof (Forall_lookup_1 _ _ _ _ packet_bytes Hlo) as Hv. unfold is_u8 in Hv.
    destruct (length_byte _ Hu) as (-> & -> & ->).
    rewrite (proj2 (Z.eqb_neq _ _)), (proj2 (Z.leb_le _ _)) by lia. rewrite lor_add by lia.
    replace ((192 + hi) mod 64) with hi by (Z.div_mod_to_equations; lia).
    replace (hi * 2 ^ 8 + lo - 12) with (Z.of_nat target) by lia.
    unfold u16. rewrite Z.mod_small, Nat2Z.id, (proj2 (Nat.leb_gt _ _)) by lia.
    destruct (IH parts (or_saved saved (pos + 2))) as (saved' & p & Hr & Hs).
    exists saved', p. rewrite Hr, Hs. split; [done|]. by destruct saved.
Qed.
End Decode.

Lemma parse_name_complete (packet : list Z) (fuel pos e : nat) (labels : list (list Z)) :
  Forall is_u8 packet -> (S (length packet) <= fuel)%nat -> name_at packet pos labels e ->
  parse_name packet fuel pos = Done (Ok (join DOT (from_utf8_lossy <$> labels)), e).
Proof.
  intros Hb Hf Hn. unfold parse_name, mbind, parser_bind.
  destruct (name_loop_complete packet Hb pos labels e Hn) as (fuel0 & H).
  destruct (H [] None) as (saved & p & Hr & Hp). cbn [app from_option] in *.
  assert (name_loop packet fuel [] None pos = name_loop packet fuel0 [] None pos) as ->.
  { rewrite (name_loop_enough packet fuel) by done. destruct (Nat.le_ge_cases fuel0 (S (length packet))).
    - apply name_loop_mono; [done|]. by rewrite Hr.
    - symmetry. by apply name_loop_enough. }
  rewrite Hr. destruct saved; by simpl in Hp; subst.
Qed.

Lemma parse_name_sound (packet : list Z) (fuel pos e : nat) (n : list Z) :
  Forall is_u8 packet -> Z.of_nat (length packet) <= 65524 ->
  parse_name packet fuel pos = Done (Ok n, e) ->
  exists labels, name_at packet pos labels e /\ n = join DOT (from_utf8_lossy <$> labels).
Proof.
  intros Hb Hs. unfold parse_name, mbind, parser_bind.
  destruct (name_loop packet fuel [] None pos) as [[[[parts saved]|] p]| |] eqn:E; try done.
  apply (name_loop_sound packet Hb Hs) in E as (labels & e' & Hn & -> & Hp). cbn [app from_option] in *.
  destruct saved; simpl in Hp; subst; intros [= <- <-]; by exists labels.
Qed.

(** C23: The name parser decodes exactly the names of RFC 1035, compression
    pointers included: with at least as many turns as the packet has bytes plus
    one it returns a name if and only if the grammar has it at that position,
    with the same end position; and if it is still looping after that many
    turns, the loop of the code never ends. *)
Theorem dns_names_decode (packet : list Z) (fuel pos : nat) :
  Forall is_u8 packet -> Z.of_nat (length packet) <= 65524 -> (S (length packet) <= fuel)%nat ->
  (forall n e, parse_name packet fuel pos = Done (Ok n, e) <->
     exists labels, name_at packet pos labels e /\ n = join DOT (from_utf8_lossy <$> labels)) /\
  (parse_name packet fuel pos = OutOfFuel -> forall fuel', parse_name packet fuel' pos = OutOfFuel).
Proof.
  intros Hb Hs Hf. split.
  - intros n e. split; [by apply parse_name_sound|].
    intros (labels & Hn & ->). by apply parse_name_complete.
  - intros H fuel'. rewrite parse_name_enough in H by done.
    destruct (Nat.le_gt_cases (S (length packet)) fuel'); [by rewrite parse_name_enough|].
    unfold parse_name, mbind, parser_bind in *.
    destruct (name_loop packet fuel' [] None pos) as [r| |] eqn:E; try done;
      rewrite (name_loop_mono packet fuel'), E in H by (rewrite ?E; lia || done); try done.
Qed.

(** ** Names this system sends *)

Lemma join_split (sep : Z) (s : list Z) : join sep (split sep s) = s.
Proof.
  induction s as [|c s IH]; [done|]. cbn [split].
  assert (split sep s <> []) by (destruct s as [|c' s']; [done|]; cbn [split]; repeat case_match; done).
  destruct (Z.eqb_spec c sep) as [->|Hc]; destruct (split sep s) as [|label labels] eqn:E; try done.
  - change (join sep ([] :: label :: labels)) with ([] ++ sep :: join sep (label :: labels)). by rewrite IH.
  - rewrite <- IH. by destruct labels.
Qed.

(** A host name DNS can carry: labels of 1 to 63 ASCII bytes. *)
Definition host_wf (host : list Z) : Prop :=
  Forall (fun label => (0 < length label < 64)%nat /\ Forall (fun b => 0 <= b < 128) label) (split DOT host).

Lemma name_at_labels (labels : list (list Z)) : forall pre rest : list Z,
  Forall (fun label => (0 < length label < 64)%nat) labels ->
  name_at (pre ++ (encode_labels labels ++ [0]) ++ rest) (length pre) labels
    (length pre + length (encode_labels labels) + 1).
Proof.
  induction labels as [|label labels IH]; intros pre rest H.
  - simpl. rewrite Nat.add_0_r. constructor. by rewrite lookup_app_r, Nat.sub_diag by lia.
  - apply Forall_cons in H as [Hl H]. unfold encode_labels in *. cbn [fmap list_fmap concat].
    set (tail := concat _) in *.
    assert (u8 (Z.of_nat (length label)) = Z.of_nat (length label)) as -> by word.
    specialize (IH (pre ++ Z.of_nat (length label) :: label) rest H).
    rewrite length_app in IH. cbn [length] in IH.
    replace (pre ++ (((Z.of_nat (length label) :: label) ++ tail) ++ [0]) ++ rest)
      with ((pre ++ Z.of_nat (length label) :: label) ++ (tail ++ [0]) ++ rest)
      by (by rewrite <- ?app_assoc).
    replace (length pre + length ((Z.of_nat (length label) :: label) ++ tail) + 1)%nat
      with (length pre + S (length label) + length tail + 1)%nat
      by (rewrite length_app; simpl; lia).
    apply NameLabel; [| lia | | |].
    + rewrite <- app_assoc, lookup_app_r, Nat.sub_diag by lia. done.
    + rewrite !length_app. simpl. lia.
    + rewrite <- app_assoc, drop_app_ge by lia.
      replace (length pre + 1 - length pre)%nat with 1%nat by lia. simpl. by rewrite drop_0, take_app_length.
    + by replace (length pre + 1 + length label)%nat with (length pre + S (length label))%nat by lia.
Qed.

(** ** Responses *)

#[export, refine] Instance dns_laws : PacketHeaderLaws DnsHeader.t := {|
  header_wf h :=
    is_u16 (DnsHeader.id h) /\ is_u16 (DnsHeader.flags h) /\ is_u16 (DnsHeader.question_count h) /\
    is_u16 (DnsHeader.answer_count h) /\ is_u16 (DnsHeader.authority_count h) /\
    is_u16 (DnsHeader.additional_count h)
|}.
Proof.
  - reflexivity.
  - intros h (? & ? & ? & ? & ? & ?). repeat first [apply Forall_app_2 | by apply le16_bytes].
  - intros [? ? ? ? ? ?] rest _. cbn [as_u8_buffer of_u8_buffer DnsHeader.header]. by decode_header.
Defined.

(** The header of a response, its fields as RFC 1035 numbers them. *)
Definition response_header (id flags : Z) (answers : nat) : DnsHeader.t :=
  {| DnsHeader.id := u16_swap id; DnsHeader.flags := u16_swap flags; DnsHeader.question_count := u16_swap 1;
     DnsHeader.answer_count := u16_swap (Z.of_nat answers); DnsHeader.authority_count := 0;
     DnsHeader.additional_count := 0 |}.

(** An A record whose name is a pointer to the name of the question. *)
Definition a_answer (answer : Z * Ipv4Address.t) : list Z :=
  [0xc0; 12; 0; 1; 0; 1] ++ be32 answer.1 ++ [0; 4] ++ Ipv4Address.octets answer.2.

(** The response of a server to a query of this system for [host]. *)
Definition dns_response (id flags : Z) (host : list Z) (answers : list (Z * Ipv4Address.t)) : list Z :=
  as_u8_buffer (response_header id flags (length answers)) ++
  encode_question (a_record host) ++ concat (a_answer <$> answers).

Lemma read_u8_val (packet : list Z) (pos : nat) (b : Z) :
  packet !! pos = Some b -> read_u8 packet pos = Done (Ok b, (pos + 1)%nat).
Proof. intros H. by rewrite read_u8_eq, H. Qed.

Lemma read_u16_val (packet : list Z) (pos : nat) (hi lo : Z) :
  packet !! pos = Some hi -> packet !! (pos + 1)%nat = Some lo ->
  read_u16 packet pos = Done (Ok (256 * hi + lo), (pos + 2)%nat).
Proof.
  intros H1 H2. pose proof (lookup_lt_Some _ _ _ H2). unfold read_u16, byte_at.
  rewrite (proj2 (Nat.leb_gt _ _)), !nth_lookup, H1, H2 by lia. done.
Qed.

Lemma read_u32_val (packet : list Z) (pos : nat) (b0 b1 b2 b3 : Z) :
  packet !! pos = Some b0 -> packet !! (pos + 1)%nat = Some b1 ->
  packet !! (pos + 2)%nat = Some b2 -> packet !! (pos + 3)%nat = Some b3 ->
  read_u32 packet pos = Done (Ok (2 ^ 24 * b0 + 2 ^ 16 * b1 + 256 * b2 + b3), (pos + 4)%nat).
Proof.
  intros H0 H1 H2 H3. pose proof (lookup_lt_Some _ _ _ H3). unfold read_u32, byte_at.
  rewrite (proj2 (Nat.leb_gt _ _)), !nth_lookup, H0, H1, H2, H3 by lia. done.
Qed.

(** One answer of a response. *)
Lemma parse_answer_at (pre rest : list Z) (answer : Z * Ipv4Address.t) (fuel : nat) (n : list Z) :
  let packet := pre ++ a_answer answer ++ rest in
  parse_name packet fuel (length pre) = Done (Ok n, (length pre + 2)%nat) ->
  exists r, parse_answer packet fuel (length pre) = Done (Ok r, (length pre + 16)%nat) /\
    name r = n /\ record_data r = RecordA answer.2.
Proof.
  intros packet Hn. destruct answer as [ttl [i0 i1 i2 i3]]. cbn [snd].
  assert (Hb : forall k b, a_answer (ttl, Ipv4Address i0 i1 i2 i3) !! k = Some b ->
                packet !! (length pre + k)%nat = Some b).
  { intros k b Hk. subst packet. rewrite lookup_app_r by lia.
    replace (length pre + k - length pre)%nat with k by lia. by apply lookup_app_l_Some. }
  unfold parse_answer, mbind, parser_bind, mret, parser_ret. rewrite Hn.
  rewrite (read_u16_val packet _ 0 1) by (rewrite <- ?Nat.add_assoc; by apply Hb).
  rewrite (read_u16_val packet _ 0 1) by (rewrite <- ?Nat.add_assoc; by apply Hb).
  erewrite read_u32_val by (rewrite <- ?Nat.add_assoc; by apply Hb).
  rewrite (read_u16_val packet _ 0 4) by (rewrite <- ?Nat.add_assoc; by apply Hb).
  change (256 * 0 + 1) with 1. change (256 * 0 + 4) with 4. cbn [Z.eqb Pos.eqb negb].
  do 4 (erewrite read_u8_val by (rewrite <- ?Nat.add_assoc; by apply Hb)).
  eexists. split; [apply f_equal, (f_equal2 pair); [reflexivity | lia] | done].
Qed.

Lemma read_answers_at (fuel : nat) (host : list Z) (answers : list (Z * Ipv4Address.t)) :
  forall (packet pre : list Z) (cache : DnsCache),
  packet = pre ++ concat (a_answer <$> answers) ->
  (forall pos, packet !! pos = Some 0xc0 -> packet !! (pos + 1)%nat = Some 12 ->
     parse_name packet fuel pos = Done (Ok host, (pos + 2)%nat)) ->
  read_answers packet fuel (length answers) cache (length pre) =
    Done (foldl (fun cache answer => add_dns_cache cache host answer.2) cache answers).
Proof.
  induction answers as [|answer answers IH]; intros packet pre cache Hp Hn; [done|].
  cbn [length read_answers foldl fmap list_fmap concat] in *.
  destruct (parse_answer_at pre (concat (a_answer <$> answers)) answer fuel host) as (r & Hr & Er & Ed).
  { rewrite <- Hp. apply Hn; rewrite Hp, lookup_app_r by lia.
    - by rewrite Nat.sub_diag.
    - by replace (length pre + 1 - length pre)%nat with 1%nat by lia. }
  rewrite <- Hp in Hr. rewrite Hr. cbn [mbind outcome_bind].
  destruct r as [n' ty cl tt' data]. cbn [name record_data] in Er, Ed. rewrite Er, Ed.
  replace (length pre + 16)%nat with (length (pre ++ a_answer answer)) by (rewrite length_app; done).
  apply IH; [|done]. by rewrite <- app_assoc.
Qed.

Lemma skip_question_at (fuel : nat) (rest host : list Z) (n : list Z) :
  let packet := encode_question (a_record host) ++ rest in
  parse_name packet fuel 0%nat = Done (Ok n, (length (encode_labels (split DOT host)) + 1)%nat) ->
  skip_questions packet fuel 1 0 = Done (length (encode_question (a_record host))).
Proof.
  intros packet Hn. cbn [skip_questions]. unfold parse_question. unfold mbind at 2 3 4, parser_bind.
  rewrite Hn. set (pre := encode_labels (split DOT host) ++ [0]).
  replace (length (encode_labels (split DOT host)) + 1)%nat with (length pre)
    by (subst pre; by rewrite length_app).
  assert (packet = pre ++ [0; 1; 0; 1] ++ rest) as Hp.
  { subst packet pre. unfold a_record, encode_question. by rewrite <- !app_assoc. }
  assert (Hb : forall k b, [0; 1; 0; 1] !! k = Some b -> packet !! (length pre + k)%nat = Some b).
  { intros k b Hk. rewrite Hp, lookup_app_r by lia.
    replace (length pre + k - length pre)%nat with k by lia. by apply lookup_app_l_Some. }
  rewrite (read_u16_val packet (length pre) 0 1) by (by apply (Hb 1%nat) || (rewrite <- (Nat.add_0_r (length pre)); by apply Hb)).
  rewrite (read_u16_val packet _ 0 1) by (rewrite <- ?Nat.add_assoc; by apply Hb).
  change (256 * 0 + 1) with 1. cbn [Z.eqb Pos.eqb negb mbind outcome_bind mret parser_ret].
  f_equal. subst pre. unfold a_record, encode_question. rewrite !length_app. cbn [length]. lia.
Qed.

(** The bytes of a question and of the answers. *)
Lemma question_bytes (host : list Z) : host_wf host -> Forall is_u8 (encode_question (a_record host)).
Proof.
  intros H. unfold a_record, encode_question. apply Forall_app_2; [|repeat constructor; word].
  apply Forall_app_2; [|repeat constructor; word]. unfold encode_labels, host_wf in *.
  induction H as [|label labels [_ Hl] _ IH]; [constructor|]. cbn [fmap list_fmap concat].
  apply Forall_app_2; [|done]. constructor; [word|]. eapply Forall_impl; [done|]. intros b ?. word.
Qed.

Lemma be32_bytes (x : Z) : is_u32 x -> Forall is_u8 (be32 x).
Proof. intros H. apply le32_bytes in H. unfold be32, le32 in *. rewrite !Forall_cons in *. tauto. Qed.

Lemma answers_bytes (answers : list (Z * Ipv4Address.t)) :
  Forall (fun answer => is_u32 answer.1 /\ Ipv4Address.wf answer.2) answers ->
  Forall is_u8 (concat (a_answer <$> answers)).
Proof.
  induction 1 as [|answer answers [Ht Hi] _ IH]; [constructor|]. cbn [fmap list_fmap concat].
  apply Forall_app_2; [|done]. unfold a_answer.
  repeat apply Forall_app_2; [repeat constructor; word | by apply be32_bytes | repeat constructor; word | done].
Qed.

Lemma answers_length (answers : list (Z * Ipv4Address.t)) :
  length (concat (a_answer <$> answers)) = (16 * length answers)%nat.
Proof.
  induction answers as [|answer answers IH]; [done|]. cbn [fmap list_fmap concat length].
  rewrite length_app, IH. change (length (a_answer answer)) with 16%nat. lia.
Qed.

(** The test of the code reads the header in the order of the machine. *)
Lemma is_response_bit (id flags : Z) (answers : nat) :
  is_u16 flags -> DnsHeader.is_response (response_header id flags answers) = Z.testbit flags 7.
Proof.
  intros Hf. unfold DnsHeader.is_response, DnsHeader.FLAG_RESPONSE. cbn [response_header DnsHeader.flags].
  change 0x8000 with (1 ≪ 15). rewrite land_bit_eqb, negb_involutive by lia.
  change 15 with (7 + 8) at 1. rewrite <- Z.div_pow2_bits by lia.
  replace (u16_swap flags / 2 ^ 8) with (flags mod 2 ^ 8) by (unfold u16_swap; word).
  by apply Z.mod_pow2_bits_low.
Qed.

(** Every name of the body decodes to the host of the question. *)
Lemma response_names (host : list Z) (rest : list Z) (fuel : nat) :
  let packet := encode_question (a_record host) ++ rest in
  host_wf host -> Forall is_u8 packet -> (S (length packet) <= fuel)%nat ->
  parse_name packet fuel 0%nat = Done (Ok host, (length (encode_labels (split DOT host)) + 1)%nat) /\
  forall pos, packet !! pos = Some 0xc0 -> packet !! (pos + 1)%nat = Some 12 ->
    parse_name packet fuel pos = Done (Ok host, (pos + 2)%nat).
Proof.
  intros packet Hh Hb Hf. set (labels := split DOT host).
  assert (Hn : name_at packet 0 labels (length (encode_labels labels) + 1)%nat).
  { subst packet. unfold a_record, encode_question. fold labels. rewrite <- app_assoc.
    apply (name_at_labels labels []). eapply Forall_impl; [exact Hh|]. by intros ? []. }
  assert (Hj : join DOT (from_utf8_lossy <$> labels) = host).
  { rewrite <- (join_split DOT host). f_equal. fold labels. unfold host_wf in Hh. fold labels in Hh.
    clear -Hh. induction Hh as [|label labels [_ Hl] _ IH]; [done|].
    cbn [fmap list_fmap]. by rewrite from_utf8_lossy_ascii, IH. }
  split.
  - rewrite (parse_name_complete packet fuel 0 _ labels Hb Hf Hn). by rewrite Hj.
  - intros pos H1 H2. rewrite <- Hj. apply parse_name_complete; [done..|].
    eapply (NamePointer packet pos 0 12 0 labels); [exact H1 | lia | exact H2 | done | | exact Hn].
    pose proof (lookup_lt_Some _ _ _ H1). lia.
Qed.

(** C35: A response to a query of this system, with any number of A records
    whose names point back to the question, puts the last address in the cache
    under the name that was asked for.  The response bit it needs to be set is
    bit 7 of the flags, "recursion available", not bit 15, "response": without
    it every response is refused. *)
Theorem dns_response_cached (fuel : nat) (cache : DnsCache) (id flags ttl : Z) (host : list Z)
    (ip : Ipv4Address.t) (answers : list (Z * Ipv4Address.t)) :
  let packet := dns_response id flags host (answers ++ [(ttl, ip)]) in
  is_u16 id -> is_u16 flags -> host_wf host ->
  Forall (fun answer => is_u32 answer.1 /\ Ipv4Address.wf answer.2) (answers ++ [(ttl, ip)]) ->
  (length packet <= fuel)%nat -> Z.of_nat (length packet) < 65536 ->
  handle_dns_packet fuel cache packet =
    Done (if Z.testbit flags 7 then (Ok tt, add_dns_cache cache host ip) else (Err tt, cache)).
Proof.
  intros packet Hid Hfl Hh Ha Hf Hlen. set (all := answers ++ [(ttl, ip)]) in *.
  set (h := response_header id flags (length all)).
  set (body := encode_question (a_record host) ++ concat (a_answer <$> all)).
  assert (Hp : length packet = (12 + length body)%nat) by (subst packet; unfold dns_response; by rewrite length_app).
  assert (Hcount : (length all <= length body)%nat).
  { subst body. rewrite length_app, answers_length. lia. }
  assert (Hall : is_u16 (Z.of_nat (length all)) /\ Z.of_nat (length all) <> 0).
  { split; [word|]. subst all. rewrite length_app. simpl. lia. }
  assert (Hwf : header_wf h).
  { cbn. split_and!; first [by apply u16_swap_range | apply u16_swap_range, Hall | apply u16_swap_range; word | word]. }
  assert (Hbody : Forall is_u8 body) by (apply Forall_app_2; [by apply question_bytes | by apply answers_bytes]).
  destruct (response_names host (concat (a_answer <$> all)) fuel Hh Hbody) as [Hq Hn]; [fold body; lia|].
  unfold handle_dns_packet. subst packet. unfold dns_response. fold h body.
  rewrite try_from_as_u8_buffer by exact Hwf. subst h. rewrite is_response_bit by done.
  destruct (Z.testbit flags 7); [|done].
  rewrite <- (as_u8_buffer_length (response_header id flags (length all))), drop_app_length.
  cbn [negb response_header DnsHeader.answer_count DnsHeader.question_count].
  rewrite (proj2 (Z.eqb_neq (u16_swap _) 0)) by (destruct Hall; unfold u16_swap; word).
  rewrite !u16_swap_swap, Nat2Z.id by (done || by apply Hall).
  pose proof (skip_question_at fuel _ host host Hq) as Hskip. cbv zeta in Hskip. fold body in Hskip.
  change (Z.to_nat 1) with 1%nat. rewrite Hskip. cbn [mbind outcome_bind].
  rewrite (read_answers_at fuel host all body (encode_question (a_record host)) cache eq_refl Hn).
  cbn [mbind outcome_bind]. subst all. rewrite foldl_app. cbn [foldl snd]. do 2 f_equal.
  unfold add_dns_cache. clear. revert cache. induction answers as [|a l IH]; intros cache; [done|].
  cbn [foldl]. by rewrite IH, insert_insert_eq.
Qed.

(** A pointer that leads to itself is followed forever. *)
Lemma self_pointer_hangs (packet : list Z) (fuel pos : nat) :
  next_pos packet pos = Some pos -> parse_name packet fuel pos = OutOfFuel.
Proof.
  intros H. unfold parse_name, mbind, parser_bind.
  assert (name_loop packet fuel [] None pos = OutOfFuel) as ->; [|done].
  apply name_loop_walk. induction fuel as [|fuel IH]; [done|]. cbn [walk]. by rewrite H.
Qed.

Lemma pointer_loop_hangs (fuel : nat) (cache : DnsCache) (h : DnsHeader.t) (rest : list Z) :
  header_wf h -> DnsHeader.is_response h = true ->
  DnsHeader.question_count h <> 0 -> DnsHeader.answer_count h <> 0 ->
  handle_dns_packet fuel cache (as_u8_buffer h ++ 0xc0 :: 0x0c :: rest) = OutOfFuel.
Proof.
  intros Hwf Hr Hq Ha. unfold handle_dns_packet. rewrite try_from_as_u8_buffer by exact Hwf.
  rewrite Hr, (proj2 (Z.eqb_neq _ _) Ha), <- (as_u8_buffer_length h), drop_app_length. cbn [negb].
  destruct (Z.to_nat (u16_swap (DnsHeader.question_count h))) as [|n] eqn:E.
  - destruct Hwf as (_ & _ & Hq' & _). unfold u16_swap in E. word.
  - cbn [skip_questions].
    assert (forall p, parse_name p fuel 0%nat = OutOfFuel -> parse_question p fuel 0%nat = OutOfFuel) as ->;
      [intros p Hp; unfold parse_question, mbind, parser_bind; by rewrite Hp | done |].
    by apply self_pointer_hangs.
Qed.

(** The parser reads inside the packet: it never panics. *)
Lemma name_loop_no_panic (packet : list Z) (fuel : nat) : forall parts saved pos,
  name_loop packet fuel parts saved pos <> Panic.
Proof.
  induction fuel as [|fuel IH]; intros parts saved pos; [done|].
  rewrite name_loop_next. by destruct (name_next packet pos).
Qed.

Definition no_panic {A} (m : Parser A) : Prop := forall pos, m pos <> Panic.

Lemma no_panic_bind {A B} (m : Parser A) (f : A -> Parser B) :
  no_panic m -> (forall a, no_panic (f a)) -> no_panic (m ≫= f).
Proof.
  intros Hm Hf pos. unfold mbind, parser_bind. specialize (Hm pos).
  destruct (m pos) as [[[a|e] p]| |]; [apply Hf | done..].
Qed.

Lemma no_panic_if {A} (b : bool) (m1 m2 : Parser A) : no_panic m1 -> no_panic m2 -> no_panic (if b then m1 else m2).
Proof. by destruct b. Qed.

Lemma no_panic_pure {A} (r : result A unit) : no_panic (fun pos => Done (r, pos)).
Proof. done. Qed.

Lemma no_panic_reads (packet : list Z) :
  no_panic (read_u8 packet) /\ no_panic (read_u16 packet) /\ no_panic (read_u32 packet).
Proof. unfold no_panic, read_u8, read_u16, read_u32. split_and!; intros; by destruct (_ <=? _)%nat. Qed.

Lemma parse_name_no_panic (packet : list Z) (fuel : nat) : no_panic (parse_name packet fuel).
Proof.
  apply no_panic_bind; [intros pos; apply name_loop_no_panic|].
  intros [parts []]; apply no_panic_bind; done.
Qed.

Ltac no_panic_tac :=
  repeat first [apply parse_name_no_panic | apply no_panic_reads | apply no_panic_if
               | apply no_panic_bind; [|intros ?] | apply no_panic_pure].

Lemma parse_question_no_panic (packet : list Z) (fuel : nat) : no_panic (parse_question packet fuel).
Proof. unfold parse_question. no_panic_tac. Qed.

Lemma parse_answer_no_panic (packet : list Z) (fuel : nat) : no_panic (parse_answer packet fuel).
Proof. unfold parse_answer. no_panic_tac. Qed.

Lemma handle_dns_no_panic (fuel : nat) (cache : DnsCache) (packet : list Z) :
  handle_dns_packet fuel cache packet <> Panic.
Proof.
  unfold handle_dns_packet. destruct (try_from_u8_buffer packet) as [h|]; [|done].
  destruct (negb _); [done|]. destruct (_ =? 0); [done|]. set (body := drop _ packet).
  assert (Hq : forall count pos, skip_questions body fuel count pos <> Panic).
  { induction count as [|count IH]; intros pos; [done|]. cbn [skip_questions].
    pose proof (parse_question_no_panic body fuel pos).
    destruct (parse_question body fuel pos) as [[r p]| |]; [apply IH | done..]. }
  assert (Ha : forall count c pos, read_answers body fuel count c pos <> Panic).
  { induction count as [|count IH]; intros c pos; [done|]. cbn [read_answers].
    pose proof (parse_answer_no_panic body fuel pos).
    destruct (parse_answer body fuel pos) as [[r p]| |]; [apply IH | done..]. }
  set (n := Z.to_nat (u16_swap (DnsHeader.question_count h))). specialize (Hq n 0%nat). 
  destruct (skip_questions body fuel n 0) as [p| |]; cbn [mbind outcome_bind]; [|done..]. set (k := Z.to_nat _). specialize (Ha k cache p).
  by destruct (read_answers body fuel k cache p).
Qed.

(** ** Examples *)

Lemma dns_names_decode_witness :
  parse_name [1; 97; 0; 0xc0; 12] 6 3%nat = Done (Ok [97], 5%nat).
Proof.
  apply (proj1 (dns_names_decode [1; 97; 0; 0xc0; 12] 6 3
    ltac:(repeat constructor; word) ltac:(simpl; lia) ltac:(simpl; lia)) [97] 5%nat).
  exists [[97]]. split; [|reflexivity].
  apply (NamePointer _ 3 0 12 0 _ 3); [reflexivity | lia | reflexivity | reflexivity | simpl; lia |].
  apply (NameLabel _ 0 [97] [] 3); [reflexivity | simpl; lia | simpl; lia | reflexivity |].
  apply (NameEnd _ 2). reflexivity.
Defined.

(** "a.b", with two addresses. *)
Definition example_host : list Z := [97; 46; 98].

Lemma dns_response_cached_witness :
  let ip := Ipv4Address 10 0 0 7 in
  let packet := dns_response 5 0x8180 example_host ([(60, Ipv4Address 10 0 0 6)] ++ [(60, ip)]) in
  handle_dns_packet 200 ∅ packet =
    Done (if Z.testbit 0x8180 7 then (Ok tt, add_dns_cache ∅ example_host ip) else (Err tt, ∅)).
Proof.
  intros ip packet.
  assert (Hid : is_u16 5) by word. assert (Hfl : is_u16 0x8180) by word.
  assert (Hh : host_wf example_host) by (repeat constructor; simpl; lia).
  assert (Ha : Forall (fun answer => is_u32 answer.1 /\ Ipv4Address.wf answer.2)
                 ([(60, Ipv4Address 10 0 0 6)] ++ [(60, ip)])) by (repeat constructor; cbn; word).
  assert (Hlen : length packet = 53%nat) by (vm_compute; reflexivity).
  apply (dns_response_cached 200 ∅ 5 0x8180 60 example_host ip [(60, Ipv4Address 10 0 0 6)]
           Hid Hfl Hh Ha); fold packet; rewrite Hlen; lia.
Defined.
