(* ===== verification/NetDevice.v ===== *)
(** * Network devices

    [kernel/src/net/netdevice.rs]: a device reads one frame at a time into its
    buffer, takes the frame apart and hands the content to ARP, DHCP, DNS or
    the sockets; it keeps the frames it sends until the driver has taken them.

    An [AsyncOp] in progress is [None], a completed one its return value; the
    driver completes it.  The calls to the driver and to the sockets' callers
    are the [DevEffect]s.  Parameters: [live] as in [Tcp], [now] as in [Dhcp],
    and [fuel] for the DNS parser. *)

From S2P Require Import Prelude NetPacket Ipv4 NetTransport Tcp Sockets Outcome Dhcp Dns.

Inductive DevEffect :=
| DriverRead
| DriverWrite (frame : list Z)
| SocketCall (e : NetEffect).

Definition socket_calls (effects : list NetEffect) : list DevEffect := SocketCall <$> effects.

Record NetDevice := {
  mac : HardwareAddress.t;
  is_open : bool;
  active_read : option Z;
  read_buffer : list Z;
  active_writes : list (list Z * option Z);
  known_arp : gmap Ipv4Address.t HardwareAddress.t;
  dhcp_state : DhcpState
}.

(** The statics of [socket/mod.rs] and [dns.rs]. *)
Record Shared := {
  sockets : Net;
  dns_port : Z;
  dns_cache : DnsCache
}.

Definition READ_BUFFER_LEN : nat := 1536.

(** The open operation is in [active_read]. *)
Definition device_new (mac : HardwareAddress.t) : NetDevice :=
  {| mac := mac; is_open := false; active_read := None; read_buffer := replicate READ_BUFFER_LEN 0;
     active_writes := []; known_arp := ∅; dhcp_state := dhcp_new |}.

Definition set_open (d : NetDevice) : NetDevice :=
  {| mac := mac d; is_open := true; active_read := active_read d; read_buffer := read_buffer d;
     active_writes := active_writes d; known_arp := known_arp d; dhcp_state := dhcp_state d |}.
Definition set_active_read (d : NetDevice) (r : option Z) : NetDevice :=
  {| mac := mac d; is_open := is_open d; active_read := r; read_buffer := read_buffer d;
     active_writes := active_writes d; known_arp := known_arp d; dhcp_state := dhcp_state d |}.
Definition set_read_buffer (d : NetDevice) (b : list Z) : NetDevice :=
  {| mac := mac d; is_open := is_open d; active_read := active_read d; read_buffer := b;
     active_writes := active_writes d; known_arp := known_arp d; dhcp_state := dhcp_state d |}.
Definition set_active_writes (d : NetDevice) (w : list (list Z * option Z)) : NetDevice :=
  {| mac := mac d; is_open := is_open d; active_read := active_read d; read_buffer := read_buffer d;
     active_writes := w; known_arp := known_arp d; dhcp_state := dhcp_state d |}.
Definition set_known_arp (d : NetDevice) (m : gmap Ipv4Address.t HardwareAddress.t) : NetDevice :=
  {| mac := mac d; is_open := is_open d; active_read := active_read d; read_buffer := read_buffer d;
     active_writes := active_writes d; known_arp := m; dhcp_state := dhcp_state d |}.
Definition set_dhcp_state (d : NetDevice) (s : DhcpState) : NetDevice :=
  {| mac := mac d; is_open := is_open d; active_read := active_read d; read_buffer := read_buffer d;
     active_writes := active_writes d; known_arp := known_arp d; dhcp_state := s |}.

Definition set_sockets' (s : Shared) (n : Net) : Shared :=
  {| sockets := n; dns_port := dns_port s; dns_cache := dns_cache s |}.
Definition set_dns_port (s : Shared) (p : Z) : Shared :=
  {| sockets := sockets s; dns_port := p; dns_cache := dns_cache s |}.
Definition set_dns_cache (s : Shared) (c : DnsCache) : Shared :=
  {| sockets := sockets s; dns_port := dns_port s; dns_cache := c |}.

(** ** Sending *)

(** The frame given to the driver; it is returned so that it can be stored. *)
Definition send_raw (eth_header : EthernetFrameHeader.t) (payload : list Z) : list Z :=
  as_u8_buffer eth_header ++ payload.

Definition add_write (d : NetDevice) (frame : list Z) : NetDevice :=
  set_active_writes d (active_writes d ++ [(frame, None)]).

(** [send_raw] and [add_write], as every caller composes them. *)
Definition send_frame (d : NetDevice) (eth_header : EthernetFrameHeader.t) (payload : list Z)
    : NetDevice * list DevEffect :=
  let frame := send_raw eth_header payload in
  (add_write d frame, [DriverWrite frame]).

Fixpoint drop_completed (writes : list (list Z * option Z)) : list (list Z * option Z) :=
  match writes with
  | (_, Some _) :: rest => drop_completed rest
  | _ => writes
  end.
Definition clear_completed_writes (d : NetDevice) : NetDevice :=
  set_active_writes d (drop_completed (active_writes d)).

Definition add_new_read_request (d : NetDevice) : NetDevice * list DevEffect :=
  (set_active_read d None, [DriverRead]).

Definition send_dhcp_packet (d : NetDevice) (payload : list Z) : outcome (NetDevice * list DevEffect) :=
  let eth_header := EthernetFrameHeader.new_ipv4 (mac d) HardwareAddress.BROADCAST in
  ip_packet ← of_option (create_datagram (Ipv4Address 0 0 0 0) 68 (Ipv4Address 255 255 255 255) 67 payload);
  Done (send_frame d eth_header ip_packet).

Definition init_dhcp (d : NetDevice) (xid : Z) : outcome (NetDevice * list DevEffect) :=
  discovery_packet ← of_option (DhcpPacket.discover (mac d) xid);
  let s := dhcp_state d in
  let d := set_dhcp_state d {| local_ip := Progress xid; server_ip := server_ip s;
                               gateway_ip := gateway_ip s; subnet_mask := subnet_mask s;
                               dns_servers := dns_servers s |} in
  send_dhcp_packet d discovery_packet.

(** [get_dns_port] of [dns.rs]: chosen at its first use. *)
Definition get_dns_port (s : Shared) : outcome (Z * Shared) :=
  if dns_port s =? 0 then
    new_port ← of_option (get_ephemeral_port (sockets s));
    Done (new_port, set_dns_port s new_port)
  else Done (dns_port s, s).

(** ** Receiving *)

Section Receive.
Context (live : Z -> bool) (now : Z) (fuel : nat).

Abbreviation Handled := (outcome (option NetEvent * NetDevice * Shared * list DevEffect)).

Definition handle_arp_packet (d : NetDevice) (s : Shared) (offset : nat) : Handled :=
  arp ← of_option (try_from_u8_buffer (H := ArpPacket.t) (drop offset (read_buffer d)));
  if ArpPacket.is_request arp then Done (None, d, s, [])
  else
    let src_ip := ArpPacket.source_protocol_addr arp in
    let src_mac := ArpPacket.source_hardware_addr arp in
    Done (Some (ArpResponse src_ip), set_known_arp d (<[src_ip := src_mac]> (known_arp d)), s, []).

(** [v[start..stop]]. *)
Definition slice_range (l : list Z) (start stop : nat) : outcome (list Z) :=
  if (start <=? stop)%nat && (stop <=? length l)%nat then Done (take (stop - start) (drop start l)) else Panic.

Definition handle_dhcp (d : NetDevice) (s : Shared) (udp_payload : list Z) : Handled :=
  '(r, dhcp) ← process_packet now (dhcp_state d) (mac d) udp_payload;
  let d := set_dhcp_state d dhcp in
  match r with
  | Ok (Some res, event) =>
      '(d, effects) ← send_dhcp_packet d res;
      Done (Some event, d, s, effects)
  | Ok (None, event) => Done (Some event, d, s, [])
  | Err _ => Done (None, d, s, [])
  end.

(** The UDP branch, with the payload of the IP packet. *)
Definition handle_udp (d : NetDevice) (s : Shared) (source : Ipv4Address.t) (payload : list Z) : Handled :=
  match try_from_u8_buffer (H := UdpHeader.t) payload with
  | None => Done (None, d, s, [])
  | Some udp_header =>
      let dest_port := u16_swap (UdpHeader.dest_port udp_header) in
      let udp_payload := drop (get_size UdpHeader.t) payload in
      if dest_port =? 68 then handle_dhcp d s udp_payload
      else
        '(port, s) ← get_dns_port s;
        if dest_port =? port then
          '(r, cache) ← handle_dns_packet fuel (dns_cache s) udp_payload;
          let s := set_dns_cache s cache in
          match r with
          | Ok _ => Done (Some DnsResponse, d, s, [])
          | Err _ => Done (None, d, s, [])
          end
        else
          let '(n, effects) := handle_udp_packet (sockets s) dest_port source
                                 (UdpHeader.source_port udp_header) udp_payload in
          Done (None, d, set_sockets' s n, socket_calls effects)
  end.

Definition handle_tcp (d : NetDevice) (s : Shared) (source dest : Ipv4Address.t) (payload : list Z) : Handled :=
  match try_from_u8_buffer (H := TcpHeader.t) payload with
  | None => Done (None, d, s, [])
  | Some tcp_header =>
      let tcp_payload := drop (get_size TcpHeader.t) payload in
      let dest_port := u16_swap (TcpHeader.dest_port tcp_header) in
      '(n, effects) ← of_option (handle_tcp_packet live (sockets s) dest dest_port source
                                   tcp_header tcp_payload);
      Done (None, d, set_sockets' s n, socket_calls effects)
  end.

(** The subtraction and the addition wrap at the width of [usize]. *)
Definition handle_ip_packet (d : NetDevice) (s : Shared) (offset : nat) : Handled :=
  ip_header ← of_option (try_from_u8_buffer (H := Ipv4Header.t) (drop offset (read_buffer d)));
  let payload_offset := (offset + get_size Ipv4Header.t)%nat in
  let payload_length := u32 (u16_swap (Ipv4Header.total_length ip_header) - Z.of_nat (get_size Ipv4Header.t)) in
  let stop := Z.to_nat (u32 (Z.of_nat payload_offset + payload_length)) in
  payload ← slice_range (read_buffer d) payload_offset stop;
  if Ipv4Header.protocol ip_header =? protocol_code Udp then
    handle_udp d s (Ipv4Header.source ip_header) payload
  else if Ipv4Header.protocol ip_header =? protocol_code Ipv4.Tcp then
    handle_tcp d s (Ipv4Header.source ip_header) (Ipv4Header.dest ip_header) payload
  else Done (None, d, s, []).

Definition handle_frame (d : NetDevice) (s : Shared) : Handled :=
  match try_from_u8_buffer (H := EthernetFrameHeader.t) (read_buffer d) with
  | Some frame =>
      let offset := get_size EthernetFrameHeader.t in
      if EthernetFrameHeader.get_ethertype frame =? EthernetFrameHeader.ETHERTYPE_ARP then
        handle_arp_packet d s offset
      else if EthernetFrameHeader.get_ethertype frame =? EthernetFrameHeader.ETHERTYPE_IP then
        handle_ip_packet d s offset
      else Done (None, d, s, [])
  | None => Done (None, d, s, [])
  end.

Definition process_read_result (d : NetDevice) (s : Shared) : Handled :=
  match active_read d with
  | None => Done (None, d, s, [])
  | Some result =>
      if negb (is_open d) then
        if negb (result .& 0x80000000 =? 0) then Done (None, d, s, [])
        else
          let d := set_open d in
          let '(d, effects) := add_new_read_request d in
          Done (Some LinkEstablished, d, s, effects)
      else if negb (result .& 0x80000000 =? 0) then
        let '(d, effects) := add_new_read_request d in
        Done (None, d, s, effects)
      else if result .& 0x7fffffff =? 0 then
        let '(d, effects) := add_new_read_request d in
        Done (None, d, s, effects)
      else
        '(event, d, s, effects) ← handle_frame d s;
        let d := set_read_buffer d (replicate (length (read_buffer d)) 0) in
        let '(d, effects') := add_new_read_request d in
        Done (event, d, s, effects ++ effects')
  end.
End Receive.
