(* ===== verification/NetDeviceSpec.v ===== *)
(** * The receive path

    What a frame in the read buffer of a device does: which datagrams reach
    DHCP and the sockets, and which frames bring the network task down. *)

From S2P Require Import Prelude NetPacket Ipv4 NetTransport Tcp Sockets SocketsSpec Outcome Dhcp Dns NetDevice.

(** ** Frames *)

(** A completed read: the driver put the frame at the start of the zeroed
    buffer and returned its length. *)
Definition received (d : NetDevice) (frame : list Z) : Prop :=
  is_open d = true /\ (0 < length frame <= READ_BUFFER_LEN)%nat /\
  active_read d = Some (Z.of_nat (length frame)) /\
  read_buffer d = frame ++ replicate (READ_BUFFER_LEN - length frame) 0.

(** The device when the read has been handled: an empty buffer, and the next
    read under way. *)
Definition after_read (d : NetDevice) : NetDevice :=
  set_active_read (set_read_buffer d (replicate READ_BUFFER_LEN 0)) None.

Definition ip_frame (eth : EthernetFrameHeader.t) : Prop :=
  header_wf eth /\ EthernetFrameHeader.ethertype eth = u16_swap EthernetFrameHeader.ETHERTYPE_IP.

Lemma length_ok (n : nat) : (0 < n <= READ_BUFFER_LEN)%nat ->
  Z.of_nat n .& 0x80000000 = 0 /\ Z.of_nat n .& 0x7fffffff = Z.of_nat n.
Proof.
  unfold READ_BUFFER_LEN. intros H. split.
  - change 0x80000000 with (1 ≪ 31). apply Z.eqb_eq. rewrite land_bit_eqb by lia.
    rewrite negb_true_iff. apply Z.bits_above_log2; [lia|]. apply Z.log2_lt_pow2; lia.
  - change 0x7fffffff with (Z.ones 31). rewrite Z.land_ones by lia. apply Z.mod_small. lia.
Qed.

Section Frames.
Context (live : Z -> bool) (now : Z) (fuel : nat).

(** [process_read_result] around the handler of the frame. *)
Lemma process_received (d : NetDevice) (s : Shared) (frame : list Z) event d' s' effects :
  received d frame -> handle_frame live now fuel d s = Done (event, d', s', effects) ->
  read_buffer d' = read_buffer d ->
  process_read_result live now fuel d s = Done (event, after_read d', s', effects ++ [DriverRead]).
Proof.
  intros (Ho & Hl & Hr & Hb) Hf Hd. unfold process_read_result.
  destruct (length_ok _ Hl) as [E1 E2]. rewrite Hr, Ho, E1, E2. cbn [negb Z.eqb].
  rewrite (proj2 (Z.eqb_neq _ _)) by lia. rewrite Hf. cbn [mbind outcome_bind].
  rewrite Hd, Hb, length_app, length_replicate.
  by replace (length frame + (READ_BUFFER_LEN - length frame))%nat with READ_BUFFER_LEN by lia.
Qed.

Lemma process_stops (d : NetDevice) (s : Shared) (frame : list Z) :
  received d frame -> handle_frame live now fuel d s = OutOfFuel ->
  process_read_result live now fuel d s = OutOfFuel.
Proof.
  intros (Ho & Hl & Hr & _) Hf. unfold process_read_result.
  destruct (length_ok _ Hl) as [E1 E2]. rewrite Hr, Ho, E1, E2. cbn [negb Z.eqb].
  rewrite (proj2 (Z.eqb_neq _ _)) by lia. by rewrite Hf.
Qed.

(** The payload of an IP packet whose length field is right. *)
Lemma handle_frame_ip (d : NetDevice) (s : Shared) (eth : EthernetFrameHeader.t) (ip : Ipv4Header.t)
    (payload : list Z) :
  let frame := as_u8_buffer eth ++ as_u8_buffer ip ++ payload in
  received d frame -> ip_frame eth -> header_wf ip ->
  u16_swap (Ipv4Header.total_length ip) = 20 + Z.of_nat (length payload) ->
  handle_frame live now fuel d s =
    if Ipv4Header.protocol ip =? protocol_code Udp then
      handle_udp now fuel d s (Ipv4Header.source ip) payload
    else if Ipv4Header.protocol ip =? protocol_code Ipv4.Tcp then
      handle_tcp live d s (Ipv4Header.source ip) (Ipv4Header.dest ip) payload
    else Done (None, d, s, []).
Proof.
  intros frame (_ & Hl & _ & Hb) [Heth Htype] Hip Hlen. unfold handle_frame. rewrite Hb.
  set (pad := replicate _ 0). unfold frame. rewrite <- !app_assoc, try_from_as_u8_buffer by exact Heth.
  unfold EthernetFrameHeader.get_ethertype. rewrite Htype, u16_swap_swap by (unfold EthernetFrameHeader.ETHERTYPE_IP; word).
  cbn [EthernetFrameHeader.ETHERTYPE_IP EthernetFrameHeader.ETHERTYPE_ARP Z.eqb Pos.eqb].
  unfold handle_ip_packet. rewrite Hb. unfold frame. rewrite <- !app_assoc.
  rewrite <- (as_u8_buffer_length eth), drop_app_length, try_from_as_u8_buffer by exact Hip.
  cbn [of_option mbind outcome_bind]. rewrite Hlen.
  rewrite (as_u8_buffer_length eth).
  change (get_size EthernetFrameHeader.t + get_size Ipv4Header.t)%nat with 34%nat.
  change (Z.of_nat (get_size Ipv4Header.t)) with 20.
  assert (Hfl : length frame = (34 + length payload)%nat)
    by (unfold frame; by rewrite !length_app, !as_u8_buffer_length).
  unfold READ_BUFFER_LEN in Hl.
  replace (Z.to_nat (u32 (Z.of_nat 34 + u32 (20 + Z.of_nat (length payload) - 20))))
    with (34 + length payload)%nat by word.
  unfold slice_range. rewrite (proj2 (Nat.leb_le _ _)), (proj2 (Nat.leb_le _ _)) by
    (rewrite ?length_app, ?as_u8_buffer_length; cbn [get_size EthernetFrameHeader.header Ipv4Header.header]; lia).
  cbn [andb mbind outcome_bind].
  rewrite (app_assoc (as_u8_buffer eth)), drop_app_length' by (by rewrite length_app, !as_u8_buffer_length).
  by rewrite take_app_length' by lia.
Qed.

(** A datagram of another host, as [create_datagram] lays it out. *)
Record datagram_frame (d : NetDevice) (src : Ipv4Address.t) (sp : Z) (dst : Ipv4Address.t) (dp : Z)
    (data : list Z) : Prop := {
  df_src : Ipv4Address.wf src;
  df_dst : Ipv4Address.wf dst;
  df_sp : is_u16 sp;
  df_dp : is_u16 dp;
  df_data : Forall is_u8 data;
  df_received : exists eth packet, ip_frame eth /\ create_datagram src sp dst dp data = Some packet /\
    received d (as_u8_buffer eth ++ packet)
}.

Lemma handle_frame_datagram (d : NetDevice) (s : Shared) src sp dst dp (data : list Z) :
  datagram_frame d src sp dst dp data ->
  exists udp, u16_swap (UdpHeader.source_port udp) = sp /\ header_wf udp /\
    u16_swap (UdpHeader.dest_port udp) = dp /\
    handle_frame live now fuel d s = handle_udp now fuel d s src (as_u8_buffer udp ++ data).
Proof.
  intros [Hs Hd Hsp Hdp Hb (eth & packet & Heth & Hp & Hr)].
  assert (Hlen : Z.of_nat (length data) <= 65507).
  { pose proof (create_datagram_length src dst sp dp data packet Hp). destruct Hr as (_ & Hl & _).
    rewrite length_app, as_u8_buffer_length in Hl. unfold READ_BUFFER_LEN in Hl. lia. }
  destruct (create_datagram_wire src dst sp dp data Hs Hd Hsp Hdp Hb Hlen)
    as (ip & udp & E & Hip & Hudp & _ & _ & Htl & Hpr & Hsrc & _ & H1 & H2 & _).
  assert (packet = as_u8_buffer ip ++ as_u8_buffer udp ++ data) as -> by congruence.
  exists udp. split; [done|]. split; [done|]. split; [done|].
  rewrite (handle_frame_ip d s eth ip (as_u8_buffer udp ++ data)); try done.
  - by rewrite Hpr, Hsrc.
  - rewrite Htl, length_app, as_u8_buffer_length. cbn [get_size UdpHeader.header]. lia.
Qed.
End Frames.

(** ** DHCP *)

Definition bound_state (now : Z) (packet : DhcpPacket.t) (o : Options) : DhcpState :=
  {| local_ip := Bound (DhcpPacket.yiaddr packet) (u32 (now + o_lease_time o));
     server_ip := o_dhcp_server o; gateway_ip := o_router o; subnet_mask := o_subnet_mask o;
     dns_servers := o_dns_servers o |}.

(** The IP packet of a DHCP message of this device. *)
Record dhcp_packet (payload packet : list Z) : Prop := {
  dhcp_packet_eq :
    create_datagram (Ipv4Address 0 0 0 0) 68 (Ipv4Address 255 255 255 255) 67 payload = Some packet
}.

Definition broadcast_header (d : NetDevice) : EthernetFrameHeader.t :=
  EthernetFrameHeader.new_ipv4 (mac d) HardwareAddress.BROADCAST.

Section Dhcp.
Context (live : Z -> bool) (now : Z) (fuel : nat).

Lemma send_dhcp_ok (d : NetDevice) (payload : list Z) :
  exists packet, dhcp_packet payload packet /\
    send_dhcp_packet d payload =
      Done (add_write d (as_u8_buffer (broadcast_header d) ++ packet),
            [DriverWrite (as_u8_buffer (broadcast_header d) ++ packet)]).
Proof.
  destruct (create_datagram_total (Ipv4Address 0 0 0 0) (Ipv4Address 255 255 255 255) 68 67 payload)
    as [packet Hp].
  exists packet. split; [by constructor|]. unfold send_dhcp_packet. rewrite Hp. reflexivity.
Qed.

Lemma handle_udp_dhcp (d : NetDevice) (s : Shared) (src : Ipv4Address.t) (udp : UdpHeader.t) (data : list Z) :
  header_wf udp -> u16_swap (UdpHeader.dest_port udp) = 68 ->
  handle_udp now fuel d s src (as_u8_buffer udp ++ data) = handle_dhcp now d s data.
Proof.
  intros Hw Hp. unfold handle_udp. rewrite try_from_as_u8_buffer by exact Hw. rewrite Hp.
  by rewrite <- (as_u8_buffer_length udp), drop_app_length.
Qed.

Lemma set_dhcp_state_id (d : NetDevice) : set_dhcp_state d (dhcp_state d) = d.
Proof. by destruct d. Qed.

(** An offer of the current transaction is answered with a request for it. *)
Lemma receive_offer (d : NetDevice) (s : Shared) (xid : Z) src sp dst (packet : DhcpPacket.t)
    (opts : list dhcp_opt) (rest : list Z) :
  datagram_frame d src sp dst 68 (reply packet opts rest) ->
  is_u32 xid -> array_sizes packet -> Forall opt_wf opts ->
  local_ip (dhcp_state d) = Progress xid -> DhcpPacket.xid packet = u32_swap xid ->
  o_packet_type (options_of opts) = 2 ->
  let server := o_dhcp_server (options_of opts) in
  exists p, dhcp_packet (reply (client_packet (mac d) server xid)
      [TypeOpt 3 []; OtherOpt 0x32 (Ipv4Address.octets (DhcpPacket.yiaddr packet)); ServerOpt server []] []) p /\
    let frame := as_u8_buffer (broadcast_header d) ++ p in
    process_read_result live now fuel d s =
      Done (Some (DhcpOffer xid), after_read (add_write d frame), s, [DriverWrite frame; DriverRead]).
Proof.
  intros Hf Hx Hs Hwf Hst Hp Hty server.
  destruct (handle_frame_datagram live now fuel d s src sp dst 68 _ Hf) as (udp & _ & Hw & Hdp & E).
  rewrite handle_udp_dhcp in E by done. unfold handle_dhcp in E.
  rewrite (process_reply now xid) in E by done. cbv zeta in E. rewrite Hty in E.
  cbn [Z.eqb Pos.eqb mbind outcome_bind] in E. rewrite set_dhcp_state_id in E.
  destruct (send_dhcp_ok d (reply (client_packet (mac d) server xid) [TypeOpt 3 [];
    OtherOpt 50 (Ipv4Address.octets (DhcpPacket.yiaddr packet)); ServerOpt server []] [])) as (p & Hp1 & Hp2).
  exists p. split; [exact Hp1|]. destruct Hf as [_ _ _ _ _ (eth & pk & _ & _ & Hr)].
  fold server in E. rewrite Hp2 in E. cbn [mbind outcome_bind] in E. cbv zeta.
  exact (process_received live now fuel d s _ _ _ _ _ Hr E eq_refl).
Qed.

(** An acknowledgement of the current transaction binds the address. *)
Lemma receive_ack (d : NetDevice) (s : Shared) (xid : Z) src sp dst (packet : DhcpPacket.t)
    (opts : list dhcp_opt) (rest : list Z) :
  datagram_frame d src sp dst 68 (reply packet opts rest) ->
  is_u32 xid -> array_sizes packet -> Forall opt_wf opts ->
  local_ip (dhcp_state d) = Progress xid -> DhcpPacket.xid packet = u32_swap xid ->
  o_packet_type (options_of opts) = 5 ->
  process_read_result live now fuel d s =
    Done (Some (DhcpAck xid), after_read (set_dhcp_state d (bound_state now packet (options_of opts))), s,
          [DriverRead]).
Proof.
  intros Hf Hx Hs Hwf Hst Hp Hty.
  destruct (handle_frame_datagram live now fuel d s src sp dst 68 _ Hf) as (udp & _ & Hw & Hdp & E).
  rewrite handle_udp_dhcp in E by done. unfold handle_dhcp in E.
  rewrite (process_reply now xid) in E by done. cbv zeta in E. rewrite Hty in E.
  cbn [Z.eqb Pos.eqb mbind outcome_bind] in E.
  destruct Hf as [_ _ _ _ _ (eth & pk & _ & _ & Hr)].
  exact (process_received live now fuel d s _ _ _ _ _ Hr E eq_refl).
Qed.
End Dhcp.

(** ** Datagrams for sockets *)

(** A UDP socket of port [dp] with nothing read or waiting. *)
Record idle_udp (s : Shared) (dp id : Z) (l : UdpListener.t) : Prop := {
  iu_dhcp : dp <> 68;
  iu_dns : dns_port s <> 0 /\ dns_port s <> dp;
  iu_active : active_connections (sockets s) !! dp = Some id;
  iu_socket : socket_map (sockets s) !! id = Some (UdpSocket l);
  iu_port : UdpListener.port l = dp;
  iu_idle : UdpListener.pending_reads l = [] /\ UdpListener.buffered_datagrams l = []
}.

Section Udp.
Context (live : Z -> bool) (now : Z) (fuel : nat) (translate : Z -> option Z).

Lemma receive_datagram (d : NetDevice) (s : Shared) src sp dst dp (data : list Z) id l :
  datagram_frame d src sp dst dp data -> idle_udp s dp id l ->
  let l' := {| UdpListener.port := dp; UdpListener.pending_reads := [];
               UdpListener.buffered_datagrams := [Ipv4Address.octets src ++ le16 sp ++ data] |} in
  process_read_result live now fuel d s =
    Done (None, after_read d, set_sockets' s (put_socket (sockets s) id (UdpSocket l')), [DriverRead]).
Proof.
  intros Hf [Hdh [Hd0 Hdn] Ha Hl Hport [Hr Hb]] l'.
  destruct (handle_frame_datagram live now fuel d s src sp dst dp data Hf) as (udp & Hsp & Hw & Hdp & E).
  unfold handle_udp in E. rewrite try_from_as_u8_buffer in E by exact Hw. rewrite Hdp in E.
  rewrite (proj2 (Z.eqb_neq dp 68)) in E by done. unfold get_dns_port in E.
  rewrite (proj2 (Z.eqb_neq _ 0)) in E by done. cbn [mbind outcome_bind] in E.
  rewrite (proj2 (Z.eqb_neq dp _)) in E by done.
  rewrite <- (as_u8_buffer_length udp), drop_app_length in E.
  unfold handle_udp_packet in E. rewrite Ha, Hl in E. unfold udp_handle_packet in E. rewrite Hr, Hb, Hport in E.
  assert (be16 (UdpHeader.source_port udp) = le16 sp) as Hbe.
  { destruct Hw as (Hw & _). rewrite <- Hsp. unfold be16, le16, u16_swap. f_equal; [|f_equal]; word. }
  rewrite Hbe in E. destruct Hf as [_ _ _ _ _ (eth & pk & _ & _ & Hrec)].
  exact (process_received live now fuel d s _ _ _ _ _ Hrec E eq_refl).
Qed.

(** A datagram reaches the socket of its destination port, with the
    sender's address and its payload intact, but with the sender's port in the
    wrong byte order: the message handed to the reader holds it in little
    endian, where the format of the socket calls for big endian.  A program
    that answers by writing back to the address it was given sends its answer
    to the byte-swapped port. *)
Theorem udp_reply_misdirected (d : NetDevice) (s : Shared) (src dst ip : Ipv4Address.t) (sp dp id : Z)
    (data answer : list Z) (l : UdpListener.t) (buffer : Buffer) (cb cb' : AsyncCallback)
    (Hframe : datagram_frame d src sp dst dp data) (Hsock : idle_udp s dp id l)
    (Hip : resolved_local_ip (sockets s) = Some ip)
    (Hbuf : 6 + Z.of_nat (length data) <= buf_len buffer < 2 ^ 32) :
  let message := Ipv4Address.octets src ++ le16 sp ++ data in
  exists s1 n2 n3 reply n,
    process_read_result live now fuel d s = Done (None, after_read d, s1, [DriverRead]) /\
    socket_io_read translate (sockets s1) id buffer cb =
      Some (Some (Ok (Z.of_nat (length message))), n2, [WriteVirtual (buf_vaddr buffer) message]) /\
    socket_io_write n2 id (take 6 message ++ answer) cb' =
      Some (Some (Ok n), n3, [NetRespond src reply; CompleteOp cb' (Ok n)]) /\
    create_datagram ip dp src (u16_swap sp) answer = Some reply.
Proof.
  intros message. pose proof (receive_datagram d s src sp dst dp data id l Hframe Hsock) as E1.
  set (l' := UdpListener.Build_t _ _ _) in E1. cbv zeta in E1.
  destruct (create_datagram_total ip src dp (u16_swap sp) answer) as [reply Hreply].
  assert (Hlen : Z.of_nat (length message) = 6 + Z.of_nat (length data)).
  { subst message. rewrite !length_app. cbn [length le16 Ipv4Address.octets]. lia. }
  eexists _, _, _, reply, _. split; [exact E1|]. split; [|split; [|exact Hreply]].
  - unfold socket_io_read. simpl. rewrite lookup_insert_eq. cbn [udp_read l' UdpListener.buffered_datagrams].
    fold message. rewrite Z.min_r by lia. cbn [mbind option_bind].
    rewrite Nat2Z.id, take_ge by lia. unfold u32. rewrite Z.mod_small by lia. reflexivity.
  - unfold socket_io_write. simpl. rewrite lookup_insert_eq. unfold udp_write.
    cbn [UdpListener.port l']. rewrite Hip.
    replace (256 * (sp mod 256) + sp / 256) with (u16_swap sp) by (unfold u16_swap; lia).
    destruct src as [a b c e]. cbn [Ipv4Address.a0 Ipv4Address.a1 Ipv4Address.a2 Ipv4Address.a3].
    rewrite Hreply. cbn [mbind option_bind]. reflexivity.
Qed.
End Udp.

(** ** Frames that stop the network task *)

(** What the receive path takes from the bytes of the buffer. *)
Definition buffer_ethertype (b : list Z) : Z :=
  EthernetFrameHeader.get_ethertype (of_u8_buffer (H := EthernetFrameHeader.t) b).
Definition buffer_ip (b : list Z) : Ipv4Header.t := of_u8_buffer (drop 14 b).
Definition buffer_total_length (b : list Z) : Z := u16_swap (Ipv4Header.total_length (buffer_ip b)).
Definition buffer_payload (b : list Z) : list Z := take (Z.to_nat (buffer_total_length b - 20)) (drop 34 b).
Definition buffer_udp_port (b : list Z) : Z :=
  u16_swap (UdpHeader.dest_port (of_u8_buffer (buffer_payload b))).

Definition is_ip_frame (b : list Z) : Prop := buffer_ethertype b = EthernetFrameHeader.ETHERTYPE_IP.
Definition length_in_buffer (b : list Z) : Prop := 20 <= buffer_total_length b <= 1522.
Definition is_datagram (b : list Z) (port : Z) : Prop :=
  is_ip_frame b /\ length_in_buffer b /\ Ipv4Header.protocol (buffer_ip b) = protocol_code Udp /\
  28 <= buffer_total_length b /\ buffer_udp_port b = port.

Section Stops.
Context (live : Z -> bool) (now : Z) (fuel : nat).

Lemma slice_payload (b : list Z) :
  length b = READ_BUFFER_LEN -> 0 <= buffer_total_length b < 2 ^ 16 ->
  slice_range b 34 (Z.to_nat (u32 (Z.of_nat 34 + u32 (buffer_total_length b - 20)))) =
    if decide (length_in_buffer b) then Done (buffer_payload b) else Panic.
Proof.
  unfold length_in_buffer, slice_range, READ_BUFFER_LEN, buffer_payload. intros -> Ht.
  set (t := buffer_total_length b) in *.
  replace (u32 (Z.of_nat 34 + u32 (t - 20))) with (14 + t) by word.
  destruct (decide (20 <= t <= 1522)).
  - rewrite (proj2 (Nat.leb_le _ _)), (proj2 (Nat.leb_le _ _)) by lia. cbn [andb]. do 2 f_equal. lia.
  - destruct (Nat.leb_spec 34 (Z.to_nat (14 + t))), (Nat.leb_spec (Z.to_nat (14 + t)) 1536); try done. lia.
Qed.

Lemma handle_dhcp_stops (d : NetDevice) (s : Shared) (data : list Z) :
  (handle_dhcp now d s data = Panic <-> process_packet now (dhcp_state d) (mac d) data = Panic) /\
  handle_dhcp now d s data <> OutOfFuel.
Proof.
  unfold handle_dhcp. pose proof (process_packet_ends now (dhcp_state d) (mac d) data) as Hends.
  destruct (process_packet now (dhcp_state d) (mac d) data) as [[[[[res|] event]|e] st]| |];
    cbn [mbind outcome_bind]; try done.
  match goal with |- context [send_dhcp_packet ?d res] =>
    destruct (send_dhcp_ok d res) as (p & _ & ->) end. done.
Qed.

Lemma handle_udp_stops (d : NetDevice) (s : Shared) (src : Ipv4Address.t) (payload : list Z) :
  dns_port s <> 0 ->
  let port := u16_swap (UdpHeader.dest_port (of_u8_buffer payload)) in
  (handle_udp now fuel d s src payload = Panic <-> (8 <= length payload)%nat /\ port = 68 /\
     process_packet now (dhcp_state d) (mac d) (drop 8 payload) = Panic) /\
  (handle_udp now fuel d s src payload = OutOfFuel <-> (8 <= length payload)%nat /\ port <> 68 /\
     port = dns_port s /\ handle_dns_packet fuel (dns_cache s) (drop 8 payload) = OutOfFuel).
Proof.
  intros Hdns port. unfold handle_udp, try_from_u8_buffer. cbn [get_size UdpHeader.header].
  destruct (Nat.ltb_spec (length payload) 8) as [Hl|Hl]; [split; (split; [done|lia])|].
  fold port. destruct (Z.eqb_spec port 68) as [Hp|Hp].
  { destruct (handle_dhcp_stops d s (drop 8 payload)) as [H1 H2]. split; [rewrite H1; tauto | tauto]. }
  unfold get_dns_port. rewrite (proj2 (Z.eqb_neq _ 0)) by done. cbn [mbind outcome_bind].
  destruct (Z.eqb_spec port (dns_port s)) as [Hq|Hq].
  - pose proof (handle_dns_no_panic fuel (dns_cache s) (drop 8 payload)) as Hn.
    destruct (handle_dns_packet fuel (dns_cache s) (drop 8 payload)) as [[[u|u] c]| |];
      cbn [mbind outcome_bind]; split; naive_solver.
  - destruct (handle_udp_packet _ _ _ _ _). split; naive_solver.
Qed.

Lemma handle_tcp_ends (d : NetDevice) (s : Shared) (src dst : Ipv4Address.t) (payload : list Z) :
  sock_inv (sockets s) -> id_left (sockets s) -> exists r, handle_tcp live d s src dst payload = Done r.
Proof.
  intros Hinv Hleft. unfold handle_tcp. destruct (try_from_u8_buffer payload) as [h|]; [|by eauto].
  destruct (tcp_packet_inv live (sockets s) dst (u16_swap (TcpHeader.dest_port h)) src h
    (drop (get_size TcpHeader.t) payload) Hinv Hleft) as (n & e & -> & _).
  cbn [of_option mbind outcome_bind]. by eauto.
Qed.
Lemma total_length_range (b : list Z) : Forall is_u8 b -> 0 <= buffer_total_length b < 2 ^ 16.
Proof.
  intros Hb. unfold buffer_total_length. apply u16_swap_range.
  assert (Hat : forall i l, Forall is_u8 l -> is_u8 (byte_at l i)).
  { intros i l Hl. unfold byte_at. rewrite nth_lookup. destruct (l !! i) eqn:E; [|cbn; word].
    by apply (Forall_lookup_1 _ _ _ _ Hl E). }
  cbn [buffer_ip of_u8_buffer Ipv4Header.header Ipv4Header.total_length]. unfold load16.
  pose proof (Hat 2%nat (drop 14 b) (Forall_drop _ _ _ Hb)).
  pose proof (Hat (2 + 1)%nat (drop 14 b) (Forall_drop _ _ _ Hb)). word.
Qed.

Lemma payload_length (b : list Z) :
  length b = READ_BUFFER_LEN -> length_in_buffer b ->
  (8 <= length (buffer_payload b))%nat <-> 28 <= buffer_total_length b.
Proof.
  unfold length_in_buffer, buffer_payload, READ_BUFFER_LEN. intros Hl Ht.
  rewrite length_take, length_drop. lia.
Qed.

Lemma handle_frame_stops (d : NetDevice) (s : Shared) :
  length (read_buffer d) = READ_BUFFER_LEN -> Forall is_u8 (read_buffer d) ->
  sock_inv (sockets s) -> id_left (sockets s) -> dns_port s <> 0 ->
  let b := read_buffer d in
  let data := drop 8 (buffer_payload b) in
  (handle_frame live now fuel d s = Panic <->
     is_ip_frame b /\ (~ length_in_buffer b \/
       is_datagram b 68 /\ process_packet now (dhcp_state d) (mac d) data = Panic)) /\
  (handle_frame live now fuel d s = OutOfFuel <->
     is_datagram b (dns_port s) /\ dns_port s <> 68 /\
     handle_dns_packet fuel (dns_cache s) data = OutOfFuel).
Proof.
  intros Hl Hb Hinv Hleft Hdns b data. unfold handle_frame, try_from_u8_buffer.
  rewrite Hl. cbn [get_size EthernetFrameHeader.header READ_BUFFER_LEN Nat.ltb Nat.leb].
  fold b. change (EthernetFrameHeader.get_ethertype (of_u8_buffer b)) with (buffer_ethertype b).
  unfold is_datagram, is_ip_frame.
  destruct (Z.eqb_spec (buffer_ethertype b) EthernetFrameHeader.ETHERTYPE_ARP) as [->|Harp].
  { unfold handle_arp_packet, try_from_u8_buffer. rewrite length_drop, Hl.
    cbn [get_size ArpPacket.header READ_BUFFER_LEN Nat.ltb Nat.leb Nat.sub of_option mbind outcome_bind].
    destruct (ArpPacket.is_request _); split; split; try done; intros [? ?]; naive_solver. }
  destruct (Z.eqb_spec (buffer_ethertype b) EthernetFrameHeader.ETHERTYPE_IP) as [Hty|Hty];
    [|split; naive_solver].
  unfold handle_ip_packet, try_from_u8_buffer. fold b. rewrite length_drop. change (length b) with (length (read_buffer d)).
  rewrite Hl. cbn [get_size Ipv4Header.header READ_BUFFER_LEN Nat.ltb Nat.leb Nat.sub of_option mbind outcome_bind].
  change (of_u8_buffer (drop 14 b)) with (buffer_ip b).
  change (u16_swap (Ipv4Header.total_length (buffer_ip b))) with (buffer_total_length b).
  change (14 + 20)%nat with 34%nat. change (Z.of_nat 20) with 20.
  rewrite slice_payload by (first [done | by apply total_length_range]).
  destruct (decide (length_in_buffer b)) as [Hin|Hin]; cbn [mbind outcome_bind]; [|naive_solver].
  destruct (Z.eqb_spec (Ipv4Header.protocol (buffer_ip b)) (protocol_code Udp)) as [Hu|Hu].
  - pose proof (payload_length b Hl Hin) as Hp.
    destruct (handle_udp_stops d s (Ipv4Header.source (buffer_ip b)) (buffer_payload b) Hdns) as [H1 H2].
    change (u16_swap _) with (buffer_udp_port b) in H1, H2. rewrite H1, H2, Hp. fold data.
    split; [tauto|]. split.
    + intros (? & ? & Hq & ?). rewrite <- Hq. tauto.
    + intros ((_ & _ & _ & ? & Hq) & ? & ?). rewrite Hq. tauto.
  - destruct (_ =? protocol_code Ipv4.Tcp); [|split; naive_solver].
    destruct (handle_tcp_ends d s (Ipv4Header.source (buffer_ip b)) (Ipv4Header.dest (buffer_ip b))
      (buffer_payload b) Hinv Hleft) as [r ->]. split; naive_solver.
Qed.
End Stops.

(** A read that has returned data. *)
Definition has_frame (d : NetDevice) : Prop :=
  is_open d = true /\
  exists n, active_read d = Some n /\ n .& 0x80000000 = 0 /\ n .& 0x7fffffff <> 0.

(** C18: Which frames stop the network task.  With consistent socket tables
    and the DNS port chosen, handling a read panics if and only if the frame
    is an IP packet whose length field is below the header size or past the
    buffer, or a datagram for port 68 on which the DHCP parser panics; it does
    not return if and only if the frame is a datagram for the DNS port on which
    the DNS parser does not.  Every other frame, ARP, TCP or UDP, malformed or
    not, is handled. *)
Theorem receive_stops (live : Z -> bool) (now : Z) (fuel : nat) (d : NetDevice) (s : Shared)
    (Hlen : length (read_buffer d) = READ_BUFFER_LEN) (Hbytes : Forall is_u8 (read_buffer d))
    (Hinv : sock_inv (sockets s)) (Hleft : id_left (sockets s)) (Hdns : dns_port s <> 0) :
  let b := read_buffer d in
  let data := drop 8 (buffer_payload b) in
  (process_read_result live now fuel d s = Panic <->
     has_frame d /\ is_ip_frame b /\ (~ length_in_buffer b \/
       is_datagram b 68 /\ process_packet now (dhcp_state d) (mac d) data = Panic)) /\
  (process_read_result live now fuel d s = OutOfFuel <->
     has_frame d /\ is_datagram b (dns_port s) /\ dns_port s <> 68 /\
     handle_dns_packet fuel (dns_cache s) data = OutOfFuel).
Proof.
  intros b data.
  destruct (handle_frame_stops live now fuel d s Hlen Hbytes Hinv Hleft Hdns) as [H1 H2].
  fold b data in H1, H2. unfold process_read_result, has_frame.
  destruct (active_read d) as [n|]; [|split; split; try done; intros ((_ & n & ? & _) & _); done].
  assert ((exists n', Some n = Some n' /\ n' .& 0x80000000 = 0 /\ n' .& 0x7fffffff <> 0) <->
    n .& 0x80000000 = 0 /\ n .& 0x7fffffff <> 0) as -> by (split; [by intros (? & [= <-] & ?) | eauto]).
  destruct (is_open d); cbn [negb]; [|destruct (negb _); split; split; try done; intros ((? & _) & _); done].
  destruct (Z.eqb_spec (n .& 0x80000000) 0); cbn [negb];
    [|split; split; try done; intros ((_ & ? & _) & _); done].
  destruct (Z.eqb_spec (n .& 0x7fffffff) 0); [split; split; try done; intros ((_ & _ & ?) & _); done|].
  assert (handle_frame live now fuel d s = Panic \/ handle_frame live now fuel d s = OutOfFuel \/
    exists e d' s' ef, handle_frame live now fuel d s = Done (e, d', s', ef)) as [E|[E|(ev & d' & s' & ef & E)]].
  { destruct (handle_frame live now fuel d s) as [[[[? ?] ?] ?]| |]; eauto 10. }
  all: rewrite E in *; cbn [mbind outcome_bind] in *; rewrite <- H1, <- H2; clear H1 H2; naive_solver.
Qed.

(** ** Examples *)

Definition example_mac : HardwareAddress.t := HardwareAddress.HardwareAddress 0x52 0x54 0 0x12 0x34 0x56.
Definition example_header : EthernetFrameHeader.t :=
  EthernetFrameHeader.new_ipv4 (HardwareAddress.HardwareAddress 2 0 0 0 0 1) example_mac.
Definition example_server : Ipv4Address.t := Ipv4Address 10 0 2 2.

(** An open device that has read [frame], in the middle of a DHCP exchange. *)
Definition example_device (frame : list Z) : NetDevice :=
  {| mac := example_mac; is_open := true; active_read := Some (Z.of_nat (length frame));
     read_buffer := frame ++ replicate (READ_BUFFER_LEN - length frame) 0; active_writes := [];
     known_arp := ∅;
     dhcp_state := {| local_ip := Progress 7; server_ip := Ipv4Address.default;
                      gateway_ip := Ipv4Address.default; subnet_mask := Ipv4Address.default;
                      dns_servers := [] |} |}.

(** A datagram frame for the device; the packet exists for every payload. *)
Definition example_datagram (sp dp : Z) (data : list Z) : list Z :=
  as_u8_buffer example_header ++
  default [] (create_datagram example_server sp (Ipv4Address 255 255 255 255) dp data).

(** Concrete bytes. *)
Ltac concrete_bytes :=
  match goal with |- ?P => let P' := eval vm_compute in P in change P' end;
  repeat first [apply Forall_nil_2 | apply Forall_cons_2; [by split|]].

Lemma example_header_ip : ip_frame example_header.
Proof. split; [|done]. split; [concrete_bytes|split; [concrete_bytes|by split]]. Qed.

Lemma example_received (frame : list Z) :
  (0 < length frame <= READ_BUFFER_LEN)%nat -> received (example_device frame) frame.
Proof. intros H. split; [done|]. by split. Qed.

Lemma example_datagram_length (sp dp : Z) (data : list Z) :
  length (example_datagram sp dp data) = (42 + length data)%nat.
Proof.
  unfold example_datagram. destruct (create_datagram_total example_server (Ipv4Address 255 255 255 255) sp dp data)
    as [p Hp]. rewrite Hp. cbv [from_option Datatypes.id].
  by rewrite length_app, as_u8_buffer_length, (create_datagram_length _ _ _ _ _ _ Hp).
Qed.

Lemma example_datagram_frame (sp dp : Z) (data : list Z) :
  is_u16 sp -> is_u16 dp -> Forall is_u8 data -> (length data <= 1400)%nat ->
  datagram_frame (example_device (example_datagram sp dp data)) example_server sp
    (Ipv4Address 255 255 255 255) dp data.
Proof.
  intros Hsp Hdp Hd Hl. split; [concrete_bytes | concrete_bytes | done..|].
  assert (Hr : received (example_device (example_datagram sp dp data)) (example_datagram sp dp data)).
  { apply example_received. rewrite example_datagram_length. unfold READ_BUFFER_LEN. lia. }
  unfold example_datagram in *.
  destruct (create_datagram_total example_server (Ipv4Address 255 255 255 255) sp dp data) as [p Hp].
  rewrite Hp in *. exists example_header, p. by split; [exact example_header_ip|].
Qed.

(** The option "subnet mask", cut off after its length. *)
Definition truncated_offer : list Z :=
  as_u8_buffer (client_packet example_mac example_server 7) ++ MAGIC ++ [0x01; 4].

(** A response whose question is a pointer to itself. *)
Definition looping_response : list Z := as_u8_buffer (response_header 0 0x8180 1) ++ [0xc0; 0x0c].

(** One malformed packet from the local network stops networking, and
    with it the kernel or its network task: an IP packet with a length field of
    zero and a DHCP reply whose last option is cut off both panic, and a DNS
    response with a name that points to itself keeps the task busy forever,
    whatever the state of the sockets. *)
Theorem malformed_frames_stop (live : Z -> bool) (now : Z) (s : Shared)
    (Hport : 1024 <= dns_port s < 65536) :
  (exists frame, received (example_device frame) frame /\
     forall fuel, process_read_result live now fuel (example_device frame) s = Panic) /\
  (let frame := example_datagram 67 68 truncated_offer in
   received (example_device frame) frame /\
   forall fuel, process_read_result live now fuel (example_device frame) s = Panic) /\
  (let frame := example_datagram 53 (dns_port s) looping_response in
   received (example_device frame) frame /\
   forall fuel, process_read_result live now fuel (example_device frame) s = OutOfFuel).
Proof.
  split; [|split].
  - exists (as_u8_buffer example_header ++ replicate 20 0). split; [by repeat split; vm_compute; lia|].
    intros fuel. vm_compute. reflexivity.
  - split; [by repeat split; vm_compute; lia|]. intros fuel. vm_compute. reflexivity.
  - split; [apply example_received; rewrite example_datagram_length; vm_compute; lia|]. intros fuel.
    assert (Hf : datagram_frame (example_device (example_datagram 53 (dns_port s) looping_response))
      example_server 53 (Ipv4Address 255 255 255 255) (dns_port s) looping_response)
      by (apply example_datagram_frame; [word|word|concrete_bytes|vm_compute; lia]).
    set (d := example_device _) in *.
    destruct (handle_frame_datagram live now fuel d s _ _ _ _ _ Hf) as (udp & _ & Hw & Hdp & E).
    assert (Hr : received d (example_datagram 53 (dns_port s) looping_response))
      by (apply example_received; rewrite example_datagram_length; vm_compute; lia).
    apply (process_stops live now fuel d s _ Hr). rewrite E. unfold handle_udp.
    rewrite try_from_as_u8_buffer by exact Hw. rewrite Hdp, (proj2 (Z.eqb_neq _ _)) by lia.
    unfold get_dns_port. rewrite (proj2 (Z.eqb_neq _ 0)) by lia. cbn [mbind outcome_bind].
    rewrite Z.eqb_refl, <- (as_u8_buffer_length udp), drop_app_length.
    unfold looping_response. rewrite pointer_loop_hangs; [done| |done..].
    repeat apply conj; by vm_compute.
Qed.

Lemma malformed_frames_stop_witness :
  let s := {| sockets := init_net; dns_port := 49152; dns_cache := ∅ |} in
  let frame := example_datagram 53 49152 looping_response in
  process_read_result (fun _ => true) 0 1000 (example_device frame) s = OutOfFuel.
Proof.
  intros s frame.
  assert (H : 1024 <= dns_port s < 65536) by (cbn; lia).
  exact (proj2 (proj2 (proj2 (malformed_frames_stop (fun _ => true) 0 s H))) 1000%nat).
Defined.

Lemma receive_stops_witness :
  let s := {| sockets := init_net; dns_port := 49152; dns_cache := ∅ |} in
  let d := example_device (as_u8_buffer example_header ++ replicate 20 0) in
  process_read_result (fun _ => true) 0 10 d s = Panic.
Proof.
  intros s d.
  assert (Hlen : length (read_buffer d) = READ_BUFFER_LEN) by (vm_compute; reflexivity).
  assert (Hbytes : Forall is_u8 (read_buffer d)) by concrete_bytes.
  assert (Hinv : sock_inv (sockets s)) by exact init_net_inv.
  assert (Hleft : id_left (sockets s)) by (vm_compute; split; congruence).
  assert (Hdns : dns_port s <> 0) by (cbn; lia).
  apply (proj1 (receive_stops (fun _ => true) 0 10 d s Hlen Hbytes Hinv Hleft Hdns)).
  split; [|split; [vm_compute; reflexivity|]].
  - split; [reflexivity|]. exists 34. vm_compute. repeat split; congruence.
  - left. vm_compute. intros [H _]. by apply H.
Defined.

(** A UDP socket bound to port 7777. *)
Definition example_shared : Shared :=
  {| sockets := set_local_ip (put_socket (set_active init_net {[ 7777 := 1 ]}) 1
                  (UdpSocket (UdpListener.new 7777))) (Ipv4Address 10 0 2 15);
     dns_port := 49152; dns_cache := ∅ |}.

Lemma udp_reply_misdirected_witness :
  let frame := example_datagram 1234 7777 [104; 105] in
  let message := Ipv4Address.octets example_server ++ le16 1234 ++ [104; 105] in
  exists s1 n2 n3 reply n,
    process_read_result (fun _ => true) 0 10 (example_device frame) example_shared =
      Done (None, after_read (example_device frame), s1, [DriverRead]) /\
    socket_io_read Some (sockets s1) 1 {| buf_vaddr := 0x1000; buf_len := 64 |} (1, 2, 3) =
      Some (Some (Ok (Z.of_nat (length message))), n2, [WriteVirtual 0x1000 message]) /\
    socket_io_write n2 1 (take 6 message ++ [79; 75]) (1, 2, 4) =
      Some (Some (Ok n), n3, [NetRespond example_server reply; CompleteOp (1, 2, 4) (Ok n)]) /\
    create_datagram (Ipv4Address 10 0 2 15) 7777 example_server (u16_swap 1234) [79; 75] = Some reply.
Proof.
  intros frame message.
  assert (Hf : datagram_frame (example_device frame) example_server 1234 (Ipv4Address 255 255 255 255)
                 7777 [104; 105]) by (apply example_datagram_frame; [word|word|concrete_bytes|simpl; lia]).
  assert (Hs : idle_udp example_shared 7777 1 (UdpListener.new 7777)) by (split; done).
  exact (udp_reply_misdirected (fun _ => true) 0 10 Some (example_device frame) example_shared
    example_server _ (Ipv4Address 10 0 2 15) 1234 7777 1 [104; 105] [79; 75] (UdpListener.new 7777)
    {| buf_vaddr := 0x1000; buf_len := 64 |} (1, 2, 3) (1, 2, 4) Hf Hs eq_refl ltac:(cbn; lia)).
Defined.
