(* ===== verification/Random.v ===== *)
(** * Random numbers

    [kernel/src/random.rs]: the entropy pool, the ChaCha generator and
    [get_random_bytes].  The two statics are one record.  The arrays keep their
    length, and every index of the code is a constant below it or reduced
    modulo it, so reads and writes are total.  [now] is
    [Timestamp::now().as_u32()]. *)

From S2P Require Import Prelude NetPacket.

(** ** The entropy pool *)

Record EntropyPool := {
  pool : list Z;
  index : nat
}.

Definition POOL_LEN : nat := 44.

Definition pool_new : EntropyPool := {| pool := replicate POOL_LEN 0; index := 0 |}.

Definition initialize_entropy_pool : EntropyPool :=
  {| pool := (fun i => u8 (u8 (Z.of_nat i) + 1)) <$> seq 0 POOL_LEN; index := 0 |}.

Definition get (l : list Z) (i : nat) : Z := l !!! i.

(** The loop over [i in 0..8]. *)
Fixpoint mix (n : nat) (i : Z) (data : Z) (p : EntropyPool) : EntropyPool :=
  match n with
  | O => p
  | S n =>
      let v := Z.lxor (get (pool p) (index p)) (u8 (data ≫ (i * 4))) in
      mix n (i + 1) data
        {| pool := <[index p := v]> (pool p); index := ((index p + 1) mod length (pool p))%nat |}
  end.
Definition add_entropy (data : Z) (p : EntropyPool) : EntropyPool := mix 8 0 data p.

(** ** ChaCha *)

Record ChaChaRng := {
  state : list Z;
  keystream : list Z;
  keystream_index : nat;
  last_reseed : Z;
  generated_count : Z
}.

Definition set_state (r : ChaChaRng) (s : list Z) : ChaChaRng :=
  {| state := s; keystream := keystream r; keystream_index := keystream_index r;
     last_reseed := last_reseed r; generated_count := generated_count r |}.
Definition set_index (r : ChaChaRng) (i : nat) : ChaChaRng :=
  {| state := state r; keystream := keystream r; keystream_index := i;
     last_reseed := last_reseed r; generated_count := generated_count r |}.

(** [u32::from_le_bytes] of four bytes of [b]. *)
Definition word_at (b : list Z) (i : nat) : Z := load32 b i.

Definition initial_state (key nonce : list Z) : list Z :=
  [0x61707865; 0x3320646e; 0x79622d32; 0x6b206574;
   word_at key 0; word_at key 4; word_at key 8; word_at key 12;
   word_at key 16; word_at key 20; word_at key 24; word_at key 28;
   0; word_at nonce 0; word_at nonce 4; word_at nonce 8].

Definition rng_new (key nonce : list Z) : ChaChaRng :=
  {| state := initial_state key nonce; keystream := replicate 64 0; keystream_index := 64;
     last_reseed := 0; generated_count := 0 |}.

Definition rotate_left (x n : Z) : Z := u32 (x ≪ n) .| (x ≫ (32 - n)).

(** Each line of [quarter_round] is one assignment to [self.state]. *)
Definition quarter_round (a b c d : nat) (s : list Z) : list Z :=
  let s := <[a := u32 (get s a + get s b)]> s in
  let s := <[d := Z.lxor (get s d) (get s a)]> s in
  let s := <[d := rotate_left (get s d) 16]> s in
  let s := <[c := u32 (get s c + get s d)]> s in
  let s := <[b := Z.lxor (get s b) (get s c)]> s in
  let s := <[b := rotate_left (get s b) 12]> s in
  let s := <[a := u32 (get s a + get s b)]> s in
  let s := <[d := Z.lxor (get s d) (get s a)]> s in
  let s := <[d := rotate_left (get s d) 8]> s in
  let s := <[c := u32 (get s c + get s d)]> s in
  let s := <[b := Z.lxor (get s b) (get s c)]> s in
  let s := <[b := rotate_left (get s b) 7]> s in
  s.

Definition double_round (s : list Z) : list Z :=
  let s := quarter_round 0 4 8 12 s in
  let s := quarter_round 1 5 9 13 s in
  let s := quarter_round 2 6 10 14 s in
  let s := quarter_round 3 7 11 15 s in
  let s := quarter_round 0 5 10 15 s in
  let s := quarter_round 1 6 11 12 s in
  let s := quarter_round 2 7 8 13 s in
  let s := quarter_round 3 4 9 14 s in
  s.

(** [for i in 0..16]: sum, and the four bytes of each word. *)
Definition add_states (working_state s : list Z) : list Z :=
  (fun i => u32 (get working_state i + get s i)) <$> seq 0 16.
Definition word_bytes (w : Z) : list Z :=
  [w .& 0xff; (w ≫ 8) .& 0xff; (w ≫ 16) .& 0xff; (w ≫ 24) .& 0xff].

Definition generate_keystream (r : ChaChaRng) : ChaChaRng :=
  let working_state := state r in
  let s := Nat.iter 10 double_round (state r) in
  let working_state := add_states working_state s in
  let keystream := concat (word_bytes <$> working_state) in
  let s := <[12%nat := u32 (get s 12 + 1)]> s in
  {| state := s; keystream := keystream; keystream_index := 0; last_reseed := last_reseed r;
     generated_count := generated_count r |}.

(** The [while] loop: the bytes still to fill, and the bytes filled.  Each
    turn fills at least one. *)
Fixpoint get_bytes_loop (fuel remaining : nat) (r : ChaChaRng) : option (list Z * ChaChaRng) :=
  match remaining with
  | O => Some ([], r)
  | S _ =>
      match fuel with
      | O => None
      | S fuel =>
          let r := if (length (keystream r) <=? keystream_index r)%nat then generate_keystream r else r in
          let to_copy := Nat.min remaining (length (keystream r) - keystream_index r) in
          let copied := take to_copy (drop (keystream_index r) (keystream r)) in
          let r := set_index r (keystream_index r + to_copy) in
          '(rest, r) ← get_bytes_loop fuel (remaining - to_copy) r;
          Some (copied ++ rest, r)
      end
  end.
Definition get_bytes (n : nat) (r : ChaChaRng) : option (list Z * ChaChaRng) := get_bytes_loop n n r.

(** ** The entry point *)

Record Random := {
  GLOBAL_ENTROPY_POOL : EntropyPool;
  GLOBAL_RNG : ChaChaRng
}.

Definition random_init : Random :=
  {| GLOBAL_ENTROPY_POOL := pool_new; GLOBAL_RNG := rng_new (replicate 32 0) (replicate 12 0) |}.

(** The bytes for a buffer of length [n]. *)
Definition get_random_bytes (now : Z) (n : nat) (g : Random) : option (list Z * Random) :=
  let rng := GLOBAL_RNG g in
  let rng :=
    if (60 * 5 <? u32 (now - last_reseed rng)) || (1000 <? generated_count rng) then
      let seed_bytes := pool (GLOBAL_ENTROPY_POOL g) in
      set_state rng (initial_state (take 32 seed_bytes) (take 12 (drop 32 seed_bytes)))
    else rng in
  '(bytes, rng) ← get_bytes n rng;
  Some (bytes, {| GLOBAL_ENTROPY_POOL := GLOBAL_ENTROPY_POOL g; GLOBAL_RNG := rng |}).

(** ** ChaCha20 of RFC 8439, on the rows of its matrix *)

Definition row : Type := Z * Z * Z * Z.

(** Section 2.1. *)
Definition quarter (a b c d : Z) : row :=
  let a := u32 (a + b) in let d := rotate_left (Z.lxor d a) 16 in
  let c := u32 (c + d) in let b := rotate_left (Z.lxor b c) 12 in
  let a := u32 (a + b) in let d := rotate_left (Z.lxor d a) 8 in
  let c := u32 (c + d) in let b := rotate_left (Z.lxor b c) 7 in
  (a, b, c, d).

Definition rot1 (r : row) : row := let '(x0, x1, x2, x3) := r in (x1, x2, x3, x0).

(** The quarter round on each column of the four rows. *)
Definition columns (m : row * row * row * row) : row * row * row * row :=
  let '((a0, a1, a2, a3), (b0, b1, b2, b3), (c0, c1, c2, c3), (d0, d1, d2, d3)) := m in
  let '(a0, b0, c0, d0) := quarter a0 b0 c0 d0 in
  let '(a1, b1, c1, d1) := quarter a1 b1 c1 d1 in
  let '(a2, b2, c2, d2) := quarter a2 b2 c2 d2 in
  let '(a3, b3, c3, d3) := quarter a3 b3 c3 d3 in
  ((a0, a1, a2, a3), (b0, b1, b2, b3), (c0, c1, c2, c3), (d0, d1, d2, d3)).

(** The diagonals become columns when row [i] is rotated by [i]. *)
Definition diagonals (m : row * row * row * row) : row * row * row * row :=
  let '(a, b, c, d) := m in
  let '(a, b, c, d) := columns (a, rot1 b, rot1 (rot1 c), rot1 (rot1 (rot1 d))) in
  (a, rot1 (rot1 (rot1 b)), rot1 (rot1 c), rot1 d).

Definition rows (s : list Z) : row * row * row * row :=
  let r := fun i => (get s i, get s (i + 1), get s (i + 2), get s (i + 3)) in
  (r 0%nat, r 4%nat, r 8%nat, r 12%nat).
Definition unrow (r : row) : list Z := let '(x0, x1, x2, x3) := r in [x0; x1; x2; x3].
Definition unrows (m : row * row * row * row) : list Z :=
  let '(a, b, c, d) := m in unrow a ++ unrow b ++ unrow c ++ unrow d.

(** Section 2.3, with the words and the key stream of the block. *)
Definition chacha20_block (key nonce : list Z) (counter : Z) : list Z :=
  let init := <[12%nat := counter]> (initial_state key nonce) in
  let final := unrows (Nat.iter 10 (fun m => diagonals (columns m)) (rows init)) in
  concat ((fun p => le32 (u32 (p.1 + p.2))) <$> zip init final).

(** ** The code computes the first block *)

Lemma list_16 (s : list Z) : length s = 16%nat ->
  exists s0 s1 s2 s3 s4 s5 s6 s7 s8 s9 s10 s11 s12 s13 s14 s15,
    s = [s0; s1; s2; s3; s4; s5; s6; s7; s8; s9; s10; s11; s12; s13; s14; s15].
Proof. intros H. do 16 (destruct s as [|? s]; [done|]). destruct s; [|done]. repeat eexists. Qed.

(** One quarter round of the code on sixteen words, as the quarter round of
    the reference on four of them. *)
Local Ltac quarter_step :=
  match goal with |- context [quarter_round ?i ?j ?k ?l (?x :: ?xs)] =>
    let s := constr:(x :: xs) in
    let a := eval cbv in (get s i) in let b := eval cbv in (get s j) in
    let c := eval cbv in (get s k) in let d := eval cbv in (get s l) in
    let E := fresh in
    assert (E : quarter_round i j k l s =
      let '(a', b', c', d') := quarter a b c d in
      <[i := a']> (<[j := b']> (<[k := c']> (<[l := d']> s))))
      by (cbv beta iota zeta delta [quarter_round get quarter insert list_insert lookup_total
            list_lookup_total]; reflexivity);
    rewrite E; clear E;
    destruct (quarter a b c d) as [[[? ?] ?] ?] eqn:?; cbn [insert list_insert]
  end.

Lemma double_round_rows (s : list Z) : length s = 16%nat ->
  double_round s = unrows (diagonals (columns (rows s))).
Proof.
  intros (s0 & s1 & s2 & s3 & s4 & s5 & s6 & s7 & s8 & s9 & s10 & s11 & s12 & s13 & s14 & s15 & ->)%list_16.
  unfold double_round. cbv zeta. do 8 quarter_step.
  cbn -[quarter]. repeat (match goal with H : quarter _ _ _ _ = _ |- _ => rewrite H; cbn -[quarter] end).
  reflexivity.
Qed.

Lemma unrows_length (m : row * row * row * row) : length (unrows m) = 16%nat.
Proof. by destruct m as [[[[[[? ?] ?] ?] [[[? ?] ?] ?]] [[[? ?] ?] ?]] [[[? ?] ?] ?]]. Qed.

Lemma rows_unrows (m : row * row * row * row) : rows (unrows m) = m.
Proof. by destruct m as [[[[[[? ?] ?] ?] [[[? ?] ?] ?]] [[[? ?] ?] ?]] [[[? ?] ?] ?]]. Qed.

Lemma unrows_rows (s : list Z) : length s = 16%nat -> unrows (rows s) = s.
Proof.
  by intros (s0 & s1 & s2 & s3 & s4 & s5 & s6 & s7 & s8 & s9 & s10 & s11 & s12 & s13 & s14 & s15 & ->)%list_16.
Qed.

Lemma rounds_rows (n : nat) (s : list Z) : length s = 16%nat ->
  Nat.iter n double_round s = unrows (Nat.iter n (fun m => diagonals (columns m)) (rows s)).
Proof.
  intros Hs. induction n as [|n IH]; [symmetry; by apply unrows_rows|].
  rewrite !Nat.iter_succ, IH, double_round_rows, rows_unrows by apply unrows_length. done.
Qed.

Lemma word_bytes_le (w : Z) : is_u32 w -> word_bytes w = le32 w.
Proof.
  intros Hw. unfold word_bytes, le32. change 0xff with (Z.ones 8).
  rewrite !Z.land_ones, !Z.shiftr_div_pow2 by lia. change (2 ^ 8) with 256.
  do 3 f_equal. f_equal. apply Z.mod_small. unfold is_u32 in Hw. split.
  - apply Z.div_pos; lia.
  - apply Z.div_lt_upper_bound; lia.
Qed.

(** The key stream that [generate_keystream] makes from a state. *)
Definition block_of (s : list Z) : list Z :=
  concat ((fun p => le32 (u32 (p.1 + p.2))) <$>
    zip s (unrows (Nat.iter 10 (fun m => diagonals (columns m)) (rows s)))).

Lemma generate_block (r : ChaChaRng) : length (state r) = 16%nat ->
  keystream (generate_keystream r) = block_of (state r).
Proof.
  intros Hs. cbn [generate_keystream keystream]. rewrite rounds_rows by done. unfold block_of.
  set (m := Nat.iter 10 _ _). clearbody m.
  destruct (list_16 _ Hs) as (s0 & s1 & s2 & s3 & s4 & s5 & s6 & s7 & s8 & s9 & s10 & s11 & s12 & s13 & s14 & s15 & ->).
  destruct (list_16 _ (unrows_length m)) as
    (t0 & t1 & t2 & t3 & t4 & t5 & t6 & t7 & t8 & t9 & t10 & t11 & t12 & t13 & t14 & t15 & ->).
  assert (E : forall x y, word_bytes (u32 (x + y)) = le32 (u32 (x + y))).
  { intros x y. apply word_bytes_le. word. }
  cbn -[le32 word_bytes u32]. by rewrite !E.
Qed.

Lemma initial_state_length (key nonce : list Z) : length (initial_state key nonce) = 16%nat.
Proof. done. Qed.

Lemma first_block (key nonce : list Z) :
  keystream (generate_keystream (rng_new key nonce)) = chacha20_block key nonce 0.
Proof.
  rewrite generate_block by reflexivity. unfold chacha20_block.
  assert (<[12%nat := 0]> (initial_state key nonce) = initial_state key nonce) as -> by reflexivity.
  reflexivity.
Qed.

(** The generator is ChaCha20 for one block only.  For every key and
    nonce the first key stream of a new generator is the block of RFC 8439 with
    counter 0, but [generate_keystream] runs the rounds on the stored state
    itself: the second key stream is not the block with counter 1. *)
Theorem chacha_first_block_only :
  (forall key nonce,
     keystream (generate_keystream (rng_new key nonce)) = chacha20_block key nonce 0) /\
  (let key := replicate 32 0 in let nonce := replicate 12 0 in
   keystream (generate_keystream (generate_keystream (rng_new key nonce))) <> chacha20_block key nonce 1).
Proof.
  split; [intros; apply first_block|]. cbv zeta. intros H. apply (f_equal (take 4)) in H. vm_compute in H. congruence.
Qed.

(** The vectors of the unit tests and of RFC 8439, sections 2.3.2 and A.1. *)
Lemma chacha_vector_zero :
  take 16 (chacha20_block (replicate 32 0) (replicate 12 0) 0) =
    [0x76; 0xb8; 0xe0; 0xad; 0xa0; 0xf1; 0x3d; 0x90; 0x40; 0x5d; 0x6a; 0xe5; 0x53; 0x86; 0xbd; 0x28].
Proof. vm_compute. reflexivity. Qed.

Lemma chacha_vector_rfc :
  take 16 (chacha20_block (Z.of_nat <$> seq 0 32) [0; 0; 0; 9; 0; 0; 0; 0x4a; 0; 0; 0; 0] 1) =
    [0x10; 0xf1; 0xe7; 0xe4; 0xd1; 0x3b; 0x59; 0x15; 0x50; 0x0f; 0xdd; 0x1f; 0xa3; 0x20; 0x71; 0xc4].
Proof. vm_compute. reflexivity. Qed.

(** ** Bytes of the key stream *)

Lemma block_of_length (s : list Z) : length s = 16%nat -> length (block_of s) = 64%nat.
Proof.
  intros Hs. unfold block_of. set (m := Nat.iter 10 _ _). clearbody m.
  destruct (list_16 _ Hs) as (s0 & s1 & s2 & s3 & s4 & s5 & s6 & s7 & s8 & s9 & s10 & s11 & s12 & s13 & s14 & s15 & ->).
  destruct (list_16 _ (unrows_length m)) as
    (t0 & t1 & t2 & t3 & t4 & t5 & t6 & t7 & t8 & t9 & t10 & t11 & t12 & t13 & t14 & t15 & ->).
  reflexivity.
Qed.

(** One turn of the loop that ends it. *)
Lemma get_bytes_last (fuel n : nat) (r : ChaChaRng) :
  (0 < n)%nat -> (1 <= fuel)%nat ->
  let r' := if (length (keystream r) <=? keystream_index r)%nat then generate_keystream r else r in
  (n <= length (keystream r') - keystream_index r')%nat ->
  get_bytes_loop fuel n r =
    Some (take n (drop (keystream_index r') (keystream r')), set_index r' (keystream_index r' + n)).
Proof.
  intros Hn Hf r' Hr. destruct n as [|n]; [lia|]. destruct fuel as [|fuel]; [lia|].
  cbn [get_bytes_loop]. fold r'. rewrite Nat.min_l, Nat.sub_diag by lia.
  destruct fuel; cbn [get_bytes_loop mbind option_bind]; by rewrite app_nil_r.
Qed.

(** A request of at most one block: the rest of the current block, and the
    start of the next one if that is not enough. *)
Lemma get_bytes_block (n : nat) (r : ChaChaRng) :
  length (keystream r) = 64%nat -> length (state r) = 16%nat -> (keystream_index r <= 64)%nat -> (n <= 64)%nat ->
  let i := keystream_index r in
  get_bytes n r =
    if decide (n <= 64 - i)%nat then Some (take n (drop i (keystream r)), set_index r (i + n))
    else Some (drop i (keystream r) ++ take (n - (64 - i)) (block_of (state r)),
               set_index (generate_keystream r) (n - (64 - i))).
Proof.
  intros Hk Hs Hi Hn i. unfold get_bytes. pose proof (block_of_length _ Hs) as Hb.
  rewrite <- (generate_block r Hs) in *.
  destruct (decide (n = 0%nat)) as [->|Hn0].
  { rewrite decide_True by lia. simpl. do 2 f_equal. rewrite Nat.add_0_r. by destruct r. }
  destruct (decide (i = 64%nat)) as [Hi64|Hi64].
  - rewrite decide_False by lia. rewrite (get_bytes_last n n r); rewrite ?Hk; fold i; rewrite ?Hi64; cbn [Nat.leb];
      [|lia|lia|cbn [keystream_index generate_keystream]; rewrite Hb; lia].
    cbn [keystream_index generate_keystream]. rewrite drop_0, (drop_ge (keystream r)) by lia.
    by replace (n - (64 - 64))%nat with n by lia.
  - case_decide.
    + rewrite (get_bytes_last n n r); rewrite ?Hk; fold i; rewrite ?(proj2 (Nat.leb_gt 64 i)) by lia; done || lia.
    + destruct n as [|n]; [lia|]. cbn [get_bytes_loop]. rewrite Hk. fold i.
      rewrite (proj2 (Nat.leb_gt 64 i)), Hk by lia. fold i. rewrite Nat.min_r by lia.
      set (r1 := set_index r _). rewrite (get_bytes_last n _ r1);
        replace (length (keystream r1) <=? keystream_index r1)%nat with true
          by (symmetry; apply Nat.leb_le; cbn [r1 set_index keystream keystream_index]; lia);
        [|lia|lia|cbn [keystream_index generate_keystream]; change (generate_keystream r1) with (generate_keystream r); lia].
      cbn [mbind option_bind]. rewrite (take_ge (drop i _)) by (rewrite length_drop; lia).
      rewrite drop_0. done.
Qed.

(** ** The key stream repeats *)

(** The block that a reseed from the pool leads to. *)
Definition seed_block (p : EntropyPool) : list Z :=
  chacha20_block (take 32 (pool p)) (take 12 (drop 32 (pool p))) 0.

(** The generator holds a block of the pool's seed, or none. *)
Record on_seed (g : Random) : Prop := {
  os_ks : length (keystream (GLOBAL_RNG g)) = 64%nat;
  os_state : length (state (GLOBAL_RNG g)) = 16%nat;
  os_index : (keystream_index (GLOBAL_RNG g) <= 64)%nat;
  os_block : keystream_index (GLOBAL_RNG g) = 64%nat \/ keystream (GLOBAL_RNG g) = seed_block (GLOBAL_ENTROPY_POOL g);
  os_reseed : last_reseed (GLOBAL_RNG g) = 0
}.

Lemma seed_block_eq (p : EntropyPool) :
  seed_block p = block_of (initial_state (take 32 (pool p)) (take 12 (drop 32 (pool p)))).
Proof.
  unfold seed_block. rewrite <- first_block. by rewrite generate_block by reflexivity.
Qed.

Lemma get_random_bytes_seed (now : Z) (n : nat) (g : Random) :
  on_seed g -> 300 < now < 2 ^ 32 -> (n <= 64)%nat ->
  let K := seed_block (GLOBAL_ENTROPY_POOL g) in
  let i := keystream_index (GLOBAL_RNG g) in
  exists out g', get_random_bytes now n g = Some (out, g') /\ length out = n /\ on_seed g' /\
    GLOBAL_ENTROPY_POOL g' = GLOBAL_ENTROPY_POOL g /\
    ((i + n) mod 64 = keystream_index (GLOBAL_RNG g') mod 64)%nat /\
    forall k, (k < n)%nat -> out !! k = K !! ((i + k) mod 64)%nat.
Proof.
  intros [Hk Hs Hi Hblk Hl] Hnow Hn K i. unfold get_random_bytes.
  rewrite Hl, Z.sub_0_r. replace (u32 now) with now by word.
  rewrite (proj2 (Z.ltb_lt _ _)) by lia. cbn [orb].
  set (r := set_state _ _). assert (Hr : length (state r) = 16%nat) by done.
  assert (HK : block_of (state r) = K) by (symmetry; apply seed_block_eq).
  assert (EK : seed_block (GLOBAL_ENTROPY_POOL g) = K) by reflexivity. clearbody K. rewrite EK in Hblk.
  pose proof (block_of_length _ Hr) as HK64. rewrite HK in HK64.
  rewrite (get_bytes_block n r) by done. change (keystream_index r) with i in *. rewrite HK.
  change (keystream r) with (keystream (GLOBAL_RNG g)). fold i in Hi, Hblk.
  destruct (decide (n <= 64 - i)%nat) as [Hd|Hd]; cbn [mbind option_bind]; eexists _, _; (split; [reflexivity|]).
  - split; [rewrite length_take, length_drop; lia|]. split.
    { split; cbn [GLOBAL_RNG GLOBAL_ENTROPY_POOL set_index keystream state keystream_index last_reseed];
        [exact Hk|reflexivity|lia| |exact Hl]. destruct Hblk as [H|H]; [left; lia|right; rewrite EK; exact H]. }
    split; [reflexivity|]. split; [reflexivity|]. intros k Hlt.
    rewrite lookup_take_lt, lookup_drop by lia. rewrite Nat.mod_small by lia.
    destruct Hblk as [? | ->]; [lia|reflexivity].
  - split; [rewrite length_app, length_take, length_drop; lia|]. split.
    { split; cbn [GLOBAL_RNG GLOBAL_ENTROPY_POOL set_index keystream state keystream_index last_reseed];
        [|reflexivity|lia|right|exact Hl]; rewrite (generate_block r Hr), HK; [exact HK64|symmetry; exact EK]. }
    split; [reflexivity|]. split.
    { cbn [GLOBAL_RNG set_index keystream_index]. replace (i + n)%nat with (n - (64 - i) + 1 * 64)%nat by lia.
      by rewrite Nat.Div0.mod_add. }
    intros k Hlt. destruct (decide (k < 64 - i)%nat).
    + rewrite lookup_app_l, lookup_drop, Nat.mod_small by (rewrite ?length_drop; lia).
      destruct Hblk as [? | ->]; [lia|reflexivity].
    + rewrite lookup_app_r, length_drop, Hk, lookup_take_lt by (rewrite ?length_drop; lia).
      replace (i + k)%nat with (k - (64 - i) + 1 * 64)%nat by lia.
      by rewrite Nat.Div0.mod_add, Nat.mod_small by lia.
Qed.

(** Calls of [get_random_bytes], each with its time and size, and all the
    bytes they return. *)
Fixpoint run_calls (calls : list (Z * nat)) (g : Random) : option (list Z * Random) :=
  match calls with
  | [] => Some ([], g)
  | (now, n) :: calls =>
      '(out, g) ← get_random_bytes now n g;
      '(rest, g) ← run_calls calls g;
      Some (out ++ rest, g)
  end.

(** The random numbers repeat every 64 bytes.  Neither the time of the
    last reseed nor the count of generated bytes is ever updated, so every call
    resets the generator to the seed of the pool: while no entropy is added,
    the bytes of any sequence of requests of at most 64 bytes each are the
    first ChaCha20 block of the pool, over and over. *)
Theorem random_bytes_repeat (calls : list (Z * nat)) (g : Random)
    (Hg : on_seed g) (Hcalls : Forall (fun c => 300 < c.1 < 2 ^ 32 /\ (c.2 <= 64)%nat) calls) :
  let K := seed_block (GLOBAL_ENTROPY_POOL g) in
  exists out g', run_calls calls g = Some (out, g') /\
    length out = sum_list (calls.*2) /\ on_seed g' /\
    forall k, (k < length out)%nat ->
      out !! k = K !! ((keystream_index (GLOBAL_RNG g) + k) mod 64)%nat.
Proof.
  revert g Hg. induction Hcalls as [|[now n] calls [Hnow Hn] _ IH]; intros g Hg K.
  { exists [], g. split; [reflexivity|]. split; [reflexivity|]. split; [exact Hg|]. simpl. lia. }
  destruct (get_random_bytes_seed now n g Hg Hnow Hn) as (out & g1 & E & Hlen & Hg1 & Hp & Hi & Ho).
  destruct (IH g1 Hg1) as (rest & g2 & Er & Hlr & Hg2 & Hr).
  exists (out ++ rest), g2. cbn [run_calls]. rewrite E. cbn [mbind option_bind]. rewrite Er.
  split; [reflexivity|]. split; [rewrite length_app, Hlen, Hlr; reflexivity|]. split; [exact Hg2|].
  intros k Hk. rewrite length_app in Hk. destruct (decide (k < n)%nat).
  - rewrite lookup_app_l by lia. by apply Ho.
  - rewrite lookup_app_r, Hr by lia. rewrite Hp. fold K. f_equal.
    rewrite <- Nat.Div0.add_mod_idemp_l, <- Hi, Nat.Div0.add_mod_idemp_l. f_equal. lia.
Qed.

(** At boot: two requests of 64 bytes return the same bytes. *)
Lemma random_bytes_repeat_witness :
  exists out g', run_calls [(1000, 64%nat); (2000, 64%nat)] random_init = Some (out, g') /\
    length out = 128%nat /\ on_seed g' /\
    forall k, (k < length out)%nat ->
      out !! k = seed_block (GLOBAL_ENTROPY_POOL random_init) !! ((64 + k) mod 64)%nat.
Proof.
  assert (Hg : on_seed random_init).
  { split; [reflexivity|reflexivity|cbn; lia|by left|reflexivity]. }
  assert (Hc : Forall (fun c => 300 < c.1 < 2 ^ 32 /\ (c.2 <= 64)%nat) [(1000, 64%nat); (2000, 64%nat)])
    by (repeat constructor; cbn; lia).
  exact (random_bytes_repeat [(1000, 64%nat); (2000, 64%nat)] random_init Hg Hc).
Defined.

(** ** The pool *)

(** Bytes stay bytes and the index stays inside, whatever is mixed in. *)
Definition pool_ok (p : EntropyPool) : Prop :=
  length (pool p) = POOL_LEN /\ Forall is_u8 (pool p) /\ (index p < POOL_LEN)%nat.

Lemma mix_ok (n : nat) (i data : Z) (p : EntropyPool) : pool_ok p -> pool_ok (mix n i data p).
Proof.
  revert i p. induction n as [|n IH]; intros i p (Hl & Hb & Hi); [done|]. cbn [mix]. apply IH.
  split; [cbn; by rewrite length_insert|]. split; cbn [pool index].
  - apply Forall_insert; [done|].
    assert (Hg : is_u8 (get (pool p) (index p))).
    { unfold get. apply (Forall_lookup_total_1 _ _ _ Hb). lia. }
    assert (Hx : forall a b, is_u8 a -> is_u8 b -> is_u8 (Z.lxor a b)).
    { intros a b Ha Hb'. unfold is_u8 in *. split; [apply Z.lxor_nonneg; lia|].
      destruct (Z.eq_dec (Z.lxor a b) 0) as [->|]; [lia|]. apply Z.log2_lt_pow2; [pose proof (Z.lxor_nonneg a b); lia|].
      pose proof (Z.log2_lxor a b ltac:(lia) ltac:(lia)).
      assert (forall x, 0 <= x < 2 ^ 8 -> Z.log2 x < 8) as Hlog.
      { intros x Hx. destruct (Z.eq_dec x 0) as [->|]; [done|]. apply Z.log2_lt_pow2; lia. }
      pose proof (Hlog a Ha). pose proof (Hlog b Hb'). lia. }
    apply Hx; [done | word].
  - rewrite Hl. apply Nat.mod_upper_bound. unfold POOL_LEN. lia.
Qed.
