(* ===== verification/Executor.v ===== *)
(** * The async executor

    [kernel/src/executor/mod.rs]: tasks that are futures, the queue of tasks to
    poll, and the registry of events they wait for.

    A future is the code of an [async] block as data: [Act] is the code up to
    the next suspension point, run on a world [W] with calls [Eff] to the
    outside; [WaitFor] is a [WaitForEvent] that is awaited, with its
    [registered] flag.  A [Waker] is the id of its task: waking pushes the id
    on the run queue.  (The [waker] field of [AsyncTask] caches it.) *)

From S2P Require Import Prelude Outcome.

Section Executor.
Context {E W Eff : Type} `{Countable E}.

(** ** Events *)

Record WaitEventState := {
  fired : bool;
  refcount : Z
}.

Record WakerRegistry := {
  wakers : gmap E (list Z);
  events : gmap E WaitEventState
}.

Definition registry_new : WakerRegistry := {| wakers := ∅; events := ∅ |}.

Definition register (self : WakerRegistry) (event : E) (waker : Z) : WakerRegistry :=
  {| wakers := <[event := default [] (wakers self !! event) ++ [waker]]> (wakers self);
     events := <[event := match events self !! event with
                          | Some state => {| fired := fired state; refcount := refcount state + 1 |}
                          | None => {| fired := false; refcount := 1 |}
                          end]> (events self) |}.

(** The registry, and the tasks that are woken. *)
Definition notify_event (self : WakerRegistry) (event : E) : WakerRegistry * list Z :=
  let woken := default [] (wakers self !! event) in
  ({| wakers := delete event (wakers self);
      events := match events self !! event with
                | Some state => <[event := {| fired := true; refcount := refcount state |}]> (events self)
                | None => events self
                end |}, woken).

Definition check_event (self : WakerRegistry) (event : E) : bool * WakerRegistry :=
  match events self !! event with
  | Some state =>
      if fired state then
        (true, {| wakers := wakers self;
                  events := <[event := {| fired := true; refcount := refcount state - 1 |}]> (events self) |})
      else (false, self)
  | None => (false, self)
  end.

(** ** Futures *)

#[warnings="-register-all"]
Inductive Async (A : Type) : Type :=
| Ready (a : A)
| Act (f : W -> outcome (Async A * W * list Eff))
| WaitFor (event : E) (registered : bool) (k : Async A).
Arguments Ready {A} _.
Arguments Act {A} _.
Arguments WaitFor {A} _ _ _.

(** [m.await], then [k]. *)
Fixpoint async_bind {A B} (m : Async A) (k : A -> Async B) : Async B :=
  match m with
  | Ready a => k a
  | Act f =>
      Act (fun w =>
        match f w with
        | Done (m, w, e) => Done (async_bind m k, w, e)
        | Panic => Panic
        | OutOfFuel => OutOfFuel
        end)
  | WaitFor event registered m => WaitFor event registered (async_bind m k)
  end.

Inductive Poll (A : Type) :=
| PollReady (a : A)
| PollPending (fut : Async A).
Arguments PollReady {A} _.
Arguments PollPending {A} _.

(** [Future::poll]: runs to the next suspension point that is not ready. *)
Fixpoint poll {A} (waker : Z) (fut : Async A) (w : W) (r : WakerRegistry)
    : outcome (Poll A * W * WakerRegistry * list Eff) :=
  match fut with
  | Ready a => Done (PollReady a, w, r, [])
  | Act f =>
      match f w with
      | Done (fut, w, e) => '(p, w, r, e') ← poll waker fut w r; Done (p, w, r, e ++ e')
      | Panic => Panic
      | OutOfFuel => OutOfFuel
      end
  | WaitFor event false k =>
      Done (PollPending (WaitFor event true k), w, register r event waker, [])
  | WaitFor event true k =>
      let '(ready, r) := check_event r event in
      if ready then poll waker k w r else Done (PollPending (WaitFor event true k), w, r, [])
  end.

(** ** Tasks *)

Record Executor := {
  tasks : gmap Z (Async unit);
  next_task_id : Z;
  run_queue : list Z;
  registry : WakerRegistry
}.

Definition executor_new : Executor :=
  {| tasks := ∅; next_task_id := 1; run_queue := []; registry := registry_new |}.

Definition is_empty (self : Executor) : bool := bool_decide (tasks self = ∅).

Definition executor_notify (self : Executor) (event : E) : Executor :=
  let '(registry, woken) := notify_event (registry self) event in
  {| tasks := tasks self; next_task_id := next_task_id self; run_queue := run_queue self ++ woken;
     registry := registry |}.

Definition spawn (self : Executor) (future : Async unit) : Executor :=
  let task_id := next_task_id self in
  {| tasks := <[task_id := future]> (tasks self); next_task_id := u32 (next_task_id self + 1);
     run_queue := run_queue self ++ [task_id]; registry := registry self |}.

(** The [for] loop over the queue that was taken. *)
Fixpoint poll_queue (queue : list Z) (self : Executor) (w : W) : outcome (Executor * W * list Eff) :=
  match queue with
  | [] => Done (self, w, [])
  | task_id :: queue =>
      match tasks self !! task_id with
      | None => poll_queue queue self w
      | Some task =>
          '(p, w, registry, e) ← poll task_id task w (registry self);
          let self :=
            match p with
            | PollReady _ =>
                {| tasks := delete task_id (tasks self); next_task_id := next_task_id self;
                   run_queue := run_queue self; registry := registry |}
            | PollPending task =>
                {| tasks := <[task_id := task]> (tasks self); next_task_id := next_task_id self;
                   run_queue := run_queue self ++ [task_id]; registry := registry |}
            end in
          '(self, w, e') ← poll_queue queue self w;
          Done (self, w, e ++ e')
      end
  end.

Definition poll_tasks (self : Executor) (w : W) : outcome (Executor * W * list Eff) :=
  poll_queue (run_queue self)
    {| tasks := tasks self; next_task_id := next_task_id self; run_queue := []; registry := registry self |} w.
End Executor.

Arguments Async E W Eff A : clear implicits.
Arguments Ready {E W Eff A} _.
Arguments Act {E W Eff A} _.
Arguments WaitFor {E W Eff A} _ _ _.
Arguments PollReady {E W Eff A} _.
Arguments PollPending {E W Eff A} _.
Arguments WakerRegistry E {_ _}.
Arguments Executor E W Eff {_ _}.

(** ** What the executor promises *)

Section Promises.
Context {E W Eff : Type} `{Countable E}.
Implicit Types (r : WakerRegistry E) (x : Executor E W Eff) (w : W).

(** Induction over a future: what an [Act] leads to is smaller. *)
Lemma async_ind {A} (P : Async E W Eff A -> Prop) :
  (forall a, P (Ready a)) ->
  (forall f, (forall w fut w' e, f w = Done (fut, w', e) -> P fut) -> P (Act f)) ->
  (forall event b k, P k -> P (WaitFor event b k)) ->
  forall fut, P fut.
Proof.
  intros HR HA HW. fix IH 1. intros [a|f|event b k]; [apply HR| |apply HW, IH].
  apply HA. intros w fut w' e Hf. destruct (f w) as [[[fut' w1] e1]| |]; [|discriminate..].
  assert (fut' = fut) as <- by congruence. apply IH.
Qed.

(** An event that was notified after somebody registered for it. *)
Definition has_fired r (e : E) : Prop := exists st, events r !! e = Some st /\ fired st = true.

Lemma register_fired r (e e' : E) (id : Z) : has_fired r e -> has_fired (register r e' id) e.
Proof.
  intros (st & He & Hf). destruct (decide (e' = e)) as [->|Hne].
  - eexists. cbn. rewrite lookup_insert_eq, He. done.
  - exists st. cbn. by rewrite lookup_insert_ne.
Qed.

Lemma check_fired r (e e' : E) : has_fired r e -> has_fired (check_event r e').2 e.
Proof.
  intros (st & He & Hf). unfold check_event. destruct (events r !! e') as [st'|] eqn:E'; [|by exists st].
  destruct (fired st') eqn:Ef; [|by exists st]. destruct (decide (e' = e)) as [->|Hne].
  - eexists. cbn. by rewrite lookup_insert_eq.
  - exists st. cbn. by rewrite lookup_insert_ne.
Qed.

Lemma check_of_fired r (e : E) : has_fired r e -> (check_event r e).1 = true.
Proof. intros (st & He & Hf). unfold check_event. by rewrite He, Hf. Qed.

Lemma poll_fired {A} (e : E) (id : Z) (fut : Async E W Eff A) : forall w r p w' r' ef,
  poll id fut w r = Done (p, w', r', ef) -> has_fired r e -> has_fired r' e.
Proof.
  induction fut as [a|f IH|event b k IH] using async_ind; intros w r p w' r' ef Hp He; cbn [poll] in Hp.
  - by injection Hp as <- <- <- <-.
  - destruct (f w) as [[[fut w1] e1]| |] eqn:Ef; [|done..].
    destruct (poll id fut w1 r) as [[[[p1 w2] r2] e2]| |] eqn:E2; [|done..].
    injection Hp as <- <- <- <-. eapply IH; [done|exact E2|done].
  - destruct b; [|injection Hp as <- <- <- <-; by apply register_fired].
    pose proof (check_fired r e event He) as Hc. destruct (check_event r event) as [[] r1];
      [by eapply IH | by injection Hp as <- <- <- <-].
Qed.

(** A future as [spawn] gets it: nothing is registered yet. *)
Inductive fresh {A} : Async E W Eff A -> Prop :=
| fresh_ready a : fresh (Ready a)
| fresh_act f : (forall w fut w' e, f w = Done (fut, w', e) -> fresh fut) -> fresh (Act f)
| fresh_wait event k : fresh k -> fresh (WaitFor event false k).

(** A suspended future: it waits for an event it is registered for. *)
Definition parked {A} r (fut : Async E W Eff A) : Prop :=
  exists event k, fut = WaitFor event true k /\ fresh k /\ is_Some (events r !! event).

(** The registry only grows. *)
Definition registry_le r r' : Prop := forall e : E, is_Some (events r !! e) -> is_Some (events r' !! e).

Lemma register_le r (e : E) (id : Z) : registry_le r (register r e id).
Proof. intros e' He. cbn. destruct (decide (e = e')) as [->|]; [rewrite lookup_insert_eq|rewrite lookup_insert_ne]; done. Qed.

Lemma check_le r (e : E) : registry_le r (check_event r e).2.
Proof.
  intros e' He. unfold check_event. destruct (events r !! e) as [st|]; [|done]. destruct (fired st); [|done].
  cbn. destruct (decide (e = e')) as [->|]; [rewrite lookup_insert_eq|rewrite lookup_insert_ne]; done.
Qed.

Lemma poll_parks {A} (id : Z) (fut : Async E W Eff A) : forall w r p w' r' ef,
  poll id fut w r = Done (p, w', r', ef) -> fresh fut \/ parked r fut ->
  registry_le r r' /\ match p with PollPending fut' => parked r' fut' | PollReady _ => True end.
Proof.
  induction fut as [a|f IH|event b k IH] using async_ind; intros w r p w' r' ef Hp Hf; cbn [poll] in Hp.
  - injection Hp as <- <- <- <-. split; [by intros ?|done].
  - destruct (f w) as [[[fut w1] e1]| |] eqn:Ef; [|done..].
    destruct (poll id fut w1 r) as [[[[p1 w2] r2] e2]| |] eqn:E2; [|done..].
    injection Hp as <- <- <- <-. eapply IH; [done|exact E2|]. left.
    destruct Hf as [Hf|(? & ? & [=] & _)]. inversion Hf; eauto.
  - destruct b.
    + destruct Hf as [Hf|(event' & k' & [= <- <-] & Hk & He)]; [inversion Hf|].
      pose proof (check_le r event) as Hle. destruct (check_event r event) as [[] r1].
      * destruct (IH _ _ _ _ _ _ Hp) as [H1 H2]; [by left|]. split; [|done]. intros e' He'. by apply H1, Hle.
      * injection Hp as <- <- <- <-. split; [done|]. exists event, k. by split_and!; [| |apply Hle].
    + injection Hp as <- <- <- <-. split; [apply register_le|]. exists event, k.
      split; [done|]. split; [destruct Hf as [Hf|(? & ? & [=] & _)]; by inversion Hf|].
      cbn. by rewrite lookup_insert_eq.
Qed.

(** ** The invariant *)

Record exec_inv x : Prop := {
  (** Every task is in the queue: it is polled in the next cycle. *)
  inv_queued : forall id, is_Some (tasks x !! id) -> id ∈ run_queue x;
  (** Every task has yet to start or waits for an event it is registered for. *)
  inv_parked : forall id fut, tasks x !! id = Some fut -> fresh fut \/ parked (registry x) fut;
  (** Ids are not reused. *)
  inv_ids : forall id, is_Some (tasks x !! id) -> id < next_task_id x
}.

Lemma parked_le r r' (fut : Async E W Eff unit) :
  registry_le r r' -> fresh fut \/ parked r fut -> fresh fut \/ parked r' fut.
Proof. intros Hle [?|(e & k & ? & ? & ?)]; [by left|]. right. exists e, k. auto. Qed.

Lemma poll_queue_inv (queue : list Z) : forall x w x' w' ef,
  poll_queue queue x w = Done (x', w', ef) ->
  (forall id, is_Some (tasks x !! id) -> id ∈ queue \/ id ∈ run_queue x) ->
  (forall id fut, tasks x !! id = Some fut -> fresh fut \/ parked (registry x) fut) ->
  (forall id, is_Some (tasks x !! id) -> id < next_task_id x) ->
  exec_inv x'.
Proof.
  induction queue as [|id queue IH]; intros x w x' w' ef Hq Hc Hp Hi; cbn [poll_queue] in Hq.
  { injection Hq as <- <- <-. split; [|done|done]. intros id Hid.
    destruct (Hc id Hid) as [Hn|]; [by apply elem_of_nil in Hn|done]. }
  destruct (tasks x !! id) as [task|] eqn:Et.
  - destruct (poll id task w (registry x)) as [[[[p w1] r1] e1]| |] eqn:Ep; [|done..].
    cbn [mbind outcome_bind] in Hq.
    destruct (poll_parks _ _ _ _ _ _ _ _ Ep (Hp _ _ Et)) as [Hle Hpk].
    destruct (poll_queue queue _ w1) as [[[x2 w2] e2]| |] eqn:E2 in Hq; [|done..].
    injection Hq as <- <- <-. apply IH in E2; [done|..]; destruct p as [u|task']; cbn.
    + intros i [Hne Hx]%lookup_delete_is_Some. destruct (Hc i Hx) as [Hin|]; [|by right].
      apply elem_of_cons in Hin as [->|]; [done|by left].
    + intros i [->|[Hne Hx]]%lookup_insert_is_Some; [right; set_solver|].
      destruct (Hc i Hx) as [Hin|]; [apply elem_of_cons in Hin as [->|]; [done|by left]|right; set_solver].
    + intros i fut [Hne Hx]%lookup_delete_Some. eapply parked_le; eauto.
    + intros i fut [[<- <-]|[Hne Hx]]%lookup_insert_Some; [by right|]. eapply parked_le; eauto.
    + intros i [Hne Hx]%lookup_delete_is_Some. eauto.
    + intros i [->|[Hne Hx]]%lookup_insert_is_Some; [apply Hi; by eexists|eauto].
  - apply IH in Hq; [done| |done|done]. intros i Hx. destruct (Hc i Hx) as [Hin|]; [|by right].
    apply elem_of_cons in Hin as [->|]; [|by left]. destruct Hx; congruence.
Qed.

Inductive exec_reachable : Executor E W Eff -> Prop :=
| exec_init : exec_reachable executor_new
| exec_spawn x fut :
    exec_reachable x -> fresh fut -> 0 <= next_task_id x < 2 ^ 32 - 1 -> exec_reachable (spawn x fut)
| exec_notify x (e : E) : exec_reachable x -> exec_reachable (executor_notify x e)
| exec_poll x w x' w' ef :
    exec_reachable x -> poll_tasks x w = Done (x', w', ef) -> exec_reachable x'.

Lemma notify_le r (e : E) : registry_le r (notify_event r e).1.
Proof.
  intros e' He. cbn. destruct (events r !! e) as [st|]; [|done].
  destruct (decide (e = e')) as [->|]; [rewrite lookup_insert_eq|rewrite lookup_insert_ne]; done.
Qed.

Lemma exec_reachable_inv x : exec_reachable x -> exec_inv x.
Proof.
  induction 1 as [|x fut _ [H1 H2 H3] Hf Hid|x e _ [H1 H2 H3]|x w x' w' ef _ [H1 H2 H3] Hp].
  - split; cbn; intros id *; rewrite lookup_empty; [by intros []|done|by intros []].
  - split; cbn.
    + intros id [->|[_ Hx]]%lookup_insert_is_Some; set_solver.
    + intros id fut' [[_ <-]|[_ Hx]]%lookup_insert_Some; [by left|eauto].
    + replace (u32 (next_task_id x + 1)) with (next_task_id x + 1) by word.
      intros id [->|[_ Hx]]%lookup_insert_is_Some; [lia|]. pose proof (H3 _ Hx). lia.
  - split; cbn; [intros id Hx; specialize (H1 id Hx); set_solver| |done].
    intros id fut Hx. eapply parked_le; [apply (notify_le (registry x) e)|eauto].
  - eapply poll_queue_inv; [exact Hp|..]; cbn; [by left; apply H1|done|done].
Qed.

(** Polling a task whose event has fired runs what follows the wait. *)
Lemma poll_queue_resumes (queue : list Z) : forall x w x' w' ef (id : Z) (e : E) k,
  poll_queue queue x w = Done (x', w', ef) -> id ∈ queue ->
  tasks x !! id = Some (WaitFor e true k) -> has_fired (registry x) e ->
  exists w1 r1 p w2 r2 e0 e1 e2,
    poll id k w1 r1 = Done (p, w2, r2, e1) /\ has_fired r1 e /\ ef = e0 ++ e1 ++ e2.
Proof.
  induction queue as [|i queue IH]; intros x w x' w' ef id e k Hq Hin Ht He; [by apply elem_of_nil in Hin|].
  cbn [poll_queue] in Hq. destruct (decide (i = id)) as [->|Hne].
  - rewrite Ht in Hq. cbn [poll] in Hq.
    pose proof (check_of_fired (registry x) e He) as Hc. pose proof (check_fired (registry x) e e He) as Hf.
    destruct (check_event (registry x) e) as [b r1]. cbn in Hc, Hf. subst b.
    destruct (poll id k w r1) as [[[[p w2] r2] e1]| |] eqn:Ep; [|done..]. cbn [mbind outcome_bind] in Hq.
    destruct (poll_queue queue _ w2) as [[[x2 w3] e2]| |] in Hq; [|done..]. injection Hq as <- <- <-.
    exists w, r1, p, w2, r2, [], e1, e2. done.
  - apply elem_of_cons in Hin as [->|Hin]; [done|].
    destruct (tasks x !! i) as [task|] eqn:Ei; [|eauto].
    destruct (poll i task w (registry x)) as [[[[p w2] r2] e1]| |] eqn:Ep; [|done..].
    cbn [mbind outcome_bind] in Hq. set (x1 := match p with PollReady _ => _ | PollPending _ => _ end) in Hq.
    destruct (poll_queue queue x1 w2) as [[[x2 w3] e2]| |] eqn:Eq; [|done..]. injection Hq as <- <- <-.
    assert (H1 : tasks x1 !! id = Some (WaitFor e true k)).
    { subst x1. destruct p; cbn; [by rewrite lookup_delete_ne|by rewrite lookup_insert_ne]. }
    assert (H2 : has_fired (registry x1) e).
    { assert (registry x1 = r2) as -> by (subst x1; by destruct p). by eapply poll_fired. }
    destruct (IH _ _ _ _ _ _ _ _ Eq Hin H1 H2) as (wa & ra & pa & wb & rb & ea & eb & ec & Hp & Hf & ->).
    exists wa, ra, pa, wb, rb, (e1 ++ ea), eb, ec. by rewrite <- app_assoc.
Qed.

End Promises.

(** ** Example: a task that waits for event 10 and then reports. *)

Definition example_task : Async Z unit Z unit :=
  Act (fun w => Done (WaitFor 10 false (Act (fun w => Done (Ready tt, w, [7]))), w, [5])).

Lemma example_task_fresh : fresh example_task.
Proof.
  constructor. intros w fut w' e [= <- <- <-]. constructor. constructor.
  intros w1 fut w2 e [= <- <- <-]. constructor.
Qed.

