(* ===== verification/Resident.v ===== *)
(** * The network task

    [kernel/src/net/resident.rs]: the requests other tasks queue, the [async]
    functions that answer them, and the loop that reads devices and runs the
    tasks.  A turn of the loop is [iteration].  Registered devices keep their
    slot, so [SlotList] is a list.  The logging, and the wake set that only
    decides when the next turn comes, are left out.

    [now] is the time and [lookups] bounds the turns of the loop in
    [dns_lookup], which has none in the source. *)

From S2P Require Import Prelude NetPacket Ipv4 NetTransport Tcp Sockets Outcome Dhcp Dns NetDevice Executor Random.

Inductive NetRequest :=
| RegisterDevice (mac : HardwareAddress.t)
| GetIp
| GetMacForIp (ip : Ipv4Address.t)
| OpenTcp (local_port : Z) (destination : list Z) (remote_port : Z)
| Respond (destination : Ipv4Address.t) (payload : list Z).

#[global] Instance NetEvent_countable : Countable NetEvent.
Proof.
  apply (inj_countable'
    (fun e => match e with
     | LinkEstablished => inl (inl 0)
     | DnsResponse => inl (inl 1)
     | ArpResponse ip => inl (inr ip)
     | DhcpOffer x => inr (inl x)
     | DhcpAck x => inr (inr x)
     end)
    (fun s => match s with
     | inl (inl z) => if z =? 0 then LinkEstablished else DnsResponse
     | inl (inr ip) => ArpResponse ip
     | inr (inl x) => DhcpOffer x
     | inr (inr x) => DhcpAck x
     end)).
  by intros [].
Defined.

(** What the tasks of a device work on. *)
Record World := {
  dev : NetDevice;
  shared : Shared;
  random : Random
}.
Definition set_dev (w : World) (d : NetDevice) : World :=
  {| dev := d; shared := shared w; random := random w |}.
Definition set_shared (w : World) (s : Shared) : World :=
  {| dev := dev w; shared := s; random := random w |}.
Definition set_random (w : World) (g : Random) : World :=
  {| dev := dev w; shared := shared w; random := g |}.

Abbreviation Task := (Async NetEvent World DevEffect).

(** [let x = e;] in an [async] function, for code that cannot suspend. *)
Definition act {A B} (f : World -> outcome (A * World * list DevEffect)) (k : A -> Task B) : Task B :=
  Act (fun w => '(a, w, e) ← f w; Done (k a, w, e)).
Definition read {A B} (f : World -> A) (k : A -> Task B) : Task B :=
  act (fun w => Done (f w, w, [])) k.
Definition wait {B} (event : NetEvent) (k : Task B) : Task B := WaitFor event false k.

(** ** The [async] functions *)

Section Tasks.
Context (now : Z) (lookups : nat).

(** Random bytes, as a number in little endian. *)
Definition draw (n : nat) (w : World) : outcome (Z * World) :=
  '(bytes, g) ← of_option (get_random_bytes now n (random w));
  Done ((if (n =? 4)%nat then load32 bytes 0 else load16 bytes 0), set_random w g).

(** After the offer: wait for the acknowledgement and report the address. *)
Definition await_ack (xid : Z) : Task (option Ipv4Address.t) :=
  wait (DhcpAck xid)
    (act (fun w =>
       match local_ip (dhcp_state (dev w)) with
       | Bound ip _ =>
           '(n, effects) ← of_option (flush_pending_udp_writes (sockets (shared w)) ip);
           Done (Some ip, set_shared w (set_sockets' (shared w) n), socket_calls effects)
       | _ => Done (None, w, [])
       end) Ready).

Definition resolve_local_ip : Task (option Ipv4Address.t) :=
  Act (fun w =>
    match local_ip (dhcp_state (dev w)) with
    | Bound ip _ => Done (Ready (Some ip), w, [])
    | Unbound =>
        '(xid, w) ← draw 4 w;
        '(d, effects) ← init_dhcp (dev w) xid;
        Done (wait (DhcpOffer xid) (await_ack xid), set_dev w d, effects)
    | Progress xid => Done (await_ack xid, w, [])
    | Renewing _ xid => Done (await_ack xid, w, [])
    end).

Definition get_local_ip : Task (option Ipv4Address.t) :=
  read (fun w => is_open (dev w)) (fun is_open =>
    if is_open then resolve_local_ip else wait LinkEstablished resolve_local_ip).

Definition resolve_known (target_ip : Ipv4Address.t) : Task (option HardwareAddress.t) :=
  read (fun w => known_arp (dev w) !! target_ip) (fun known =>
    match known with
    | Some mac => Ready (Some mac)
    | None =>
        async_bind get_local_ip (fun local_ip =>
          match local_ip with
          | None => Ready None
          | Some local_ip =>
              act (fun w =>
                let local_mac := mac (dev w) in
                let arp_request := ArpPacket.request local_mac local_ip target_ip in
                let eth_frame := EthernetFrameHeader.broadcast_arp local_mac in
                let '(d, effects) := send_frame (dev w) eth_frame (as_u8_buffer arp_request) in
                Done (tt, set_dev w d, effects))
              (fun _ =>
                wait (ArpResponse target_ip)
                  (read (fun w => known_arp (dev w) !! target_ip) Ready))
          end)
    end).
Definition resolve_ip_to_mac (target_ip : Ipv4Address.t) : Task (option HardwareAddress.t) :=
  read (fun w => is_open (dev w)) (fun is_open =>
    if is_open then resolve_known target_ip else wait LinkEstablished (resolve_known target_ip)).

Definition get_next_hop (destination : Ipv4Address.t) : Task (option HardwareAddress.t) :=
  async_bind get_local_ip (fun local_ip =>
    match local_ip with
    | None => Ready None
    | Some local_ip =>
        read (fun w => dhcp_state (dev w)) (fun dhcp =>
          let net_mask := subnet_mask dhcp in
          let local_masked := Ipv4Address.bitand local_ip net_mask in
          let dest_masked := Ipv4Address.bitand destination net_mask in
          if bool_decide (local_masked = dest_masked) then resolve_ip_to_mac destination
          else resolve_ip_to_mac (gateway_ip dhcp))
    end).

Definition send_packet_direct (destination : Ipv4Address.t) (payload : list Z) : Task (result unit unit) :=
  async_bind (get_next_hop destination) (fun next_hop =>
    match next_hop with
    | None => Ready (Err tt)
    | Some next_hop =>
        act (fun w =>
          let eth_header := EthernetFrameHeader.new_ipv4 (mac (dev w)) next_hop in
          let '(d, effects) := send_frame (dev w) eth_header payload in
          Done (Ok tt, set_dev w d, effects)) Ready
    end).

(** The [loop] of [dns_lookup]. *)
Fixpoint dns_wait (turns : nat) (hostname : list Z) : Task (result Ipv4Address.t unit) :=
  match turns with
  | O => Act (fun _ => OutOfFuel)
  | S turns =>
      wait DnsResponse
        (read (fun w => lookup_dns (dns_cache (shared w)) hostname) (fun cached =>
           match cached with
           | Some ip => Ready (Ok ip)
           | None => dns_wait turns hostname
           end))
  end.

Definition dns_query (local_ip : Ipv4Address.t) (hostname : list Z) : Task (result Ipv4Address.t unit) :=
  read (fun w => dns_servers (dhcp_state (dev w)) !! 0%nat) (fun server =>
    match server with
    | None => Ready (Err tt)
    | Some dns_server_ip =>
        act (fun w =>
          '(xid, w) ← draw 2 w;
          let dns_packet := build_query_packet xid [a_record hostname] in
          '(outbound_port, s) ← get_dns_port (shared w);
          let w := set_shared w s in
          let eth_header := EthernetFrameHeader.new_ipv4 (mac (dev w)) HardwareAddress.BROADCAST in
          ip_packet ← of_option (create_datagram local_ip outbound_port dns_server_ip 53 dns_packet);
          let '(d, effects) := send_frame (dev w) eth_header ip_packet in
          Done (tt, set_dev w d, effects))
        (fun _ => dns_wait lookups hostname)
    end).

Definition dns_lookup (hostname : list Z) : Task (result Ipv4Address.t unit) :=
  read (fun w => lookup_dns (dns_cache (shared w)) hostname) (fun cached =>
    match cached with
    | Some ip => Ready (Ok ip)
    | None =>
        async_bind get_local_ip (fun local_ip =>
          match local_ip with
          | None => Ready (Err tt)
          | Some local_ip => dns_query local_ip hostname
          end)
    end).

(** The address of the peer: a literal, or a name to look up. *)
Definition remote_address (destination : list Z) : Task (result Ipv4Address.t unit) :=
  act (fun w => r ← of_option (parse_bytes destination); Done (r, w, []))
    (fun r => match r with
              | Some ip => Ready (Ok ip)
              | None => dns_lookup destination
              end).

Definition open_tcp (local_port : Z) (destination : list Z) (remote_port : Z) : Task (result unit unit) :=
  async_bind get_local_ip (fun local_addr =>
    match local_addr with
    | None => Ready (Err tt)
    | Some local_addr =>
        async_bind (remote_address destination) (fun remote_addr =>
          match remote_addr with
          | Err e => Ready (Err e)
          | Ok remote_addr =>
              act (fun w =>
                tcp_packet ← of_option (TcpHeader.create_packet local_addr local_port remote_addr
                                          remote_port 0 0 TcpHeader.FLAG_SYN []);
                Done (tcp_packet, w, []))
              (fun tcp_packet => send_packet_direct remote_addr tcp_packet)
          end)
    end).

(** The result of a task is only logged. *)
Definition ignore {A} (t : Task A) : Task unit := async_bind t (fun _ => Ready tt).

(** ** The loop *)

Record Stack := {
  network_devices : list (Executor NetEvent World DevEffect * NetDevice);
  statics : Shared;
  rng : Random;
  requests : list NetRequest
}.

Definition set_devices (s : Stack) (l : list (Executor NetEvent World DevEffect * NetDevice)) : Stack :=
  {| network_devices := l; statics := statics s; rng := rng s; requests := requests s |}.
Definition set_requests (s : Stack) (l : list NetRequest) : Stack :=
  {| network_devices := network_devices s; statics := statics s; rng := rng s; requests := l |}.

(** [net_respond] and [net_open_tcp]: the calls of the sockets that queue a
    request.  The others go to other tasks. *)
Definition request_of (e : DevEffect) : option NetRequest :=
  match e with
  | SocketCall (NetRespond destination payload) => Some (Respond destination payload)
  | SocketCall (NetOpenTcp local_port destination remote_port) =>
      Some (OpenTcp local_port destination remote_port)
  | _ => None
  end.
Definition outside (e : DevEffect) : bool := match request_of e with Some _ => false | None => true end.

(** Before the loop: the DNS port is chosen and bound. *)
Definition resident_init (g : Random) : outcome Stack :=
  let s := {| sockets := init_net; dns_port := 0; dns_cache := ∅ |} in
  '(port, s) ← get_dns_port s;
  let s := set_sockets' s (create_dns_socket (sockets s) port) in
  Done {| network_devices := []; statics := s; rng := g; requests := [] |}.

(** [network_devices.get_mut(0).unwrap()], and a task spawned there. *)
Definition spawn_on_first (s : Stack) (t : Task unit) : outcome Stack :=
  match network_devices s with
  | (executor, d) :: rest => Done (set_devices s ((spawn executor t, d) :: rest))
  | [] => Panic
  end.

Definition handle_request (s : Stack) (req : NetRequest) : outcome Stack :=
  match req with
  | RegisterDevice mac =>
      let executor := spawn executor_new (ignore get_local_ip) in
      Done (set_devices s (network_devices s ++ [(executor, device_new mac)]))
  | GetIp => spawn_on_first s (ignore get_local_ip)
  | GetMacForIp ip => spawn_on_first s (ignore (resolve_ip_to_mac ip))
  | OpenTcp local_port dest remote_port => spawn_on_first s (ignore (open_tcp local_port dest remote_port))
  | Respond dest_ip payload => spawn_on_first s (ignore (send_packet_direct dest_ip payload))
  end.

Fixpoint handle_requests (s : Stack) (queue : list NetRequest) : outcome Stack :=
  match queue with
  | [] => Done s
  | req :: queue => s ← handle_request s req; handle_requests s queue
  end.

(** One device of the [for] loop: the completed read, its event, the tasks. *)
Definition run_device (live : Z -> bool) (fuel : nat) (executor : Executor NetEvent World DevEffect)
    (d : NetDevice) (s : Shared) (g : Random)
    : outcome (Executor NetEvent World DevEffect * World * list DevEffect) :=
  let d := clear_completed_writes d in
  '(read_event, d, s, e) ← process_read_result live now fuel d s;
  let executor := match read_event with Some event => executor_notify executor event | None => executor end in
  '(executor, w, e') ← poll_tasks executor {| dev := d; shared := s; random := g |};
  Done (executor, w, e ++ e').

Fixpoint run_devices (live : Z -> bool) (fuel : nat)
    (devices : list (Executor NetEvent World DevEffect * NetDevice)) (s : Shared) (g : Random)
    : outcome (list (Executor NetEvent World DevEffect * NetDevice) * Shared * Random * list DevEffect) :=
  match devices with
  | [] => Done ([], s, g, [])
  | (executor, d) :: rest =>
      '(executor, w, e) ← run_device live fuel executor d s g;
      '(rest, s, g, e') ← run_devices live fuel rest (shared w) (random w);
      Done ((executor, dev w) :: rest, s, g, e ++ e')
  end.

(** The calls that leave the network stack. *)
Definition iteration (live : Z -> bool) (fuel : nat) (s : Stack) : outcome (Stack * list DevEffect) :=
  s ← handle_requests (set_requests s []) (requests s);
  '(devices, sh, g, e) ← run_devices live fuel (network_devices s) (statics s) (rng s);
  Done ({| network_devices := devices; statics := sh; rng := g; requests := requests s ++ omap request_of e |},
        filter outside e).
End Tasks.
