(* ===== verification/ResidentSpec.v ===== *)
(** * The network task at work

    The tasks of [Resident] run by the executor on the frames of [NetDevice]:
    obtaining an address at boot, and what happens without a device. *)

From S2P Require Import Prelude Api NetPacket Ipv4 NetTransport Tcp Sockets SocketsSpec Outcome Dhcp Dns NetDevice NetDeviceSpec Executor Random Resident.

(** ** One task alone *)

(** The executor holds one task, whose id is all its queue and wakers name. *)
Record solo (x : Executor NetEvent World DevEffect) (fut : Async NetEvent World DevEffect unit) : Prop := {
  solo_task : tasks x = {[ 1 := fut ]};
  solo_queue : Forall (eq 1) (run_queue x) /\ run_queue x <> [];
  solo_wakers : forall e l, wakers (registry x) !! e = Some l -> Forall (eq 1) l
}.

Implicit Types (x : Executor NetEvent World DevEffect) (r : WakerRegistry NetEvent) (w : World).

(** Whether an event would let a waiting task through. *)
Definition silent r (e : NetEvent) : Prop := ~ has_fired r e.

Lemma check_silent r (e : NetEvent) : silent r e -> check_event r e = (false, r).
Proof.
  intros Hs. unfold check_event. destruct (events r !! e) as [st|] eqn:Ee; [|done].
  destruct (fired st) eqn:Ef; [|done]. exfalso. apply Hs. by exists st.
Qed.

Lemma register_silent r (e e' : NetEvent) (id : Z) : silent r e -> silent (register r e' id) e.
Proof.
  intros Hs (st & He & Hf). apply Hs. cbn in He. destruct (decide (e' = e)) as [->|].
  - rewrite lookup_insert_eq in He. injection He as <-.
    destruct (events r !! e) as [st|] eqn:E; [by exists st|done].
  - rewrite lookup_insert_ne in He by done. by exists st.
Qed.

Lemma check_keeps_silent r (e e' : NetEvent) : silent r e -> silent (check_event r e').2 e.
Proof.
  intros Hs. unfold check_event. destruct (events r !! e') as [st|] eqn:E'; [|done].
  destruct (fired st) eqn:Ef; [|done]. intros (st' & He & Hf). apply Hs. cbn in He.
  destruct (decide (e' = e)) as [->|]; [by exists st|]. rewrite lookup_insert_ne in He by done. by exists st'.
Qed.

Lemma notify_keeps_silent r (e e' : NetEvent) : e <> e' -> silent r e -> silent (notify_event r e').1 e.
Proof.
  intros Hne Hs (st & He & Hf). apply Hs. cbn in He. destruct (events r !! e') as [st'|]; [|by exists st].
  rewrite lookup_insert_ne in He by done. by exists st.
Qed.

Lemma notify_fires r (e : NetEvent) : is_Some (events r !! e) -> has_fired (notify_event r e).1 e.
Proof. intros [st He]. eexists. cbn. by rewrite He, lookup_insert_eq. Qed.

Lemma solo_notify x fut (e : NetEvent) :
  solo x fut -> solo (executor_notify x e) fut /\ registry (executor_notify x e) = (notify_event (registry x) e).1.
Proof.
  intros [Ht [Hq Hn] Hw]. split; [|done]. split; [done|..]; cbn.
  - split; [|by destruct (run_queue x)]. apply Forall_app_2; [done|].
    destruct (wakers (registry x) !! e) as [l|] eqn:El; [by eapply Hw|constructor].
  - intros e' l. rewrite lookup_delete_Some. intros [_ Hl]. eauto.
Qed.

Lemma poll_wakers {A} (fut : Async NetEvent World DevEffect A) : forall w r p w' r' ef,
  poll 1 fut w r = Done (p, w', r', ef) ->
  (forall e l, wakers r !! e = Some l -> Forall (eq 1) l) ->
  forall e l, wakers r' !! e = Some l -> Forall (eq 1) l.
Proof.
  induction fut as [a|f IH|event b k IH] using async_ind; intros w r p w' r' ef Hp Hw; cbn [poll] in Hp.
  - by injection Hp as <- <- <- <-.
  - destruct (f w) as [[[fut w1] e1]| |] eqn:Ef; [|done..].
    destruct (poll 1 fut w1 r) as [[[[p1 w2] r2] e2]| |] eqn:E2; [|done..].
    injection Hp as <- <- <- <-. by eapply IH.
  - destruct b.
    + assert (Hc : forall e l, wakers (check_event r event).2 !! e = Some l -> Forall (eq 1) l).
      { unfold check_event. destruct (events r !! event) as [st|]; [|done]. by destruct (fired st). }
      destruct (check_event r event) as [[] r1]; [by eapply IH|]. by injection Hp as <- <- <- <-.
    + injection Hp as <- <- <- <-. intros e l. cbn. rewrite lookup_insert_Some.
      intros [[<- <-]|[_ Hl]]; [|eauto]. apply Forall_app_2; [|by repeat constructor].
      destruct (wakers r !! event) as [l|] eqn:El; [by eapply Hw|constructor].
Qed.

(** A cycle in which the task finishes. *)
Lemma solo_done x fut w r' w' ef :
  solo x fut -> poll 1 fut w (registry x) = Done (PollReady tt, w', r', ef) ->
  exists x', poll_tasks x w = Done (x', w', ef) /\ tasks x' = ∅ /\ run_queue x' = [].
Proof.
  intros [Ht [Hq Hn] Hw] Hp. unfold poll_tasks. rewrite Ht.
  destruct (run_queue x) as [|i q]; [done|]. apply Forall_cons in Hq as [<- Hq].
  cbn [poll_queue tasks]. rewrite lookup_singleton_eq. cbn [registry]. rewrite Hp. cbn [mbind outcome_bind].
  rewrite delete_singleton_eq. set (x1 := {| tasks := _; next_task_id := _; run_queue := _; registry := _ |}).
  assert (forall q, poll_queue q x1 w' = Done (x1, w', [])) as ->.
  { intros q'. induction q' as [|j q' IH]; [done|]. cbn [poll_queue tasks x1]. by rewrite lookup_empty. }
  cbn [mbind outcome_bind]. rewrite app_nil_r. by exists x1.
Qed.

(** A cycle in which it stops at a wait. *)
Lemma solo_waits x fut w r' w' ef e k :
  solo x fut -> poll 1 fut w (registry x) = Done (PollPending (WaitFor e true k), w', r', ef) -> silent r' e ->
  exists x', poll_tasks x w = Done (x', w', ef) /\ solo x' (WaitFor e true k) /\ registry x' = r'.
Proof.
  intros [Ht [Hq Hn] Hw] Hp Hs. pose proof (poll_wakers _ _ _ _ _ _ _ Hp Hw) as Hw'.
  unfold poll_tasks. rewrite Ht. destruct (run_queue x) as [|i q]; [done|]. apply Forall_cons in Hq as [<- Hq].
  cbn [poll_queue tasks]. rewrite lookup_singleton_eq. cbn [registry]. rewrite Hp. cbn [mbind outcome_bind].
  rewrite insert_singleton_eq. cbn [run_queue app next_task_id].
  assert (Hrest : forall q' q0, Forall (eq 1) q' -> exists q1, Forall (eq 1) q1 /\
    poll_queue q' {| tasks := {[1 := WaitFor e true k]}; next_task_id := next_task_id x; run_queue := 1 :: q0;
                     registry := r' |} w' =
    Done ({| tasks := {[1 := WaitFor e true k]}; next_task_id := next_task_id x; run_queue := 1 :: q0 ++ q1;
             registry := r' |}, w', [])).
  { induction q' as [|j q' IH]; intros q0 Hq'; [exists []; by rewrite app_nil_r|].
    apply Forall_cons in Hq' as [<- Hq']. cbn [poll_queue tasks]. rewrite lookup_singleton_eq.
    cbn [poll registry]. rewrite (check_silent _ _ Hs). cbn [mbind outcome_bind run_queue next_task_id app].
    rewrite insert_singleton_eq. destruct (IH (q0 ++ [1]) Hq') as (q1 & H1 & ->). cbn [mbind outcome_bind].
    exists (1 :: q1). split; [by constructor|]. by rewrite <- app_assoc. }
  destruct (Hrest q [] Hq) as (q1 & Hq1 & ->). cbn [mbind outcome_bind app]. rewrite app_nil_r.
  eexists. split; [done|]. split; [|done]. split; [done| |done]. split; [by constructor|done].
Qed.

(** ** The task of a new device *)

Section Boot.
Context (now : Z) (lookups fuel : nat) (live : Z -> bool).

(** What is left of the task at its three waits. *)
Definition at_link : Async NetEvent World DevEffect unit :=
  WaitFor LinkEstablished true (ignore (resolve_local_ip now)).
Definition at_offer (xid : Z) : Async NetEvent World DevEffect unit :=
  WaitFor (DhcpOffer xid) true (ignore (await_ack xid)).
Definition report : Async NetEvent World DevEffect (option Ipv4Address.t) :=
  act (fun w =>
    match local_ip (dhcp_state (dev w)) with
    | Bound ip _ =>
        '(n, effects) ← of_option (flush_pending_udp_writes (sockets (shared w)) ip);
        Done (Some ip, set_shared w (set_sockets' (shared w) n), socket_calls effects)
    | _ => Done (None, w, [])
    end) Ready.
Definition at_ack (xid : Z) : Async NetEvent World DevEffect unit :=
  WaitFor (DhcpAck xid) true (ignore report).

Lemma poll_start w r : is_open (dev w) = false ->
  poll 1 (ignore (get_local_ip now)) w r =
    Done (PollPending at_link, w, register r LinkEstablished 1, []).
Proof. intros H. cbn. by rewrite H. Qed.

Lemma poll_link w w1 r (xid : Z) d ef :
  has_fired r LinkEstablished -> local_ip (dhcp_state (dev w)) = Unbound ->
  draw now 4 w = Done (xid, w1) -> init_dhcp (dev w1) xid = Done (d, ef) ->
  poll 1 at_link w r =
    Done (PollPending (at_offer xid), set_dev w1 d,
          register (check_event r LinkEstablished).2 (DhcpOffer xid) 1, ef).
Proof.
  intros Hf Hl Hd Hi. pose proof (check_of_fired r _ Hf) as Hc. unfold at_link. cbn [poll].
  destruct (check_event r LinkEstablished) as [b r1]. cbn in Hc. subst b.
  unfold ignore, resolve_local_ip. cbn [async_bind poll]. rewrite Hl, Hd. cbn [mbind outcome_bind].
  rewrite Hi. cbn [mbind outcome_bind]. cbn. by rewrite app_nil_r.
Qed.

Lemma poll_offer w r (xid : Z) : has_fired r (DhcpOffer xid) ->
  poll 1 (at_offer xid) w r =
    Done (PollPending (at_ack xid), w, register (check_event r (DhcpOffer xid)).2 (DhcpAck xid) 1, []).
Proof.
  intros Hf. pose proof (check_of_fired r _ Hf) as Hc. unfold at_offer. cbn [poll].
  destruct (check_event r (DhcpOffer xid)) as [b r1]. cbn in Hc. by subst b.
Qed.

Lemma poll_ack w r (xid t : Z) (ip : Ipv4Address.t) n effects :
  has_fired r (DhcpAck xid) -> local_ip (dhcp_state (dev w)) = Bound ip t ->
  flush_pending_udp_writes (sockets (shared w)) ip = Some (n, effects) ->
  poll 1 (at_ack xid) w r =
    Done (PollReady tt, set_shared w (set_sockets' (shared w) n), (check_event r (DhcpAck xid)).2,
          socket_calls effects).
Proof.
  intros Hf Hl Hn. pose proof (check_of_fired r _ Hf) as Hc. unfold at_ack. cbn [poll].
  destruct (check_event r (DhcpAck xid)) as [b r1]. cbn in Hc. subst b.
  unfold ignore, report, act. cbn [async_bind poll]. rewrite Hl, Hn. cbn [of_option mbind outcome_bind].
  cbn. by rewrite app_nil_r.
Qed.

(** ** One device *)

Definition single (s : Stack) (x : Executor NetEvent World DevEffect) (d : NetDevice) : Prop :=
  network_devices s = [(x, d)] /\ requests s = [].

Lemma iteration_single (s : Stack) x d x' w' ef :
  single s x d -> run_device now live fuel x d (statics s) (rng s) = Done (x', w', ef) ->
  iteration now lookups live fuel s =
    Done ({| network_devices := [(x', dev w')]; statics := shared w'; rng := random w';
             requests := omap request_of ef |}, filter outside ef).
Proof.
  intros [Hd Hr] Hrun. unfold iteration. rewrite Hr. cbn [handle_requests mbind outcome_bind].
  cbn [set_requests network_devices statics rng requests]. rewrite Hd. cbn [run_devices]. rewrite Hrun.
  cbn [mbind outcome_bind app]. by rewrite app_nil_r.
Qed.

(** An open device between reads. *)
Record waiting (d : NetDevice) : Prop := {
  wt_open : is_open d = true;
  wt_read : active_read d = None;
  wt_buffer : read_buffer d = replicate READ_BUFFER_LEN 0
}.

(** The driver completes the read in progress. *)
Definition complete_read (d : NetDevice) (result : Z) (frame : list Z) : NetDevice :=
  set_active_read (set_read_buffer d (frame ++ drop (length frame) (read_buffer d))) (Some result).

(** A DHCP message of a server, in a frame the buffer can hold. *)
Record dhcp_reply_frame (frame : list Z) (packet : DhcpPacket.t) (opts : list dhcp_opt) : Prop := {
  dr_sizes : array_sizes packet;
  dr_opts : Forall opt_wf opts;
  dr_fits : (length frame <= READ_BUFFER_LEN)%nat;
  dr_frame : exists eth src sp dst rest p, ip_frame eth /\ Ipv4Address.wf src /\ Ipv4Address.wf dst /\
    is_u16 sp /\ Forall is_u8 (reply packet opts rest) /\
    create_datagram src sp dst 68 (reply packet opts rest) = Some p /\ frame = as_u8_buffer eth ++ p
}.

Lemma reply_received (d : NetDevice) (frame : list Z) packet opts :
  waiting d -> dhcp_reply_frame frame packet opts ->
  exists src sp dst rest,
    datagram_frame (clear_completed_writes (complete_read d (Z.of_nat (length frame)) frame))
      src sp dst 68 (reply packet opts rest).
Proof.
  intros [Ho Hr Hb] [_ _ Hfit (eth & src & sp & dst & rest & p & He & Hs & Hd & Hsp & Hbytes & Hp & Hf)].
  exists src, sp, dst, rest. split; try done. exists eth, p. split; [done|]. split; [done|].
  rewrite <- Hf. split; [done|]. split; [split; [|done]|split; [done|]].
  - rewrite Hf, length_app, as_u8_buffer_length. cbn. lia.
  - cbn [clear_completed_writes complete_read set_active_writes set_active_read set_read_buffer read_buffer].
    by rewrite Hb, drop_replicate.
Qed.

Lemma after_read_waiting (d : NetDevice) : is_open d = true -> waiting (after_read d).
Proof. intros H. by split. Qed.

(** The stack while its only device runs the exchange, before [event]. *)
Record exchange (s : Stack) (xid : Z) (fut : Async NetEvent World DevEffect unit) (event : NetEvent)
    x (d : NetDevice) : Prop := {
  ex_single : single s x d;
  ex_solo : solo x fut;
  ex_waiting : waiting d;
  ex_progress : local_ip (dhcp_state d) = Progress xid;
  ex_registered : is_Some (events (registry x) !! event);
  ex_silent : silent (registry x) (DhcpAck xid)
}.

(** The driver's completion, as seen by the stack. *)
Definition deliver (s : Stack) (result : Z) (frame : list Z) : Stack :=
  match network_devices s with
  | (x, d) :: rest => set_devices s ((x, complete_read d result frame) :: rest)
  | [] => s
  end.

(** The first turn: the device is registered and its task waits for the link. *)
Lemma boot_register (s : Stack) (mac0 : HardwareAddress.t) :
  network_devices s = [] -> requests s = [RegisterDevice mac0] ->
  exists x, solo x at_link /\ registry x = register registry_new LinkEstablished 1 /\
    iteration now lookups live fuel s =
      Done ({| network_devices := [(x, device_new mac0)]; statics := statics s; rng := rng s; requests := [] |}, []).
Proof.
  intros Hd Hr. set (x0 := spawn executor_new (ignore (get_local_ip now))).
  assert (H0 : solo x0 (ignore (get_local_ip now))).
  { split; [reflexivity|split; [by repeat constructor|done]|].
    intros e l. cbn. by rewrite lookup_empty. }
  set (w := {| dev := device_new mac0; shared := statics s; random := rng s |}).
  destruct (solo_waits x0 _ w _ _ _ _ _ H0 (poll_start w (registry x0) eq_refl)) as (x1 & Hp & Hs & Hr1).
  { intros (st & He & Hf). cbn in He. rewrite lookup_insert_eq in He. by injection He as <-. }
  assert (Hrun : run_device now live fuel x0 (device_new mac0) (statics s) (rng s) = Done (x1, w, [])).
  { unfold run_device.
    assert (process_read_result live now fuel (clear_completed_writes (device_new mac0)) (statics s) =
      Done (None, device_new mac0, statics s, [])) as -> by reflexivity.
    cbn [mbind outcome_bind]. fold w. by rewrite Hp. }
  exists x1. split; [done|]. split; [done|]. unfold iteration. rewrite Hr.
  cbn [handle_requests handle_request mbind outcome_bind set_requests set_devices network_devices statics rng requests].
  rewrite Hd. cbn [app run_devices]. fold x0. rewrite Hrun. reflexivity.
Qed.

Lemma init_dhcp_ok (d : NetDevice) (xid : Z) :
  exists p d', dhcp_packet (reply (client_packet (mac d) Ipv4Address.default xid) [TypeOpt 1 []] []) p /\
    let frame := as_u8_buffer (broadcast_header d) ++ p in
    init_dhcp d xid = Done (d', [DriverWrite frame]) /\
    local_ip (dhcp_state d') = Progress xid /\ mac d' = mac d /\
    is_open d' = is_open d /\ active_read d' = active_read d /\ read_buffer d' = read_buffer d.
Proof.
  unfold init_dhcp. rewrite discover_ok. cbn [of_option mbind outcome_bind].
  match goal with |- context [send_dhcp_packet ?d1 ?payload] =>
    destruct (send_dhcp_ok d1 payload) as (p & Hp & ->) end.
  eexists p, _. split; [exact Hp|]. cbv zeta. split; [reflexivity|]. by split_and!.
Qed.

(** The second turn: the device is open, and the task broadcasts DISCOVER. *)
Lemma boot_link (s : Stack) x (mac0 : HardwareAddress.t) (result xid : Z) (bytes : list Z) (g : Random) :
  single s x (device_new mac0) -> solo x at_link -> registry x = register registry_new LinkEstablished 1 ->
  result .& 0x80000000 = 0 -> get_random_bytes now 4 (rng s) = Some (bytes, g) -> xid = load32 bytes 0 ->
  exists s' x' d' p,
    dhcp_packet (reply (client_packet mac0 Ipv4Address.default xid) [TypeOpt 1 []] []) p /\
    iteration now lookups live fuel (deliver s result []) =
      Done (s', [DriverRead; DriverWrite (as_u8_buffer (broadcast_header (device_new mac0)) ++ p)]) /\
    exchange s' xid (at_offer xid) (DhcpOffer xid) x' d' /\ mac d' = mac0 /\ statics s' = statics s.
Proof.
  intros [Hd Hr] Hx Hreg Hres.
  set (d1 := complete_read (device_new mac0) result []).
  assert (Hs1 : single (deliver s result []) x d1) by (unfold deliver; rewrite Hd; by split).
  assert (statics (deliver s result []) = statics s /\ rng (deliver s result []) = rng s) as [E1 E2]
    by (unfold deliver; by rewrite Hd).
  intros Hg Hxid.
  set (d2 := set_active_read (set_open d1) None).
  assert (Hread : process_read_result live now fuel (clear_completed_writes d1) (statics s) =
    Done (Some LinkEstablished, d2, statics s, [DriverRead])).
  { unfold process_read_result. cbn [clear_completed_writes d1 complete_read set_active_read active_read
      set_active_writes is_open set_read_buffer device_new negb]. rewrite Hres. reflexivity. }
  destruct (solo_notify x _ LinkEstablished Hx) as [Hx1 Hr1].
  set (w := {| dev := d2; shared := statics s; random := rng s |}).
  destruct (init_dhcp_ok d2 xid) as (p & d3 & Hp & Hinit & Hl & Hm & Ho & Ha & Hb).
  assert (Hdraw : draw now 4 w = Done (xid, set_random w g)) by (unfold draw; cbn [w random]; by rewrite Hg, Hxid).
  assert (Hf : has_fired (registry (executor_notify x LinkEstablished)) LinkEstablished).
  { rewrite Hr1. apply notify_fires. rewrite Hreg. by eexists. }
  pose proof (poll_link w _ _ xid d3 _ Hf eq_refl Hdraw Hinit) as Hpoll.
  assert (Hsil : forall e, e <> LinkEstablished -> silent (registry (executor_notify x LinkEstablished)) e).
  { intros e He. rewrite Hr1, Hreg. apply notify_keeps_silent; [done|]. apply register_silent.
    intros (st & Hst & _). cbn in Hst. by rewrite lookup_empty in Hst. }
  assert (Hsil2 : forall e, e <> LinkEstablished -> silent (register (check_event (registry (executor_notify x
    LinkEstablished)) LinkEstablished).2 (DhcpOffer xid) 1) e)
    by (intros e He; apply register_silent, check_keeps_silent, Hsil, He).
  destruct (solo_waits _ _ w _ _ _ _ _ Hx1 Hpoll) as (x2 & Hpt & Hx2 & Hr2); [by apply Hsil2|].
  assert (Hrun : run_device now live fuel x d1 (statics s) (rng s) =
    Done (x2, set_dev (set_random w g) d3,
          [DriverRead; DriverWrite (as_u8_buffer (broadcast_header d2) ++ p)])).
  { unfold run_device. rewrite Hread. cbn [mbind outcome_bind]. fold w. by rewrite Hpt. }
  rewrite <- E1, <- E2 in Hrun. pose proof (iteration_single _ _ _ _ _ _ Hs1 Hrun) as Hit.
  clear Hinit Hg Hdraw Hpoll Hpt Hrun Hread.
  eexists _, x2, d3, p. split; [exact Hp|]. split; [exact Hit|]. clear Hit Hp. split; [|split; [exact Hm|reflexivity]].
  split; [by split|done| |done| |]; [by split; [rewrite Ho|rewrite Ha|rewrite Hb]| |]; rewrite Hr2.
  - cbn. by rewrite lookup_insert_eq.
  - by apply Hsil2.
Qed.

Lemma deliver_single (s : Stack) x d (result : Z) (frame : list Z) :
  single s x d ->
  single (deliver s result frame) x (complete_read d result frame) /\
  statics (deliver s result frame) = statics s /\ rng (deliver s result frame) = rng s.
Proof. intros [Hd Hr]. unfold deliver. by rewrite Hd. Qed.

(** The third turn: the offer is answered with REQUEST. *)
Lemma boot_offer (s : Stack) (xid : Z) x d (frame : list Z) packet opts :
  exchange s xid (at_offer xid) (DhcpOffer xid) x d -> is_u32 xid ->
  dhcp_reply_frame frame packet opts -> DhcpPacket.xid packet = u32_swap xid ->
  o_packet_type (options_of opts) = 2 ->
  let server := o_dhcp_server (options_of opts) in
  exists s' x' d' p,
    dhcp_packet (reply (client_packet (mac d) server xid) [TypeOpt 3 [];
      OtherOpt 0x32 (Ipv4Address.octets (DhcpPacket.yiaddr packet)); ServerOpt server []] []) p /\
    iteration now lookups live fuel (deliver s (Z.of_nat (length frame)) frame) =
      Done (s', [DriverWrite (as_u8_buffer (broadcast_header d) ++ p); DriverRead]) /\
    exchange s' xid (at_ack xid) (DhcpAck xid) x' d' /\ mac d' = mac d /\ statics s' = statics s.
Proof.
  intros [Hsingle Hsolo Hwait Hprog Hreg Hsil] Hx Hframe Hxid Hty server.
  destruct (deliver_single s x d (Z.of_nat (length frame)) frame Hsingle) as (Hs1 & E1 & E2).
  destruct (reply_received d frame packet opts Hwait Hframe) as (src & sp & dst & rest & Hdf).
  set (d1 := clear_completed_writes (complete_read d (Z.of_nat (length frame)) frame)) in *.
  destruct (solo_notify x _ (DhcpOffer xid) Hsolo) as [Hx1 Hr1].
  set (x1 := executor_notify x (DhcpOffer xid)) in *.
  assert (Hf : has_fired (registry x1) (DhcpOffer xid)) by (rewrite Hr1; by apply notify_fires).
  assert (Hsil1 : silent (register (check_event (registry x1) (DhcpOffer xid)).2 (DhcpAck xid) 1) (DhcpAck xid)).
  { apply register_silent, check_keeps_silent. rewrite Hr1. by apply notify_keeps_silent. }
  assert (Hopen : is_open d1 = true) by apply Hwait.
  destruct (receive_offer live now fuel d1 (statics s) xid src sp dst packet opts rest Hdf Hx
    (dr_sizes _ _ _ Hframe) (dr_opts _ _ _ Hframe) Hprog Hxid Hty) as (p & Hp & Hread).
  set (out := as_u8_buffer (broadcast_header d1) ++ p) in *. cbv zeta in Hread.
  set (d2 := after_read (add_write d1 out)) in *.
  set (w := {| dev := d2; shared := statics s; random := rng s |}).
  destruct (solo_waits _ _ w _ _ _ _ _ Hx1 (poll_offer w _ xid Hf) Hsil1) as (x2 & Hpt & Hx2 & Hr2).
  assert (Hrun : run_device now live fuel x (complete_read d (Z.of_nat (length frame)) frame) (statics s) (rng s) =
    Done (x2, w, [DriverWrite out; DriverRead])).
  { unfold run_device. fold d1. rewrite Hread. cbn [mbind outcome_bind]. fold x1 w. rewrite Hpt. reflexivity. }
  rewrite <- E1, <- E2 in Hrun. pose proof (iteration_single _ _ _ _ _ _ Hs1 Hrun) as Hit.
  eexists _, x2, d2, p. split; [exact Hp|]. split; [exact Hit|]. split; [|split; reflexivity].
  split; [split; reflexivity|exact Hx2|by apply after_read_waiting|exact Hprog| |]; rewrite Hr2; [|exact Hsil1].
  cbn. rewrite lookup_insert_eq. by eexists.
Qed.

(** The fourth turn: the acknowledgement binds the address, the datagrams that
    waited for it are sent, and the task ends. *)
Lemma boot_ack (s : Stack) (xid : Z) x d (frame : list Z) packet opts n effects :
  exchange s xid (at_ack xid) (DhcpAck xid) x d -> is_u32 xid ->
  dhcp_reply_frame frame packet opts -> DhcpPacket.xid packet = u32_swap xid ->
  o_packet_type (options_of opts) = 5 ->
  flush_pending_udp_writes (sockets (statics s)) (DhcpPacket.yiaddr packet) = Some (n, effects) ->
  exists s' x' d',
    iteration now lookups live fuel (deliver s (Z.of_nat (length frame)) frame) =
      Done (s', DriverRead :: filter outside (socket_calls effects)) /\
    network_devices s' = [(x', d')] /\ tasks x' = ∅ /\ run_queue x' = [] /\
    dhcp_state d' = bound_state now packet (options_of opts) /\
    sockets (statics s') = n /\ requests s' = omap request_of (socket_calls effects).
Proof.
  intros [Hsingle Hsolo Hwait Hprog Hreg Hsil] Hx Hframe Hxid Hty Hflush.
  destruct (deliver_single s x d (Z.of_nat (length frame)) frame Hsingle) as (Hs1 & E1 & E2).
  destruct (reply_received d frame packet opts Hwait Hframe) as (src & sp & dst & rest & Hdf).
  set (d1 := clear_completed_writes (complete_read d (Z.of_nat (length frame)) frame)) in *.
  destruct (solo_notify x _ (DhcpAck xid) Hsolo) as [Hx1 Hr1].
  set (x1 := executor_notify x (DhcpAck xid)) in *.
  assert (Hf : has_fired (registry x1) (DhcpAck xid)) by (rewrite Hr1; by apply notify_fires).
  pose proof (receive_ack live now fuel d1 (statics s) xid src sp dst packet opts rest Hdf Hx
    (dr_sizes _ _ _ Hframe) (dr_opts _ _ _ Hframe) Hprog Hxid Hty) as Hread.
  set (d2 := after_read _) in *.
  set (w := {| dev := d2; shared := statics s; random := rng s |}).
  pose proof (poll_ack w _ xid _ _ _ _ Hf eq_refl Hflush) as Hpoll.
  destruct (solo_done _ _ w _ _ _ Hx1 Hpoll) as (x2 & Hpt & Ht2 & Hq2).
  assert (Hrun : run_device now live fuel x (complete_read d (Z.of_nat (length frame)) frame) (statics s) (rng s) =
    Done (x2, set_shared w (set_sockets' (shared w) n), DriverRead :: socket_calls effects)).
  { unfold run_device. fold d1. rewrite Hread. cbn [mbind outcome_bind]. fold x1 w. rewrite Hpt. reflexivity. }
  rewrite <- E1, <- E2 in Hrun. pose proof (iteration_single _ _ _ _ _ _ Hs1 Hrun) as Hit.
  eexists _, x2, d2. split; [exact Hit|]. split; [reflexivity|]. split; [exact Ht2|]. split; [exact Hq2|].
  split; [reflexivity|]. split; reflexivity.
Qed.
End Boot.

Section Properties.
Context (now : Z) (lookups fuel : nat) (live : Z -> bool).
Local Abbreviation step := (iteration now lookups live fuel).


(** Connecting without a network device brings the network task down: a
    TCP connect to any remote host succeeds as a call and queues a request,
    and the next turn of the task panics, because it unwraps the first device
    of an empty list. *)
Theorem connect_without_device_panics (n : Net) (addr : list Z) (remote : option Ipv4Address.t)
    (port : Z) (callback : AsyncCallback) (s : Shared) (g : Random)
    (Haddr : parse_bytes addr = Some remote)
    (Hremote : match remote with Some a => is_local_name a | None => false end = false)
    (Hports : is_Some (get_ephemeral_port n)) :
  exists n' effects,
    socket_io_bind n ProtoTcp addr port callback = Some (None, n', effects) /\
    step {| network_devices := []; statics := set_sockets' s n'; rng := g;
            requests := omap request_of (socket_calls effects) |} = Panic.
Proof.
  destruct Hports as [p Hp]. unfold socket_io_bind. rewrite Haddr. cbn [mbind option_bind].
  rewrite Hremote. unfold bind_remote. rewrite Hp. eexists _, _. split; reflexivity.
Qed.
End Properties.

(** ** Examples *)

Lemma example_reply (packet : DhcpPacket.t) (opts : list dhcp_opt) :
  array_sizes packet -> Forall opt_wf opts -> Forall is_u8 (reply packet opts []) ->
  (length (reply packet opts []) <= 1400)%nat ->
  dhcp_reply_frame (example_datagram 67 68 (reply packet opts [])) packet opts.
Proof.
  intros Hs Ho Hb Hl. split; [done|done| |].
  - rewrite example_datagram_length. unfold READ_BUFFER_LEN. lia.
  - unfold example_datagram.
    destruct (create_datagram_total example_server (Ipv4Address 255 255 255 255) 67 68 (reply packet opts []))
      as [p Hp].
    rewrite Hp. exists example_header, example_server, 67, (Ipv4Address 255 255 255 255), [], p.
    split; [exact example_header_ip|]. split; [concrete_bytes|]. split; [concrete_bytes|].
    split; [by split|]. split; [exact Hb|]. split; [exact Hp|reflexivity].
Qed.

(** The first draw of the generator at boot. *)
Definition example_draw : list Z * Random :=
  Eval vm_compute in default ([], random_init) (get_random_bytes 1000 4 random_init).
Definition example_xid : Z := Eval vm_compute in load32 example_draw.1 0.

Definition example_answer : DhcpPacket.t :=
  {| DhcpPacket.op := 2; DhcpPacket.htype := 1; DhcpPacket.hlen := 6; DhcpPacket.hops := 0;
     DhcpPacket.xid := u32_swap example_xid; DhcpPacket.secs := 0; DhcpPacket.flags := 0;
     DhcpPacket.ciaddr := Ipv4Address.default; DhcpPacket.yiaddr := Ipv4Address 10 0 2 15;
     DhcpPacket.siaddr := example_server; DhcpPacket.giaddr := Ipv4Address.default;
     DhcpPacket.chaddr := DhcpPacket.chaddr_of example_mac;
     DhcpPacket.sname := replicate 64 0; DhcpPacket.file := replicate 128 0 |}.
Definition example_options (ty : Z) : list dhcp_opt :=
  [TypeOpt ty []; ServerOpt example_server []; LeaseOpt 86400 []; SubnetOpt (Ipv4Address 255 255 255 0) [];
   RouterOpt example_server []; DnsOpt [Ipv4Address 10 0 2 3]].
Definition example_stack (requests : list NetRequest) : Stack :=
  {| network_devices := []; statics := example_shared; rng := random_init; requests := requests |}.


(** "10.0.2.2", port 80. *)
Lemma connect_without_device_panics_witness :
  exists n' effects,
    socket_io_bind init_net ProtoTcp [49; 48; 46; 48; 46; 50; 46; 50] 80 (1, 2, 3) = Some (None, n', effects) /\
    iteration 0 0 (fun _ => true) 0 {| network_devices := []; statics := set_sockets' example_shared n';
      rng := random_init; requests := omap request_of (socket_calls effects) |} = Panic.
Proof.
  exact (connect_without_device_panics 0 0 0 (fun _ => true) init_net [49; 48; 46; 48; 46; 50; 46; 50]
    (Some (Ipv4Address 10 0 2 2)) 80 (1, 2, 3) example_shared random_init
    eq_refl eq_refl (ex_intro _ 49152 eq_refl)).
Defined.
