(* ===== verification/Mmu.v ===== *)
(** * Page tables and the scratch pages

    The memory management unit of the i386, as far as the kernel relies on it,
    and the code that works on page tables in place:
    [kernel/src/memory/virt/page_table.rs], [scratch.rs] and the
    [invalidate_page] of [virt/mod.rs].

    Physical memory is a map of 32-bit words by byte address.  A reference to a
    [PageTable] is a virtual address, so every access of the kernel to an entry
    is translated by the page tables it is about to change.  The translation
    buffer may hold any translation that was valid at some time and has not
    been invalidated since; an access that is in it does not walk the tables.
    A page fault inside these accesses is [None]: the handler stops the
    machine for kernel addresses. *)

From S2P Require Import Prelude Address.
Import VirtualAddress (get_page_directory_index, get_page_table_index).
Import PageTableEntry.

(** ** The machine *)

Abbreviation memory := (gmap Z Z).
Definition load (m : memory) (paddr : Z) : Z := default 0 (m !! paddr).
Definition store (m : memory) (paddr x : Z) : memory := <[paddr := x]> m.

(** The walk of the hardware from the directory at [dir]. *)
Definition walk (m : memory) (dir va : Z) : option Z :=
  let pde := load m (dir + 4 * get_page_directory_index va) in
  if is_present pde then
    let pte := load m (get_address pde + 4 * get_page_table_index va) in
    if is_present pte then Some (get_address pte + va .& 0xfff) else None
  else None.

Module Mmu.
Record t := {
  mem : memory;
  cr3 : Z;
  tlb : gmap Z Z;
  SCRATCH_PAGES : Z
}.

Definition with_mem (s : t) (m : memory) : t :=
  {| mem := m; cr3 := cr3 s; tlb := tlb s; SCRATCH_PAGES := SCRATCH_PAGES s |}.
Definition with_tlb (s : t) (b : gmap Z Z) : t :=
  {| mem := mem s; cr3 := cr3 s; tlb := b; SCRATCH_PAGES := SCRATCH_PAGES s |}.
Definition with_scratch (s : t) (b : Z) : t :=
  {| mem := mem s; cr3 := cr3 s; tlb := tlb s; SCRATCH_PAGES := b |}.

Definition translate (s : t) (va : Z) : option Z :=
  match tlb s !! (va ≫ 12) with
  | Some frame => Some (frame + va .& 0xfff)
  | None => walk (mem s) (cr3 s) va
  end.

Definition vread (s : t) (va : Z) : option Z :=
  pa ← translate s va; Some (load (mem s) pa).
Definition vwrite (s : t) (va x : Z) : option t :=
  pa ← translate s va; Some (with_mem s (store (mem s) pa x)).

(** [invlpg], and [mov cr3], which drops every translation. *)
Definition invalidate_page (s : t) (va : Z) : t := with_tlb s (delete (va ≫ 12) (tlb s)).
Definition set_current_pagedir (s : t) (phys : Z) : t :=
  {| mem := mem s; cr3 := phys; tlb := ∅; SCRATCH_PAGES := SCRATCH_PAGES s |}.

(** The hardware may put a valid translation in the buffer at any time. *)
Definition tlb_fill (s : t) (va : Z) : t :=
  match walk (mem s) (cr3 s) (va .& 0xfffff000) with
  | Some frame => with_tlb s (<[va ≫ 12 := frame]> (tlb s))
  | None => s
  end.
End Mmu.
Export Mmu (mem, cr3, tlb, SCRATCH_PAGES, with_mem, with_tlb, with_scratch, translate, vread, vwrite,
  invalidate_page).

(** ** [PageTable] *)

Module PageTable.
(** [PageTable::at_address(table).get(index)], and
    [get_mut(index)] with an update of the entry. *)
Definition entry_address (table index : Z) : Z := u32 (table + 4 * (index .& 0x3ff)).
Definition get (s : Mmu.t) (table index : Z) : option Z := vread s (entry_address table index).
Definition update (s : Mmu.t) (table index : Z) (f : Z -> Z) : option Mmu.t :=
  e ← get s table index; vwrite s (entry_address table index) (f e).

Definition current_directory : Z := 0xfffff000.

Definition zero (s : Mmu.t) (table : Z) : option Mmu.t :=
  foldl (fun o index => s ← o; update s table index (fun _ => 0)) (Some s) (seqZ 0 1024).
End PageTable.

(** ** Scratch pages *)

Definition SCRATCH_TOP : Z := 0xffc00000.
Definition SCRATCH_PAGE_COUNT : Z := 4.

Module UnmappedPage.
Record t := { address : Z; scratch_index : Z }.

Definition virtual_address (self : t) : Z := u32 (SCRATCH_TOP - (scratch_index self + 1) * 0x1000).

(** The loop over the scratch pages, from page [i] on. *)
Fixpoint map_loop (n : nat) (i mask : Z) (s : Mmu.t) (paddr : Z) : option (t * Mmu.t) :=
  match n with
  | O => None
  | S n =>
      let prev := SCRATCH_PAGES s in
      let s := with_scratch s (prev .| mask) in
      if prev .& mask =? 0 then
        let top_table := 0xffffe000 in
        let entry := 1023 - i in
        s ← PageTable.update s top_table entry (fun e => set_address e paddr);
        s ← PageTable.update s top_table entry set_present;
        let page := {| address := paddr; scratch_index := i |} in
        Some (page, invalidate_page s (virtual_address page))
      else map_loop n (i + 1) (u32 (mask ≪ 1)) s paddr
  end.
Definition map (s : Mmu.t) (paddr : Z) : option (t * Mmu.t) :=
  map_loop (Z.to_nat SCRATCH_PAGE_COUNT) 0 1 s paddr.

Definition drop (s : Mmu.t) (self : t) : Mmu.t :=
  let mask := bnot 32 (1 ≪ scratch_index self) in
  with_scratch s (SCRATCH_PAGES s .& mask).
End UnmappedPage.
