(* ===== verification/Paging.v ===== *)
(** * Virtual memory of the tasks

    [kernel/src/task/paging.rs], the memory calls of
    [kernel/src/task/actions/memory.rs], [kernel/src/memory/shared.rs], the
    table of file-backed pages of [task/memory.rs] and the release of a task's
    memory in [task/switching.rs]: the page tables of [Mmu], the frames of
    [PhysicalMemory] and the regions of [MappedMemory] working together.

    One core runs, so a lock is the atomicity of a step.  [page_in] is what the
    driver of a file answers when it is asked for a page, and the words it
    stores in the frame; the steps of other tasks while a task waits for a
    driver are not interleaved here. *)

From S2P Require Import Prelude Address PhysicalMemory MappedMemory Collections Mmu.
Import VirtualAddress (get_page_directory_index, get_page_table_index).
Import PageTableEntry.

Module PermissionFlags.
Definition USER_ACCESS : Z := 1.
Definition WRITE_ACCESS : Z := 2.
Definition NO_RECLAIM : Z := 4.
Definition has_flag (self flag : Z) : bool := negb (self .& flag =? 0).
End PermissionFlags.
Import PermissionFlags.

(** ** Page tables *)

Record Vm := { cpu : Mmu.t; phys : PhysicalMemory.state }.
Definition with_cpu (v : Vm) (c : Mmu.t) : Vm := {| cpu := c; phys := phys v |}.
Definition with_phys (v : Vm) (p : PhysicalMemory.state) : Vm := {| cpu := cpu v; phys := p |}.

(** [allocate_frame().unwrap()]. *)
Definition unwrap_frame (v : Vm)
    (o : option (result Z Bitmap.FrameBitmap.BitmapError * PhysicalMemory.state)) : option (Z * Vm) :=
  '(r, p) ← o;
  match r with Ok frame => Some (frame, with_phys v p) | Err _ => None end.
Definition new_frame (v : Vm) : option (Z * Vm) :=
  unwrap_frame v (PhysicalMemory.allocate_frame (phys v)).

(** A directory entry that is not present gets a table. *)
Definition install_table (v : Vm) (dir dir_index : Z) : option Vm :=
  '(frame_addr, v) ← new_frame v;
  c ← PageTable.update (cpu v) dir dir_index (fun e => set_address e frame_addr);
  c ← PageTable.update c dir dir_index set_present;
  if dir_index <? 768 then
    c ← PageTable.update c dir dir_index set_user_access;
    c ← PageTable.update c dir dir_index set_write_access;
    Some (with_cpu v c)
  else Some (with_cpu v c).

(** The entry of the page: its address, and the bits of [flags]. *)
Definition set_entry (c : Mmu.t) (table table_index paddr flags : Z) : option Mmu.t :=
  c ← PageTable.update c table table_index (fun e => set_address e paddr);
  c ← PageTable.update c table table_index set_present;
  c ← (if has_flag flags USER_ACCESS then PageTable.update c table table_index set_user_access else Some c);
  c ← (if has_flag flags WRITE_ACCESS then PageTable.update c table table_index set_write_access else Some c);
  if has_flag flags NO_RECLAIM then PageTable.update c table table_index set_no_reclaim else Some c.

Definition current_pagedir_map_explicit (v : Vm) (paddr vaddr flags : Z) : option Vm :=
  let dir_index := get_page_directory_index vaddr in
  let current_dir := PageTable.current_directory in
  let table_index := get_page_table_index vaddr in
  let table_address := u32 (0xffc00000 + dir_index * 0x1000) in
  entry ← PageTable.get (cpu v) current_dir dir_index;
  '(v, needs_invalidation) ←
    (if negb (is_present entry) then
       v ← install_table v current_dir dir_index;
       c ← PageTable.zero (cpu v) table_address;
       Some (with_cpu v c, false)
     else
       e ← PageTable.get (cpu v) table_address table_index;
       Some (v, is_present e));
  c ← set_entry (cpu v) table_address table_index paddr flags;
  Some (with_cpu v (if needs_invalidation : bool then invalidate_page c vaddr else c)).

Definition current_pagedir_map (v : Vm) (frame vaddr flags : Z) : option (Z * Vm) :=
  v ← current_pagedir_map_explicit v frame vaddr flags; Some (frame, v).

Definition current_pagedir_unmap (v : Vm) (vaddr : Z) : option (option Z * Vm) :=
  let dir_index := get_page_directory_index vaddr in
  let current_dir := PageTable.current_directory in
  let table_index := get_page_table_index vaddr in
  entry ← PageTable.get (cpu v) current_dir dir_index;
  if negb (is_present entry) then Some (None, v)
  else
    let table_address := u32 (0xffc00000 + dir_index * 0x1000) in
    e ← PageTable.get (cpu v) table_address table_index;
    if negb (is_present e) then Some (None, v)
    else
      c ← PageTable.update (cpu v) table_address table_index clear_present;
      e ← PageTable.get c table_address table_index;
      Some (Some (get_address e), with_cpu v c).

Definition maybe_get_current_physical_address (v : Vm) (vaddr : Z) : option (option Z) :=
  let dir_index := get_page_directory_index vaddr in
  dir_entry ← PageTable.get (cpu v) PageTable.current_directory dir_index;
  if negb (is_present dir_entry) then Some None
  else
    let table_address := u32 (0xffc00000 + dir_index * 0x1000) in
    table_entry ← PageTable.get (cpu v) table_address (get_page_table_index vaddr);
    if negb (is_present table_entry) then Some None
    else Some (Some (PhysicalAddress.add (get_address table_entry) (vaddr .& 0xfff))).

(** The user half is cleared, the kernel half copied. *)
Definition create_page_directory (v : Vm) : option (Z * Vm) :=
  '(addr, v) ← new_frame v;
  '(unmapped, c) ← UnmappedPage.map (cpu v) addr;
  let new_dir := UnmappedPage.virtual_address unmapped in
  c ← foldl (fun o i => c ← o; PageTable.update c new_dir i (fun _ => PageTableEntry.new))
        (Some c) (seqZ 0 0x300);
  c ← foldl (fun o i => c ← o; e ← PageTable.get c PageTable.current_directory i;
                       PageTable.update c new_dir i (fun _ => e))
        (Some c) (seqZ 0x300 0x100);
  c ← PageTable.update c new_dir 0x3ff (fun e => set_address e addr);
  Some (addr, with_cpu v (UnmappedPage.drop c unmapped)).

(** The page directory at [location], of a task that is not running. *)
Module ExternalPageDirectory.
Definition map (v : Vm) (location vaddr paddr flags : Z) : option Vm :=
  let dir_index := get_page_directory_index vaddr in
  let table_index := get_page_table_index vaddr in
  '(unmapped_page_dir, c) ← UnmappedPage.map (cpu v) location;
  let v := with_cpu v c in
  let page_dir := UnmappedPage.virtual_address unmapped_page_dir in
  dir_entry ← PageTable.get (cpu v) page_dir dir_index;
  let zero_frame := negb (is_present dir_entry) in
  v ← (if zero_frame then install_table v page_dir dir_index else Some v);
  dir_entry ← PageTable.get (cpu v) page_dir dir_index;
  let table_location := get_address dir_entry in
  let c := UnmappedPage.drop (cpu v) unmapped_page_dir in
  '(unmapped_page_table, c) ← UnmappedPage.map c table_location;
  let page_table := UnmappedPage.virtual_address unmapped_page_table in
  c ← (if zero_frame then PageTable.zero c page_table else Some c);
  c ← set_entry c page_table table_index paddr flags;
  Some (with_cpu v (UnmappedPage.drop c unmapped_page_table)).

Definition unmap (v : Vm) (location address : Z) : option (option Z * Vm) :=
  let dir_index := get_page_directory_index address in
  let table_index := get_page_table_index address in
  '(unmapped_for_dir, c) ← UnmappedPage.map (cpu v) location;
  let page_dir := UnmappedPage.virtual_address unmapped_for_dir in
  dir_entry ← PageTable.get c page_dir dir_index;
  if negb (is_present dir_entry) then Some (None, with_cpu v (UnmappedPage.drop c unmapped_for_dir))
  else
    let table_location := get_address dir_entry in
    '(unmapped_for_table, c) ← UnmappedPage.map c table_location;
    let page_table := UnmappedPage.virtual_address unmapped_for_table in
    let drop_both c := UnmappedPage.drop (UnmappedPage.drop c unmapped_for_table) unmapped_for_dir in
    table_entry ← PageTable.get c page_table table_index;
    if negb (is_present table_entry) then Some (None, with_cpu v (drop_both c))
    else
      let backing := get_address table_entry in
      c ← PageTable.update c page_table table_index clear_present;
      Some (Some backing, with_cpu v (drop_both c)).
End ExternalPageDirectory.

(** ** Address spaces *)

Definition USER_TOP : Z := 0xc0000000.

Record AddressSpace := {
  page_directory : Z;
  memory_mapping : list (Z * MemMappedRegion.t)
}.

Record Kernel := {
  vm : Vm;
  tasks : gmap Z AddressSpace;
  current_id : Z;
  FILE_BACKED_PAGE_TRACKER : gmap (Z * Z * Z) Z;
  SHARED_MEMORY_REFCOUNT : RefCountMap.t
}.

Definition with_vm (k : Kernel) (v : Vm) : Kernel :=
  {| vm := v; tasks := tasks k; current_id := current_id k;
     FILE_BACKED_PAGE_TRACKER := FILE_BACKED_PAGE_TRACKER k;
     SHARED_MEMORY_REFCOUNT := SHARED_MEMORY_REFCOUNT k |}.
Definition with_tasks (k : Kernel) (t : gmap Z AddressSpace) : Kernel :=
  {| vm := vm k; tasks := t; current_id := current_id k;
     FILE_BACKED_PAGE_TRACKER := FILE_BACKED_PAGE_TRACKER k;
     SHARED_MEMORY_REFCOUNT := SHARED_MEMORY_REFCOUNT k |}.
Definition with_file_pages (k : Kernel) (t : gmap (Z * Z * Z) Z) : Kernel :=
  {| vm := vm k; tasks := tasks k; current_id := current_id k;
     FILE_BACKED_PAGE_TRACKER := t; SHARED_MEMORY_REFCOUNT := SHARED_MEMORY_REFCOUNT k |}.
Definition with_shared (k : Kernel) (r : RefCountMap.t) : Kernel :=
  {| vm := vm k; tasks := tasks k; current_id := current_id k;
     FILE_BACKED_PAGE_TRACKER := FILE_BACKED_PAGE_TRACKER k; SHARED_MEMORY_REFCOUNT := r |}.
Definition with_mapping (k : Kernel) (id : Z) (t : AddressSpace) (l : list (Z * MemMappedRegion.t)) : Kernel :=
  with_tasks k (<[id := {| page_directory := page_directory t; memory_mapping := l |}]> (tasks k)).

Definition get_file_backed_page (k : Kernel) (driver_id mapping_token offset : Z) : option Z :=
  FILE_BACKED_PAGE_TRACKER k !! (driver_id, mapping_token, offset).
Definition track_file_backed_page (k : Kernel) (driver_id mapping_token offset paddr : Z) : Kernel :=
  with_file_pages k (<[(driver_id, mapping_token, offset) := paddr]> (FILE_BACKED_PAGE_TRACKER k)).
Definition untrack_file_backed_page (k : Kernel) (driver_id mapping_token offset : Z) : Kernel :=
  with_file_pages k (delete (driver_id, mapping_token, offset) (FILE_BACKED_PAGE_TRACKER k)).

Definition get_flags_for_region (region : MemMappedRegion.t) : Z :=
  let flags := USER_ACCESS .| WRITE_ACCESS in
  let flags := match MemMappedRegion.backed_by region with Direct _ => flags .| NO_RECLAIM | _ => flags end in
  match MemMappedRegion.backed_by region with
  | FileBacked _ _ _ true => flags .& bnot 8 WRITE_ACCESS
  | _ => flags
  end.

(** The frame is cleared through a scratch page. *)
Definition clear_frame (c : Mmu.t) (frame : Z) : option Mmu.t :=
  '(scratch, c) ← UnmappedPage.map c frame;
  c ← PageTable.zero c (UnmappedPage.virtual_address scratch);
  Some (UnmappedPage.drop c scratch).

(** The offsets of the pages of [size] bytes, as a loop
    [while offset < size { ..; offset += 0x1000 }] visits them.  Above
    0xfffff000 bytes the offset wraps around and the loop never ends. *)
Definition page_offsets (size : Z) : option (list Z) :=
  if 0xfffff000 <? size then None
  else Some ((fun i => i * 0x1000) <$> seqZ 0 ((size + 0xfff) / 0x1000)).

Section Paging.
Context (page_in : Z -> Z -> Z -> result Z unit * list Z).

(** What the driver stores in the frame it was given. *)
Definition fill_frame (m : memory) (frame : Z) (contents : list Z) : memory :=
  foldl (fun m '(i, x) => store m (frame + 4 * i) x) m (zip (seqZ 0 1024) contents).

Definition map_dma (v : Vm) (region : MemMappedRegion.t) (flags : Z) : option (Z * Vm) :=
  let page_count := MemMappedRegion.page_count region in
  let map_to := MemMappedRegion.address region in
  '(range_start, v) ← unwrap_frame v (PhysicalMemory.allocate_frames (phys v) page_count);
  v ← foldl (fun o i => v ← o;
        current_pagedir_map_explicit v (PhysicalAddress.add range_start (u32 (i * 0x1000)))
          (VirtualAddress.add map_to (u32 (i * 0x1000))) flags)
        (Some v) (seqZ 0 page_count);
  Some (range_start, v).

Definition page_file (k : Kernel) (address driver_id mapping_token total_offset flags : Z) (shared : bool)
    : option (option Z * Kernel) :=
  '(frame, v) ← unwrap_frame (vm k) (PhysicalMemory.allocate_frame_with_tracking (phys (vm k)));
  let '(answer, contents) := page_in driver_id mapping_token total_offset in
  let v := with_cpu v (with_mem (cpu v) (fill_frame (mem (cpu v)) frame contents)) in
  match answer with
  | Ok _ =>
      let k := with_vm k v in
      let k := if shared then track_file_backed_page k driver_id mapping_token total_offset frame else k in
      '(frame_start, v) ← current_pagedir_map (vm k) frame (prev_page_barrier address) flags;
      Some (Some (PhysicalAddress.add frame_start (address .& 0xfff)), with_vm k v)
  | Err _ =>
      '(_, p) ← PhysicalMemory.release_tracked_frame (phys v) frame;
      Some (None, with_vm k (with_phys v p))
  end.

Definition page_on_demand (k : Kernel) (address : Z) : option (option Z * Kernel) :=
  task ← tasks k !! current_id k;
  match MappedMemory.get_mapping_containing_address (memory_mapping task) address with
  | None => Some (None, k)
  | Some mem_mapping =>
      let page_offset := VirtualAddress.sub (prev_page_barrier address) (MemMappedRegion.address mem_mapping) in
      let local_offset := address .& 0xfff in
      let flags := get_flags_for_region mem_mapping in
      match MemMappedRegion.backed_by mem_mapping with
      | IsaDma =>
          '(range_start, v) ← map_dma (vm k) mem_mapping flags;
          let frame_start := PhysicalAddress.add range_start page_offset in
          Some (Some (PhysicalAddress.add frame_start local_offset), with_vm k v)
      | Direct _ => None
      | FreeMemory =>
          '(frame, v) ← unwrap_frame (vm k) (PhysicalMemory.allocate_frame_with_tracking (phys (vm k)));
          c ← clear_frame (cpu v) frame;
          '(frame_start, v) ← current_pagedir_map (with_cpu v c) frame (prev_page_barrier address) flags;
          Some (Some (PhysicalAddress.add frame_start local_offset), with_vm k v)
      | FileBacked driver_id mapping_token offset_in_file shared =>
          let total_offset := u32 (offset_in_file + page_offset) in
          match (if shared then get_file_backed_page k driver_id mapping_token total_offset else None) with
          | Some paddr =>
              p ← PhysicalMemory.maybe_add_frame_reference (phys (vm k)) paddr;
              '(_, v) ← current_pagedir_map (with_phys (vm k) p) paddr (prev_page_barrier address) flags;
              Some (Some paddr, with_vm k v)
          | None => page_file k address driver_id mapping_token total_offset flags shared
          end
      end
  end.

Definition get_current_physical_address (k : Kernel) (vaddr : Z) : option (option Z * Kernel) :=
  paddr ← maybe_get_current_physical_address (vm k) vaddr;
  match paddr with
  | Some paddr => Some (Some paddr, k)
  | None => page_on_demand k vaddr
  end.

(** ** Memory calls *)

(** The pages of a direct mapping are mapped at once. *)
Definition map_direct (k : Kernel) (location mapped_to paddr size : Z) : option Kernel :=
  let flags := USER_ACCESS .| WRITE_ACCESS in
  offsets ← page_offsets size;
  foldl (fun o offset =>
    k ← o;
    v ← ExternalPageDirectory.map (vm k) location (VirtualAddress.add mapped_to offset)
          (PhysicalAddress.add paddr offset) flags;
    p ← PhysicalMemory.maybe_add_frame_reference (phys v) (PhysicalAddress.add paddr offset);
    Some (with_vm k (with_phys v p))) (Some k) offsets.

Definition map_memory_for_task (k : Kernel) (task_id : Z) (addr : option Z) (size : Z)
    (backing : MemoryBacking) : option (result Z MemMapError * Kernel) :=
  match tasks k !! task_id with
  | None => Some (Err NoTask, k)
  | Some task =>
      let '(r, l) := MappedMemory.map_memory USER_TOP (memory_mapping task) addr size backing in
      let k := with_mapping k task_id task l in
      match r with
      | Err e => Some (Err e, k)
      | Ok mapped_to =>
          k ← match backing with
              | Direct paddr => map_direct k (page_directory task) mapped_to paddr size
              | _ => Some k
              end;
          Some (Ok mapped_to, k)
      end
  end.

Definition map_memory (k : Kernel) := map_memory_for_task k (current_id k).

(** The first region that contains the address gets another backing
    ([get_mut_mapping_containing_address] and [mem::replace]). *)
Fixpoint replace_backing (l : list (Z * MemMappedRegion.t)) (addr : Z) (backing : MemoryBacking)
    : option (MemoryBacking * list (Z * MemMappedRegion.t)) :=
  match l with
  | [] => None
  | (key, region) :: l =>
      if MemMappedRegion.contains_address region addr then
        Some (MemMappedRegion.backed_by region,
          (key, {| MemMappedRegion.address := MemMappedRegion.address region;
                   MemMappedRegion.size := MemMappedRegion.size region;
                   MemMappedRegion.backed_by := backing |}) :: l)
      else '(old, l) ← replace_backing l addr backing; Some (old, (key, region) :: l)
  end.

Definition remap_memory_for_task (k : Kernel) (task_id addr : Z) (backing : MemoryBacking)
    : result MemoryBacking MemMapError * Kernel :=
  match tasks k !! task_id with
  | None => (Err NoTask, k)
  | Some task =>
      match replace_backing (memory_mapping task) addr backing with
      | None => (Err NotMapped, k)
      | Some (old, l) => (Ok old, with_mapping k task_id task l)
      end
  end.

(** [DmaRange]: [vaddr_start], [paddr_start] and [page_count]. *)
Definition dma_with_page_count (k : Kernel) (page_count : Z)
    : option (result (Z * Z * Z) MemMapError * Kernel) :=
  let size := u32 (page_count * 0x1000) in
  '(r, k) ← map_memory k None size IsaDma;
  match r with
  | Err e => Some (Err e, k)
  | Ok vaddr_start =>
      '(paddr, k) ← page_on_demand k vaddr_start;
      Some (match paddr with
            | Some paddr_start => Ok (vaddr_start, paddr_start, page_count)
            | None => Err MappingFailed
            end, k)
  end.

Definition dma_for_byte_length (k : Kernel) (bytes : Z) : option (result (Z * Z * Z) MemMapError * Kernel) :=
  let length := if negb (bytes .& 0xfff =? 0) then u32 ((bytes .& 0xfffff000) + 0x1000) else bytes in
  dma_with_page_count k (length / 0x1000).

(** One page of an unmapped region. *)
Definition unmap_page (k : Kernel) (location : option Z) (kind : UnmappedRegionKind) (mapping : Z)
    : option (result unit MemMapError * Kernel) :=
  '(frame, v) ← (match location with
                 | None => current_pagedir_unmap (vm k) mapping
                 | Some location => ExternalPageDirectory.unmap (vm k) location mapping
                 end);
  let k := with_vm k v in
  match frame with
  | None => Some (Ok tt, k)
  | Some frame =>
      '(released, p) ← PhysicalMemory.release_tracked_frame (phys v) frame;
      let k := with_vm k (with_phys v p) in
      match released with
      | Err _ => Some (Err KernelError, k)
      | Ok released =>
          Some (Ok tt,
            match kind with
            | UFileBacked driver_id mapping_token offset_in_file true =>
                if (released : bool) then untrack_file_backed_page k driver_id mapping_token offset_in_file else k
            | _ => k
            end)
      end
  end.

Fixpoint unmap_pages (k : Kernel) (location : option Z) (kind : UnmappedRegionKind) (base : Z)
    (offsets : list Z) : option (result unit MemMapError * Kernel) :=
  match offsets with
  | [] => Some (Ok tt, k)
  | offset :: offsets =>
      '(r, k) ← unmap_page k location kind (VirtualAddress.add base offset);
      match r with
      | Err e => Some (Err e, k)
      | Ok _ => unmap_pages k location kind base offsets
      end
  end.

Fixpoint unmap_regions (k : Kernel) (location : option Z) (l : list UnmappedRegion)
    : option (result unit MemMapError * Kernel) :=
  match l with
  | [] => Some (Ok tt, k)
  | region :: l =>
      offsets ← page_offsets (usize region);
      '(r, k) ← unmap_pages k location (kind region) (uaddress region) offsets;
      match r with
      | Err e => Some (Err e, k)
      | Ok _ => unmap_regions k location l
      end
  end.

Definition unmap_memory_for_task (k : Kernel) (task_id addr size : Z)
    : option (result unit MemMapError * Kernel) :=
  match tasks k !! task_id with
  | None => Some (Err NoTask, k)
  | Some task =>
      '(r, l) ← MappedMemory.unmap_memory USER_TOP (memory_mapping task) addr size;
      let k := with_mapping k task_id task l in
      match r with
      | Err e => Some (Err e, k)
      | Ok unmapped_regions =>
          let location := if task_id =? current_id k then None else Some (page_directory task) in
          unmap_regions k location unmapped_regions
      end
  end.

Definition unmap_memory (k : Kernel) := unmap_memory_for_task k (current_id k).

(** ** Shared buffers *)

Definition shared_pages (vaddr byte_size : Z) : list Z :=
  PageIter.collect (Z.to_nat (byte_size / 0x1000 + 2)) (PageIter.for_vaddr_range vaddr byte_size).

Fixpoint share_loop (k : Kernel) (task mapping_start offset : Z) (pages : list Z) : option Kernel :=
  match pages with
  | [] => Some k
  | page_start :: pages =>
      '(frame, k) ← get_current_physical_address k page_start;
      frame_start ← frame;
      let '(_, refs) := RefCountMap.add_reference (SHARED_MEMORY_REFCOUNT k) frame_start in
      let k := with_shared k refs in
      let mapped_offset := VirtualAddress.add mapping_start offset in
      '(r, k) ← map_memory_for_task k task (Some mapped_offset) 0x1000 (Direct frame_start);
      match r with
      | Err _ => None
      | Ok _ => share_loop k task mapping_start (u32 (offset + 0x1000)) pages
      end
  end.

Definition total_shared_size (vaddr byte_size : Z) : Z :=
  let start := prev_page_barrier vaddr in
  let end_ := next_page_barrier (VirtualAddress.add vaddr byte_size) in
  VirtualAddress.sub end_ start.

Definition share_buffer (k : Kernel) (task vaddr byte_size : Z) : option (Z * Kernel) :=
  if byte_size =? 0 then Some (vaddr, k)
  else
    let total_pages := total_shared_size vaddr byte_size / 0x1000 in
    t ← tasks k !! task;
    mapping_start ← MappedMemory.find_free_mapping_space USER_TOP (memory_mapping t) (u32 (total_pages * 0x1000));
    k ← share_loop k task mapping_start 0 (shared_pages vaddr byte_size);
    Some (VirtualAddress.add mapping_start (vaddr .& 0xfff), k).

Fixpoint release_loop (k : Kernel) (pages : list Z) : option Kernel :=
  match pages with
  | [] => Some k
  | page_start :: pages =>
      '(frame, k) ← get_current_physical_address k page_start;
      frame_start ← frame;
      let '(_, refs) := RefCountMap.remove_reference (SHARED_MEMORY_REFCOUNT k) frame_start in
      release_loop (with_shared k refs) pages
  end.

Definition release_buffer (k : Kernel) (vaddr byte_size : Z) : option Kernel :=
  if byte_size =? 0 then Some k
  else
    k ← release_loop k (shared_pages vaddr byte_size);
    '(r, k) ← unmap_memory_for_task k (current_id k) (prev_page_barrier vaddr) (total_shared_size vaddr byte_size);
    match r with Ok _ => Some k | Err _ => None end.
End Paging.

(** ** Creation and end of an address space *)

(** The page directory of [create_task]. *)
Definition create_address_space (k : Kernel) (id : Z) : option Kernel :=
  '(dir, v) ← create_page_directory (vm k);
  Some (with_tasks (with_vm k v) (<[id := {| page_directory := dir; memory_mapping := MappedMemory.new |}]> (tasks k))).

(** An error of one region is logged and the loop goes on. *)
Fixpoint unmap_each (k : Kernel) (id : Z) (l : list MemMappedRegion.t) : option Kernel :=
  match l with
  | [] => Some k
  | r :: l =>
      let size := u32 (MemMappedRegion.size r + 0xfff) .& 0xfffff000 in
      '(_, k) ← unmap_memory_for_task k id (MemMappedRegion.address r) size;
      unmap_each k id l
  end.
Definition unmap_task_memory (k : Kernel) (id : Z) : option Kernel :=
  match tasks k !! id with
  | None => Some k
  | Some task => unmap_each k id (MappedMemory.drain_regions (memory_mapping task))
  end.

(** One entry of the user half: its table is freed. *)
Definition free_tables_step (page_dir : Z) (o : option Vm) (i : Z) : option Vm :=
  v ← o;
  entry ← PageTable.get (cpu v) page_dir i;
  if is_present entry then
    '(_, p) ← PhysicalMemory.release_frame (phys v) (get_address entry);
    Some (with_phys v p)
  else Some v.

Definition free_task_page_tables (k : Kernel) (id : Z) : option Kernel :=
  match tasks k !! id with
  | None => Some k
  | Some task =>
      '(unmapped_dir, c) ← UnmappedPage.map (cpu (vm k)) (page_directory task);
      let page_dir := UnmappedPage.virtual_address unmapped_dir in
      v ← foldl (free_tables_step page_dir) (Some (with_cpu (vm k) c)) (seqZ 0 768);
      let v := with_cpu v (UnmappedPage.drop (cpu v) unmapped_dir) in
      '(_, p) ← PhysicalMemory.release_frame (phys v) (page_directory task);
      Some (with_vm k (with_phys v p))
  end.

(** [clean_up_task] after the handles are closed, and [take_task]. *)
Definition clean_up_memory (k : Kernel) (id : Z) : option Kernel :=
  k ← unmap_task_memory k id;
  k ← free_task_page_tables k id;
  Some (with_tasks k (delete id (tasks k))).

(** The switch to another task loads its page directory. *)
Definition switch_space (k : Kernel) (id : Z) : option Kernel :=
  task ← tasks k !! id;
  let v := with_cpu (vm k) (Mmu.set_current_pagedir (cpu (vm k)) (page_directory task)) in
  Some {| vm := v; tasks := tasks k; current_id := id;
          FILE_BACKED_PAGE_TRACKER := FILE_BACKED_PAGE_TRACKER k;
          SHARED_MEMORY_REFCOUNT := SHARED_MEMORY_REFCOUNT k |}.
