(* ===== verification/MmuSpec.v ===== *)
(** * Page tables seen through themselves

    A page table is edited through a virtual address that the tables themselves
    translate.  [sees] says which frame an access reaches; the lemmas give the
    effect of every edit on physical memory.  [separate] is the invariant of a
    set of page directories: each one maps itself in its last entry, all share
    the table of the scratch pages, and no table is used twice except for the
    kernel half. *)

From S2P Require Import Prelude Address Mmu.
Import VirtualAddress (get_page_directory_index, get_page_table_index).
Import PageTableEntry.

Definition is_frame (F : Z) : Prop := is_u32 F /\ F mod 4096 = 0.

(** ** Entries *)

Lemma present_testbit (e : Z) : is_present e = Z.testbit e 0.
Proof.
  unfold is_present. change ENTRY_PRESENT with (1 ≪ 0). rewrite land_bit_eqb by lia.
  by rewrite negb_involutive.
Qed.

Lemma get_address_frame (e : Z) : is_u32 e -> is_frame (get_address e).
Proof. intros He. unfold get_address, is_frame. rewrite land_page_mask by done. word. Qed.

Lemma lor_u32 (a b : Z) : is_u32 a -> is_u32 b -> is_u32 (a .| b).
Proof.
  intros Ha Hb. unfold is_u32 in *. split; [apply Z.lor_nonneg; lia|].
  destruct (Z.eq_dec (a .| b) 0) as [->|Hn]; [lia|].
  apply Z.log2_lt_pow2; [pose proof (proj2 (Z.lor_nonneg a b)); lia|]. rewrite Z.log2_lor by lia.
  apply Z.max_lub_lt; [destruct (Z.eq_dec a 0) as [->|]|destruct (Z.eq_dec b 0) as [->|]];
    try (simpl; lia); apply Z.log2_lt_pow2; lia.
Qed.

(** A setter of a flag bit. *)
Lemma set_flag_facts (e k : Z) : is_u32 e -> 0 <= k < 12 ->
  is_u32 (e .| (1 ≪ k)) /\ get_address (e .| (1 ≪ k)) = get_address e /\
  (is_present e = true -> is_present (e .| (1 ≪ k)) = true).
Proof.
  intros He Hk. split; [|split; [by apply lor_flag_mask|]].
  - apply lor_u32; [done|]. unfold is_u32. rewrite Z.shiftl_1_l.
    pose proof (Z.pow_pos_nonneg 2 k). assert (2 ^ k < 2 ^ 12) by (apply Z.pow_lt_mono_r; lia). lia.
  - rewrite !present_testbit, Z.lor_spec. by intros ->.
Qed.

Lemma set_address_facts (e paddr : Z) : is_u32 e -> is_u32 paddr ->
  is_u32 (set_address e paddr) /\ get_address (set_address e paddr) = paddr - paddr mod 4096 /\
  set_address e paddr mod 4096 = e mod 4096 /\ is_present (set_address e paddr) = is_present e.
Proof.
  intros He Hp. rewrite !present_testbit, !Z.bit0_eqb. unfold get_address.
  rewrite set_address_value by done. rewrite land_page_mask by word.
  split_and!; [word|word|word|]. f_equal. word.
Qed.

Lemma set_present_facts (e : Z) : is_u32 e ->
  is_u32 (set_present e) /\ get_address (set_present e) = get_address e /\ is_present (set_present e) = true.
Proof.
  intros He. destruct (set_flag_facts e 0 He) as (H1 & H2 & _); [lia|]. split_and!; [done..|].
  rewrite present_testbit. unfold set_present. by rewrite Z.lor_spec, orb_true_r.
Qed.

Lemma clear_present_facts (e : Z) : is_u32 e ->
  is_u32 (clear_present e) /\ get_address (clear_present e) = get_address e /\
  is_present (clear_present e) = false.
Proof.
  intros He. rewrite present_testbit. unfold clear_present.
  assert (Hc : e .& bnot 32 ENTRY_PRESENT = e - e mod 2 ^ 1)
    by (apply (land_high_mask 32 1); [lia|done]).
  unfold get_address. rewrite Hc, !land_page_mask by word. split_and!; [word..|].
  rewrite Z.bit0_odd. apply Bool.negb_true_iff. rewrite Z.negb_odd. apply Z.even_spec.
  exists (e / 2). word.
Qed.

(** ** Loads and stores *)

Lemma load_store (m : memory) (a b x : Z) :
  load (store m a x) b = if decide (a = b) then x else load m b.
Proof.
  unfold load, store. case_decide as H; [by rewrite H, lookup_insert_eq|by rewrite lookup_insert_ne].
Qed.
Lemma load_store_eq (m : memory) (a x : Z) : load (store m a x) a = x.
Proof. rewrite load_store. by rewrite decide_True. Qed.
Lemma load_store_ne (m : memory) (a b x : Z) : a <> b -> load (store m a x) b = load m b.
Proof. intros. rewrite load_store. by rewrite decide_False. Qed.

Definition words_ok (m : memory) : Prop := forall a, is_u32 (load m a).

Lemma words_ok_store m a x : words_ok m -> is_u32 x -> words_ok (store m a x).
Proof. intros Hm Hx b. rewrite load_store. by case_decide. Qed.

(** The words of a frame. *)
Definition in_frame (F a : Z) : bool := (F <=? a) && (a <? F + 4096) && (a mod 4 =? 0).

Lemma in_frame_spec F a : F mod 4096 = 0 -> in_frame F a = true <-> exists i, 0 <= i < 1024 /\ a = F + 4 * i.
Proof.
  intros HF. unfold in_frame. rewrite !andb_true_iff, Z.leb_le, Z.ltb_lt, Z.eqb_eq. split.
  - intros [[H1 H2] H3]. exists ((a - F) / 4). word.
  - intros (i & Hi & ->). word.
Qed.

Lemma in_frame_entry F i : F mod 4096 = 0 -> 0 <= i < 1024 -> in_frame F (F + 4 * i) = true.
Proof. intros. apply in_frame_spec; eauto. Qed.

Lemma entry_inj F G i j : F mod 4096 = 0 -> G mod 4096 = 0 -> 0 <= i < 1024 -> 0 <= j < 1024 ->
  F + 4 * i = G + 4 * j -> F = G /\ i = j.
Proof. intros. word. Qed.

Lemma in_frame_other F G i : F mod 4096 = 0 -> G mod 4096 = 0 -> 0 <= i < 1024 -> F <> G ->
  in_frame F (G + 4 * i) = false.
Proof.
  intros HF HG Hi Hne. apply not_true_iff_false. rewrite in_frame_spec by done.
  intros (j & Hj & E). apply Hne. by destruct (entry_inj G F i j HG HF Hi Hj E).
Qed.

(** ** The walk by page number *)

Definition pde_addr (D p : Z) : Z := D + 4 * (p / 1024).
Definition table_of (m : memory) (D i : Z) : Z := get_address (load m (D + 4 * i)).
Definition pte_addr (m : memory) (D p : Z) : Z := table_of m D (p / 1024) + 4 * (p mod 1024).

Definition walk_page (m : memory) (D p : Z) : option Z :=
  if is_present (load m (pde_addr D p)) then
    let pte := load m (pte_addr m D p) in
    if is_present pte then Some (get_address pte) else None
  else None.

Lemma page_index (p o : Z) : 0 <= o < 4096 ->
  get_page_directory_index (p * 4096 + o) = p / 1024 /\
  get_page_table_index (p * 4096 + o) = p mod 1024 /\
  (p * 4096 + o) ≫ 12 = p /\ (p * 4096 + o) .& 0xfff = o.
Proof.
  intros Ho. unfold get_page_directory_index, get_page_table_index.
  rewrite land_3ff, land_fff, !shiftr_div by lia. change (2 ^ 22) with (4096 * 1024). change (2 ^ 12) with 4096.
  rewrite <- Z.div_div by lia. rewrite Z.div_add_l, (Z.div_small o) by lia. rewrite Z.add_0_r.
  split_and!; try done. rewrite Z.add_comm, Z.mod_add by lia. by apply Z.mod_small.
Qed.

Lemma walk_walk_page (m : memory) (D p o : Z) : 0 <= o < 4096 ->
  walk m D (p * 4096 + o) = (fun F => F + o) <$> walk_page m D p.
Proof.
  intros Ho. destruct (page_index p o Ho) as (E1 & E2 & _ & E4).
  unfold walk, walk_page, pte_addr, table_of, pde_addr. rewrite E1, E2, E4.
  repeat case_match; done.
Qed.

(** The walk only depends on two words. *)
Lemma walk_page_ext (m m' : memory) (D p : Z) :
  load m' (pde_addr D p) = load m (pde_addr D p) ->
  load m' (pte_addr m D p) = load m (pte_addr m D p) ->
  walk_page m' D p = walk_page m D p.
Proof.
  intros H1 H2. assert (E : pte_addr m' D p = pte_addr m D p).
  { unfold pte_addr, table_of. fold (pde_addr D p). by rewrite H1. }
  unfold walk_page. by rewrite E, H1, H2.
Qed.

(** ** Accesses of the kernel *)

(** An access to page [p] reaches frame [F]. *)
Definition sees (s : Mmu.t) (p F : Z) : Prop :=
  tlb s !! p = Some F \/ tlb s !! p = None /\ walk_page (mem s) (cr3 s) p = Some F.

Definition off_path (s : Mmu.t) (p a : Z) : Prop :=
  a <> pde_addr (cr3 s) p /\ a <> pte_addr (mem s) (cr3 s) p.

Lemma sees_translate s p F o : sees s p F -> 0 <= o < 4096 -> translate s (p * 4096 + o) = Some (F + o).
Proof.
  intros Hs Ho. unfold translate. destruct (page_index p o Ho) as (_ & _ & -> & E).
  destruct Hs as [-> | [-> Hw]]; [by rewrite E|]. rewrite walk_walk_page by done. by rewrite Hw.
Qed.

Lemma sees_store s p F a x : sees s p F -> off_path s p a -> sees (with_mem s (store (mem s) a x)) p F.
Proof.
  intros Hs [H1 H2]. destruct Hs as [Hs | [Ht Hw]]; [by left|]. right. split; [done|].
  cbn [mem cr3 with_mem]. rewrite (walk_page_ext (mem s)); [done|by apply load_store_ne..].
Qed.

Lemma off_path_store s p a x b : off_path s p a -> off_path s p b ->
  off_path (with_mem s (store (mem s) a x)) p b.
Proof.
  intros [H1 H2] [H3 H4]. split; [done|]. cbn [mem cr3 with_mem].
  unfold pte_addr, table_of. fold (pde_addr (cr3 s) p). rewrite load_store_ne by done. done.
Qed.

Lemma off_path_ext c m' p a : load m' (pde_addr (cr3 c) p) = load (mem c) (pde_addr (cr3 c) p) ->
  off_path c p a -> off_path (with_mem c m') p a.
Proof.
  intros E [H1 H2]. split; [done|]. cbn [mem cr3 with_mem].
  unfold pte_addr, table_of in *. fold (pde_addr (cr3 c) p) in *. by rewrite E.
Qed.

Lemma entry_address_page (p i : Z) : 0 <= p < 2 ^ 20 -> 0 <= i < 1024 ->
  PageTable.entry_address (p * 4096) i = p * 4096 + 4 * i.
Proof.
  intros Hp Hi. change (2 ^ 20) with 1048576 in Hp. unfold PageTable.entry_address. rewrite land_3ff.
  rewrite (Z.mod_small i) by lia. word.
Qed.

Lemma get_sees s p F i : sees s p F -> 0 <= p < 2 ^ 20 -> 0 <= i < 1024 ->
  PageTable.get s (p * 4096) i = Some (load (mem s) (F + 4 * i)).
Proof.
  intros Hs Hp Hi. unfold PageTable.get, vread. rewrite entry_address_page by done.
  rewrite (sees_translate s p F) by (done || lia). done.
Qed.

Lemma update_sees s p F i f : sees s p F -> 0 <= p < 2 ^ 20 -> 0 <= i < 1024 ->
  PageTable.update s (p * 4096) i f =
    Some (with_mem s (store (mem s) (F + 4 * i) (f (load (mem s) (F + 4 * i))))).
Proof.
  intros Hs Hp Hi. unfold PageTable.update. rewrite (get_sees s p F) by done. cbn [mbind option_bind].
  unfold vwrite. rewrite entry_address_page by done. rewrite (sees_translate s p F) by (done || lia). done.
Qed.

(** Writing one word after the other, the path of the page not among them. *)
Lemma updates_sees s p F (l : list Z) (f : Z -> Z -> Z) :
  sees s p F -> 0 <= p < 2 ^ 20 -> NoDup l -> Forall (fun i => 0 <= i < 1024) l ->
  (forall i, i ∈ l -> off_path s p (F + 4 * i)) -> F mod 4096 = 0 ->
  exists s', foldl (fun o i => c ← o; PageTable.update c (p * 4096) i (f i)) (Some s) l = Some s' /\
    s' = with_mem s (mem s') /\ sees s' p F /\
    forall a, load (mem s') a =
      (if in_frame F a && bool_decide ((a - F) / 4 ∈ l) then f ((a - F) / 4) (load (mem s) a) else load (mem s) a).
Proof.
  intros Hs Hp Hnd Hl Hpath HF. induction l as [|i l IH] using rev_ind.
  - exists s. split_and!; [done|by destruct s|done|]. intros a.
    rewrite bool_decide_false by apply not_elem_of_nil. by rewrite andb_false_r.
  - apply NoDup_app in Hnd as (Hnd & Hni & _). apply Forall_app in Hl as [Hl Hi].
    rewrite Forall_singleton in Hi.
    destruct IH as (s1 & H1 & E1 & Hs1 & L1); [done|done|intros j Hj; apply Hpath; set_solver|].
    rewrite foldl_snoc, H1. cbn [mbind option_bind]. rewrite (update_sees s1 p F) by done.
    assert (Hoff : off_path s1 p (F + 4 * i)).
    { destruct (Hpath i ltac:(set_solver)) as [Ha Hb]. rewrite E1. split; [done|].
      cbn [mem cr3 with_mem]. unfold pte_addr, table_of. fold (pde_addr (cr3 s) p).
      rewrite L1. destruct (in_frame F (pde_addr (cr3 s) p)) eqn:Hin; [|done].
      apply in_frame_spec in Hin as (j & Hj & Ej); [|done]. cbn [andb].
      replace ((pde_addr (cr3 s) p - F) / 4) with j by (rewrite Ej; word).
      rewrite bool_decide_false; [done|]. intros Hjl.
      destruct (Hpath j ltac:(set_solver)) as [Hc _]. by rewrite Ej in Hc. }
    eexists. split; [done|]. split; [by rewrite E1 at 1|]. split; [by apply sees_store|].
    intros a. cbn [mem with_mem]. rewrite load_store, !L1. case_decide as Ha.
    + subst a. rewrite in_frame_entry by done. cbn [andb].
      replace ((F + 4 * i - F) / 4) with i by word.
      rewrite (bool_decide_false (i ∈ l)) by (intros Hil; by apply (Hni i Hil); set_solver).
      rewrite bool_decide_true by set_solver. done.
    + destruct (in_frame F a) eqn:Hin; [|done]. apply in_frame_spec in Hin as (j & Hj & ->); [|done].
      cbn [andb]. replace ((F + 4 * j - F) / 4) with j by word.
      destruct (decide (j ∈ l)) as [Hjl|Hjl].
      * by rewrite !bool_decide_true by set_solver.
      * rewrite (bool_decide_false (j ∈ l)), bool_decide_false; [done| |done].
        intros [?|Hj']%elem_of_app; [done|].
        apply list_elem_of_singleton in Hj' as ->. done.
Qed.

Lemma zero_sees s p F :
  sees s p F -> 0 <= p < 2 ^ 20 -> F mod 4096 = 0 ->
  (forall i, 0 <= i < 1024 -> off_path s p (F + 4 * i)) ->
  exists s', PageTable.zero s (p * 4096) = Some s' /\ s' = with_mem s (mem s') /\ sees s' p F /\
    forall a, load (mem s') a = if in_frame F a then 0 else load (mem s) a.
Proof.
  intros Hs Hp HF Hpath.
  destruct (updates_sees s p F (seqZ 0 1024) (fun _ _ => 0)) as (s' & H & E & Hs' & L);
    [done|done|apply NoDup_seqZ|apply Forall_seqZ; lia| |done|].
  { intros i Hi. apply elem_of_seqZ in Hi. apply Hpath. lia. }
  exists s'. split_and!; [exact H|done..|]. intros a. rewrite L.
  destruct (in_frame F a) eqn:Hin; [|done]. apply in_frame_spec in Hin as (j & Hj & ->); [|done].
  rewrite bool_decide_true; [done|]. apply elem_of_seqZ. word.
Qed.

(** ** Page directories *)

Record separate (m : memory) (top : Z) (dirs : gset Z) : Prop := {
  sep_words : words_ok m;
  sep_dir : forall D, D ∈ dirs -> is_frame D;
  sep_self : forall D, D ∈ dirs -> is_present (load m (D + 4 * 1023)) = true /\ table_of m D 1023 = D;
  sep_top : forall D, D ∈ dirs -> is_present (load m (D + 4 * 1022)) = true /\ table_of m D 1022 = top;
  sep_tables : forall D D' i i', D ∈ dirs -> D' ∈ dirs -> 0 <= i < 1023 -> 0 <= i' < 1023 ->
    is_present (load m (D + 4 * i)) = true -> is_present (load m (D' + 4 * i')) = true ->
    table_of m D i = table_of m D' i' -> i = i' /\ (D = D' \/ 768 <= i);
  sep_not_dir : forall D D' i, D ∈ dirs -> D' ∈ dirs -> 0 <= i < 1023 ->
    is_present (load m (D + 4 * i)) = true -> table_of m D i <> D'
}.

(** The translations of kernel pages in the buffer are those of the tables.
    Nothing is said about user pages. *)
Definition coherent (s : Mmu.t) : Prop :=
  forall p F, 0xc0000 <= p < 2 ^ 20 -> tlb s !! p = Some F -> walk_page (mem s) (cr3 s) p = Some F.

Record machine_ok (s : Mmu.t) (top : Z) (dirs : gset Z) : Prop := {
  ok_separate : separate (mem s) top dirs;
  ok_coherent : coherent s;
  ok_cr3 : cr3 s ∈ dirs
}.

Section Directories.
Context (m : memory) (top : Z) (dirs : gset Z) (Hsep : separate m top dirs).
Context (D : Z) (HD : D ∈ dirs).

Lemma table_of_frame i : is_frame (table_of m D i).
Proof. apply get_address_frame, (sep_words _ _ _ Hsep). Qed.

Lemma top_facts : is_frame top /\ top ∉ dirs.
Proof.
  destruct (sep_top _ _ _ Hsep D HD) as [Hp Ht]. split; [rewrite <- Ht; apply table_of_frame|].
  intros Hin. by apply (sep_not_dir _ _ _ Hsep D top 1022 HD Hin); [lia| |].
Qed.

(** The other tables are neither directories nor the scratch table. *)
Lemma table_facts i : 0 <= i < 1022 -> is_present (load m (D + 4 * i)) = true ->
  is_frame (table_of m D i) /\ (table_of m D i ∉ dirs) /\ table_of m D i <> top.
Proof.
  intros Hi Hpr. destruct (sep_top _ _ _ Hsep D HD) as [H1 H2]. split_and!.
  - apply table_of_frame.
  - intros Hin. by apply (sep_not_dir _ _ _ Hsep D _ i HD Hin); [lia| |].
  - intros He. destruct (sep_tables _ _ _ Hsep D D i 1022) as [E _];
      [done|done|lia|lia|done|done|congruence|lia].
Qed.

(** The directory and its tables are seen in the last pages. *)
Lemma walk_directory : walk_page m D 0xfffff = Some D.
Proof.
  destruct (sep_self _ _ _ Hsep D HD) as [Hp Ht]. unfold walk_page, pte_addr, pde_addr.
  change (0xfffff / 1024) with 1023. change (0xfffff mod 1024) with 1023. rewrite Hp, Ht. cbn zeta.
  rewrite Hp. f_equal. exact Ht.
Qed.

Lemma walk_table d : 0 <= d < 1024 -> is_present (load m (D + 4 * d)) = true ->
  walk_page m D (0xffc00 + d) = Some (table_of m D d).
Proof.
  intros Hd Hpd. destruct (sep_self _ _ _ Hsep D HD) as [Hp Ht]. unfold walk_page, pte_addr, pde_addr.
  replace ((0xffc00 + d) / 1024) with 1023 by word. replace ((0xffc00 + d) mod 1024) with d by word.
  rewrite Hp, Ht. cbn zeta. rewrite Hpd. done.
Qed.
End Directories.

Lemma coherent_sees s p F : coherent s -> 0xc0000 <= p < 2 ^ 20 ->
  walk_page (mem s) (cr3 s) p = Some F -> sees s p F.
Proof.
  intros Hc Hp Hw. destruct (tlb s !! p) as [G|] eqn:Ht; [left|by right].
  pose proof (Hc p G Hp Ht). congruence.
Qed.

(** ** Changes outside the directories *)

(** [m'] is [m] except for words that are not in a directory of [dirs]. *)
Definition same_directories (dirs : gset Z) (m m' : memory) : Prop :=
  forall D i, D ∈ dirs -> 0 <= i < 1024 -> load m' (D + 4 * i) = load m (D + 4 * i).

Lemma same_table_of dirs m m' D i : same_directories dirs m m' -> D ∈ dirs -> 0 <= i < 1024 ->
  table_of m' D i = table_of m D i.
Proof. intros H HD Hi. unfold table_of. by rewrite H. Qed.

Lemma separate_same m m' top dirs :
  separate m top dirs -> same_directories dirs m m' -> words_ok m' -> separate m' top dirs.
Proof.
  intros Hs Hsame Hw. split; [done|apply Hs|..].
  - intros D HD. rewrite Hsame, (same_table_of dirs m) by (done || lia). by apply (sep_self _ _ _ Hs).
  - intros D HD. rewrite Hsame, (same_table_of dirs m) by (done || lia). by apply (sep_top _ _ _ Hs).
  - intros D D' i i' HD HD' Hi Hi'. rewrite (Hsame D i), (Hsame D' i') by (done || lia).
    rewrite (same_table_of dirs m m' D i), (same_table_of dirs m m' D' i') by (done || lia).
    by apply (sep_tables _ _ _ Hs).
  - intros D D' i HD HD' Hi. rewrite Hsame, (same_table_of dirs m) by (done || lia).
    by apply (sep_not_dir _ _ _ Hs).
Qed.

Lemma walk_page_same dirs m m' D p :
  same_directories dirs m m' -> D ∈ dirs -> 0 <= p < 2 ^ 20 ->
  (is_present (load m (pde_addr D p)) = true -> load m' (pte_addr m D p) = load m (pte_addr m D p)) ->
  walk_page m' D p = walk_page m D p.
Proof.
  intros Hsame HD Hp Hpte. change (2 ^ 20) with 1048576 in Hp.
  assert (E : load m' (pde_addr D p) = load m (pde_addr D p)) by (apply Hsame; [done|word]).
  unfold walk_page. rewrite E. destruct (is_present (load m (pde_addr D p))) eqn:Hpr; [|done].
  replace (pte_addr m' D p) with (pte_addr m D p); [by rewrite Hpte|].
  unfold pte_addr, table_of. fold (pde_addr D p). by rewrite E.
Qed.

(** The words of the scratch entries. *)
Definition scratch_slot (top a : Z) : Prop := exists j, 1020 <= j < 1024 /\ a = top + 4 * j.

Definition same_but_scratch (top : Z) (m m' : memory) : Prop :=
  forall a, ~ scratch_slot top a -> load m' a = load m a.

Lemma same_but_scratch_refl top m : same_but_scratch top m m.
Proof. done. Qed.
Lemma same_but_scratch_trans top m1 m2 m3 :
  same_but_scratch top m1 m2 -> same_but_scratch top m2 m3 -> same_but_scratch top m1 m3.
Proof. intros H1 H2 a Ha. by rewrite H2, H1. Qed.

Lemma not_scratch_slot top G i : top mod 4096 = 0 -> G mod 4096 = 0 -> G <> top -> 0 <= i < 1024 ->
  ~ scratch_slot top (G + 4 * i).
Proof.
  intros Ht HG Hne Hi (j & Hj & E). destruct (entry_inj G top i j) as [? _]; [done|done|lia|lia|done|congruence].
Qed.

Lemma scratch_same_directories m m' top dirs :
  separate m top dirs -> same_but_scratch top m m' -> same_directories dirs m m'.
Proof.
  intros Hs Hsame D i HD Hi. apply Hsame. destruct (top_facts m top dirs Hs D HD) as [[_ Htop] Hn].
  apply not_scratch_slot; [done|apply (sep_dir _ _ _ Hs D HD)|congruence|done].
Qed.

(** A present table is the scratch table only for the last pages. *)
Lemma pte_in_top m top dirs D p j :
  separate m top dirs -> D ∈ dirs -> 0 <= p < 2 ^ 20 -> 0 <= j < 1024 ->
  is_present (load m (pde_addr D p)) = true -> pte_addr m D p = top + 4 * j -> p = 1022 * 1024 + j.
Proof.
  intros Hs HD Hp Hj Hpr E. change (2 ^ 20) with 1048576 in Hp.
  destruct (top_facts m top dirs Hs D HD) as [[_ Htop] Hn].
  destruct (entry_inj (table_of m D (p / 1024)) top (p mod 1024) j) as [Ht Hmod];
    [apply (table_of_frame m top dirs Hs D)|done|word|lia|done|].
  destruct (Z.eq_dec (p / 1024) 1023) as [E1|E1].
  - rewrite E1 in Ht. destruct (sep_self _ _ _ Hs D HD) as [_ Hself]. congruence.
  - destruct (sep_top _ _ _ Hs D HD) as [Hp1 Ht1].
    destruct (sep_tables _ _ _ Hs D D (p / 1024) 1022 HD HD) as [E2 _]; [word|lia|done|done|congruence|].
    word.
Qed.

(** Pages in front of the scratch pages, and the recursive pages. *)
Lemma walk_page_scratch m m' top dirs D p :
  separate m top dirs -> same_but_scratch top m m' -> D ∈ dirs -> 0 <= p < 2 ^ 20 ->
  p < 0xffbfc \/ 0xffc00 <= p -> walk_page m' D p = walk_page m D p.
Proof.
  intros Hs Hsame HD Hp Hnot.
  apply (walk_page_same dirs); [by eapply scratch_same_directories|done|done|].
  intros Hpr. apply Hsame. intros (j & Hj & E). apply (pte_in_top m top dirs) in E; [lia|done..|lia|done].
Qed.

(** ** Scratch pages *)

(** Mapping a scratch page, with none or one in use: the first free one is
    pointed at the frame, and nothing else changes. *)
Lemma scratch_map (c : Mmu.t) (top : Z) (dirs : gset Z) (paddr : Z) :
  machine_ok c top dirs -> SCRATCH_PAGES c = 0 \/ SCRATCH_PAGES c = 1 -> is_frame paddr ->
  exists c' E,
    let i := SCRATCH_PAGES c in
    UnmappedPage.map c paddr = Some ({| UnmappedPage.address := paddr; UnmappedPage.scratch_index := i |}, c') /\
    cr3 c' = cr3 c /\ SCRATCH_PAGES c' = 2 * i + 1 /\ tlb c' = delete (0xffbff - i) (tlb c) /\
    (forall a, load (mem c') a = if decide (top + 4 * (1023 - i) = a) then E else load (mem c) a) /\
    is_u32 E /\ is_present E = true /\ get_address E = paddr.
Proof.
  intros [Hs Hc Hcr] Hb Hpa. destruct (top_facts _ _ _ Hs _ Hcr) as [Htop Hn].
  destruct (sep_top _ _ _ Hs _ Hcr) as [Hp Ht].
  set (i := SCRATCH_PAGES c) in *.
  assert (Hsee : sees c 0xffffe top).
  { apply coherent_sees; [done|lia|]. rewrite <- Ht. by apply (walk_table _ _ _ Hs _ Hcr 1022). }
  set (s1 := with_scratch c (i .| (1 ≪ i))).
  assert (Hoff : off_path s1 0xffffe (top + 4 * (1023 - i))).
  { unfold off_path, pde_addr, pte_addr. cbn [mem cr3 with_scratch s1].
    change (0xffffe / 1024) with 1023. change (0xffffe mod 1024) with 1022.
    destruct (sep_self _ _ _ Hs _ Hcr) as [_ ->]. destruct (sep_dir _ _ _ Hs _ Hcr) as [_ Hal].
    split; intros E; apply entry_inj in E as [E _]; try (done || lia || apply Htop); congruence. }
  set (e := load (mem c) (top + 4 * (1023 - i))).
  pose proof (sep_words _ _ _ Hs (top + 4 * (1023 - i))) as He. fold e in He.
  destruct (set_address_facts e paddr He) as (Hu1 & Ha1 & _); [apply Hpa|].
  destruct (set_present_facts _ Hu1) as (Hu2 & Ha2 & Hp2).
  exists (invalidate_page (with_mem s1 (store (store (mem c) (top + 4 * (1023 - i)) (set_address e paddr))
     (top + 4 * (1023 - i)) (set_present (set_address e paddr)))) ((0xffbff - i) * 4096)),
    (set_present (set_address e paddr)).
  cbn zeta. split_and!.
  - assert (Hone : forall n, UnmappedPage.map_loop (S n) i (1 ≪ i) (with_scratch c i) paddr =
      Some ({| UnmappedPage.address := paddr; UnmappedPage.scratch_index := i |},
        invalidate_page (with_mem s1 (store (store (mem c) (top + 4 * (1023 - i)) (set_address e paddr))
          (top + 4 * (1023 - i)) (set_present (set_address e paddr)))) ((0xffbff - i) * 4096))).
    { intros n. cbn [UnmappedPage.map_loop]. cbn [SCRATCH_PAGES with_scratch].
      replace (i .& (1 ≪ i) =? 0) with true by (destruct Hb as [-> | ->]; done).
      change (with_scratch (with_scratch c i) (i .| (1 ≪ i))) with s1.
      assert (Hsee1 : sees s1 0xffffe top) by exact Hsee.
      change 0xffffe000 with (0xffffe * 4096).
      rewrite (update_sees s1 0xffffe top) by (done || lia). cbn [mbind option_bind].
      rewrite (update_sees _ 0xffffe top) by (lia || by apply sees_store). cbn [mbind option_bind].
      cbn [mem with_mem s1 with_scratch]. rewrite load_store_eq. fold e. do 2 f_equal.
      unfold UnmappedPage.virtual_address, SCRATCH_TOP. cbn [UnmappedPage.scratch_index]. unfold invalidate_page.
      do 2 f_equal. f_equal. destruct Hb as [-> | ->]; done. }
    unfold UnmappedPage.map. change (Z.to_nat SCRATCH_PAGE_COUNT) with 4%nat.
    assert (Hid : with_scratch c i = c) by (subst i; by destruct c).
    destruct Hb as [Hb|Hb].
    + rewrite <- Hid at 1. specialize (Hone 3%nat). rewrite Hb in Hone |- *. exact Hone.
    + rewrite <- Hid at 1. specialize (Hone 2%nat). rewrite Hb in Hone |- *.
      cbn [UnmappedPage.map_loop]. cbn [SCRATCH_PAGES with_scratch].
      change (1 .& 1 =? 0) with false. cbn iota. exact Hone.
  - done.
  - cbn [SCRATCH_PAGES invalidate_page with_tlb with_mem s1 with_scratch]. destruct Hb as [-> | ->]; done.
  - cbn [tlb invalidate_page with_tlb with_mem s1 with_scratch]. f_equal.
    rewrite shiftr_div by lia. change (2 ^ 12) with 4096. word.
  - intros a. cbn [mem invalidate_page with_tlb with_mem]. rewrite !load_store.
    repeat case_decide; done.
  - done.
  - done.
  - rewrite Ha2, Ha1. destruct Hpa as [_ Hal]. lia.
Qed.

(** A change that keeps the directories and every kernel translation in the
    buffer. *)
Lemma machine_ok_change (s s' : Mmu.t) (top : Z) (dirs : gset Z) :
  machine_ok s top dirs -> cr3 s' = cr3 s -> separate (mem s') top dirs ->
  (forall p F, 0xc0000 <= p < 2 ^ 20 -> tlb s' !! p = Some F ->
    tlb s !! p = Some F /\ (walk_page (mem s) (cr3 s) p = Some F -> walk_page (mem s') (cr3 s) p = Some F)) ->
  machine_ok s' top dirs.
Proof.
  intros [Hs Hc Hcr] E Hs' Hw. split; [done| |by rewrite E].
  intros p F Hp Ht. destruct (Hw p F Hp Ht) as [H1 H2]. rewrite E. by apply H2, Hc.
Qed.

(** Mapping a scratch page keeps the invariant, and gives access to the frame. *)
Lemma scratch_map_ok (c : Mmu.t) (top : Z) (dirs : gset Z) (paddr : Z) :
  machine_ok c top dirs -> SCRATCH_PAGES c = 0 \/ SCRATCH_PAGES c = 1 -> is_frame paddr ->
  exists page c',
    let i := SCRATCH_PAGES c in
    UnmappedPage.map c paddr = Some (page, c') /\ UnmappedPage.scratch_index page = i /\
    UnmappedPage.virtual_address page = (0xffbff - i) * 4096 /\
    machine_ok c' top dirs /\ sees c' (0xffbff - i) paddr /\
    same_but_scratch top (mem c) (mem c') /\
    cr3 c' = cr3 c /\ SCRATCH_PAGES c' = 2 * i + 1 /\ tlb c' = delete (0xffbff - i) (tlb c) /\
    pte_addr (mem c') (cr3 c') (0xffbff - i) = top + 4 * (1023 - i).
Proof.
  intros Hok Hb Hpa. destruct (scratch_map c top dirs paddr Hok Hb Hpa)
    as (c' & E & H1 & Hcr3 & Hscr & Htlb & L & HE & HEp & HEa). cbn zeta in *.
  destruct Hok as [Hs Hc Hcr]. destruct (top_facts _ _ _ Hs _ Hcr) as [Htop Hn].
  set (i := SCRATCH_PAGES c) in *. assert (Hi : 0 <= i <= 1) by lia.
  assert (Hsame : same_but_scratch top (mem c) (mem c')).
  { intros a Ha. rewrite L, decide_False; [done|]. intros <-. apply Ha. exists (1023 - i). lia. }
  assert (Hs' : separate (mem c') top dirs).
  { apply (separate_same (mem c)); [done|by eapply scratch_same_directories|].
    intros a. rewrite L. case_decide; [done|apply (sep_words _ _ _ Hs)]. }
  destruct (sep_top _ _ _ Hs' _ Hcr) as [Htp Htt].
  assert (Ep : pte_addr (mem c') (cr3 c') (0xffbff - i) = top + 4 * (1023 - i)).
  { rewrite Hcr3. unfold pte_addr. replace ((0xffbff - i) / 1024) with 1022 by word.
    rewrite Htt. f_equal. f_equal. word. }
  eexists _, c'. split_and!; [exact H1|done|..].
  - unfold UnmappedPage.virtual_address, SCRATCH_TOP. cbn [UnmappedPage.scratch_index]. word.
  - apply (machine_ok_change c); [done|done|done|]. intros p F Hp. rewrite Htlb.
    intros [Hne Ht]%lookup_delete_Some. split; [done|]. intros Hw. rewrite <- Hw.
    apply (walk_page_same dirs); [by eapply scratch_same_directories|done|lia|].
    intros Hpr. rewrite L, decide_False; [done|]. intros E'. symmetry in E'.
    apply (pte_in_top _ _ _ _ _ _ Hs Hcr) in E'; [lia|lia|lia|done].
  - right. split; [by rewrite Htlb, lookup_delete_eq|]. unfold walk_page. rewrite Ep.
    unfold pde_addr. replace ((0xffbff - i) / 1024) with 1022 by word. rewrite Hcr3, Htp. cbn zeta.
    rewrite L, decide_True by done. by rewrite HEp, HEa.
  - done.
  - done.
  - done.
  - done.
  - done.
Qed.

Lemma scratch_drop (c : Mmu.t) (page : UnmappedPage.t) (i : Z) :
  UnmappedPage.scratch_index page = i -> i = 0 \/ i = 1 -> SCRATCH_PAGES c = 2 * i + 1 ->
  UnmappedPage.drop c page = with_scratch c i.
Proof.
  intros E Hi Hs. unfold UnmappedPage.drop. rewrite E, Hs. f_equal. destruct Hi as [-> | ->]; done.
Qed.

Lemma machine_ok_scratch c top dirs b : machine_ok c top dirs <-> machine_ok (with_scratch c b) top dirs.
Proof. split; intros [H1 H2 H3]; by split. Qed.

(** A word outside the path of a scratch page. *)
Lemma scratch_off_path c top dirs G i j :
  machine_ok c top dirs -> (i = 0 \/ i = 1) -> pte_addr (mem c) (cr3 c) (0xffbff - i) = top + 4 * (1023 - i) ->
  G mod 4096 = 0 -> G <> top -> 0 <= j < 1024 -> (G = cr3 c -> j <> 1022) ->
  off_path c (0xffbff - i) (G + 4 * j).
Proof.
  intros [Hs _ Hcr] Hi Ep HG Hne Hj Hd. destruct (top_facts _ _ _ Hs _ Hcr) as [[_ Htop] Hn].
  destruct (sep_dir _ _ _ Hs _ Hcr) as [_ Hal]. unfold off_path. rewrite Ep. unfold pde_addr.
  replace ((0xffbff - i) / 1024) with 1022 by word.
  split; intros E; apply entry_inj in E as [E1 E2]; done || lia.
Qed.
