(* ===== verification/PagingSpec.v ===== *)
(** * The virtual memory calls on physical memory

    What the map and unmap calls of [Paging] do to the words of physical
    memory, for the running task and for another one, and from that to the
    translations of every address space. *)

From S2P Require Import Prelude Address Bitmap Tracking PhysicalMemory MappedMemory Collections Mmu MmuSpec Paging.
Import VirtualAddress (get_page_directory_index, get_page_table_index).
Import PageTableEntry PermissionFlags.

(** ** Entries *)

Definition entry_value (e paddr flags : Z) : Z :=
  let e := set_present (set_address e paddr) in
  let e := if has_flag flags USER_ACCESS then set_user_access e else e in
  let e := if has_flag flags WRITE_ACCESS then set_write_access e else e in
  if has_flag flags NO_RECLAIM then set_no_reclaim e else e.

Definition pde_value (e frame dir_index : Z) : Z :=
  let e := set_present (set_address e frame) in
  if dir_index <? 768 then set_write_access (set_user_access e) else e.

(** An entry that is present and points to [F]. *)
Definition points_to (e F : Z) : Prop := is_u32 e /\ is_present e = true /\ get_address e = F.

Lemma points_to_flag e F k : points_to e F -> 0 <= k < 12 -> points_to (e .| (1 ≪ k)) F.
Proof.
  intros (H1 & H2 & H3) Hk. destruct (set_flag_facts e k H1 Hk) as (Ha & Hb & Hc).
  split_and!; [done|by apply Hc|congruence].
Qed.

(** Flag setters do not change where an entry points. *)
Ltac flags :=
  unfold set_no_reclaim, set_write_access, set_user_access in *;
  change ENTRY_NO_RECLAIM with (1 ≪ 10) in *; change ENTRY_WRITE_ACCESS with (1 ≪ 1) in *;
  change ENTRY_USER_ACCESS with (1 ≪ 2) in *; repeat (done || (apply points_to_flag; [|lia])).

Lemma points_to_set e F : is_u32 e -> is_frame F -> points_to (set_present (set_address e F)) F.
Proof.
  intros He [HF Hal]. destruct (set_address_facts e F He HF) as (H1 & H2 & _).
  destruct (set_present_facts _ H1) as (H3 & H4 & H5). split_and!; [done..|]. rewrite H4, H2. lia.
Qed.

Lemma entry_value_points e F flags : is_u32 e -> is_frame F -> points_to (entry_value e F flags) F.
Proof.
  intros He HF. unfold entry_value. pose proof (points_to_set e F He HF) as H.
  repeat case_match; flags.
Qed.

Lemma pde_value_points e F di : is_u32 e -> is_frame F -> points_to (pde_value e F di) F.
Proof.
  intros He HF. unfold pde_value. pose proof (points_to_set e F He HF) as H. case_match; flags.
Qed.

(** ** Edits of one word *)

(** [c'] is [c] with the word [w] set to [x]. *)
Definition writes (c c' : Mmu.t) (w x : Z) : Prop :=
  c' = with_mem c (mem c') /\ forall a, load (mem c') a = if decide (w = a) then x else load (mem c) a.

Lemma writes_refl c w : writes c c w (load (mem c) w).
Proof. split; [by destruct c|]. intros a. by case_decide; subst. Qed.

Lemma update_writes c q T j w x f c1 :
  writes c c1 w x -> w = T + 4 * j -> sees c q T -> off_path c q w -> 0 <= q < 2 ^ 20 -> 0 <= j < 1024 ->
  exists c2, PageTable.update c1 (q * 4096) j f = Some c2 /\ writes c c2 w (f x).
Proof.
  intros [E L] -> Hs Hoff Hq Hj.
  assert (Hs1 : sees c1 q T).
  { destruct Hs as [Hs|[Ht Hw]]; [left; by rewrite E|right; split; [by rewrite E|]].
    rewrite E. cbn [mem cr3 with_mem]. rewrite (walk_page_ext (mem c)); [done|..];
      rewrite L, decide_False; try done; intros Ha; destruct Hoff; congruence. }
  rewrite (update_sees c1 q T) by done. eexists. split; [done|]. split.
  - rewrite E at 1. done.
  - intros a. cbn [mem with_mem]. rewrite load_store, L. case_decide; [|by rewrite L, decide_False].
    by rewrite decide_True.
Qed.

Lemma writes_sees c c' w x q T : writes c c' w x -> off_path c q w -> sees c q T -> sees c' q T.
Proof.
  intros [E L] Hoff [Hs|[Ht Hw]]; [left; by rewrite E|right; split; [by rewrite E|]].
  rewrite E. cbn [mem cr3 with_mem]. rewrite (walk_page_ext (mem c)); [done|..];
    rewrite L, decide_False; try done; intros Ha; destruct Hoff; congruence.
Qed.

Lemma set_entry_sees c q T j paddr flags :
  sees c q T -> off_path c q (T + 4 * j) -> 0 <= q < 2 ^ 20 -> 0 <= j < 1024 ->
  exists c', set_entry c (q * 4096) j paddr flags = Some c' /\
    writes c c' (T + 4 * j) (entry_value (load (mem c) (T + 4 * j)) paddr flags).
Proof.
  intros Hs Hoff Hq Hj. unfold set_entry.
  assert (Hstep : forall (b : bool) f c1 x, writes c c1 (T + 4 * j) x -> exists c2,
    (if b then PageTable.update c1 (q * 4096) j f else Some c1) = Some c2 /\
    writes c c2 (T + 4 * j) (if b then f x else x)).
  { intros [] f c1 x H1; [|by exists c1]. by apply (update_writes c q T j _ x). }
  destruct (Hstep true (fun e => set_address e paddr) c _ (writes_refl c _)) as (c1 & H1 & W1).
  destruct (Hstep true set_present c1 _ W1) as (c2 & H2 & W2).
  destruct (Hstep (has_flag flags USER_ACCESS) set_user_access c2 _ W2) as (c3 & H3 & W3).
  destruct (Hstep (has_flag flags WRITE_ACCESS) set_write_access c3 _ W3) as (c4 & H4 & W4).
  destruct (Hstep (has_flag flags NO_RECLAIM) set_no_reclaim c4 _ W4) as (c5 & H5 & W5).
  exists c5. rewrite H1. cbn [mbind option_bind]. rewrite H2. cbn [mbind option_bind].
  rewrite H3. cbn [mbind option_bind]. rewrite H4. cbn [mbind option_bind]. done.
Qed.

Lemma install_sees v v1 q D di F :
  new_frame v = Some (F, v1) -> sees (cpu v) q D -> off_path (cpu v) q (D + 4 * di) ->
  0 <= q < 2 ^ 20 -> 0 <= di < 1024 ->
  exists c', install_table v (q * 4096) di = Some (with_cpu v1 c') /\
    writes (cpu v) c' (D + 4 * di) (pde_value (load (mem (cpu v)) (D + 4 * di)) F di).
Proof.
  intros Hn Hs Hoff Hq Hdi. unfold install_table. rewrite Hn. cbn [mbind option_bind].
  assert (Hc : cpu v1 = cpu v).
  { unfold new_frame, unwrap_frame in Hn. apply bind_Some in Hn as ([r p] & _ & Hn).
    destruct r; simplify_eq. done. }
  rewrite Hc. set (c := cpu v) in *.
  destruct (update_writes c q D di _ _ (fun e => set_address e F) c (writes_refl c _) eq_refl Hs Hoff Hq Hdi)
    as (c1 & H1 & W1).
  destruct (update_writes c q D di _ _ set_present c1 W1 eq_refl Hs Hoff Hq Hdi) as (c2 & H2 & W2).
  rewrite H1. cbn [mbind option_bind]. rewrite H2. cbn [mbind option_bind]. unfold pde_value.
  case_match; [|by exists c2].
  destruct (update_writes c q D di _ _ set_user_access c2 W2 eq_refl Hs Hoff Hq Hdi) as (c3 & H3 & W3).
  destruct (update_writes c q D di _ _ set_write_access c3 W3 eq_refl Hs Hoff Hq Hdi) as (c4 & H4 & W4).
  rewrite H3. cbn [mbind option_bind]. rewrite H4. cbn [mbind option_bind]. by exists c4.
Qed.

(** ** The effect of a map call *)

(** The table of the page, and whether it has to be made. *)
Definition table_for (v : Vm) (D di : Z) : option (Z * bool * Vm) :=
  if is_present (load (mem (cpu v)) (D + 4 * di)) then Some (table_of (mem (cpu v)) D di, false, v)
  else '(F, v) ← new_frame v; Some (F, true, v).

(** A frame that is neither a directory nor a table. *)
Definition fresh_frame (m : memory) (top : Z) (dirs : gset Z) (F : Z) : Prop :=
  is_frame F /\ F <> top /\ F ∉ dirs /\
  forall D i, D ∈ dirs -> 0 <= i < 1023 -> is_present (load m (D + 4 * i)) = true -> table_of m D i <> F.

(** The words after page [p] of directory [D] is mapped to [paddr]. *)
Definition map_word (m : memory) (D p T : Z) (fresh : bool) (paddr flags a : Z) : Z :=
  if decide (a = T + 4 * (p mod 1024)) then entry_value (if fresh then 0 else load m a) paddr flags
  else if fresh then
    if in_frame T a then 0
    else if decide (a = pde_addr D p) then pde_value (load m a) T (p / 1024)
    else load m a
  else load m a.

Definition map_effect (top : Z) (m m' : memory) (D p T : Z) (fresh : bool) (paddr flags : Z) : Prop :=
  forall a, ~ scratch_slot top a -> load m' a = map_word m D p T fresh paddr flags a.

(** A directory entry is only added, so no translation is lost. *)
Lemma install_separate m m' top dirs D di F :
  separate m top dirs -> D ∈ dirs -> 0 <= di < 1022 -> is_present (load m (D + 4 * di)) = false ->
  fresh_frame m top dirs F -> words_ok m' ->
  (forall D' i, D' ∈ dirs -> 0 <= i < 1024 -> (D', i) <> (D, di) -> load m' (D' + 4 * i) = load m (D' + 4 * i)) ->
  points_to (load m' (D + 4 * di)) F -> separate m' top dirs.
Proof.
  intros Hs HD Hdi Hnp (HF & Hnt & Hnd & Hfresh) Hw Hsame (_ & Hp & Hg).
  assert (Htab : forall D' i, D' ∈ dirs -> 0 <= i < 1024 -> (D', i) <> (D, di) -> table_of m' D' i = table_of m D' i)
    by (intros D' i H1 H2 H3; unfold table_of; by rewrite Hsame).
  assert (Hnew : table_of m' D di = F) by done.
  split; [done|apply Hs|..].
  - intros D' HD'. rewrite Hsame, Htab by (done || lia || intros [=]; lia). by apply (sep_self _ _ _ Hs).
  - intros D' HD'. rewrite Hsame, Htab by (done || lia || intros [=]; lia). by apply (sep_top _ _ _ Hs).
  - intros D1 D2 i1 i2 H1 H2 Hi1 Hi2 Hp1 Hp2 He.
    destruct (decide ((D1, i1) = (D, di))) as [[= -> ->]|N1];
      destruct (decide ((D2, i2) = (D, di))) as [[= -> ->]|N2]; [by auto| | |].
    + rewrite Hsame in Hp2 by (done || lia). rewrite Hnew, Htab in He by (done || lia).
      by destruct (Hfresh D2 i2 H2 Hi2 Hp2).
    + rewrite Hsame in Hp1 by (done || lia). rewrite Hnew, Htab in He by (done || lia).
      by destruct (Hfresh D1 i1 H1 Hi1 Hp1).
    + rewrite Hsame in Hp1, Hp2 by (done || lia). rewrite !Htab in He by (done || lia).
      by apply (sep_tables _ _ _ Hs).
  - intros D1 D2 i H1 H2 Hi Hp1. destruct (decide ((D1, i) = (D, di))) as [[= -> ->]|N].
    + rewrite Hnew. intros ->. done.
    + rewrite Hsame in Hp1 by (done || lia). rewrite Htab by (done || lia). by apply (sep_not_dir _ _ _ Hs).
Qed.

Section MapEffect.
Context (m m' : memory) (top : Z) (dirs : gset Z) (Hs : separate m top dirs).
Context (D p T : Z) (fresh : bool) (paddr flags : Z).
Context (HD : D ∈ dirs) (Hp : 0 <= p) (Hp' : p / 1024 < 1022) (Hpa : is_frame paddr).
Context (HT : if fresh then fresh_frame m top dirs T /\ is_present (load m (pde_addr D p)) = false
              else T = table_of m D (p / 1024) /\ is_present (load m (pde_addr D p)) = true).
Context (Heff : map_effect top m m' D p T fresh paddr flags) (Hwords : words_ok m').

(** The page is reached from [D'] through the table of [p]. *)
Definition shares (D' : Z) : Prop :=
  D' = D \/ is_present (load m (pde_addr D' p)) = true /\ table_of m D' (p / 1024) = T.

Lemma map_index : 0 <= p / 1024 < 1022 /\ 0 <= p mod 1024 < 1024.
Proof. word. Qed.

Lemma map_fresh : fresh = true -> fresh_frame m top dirs T /\ is_present (load m (pde_addr D p)) = false.
Proof. intros E. pose proof HT as H. by rewrite E in H. Qed.
Lemma map_old : fresh = false ->
  T = table_of m D (p / 1024) /\ is_present (load m (pde_addr D p)) = true.
Proof. intros E. pose proof HT as H. by rewrite E in H. Qed.

Lemma map_table : is_frame T /\ (T ∉ dirs) /\ T <> top.
Proof.
  pose proof map_index. destruct (Bool.bool_dec fresh true) as [Hf|Hf%not_true_is_false].
  { by destruct (map_fresh Hf) as [(? & ? & ? & _) _]. }
  destruct (map_old Hf) as [-> Hpr]. apply (table_facts m top dirs Hs D HD); [lia|done].
Qed.

Lemma map_dir_word D' i : D' ∈ dirs -> 0 <= i < 1024 ->
  load m' (D' + 4 * i) =
    if fresh && bool_decide ((D', i) = (D, p / 1024)) then pde_value (load m (D' + 4 * i)) T (p / 1024)
    else load m (D' + 4 * i).
Proof.
  intros HD' Hi. destruct map_table as ([_ HTa] & HTd & _). pose proof map_index.
  pose proof (sep_dir _ _ _ Hs D' HD') as [_ Ha']. pose proof (sep_dir _ _ _ Hs D HD) as [_ Ha].
  destruct (top_facts _ _ _ Hs D HD) as [[_ Htop] Hnt].
  rewrite Heff by (apply not_scratch_slot; [done|done|congruence|done]). unfold map_word.
  rewrite decide_False.
  2:{ intros E. apply entry_inj in E as [-> _]; [done..|lia|lia]. }
  case_match; [|done]. rewrite in_frame_other by (done || congruence). unfold pde_addr. cbn [andb].
  case_decide as E.
  - apply entry_inj in E as [-> ->]; [|done..|lia]. by rewrite bool_decide_true.
  - rewrite bool_decide_false; [done|]. intros [= -> ->]. done.
Qed.

Lemma map_effect_separate : separate m' top dirs.
Proof.
  pose proof map_index. destruct (Bool.bool_dec fresh true) as [Hf|Hf%not_true_is_false].
  - destruct (map_fresh Hf) as [Hfr Hnp]. apply (install_separate m m' top dirs D (p / 1024) T); try done.
    + lia.
    + intros D' i HD' Hi Hne. rewrite map_dir_word by done. rewrite Hf, bool_decide_false by done. done.
    + rewrite map_dir_word by (done || lia). rewrite Hf, bool_decide_true by done. cbn [andb].
      apply pde_value_points; [apply (sep_words _ _ _ Hs)|apply Hfr].
  - apply (separate_same m); [done| |done]. intros D' i HD' Hi. rewrite map_dir_word by done. by rewrite Hf.
Qed.

Lemma map_effect_walk : walk_page m' D p = Some paddr.
Proof.
  pose proof map_index. destruct map_table as (HTf & HTd & HTt).
  destruct (top_facts _ _ _ Hs D HD) as [[_ Htop] _].
  assert (Hpde : is_present (load m' (pde_addr D p)) = true /\ table_of m' D (p / 1024) = T).
  { unfold table_of, pde_addr. rewrite map_dir_word by (done || lia). rewrite bool_decide_true by done.
    rewrite andb_true_r. destruct (Bool.bool_dec fresh true) as [Hf|Hf%not_true_is_false];
      rewrite Hf; [|by destruct (map_old Hf) as [-> ?]].
    destruct (pde_value_points (load m (D + 4 * (p / 1024))) T (p / 1024)) as (_ & H1 & H2); [|done|done].
    apply (sep_words _ _ _ Hs). }
  destruct Hpde as [Hpr Ht]. unfold walk_page, pte_addr. rewrite Hpr, Ht. cbn zeta.
  rewrite Heff by (apply not_scratch_slot; [done|apply HTf|done|lia]). unfold map_word.
  rewrite decide_True by done.
  destruct (entry_value_points (if fresh then 0 else load m (T + 4 * (p mod 1024))) paddr flags) as (_ & H1 & H2).
  - case_match; [done|apply (sep_words _ _ _ Hs)].
  - done.
  - by rewrite H1, H2.
Qed.

Lemma map_effect_other D' q :
  D' ∈ dirs -> 0 <= q < 0xffbfc -> ~ (q = p /\ shares D') -> walk_page m' D' q = walk_page m D' q.
Proof.
  intros HD' Hq Hnot. pose proof map_index. destruct map_table as ([_ HTa] & HTd & HTt).
  destruct (top_facts _ _ _ Hs D HD) as [[_ Htop] _].
  assert (Hqi : 0 <= q / 1024 <= 1022 /\ 0 <= q mod 1024 < 1024) by word.
  destruct (fresh && bool_decide ((D', q / 1024) = (D, p / 1024))) eqn:Hb.
  - (* the pages of the new table *)
    apply andb_prop in Hb as [Hf [= -> Ei]%bool_decide_eq_true].
    destruct (map_fresh Hf) as [Hfr Hnp].
    assert (Hold : walk_page m D q = None) by (unfold walk_page, pde_addr in *; by rewrite Ei, Hnp).
    rewrite Hold. unfold walk_page, pte_addr, table_of, pde_addr.
    rewrite map_dir_word by (done || lia). rewrite Hf, Ei, bool_decide_true by done. cbn [andb].
    destruct (pde_value_points (load m (D + 4 * (p / 1024))) T (p / 1024)) as (_ & H1 & H2);
      [apply (sep_words _ _ _ Hs)|apply Hfr|]. rewrite H1, H2. cbn zeta.
    rewrite Heff by (apply not_scratch_slot; [done|done|done|lia]). unfold map_word. rewrite Hf.
    rewrite decide_False.
    2:{ intros E. apply Hnot. split; [|by left]. apply entry_inj in E as [_ E]; [|done|done|lia|lia]. word. }
    rewrite in_frame_entry by (done || lia). done.
  - (* the entry of the directory is the same *)
    assert (Hpde : load m' (pde_addr D' q) = load m (pde_addr D' q)).
    { unfold pde_addr. rewrite map_dir_word by (done || lia). by rewrite Hb. }
    destruct (is_present (load m (pde_addr D' q))) eqn:Hpr; [|unfold walk_page; by rewrite Hpde, Hpr].
    apply walk_page_ext; [done|].
    pose proof (table_of_frame m top dirs Hs D' (q / 1024)) as [_ HGa].
    assert (HnT : pte_addr m D' q = T + 4 * (p mod 1024) -> False).
    { intros E. apply entry_inj in E as [E1 E2]; [|done|done|lia|lia].
      destruct (Bool.bool_dec fresh true) as [Hf|Hf%not_true_is_false].
      - destruct (map_fresh Hf) as [(_ & _ & _ & Hfr) _]. by apply (Hfr D' (q / 1024)); [|lia| |].
      - destruct (map_old Hf) as [ET HprD]. rewrite ET in E1.
        destruct (sep_tables _ _ _ Hs D' D (q / 1024) (p / 1024)) as [Ei _]; [done|done|lia|lia|done|done|done|].
        apply Hnot. assert (q = p) as -> by word. split; [done|]. right. split; [done|congruence]. }
    rewrite Heff.
    2:{ intros (j & Hj & E). apply (pte_in_top m top dirs D' q j Hs HD') in E; [lia|lia|lia|done]. }
    unfold map_word. rewrite decide_False by done.
    destruct (Bool.bool_dec fresh true) as [Hf|Hf%not_true_is_false]; rewrite Hf; [|done].
    destruct (map_fresh Hf) as [(_ & _ & _ & Hfr) _].
    unfold pte_addr. rewrite (in_frame_other T (table_of m D' (q / 1024))).
    + rewrite decide_False; [done|]. unfold pde_addr. intros E.
      apply entry_inj in E as [E _]; [|done|by apply (sep_dir _ _ _ Hs)|lia|lia].
      by apply (sep_not_dir _ _ _ Hs D' D (q / 1024)); [| |lia| |].
    + done.
    + done.
    + lia.
    + intros E. by apply (Hfr D' (q / 1024)); [|lia| |].
Qed.

(** The scratch table is not touched. *)
Lemma map_word_top j : 0 <= j < 1024 -> map_word m D p T fresh paddr flags (top + 4 * j) = load m (top + 4 * j).
Proof.
  intros Hj. destruct map_table as ([_ HTa] & _ & HTt). pose proof map_index.
  destruct (top_facts _ _ _ Hs D HD) as [[_ Htop] Hnt]. pose proof (sep_dir _ _ _ Hs D HD) as [_ HDa].
  unfold map_word. rewrite decide_False.
  2:{ intros E. apply entry_inj in E as [E _]; [congruence|done|done|lia|lia]. }
  rewrite in_frame_other, decide_False by (done || lia || congruence || (unfold pde_addr; intros E;
    apply entry_inj in E as [E _]; [congruence|done|done|lia|lia])). by case_match.
Qed.

(** The recursive pages only gain translations. *)
Lemma map_effect_recursive D' q F :
  D' ∈ dirs -> 0xffc00 <= q < 2 ^ 20 -> walk_page m D' q = Some F -> walk_page m' D' q = Some F.
Proof.
  intros HD' Hq Hw. change (2 ^ 20) with 1048576 in Hq. pose proof map_index.
  set (j := q mod 1024). assert (Hj : 0 <= j < 1024) by (subst j; word).
  assert (Eq : q = 0xffc00 + j) by (subst j; word).
  destruct (is_present (load m (D' + 4 * j))) eqn:Hpr.
  2:{ exfalso. destruct (sep_self _ _ _ Hs D' HD') as [H1 H2]. unfold walk_page, pte_addr, pde_addr in Hw.
      replace (q / 1024) with 1023 in Hw by word. fold j in Hw. rewrite H1, H2 in Hw. cbn zeta in Hw.
      by rewrite Hpr in Hw. }
  rewrite Eq in Hw |- *. rewrite (walk_table m top dirs Hs D' HD' j Hj Hpr) in Hw. simplify_eq.
  assert (Hb : fresh && bool_decide ((D', j) = (D, p / 1024)) = false).
  { destruct (Bool.bool_dec fresh true) as [Hf|Hf%not_true_is_false]; rewrite Hf; [|done].
    apply bool_decide_false. intros [= -> Ej]. destruct (map_fresh Hf) as [_ Hnp].
    unfold pde_addr in Hnp. congruence. }
  assert (Hl : load m' (D' + 4 * j) = load m (D' + 4 * j)) by (rewrite map_dir_word by done; by rewrite Hb).
  rewrite (walk_table m' top dirs map_effect_separate D' HD' j Hj) by (by rewrite Hl).
  unfold table_of. by rewrite Hl.
Qed.
End MapEffect.

Lemma new_frame_cpu v F v1 : new_frame v = Some (F, v1) -> cpu v1 = cpu v.
Proof.
  unfold new_frame, unwrap_frame. intros ([r p] & _ & Hn)%bind_Some. by destruct r; simplify_eq.
Qed.

Lemma map_word_ok m D p T fresh paddr flags : words_ok m -> is_frame T -> is_frame paddr ->
  forall a, is_u32 (map_word m D p T fresh paddr flags a).
Proof.
  intros Hm HT Hpa a. unfold map_word. repeat case_match; try done.
  - by apply entry_value_points.
  - by apply entry_value_points.
  - by apply pde_value_points.
Qed.

(** A new entry of any directory. *)
Lemma install_machine_ok c c1 top dirs D di F :
  machine_ok c top dirs -> D ∈ dirs -> 0 <= di < 1022 ->
  fresh_frame (mem c) top dirs F -> is_present (load (mem c) (D + 4 * di)) = false ->
  writes c c1 (D + 4 * di) (pde_value (load (mem c) (D + 4 * di)) F di) -> machine_ok c1 top dirs.
Proof.
  intros Hok HD Hdi HF Hnp [E L]. destruct Hok as [Hs Hc Hcr].
  pose proof (sep_dir _ _ _ Hs _ Hcr) as [_ Ha]. pose proof (sep_dir _ _ _ Hs _ HD) as [_ HDa].
  assert (Hpt : points_to (pde_value (load (mem c) (D + 4 * di)) F di) F)
    by (apply pde_value_points; [apply (sep_words _ _ _ Hs)|apply HF]).
  assert (Hs1 : separate (mem c1) top dirs).
  { apply (install_separate (mem c) _ top dirs D di F); try done.
    - intros a. rewrite L. case_decide; [apply Hpt|apply (sep_words _ _ _ Hs)].
    - intros D' i HD' Hi Hne. rewrite L, decide_False; [done|]. intros X.
      apply entry_inj in X as [<- <-]; [done..|apply (sep_dir _ _ _ Hs _ HD')|lia|lia].
    - by rewrite L, decide_True. }
  apply (machine_ok_change c); [done|by rewrite E|done|]. intros q G Hq Ht.
  split; [by rewrite E in Ht|]. intros Hw. rewrite <- Hw.
  unfold walk_page in Hw. destruct (is_present (load (mem c) (pde_addr (cr3 c) q))) eqn:Hpr; [|done].
  apply walk_page_ext; rewrite L, decide_False; try done.
  - unfold pde_addr in *. intros X. apply entry_inj in X as [-> X2]; [|done|done|lia|word]. congruence.
  - unfold pte_addr. intros X. apply entry_inj in X as [X1 X2];
      [|done|by eapply table_of_frame|lia|word].
    destruct (Z.eq_dec (q / 1024) 1023) as [Eq|Nq].
    + unfold pte_addr in Hw. rewrite <- X1, <- X2 in Hw. cbn zeta in Hw. by rewrite Hnp in Hw.
    + by apply (sep_not_dir _ _ _ Hs (cr3 c) D (q / 1024) Hcr HD); [word| |].
Qed.

(** Words of a frame that is neither a directory nor a kernel table are on the
    path of no kernel page. *)
Lemma frame_writes_ok c m' top dirs T :
  machine_ok c top dirs -> is_frame T -> T ∉ dirs ->
  (forall i, 768 <= i < 1023 -> is_present (load (mem c) (cr3 c + 4 * i)) = true -> table_of (mem c) (cr3 c) i <> T) ->
  (forall a, in_frame T a = false -> load m' a = load (mem c) a) -> words_ok m' ->
  machine_ok (with_mem c m') top dirs.
Proof.
  intros Hok [_ HTa] HTd Htab L Hw. pose proof Hok as [Hs Hc Hcr].
  assert (Hsame : same_directories dirs (mem c) m').
  { intros D' i HD' Hi. apply L, in_frame_other; [done|by apply (sep_dir _ _ _ Hs)|done|congruence]. }
  apply (machine_ok_change c); [done|done|by apply (separate_same (mem c))|]. intros q G Hq Ht.
  split; [done|]. intros <-. cbn [mem with_mem]. apply (walk_page_same dirs); [done|done|lia|].
  intros Hprq. apply L. unfold pte_addr.
  apply in_frame_other; [done|by eapply table_of_frame|word|]. intros X.
  destruct (Z.eq_dec (q / 1024) 1023) as [Eq|Nq].
  - destruct (sep_self _ _ _ Hs _ Hcr) as [_ Hself]. rewrite Eq, Hself in X. congruence.
  - by apply (Htab (q / 1024)); [word| |].
Qed.

Lemma table_writes_ok c m' top dirs D di T :
  machine_ok c top dirs -> D ∈ dirs -> 0 <= di < 768 ->
  is_present (load (mem c) (D + 4 * di)) = true -> table_of (mem c) D di = T ->
  (forall a, in_frame T a = false -> load m' a = load (mem c) a) -> words_ok m' ->
  machine_ok (with_mem c m') top dirs.
Proof.
  intros Hok HD Hdi Hpr HT L Hw. pose proof Hok as [Hs Hc Hcr].
  destruct (table_facts _ _ _ Hs D HD di ltac:(lia) Hpr) as (HTf & HTd & _). rewrite HT in *.
  apply (frame_writes_ok c m' top dirs T); try done. intros i Hi Hpri X.
  destruct (sep_tables _ _ _ Hs D (cr3 c) di i) as [X1 _]; [done|done|lia|lia|done|done|congruence|]. lia.
Qed.

(** ** The running task *)

Section Current.
Context (v : Vm) (top : Z) (dirs : gset Z) (Hok : machine_ok (cpu v) top dirs).
Context (p o : Z) (Hp : 0 <= p) (Hp' : p / 1024 < 1022) (Ho : 0 <= o < 4096).
#[local] Abbreviation c := (cpu v).
#[local] Abbreviation D := (cr3 (cpu v)).
#[local] Abbreviation di := (p / 1024).
#[local] Abbreviation va := (p * 4096 + o).

Lemma current_index : 0 <= di < 1022 /\ 0 <= p mod 1024 < 1024.
Proof. word. Qed.

Lemma current_sees_dir : sees c 0xfffff D.
Proof.
  apply coherent_sees; [apply Hok|lia|]. apply (walk_directory _ top dirs); apply Hok.
Qed.

Lemma dir_path i : 0 <= i < 1023 -> off_path c 0xfffff (D + 4 * i).
Proof.
  intros Hi. destruct (sep_self _ _ _ (ok_separate _ _ _ Hok) _ (ok_cr3 _ _ _ Hok)) as [_ Ht].
  unfold off_path, pte_addr, pde_addr. change (0xfffff / 1024) with 1023. change (0xfffff mod 1024) with 1023.
  rewrite Ht. lia.
Qed.

(** The page through which table [di] is seen, in a state whose directory is
    that of the running task. *)
Lemma table_sees c1 T :
  machine_ok c1 top dirs -> cr3 c1 = D -> points_to (load (mem c1) (D + 4 * di)) T -> T ∉ dirs -> is_frame T ->
  sees c1 (0xffc00 + di) T /\ forall j, 0 <= j < 1024 -> off_path c1 (0xffc00 + di) (T + 4 * j).
Proof.
  intros Hok1 E (_ & Hpr & Ht) HTd [_ HTa]. pose proof current_index. destruct Hok1 as [Hs1 Hc1 Hcr1].
  rewrite E in *. split.
  - apply coherent_sees; [done|lia|]. rewrite E, <- Ht. by apply (walk_table _ top dirs Hs1); [|lia|].
  - intros j Hj. destruct (sep_self _ _ _ Hs1 _ Hcr1) as [_ Hself].
    pose proof (sep_dir _ _ _ Hs1 _ Hcr1) as [_ Ha].
    unfold off_path, pte_addr, pde_addr. replace ((0xffc00 + di) / 1024) with 1023 by word.
    replace ((0xffc00 + di) mod 1024) with di by word. rewrite E, Hself.
    split; intros X; apply entry_inj in X as [-> _]; done || lia.
Qed.

Lemma current_tables :
  table_of (mem c) D di = table_of (mem c) D di /\ u32 (0xffc00000 + di * 0x1000) = (0xffc00 + di) * 4096.
Proof. pose proof current_index. split; [done|]. word. Qed.

(** A table that is there is edited in place. *)
Lemma current_map_old paddr flags : is_present (load (mem c) (pde_addr D p)) = true ->
  exists c', (e ← PageTable.get c ((0xffc00 + di) * 4096) (p mod 1024);
      c' ← set_entry c ((0xffc00 + di) * 4096) (p mod 1024) paddr flags;
      Some (if is_present e then invalidate_page c' va else c')) = Some c' /\
    (forall a, load (mem c') a = map_word (mem c) D p (table_of (mem c) D di) false paddr flags a) /\
    cr3 c' = D /\ SCRATCH_PAGES c' = SCRATCH_PAGES c /\
    tlb c' = match walk_page (mem c) D p with Some _ => delete p (tlb c) | None => tlb c end.
Proof.
  intros Hpr. pose proof current_index as [Hdi Hti]. destruct (page_index p o Ho) as (_ & _ & E3 & _).
  pose proof (ok_separate _ _ _ Hok) as Hs. pose proof (ok_cr3 _ _ _ Hok) as Hcr.
  set (T := table_of (mem c) D di).
  destruct (table_sees c T Hok eq_refl) as [Hsee Hoff].
  { split_and!; [apply (sep_words _ _ _ Hs)|done|done]. }
  { apply (table_facts _ _ _ Hs D Hcr di); [lia|done]. }
  { by eapply table_of_frame. }
  rewrite (get_sees c _ T) by (done || lia). cbn [mbind option_bind].
  destruct (set_entry_sees c (0xffc00 + di) T (p mod 1024) paddr flags Hsee (Hoff _ Hti)) as (c1 & H1 & E & L);
    [lia|lia|].
  rewrite H1. cbn [mbind option_bind]. eexists. split; [done|].
  assert (Hw : walk_page (mem c) D p =
    if is_present (load (mem c) (T + 4 * (p mod 1024)))
    then Some (get_address (load (mem c) (T + 4 * (p mod 1024)))) else None)
    by (unfold walk_page, pte_addr; rewrite Hpr; done).
  rewrite Hw. unfold map_word.
  generalize (is_present (load (mem c) (T + 4 * (p mod 1024)))). intros b.
  split; [|destruct b; rewrite E; [|done]; unfold invalidate_page; by rewrite E3].
  intros a. replace (mem (if b then invalidate_page c1 va else c1)) with (mem c1) by (by destruct b).
  rewrite L. repeat case_decide; subst; done || congruence.
Qed.

(** A missing table is made, cleared and edited. *)
Lemma current_map_new F v1 paddr flags :
  new_frame v = Some (F, v1) -> fresh_frame (mem c) top dirs F ->
  is_present (load (mem c) (pde_addr D p)) = false ->
  exists c', (v' ← install_table v (0xfffff * 4096) di;
      c' ← PageTable.zero (cpu v') ((0xffc00 + di) * 4096);
      c' ← set_entry c' ((0xffc00 + di) * 4096) (p mod 1024) paddr flags;
      Some (with_cpu v' c')) = Some (with_cpu v1 c') /\
    (forall a, load (mem c') a = map_word (mem c) D p F true paddr flags a) /\
    cr3 c' = D /\ SCRATCH_PAGES c' = SCRATCH_PAGES c /\ tlb c' = tlb c.
Proof.
  intros Hn HF Hnp. pose proof current_index as [Hdi Hti]. pose proof HF as ([HFu HFa] & _ & HFd & _).
  pose proof (ok_separate _ _ _ Hok) as Hs. pose proof (ok_cr3 _ _ _ Hok) as Hcr.
  pose proof (sep_dir _ _ _ Hs _ Hcr) as [_ Ha].
  destruct (install_sees v v1 0xfffff D di F Hn current_sees_dir (dir_path di ltac:(lia))) as (c1 & -> & W1);
    [lia|lia|].
  cbn [mbind option_bind cpu with_cpu].
  pose proof (install_machine_ok c c1 top dirs D di F Hok Hcr Hdi HF Hnp W1) as Hok1. destruct W1 as [E1 L1].
  destruct (table_sees c1 F Hok1) as [Hsee Hoff]; [by rewrite E1| |done|done|].
  { rewrite L1, decide_True by done. apply pde_value_points; [apply (sep_words _ _ _ Hs)|done]. }
  destruct (zero_sees c1 (0xffc00 + di) F Hsee) as (c2 & -> & E2 & Hsee2 & L2); [lia|done|done|].
  cbn [mbind option_bind].
  assert (Hoff2 : off_path c2 (0xffc00 + di) (F + 4 * (p mod 1024))).
  { rewrite E2. apply off_path_ext; [|by apply Hoff]. unfold pde_addr. replace (cr3 c1) with D by (by rewrite E1).
    rewrite L2, in_frame_other by (done || congruence || word). done. }
  destruct (set_entry_sees c2 (0xffc00 + di) F (p mod 1024) paddr flags Hsee2 Hoff2) as (c3 & -> & E3 & L3);
    [lia|lia|].
  cbn [mbind option_bind]. exists c3. split; [done|]. split; [|by rewrite E3, E2, E1].
  intros a. rewrite L3, L2, in_frame_entry by done. rewrite L2, L1. unfold map_word, pde_addr.
  repeat (case_decide || case_match); subst; done || congruence.
Qed.

(** Mapping a page of the running task, for every state of its tables. *)
Lemma current_map paddr flags :
  (forall F v1, new_frame v = Some (F, v1) -> fresh_frame (mem c) top dirs F) ->
  match table_for v D di with
  | None => current_pagedir_map_explicit v paddr va flags = None
  | Some (T, fresh, v1) => exists c',
      current_pagedir_map_explicit v paddr va flags = Some (with_cpu v1 c') /\
      (forall a, load (mem c') a = map_word (mem c) D p T fresh paddr flags a) /\
      cr3 c' = D /\ SCRATCH_PAGES c' = SCRATCH_PAGES c /\
      tlb c' = match walk_page (mem c) D p with Some _ => delete p (tlb c) | None => tlb c end
  end.
Proof.
  intros Hfresh. pose proof current_index as [Hdi Hti]. destruct (page_index p o Ho) as (E1 & E2 & _).
  unfold current_pagedir_map_explicit, table_for. rewrite E1, E2.
  change PageTable.current_directory with (0xfffff * 4096).
  rewrite (get_sees c 0xfffff D) by (apply current_sees_dir || lia). cbn [mbind option_bind].
  destruct current_tables as [_ ->]. fold (pde_addr D p) in *.
  destruct (is_present (load (mem c) (pde_addr D p))) eqn:Hpr; cbn [negb].
  - destruct (current_map_old paddr flags Hpr) as (c' & H & Hrest). exists c'. split; [|done].
    apply bind_Some in H as (e & He & H). apply bind_Some in H as (c1 & H1 & H).
    rewrite He. cbn [mbind option_bind]. rewrite H1. cbn [mbind option_bind]. by simplify_eq.
  - destruct (new_frame v) as [[F v1]|] eqn:Hn; cbn [mbind option_bind].
    2:{ unfold install_table. by rewrite Hn. }
    destruct (current_map_new F v1 paddr flags Hn (Hfresh F v1 eq_refl) Hpr) as (c' & H & HL & H1 & H2 & H3).
    exists c'. split; [|split_and!; [done..|]; unfold walk_page; by rewrite Hpr].
    apply bind_Some in H as (v' & Hv & H). apply bind_Some in H as (c1 & Hc1 & H).
    apply bind_Some in H as (c2 & Hc2 & H). rewrite Hv. cbn [mbind option_bind]. rewrite Hc1.
    cbn [mbind option_bind with_cpu cpu]. rewrite Hc2. exact H.
Qed.

Lemma current_map_ok c' T fresh v1 paddr flags :
  (forall F v1, new_frame v = Some (F, v1) -> fresh_frame (mem c) top dirs F) -> is_frame paddr ->
  table_for v D di = Some (T, fresh, v1) ->
  (forall a, load (mem c') a = map_word (mem c) D p T fresh paddr flags a) -> cr3 c' = D ->
  tlb c' = match walk_page (mem c) D p with Some _ => delete p (tlb c) | None => tlb c end ->
  words_ok (mem c') /\ machine_ok c' top dirs.
Proof.
  intros Hfresh Hpa Htf L E Ht. pose proof current_index as [Hdi Hti].
  pose proof Hok as [Hs Hc Hcr].
  assert (HT : if fresh then fresh_frame (mem c) top dirs T /\ is_present (load (mem c) (pde_addr D p)) = false
               else T = table_of (mem c) D di /\ is_present (load (mem c) (pde_addr D p)) = true).
  { unfold table_for in Htf. fold (pde_addr D p) in Htf.
    destruct (is_present (load (mem c) (pde_addr D p))); [by simplify_eq|].
    apply bind_Some in Htf as ([F v2] & Hn & Htf). simplify_eq. split; [by eapply Hfresh|done]. }
  assert (Heff : map_effect top (mem c) (mem c') D p T fresh paddr flags) by (intros a _; apply L).
  destruct (map_table _ _ _ _ Hs D p T fresh _ _ Hcr Hp Hp' HT Heff) as (HTf & _).
  assert (Hw : words_ok (mem c')) by (intros a; rewrite L; apply map_word_ok; [apply Hs|done|done]).
  split; [done|].
  apply (machine_ok_change c); [done|done|by eapply map_effect_separate|].
  intros q G Hq Hq'. assert (Hin : tlb c !! q = Some G /\ (q = p -> walk_page (mem c) D p = None)).
  { rewrite Ht in Hq'. destruct (walk_page (mem c) D p) eqn:Hwp; [|done].
    apply lookup_delete_Some in Hq' as [Hne Hq']. split; [done|]. intros ->. done. }
  destruct Hin as [Hin Hpw]. split; [done|]. intros HwG.
  destruct (decide (q < 0xffbfc)) as [Hlt|Hge].
  - rewrite (map_effect_other _ _ _ _ Hs D p T fresh paddr flags); try done; [lia|].
    intros [-> _]. rewrite Hpw in HwG by done. done.
  - destruct (decide (0xffc00 <= q)) as [Hrec|Hscr].
    + by apply (map_effect_recursive (mem c) (mem c') top dirs Hs D p T fresh paddr flags); try done; lia.
    + rewrite <- HwG. destruct (sep_top _ _ _ Hs D Hcr) as [_ Htop]. apply walk_page_ext.
      * unfold pde_addr. replace (q / 1024) with 1022 by word.
        rewrite (map_dir_word (mem c) (mem c') top dirs Hs D p T fresh paddr flags Hcr Hp Hp' HT Heff) by (done || lia).
        rewrite bool_decide_false by (intros [= X]; lia). by rewrite andb_false_r.
      * unfold pte_addr. replace (q / 1024) with 1022 by word. rewrite Htop, L.
        apply (map_word_top (mem c) (mem c') top dirs Hs D p T fresh paddr flags Hcr Hp Hp' HT Heff). word.
Qed.
End Current.

(** ** Another task *)

Lemma new_frame_with_cpu v c F v1 :
  new_frame v = Some (F, v1) -> new_frame (with_cpu v c) = Some (F, with_cpu v1 c).
Proof.
  unfold new_frame, unwrap_frame. cbn [phys with_cpu]. intros ([r p] & Ha & Hn)%bind_Some. rewrite Ha.
  cbn [mbind option_bind]. by destruct r; simplify_eq.
Qed.
Lemma new_frame_none v c : new_frame v = None -> new_frame (with_cpu v c) = None.
Proof.
  unfold new_frame, unwrap_frame. cbn [phys with_cpu]. destruct (PhysicalMemory.allocate_frame (phys v)) as [[[] p]|];
    done.
Qed.

(** What every call leaves behind. *)
Record settled (c c' : Mmu.t) (top : Z) (dirs : gset Z) : Prop := {
  st_ok : machine_ok c' top dirs;
  st_cr3 : cr3 c' = cr3 c;
  st_scratch : SCRATCH_PAGES c' = SCRATCH_PAGES c;
  st_tlb : forall p, p < 0xc0000 -> tlb c' !! p = tlb c !! p
}.

Lemma fresh_frame_same m m' top dirs F :
  same_directories dirs m m' -> fresh_frame m top dirs F -> fresh_frame m' top dirs F.
Proof.
  intros Hsame (H1 & H2 & H3 & H4). split_and!; try done. intros D i HD Hi.
  rewrite Hsame, (same_table_of dirs m) by (done || lia). by apply H4.
Qed.

Section External.
Context (v : Vm) (top : Z) (dirs : gset Z) (Hok : machine_ok (cpu v) top dirs) (Hscr : SCRATCH_PAGES (cpu v) = 0).
Context (D : Z) (HD : D ∈ dirs).
Context (p o : Z) (Hp : 0 <= p < 0xc0000) (Ho : 0 <= o < 4096).
#[local] Abbreviation c := (cpu v).
#[local] Abbreviation di := (p / 1024).
#[local] Abbreviation va := (p * 4096 + o).

Lemma external_index : 0 <= di < 768 /\ 0 <= p mod 1024 < 1024.
Proof. word. Qed.

(** The second half of [map]: the table through a scratch page. *)
Lemma external_entry c1 T (zero_frame : bool) paddr flags :
  machine_ok c1 top dirs -> SCRATCH_PAGES c1 = 0 -> points_to (load (mem c1) (D + 4 * di)) T -> is_frame paddr ->
  exists c', ('(page, c2) ← UnmappedPage.map c1 T;
      c2 ← (if zero_frame then PageTable.zero c2 (UnmappedPage.virtual_address page) else Some c2);
      c2 ← set_entry c2 (UnmappedPage.virtual_address page) (p mod 1024) paddr flags;
      Some (UnmappedPage.drop c2 page)) = Some c' /\
    settled c1 c' top dirs /\
    forall a, ~ scratch_slot top a -> load (mem c') a =
      if decide (a = T + 4 * (p mod 1024)) then entry_value (if zero_frame then 0 else load (mem c1) a) paddr flags
      else if zero_frame && in_frame T a then 0 else load (mem c1) a.
Proof.
  intros Hok1 Hs1 (Hu & Hpr & HT) Hpa. pose proof external_index as [Hdi Hti].
  pose proof (ok_separate _ _ _ Hok1) as Hsep1.
  destruct (table_facts _ _ _ Hsep1 D HD di ltac:(lia) Hpr) as (HTf & HTd & HTt).
  change (table_of (mem c1) D di) with (get_address (load (mem c1) (D + 4 * di))) in *. rewrite HT in *.
  destruct (scratch_map_ok c1 top dirs T Hok1 (or_introl Hs1) HTf)
    as (page & c2 & -> & Hidx & Hva & Hok2 & Hsee & Hsame & Hcr & Hscr2 & Htlb & Hpte). cbn zeta in *.
  rewrite Hs1 in *. cbn [mbind option_bind]. rewrite Hva. change (0xffbff - 0) with 0xffbff in *.
  assert (Hoff : forall j, 0 <= j < 1024 -> off_path c2 0xffbff (T + 4 * j)).
  { intros j Hj. apply (scratch_off_path c2 top dirs T 0 j Hok2); try done; [by left|apply HTf|].
    intros ->. by destruct HTd; apply Hok2. }
  assert (Hz : exists c3, (if zero_frame then PageTable.zero c2 (0xffbff * 4096) else Some c2) = Some c3 /\
    c3 = with_mem c2 (mem c3) /\ sees c3 0xffbff T /\
    forall a, load (mem c3) a = if zero_frame && in_frame T a then 0 else load (mem c2) a).
  { destruct zero_frame; [|exists c2; split_and!; [done|by destruct c2|done|done]].
    by apply zero_sees; [| |apply HTf|]. }
  destruct Hz as (c3 & -> & E3 & Hsee3 & L3). cbn [mbind option_bind].
  assert (Hcr2 : cr3 c2 ∈ dirs) by apply Hok2. destruct HTf as [HTu HTa].
  pose proof (sep_dir _ _ _ (ok_separate _ _ _ Hok2) _ Hcr2) as [_ Ha2].
  assert (Hoff3 : off_path c3 0xffbff (T + 4 * (p mod 1024))).
  { rewrite E3. apply off_path_ext; [|by apply Hoff]. unfold pde_addr.
    rewrite L3, in_frame_other by (done || congruence). by rewrite andb_false_r. }
  destruct (set_entry_sees c3 0xffbff T (p mod 1024) paddr flags Hsee3 Hoff3) as (c4 & -> & E4 & L4); [lia|lia|].
  cbn [mbind option_bind]. eexists. split; [done|].
  assert (Hl : forall a, load (mem c4) a =
      if decide (a = T + 4 * (p mod 1024)) then entry_value (if zero_frame then 0 else load (mem c2) a) paddr flags
      else if zero_frame && in_frame T a then 0 else load (mem c2) a).
  { intros a. rewrite L4, !L3, in_frame_entry by done. rewrite andb_true_r.
    repeat case_decide; subst; done. }
  rewrite (scratch_drop c4 page 0 Hidx) by (try (by left); rewrite E4, E3; done).
  split; [split|].
  - apply (proj1 (machine_ok_scratch _ _ _ 0)). rewrite E4, E3.
    cbn [mem with_mem]. change (with_mem (with_mem c2 (mem c3)) (mem c4)) with (with_mem c2 (mem c4)).
    assert (Hd : load (mem c2) (D + 4 * di) = load (mem c1) (D + 4 * di)).
    { apply (scratch_same_directories _ _ _ _ Hsep1 Hsame); [done|lia]. }
    apply (table_writes_ok c2 (mem c4) top dirs D di T); try done.
    + by rewrite Hd.
    + unfold table_of. by rewrite Hd.
    + intros a Hin. rewrite Hl, Hin, andb_false_r. rewrite decide_False; [done|].
      intros ->. by rewrite in_frame_entry in Hin.
    + intros a. rewrite Hl. pose proof (sep_words _ _ _ (ok_separate _ _ _ Hok2) a).
      repeat case_match; try done; by apply entry_value_points.
  - cbn [cr3 with_scratch]. by rewrite E4, E3.
  - by rewrite Hs1.
  - intros q Hq. cbn [tlb with_scratch]. rewrite E4, E3. cbn [tlb with_mem]. rewrite Htlb.
    apply lookup_delete_ne. lia.
  - intros a Ha. cbn [mem with_scratch]. by rewrite Hl, (Hsame a Ha).
Qed.

(** The directory through a scratch page. *)
Lemma external_directory c1 :
  machine_ok c1 top dirs -> SCRATCH_PAGES c1 = 0 ->
  exists page c2, UnmappedPage.map c1 D = Some (page, c2) /\
    UnmappedPage.virtual_address page = 0xffbff * 4096 /\ UnmappedPage.scratch_index page = 0 /\
    machine_ok c2 top dirs /\ sees c2 0xffbff D /\ off_path c2 0xffbff (D + 4 * di) /\
    same_but_scratch top (mem c1) (mem c2) /\
    load (mem c2) (D + 4 * di) = load (mem c1) (D + 4 * di) /\
    cr3 c2 = cr3 c1 /\ SCRATCH_PAGES c2 = 1 /\ tlb c2 = delete 0xffbff (tlb c1).
Proof.
  intros Hok1 Hs1. pose proof external_index as [Hdi Hti]. pose proof (ok_separate _ _ _ Hok1) as Hsep1.
  destruct (scratch_map_ok c1 top dirs D Hok1 (or_introl Hs1) (sep_dir _ _ _ Hsep1 _ HD))
    as (page & c2 & H1 & Hidx & Hva & Hok2 & Hsee & Hsame & Hcr & Hscr2 & Htlb & Hpte). cbn zeta in *.
  rewrite Hs1 in *. change (0xffbff - 0) with 0xffbff in *. exists page, c2. split_and!; try done.
  - apply (scratch_off_path c2 top dirs D 0 di Hok2); try done; [by left|apply (sep_dir _ _ _ Hsep1 _ HD)| |lia|lia].
    intros ->. by apply (top_facts _ _ _ Hsep1 top HD).
  - apply (scratch_same_directories _ _ _ _ Hsep1 Hsame); [done|lia].
Qed.

Lemma external_tail v2 page T (zero_frame : bool) paddr flags :
  machine_ok (cpu v2) top dirs -> SCRATCH_PAGES (cpu v2) = 1 -> UnmappedPage.scratch_index page = 0 ->
  sees (cpu v2) 0xffbff D -> points_to (load (mem (cpu v2)) (D + 4 * di)) T -> is_frame paddr ->
  exists c', (dir_entry ← PageTable.get (cpu v2) (0xffbff * 4096) di;
      '(page_table, c2) ← UnmappedPage.map (UnmappedPage.drop (cpu v2) page) (get_address dir_entry);
      c2 ← (if zero_frame then PageTable.zero c2 (UnmappedPage.virtual_address page_table) else Some c2);
      c2 ← set_entry c2 (UnmappedPage.virtual_address page_table) (p mod 1024) paddr flags;
      Some (with_cpu v2 (UnmappedPage.drop c2 page_table))) = Some (with_cpu v2 c') /\
    settled (with_scratch (cpu v2) 0) c' top dirs /\
    forall a, ~ scratch_slot top a -> load (mem c') a =
      if decide (a = T + 4 * (p mod 1024))
      then entry_value (if zero_frame then 0 else load (mem (cpu v2)) a) paddr flags
      else if zero_frame && in_frame T a then 0 else load (mem (cpu v2)) a.
Proof.
  intros Hok2 Hs2 Hidx Hsee HT Hpa. pose proof external_index as [Hdi Hti].
  rewrite (get_sees _ 0xffbff D) by (done || lia). cbn [mbind option_bind].
  rewrite (scratch_drop _ page 0 Hidx) by (by left || done). pose proof HT as (_ & _ & ->).
  destruct (external_entry (with_scratch (cpu v2) 0) T zero_frame paddr flags) as (c' & H & Hst & L); try done.
  { by apply (proj1 (machine_ok_scratch _ _ _ 0)). }
  exists c'. split; [|done]. apply bind_Some in H as ([pt c3] & H1 & H). apply bind_Some in H as (c4 & H2 & H).
  apply bind_Some in H as (c5 & H3 & H). rewrite H1. cbn [mbind option_bind]. rewrite H2. cbn [mbind option_bind].
  rewrite H3. cbn [mbind option_bind]. by simplify_eq.
Qed.

Lemma table_for_cases T fresh v1 :
  (forall F v1, new_frame v = Some (F, v1) -> fresh_frame (mem c) top dirs F) ->
  table_for v D di = Some (T, fresh, v1) ->
  cpu v1 = c /\
  if fresh then fresh_frame (mem c) top dirs T /\ is_present (load (mem c) (pde_addr D p)) = false
  else T = table_of (mem c) D di /\ is_present (load (mem c) (pde_addr D p)) = true.
Proof.
  intros Hfresh Htf. unfold table_for in Htf. fold (pde_addr D p) in Htf.
  destruct (is_present (load (mem c) (pde_addr D p))); [by simplify_eq|].
  apply bind_Some in Htf as ([F v2] & Hn & Htf). simplify_eq.
  split; [by eapply new_frame_cpu|]. split; [by eapply Hfresh|done].
Qed.

(** Mapping a page of another task, for every state of its tables. *)
Lemma external_map paddr flags :
  (forall F v1, new_frame v = Some (F, v1) -> fresh_frame (mem c) top dirs F) -> is_frame paddr ->
  match table_for v D di with
  | None => ExternalPageDirectory.map v D va paddr flags = None
  | Some (T, fresh, v1) => exists c',
      ExternalPageDirectory.map v D va paddr flags = Some (with_cpu v1 c') /\
      map_effect top (mem c) (mem c') D p T fresh paddr flags /\ settled c c' top dirs
  end.
Proof.
  intros Hfresh Hpa. pose proof external_index as [Hdi Hti]. destruct (page_index p o Ho) as (E1 & E2 & _).
  unfold ExternalPageDirectory.map. rewrite E1, E2.
  destruct (external_directory c Hok Hscr)
    as (page & c1 & -> & Hva & Hidx & Hok1 & Hsee & Hoff & Hsame & Hld & Hcr & Hs1 & Htlb).
  cbn [mbind option_bind cpu with_cpu]. rewrite Hva, (get_sees c1 0xffbff D), Hld by (done || lia).
  cbn [mbind option_bind]. unfold table_for.
  pose proof (sep_words _ _ _ (ok_separate _ _ _ Hok) (D + 4 * di)) as Hw.
  assert (Hst : forall c2 c', cr3 c2 = cr3 c1 -> tlb c2 = tlb c1 -> settled (with_scratch c2 0) c' top dirs ->
    settled c c' top dirs).
  { intros c2 c' X1 X2 [X3 X4 X5 X6]. split; [done| | |].
    - by rewrite X4, <- Hcr, <- X1.
    - by rewrite X5, Hscr.
    - intros q Hq. rewrite X6 by done. cbn [tlb with_scratch]. rewrite X2, Htlb. apply lookup_delete_ne. lia. }
  destruct (is_present (load (mem c) (D + 4 * di))) eqn:Hpr; cbn [negb].
  - set (T := table_of (mem c) D di).
    destruct (external_tail (with_cpu v c1) page T false paddr flags) as (c' & Ht & Hs' & L); try done.
    { cbn [cpu with_cpu]. by rewrite Hld. }
    exists c'. split; [exact Ht|]. split; [|by eapply (Hst c1)]. intros a Ha. rewrite L by done. unfold map_word.
    cbn [cpu with_cpu]. rewrite (Hsame a Ha). done.
  - destruct (new_frame v) as [[F v1]|] eqn:Hn; cbn [mbind option_bind].
    2:{ unfold install_table. by rewrite (new_frame_none v c1 Hn). }
    specialize (Hfresh F v1 eq_refl). pose proof Hfresh as (HF & _).
    destruct (install_sees (with_cpu v c1) (with_cpu v1 c1) 0xffbff D di F (new_frame_with_cpu v c1 F v1 Hn) Hsee Hoff)
      as (c2 & -> & W); [lia|lia|].
    cbn [mbind option_bind cpu with_cpu] in W |- *. pose proof W as [E L1].
    assert (Hok2 : machine_ok c2 top dirs).
    { apply (install_machine_ok c1 c2 top dirs D di F); try done; [lia| |by rewrite Hld].
      by apply (fresh_frame_same (mem c)); [eapply scratch_same_directories; [apply Hok|]|]. }
    destruct (external_tail (with_cpu v1 c2) page F true paddr flags) as (c' & Ht & Hs' & L); try done.
    { cbn [cpu with_cpu]. by rewrite E. }
    { cbn [cpu with_cpu]. by apply (writes_sees c1 c2 _ _ _ _ W). }
    { cbn [cpu with_cpu]. rewrite L1, decide_True, Hld by done. by apply pde_value_points. }
    exists c'. cbn [cpu with_cpu] in *. split; [exact Ht|]. split; [|apply (Hst c2); [by rewrite E|by rewrite E|done]].
    intros a Ha. rewrite L, L1, Hld by done. unfold map_word, pde_addr. rewrite (Hsame a Ha). cbn [andb].
    repeat (case_decide || case_match); subst; done || congruence.
Qed.
End External.

(** ** The effect of an unmap call *)

Definition unmap_word (m : memory) (D p a : Z) : Z :=
  match walk_page m D p with
  | Some _ => if decide (a = pte_addr m D p) then clear_present (load m a) else load m a
  | None => load m a
  end.

Definition unmap_effect (top : Z) (m m' : memory) (D p : Z) : Prop :=
  forall a, ~ scratch_slot top a -> load m' a = unmap_word m D p a.

Section UnmapEffect.
Context (m m' : memory) (top : Z) (dirs : gset Z) (Hs : separate m top dirs).
Context (D p : Z) (HD : D ∈ dirs) (Hp : 0 <= p < 0xc0000) (Heff : unmap_effect top m m' D p).

Lemma unmap_same_directories : same_directories dirs m m'.
Proof.
  intros D' i HD' Hi. destruct (top_facts _ _ _ Hs D HD) as [[_ Htop] Hnt].
  pose proof (sep_dir _ _ _ Hs D' HD') as [_ Ha'].
  rewrite Heff by (apply not_scratch_slot; [done|done|congruence|done]). unfold unmap_word, walk_page.
  destruct (is_present (load m (pde_addr D p))) eqn:Hpr; [|done].
  destruct (table_facts m top dirs Hs D HD (p / 1024)) as ([_ HTa] & HTd & _); [word|done|].
  cbn zeta. case_match; [|done]. rewrite decide_False; [done|]. unfold pte_addr. intros E.
  apply entry_inj in E as [E _]; [congruence|done|done|lia|word].
Qed.

Lemma unmap_effect_walk : walk_page m' D p = None.
Proof.
  assert (Hd : load m' (pde_addr D p) = load m (pde_addr D p)) by (apply unmap_same_directories; done || word).
  unfold walk_page at 1. rewrite Hd.
  destruct (is_present (load m (pde_addr D p))) eqn:Hpr; [|done].
  unfold pte_addr. rewrite (same_table_of dirs m) by (apply unmap_same_directories || done || word).
  destruct (table_facts m top dirs Hs D HD (p / 1024)) as ([_ HTa] & _ & HTt); [word|done|].
  destruct (top_facts _ _ _ Hs D HD) as [[_ Htop] _]. cbn zeta.
  rewrite Heff by (apply not_scratch_slot; [done|done|done|word]). unfold unmap_word, walk_page. rewrite Hpr.
  cbn zeta. fold (pte_addr m D p).
  destruct (is_present (load m (pte_addr m D p))) eqn:Hpe; [|by rewrite Hpe]. rewrite decide_True by done.
  by destruct (clear_present_facts (load m (pte_addr m D p))) as (_ & _ & ->); [apply (sep_words _ _ _ Hs)|].
Qed.

Lemma unmap_effect_other D' q :
  D' ∈ dirs -> 0 <= q < 0xffbfc -> (D', q) <> (D, p) -> walk_page m' D' q = walk_page m D' q.
Proof.
  intros HD' Hq Hne. apply (walk_page_same dirs); [apply unmap_same_directories|done|lia|]. intros Hpr.
  rewrite Heff.
  2:{ intros (j & Hj & E). apply (pte_in_top m top dirs D' q j Hs HD') in E; [lia|lia|lia|done]. }
  unfold unmap_word. destruct (walk_page m D p) eqn:Hw; [|done]. rewrite decide_False; [done|].
  unfold walk_page in Hw. destruct (is_present (load m (pde_addr D p))) eqn:HprD; [|done].
  unfold pte_addr. intros E.
  apply entry_inj in E as [E1 E2]; [|by eapply table_of_frame|by eapply table_of_frame|word|word].
  destruct (sep_tables _ _ _ Hs D' D (q / 1024) (p / 1024)) as [X1 X2]; [done|done|word|word|done|done|done|].
  apply Hne. f_equal; [|word]. destruct X2; [done|word].
Qed.
End UnmapEffect.

(** One word of a user table is cleared. *)
Lemma clear_writes v q T j :
  sees v q T -> off_path v q (T + 4 * j) -> 0 <= q < 2 ^ 20 -> 0 <= j < 1024 ->
  exists c', PageTable.update v (q * 4096) j clear_present = Some c' /\
    writes v c' (T + 4 * j) (clear_present (load (mem v) (T + 4 * j))).
Proof.
  intros Hs Ho Hq Hj. by apply (update_writes v q T j _ _ clear_present v (writes_refl v _)).
Qed.

(** Unmapping a page of the running task gives the frame it had. *)
Lemma current_unmap v top dirs p o :
  machine_ok (cpu v) top dirs -> 0 <= p < 0xc0000 -> 0 <= o < 4096 ->
  exists c', current_pagedir_unmap v (p * 4096 + o) =
      Some (walk_page (mem (cpu v)) (cr3 (cpu v)) p, with_cpu v c') /\
    unmap_effect top (mem (cpu v)) (mem c') (cr3 (cpu v)) p /\ settled (cpu v) c' top dirs /\
    tlb c' = tlb (cpu v).
Proof.
  intros Hok Hp Ho. set (c := cpu v). set (D := cr3 c). destruct (page_index p o Ho) as (E1 & E2 & _).
  pose proof (ok_separate _ _ _ Hok) as Hs. pose proof (ok_cr3 _ _ _ Hok) as Hcr. fold c in Hs, Hcr.
  assert (Hdi : 0 <= p / 1024 < 768 /\ 0 <= p mod 1024 < 1024) by word.
  unfold current_pagedir_unmap. rewrite E1, E2. change PageTable.current_directory with (0xfffff * 4096).
  rewrite (get_sees c 0xfffff D) by (apply (current_sees_dir v top dirs Hok) || lia). cbn [mbind option_bind].
  replace (u32 (0xffc00000 + p / 1024 * 0x1000)) with ((0xffc00 + p / 1024) * 4096) by word.
  assert (Hsame : settled c c top dirs) by (by split).
  unfold unmap_effect, unmap_word, walk_page. fold c D. fold (pde_addr D p).
  destruct (is_present (load (mem c) (pde_addr D p))) eqn:Hpr; cbn [negb].
  2:{ exists c. split; [by destruct v|done]. }
  set (T := table_of (mem c) D (p / 1024)).
  destruct (table_facts _ _ _ Hs D Hcr (p / 1024)) as (HTf & HTd & HTt); [lia|done|].
  destruct (table_sees v top dirs p o ltac:(lia) ltac:(lia) Ho c T Hok eq_refl) as [Hsee Hoff]; [|done|done|].
  { split_and!; [apply (sep_words _ _ _ Hs)|done|done]. }
  rewrite (get_sees c _ T) by (done || lia). cbn [mbind option_bind]. change (pte_addr (mem c) D p) with (T + 4 * (p mod 1024)).
  cbn zeta. destruct (is_present (load (mem c) (T + 4 * (p mod 1024)))) eqn:Hpe; cbn [negb].
  2:{ exists c. split; [by destruct v|done]. }
  destruct (clear_writes c (0xffc00 + p / 1024) T (p mod 1024) Hsee (Hoff (p mod 1024) ltac:(lia))) as (c' & -> & W); [lia|lia|].
  cbn [mbind option_bind]. pose proof (writes_sees _ _ _ _ _ _ W (Hoff (p mod 1024) ltac:(lia)) Hsee) as Hsee'.
  rewrite (get_sees c' _ T) by (done || lia). cbn [mbind option_bind]. destruct W as [E L].
  pose proof (sep_words _ _ _ Hs (T + 4 * (p mod 1024))) as Hw.
  destruct (clear_present_facts _ Hw) as (C1 & C2 & C3).
  exists c'. rewrite L, decide_True, C2 by done. split; [done|]. split_and!.
  - intros a _. rewrite L. repeat case_decide; subst; done || congruence.
  - split; [|by rewrite E..]. rewrite E. apply (table_writes_ok c (mem c') top dirs D (p / 1024) T); try done; [lia|..].
    + intros a Hin. rewrite L, decide_False; [done|]. intros <-. by rewrite in_frame_entry in Hin by (apply HTf || lia).
    + intros a. rewrite L. case_decide; [done|apply (sep_words _ _ _ Hs)].
  - by rewrite E.
Qed.

(** The same for another task, with two scratch pages. *)
Lemma external_unmap v top dirs D p o :
  machine_ok (cpu v) top dirs -> SCRATCH_PAGES (cpu v) = 0 -> D ∈ dirs -> 0 <= p < 0xc0000 -> 0 <= o < 4096 ->
  exists c', ExternalPageDirectory.unmap v D (p * 4096 + o) =
      Some (walk_page (mem (cpu v)) D p, with_cpu v c') /\
    unmap_effect top (mem (cpu v)) (mem c') D p /\ settled (cpu v) c' top dirs.
Proof.
  intros Hok Hscr HD Hp Ho. set (c := cpu v). destruct (page_index p o Ho) as (E1 & E2 & _).
  pose proof (ok_separate _ _ _ Hok) as Hs. fold c in Hs, Hscr.
  assert (Hdi : 0 <= p / 1024 < 768 /\ 0 <= p mod 1024 < 1024) by word.
  unfold ExternalPageDirectory.unmap. fold c. rewrite E1, E2.
  destruct (external_directory top dirs D HD p o Hp Ho c Hok Hscr)
    as (page & c1 & -> & Hva & Hidx & Hok1 & Hsee & Hoff & Hsame & Hld & Hcr & Hs1 & Htlb).
  cbn [mbind option_bind]. rewrite Hva, (get_sees c1 0xffbff D), Hld by (done || lia). cbn [mbind option_bind].
  assert (Hst : forall c', machine_ok c' top dirs -> cr3 c' = cr3 c1 -> SCRATCH_PAGES c' = 0 ->
    (forall q, q < 0xc0000 -> tlb c' !! q = tlb c1 !! q) -> settled c c' top dirs).
  { intros c' X1 X2 X3 X4. split; [done|congruence|congruence|]. intros q Hq. rewrite X4, Htlb by done.
    apply lookup_delete_ne. lia. }
  assert (Hdrop0 : forall c2, SCRATCH_PAGES c2 = 1 -> UnmappedPage.drop c2 page = with_scratch c2 0)
    by (intros c2 X; apply (scratch_drop c2 page 0 Hidx); [by left|by rewrite X]).
  unfold unmap_effect, unmap_word, walk_page. fold c. fold (pde_addr D p).
  destruct (is_present (load (mem c) (pde_addr D p))) eqn:Hpr; cbn [negb].
  2:{ eexists. split; [done|]. rewrite Hdrop0 by done. split; [intros a Ha; by apply Hsame|].
      apply Hst; try done. by apply (proj1 (machine_ok_scratch _ _ _ 0)). }
  change (get_address (load (mem c) (pde_addr D p))) with (table_of (mem c) D (p / 1024)).
  set (T := table_of (mem c) D (p / 1024)).
  destruct (table_facts _ _ _ Hs D HD (p / 1024)) as (HTf & HTd & HTt); [lia|done|].
  destruct (scratch_map_ok c1 top dirs T Hok1 (or_intror Hs1) HTf)
    as (page2 & c2 & -> & Hidx2 & Hva2 & Hok2 & Hsee2 & Hsame2 & Hcr2 & Hscr2 & Htlb2 & Hpte2). cbn zeta in *.
  rewrite Hs1 in *. cbn [mbind option_bind]. change (0xffbff - 1) with 0xffbfe in *.
  pose proof (same_but_scratch_trans _ _ _ _ Hsame Hsame2) as Hsame'.
  assert (Hpte : load (mem c2) (T + 4 * (p mod 1024)) = load (mem c) (T + 4 * (p mod 1024))).
  { apply Hsame', not_scratch_slot; [|apply HTf|done|lia]. destruct (top_facts _ _ _ Hs D HD) as [[_ ?] _]. done. }
  rewrite Hva2, (get_sees c2 _ T), Hpte by (done || lia). cbn [mbind option_bind].
  change (pte_addr (mem c) D p) with (T + 4 * (p mod 1024)). cbn zeta.
  assert (Hdrop : forall c3, SCRATCH_PAGES c3 = 3 ->
    UnmappedPage.drop (UnmappedPage.drop c3 page2) page = with_scratch (with_scratch c3 1) 0).
  { intros c3 X. rewrite (scratch_drop c3 page2 1 Hidx2) by (by right || by rewrite X). by rewrite Hdrop0. }
  assert (Htl : forall q, q < 0xc0000 -> tlb c2 !! q = tlb c1 !! q)
    by (intros q Hq; rewrite Htlb2; apply lookup_delete_ne; lia).
  destruct (is_present (load (mem c) (T + 4 * (p mod 1024)))) eqn:Hpe; cbn [negb].
  2:{ eexists. split; [done|]. rewrite Hdrop by done. split; [intros a Ha; by apply Hsame'|].
      apply Hst; try done. by apply (proj1 (machine_ok_scratch _ _ _ 0)), (proj1 (machine_ok_scratch _ _ _ 1)). }
  assert (Hoff2 : off_path c2 0xffbfe (T + 4 * (p mod 1024))).
  { apply (scratch_off_path c2 top dirs T 1); try done; [by right|apply HTf|lia|]. intros X.
    destruct HTd. fold T. rewrite X. apply Hok2. }
  destruct (clear_writes c2 0xffbfe T (p mod 1024) Hsee2 Hoff2) as (c3 & -> & E & L); [lia|lia|].
  cbn [mbind option_bind]. eexists. split; [done|]. rewrite Hdrop by (by rewrite E). split.
  - intros a Ha. cbn [mem with_scratch]. rewrite L, Hpte, <- (Hsame' a Ha).
    repeat case_decide; subst; done || congruence.
  - apply Hst; [|cbn [cr3 with_scratch]; rewrite E; done|done|cbn [tlb with_scratch]; by rewrite E].
    apply (proj1 (machine_ok_scratch _ _ _ 0)), (proj1 (machine_ok_scratch _ _ _ 1)). rewrite E.
    assert (Hd : load (mem c2) (D + 4 * (p / 1024)) = load (mem c) (D + 4 * (p / 1024)))
      by (apply (scratch_same_directories _ _ _ _ Hs Hsame'); [done|lia]).
    apply (table_writes_ok c2 (mem c3) top dirs D (p / 1024) T); try done; [lia|..].
    + by rewrite Hd.
    + unfold table_of. by rewrite Hd.
    + intros a Hin. rewrite L, decide_False; [done|]. intros <-. by rewrite in_frame_entry in Hin by (apply HTf || lia).
    + intros a. rewrite L, Hpte. case_decide; [apply clear_present_facts, (sep_words _ _ _ Hs)|].
      apply (sep_words _ _ _ (ok_separate _ _ _ Hok2)).
Qed.

(** ** New frames *)

Lemma fresh_kernel_tables m top dirs F D : fresh_frame m top dirs F -> D ∈ dirs ->
  forall i, 768 <= i < 1023 -> is_present (load m (D + 4 * i)) = true -> table_of m D i <> F.
Proof. intros (_ & _ & _ & H) HD i Hi. apply H; [done|lia]. Qed.

(** The frame is cleared, and nothing else changes. *)
Lemma clear_frame_spec c top dirs F :
  machine_ok c top dirs -> SCRATCH_PAGES c = 0 -> fresh_frame (mem c) top dirs F ->
  exists c', clear_frame c F = Some c' /\ settled c c' top dirs /\
    forall a, ~ scratch_slot top a -> load (mem c') a = if in_frame F a then 0 else load (mem c) a.
Proof.
  intros Hok Hscr HF. pose proof HF as (HFf & HFt & HFd & _). unfold clear_frame.
  pose proof (ok_separate _ _ _ Hok) as Hs.
  destruct (scratch_map_ok c top dirs F Hok (or_introl Hscr) HFf)
    as (page & c1 & -> & Hidx & Hva & Hok1 & Hsee & Hsame & Hcr & Hscr1 & Htlb & Hpte). cbn zeta in *.
  rewrite Hscr in *. cbn [mbind option_bind]. rewrite Hva. change (0xffbff - 0) with 0xffbff in *.
  destruct (zero_sees c1 0xffbff F Hsee) as (c2 & -> & E & _ & L); [lia|apply HFf| |].
  { intros i Hi. apply (scratch_off_path c1 top dirs F 0 i Hok1); try done; [by left|apply HFf|].
    intros ->. by destruct HFd; apply Hok1. }
  cbn [mbind option_bind]. eexists. split; [done|].
  rewrite (scratch_drop c2 page 0 Hidx) by (try (by left); by rewrite E).
  split; [split|].
  - apply (proj1 (machine_ok_scratch _ _ _ 0)). rewrite E. apply (frame_writes_ok c1 (mem c2) top dirs F); try done.
    + intros i Hi. assert (Hd : load (mem c1) (cr3 c1 + 4 * i) = load (mem c) (cr3 c1 + 4 * i)).
      { apply (scratch_same_directories _ _ _ _ Hs Hsame); [apply Hok1|lia]. }
      unfold table_of. rewrite Hd. apply (fresh_kernel_tables (mem c) top dirs F); [done|apply Hok1|done].
    + intros a Ha. by rewrite L, Ha.
    + intros a. rewrite L. case_match; [done|apply (sep_words _ _ _ (ok_separate _ _ _ Hok1))].
  - cbn [cr3 with_scratch]. by rewrite E.
  - by rewrite Hscr.
  - intros q Hq. cbn [tlb with_scratch]. rewrite E. cbn [tlb with_mem]. rewrite Htlb. apply lookup_delete_ne. lia.
  - intros a Ha. cbn [mem with_scratch]. by rewrite L, (Hsame a Ha).
Qed.

(** What a driver stores stays in the frame. *)
Lemma fill_frame_spec m F contents : F mod 4096 = 0 -> words_ok m -> Forall is_u32 contents ->
  words_ok (fill_frame m F contents) /\
  forall a, in_frame F a = false -> load (fill_frame m F contents) a = load m a.
Proof.
  intros HF Hm Hc. unfold fill_frame.
  assert (H : forall l m, Forall (fun '(i, x) => 0 <= i < 1024 /\ is_u32 x) l -> words_ok m ->
    words_ok (foldl (fun m '(i, x) => store m (F + 4 * i) x) m l) /\
    forall a, in_frame F a = false -> load (foldl (fun m '(i, x) => store m (F + 4 * i) x) m l) a = load m a).
  { clear -HF. induction l as [|[i x] l IH]; intros m Hl Hm; [done|]. apply Forall_cons in Hl as [[Hi Hx] Hl].
    cbn [foldl]. destruct (IH (store m (F + 4 * i) x) Hl) as [H1 H2]; [by apply words_ok_store|].
    split; [done|]. intros a Ha. rewrite H2 by done. apply load_store_ne. intros <-.
    by rewrite in_frame_entry in Ha. }
  apply H; [|done]. apply Forall_forall. intros [i x] Hin.
  pose proof (elem_of_zip_l _ _ _ _ Hin) as H1. pose proof (elem_of_zip_r _ _ _ _ Hin) as H2.
  apply elem_of_seqZ in H1. split; [lia|]. by eapply Forall_forall in Hc.
Qed.

Lemma fill_frame_ok c top dirs F contents :
  machine_ok c top dirs -> fresh_frame (mem c) top dirs F -> Forall is_u32 contents ->
  machine_ok (with_mem c (fill_frame (mem c) F contents)) top dirs.
Proof.
  intros Hok HF Hc. pose proof HF as (HFf & _ & HFd & _). pose proof (ok_separate _ _ _ Hok) as Hs.
  destruct (fill_frame_spec (mem c) F contents) as [H1 H2]; [apply HFf|apply Hs|done|].
  apply (frame_writes_ok c _ top dirs F); try done.
  intros i Hi. apply (fresh_kernel_tables (mem c) top dirs F); [done|apply Hok|done].
Qed.

(** A frame that is no table is on the path of no page in front of the scratch
    pages. *)
Lemma frame_walk_same m m' top dirs F D p :
  separate m top dirs -> fresh_frame m top dirs F -> D ∈ dirs -> 0 <= p < 0xffbfc ->
  (forall a, ~ scratch_slot top a -> in_frame F a = false -> load m' a = load m a) ->
  walk_page m' D p = walk_page m D p.
Proof.
  intros Hs ([_ HFa] & HFt & HFd & HFn) HD Hp L. destruct (top_facts _ _ _ Hs D HD) as [[_ Htop] Hnt].
  assert (Hsame : same_directories dirs m m').
  { intros D' i HD' Hi. pose proof (sep_dir _ _ _ Hs D' HD') as [_ Ha'].
    apply L; [apply not_scratch_slot; [done|done|congruence|done]|].
    apply in_frame_other; [done|done|done|congruence]. }
  apply (walk_page_same dirs); [done|done|lia|]. intros Hpr. apply L.
  - intros (j & Hj & E). apply (pte_in_top m top dirs D p j Hs HD) in E; [lia|lia|lia|done].
  - unfold pte_addr. apply in_frame_other; [done|by eapply table_of_frame|word|]. intros E. symmetry in E.
    by apply (HFn D (p / 1024)); [|word| |].
Qed.

(** ** A new page directory *)

Lemma with_mem_sees c c' q T :
  c' = with_mem c (mem c') -> load (mem c') (pde_addr (cr3 c) q) = load (mem c) (pde_addr (cr3 c) q) ->
  load (mem c') (pte_addr (mem c) (cr3 c) q) = load (mem c) (pte_addr (mem c) (cr3 c) q) ->
  sees c q T -> sees c' q T.
Proof.
  intros E H1 H2 [Hs|[Ht Hw]]; [left; by rewrite E|right; split; [by rewrite E|]].
  rewrite E. cbn [mem cr3 with_mem]. by rewrite (walk_page_ext (mem c)).
Qed.

(** Copying entries of the running directory into a frame it does not meet. *)
Lemma copy_updates c top dirs q F (l : list Z) :
  machine_ok c top dirs -> sees c q F -> is_frame F -> F ∉ dirs -> 0 <= q < 2 ^ 20 ->
  NoDup l -> Forall (fun i => 0 <= i < 1024) l -> (forall i, i ∈ l -> off_path c q (F + 4 * i)) ->
  foldl (fun o i => c ← o; e ← PageTable.get c PageTable.current_directory i;
                    PageTable.update c (q * 4096) i (fun _ => e)) (Some c) l =
  foldl (fun o i => c' ← o; PageTable.update c' (q * 4096) i ((fun i _ => load (mem c) (cr3 c + 4 * i)) i)) (Some c) l.
Proof.
  intros Hok Hs [_ HFa] HFd Hq Hnd Hl Hpath. induction l as [|i l IH] using rev_ind; [done|].
  apply NoDup_app in Hnd as (Hnd & Hni & _). apply Forall_app in Hl as [Hl Hi]. rewrite Forall_singleton in Hi.
  assert (Hpath' : forall j, j ∈ l -> off_path c q (F + 4 * j)) by (intros j Hj; apply Hpath; set_solver).
  rewrite !foldl_snoc, IH by done.
  destruct (updates_sees c q F l (fun i _ => load (mem c) (cr3 c + 4 * i)) Hs Hq Hnd Hl Hpath' HFa)
    as (c1 & -> & E & Hs1 & L). cbn [mbind option_bind].
  pose proof (sep_dir _ _ _ (ok_separate _ _ _ Hok) _ (ok_cr3 _ _ _ Hok)) as [_ Ha].
  assert (Hd : forall j, 0 <= j < 1024 -> load (mem c1) (cr3 c + 4 * j) = load (mem c) (cr3 c + 4 * j)).
  { intros j Hj. rewrite L, in_frame_other; [done|done|done|done|]. intros ->. destruct HFd. apply Hok. }
  destruct (sep_self _ _ _ (ok_separate _ _ _ Hok) _ (ok_cr3 _ _ _ Hok)) as [_ Hself].
  assert (Hdir : sees c1 0xfffff (cr3 c)).
  { apply (with_mem_sees c c1); [done|by apply (Hd 1023)| |].
    - unfold pte_addr. change (0xfffff / 1024) with 1023. rewrite Hself. by apply (Hd 1023).
    - apply coherent_sees; [apply Hok|lia|]. apply (walk_directory _ top dirs); apply Hok. }
  change PageTable.current_directory with (0xfffff * 4096).
  rewrite (get_sees c1 0xfffff (cr3 c)) by (done || lia). cbn [mbind option_bind]. by rewrite Hd.
Qed.

(** The entries of the new directory. *)
Definition new_dir_word (m : memory) (D F i : Z) : Z :=
  if i <? 768 then 0 else if i =? 1023 then set_address (load m (D + 4 * i)) F else load m (D + 4 * i).

Section NewDirWords.
Context (m m' : memory) (top : Z) (dirs : gset Z) (D F : Z).
Context (Hs : separate m top dirs) (HD : D ∈ dirs) (HF : fresh_frame m top dirs F).
Context (L : forall a, ~ scratch_slot top a ->
  load m' a = if in_frame F a then new_dir_word m D F ((a - F) / 4) else load m a).

Lemma new_dir_load i : 0 <= i < 1024 -> load m' (F + 4 * i) = new_dir_word m D F i.
Proof.
  intros Hi. destruct HF as ([_ HFa] & HFt & _). destruct (top_facts _ _ _ Hs D HD) as [[_ Htop] _].
  rewrite L by (apply not_scratch_slot; done). rewrite in_frame_entry by done. f_equal. word.
Qed.

Lemma new_dir_old D' i : D' ∈ dirs -> 0 <= i < 1024 -> load m' (D' + 4 * i) = load m (D' + 4 * i).
Proof.
  intros HD' Hi. destruct HF as ([_ HFa] & HFt & HFd & _). destruct (top_facts _ _ _ Hs D HD) as [[_ Htop] Hnt].
  pose proof (sep_dir _ _ _ Hs D' HD') as [_ Ha'].
  rewrite L by (apply not_scratch_slot; [done|done|congruence|done]).
  rewrite in_frame_other; [done|done|done|done|congruence].
Qed.

(** Every table of the new set is a table of the old one. *)
Lemma new_dir_entries D' i :
  D' ∈ ({[F]} ∪ dirs : gset Z) -> 0 <= i < 1023 -> is_present (load m' (D' + 4 * i)) = true ->
  exists D0, D0 ∈ dirs /\ is_present (load m (D0 + 4 * i)) = true /\ table_of m' D' i = table_of m D0 i /\
    (D' = D0 \/ D' = F /\ 768 <= i).
Proof.
  intros [->%elem_of_singleton|HD']%elem_of_union Hi; unfold table_of.
  - rewrite new_dir_load by lia. unfold new_dir_word. case_test; [done|]. rewrite (proj2 (Z.eqb_neq i 1023)) by lia.
    intros Hpr. exists D. by auto with lia.
  - rewrite new_dir_old by (done || lia). intros Hpr. exists D'. by auto.
Qed.

Lemma new_dir_separate : words_ok m' -> separate m' top ({[F]} ∪ dirs).
Proof.
  intros Hw. pose proof HF as (HFf & HFt & HFd & HFn). split.
  - done.
  - intros D' [->%elem_of_singleton|HD']%elem_of_union; [done|by apply (sep_dir _ _ _ Hs)].
  - intros D' [->%elem_of_singleton|HD']%elem_of_union; unfold table_of.
    + rewrite new_dir_load by lia. destruct (sep_self _ _ _ Hs D HD) as [Hp _].
      destruct (set_address_facts (load m (D + 4 * 1023)) F) as (_ & H2 & _ & H4); [apply Hs|apply HFf|].
      unfold new_dir_word. cbn [Z.ltb Z.compare Z.eqb Pos.compare Pos.compare_cont Pos.eqb].
      rewrite H4, H2. split; [done|]. destruct HFf. lia.
    + rewrite new_dir_old by (done || lia). by apply (sep_self _ _ _ Hs).
  - intros D' [->%elem_of_singleton|HD']%elem_of_union; unfold table_of.
    + rewrite new_dir_load by lia. by apply (sep_top _ _ _ Hs D).
    + rewrite new_dir_old by (done || lia). by apply (sep_top _ _ _ Hs).
  - intros D1 D2 i1 i2 H1 H2 Hi1 Hi2 Hp1 Hp2.
    destruct (new_dir_entries D1 i1 H1 Hi1 Hp1) as (E1 & X1 & X2 & -> & X4).
    destruct (new_dir_entries D2 i2 H2 Hi2 Hp2) as (E2 & Y1 & Y2 & -> & Y4). intros Heq.
    destruct (sep_tables _ _ _ Hs E1 E2 i1 i2) as [-> Hor]; try done. split; [done|].
    destruct X4 as [->|[-> ?]]; [|by right]. destruct Y4 as [->|[-> ?]]; [done|by right].
  - intros D1 D2 i H1 H2 Hi Hp1. destruct (new_dir_entries D1 i H1 Hi Hp1) as (E1 & X1 & X2 & -> & _).
    apply elem_of_union in H2 as [->%elem_of_singleton|H2]; [by apply HFn|by apply (sep_not_dir _ _ _ Hs)].
Qed.
End NewDirWords.

Lemma scratch_pte c top dirs i : machine_ok c top dirs -> 0 <= i <= 3 ->
  pte_addr (mem c) (cr3 c) (0xffbff - i) = top + 4 * (1023 - i).
Proof.
  intros [Hs _ Hcr] Hi. unfold pte_addr. replace ((0xffbff - i) / 1024) with 1022 by word.
  destruct (sep_top _ _ _ Hs _ Hcr) as [_ ->]. f_equal. f_equal. word.
Qed.

Section NewDirectory.
Context (c : Mmu.t) (top : Z) (dirs : gset Z) (F : Z).
Context (Hok : machine_ok c top dirs) (HF : fresh_frame (mem c) top dirs F).

(** A state in which the frame is being filled through the first scratch page. *)
Record filling (c1 : Mmu.t) (f : Z -> option Z) : Prop := {
  fl_ok : machine_ok c1 top dirs;
  fl_sees : sees c1 0xffbff F;
  fl_cr3 : cr3 c1 = cr3 c;
  fl_load : forall a, ~ scratch_slot top a -> load (mem c1) a =
    (if in_frame F a then default (load (mem c) a) (f ((a - F) / 4)) else load (mem c) a)
}.

Lemma filling_off c1 f j : filling c1 f -> 0 <= j < 1024 -> off_path c1 0xffbff (F + 4 * j).
Proof.
  intros [Hok1 _ _ _] Hj. pose proof HF as ([_ HFa] & HFt & HFd & _).
  apply (scratch_off_path c1 top dirs F 0 j Hok1); try done; [by left|by apply (scratch_pte c1 top dirs 0 Hok1)|].
  intros ->. by destruct HFd; apply Hok1.
Qed.

(** Entries of the frame are given values that the old contents do not matter
    for. *)
Lemma filling_updates c1 f l (x : Z -> Z) :
  filling c1 f -> NoDup l -> Forall (fun i => 0 <= i < 1024) l -> (forall i, i ∈ l -> is_u32 (x i)) ->
  exists c2, foldl (fun o i => c ← o; PageTable.update c (0xffbff * 4096) i (fun _ => x i)) (Some c1) l = Some c2 /\
    c2 = with_mem c1 (mem c2) /\ filling c2 (fun i => if decide (i ∈ l) then Some (x i) else f i).
Proof.
  intros Hf Hnd Hl Hx. pose proof Hf as [Hok1 Hs1 Hcr1 L1]. pose proof HF as ([HFu HFa] & HFt & HFd & HFn).
  destruct (updates_sees c1 0xffbff F l (fun i _ => x i)) as (c2 & H & E & Hs2 & L2); try done.
  { intros i Hi. apply (filling_off c1 f i Hf). by eapply Forall_forall in Hl. }
  exists c2. split; [exact H|]. split; [done|]. split; [|done|by rewrite E|].
  - rewrite E. pose proof (ok_separate _ _ _ Hok) as Hs. apply (frame_writes_ok c1 (mem c2) top dirs F); try done.
    + intros i Hi. rewrite Hcr1. pose proof (ok_cr3 _ _ _ Hok) as Hcr.
      destruct (top_facts _ _ _ Hs _ Hcr) as [[_ Htop] Hnt]. pose proof (sep_dir _ _ _ Hs _ Hcr) as [_ Ha].
      assert (Hd : load (mem c1) (cr3 c + 4 * i) = load (mem c) (cr3 c + 4 * i)).
      { rewrite L1 by (apply not_scratch_slot; [done|done|congruence|lia]).
        rewrite in_frame_other; [done|done|done|lia|congruence]. }
      unfold table_of. rewrite Hd. by apply (fresh_kernel_tables (mem c) top dirs F).
    + intros a Ha. by rewrite L2, Ha.
    + intros a. rewrite L2. case_match eqn:Hb; [|apply (sep_words _ _ _ (ok_separate _ _ _ Hok1))].
      apply andb_prop in Hb as [_ Hb%bool_decide_eq_true]. by apply Hx.
  - intros a Ha. rewrite L2, L1 by done. destruct (in_frame F a); cbn [andb]; [|done].
    case_decide as Hd; [by rewrite bool_decide_true|by rewrite bool_decide_false].
Qed.

Lemma filling_dir c1 f i : filling c1 f -> 0 <= i < 1024 ->
  load (mem c1) (cr3 c + 4 * i) = load (mem c) (cr3 c + 4 * i).
Proof.
  intros [_ _ _ L1] Hi. pose proof HF as ([_ HFa] & _ & HFd & _). pose proof (ok_separate _ _ _ Hok) as Hs.
  pose proof (ok_cr3 _ _ _ Hok) as Hcr. destruct (top_facts _ _ _ Hs _ Hcr) as [[_ Htop] Hnt].
  pose proof (sep_dir _ _ _ Hs _ Hcr) as [_ Ha].
  rewrite L1 by (apply not_scratch_slot; [done|done|congruence|lia]).
  rewrite in_frame_other; [done|done|done|lia|congruence].
Qed.

(** Further words of the frame keep the kernel's translations. *)
Lemma filling_last c1 f m' : filling c1 f -> (forall a, in_frame F a = false -> load m' a = load (mem c1) a) ->
  words_ok m' -> coherent (with_mem c1 m').
Proof.
  intros Hf L Hw. pose proof Hf as [Hok1 _ Hcr1 _]. pose proof HF as (HFf & _ & HFd & _).
  eapply ok_coherent, (frame_writes_ok c1 m' top dirs F); try done.
  intros i Hi. rewrite Hcr1. unfold table_of. rewrite (filling_dir c1 f) by (done || lia).
  apply (fresh_kernel_tables (mem c) top dirs F); [done|apply Hok|done].
Qed.

Lemma new_directory_words c2 c3 :
  filling c2 (fun i => if decide (i ∈ seqZ 0 0x300) then Some PageTableEntry.new else None) ->
  filling c3 (fun i => if decide (i ∈ seqZ 0x300 0x100) then Some (load (mem c2) (cr3 c2 + 4 * i))
    else if decide (i ∈ seqZ 0 0x300) then Some PageTableEntry.new else None) ->
  forall a, ~ scratch_slot top a ->
    load (store (mem c3) (F + 4 * 0x3ff) (set_address (load (mem c3) (F + 4 * 0x3ff)) F)) a =
      if in_frame F a then new_dir_word (mem c) (cr3 c) F ((a - F) / 4) else load (mem c) a.
Proof.
  intros Hf2 Hf3 a Ha. pose proof HF as ([_ HFa] & HFt & _). pose proof (ok_separate _ _ _ Hok) as Hs.
  destruct (top_facts _ _ _ Hs _ (ok_cr3 _ _ _ Hok)) as [[_ Htop] _].
  assert (H3 : forall i, 0x300 <= i < 0x400 -> load (mem c3) (F + 4 * i) = load (mem c) (cr3 c + 4 * i)).
  { intros i Hi. rewrite (fl_load _ _ Hf3) by (apply not_scratch_slot; [done|done|done|lia]).
    rewrite in_frame_entry by (done || lia). replace ((F + 4 * i - F) / 4) with i by word.
    rewrite decide_True by (apply elem_of_seqZ; lia). cbn [default].
    rewrite (fl_cr3 _ _ Hf2). by apply (filling_dir c2 _ i Hf2); lia. }
  rewrite load_store. unfold new_dir_word. case_decide as E.
  - subst a. rewrite in_frame_entry by (done || lia). replace ((F + 4 * 0x3ff - F) / 4) with 0x3ff by word.
    rewrite H3 by lia. done.
  - rewrite (fl_load _ _ Hf3) by done. destruct (in_frame F a) eqn:Hin; [|done].
    apply in_frame_spec in Hin as (i & Hi & ->); [|done]. replace ((F + 4 * i - F) / 4) with i by word.
    destruct (Z.ltb_spec i 768).
    + rewrite decide_False by (rewrite elem_of_seqZ; lia). rewrite decide_True by (apply elem_of_seqZ; lia). done.
    + rewrite (proj2 (Z.eqb_neq i 1023)) by (intros ->; done). rewrite decide_True by (apply elem_of_seqZ; lia).
      cbn [default]. rewrite (fl_cr3 _ _ Hf2). apply (filling_dir c2 _ i Hf2). lia.
Qed.
End NewDirectory.

Lemma create_directory_spec v top dirs F v1 :
  machine_ok (cpu v) top dirs -> SCRATCH_PAGES (cpu v) = 0 ->
  new_frame v = Some (F, v1) -> fresh_frame (mem (cpu v)) top dirs F ->
  exists c', create_page_directory v = Some (F, with_cpu v1 c') /\ settled (cpu v) c' top ({[F]} ∪ dirs) /\
    forall a, ~ scratch_slot top a -> load (mem c') a =
      if in_frame F a then new_dir_word (mem (cpu v)) (cr3 (cpu v)) F ((a - F) / 4) else load (mem (cpu v)) a.
Proof.
  intros Hok Hscr Hn HF. pose proof HF as (HFf & HFt & HFd & HFn). set (c := cpu v) in *.
  pose proof (ok_separate _ _ _ Hok) as Hs. pose proof (ok_cr3 _ _ _ Hok) as Hcr.
  unfold create_page_directory. rewrite Hn. cbn [mbind option_bind]. rewrite (new_frame_cpu _ _ _ Hn). fold c.
  destruct (scratch_map_ok c top dirs F Hok (or_introl Hscr) HFf)
    as (page & c1 & -> & Hidx & Hva & Hok1 & Hsee & Hsame & Hcr1 & Hscr1 & Htlb & Hpte). cbn zeta in *.
  rewrite Hscr in *. cbn [mbind option_bind]. rewrite Hva. change (0xffbff - 0) with 0xffbff in *.
  assert (Hf1 : filling c top dirs F c1 (fun _ => None)).
  { split; [done..|]. intros a Ha. rewrite (Hsame a Ha). by case_match. }
  destruct (filling_updates c top dirs F Hok HF c1 _ (seqZ 0 0x300) (fun _ => PageTableEntry.new) Hf1)
    as (c2 & -> & E2 & Hf2); [apply NoDup_seqZ|apply Forall_seqZ; lia|done|]. cbn [mbind option_bind].
  assert (Hc3 : Forall (fun i => 0 <= i < 1024) (seqZ 0x300 0x100)) by (apply Forall_seqZ; lia).
  rewrite (copy_updates c2 top dirs 0xffbff F); [|apply Hf2|apply Hf2|done|done|lia|apply NoDup_seqZ|done|].
  2:{ intros i Hi. apply (filling_off c top dirs F HF c2 _ i Hf2). by eapply Forall_forall in Hc3. }
  destruct (filling_updates c top dirs F Hok HF c2 _ (seqZ 0x300 0x100) (fun i => load (mem c2) (cr3 c2 + 4 * i)) Hf2)
    as (c3 & -> & E3 & Hf3); [apply NoDup_seqZ|done|intros; apply (sep_words _ _ _ (ok_separate _ _ _ (fl_ok _ _ _ _ _ _ Hf2)))|].
  cbn [mbind option_bind].
  pose proof (filling_off c top dirs F HF c3 _ 0x3ff Hf3 ltac:(lia)) as Hoff.
  rewrite (update_sees c3 0xffbff F); [|apply Hf3|lia|lia]. cbn [mbind option_bind].
  eexists. split; [done|].
  assert (L : forall a, ~ scratch_slot top a ->
    load (store (mem c3) (F + 4 * 0x3ff) (set_address (load (mem c3) (F + 4 * 0x3ff)) F)) a =
      if in_frame F a then new_dir_word (mem c) (cr3 c) F ((a - F) / 4) else load (mem c) a)
    by (apply (new_directory_words c top dirs F Hok HF c2 c3 Hf2 Hf3)).
  assert (Hw4 : words_ok (store (mem c3) (F + 4 * 0x3ff) (set_address (load (mem c3) (F + 4 * 0x3ff)) F))).
  { pose proof (sep_words _ _ _ (ok_separate _ _ _ (fl_ok _ _ _ _ _ _ Hf3))) as Hw3. apply words_ok_store; [done|].
    apply set_address_facts; [apply Hw3|apply HFf]. }
  rewrite (scratch_drop _ page 0 Hidx) by (try (by left); cbn [SCRATCH_PAGES with_mem]; by rewrite E3, E2).
  split; [split|done].
  - apply (proj1 (machine_ok_scratch _ _ _ 0)). split.
    + by apply (new_dir_separate (mem c) _ top dirs (cr3 c) F).
    + apply (filling_last c top dirs F Hok HF c3 _ _ Hf3); [|done].
      intros a Ha. apply load_store_ne. intros <-. rewrite in_frame_entry in Ha; [done|apply HFf|lia].
    + cbn [cr3 with_mem]. rewrite (fl_cr3 _ _ _ _ _ _ Hf3). set_solver.
  - cbn [cr3 with_scratch with_mem]. by rewrite (fl_cr3 _ _ _ _ _ _ Hf3).
  - by rewrite Hscr.
  - intros q Hq. cbn [tlb with_scratch with_mem]. rewrite E3, E2. cbn [tlb with_mem]. rewrite Htlb.
    apply lookup_delete_ne. lia.
Qed.
