(* ===== verification/VmInvariant.v ===== *)
(** * Frames and page tables together

    The invariant of virtual memory: a frame that holds a page table or a
    directory is in use, not counted and mapped into no user page; a frame
    mapped into a user page is in use; and the reference count of a counted
    frame is the number of user pages that map it.  [held] is a reference the
    kernel has in its hands, between the allocation of a frame and its mapping
    or between its unmapping and its release. *)

From S2P Require Import Prelude Address Bitmap Tracking PhysicalMemory MappedMemory Mmu MmuSpec Paging PagingSpec.
Import PageTableEntry.

Abbreviation frames v := (FrameBitmap.len (PhysicalMemory.ALLOCATOR (phys v)) * 8).
Abbreviation in_use v := (PhysicalMemory.frame_in_use (phys v)).

Definition user_page (p : Z) : Prop := 0 <= p < 0xc0000.

(** The frames of the page tables and directories. *)
Definition paging_frame (m : memory) (top : Z) (dirs : gset Z) (F : Z) : Prop :=
  F = top \/ F ∈ dirs \/
  exists D i, D ∈ dirs /\ 0 <= i < 1023 /\ is_present (load m (D + 4 * i)) = true /\ table_of m D i = F.

(** [S] is the set of user pages mapped to [F]. *)
Definition mapped_at (m : memory) (dirs : gset Z) (F : Z) (S : gset (Z * Z)) : Prop :=
  forall D p, (D, p) ∈ S <-> D ∈ dirs /\ user_page p /\ walk_page m D p = Some F.

Definition held_count (held : option Z) (f : Z) : Z := if decide (held = Some f) then 1 else 0.

Record core (v : Vm) (refs : gmap Z Z) (top : Z) (dirs : gset Z) (held : option Z) : Prop := {
  co_phys : PhysicalMemory.inv (phys v) refs;
  co_ok : machine_ok (cpu v) top dirs;
  co_scratch : SCRATCH_PAGES (cpu v) = 0;
  co_table : forall F, paging_frame (mem (cpu v)) top dirs F ->
    0 <= F / 4096 < frames v /\ in_use v (F / 4096) = true /\ refs !! (F / 4096) = None;
  co_user : forall D p F, D ∈ dirs -> user_page p -> walk_page (mem (cpu v)) D p = Some F ->
    ~ paging_frame (mem (cpu v)) top dirs F /\ (F / 4096 < frames v -> in_use v (F / 4096) = true);
  co_count : forall f n, refs !! f = Some n -> exists S,
    mapped_at (mem (cpu v)) dirs (f * 4096) S /\ n = Z.of_nat (size S) + held_count held f
}.

(** ** Frames *)

Lemma fresh_paging m top dirs F : is_frame F -> ~ paging_frame m top dirs F -> fresh_frame m top dirs F.
Proof.
  intros HF Hn. split_and!; [done|intros ->; apply Hn; by left|intros ?; apply Hn; right; by left|].
  intros D i HD Hi Hpr E. apply Hn. right. right. by exists D, i.
Qed.

Lemma walk_page_frame m D p F : words_ok m -> walk_page m D p = Some F -> is_frame F.
Proof.
  unfold walk_page. intros Hm. repeat case_match; intros; simplify_eq. apply get_address_frame, Hm.
Qed.

Lemma frame_div F : is_frame F -> F / 4096 * 4096 = F /\ 0 <= F / 4096 < 2 ^ 20.
Proof. intros [? ?]. word. Qed.

(** A count is far from its bound: every mapped page has an entry of its own in
    physical memory. *)
Lemma mapped_bound m top dirs F S : separate m top dirs -> mapped_at m dirs F S -> Z.of_nat (size S) <= 2 ^ 30.
Proof.
  intros Hs HS. set (f := fun '(D, p) => pte_addr m D p / 4).
  assert (Hp : forall D p, (D, p) ∈ S -> D ∈ dirs /\ user_page p /\ is_present (load m (pde_addr D p)) = true).
  { intros D p Hin. apply HS in Hin as (HD & Hu & Hw). unfold walk_page in Hw. case_match eqn:Hpr; done. }
  assert (Hinj : forall x y, x ∈ S -> y ∈ S -> f x = f y -> x = y).
  { intros [D1 p1] [D2 p2] H1 H2. destruct (Hp _ _ H1) as (HD1 & Hu1 & Hpr1), (Hp _ _ H2) as (HD2 & Hu2 & Hpr2).
    pose proof (table_of_frame m top dirs Hs D1 (p1 / 1024)) as [_ Ha1].
    pose proof (table_of_frame m top dirs Hs D2 (p2 / 1024)) as [_ Ha2].
    unfold f, pte_addr, user_page in *. intros E.
    assert (E' : table_of m D1 (p1 / 1024) + 4 * (p1 mod 1024) = table_of m D2 (p2 / 1024) + 4 * (p2 mod 1024)) by word.
    apply entry_inj in E' as [E1 E2]; [|done|done|word|word].
    destruct (sep_tables _ _ _ Hs D1 D2 (p1 / 1024) (p2 / 1024)) as [X1 X2]; [done|done|word|word|done|done|done|].
    f_equal; [|word]. destruct X2; [done|word]. }
  assert (Hnd : NoDup (f <$> elements S)).
  { apply NoDup_fmap_2_strong; [|apply NoDup_elements]. intros x y. rewrite !elem_of_elements. apply Hinj. }
  assert (Hsub : (f <$> elements S) ⊆+ seqZ 0 (2 ^ 30)).
  { apply NoDup_submseteq; [done|]. intros x Hx. apply list_elem_of_fmap in Hx as ([D p] & -> & Hin).
    apply elem_of_elements in Hin. destruct (Hp _ _ Hin) as (HD & Hu & _).
    pose proof (table_of_frame m top dirs Hs D (p / 1024)) as [Hu32 Ha].
    apply elem_of_seqZ. unfold f, pte_addr, user_page in *. change (2 ^ 30) with 1073741824. word. }
  apply submseteq_length in Hsub. rewrite length_fmap, length_seqZ in Hsub.
  change (length (elements S)) with (size S) in Hsub. lia.
Qed.

(** ** Allocation *)

Lemma alloc_cases s refs a s' :
  PhysicalMemory.inv s refs -> PhysicalMemory.allocate_frame s = Some (Ok a, s') ->
  exists f, a = f * 4096 /\ 0 <= f < FrameBitmap.len (PhysicalMemory.ALLOCATOR s) * 8 /\
    PhysicalMemory.frame_in_use s f = false /\ refs !! f = None /\ PhysicalMemory.inv s' refs /\
    PhysicalMemory.FRAME_REF_TRACKER s' = PhysicalMemory.FRAME_REF_TRACKER s /\
    FrameBitmap.len (PhysicalMemory.ALLOCATOR s') = FrameBitmap.len (PhysicalMemory.ALLOCATOR s) /\
    forall g, 0 <= g -> PhysicalMemory.frame_in_use s' g = PhysicalMemory.frame_in_use s g || (g =? f).
Proof.
  intros Hinv Hal. destruct (PhysicalMemory.allocate_frame_step s refs (Ok a) s' Hinv Hal) as (Hinv' & Ht & Hlen & _).
  unfold PhysicalMemory.allocate_frame in Hal.
  destruct (PhysicalMemory.allocate_frames_cases s refs 1 Hinv) as [(f & b & Ha & Hf & Hle & Hfree & _ & _ & Huse)|Ha];
    [lia| |]; rewrite Ha in Hal; cbn [mbind option_bind] in Hal; [|by simplify_eq].
  assert (Hff : PhysicalMemory.frame_in_use s f = false) by (apply Hfree; lia). injection Hal as <- <-.
  exists f. split_and!; try (done || lia).
  - destruct (refs !! f) as [n|] eqn:Hn; [|done]. apply (PhysicalMemory.inv_tracked _ _ Hinv) in Hn as (_ & _ & Hu).
    congruence.
  - intros g Hg. unfold PhysicalMemory.frame_in_use at 1. cbn [PhysicalMemory.ALLOCATOR PhysicalMemory.with_bitmap].
    rewrite Huse by done. f_equal. word.
Qed.

(** A frame that is in use and that nothing refers to. *)
Record spare (v : Vm) (refs : gmap Z Z) (top : Z) (dirs : gset Z) (F : Z) : Prop := {
  sp_frame : is_frame F;
  sp_range : 0 <= F / 4096 < frames v;
  sp_use : in_use v (F / 4096) = true;
  sp_paging : ~ paging_frame (mem (cpu v)) top dirs F;
  sp_user : forall D p, D ∈ dirs -> user_page p -> walk_page (mem (cpu v)) D p <> Some F
}.

(** More frames in use. *)
Lemma core_more_used v refs top dirs held s' :
  core v refs top dirs held -> PhysicalMemory.inv s' refs ->
  FrameBitmap.len (PhysicalMemory.ALLOCATOR s') = FrameBitmap.len (PhysicalMemory.ALLOCATOR (phys v)) ->
  (forall g, 0 <= g -> in_use v g = true -> PhysicalMemory.frame_in_use s' g = true) ->
  core (with_phys v s') refs top dirs held.
Proof.
  intros [H1 H2 H3 H4 H5 H6] Hinv Hlen Huse. split; cbn [phys cpu with_phys]; try done.
  - intros F HF. destruct (H4 F HF) as (? & ? & ?). rewrite Hlen.
    split; [done|]. split; [apply Huse; [lia|done]|done].
  - intros D p F HD Hp Hw. destruct (H5 D p F HD Hp Hw) as [? Hu]. split; [done|]. rewrite Hlen. intros Hlt.
    apply Huse; [|by apply Hu]. pose proof (walk_page_frame _ _ _ _ (sep_words _ _ _ (ok_separate _ _ _ H2)) Hw) as [? ?].
    word.
Qed.

(** A frame that was free is spare once it is taken. *)
Lemma core_spare v refs top dirs held f s' :
  core v refs top dirs held -> 0 <= f < frames v -> in_use v f = false ->
  FrameBitmap.len (PhysicalMemory.ALLOCATOR s') = FrameBitmap.len (PhysicalMemory.ALLOCATOR (phys v)) ->
  PhysicalMemory.frame_in_use s' f = true -> spare (with_phys v s') refs top dirs (f * 4096).
Proof.
  intros Hco Hf Hfree Hlen Huse. assert (Ef : f * 4096 / 4096 = f) by word.
  destruct (PhysicalMemory.inv_bitmap _ _ (co_phys _ _ _ _ _ Hco)) as [_ Hl]. change (2 ^ 17) with 131072 in Hl.
  split; cbn [phys cpu with_phys]; rewrite ?Ef, ?Hlen; try done.
  - split; [|word]. unfold is_u32. lia.
  - intros Hp. destruct (co_table _ _ _ _ _ Hco _ Hp) as (_ & Hu & _). rewrite Ef in Hu. congruence.
  - intros D p HD Hp Hw. destruct (co_user _ _ _ _ _ Hco D p _ HD Hp Hw) as [_ Hu]. rewrite Ef in Hu.
    rewrite Hu in Hfree by lia. done.
Qed.

Lemma spare_fresh v refs top dirs F : spare v refs top dirs F -> fresh_frame (mem (cpu v)) top dirs F.
Proof. intros [H1 _ _ H4 _]. by apply fresh_paging. Qed.

Lemma core_new_frame v refs top dirs held F v1 :
  core v refs top dirs held -> new_frame v = Some (F, v1) ->
  cpu v1 = cpu v /\ core v1 refs top dirs held /\ spare v1 refs top dirs F /\ refs !! (F / 4096) = None /\
  in_use v (F / 4096) = false /\ frames v1 = frames v /\
  (forall g, 0 <= g -> in_use v1 g = in_use v g || (g =? F / 4096)).
Proof.
  intros Hco Hn. unfold new_frame, unwrap_frame in Hn. apply bind_Some in Hn as ([r s'] & Ha & Hn).
  destruct r as [a|]; simplify_eq.
  destruct (alloc_cases _ refs _ _ (co_phys _ _ _ _ _ Hco) Ha) as (f & -> & Hf & Hfree & Hnone & Hinv & _ & Hlen & Huse).
  assert (Ef : f * 4096 / 4096 = f) by word. rewrite Ef. split_and!; try done.
  - apply core_more_used; [done..|]. intros g Hg Hu. rewrite Huse, Hu by done. done.
  - apply (core_spare v refs top dirs held); try done. rewrite Huse, Z.eqb_refl by lia. apply orb_true_r.
  - cbn [phys with_phys]. by rewrite Hlen.
Qed.

(** A counted frame is handed out with its first reference. *)
Lemma core_alloc_tracked v refs top dirs F v1 :
  core v refs top dirs None ->
  unwrap_frame v (PhysicalMemory.allocate_frame_with_tracking (phys v)) = Some (F, v1) ->
  cpu v1 = cpu v /\ core v1 (<[F / 4096 := 1]> refs) top dirs (Some (F / 4096)) /\
  spare v1 (<[F / 4096 := 1]> refs) top dirs F /\ refs !! (F / 4096) = None /\
  in_use v (F / 4096) = false /\ frames v1 = frames v /\
  (forall g, 0 <= g -> in_use v1 g = in_use v g || (g =? F / 4096)).
Proof.
  intros Hco Hn. unfold unwrap_frame in Hn. apply bind_Some in Hn as ([r s'] & Ha & Hn).
  destruct r as [a|]; [|done]. simplify_eq.
  destruct (PhysicalMemory.allocate_tracked_step _ refs _ _ (co_phys _ _ _ _ _ Hco) Ha)
    as (refs' & Hinv & f & -> & Hf & Hfree & Hused & Hnone & ->). unfold PhysicalMemory.frame_address in *.
  unfold PhysicalMemory.allocate_frame_with_tracking in Ha. apply bind_Some in Ha as ([r1 s1] & Ha1 & Ha).
  destruct r1 as [a1|]; [|done]. apply bind_Some in Ha as ([r2 t] & _ & Ha). simplify_eq.
  destruct (alloc_cases _ refs _ _ (co_phys _ _ _ _ _ Hco) Ha1) as (f' & E & _ & _ & _ & Hinv1 & _ & Hlen & Huse).
  assert (f' = f) as -> by lia. assert (Ef : f * 4096 / 4096 = f) by word. rewrite Ef.
  assert (Huse' : forall g, 0 <= g -> PhysicalMemory.frame_in_use (PhysicalMemory.with_tracker s1 t) g =
    in_use v g || (g =? f)) by exact Huse.
  assert (Hsp : spare (with_phys v (PhysicalMemory.with_tracker s1 t)) (<[f := 1]> refs) top dirs (f * 4096)).
  { destruct (core_spare v refs top dirs None f (PhysicalMemory.with_tracker s1 t) Hco Hf Hfree) as [X1 X2 X3 X4 X5];
      [done|by rewrite Huse', Z.eqb_refl, orb_true_r by lia|]. by split. }
  assert (Hco1 : core (with_phys v s1) refs top dirs None).
  { apply core_more_used; [done..|]. intros g Hg Hu. by rewrite Huse, Hu. }
  split_and!; try done; [|by cbn [phys with_phys PhysicalMemory.ALLOCATOR PhysicalMemory.with_tracker]; rewrite Hlen].
  destruct Hco1 as [C1 C2 C3 C4 C5 C6]. split; cbn [phys cpu with_phys] in *; try done.
  - intros G HG. destruct (C4 G HG) as (X1 & X2 & X3). split; [done|]. split; [done|].
    rewrite lookup_insert_ne; [done|].
    intros ->. apply (sp_paging _ _ _ _ _ Hsp). cbn [cpu with_phys].
    assert (is_frame G) as [_ HGa]; [|replace (G / 4096 * 4096) with G by word; done].
    destruct HG as [-> | [HG | (D & i & HD & _ & _ & <-)]].
    + destruct C2 as [Hs _ Hcr]. by destruct (top_facts _ _ _ Hs _ Hcr).
    + by apply (sep_dir _ _ _ (ok_separate _ _ _ C2)).
    + by apply (table_of_frame _ _ _ (ok_separate _ _ _ C2)).
  - intros g n Hg. apply lookup_insert_Some in Hg as [[<- <-]|[Hne Hg]].
    + exists ∅. split; [|unfold held_count; by rewrite decide_True].
      intros D p. split; [by intros ?%elem_of_empty|]. intros (HD & Hp & Hw).
      by destruct (sp_user _ _ _ _ _ Hsp D p HD Hp).
    + destruct (C6 g n Hg) as (S & HS & ->). exists S. split; [done|].
      unfold held_count. rewrite !decide_False; [done|congruence|done].
Qed.

(** ** Mapping *)

(** A user table is used by one directory. *)
Lemma shares_user m top dirs D p T fresh D' :
  separate m top dirs -> D ∈ dirs -> D' ∈ dirs -> user_page p ->
  (if fresh : bool then fresh_frame m top dirs T /\ is_present (load m (pde_addr D p)) = false
   else T = table_of m D (p / 1024) /\ is_present (load m (pde_addr D p)) = true) ->
  shares m D p T D' -> D' = D.
Proof.
  intros Hs HD HD' Hp HT [->|[Hpr E]]; [done|]. unfold user_page in Hp. destruct fresh.
  - destruct HT as [(_ & _ & _ & Hf) _]. by destruct (Hf D' (p / 1024)); [|word| |].
  - destruct HT as [-> HprD].
    destruct (sep_tables _ _ _ Hs D' D (p / 1024) (p / 1024)) as [_ [?|?]]; [done|done|word|word|done|done|done|done|word].
Qed.

(** A frame that may be mapped into a user page, with the reference held for
    it when it is counted. *)
Record mappable (v : Vm) (refs : gmap Z Z) (top : Z) (dirs : gset Z) (held : option Z) (F : Z) : Prop := {
  mp_frame : is_frame F;
  mp_paging : ~ paging_frame (mem (cpu v)) top dirs F;
  mp_use : F / 4096 < frames v -> in_use v (F / 4096) = true;
  mp_held : held = None \/ held = Some (F / 4096);
  mp_refs : refs !! (F / 4096) = None \/ held = Some (F / 4096)
}.

(** The counts after page [p] of [D] starts to map [F]. *)
Lemma count_map (m m' : memory) dirs D p F f S :
  is_frame F -> D ∈ dirs -> user_page p -> walk_page m D p = None -> walk_page m' D p = Some F ->
  (forall D' q, D' ∈ dirs -> user_page q -> (D', q) <> (D, p) -> walk_page m' D' q = walk_page m D' q) ->
  mapped_at m dirs (f * 4096) S ->
  exists S', mapped_at m' dirs (f * 4096) S' /\
    Z.of_nat (size S') = Z.of_nat (size S) + (if decide (f = F / 4096) then 1 else 0).
Proof.
  intros HF HD Hp Hnone Hsome Hother HS. destruct (frame_div F HF) as [EF _].
  assert (Hnot : (D, p) ∉ S) by (intros Hin%HS; destruct Hin as (_ & _ & Hw); congruence).
  exists (if decide (f = F / 4096) then {[(D, p)]} ∪ S else S). split.
  - intros D' q. destruct (decide ((D', q) = (D, p))) as [[= -> ->]|Hne].
    + rewrite Hsome. case_decide as Ef.
      * subst f. rewrite EF. set_solver.
      * split; [done|]. intros (_ & _ & [= E]). subst F. exfalso. apply Ef. word.
    + assert (Hiff : (D', q) ∈ (if decide (f = F / 4096) then {[(D, p)]} ∪ S else S) <-> (D', q) ∈ S)
        by (case_decide; set_solver).
      rewrite Hiff, (HS D' q). split; intros (X1 & X2 & X3); (split; [done|split; [done|]]);
        [by rewrite Hother|by rewrite Hother in X3].
  - case_decide; [|lia]. rewrite size_union by set_solver. rewrite size_singleton. lia.
Qed.

Lemma core_map v refs top dirs held D p T fresh F flags c' :
  core v refs top dirs held -> D ∈ dirs -> user_page p -> walk_page (mem (cpu v)) D p = None ->
  (if fresh : bool then spare v refs top dirs T /\ refs !! (T / 4096) = None /\
      is_present (load (mem (cpu v)) (pde_addr D p)) = false /\ F <> T
   else T = table_of (mem (cpu v)) D (p / 1024) /\ is_present (load (mem (cpu v)) (pde_addr D p)) = true) ->
  mappable v refs top dirs held F ->
  map_effect top (mem (cpu v)) (mem c') D p T fresh F flags -> machine_ok c' top dirs -> SCRATCH_PAGES c' = 0 ->
  core (with_cpu v c') refs top dirs None /\ walk_page (mem c') D p = Some F /\
  (forall D' q, D' ∈ dirs -> user_page q -> (D', q) <> (D, p) -> walk_page (mem c') D' q = walk_page (mem (cpu v)) D' q) /\
  paging_frame (mem c') top dirs T /\
  (forall G, paging_frame (mem c') top dirs G -> paging_frame (mem (cpu v)) top dirs G \/ fresh = true /\ G = T).
Proof.
  intros [C1 C2 C3 C4 C5 C6] HD Hp Hnone HT0 [M1 M2 M3 M4 M5] Heff Hok' Hscr'.
  pose proof (ok_separate _ _ _ C2) as Hs. set (m := mem (cpu v)) in *.
  assert (Hp' : 0 <= p /\ p / 1024 < 1022) by (unfold user_page in Hp; word). destruct Hp' as [Hp0 Hp1].
  assert (HT : if fresh then fresh_frame m top dirs T /\ is_present (load m (pde_addr D p)) = false
    else T = table_of m D (p / 1024) /\ is_present (load m (pde_addr D p)) = true).
  { destruct fresh; [|done]. destruct HT0 as (? & ? & ? & ?). split; [by eapply spare_fresh|done]. }
  assert (Hwalk : walk_page (mem c') D p = Some F)
    by (by apply (map_effect_walk m (mem c') top dirs Hs D p T fresh F flags)).
  assert (Hother : forall D' q, D' ∈ dirs -> user_page q -> (D', q) <> (D, p) -> walk_page (mem c') D' q = walk_page m D' q).
  { intros D' q HD' Hq Hne. apply (map_effect_other m (mem c') top dirs Hs D p T fresh F flags); try done.
    - unfold user_page in Hq. lia.
    - intros [-> Hsh]. apply Hne. f_equal. by eapply shares_user. }
  assert (Hpag : forall G, paging_frame (mem c') top dirs G -> paging_frame m top dirs G \/ fresh = true /\ G = T).
  { intros G [->|[HG|(D' & i & HD' & Hi & Hpr & E)]]; [left; by left|left; right; by left|].
    unfold table_of in E.
    rewrite (map_dir_word m (mem c') top dirs Hs D p T fresh F flags HD Hp0 Hp1 HT Heff D' i HD' ltac:(lia)) in Hpr, E.
    destruct (fresh && bool_decide ((D', i) = (D, p / 1024))) eqn:Hb.
    - right. apply andb_prop in Hb as [Hb _]. split; [done|]. rewrite Hb in HT. destruct HT as [(HTf & _) _].
      destruct (pde_value_points (load m (D' + 4 * i)) T (p / 1024)) as (_ & _ & X); [apply Hs|done|congruence].
    - left. right. right. by exists D', i. }
  assert (HTp : paging_frame (mem c') top dirs T).
  { right. right. exists D, (p / 1024). split; [done|]. split; [word|]. unfold table_of.
    rewrite (map_dir_word m (mem c') top dirs Hs D p T fresh F flags HD Hp0 Hp1 HT Heff D (p / 1024) HD ltac:(word)).
    rewrite bool_decide_true, andb_true_r by done. destruct fresh; [|by destruct HT as [-> ?]].
    destruct HT as [(HTf & _) _].
    destruct (pde_value_points (load m (D + 4 * (p / 1024))) T (p / 1024)) as (_ & X1 & X2); [apply Hs|done|done]. }
  split; [|done]. split; cbn [phys cpu with_cpu]; try done.
  - intros G [HG|[Hb ->]]%Hpag; [by apply C4|]. rewrite Hb in HT0. destruct HT0 as ([? ? ? _ _] & ? & _). done.
  - intros D' q G HD' Hq Hw. destruct (decide ((D', q) = (D, p))) as [[= -> ->]|Hne].
    + rewrite Hwalk in Hw. simplify_eq. split; [|done]. intros [HG|[Hb ->]]%Hpag; [done|].
      rewrite Hb in HT0. by destruct HT0 as (_ & _ & _ & ?).
    + rewrite Hother in Hw by done. destruct (C5 D' q G HD' Hq Hw) as [X1 X2]. split; [|done].
      intros [HG|[Hb ->]]%Hpag; [done|]. rewrite Hb in HT0. destruct HT0 as ([_ _ _ _ Hu] & _). by apply (Hu D' q).
  - intros f n Hf. destruct (C6 f n Hf) as (S & HS & ->).
    destruct (count_map m (mem c') dirs D p F f S) as (S' & HS' & Hsz); try done.
    exists S'. split; [done|]. rewrite Hsz. unfold held_count. rewrite (decide_False (P := None = Some f)) by done.
    destruct (decide (f = F / 4096)) as [->|Hne].
    + destruct M5 as [M5|M5]; [congruence|]. rewrite decide_True by done. lia.
    + rewrite decide_False; [lia|]. destruct M4; congruence.
Qed.

(** ** Unmapping and releasing *)

(** The counts after page [p] of [D] stops to map [F]. *)
Lemma count_unmap (m m' : memory) dirs D p F f S :
  is_frame F -> D ∈ dirs -> user_page p -> walk_page m D p = Some F -> walk_page m' D p = None ->
  (forall D' q, D' ∈ dirs -> user_page q -> (D', q) <> (D, p) -> walk_page m' D' q = walk_page m D' q) ->
  mapped_at m dirs (f * 4096) S ->
  exists S', mapped_at m' dirs (f * 4096) S' /\
    Z.of_nat (size S) = Z.of_nat (size S') + (if decide (f = F / 4096) then 1 else 0).
Proof.
  intros HF HD Hp Hsome Hnone Hother HS. destruct (frame_div F HF) as [EF _].
  assert (Hin : (D, p) ∈ S <-> f = F / 4096).
  { rewrite (HS D p), Hsome. split; [intros (_ & _ & [= E]); word|intros ->; rewrite EF; done]. }
  exists (S ∖ {[(D, p)]}). split.
  - intros D' q. rewrite elem_of_difference, elem_of_singleton, (HS D' q). split.
    + intros [(X1 & X2 & X3) X4]. rewrite Hother by done. done.
    + intros (X1 & X2 & X3). destruct (decide ((D', q) = (D, p))) as [[= -> ->]|Hne]; [congruence|].
      by rewrite Hother in X3.
  - case_decide as Ef.
    + apply Hin in Ef. rewrite size_difference by set_solver. rewrite size_singleton.
      assert (size S <> 0%nat) by (apply size_non_empty_iff; set_solver). lia.
    + assert (E : S ∖ {[(D, p)]} = S) by (apply leibniz_equiv; set_solver). rewrite E. lia.
Qed.

Lemma core_unmap v refs top dirs D p c' :
  core v refs top dirs None -> D ∈ dirs -> user_page p ->
  unmap_effect top (mem (cpu v)) (mem c') D p -> machine_ok c' top dirs -> SCRATCH_PAGES c' = 0 ->
  core (with_cpu v c') refs top dirs ((fun F => F / 4096) <$> walk_page (mem (cpu v)) D p) /\
  walk_page (mem c') D p = None /\
  (forall D' q, D' ∈ dirs -> user_page q -> (D', q) <> (D, p) -> walk_page (mem c') D' q = walk_page (mem (cpu v)) D' q) /\
  same_directories dirs (mem (cpu v)) (mem c').
Proof.
  intros [C1 C2 C3 C4 C5 C6] HD Hp Heff Hok' Hscr'. pose proof (ok_separate _ _ _ C2) as Hs.
  set (m := mem (cpu v)) in *.
  assert (Hnone : walk_page (mem c') D p = None) by (by apply (unmap_effect_walk m (mem c') top dirs)).
  assert (Hother : forall D' q, D' ∈ dirs -> user_page q -> (D', q) <> (D, p) -> walk_page (mem c') D' q = walk_page m D' q).
  { intros D' q HD' Hq Hne. apply (unmap_effect_other m (mem c') top dirs Hs D p); try done. unfold user_page in Hq. lia. }
  pose proof (unmap_same_directories m (mem c') top dirs Hs D p HD Hp Heff) as Hsame.
  assert (Hpag : forall G, paging_frame (mem c') top dirs G -> paging_frame m top dirs G).
  { intros G [->|[HG|(D' & i & HD' & Hi & Hpr & E)]]; [by left|right; by left|]. right. right. exists D', i.
    rewrite Hsame in Hpr by (done || lia). rewrite (same_table_of dirs m) in E by (done || lia). done. }
  split; [|done]. split; cbn [phys cpu with_cpu]; try done.
  - intros G HG%Hpag. by apply C4.
  - intros D' q G HD' Hq Hw. destruct (decide ((D', q) = (D, p))) as [[= -> ->]|Hne]; [congruence|].
    rewrite Hother in Hw by done. destruct (C5 D' q G HD' Hq Hw) as [X1 X2]. split; [|done]. intros HG%Hpag. done.
  - intros f n Hf. destruct (C6 f n Hf) as (S & HS & ->). unfold held_count at 1.
    rewrite (decide_False (P := None = Some f)) by done. destruct (walk_page m D p) as [F|] eqn:Hw; cbn [fmap option_fmap option_map].
    + destruct (count_unmap m (mem c') dirs D p F f S) as (S' & HS' & Hsz); try done.
      { eapply walk_page_frame; [|done]. apply Hs. }
      exists S'. split; [done|]. rewrite Hsz. unfold held_count. repeat case_decide; simplify_eq; done || lia.
    + exists S. split; [|unfold held_count; rewrite decide_False; lia || done].
      intros D' q. rewrite (HS D' q). destruct (decide ((D', q) = (D, p))) as [[= -> ->]|Hne]; [by rewrite Hw, Hnone|].
      split; intros (X1 & X2 & X3); (split; [done|split; [done|]]); [by rewrite Hother|by rewrite Hother in X3].
Qed.

Lemma page_facts f : 0 <= f < 2 ^ 20 ->
  is_u32 (f * 4096) /\ Tracking.page (f * 4096) = f /\ Tracking.page_aligned (f * 4096) = true.
Proof.
  intros Hf. change (2 ^ 20) with 1048576 in Hf. unfold Tracking.page, Tracking.page_aligned.
  rewrite land_fff. split; [word|]. split; [word|]. apply Z.eqb_eq. word.
Qed.

(** A frame that is not counted is neither released nor given a reference. *)
Lemma untracked_calls s refs f :
  PhysicalMemory.inv s refs -> 0 <= f < 2 ^ 20 -> refs !! f = None ->
  (exists s', PhysicalMemory.release_tracked_frame s (f * 4096) = Some (Ok false, s') /\
     PhysicalMemory.inv s' refs /\ PhysicalMemory.ALLOCATOR s' = PhysicalMemory.ALLOCATOR s) /\
  (exists s', PhysicalMemory.maybe_add_frame_reference s (f * 4096) = Some s' /\
     PhysicalMemory.inv s' refs /\ PhysicalMemory.ALLOCATOR s' = PhysicalMemory.ALLOCATOR s).
Proof.
  intros Hinv Hf Hnone. destruct (page_facts f Hf) as (Ha & Hpage & Hal).
  assert (Hupd : forall t, Tracking.represents t refs -> PhysicalMemory.inv (PhysicalMemory.with_tracker s t) refs).
  { intros t Ht. apply (PhysicalMemory.inv_tracker_update s refs); [done..|].
    intros q c Hq. split; [by eapply PhysicalMemory.inv_count|congruence]. }
  split.
  - unfold PhysicalMemory.release_tracked_frame, Tracking.remove_reference.
    destruct (Tracking.existing_ok (PhysicalMemory.FRAME_REF_TRACKER s) refs (f * 4096) (PhysicalMemory.inv_tracker _ _ Hinv) Ha
      (PhysicalMemory.inv_bound s refs _ Hinv) _ _ _ (Tracking.remove_leaf_op _ (Tracking.leaf_index_range (f * 4096))))
      as (t & Hop & Hrep).
    rewrite Hop. cbn [mbind option_bind]. rewrite Hpage, Hnone in *. eexists. split; [done|]. split; [|done].
    by apply Hupd.
  - unfold PhysicalMemory.maybe_add_frame_reference, Tracking.add_reference_if_exists. rewrite Hal. cbn [negb].
    destruct (Tracking.existing_ok (PhysicalMemory.FRAME_REF_TRACKER s) refs (f * 4096) (PhysicalMemory.inv_tracker _ _ Hinv) Ha
      (PhysicalMemory.inv_bound s refs _ Hinv) _ _ _ (Tracking.if_exists_leaf_op _ (Tracking.leaf_index_range (f * 4096))))
      as (t & Hop & Hrep).
    rewrite Hop. cbn [mbind option_bind]. rewrite Hpage, Hnone in *. eexists. split; [done|]. split; [|done].
    by apply Hupd.
Qed.

(** The counts after a reference of [f] is dropped, and after one is added. *)
Definition refs_release (refs : gmap Z Z) (f : Z) : gmap Z Z :=
  match refs !! f with
  | Some n => if n =? 1 then delete f refs else <[f := n - 1]> refs
  | None => refs
  end.
Definition refs_add (refs : gmap Z Z) (f : Z) : gmap Z Z :=
  match refs !! f with Some n => <[f := n + 1]> refs | None => refs end.
Definition last_ref (refs : gmap Z Z) (f : Z) : bool := bool_decide (refs !! f = Some 1).

Lemma release_len s refs f n r s' :
  PhysicalMemory.inv s refs -> refs !! f = Some n ->
  PhysicalMemory.release_tracked_frame s (f * 4096) = Some (r, s') ->
  FrameBitmap.len (PhysicalMemory.ALLOCATOR s') = FrameBitmap.len (PhysicalMemory.ALLOCATOR s).
Proof.
  intros Hinv Hn H. unfold PhysicalMemory.release_tracked_frame in H. apply bind_Some in H as ([o t] & _ & H).
  destruct (PhysicalMemory.inv_tracked _ _ Hinv f n Hn) as (_ & Hr & Hu).
  destruct (PhysicalMemory.frame_address_facts s refs f Hinv Hr) as (Ha & _). unfold PhysicalMemory.frame_address in Ha.
  destruct o as [k|]; [|by simplify_eq]. case_match; [|by simplify_eq].
  apply bind_Some in H as ([r' b] & H & E). simplify_eq. cbn [PhysicalMemory.ALLOCATOR PhysicalMemory.with_bitmap] in *.
  destruct (FrameBitmap.free_frame_cases (PhysicalMemory.ALLOCATOR s) (f * 4096) (PhysicalMemory.inv_bitmap _ _ Hinv) Ha)
    as [(_ & X)|[(_ & _ & X)|(_ & _ & b' & X & _ & Hl & _)]]; cbn in H; rewrite X in H; by simplify_eq.
Qed.

Lemma core_release v refs top dirs f :
  core v refs top dirs (Some f) -> 0 <= f < 2 ^ 20 ->
  exists s', PhysicalMemory.release_tracked_frame (phys v) (f * 4096) = Some (Ok (last_ref refs f), s') /\
    core (with_phys v s') (refs_release refs f) top dirs None /\ frames (with_phys v s') = frames v /\
    (forall g, 0 <= g -> in_use (with_phys v s') g = in_use v g && negb (last_ref refs f && (g =? f))).
Proof.
  intros [C1 C2 C3 C4 C5 C6] Hf. unfold refs_release, last_ref.
  destruct (refs !! f) as [n|] eqn:Hn.
  2:{ destruct (untracked_calls (phys v) refs f C1 Hf Hn) as [(s' & H & Hinv & Hal) _]. exists s'.
      rewrite bool_decide_false by done.
      assert (Huse : forall g, PhysicalMemory.frame_in_use s' g = in_use v g)
        by (intros g; unfold PhysicalMemory.frame_in_use; by rewrite Hal).
      split; [done|]. split_and!.
      - split; cbn [phys cpu with_phys]; rewrite ?Hal; try done.
        + intros F HF. rewrite Huse. by apply C4.
        + intros D p F HD Hp Hw. rewrite Huse. by apply (C5 D p).
        + intros g k Hg. destruct (C6 g k Hg) as (S & HS & ->). exists S. split; [done|].
          unfold held_count. rewrite !decide_False; congruence.
      - cbn [phys with_phys]. by rewrite Hal.
      - intros g Hg. cbn [phys with_phys]. by rewrite Huse, andb_true_r. }
  pose proof (PhysicalMemory.inv_tracked _ _ C1 f n Hn) as (Hpos & Hrange & Hu).
  pose proof (PhysicalMemory.release_cases (phys v) refs f C1 Hrange) as Hr. rewrite Hn in Hr.
  destruct Hr as (s' & H & Hinv & Huse). unfold PhysicalMemory.frame_address in *.
  assert (Hlen : FrameBitmap.len (PhysicalMemory.ALLOCATOR s') = FrameBitmap.len (PhysicalMemory.ALLOCATOR (phys v))).
  { by apply (release_len (phys v) refs f n (Ok (n =? 1)) s'). }
  assert (Hb : bool_decide (Some n = Some 1) = (n =? 1)).
  { destruct (Z.eqb_spec n 1) as [->|Hne]; [by rewrite bool_decide_true|]. apply bool_decide_false. congruence. }
  exists s'. rewrite Hb. split; [done|]. split_and!; [|cbn [phys with_phys]; by rewrite Hlen|done].
  destruct (C6 f n Hn) as (S & HS & HnS). unfold held_count in HnS. rewrite decide_True in HnS by done.
  split; cbn [phys cpu with_phys]; try done.
  - intros F HF. destruct (C4 F HF) as (X1 & X2 & X3). assert (F / 4096 <> f) by congruence.
    rewrite Hlen, Huse, X2, (proj2 (Z.eqb_neq (F / 4096) f)), andb_false_r by (done || lia). split; [done|]. split; [done|].
    case_match; [by rewrite lookup_delete_ne|by rewrite lookup_insert_ne].
  - intros D p F HD Hp Hw. destruct (C5 D p F HD Hp Hw) as [X1 X2]. split; [done|]. rewrite Hlen. intros Hlt.
    destruct (frame_div F) as [EF HFr]; [eapply walk_page_frame; [|done]; apply C2|].
    rewrite Huse, X2 by (done || lia). cbn [andb]. apply negb_true_iff, andb_false_iff.
    destruct (Z.eqb_spec n 1) as [->|]; [right|by left]. apply Z.eqb_neq. intros <-.
    assert (HS0 : size S = 0%nat) by lia. apply size_empty_iff in HS0. rewrite EF in HS.
    assert (Hin : (D, p) ∈ S) by (by apply HS). set_solver.
  - intros g k Hg. assert (Hg' : g <> f /\ refs !! g = Some k \/ g = f /\ k = n - 1 /\ n <> 1).
    { destruct (Z.eqb_spec n 1); [apply lookup_delete_Some in Hg|apply lookup_insert_Some in Hg]; intuition. }
    destruct Hg' as [[Hne Hg']|(-> & -> & Hne)].
    + destruct (C6 g k Hg') as (S' & HS' & ->). exists S'. split; [done|].
      unfold held_count. rewrite !decide_False; congruence.
    + exists S. split; [done|]. unfold held_count. rewrite decide_False by done. lia.
Qed.

Lemma core_add_reference v refs top dirs f :
  core v refs top dirs None -> 0 <= f < 2 ^ 20 ->
  exists s', PhysicalMemory.maybe_add_frame_reference (phys v) (f * 4096) = Some s' /\
    core (with_phys v s') (refs_add refs f) top dirs (Some f) /\
    PhysicalMemory.ALLOCATOR s' = PhysicalMemory.ALLOCATOR (phys v).
Proof.
  intros [C1 C2 C3 C4 C5 C6] Hf. unfold refs_add.
  assert (Hs' : exists s', PhysicalMemory.maybe_add_frame_reference (phys v) (f * 4096) = Some s' /\
    PhysicalMemory.inv s' (match refs !! f with Some n => <[f := n + 1]> refs | None => refs end) /\
    PhysicalMemory.ALLOCATOR s' = PhysicalMemory.ALLOCATOR (phys v)).
  { destruct (refs !! f) as [n|] eqn:Hn.
    - pose proof (PhysicalMemory.inv_tracked _ _ C1 f n Hn) as (Hpos & Hrange & Hu).
      destruct (PhysicalMemory.add_reference_step (phys v) refs f C1 Hrange) as (s' & H1 & H2 & H3).
      { intros c Hc. destruct (C6 f c Hc) as (S & HS & ->).
        pose proof (mapped_bound _ _ _ _ _ (ok_separate _ _ _ C2) HS). unfold held_count. rewrite decide_False by done.
        lia. }
      rewrite Hn in H3. by exists s'.
    - destruct (untracked_calls (phys v) refs f C1 Hf Hn) as [_ (s' & H & Hinv & Hal)]. by exists s'. }
  destruct Hs' as (s' & H & Hinv & Hal). exists s'. split; [done|]. split; [|done].
  assert (Huse : forall g, PhysicalMemory.frame_in_use s' g = in_use v g)
    by (intros g; unfold PhysicalMemory.frame_in_use; by rewrite Hal).
  split; cbn [phys cpu with_phys]; rewrite ?Hal; try done.
  - intros F HF. rewrite Huse. destruct (C4 F HF) as (X1 & X2 & X3). split; [done|]. split; [done|].
    destruct (refs !! f) eqn:Hn; [|done]. rewrite lookup_insert_ne; [done|congruence].
  - intros D p F HD Hp Hw. rewrite Huse. by apply (C5 D p).
  - intros g k Hg. assert (Hg' : g <> f /\ refs !! g = Some k \/ g = f /\ refs !! f = Some (k - 1)).
    { destruct (refs !! f) as [n|] eqn:Hn; [|left; split; [congruence|done]].
      apply lookup_insert_Some in Hg as [[<- <-]|[Hne Hg]]; [right; split; [done|f_equal; lia]|by left]. }
    destruct Hg' as [[Hne Hg']|[-> Hg']]; destruct (C6 g _ Hg') as (S & HS & E) || destruct (C6 f _ Hg') as (S & HS & E);
      exists S; (split; [done|]); unfold held_count in *; rewrite (decide_False (P := None = _)) in E by done.
    + rewrite decide_False by congruence. done.
    + rewrite decide_True by done. lia.
Qed.

(** ** Other changes *)

(** Memory changes that touch neither directories nor user translations. *)
Lemma core_same v refs top dirs held c' :
  core v refs top dirs held -> machine_ok c' top dirs -> SCRATCH_PAGES c' = 0 ->
  same_directories dirs (mem (cpu v)) (mem c') ->
  (forall D p, D ∈ dirs -> user_page p -> walk_page (mem c') D p = walk_page (mem (cpu v)) D p) ->
  core (with_cpu v c') refs top dirs held.
Proof.
  intros [C1 C2 C3 C4 C5 C6] Hok' Hscr' Hsame Hw.
  assert (Hpag : forall G, paging_frame (mem c') top dirs G -> paging_frame (mem (cpu v)) top dirs G).
  { intros G [->|[HG|(D' & i & HD' & Hi & Hpr & E)]]; [by left|right; by left|]. right. right. exists D', i.
    rewrite Hsame in Hpr by (done || lia). rewrite (same_table_of dirs (mem (cpu v))) in E by (done || lia). done. }
  split; cbn [phys cpu with_cpu]; try done.
  - intros G HG%Hpag. by apply C4.
  - intros D p F HD Hp Hwp. rewrite Hw in Hwp by done. destruct (C5 D p F HD Hp Hwp) as [X1 X2]. split; [|done].
    intros HG%Hpag. done.
  - intros f n Hf. destruct (C6 f n Hf) as (S & HS & ->). exists S. split; [|done]. intros D p. rewrite (HS D p).
    split; intros (X1 & X2 & X3); (split; [done|split; [done|]]); [by rewrite Hw|by rewrite Hw in X3].
Qed.

(** ** Directories *)

Lemma core_new_directory v refs top dirs F v' :
  core v refs top dirs None -> create_page_directory v = Some (F, v') ->
  F ∉ dirs /\ core v' refs top ({[F]} ∪ dirs) None /\ cr3 (cpu v') = cr3 (cpu v) /\
  (forall p, user_page p -> walk_page (mem (cpu v')) F p = None) /\
  (forall D p, D ∈ dirs -> user_page p -> walk_page (mem (cpu v')) D p = walk_page (mem (cpu v)) D p).
Proof.
  intros Hco Hcr. assert (Hn : exists v1, new_frame v = Some (F, v1)).
  { unfold create_page_directory in Hcr. apply bind_Some in Hcr as ([F1 v1] & Hn & Hcr). exists v1.
    apply bind_Some in Hcr as ([u c1] & _ & Hcr). apply bind_Some in Hcr as (c2 & _ & Hcr).
    apply bind_Some in Hcr as (c3 & _ & Hcr). apply bind_Some in Hcr as (c4 & _ & Hcr). by simplify_eq. }
  destruct Hn as (v1 & Hn).
  destruct (core_new_frame v refs top dirs None F v1 Hco Hn) as (Ecpu & Hco1 & Hsp & Href & _).
  pose proof (spare_fresh _ _ _ _ _ Hsp) as Hfr. rewrite Ecpu in Hfr. pose proof Hfr as (HFf & HFt & HFd & HFn).
  pose proof (co_ok _ _ _ _ _ Hco) as Hok. pose proof (ok_separate _ _ _ Hok) as Hs. pose proof (ok_cr3 _ _ _ Hok) as Hcr3.
  destruct (create_directory_spec v top dirs F v1 Hok (co_scratch _ _ _ _ _ Hco) Hn Hfr) as (c' & Hc & [S1 S2 S3 S4] & L).
  rewrite Hc in Hcr. simplify_eq. set (m := mem (cpu v)) in *. set (D0 := cr3 (cpu v)) in *.
  assert (Hold : forall D p, D ∈ dirs -> user_page p -> walk_page (mem c') D p = walk_page m D p).
  { intros D p HD Hp. apply (frame_walk_same m (mem c') top dirs F D p Hs Hfr HD); [unfold user_page in Hp; lia|].
    intros a Ha Hin. by rewrite L, Hin. }
  assert (Hnew : forall p, user_page p -> walk_page (mem c') F p = None).
  { intros p Hp. unfold walk_page, pde_addr, user_page in *.
    rewrite (new_dir_load m (mem c') top dirs D0 F Hs Hcr3 Hfr L) by word.
    unfold new_dir_word. rewrite (proj2 (Z.ltb_lt _ _)) by word. done. }
  split; [done|]. split; [|done].
  destruct Hco1 as [C1 C2 C3 C4 C5 C6]. rewrite Ecpu in *. fold m in C4, C5, C6.
  assert (Hpag : forall G, paging_frame (mem c') top ({[F]} ∪ dirs) G -> paging_frame m top dirs G \/ G = F).
  { intros G [->|[HG|(D' & i & HD' & Hi & Hpr & E)]]; [left; by left| |].
    - apply elem_of_union in HG as [->%elem_of_singleton|HG]; [by right|left; right; by left].
    - left. right. right. destruct (new_dir_entries m (mem c') top dirs D0 F Hs Hcr3 Hfr L D' i HD' Hi Hpr)
        as (D1 & X1 & X2 & X3 & _). exists D1, i. split_and!; done || lia || congruence. }
  destruct Hsp as [P1 P2 P3 P4 P5]. rewrite Ecpu in *. fold m in P4, P5.
  split; cbn [phys cpu with_cpu]; try done; [by rewrite S3, (co_scratch _ _ _ _ _ Hco)|..].
  - intros G [HG| ->]%Hpag; [by apply C4|done].
  - intros D p G [->%elem_of_singleton|HD]%elem_of_union Hp Hw; [by rewrite Hnew in Hw|].
    rewrite Hold in Hw by done. destruct (C5 D p G HD Hp Hw) as [X1 X2]. split; [|done].
    intros [HG| ->]%Hpag; [done|]. by apply (P5 D p).
  - intros f n Hf. destruct (C6 f n Hf) as (S & HS & ->). exists S. split; [|done]. intros D p. rewrite (HS D p).
    split.
    + intros (X1 & X2 & X3). split; [set_solver|]. split; [done|]. by rewrite Hold.
    + intros ([->%elem_of_singleton|X1]%elem_of_union & X2 & X3); [by rewrite Hnew in X3|].
      split; [done|]. split; [done|]. by rewrite Hold in X3.
Qed.

(** Freeing a frame of the tables. *)
Lemma release_frame_spec s refs f :
  PhysicalMemory.inv s refs -> 0 <= f < FrameBitmap.len (PhysicalMemory.ALLOCATOR s) * 8 -> refs !! f = None ->
  exists s', PhysicalMemory.release_frame s (f * 4096) = Some (Ok tt, s') /\ PhysicalMemory.inv s' refs /\
    FrameBitmap.len (PhysicalMemory.ALLOCATOR s') = FrameBitmap.len (PhysicalMemory.ALLOCATOR s) /\
    forall g, 0 <= g -> PhysicalMemory.frame_in_use s' g = PhysicalMemory.frame_in_use s g && negb (g =? f).
Proof.
  intros Hinv Hf Hnone. pose proof (PhysicalMemory.inv_bitmap _ _ Hinv) as Hwf.
  destruct Hwf as [Hby Hlen]. change (2 ^ 17) with 131072 in Hlen.
  set (r := FrameRange.new (f * 4096) PhysicalMemory.FRAME_SIZE).
  assert (Hr : FrameBitmap.range_wf r) by (unfold FrameBitmap.range_wf, r, PhysicalMemory.FRAME_SIZE; simpl; lia).
  assert (Hc : FrameBitmap.contains_range (PhysicalMemory.ALLOCATOR s) r = true).
  { rewrite FrameBitmap.contains_range_spec by done. unfold r, PhysicalMemory.FRAME_SIZE. simpl. apply Z.ltb_lt. word. }
  destruct (FrameBitmap.free_range_ok _ r (PhysicalMemory.inv_bitmap _ _ Hinv) Hr Hc) as (b & Hb & Hwfb & Hl & Huse).
  unfold PhysicalMemory.release_frame. fold r. rewrite Hb. cbn [mbind option_bind]. eexists. split; [done|].
  assert (Hcov : forall g, FrameBitmap.range_covers r g = (g =? f)).
  { intros g. unfold FrameBitmap.range_covers, r, PhysicalMemory.FRAME_SIZE. simpl.
    replace (f * 4096 / 4096) with f by word. replace ((f * 4096 + 4096 - 1) / 4096) with f by word. lia. }
  assert (Huse' : forall g, 0 <= g -> FrameBitmap.in_use b g = PhysicalMemory.frame_in_use s g && negb (g =? f))
    by (intros g Hg; rewrite Huse, Hcov by done; done).
  split; [|done]. split; [done|apply Hinv|]. intros q n Hq.
  destruct (PhysicalMemory.inv_tracked _ _ Hinv q n Hq) as (X1 & X2 & X3). split; [done|].
  cbn [PhysicalMemory.ALLOCATOR PhysicalMemory.with_bitmap]. rewrite Hl. split; [done|].
  unfold PhysicalMemory.frame_in_use. cbn [PhysicalMemory.ALLOCATOR PhysicalMemory.with_bitmap].
  rewrite Huse', X3 by lia. cbn [andb]. apply negb_true_iff, Z.eqb_neq. congruence.
Qed.

Lemma separate_subset m top dirs dirs' : separate m top dirs -> dirs' ⊆ dirs -> separate m top dirs'.
Proof. intros [? ? ? ? ? ?] Hsub. split; [done|eauto..]. Qed.

Lemma table_div m top dirs G : separate m top dirs -> (exists D, D ∈ dirs) -> paging_frame m top dirs G -> is_frame G.
Proof.
  intros Hs [D0 HD0] [->|[HG|(D & i & HD & _ & _ & <-)]].
  - by destruct (top_facts _ _ _ Hs D0 HD0).
  - by apply (sep_dir _ _ _ Hs).
  - by apply (table_of_frame _ _ _ Hs).
Qed.

(** A frame of a user table of [D] with an index in [l]. *)
Definition table_frame (m : memory) (D : Z) (l : list Z) (g : Z) : bool :=
  existsb (fun i => is_present (load m (D + 4 * i)) && (g =? table_of m D i / 4096)) l.

Lemma free_tables_loop v refs top dirs D (l : list Z) :
  separate (mem (cpu v)) top dirs -> sees (cpu v) 0xffbff D -> PhysicalMemory.inv (phys v) refs ->
  Forall (fun i => 0 <= i < 1024) l ->
  (forall i, i ∈ l -> is_present (load (mem (cpu v)) (D + 4 * i)) = true ->
     0 <= table_of (mem (cpu v)) D i / 4096 < frames v /\ refs !! (table_of (mem (cpu v)) D i / 4096) = None) ->
  exists s', foldl (free_tables_step (0xffbff * 4096)) (Some v) l = Some (with_phys v s') /\
    PhysicalMemory.inv s' refs /\
    FrameBitmap.len (PhysicalMemory.ALLOCATOR s') = FrameBitmap.len (PhysicalMemory.ALLOCATOR (phys v)) /\
    forall g, 0 <= g -> PhysicalMemory.frame_in_use s' g = in_use v g && negb (table_frame (mem (cpu v)) D l g).
Proof.
  intros Hs Hsee Hinv Hl Htab. induction l as [|i l IH] using rev_ind.
  - exists (phys v). split; [by destruct v|]. split; [done|]. split; [done|]. intros g Hg. by rewrite andb_true_r.
  - apply Forall_app in Hl as [Hl Hi]. rewrite Forall_singleton in Hi.
    destruct IH as (s1 & H1 & Hinv1 & Hlen1 & Huse1); [done|intros j Hj; apply Htab; set_solver|].
    rewrite foldl_snoc, H1. unfold free_tables_step at 1. cbn [mbind option_bind cpu with_phys].
    rewrite (get_sees (cpu v) 0xffbff D) by (done || lia). cbn [mbind option_bind].
    unfold table_frame. rewrite <- (app_nil_r [i]).
    assert (Hex : forall g, existsb (fun i => is_present (load (mem (cpu v)) (D + 4 * i)) && (g =? table_of (mem (cpu v)) D i / 4096)) (l ++ [i] ++ []) =
      table_frame (mem (cpu v)) D l g || (is_present (load (mem (cpu v)) (D + 4 * i)) && (g =? table_of (mem (cpu v)) D i / 4096))).
    { intros g. rewrite app_nil_r, existsb_app. cbn [existsb]. by rewrite orb_false_r. }
    destruct (is_present (load (mem (cpu v)) (D + 4 * i))) eqn:Hpr.
    2:{ exists s1. split; [done|]. split; [done|]. split; [done|]. intros g Hg. by rewrite Hex, orb_false_r, Huse1. }
    destruct (Htab i) as [Hr Hnone]; [set_solver|done|]. cbn [phys with_phys].
    destruct (frame_div (table_of (mem (cpu v)) D i)) as [ET _]; [by eapply table_of_frame|].
    destruct (release_frame_spec s1 refs (table_of (mem (cpu v)) D i / 4096) Hinv1) as (s2 & H2 & Hinv2 & Hlen2 & Huse2);
      [by rewrite Hlen1|done|].
    rewrite ET in H2. fold (table_of (mem (cpu v)) D i). rewrite H2. cbn [mbind option_bind]. exists s2.
    split; [done|]. split; [done|]. split; [congruence|]. intros g Hg. rewrite Hex, Huse2, Huse1 by done.
    by destruct (in_use v g), (table_frame (mem (cpu v)) D l g), (g =? _).
Qed.

Lemma table_frame_ext m m' D l g :
  (forall i, i ∈ l -> is_present (load m' (D + 4 * i)) = is_present (load m (D + 4 * i)) /\
     table_of m' D i = table_of m D i) -> table_frame m' D l g = table_frame m D l g.
Proof.
  intros H. unfold table_frame. induction l as [|i l IH]; [done|]. cbn [existsb].
  destruct (H i) as [-> ->]; [set_solver|]. f_equal. apply IH. intros j Hj. apply H. set_solver.
Qed.

(** The frames of a directory: itself and its user tables. *)
Definition dir_frame (m : memory) (D g : Z) : bool := table_frame m D (seqZ 0 768) g || (g =? D / 4096).

Lemma dir_frame_other m top dirs D G :
  separate m top dirs -> D ∈ dirs -> is_frame G ->
  paging_frame m top (dirs ∖ {[D]}) G \/ ~ paging_frame m top dirs G -> dir_frame m D (G / 4096) = false.
Proof.
  intros Hs HD HG Hor. apply not_true_iff_false. intros Hdf. apply orb_true_iff in Hdf.
  pose proof (sep_dir _ _ _ Hs D HD) as HDf. destruct (top_facts _ _ _ Hs D HD) as [Htf Hnt].
  assert (Hdiv : forall X, is_frame X -> G / 4096 = X / 4096 -> G = X).
  { intros X HX E. destruct (frame_div G HG) as [E1 _], (frame_div X HX) as [E2 _]. congruence. }
  destruct Hdf as [(i & Hi & Hdf)%existsb_exists|E%Z.eqb_eq].
  - apply andb_prop in Hdf as [Hpr E%Z.eqb_eq]. apply list_elem_of_In, elem_of_seqZ in Hi.
    destruct (table_facts _ _ _ Hs D HD i) as (HTf & HTd & HTt); [lia|done|].
    apply Hdiv in E; [|done]. subst G. destruct Hor as [[E|[HG'|(D' & i' & HD' & Hi' & Hpr' & E)]]|Hn].
    + done.
    + set_solver.
    + apply elem_of_difference in HD' as [HD' Hne]. rewrite elem_of_singleton in Hne.
      destruct (sep_tables _ _ _ Hs D' D i' i) as [-> [?|?]]; try done; lia.
    + apply Hn. right. right. exists D, i. split_and!; done || lia.
  - apply Hdiv in E; [|done]. subst G. destruct Hor as [[E|[HG'|(D' & i' & HD' & Hi' & Hpr' & E)]]|Hn].
    + congruence.
    + set_solver.
    + apply elem_of_difference in HD' as [HD' _]. by apply (sep_not_dir _ _ _ Hs D' D i').
    + apply Hn. right. by left.
Qed.

(** The directory of another task is freed with its tables. *)
Lemma core_free_directory k refs top dirs id task :
  core (vm k) refs top dirs None -> tasks k !! id = Some task ->
  page_directory task ∈ dirs -> page_directory task <> cr3 (cpu (vm k)) ->
  (forall p, user_page p -> walk_page (mem (cpu (vm k))) (page_directory task) p = None) ->
  exists v', free_task_page_tables k id = Some (with_vm k v') /\
    core v' refs top (dirs ∖ {[page_directory task]}) None /\ cr3 (cpu v') = cr3 (cpu (vm k)) /\
    (forall D p, D ∈ dirs -> user_page p -> walk_page (mem (cpu v')) D p = walk_page (mem (cpu (vm k))) D p) /\
    frames v' = frames (vm k) /\
    (forall g, 0 <= g -> in_use v' g = in_use (vm k) g && negb (dir_frame (mem (cpu (vm k))) (page_directory task) g)).
Proof.
  intros Hco Hk HD Hcur Hempty. set (D := page_directory task) in *. set (c := cpu (vm k)) in *.
  pose proof Hco as [C1 C2 C3 C4 C5 C6]. pose proof (ok_separate _ _ _ C2) as Hs. fold c in C2, C3, C4, C5, C6, Hs.
  unfold free_task_page_tables. rewrite Hk. fold D.
  destruct (external_directory top dirs D HD 0 0 ltac:(lia) ltac:(lia) c C2 C3)
    as (page & c1 & H1 & Hva & Hidx & Hok1 & Hsee & _ & Hsame & _ & Hcr & Hs1 & _). fold c. rewrite H1.
  cbn [mbind option_bind]. rewrite Hva.
  pose proof (scratch_same_directories _ _ _ _ Hs Hsame) as Hdirs.
  assert (Hpres : forall i, 0 <= i < 1024 -> is_present (load (mem c1) (D + 4 * i)) = is_present (load (mem c) (D + 4 * i)) /\
    table_of (mem c1) D i = table_of (mem c) D i).
  { intros i Hi. split; [by rewrite Hdirs|by apply (same_table_of dirs)]. }
  destruct (free_tables_loop (with_cpu (vm k) c1) refs top dirs D (seqZ 0 768)) as (s1 & Hl & Hinv1 & Hlen1 & Huse1);
    [apply Hok1|done|done|apply Forall_seqZ; lia| |].
  { intros i Hi. apply elem_of_seqZ in Hi. cbn [cpu with_cpu phys]. destruct (Hpres i ltac:(lia)) as [-> ->]. intros Hpr.
    destruct (C4 (table_of (mem c) D i)) as (X1 & _ & X3); [|done]. right. right. exists D, i. split_and!; done || lia. }
  rewrite Hl. cbn [mbind option_bind cpu with_cpu with_phys phys].
  destruct (frame_div D) as [ED _]; [by apply (sep_dir _ _ _ Hs)|].
  destruct (C4 D ltac:(right; by left)) as (HDr & _ & HDn). cbn [phys with_cpu] in Hlen1, Huse1.
  destruct (release_frame_spec s1 refs (D / 4096) Hinv1) as (s2 & H2 & Hinv2 & Hlen2 & Huse2); [by rewrite Hlen1|done|].
  rewrite ED in H2. rewrite H2. cbn [mbind option_bind]. eexists. split; [done|].
  rewrite (scratch_drop c1 page 0 Hidx) by (by left || done).
  assert (Huse : forall g, 0 <= g -> PhysicalMemory.frame_in_use s2 g = in_use (vm k) g && negb (dir_frame (mem c) D g)).
  { intros g Hg. rewrite Huse2, Huse1 by done. unfold dir_frame. cbn [cpu with_cpu].
    rewrite (table_frame_ext (mem c) (mem c1) D (seqZ 0 768)).
    - by destruct (in_use (vm k) g), (table_frame (mem c) D (seqZ 0 768) g), (g =? D / 4096).
    - intros i Hi. apply elem_of_seqZ in Hi. apply Hpres. lia. }
  assert (Hwalk : forall D' p, D' ∈ dirs -> user_page p -> walk_page (mem c1) D' p = walk_page (mem c) D' p).
  { intros D' p HD' Hp. unfold user_page in Hp. apply (walk_page_scratch (mem c) (mem c1) top dirs); try done; lia. }
  cbn [cpu phys with_cpu with_phys mem with_scratch].
  split; [|split_and!; [done..|cbn [phys with_phys]; congruence|done]].
  assert (Hpag : forall G, paging_frame (mem c1) top (dirs ∖ {[D]}) G -> paging_frame (mem c) top (dirs ∖ {[D]}) G).
  { intros G [->|[HG|(D' & i & HD' & Hi & Hpr & E)]]; [by left|right; by left|]. right. right. exists D', i.
    assert (D' ∈ dirs) by (by apply elem_of_difference in HD' as [? _]).
    rewrite Hdirs in Hpr by (done || lia). rewrite (same_table_of dirs (mem c)) in E by (done || lia). done. }
  assert (Hsub : forall G, paging_frame (mem c) top (dirs ∖ {[D]}) G -> paging_frame (mem c) top dirs G).
  { intros G [->|[HG|(D' & i & [HD' _]%elem_of_difference & Hrest)]]; [by left| |right; right; by exists D', i].
    apply elem_of_difference in HG as [HG _]. right. by left. }
  clear Hl H1 H2 Huse1 Huse2.
  split; cbn [cpu phys with_cpu with_phys mem with_scratch SCRATCH_PAGES].
  - exact Hinv2.
  - apply (proj1 (machine_ok_scratch _ _ _ 0)). destruct Hok1 as [X1 X2 X3]. split; [|done|].
    + eapply separate_subset; [done|]. intros x Hx. by apply elem_of_difference in Hx as [? _].
    + apply elem_of_difference. split; [done|]. rewrite elem_of_singleton. congruence.
  - reflexivity.
  - intros G HG%Hpag. pose proof (Hsub G HG) as HG'. destruct (C4 G HG') as (X1 & X2 & X3).
    split; [rewrite Hlen2, Hlen1; done|]. split; [|done]. rewrite Huse, X2 by lia. cbn [andb]. apply negb_true_iff.
    apply (dir_frame_other (mem c) top dirs); [done|done| |by left]. by apply (table_div (mem c) top dirs); [|exists D|].
  - intros D' p F [HD' Hne]%elem_of_difference Hp Hw. rewrite Hwalk in Hw by done.
    destruct (C5 D' p F HD' Hp Hw) as [X1 X2]. split; [intros HG%Hpag; by apply X1, Hsub|].
    rewrite Hlen2, Hlen1. intros Hlt. pose proof (walk_page_frame _ _ _ _ (sep_words _ _ _ Hs) Hw) as HFf.
    destruct (frame_div F HFf) as [_ HFr]. rewrite Huse, X2 by (done || lia). cbn [andb]. apply negb_true_iff.
    apply (dir_frame_other (mem c) top dirs); [done|done|done|by right].
  - intros f n Hf. destruct (C6 f n Hf) as (S & HS & ->). exists S. split; [|done]. intros D' p. rewrite (HS D' p).
    split.
    + intros (X1 & X2 & X3). split; [|by rewrite Hwalk]. apply elem_of_difference. split; [done|].
      rewrite elem_of_singleton. intros ->. by rewrite Hempty in X3.
    + intros ([X1 _]%elem_of_difference & X2 & X3). rewrite Hwalk in X3 by done. done.
Qed.

(** ** The two map calls *)

(** What a call leaves: frames are only added, and one page translates. *)
Record mapped (v v' : Vm) (refs : gmap Z Z) (top : Z) (dirs : gset Z) (D p F : Z) : Prop := {
  ma_core : core v' refs top dirs None;
  ma_cr3 : cr3 (cpu v') = cr3 (cpu v);
  ma_walk : walk_page (mem (cpu v')) D p = Some F;
  ma_other : forall D' q, D' ∈ dirs -> user_page q -> (D', q) <> (D, p) ->
    walk_page (mem (cpu v')) D' q = walk_page (mem (cpu v)) D' q;
  ma_words : forall G i, is_frame G -> 0 <= i < 1024 -> ~ paging_frame (mem (cpu v')) top dirs G ->
    load (mem (cpu v')) (G + 4 * i) = load (mem (cpu v)) (G + 4 * i);
  ma_paging : forall G, paging_frame (mem (cpu v')) top dirs G -> paging_frame (mem (cpu v)) top dirs G \/
    0 <= G / 4096 < frames v /\ in_use v (G / 4096) = false;
  ma_frames : frames v' = frames v;
  ma_use : forall g, 0 <= g -> in_use v g = true -> in_use v' g = true
}.

Lemma fresh_new_frame v refs top dirs held F v1 :
  core v refs top dirs held -> new_frame v = Some (F, v1) -> fresh_frame (mem (cpu v)) top dirs F.
Proof.
  intros Hco Hn. destruct (core_new_frame v refs top dirs held F v1 Hco Hn) as (E & _ & Hsp & _).
  rewrite <- E. by eapply spare_fresh.
Qed.

Lemma core_table_for v refs top dirs held D p T fresh v1 F flags c' :
  core v refs top dirs held -> D ∈ dirs -> user_page p -> walk_page (mem (cpu v)) D p = None ->
  mappable v refs top dirs held F -> table_for v D (p / 1024) = Some (T, fresh, v1) ->
  map_effect top (mem (cpu v)) (mem c') D p T fresh F flags -> machine_ok c' top dirs ->
  SCRATCH_PAGES c' = 0 -> cr3 c' = cr3 (cpu v) ->
  mapped v (with_cpu v1 c') refs top dirs D p F.
Proof.
  intros Hco HD Hp Hnone [M1 M2 M3 M4 M5] Htf Heff Hok' Hscr' Hcr'.
  assert (H1 : core v1 refs top dirs held /\ cpu v1 = cpu v /\ frames v1 = frames v /\
    (forall g, 0 <= g -> in_use v g = true -> in_use v1 g = true) /\
    (fresh = true -> 0 <= T / 4096 < frames v /\ in_use v (T / 4096) = false) /\
    if fresh then spare v1 refs top dirs T /\ refs !! (T / 4096) = None /\
      is_present (load (mem (cpu v1)) (pde_addr D p)) = false /\ F <> T
    else T = table_of (mem (cpu v1)) D (p / 1024) /\ is_present (load (mem (cpu v1)) (pde_addr D p)) = true).
  { unfold table_for in Htf. fold (pde_addr D p) in Htf.
    destruct (is_present (load (mem (cpu v)) (pde_addr D p))) eqn:Hpr; [by simplify_eq|].
    apply bind_Some in Htf as ([G v2] & Hn & Htf). simplify_eq.
    destruct (core_new_frame v refs top dirs held T v1 Hco Hn) as (E & X1 & X2 & X3 & X4 & X5 & X6).
    split; [done|]. split; [done|]. split; [done|].
    split; [intros g Hg Hu; by rewrite X6, Hu|]. rewrite E.
    split; [intros _; split; [rewrite <- X5; apply X2|done]|]. split; [done|]. split; [done|]. split; [done|].
    intros ->. rewrite M3 in X4; [done|]. rewrite <- X5. by apply X2. }
  destruct H1 as (Hco1 & E & Hfr & Hmono & Hfree & HT).
  destruct (core_map v1 refs top dirs held D p T fresh F flags c') as (X1 & X2 & X3 & X4 & X5); try done; rewrite ?E; try done.
  { split; rewrite ?E, ?Hfr; try done. intros Hlt. apply Hmono; [|by apply M3]. destruct M1. word. }
  split; cbn [phys cpu with_cpu]; try done;
    [intros D' q HD' Hq Hne; rewrite X3 by done; by rewrite E| |].
  2:{ intros G HG. apply X5 in HG as [HG|[Hf ->]]; [left; by rewrite E in HG|right; by apply Hfree]. }
  intros G i [_ HG] Hi Hnp. pose proof (co_ok _ _ _ _ _ Hco) as [Hs _ _].
  destruct (top_facts _ _ _ Hs D HD) as [[_ Htop] _]. pose proof (sep_dir _ _ _ Hs D HD) as [_ HDa].
  assert (HTf : is_frame T) by (by apply (table_div (mem c') top dirs); [apply Hok'|exists D|]).
  assert (HGT : G <> T) by (intros ->; done).
  rewrite Heff by (apply not_scratch_slot; [done|done|intros ->; apply Hnp; by left|done]). unfold map_word.
  rewrite decide_False by (intros Ea; apply entry_inj in Ea as [Ea _]; [done|done|apply HTf|done|word]).
  destruct fresh; [|done]. rewrite in_frame_other by (done || apply HTf || congruence). rewrite decide_False; [done|].
  unfold pde_addr, user_page in *. intros Ea. apply entry_inj in Ea as [-> _]; [|done|done|done|word]. apply Hnp. right. by left.
Qed.

Lemma core_map_current v refs top dirs held p F flags r v' :
  core v refs top dirs held -> user_page p -> walk_page (mem (cpu v)) (cr3 (cpu v)) p = None ->
  mappable v refs top dirs held F -> current_pagedir_map v F (p * 4096) flags = Some (r, v') ->
  r = F /\ mapped v v' refs top dirs (cr3 (cpu v)) p F.
Proof.
  intros Hco Hp Hnone Hm H. pose proof Hco as [_ C2 C3 _ _ _]. unfold current_pagedir_map in H.
  apply bind_Some in H as (v2 & H & E). simplify_eq. split; [done|].
  assert (Hp' : 0 <= p /\ p / 1024 < 1022) by (unfold user_page in Hp; word). destruct Hp' as [Hp0 Hp1].
  assert (Hfr : forall G v1, new_frame v = Some (G, v1) -> fresh_frame (mem (cpu v)) top dirs G)
    by (intros G v1; by eapply fresh_new_frame).
  pose proof (current_map v top dirs C2 p 0 Hp0 Hp1 ltac:(lia) r flags Hfr) as Hcm. rewrite Z.add_0_r in Hcm.
  destruct (table_for v (cr3 (cpu v)) (p / 1024)) as [[[T fresh] v1]|] eqn:Htf; [|congruence].
  destruct Hcm as (c' & Hc & L & Hcr & Hscr & Htlb). rewrite Hc in H. simplify_eq.
  destruct (current_map_ok v top dirs C2 p 0 Hp0 Hp1 ltac:(lia) c' T fresh v1 r flags Hfr (mp_frame _ _ _ _ _ _ Hm) Htf L Hcr Htlb)
    as [_ Hok'].
  apply (core_table_for v refs top dirs held _ p T fresh v1 r flags c'); try done.
  - apply C2.
  - intros a _. apply L.
  - by rewrite Hscr.
Qed.

Lemma core_map_external v refs top dirs held D p F flags v' :
  core v refs top dirs held -> D ∈ dirs -> user_page p -> walk_page (mem (cpu v)) D p = None ->
  mappable v refs top dirs held F -> ExternalPageDirectory.map v D (p * 4096) F flags = Some v' ->
  mapped v v' refs top dirs D p F.
Proof.
  intros Hco HD Hp Hnone Hm H. pose proof Hco as [_ C2 C3 _ _ _].
  assert (Hfr : forall G v1, new_frame v = Some (G, v1) -> fresh_frame (mem (cpu v)) top dirs G)
    by (intros G v1; by eapply fresh_new_frame).
  pose proof (external_map v top dirs C2 C3 D HD p 0 Hp ltac:(lia) F flags Hfr (mp_frame _ _ _ _ _ _ Hm)) as Hem.
  rewrite Z.add_0_r in Hem.
  destruct (table_for v D (p / 1024)) as [[[T fresh] v1]|] eqn:Htf; [|congruence].
  destruct Hem as (c' & Hc & Heff & [S1 S2 S3 S4]). rewrite Hc in H. simplify_eq.
  apply (core_table_for v refs top dirs held D p T fresh v1 F flags c'); try done. by rewrite S3.
Qed.

(** ** Filling a frame *)

Lemma paging_same m m' top dirs G : same_directories dirs m m' -> paging_frame m' top dirs G -> paging_frame m top dirs G.
Proof.
  intros Hsame [->|[HG|(D & i & HD & Hi & Hpr & E)]]; [by left|right; by left|]. right. right. exists D, i.
  rewrite Hsame in Hpr by (done || lia). rewrite (same_table_of dirs m) in E by (done || lia). done.
Qed.

(** Words of a frame that is mapped nowhere. *)
Lemma core_fill v refs top dirs held F c' :
  core v refs top dirs held -> spare v refs top dirs F -> machine_ok c' top dirs -> SCRATCH_PAGES c' = 0 ->
  (forall a, ~ scratch_slot top a -> in_frame F a = false -> load (mem c') a = load (mem (cpu v)) a) ->
  core (with_cpu v c') refs top dirs held /\ spare (with_cpu v c') refs top dirs F /\
  (forall D p, D ∈ dirs -> user_page p -> walk_page (mem c') D p = walk_page (mem (cpu v)) D p).
Proof.
  intros Hco Hsp Hok' Hscr' L. pose proof (co_ok _ _ _ _ _ Hco) as [Hs _ Hcr].
  pose proof (spare_fresh _ _ _ _ _ Hsp) as Hfr.
  assert (Hw : forall D p, D ∈ dirs -> user_page p -> walk_page (mem c') D p = walk_page (mem (cpu v)) D p).
  { intros D p HD Hp. apply (frame_walk_same _ _ top dirs F); try done. unfold user_page in Hp. lia. }
  assert (Hsame : same_directories dirs (mem (cpu v)) (mem c')).
  { intros D i HD Hi. destruct Hfr as ([_ HFa] & HFt & HFd & _). destruct (top_facts _ _ _ Hs D HD) as [[_ Htop] Hnt].
    pose proof (sep_dir _ _ _ Hs D HD) as [_ Ha].
    apply L; [apply not_scratch_slot; [done|done|congruence|done]|apply in_frame_other; [done|done|done|congruence]]. }
  split; [by apply core_same|]. split; [|done]. destruct Hsp as [P1 P2 P3 P4 P5]. split; cbn [cpu phys with_cpu]; try done.
  - intros HF. by apply P4, (paging_same _ (mem c')).
  - intros D p HD Hp. rewrite Hw by done. by apply P5.
Qed.
