(* ===== verification/AddressSpaces.v ===== *)
(** * Address spaces over time

    Every memory call of the kernel keeps the invariant of [VmInvariant]
    together with the regions of the tasks: a page is only mapped inside a
    region of its task.  From that: what a task can reach, when frames are
    freed, and that the end of a task gives everything back. *)

From S2P Require Import Prelude Address Bitmap Tracking PhysicalMemory MappedMemory Collections Mmu MmuSpec Paging PagingSpec VmInvariant.
Import PageTableEntry.
Import MapFacts SearchFacts UnmapFacts LookupFacts MappedMemoryProps.

(** ** Unmapping pages *)

Definition counted (refs : gmap Z Z) (f : Z) : bool := if refs !! f is Some _ then true else false.

(** From [v] to [v'] only counted frames are freed: exactly those that lost
    their last reference. *)
Record drops (dirs : gset Z) (v : Vm) (refs : gmap Z Z) (v' : Vm) (refs' : gmap Z Z) : Prop := {
  dr_sub : forall f, counted refs' f = true -> counted refs f = true;
  dr_use : forall f, 0 <= f -> in_use v' f = in_use v f && negb (counted refs f && negb (counted refs' f));
  dr_frames : frames v' = frames v;
  dr_cr3 : cr3 (cpu v') = cr3 (cpu v);
  dr_dirs : same_directories dirs (mem (cpu v)) (mem (cpu v'))
}.

Lemma drops_refl dirs v refs : drops dirs v refs v refs.
Proof. split; try done. intros f Hf. by destruct (in_use v f), (counted refs f). Qed.

Lemma drops_trans dirs v1 r1 v2 r2 v3 r3 :
  drops dirs v1 r1 v2 r2 -> drops dirs v2 r2 v3 r3 -> drops dirs v1 r1 v3 r3.
Proof.
  intros [A1 A2 A3 A4 A5] [B1 B2 B3 B4 B5]. split; [by eauto| |congruence|congruence|].
  2:{ intros D i HD Hi. by rewrite B5, A5. }
  intros f Hf. rewrite B2, A2 by done. specialize (A1 f). specialize (B1 f).
  destruct (in_use v1 f), (counted r1 f), (counted r2 f), (counted r3 f); cbn in *; intuition.
Qed.

(** The directory that [unmap_page] works on. *)
Definition target (v : Vm) (location : option Z) : Z := default (cr3 (cpu v)) location.

(** One page is unmapped and its frame released. *)
Lemma unmap_page_spec k refs top dirs location kind p :
  core (vm k) refs top dirs None -> target (vm k) location ∈ dirs -> user_page p ->
  exists k' refs', unmap_page k location kind (p * 4096) = Some (Ok tt, k') /\
    core (vm k') refs' top dirs None /\ drops dirs (vm k) refs (vm k') refs' /\
    tasks k' = tasks k /\ current_id k' = current_id k /\
    walk_page (mem (cpu (vm k'))) (target (vm k) location) p = None /\
    (forall D' q, D' ∈ dirs -> user_page q -> (D', q) <> (target (vm k) location, p) ->
       walk_page (mem (cpu (vm k'))) D' q = walk_page (mem (cpu (vm k))) D' q).
Proof.
  intros Hco HD Hp. set (D := target (vm k) location) in *. pose proof Hco as [_ C2 C3 _ _ _].
  assert (Hun : exists c', (match location with
      | None => current_pagedir_unmap (vm k) (p * 4096)
      | Some location => ExternalPageDirectory.unmap (vm k) location (p * 4096)
      end) = Some (walk_page (mem (cpu (vm k))) D p, with_cpu (vm k) c') /\
    unmap_effect top (mem (cpu (vm k))) (mem c') D p /\ settled (cpu (vm k)) c' top dirs).
  { rewrite <- (Z.add_0_r (p * 4096)). unfold D, target in *. destruct location as [L|]; cbn [default] in *.
    - by apply external_unmap; [..|lia].
    - destruct (current_unmap (vm k) top dirs p 0 C2 Hp ltac:(lia)) as (c' & X1 & X2 & X3 & _). by exists c'. }
  destruct Hun as (c' & Hun & Heff & [S1 S2 S3 S4]).
  destruct (core_unmap (vm k) refs top dirs D p c' Hco HD Hp Heff S1) as (Hco' & Hnone & Hother & Hsame); [by rewrite S3|].
  unfold unmap_page. rewrite Hun. cbn [mbind option_bind].
  destruct (walk_page (mem (cpu (vm k))) D p) as [F|] eqn:Hw; cbn [fmap option_fmap option_map] in Hco'.
  2:{ eexists _, refs. split; [done|]. split; [done|]. split; [|done].
      destruct (drops_refl dirs (vm k) refs) as [R1 R2 R3 R4 R5]. by split. }
  pose proof (walk_page_frame _ _ _ _ (sep_words _ _ _ (ok_separate _ _ _ C2)) Hw) as HF.
  destruct (frame_div F HF) as [EF HFr].
  destruct (core_release (with_cpu (vm k) c') refs top dirs (F / 4096) Hco' HFr) as (s' & Hr & Hco2 & Hfr & Huse).
  rewrite EF in Hr. cbn [phys with_cpu] in *. rewrite Hr. cbn [mbind option_bind].
  eexists _, (refs_release refs (F / 4096)). split; [done|].
  match goal with |- core (vm ?K) _ _ _ _ /\ _ =>
    assert (Ek : vm K = with_phys (with_cpu (vm k) c') s' /\ tasks K = tasks k /\ current_id K = current_id k)
      by (destruct kind; repeat case_match; done); destruct Ek as (-> & -> & ->) end.
  split; [done|]. split; [|done]. split; [| |done|done|done].
  - intros f. unfold refs_release, counted. destruct (refs !! (F / 4096)) as [n|] eqn:E; [|done]. destruct (n =? 1).
    + destruct (decide (f = F / 4096)) as [->|]; [by rewrite lookup_delete_eq|by rewrite lookup_delete_ne].
    + destruct (decide (f = F / 4096)) as [->|]; [by rewrite E|by rewrite lookup_insert_ne].
  - intros f Hf. rewrite Huse by done. cbn [phys with_cpu]. f_equal. f_equal. unfold last_ref, refs_release, counted.
    destruct (Z.eqb_spec f (F / 4096)) as [->|Hne].
    + destruct (refs !! (F / 4096)) as [n|] eqn:E; [|by rewrite bool_decide_false by done].
      destruct (Z.eqb_spec n 1) as [->|Hn1]; [by rewrite lookup_delete_eq|]. rewrite lookup_insert_eq.
      by rewrite bool_decide_false by congruence.
    + rewrite andb_false_r. destruct (refs !! (F / 4096)) as [n|] eqn:E; [destruct (n =? 1)|].
      all: rewrite ?lookup_delete_ne, ?lookup_insert_ne by done; by destruct (refs !! f).
Qed.

(** The pages [gone] of directory [D] are unmapped and their frames released;
    nothing else changes. *)
Record cleared (k k' : Kernel) (refs refs' : gmap Z Z) (top : Z) (dirs : gset Z) (D : Z) (gone : Z -> Prop) : Prop := {
  cl_core : core (vm k') refs' top dirs None;
  cl_drops : drops dirs (vm k) refs (vm k') refs';
  cl_tasks : tasks k' = tasks k;
  cl_current : current_id k' = current_id k;
  cl_gone : forall p, user_page p -> gone p -> walk_page (mem (cpu (vm k'))) D p = None;
  cl_other : forall D' p, D' ∈ dirs -> user_page p -> ~ (D' = D /\ gone p) ->
    walk_page (mem (cpu (vm k'))) D' p = walk_page (mem (cpu (vm k))) D' p
}.

Lemma cleared_refl k refs top dirs D : core (vm k) refs top dirs None -> cleared k k refs refs top dirs D (fun _ => False).
Proof. intros H. split; try done. apply drops_refl. Qed.

Lemma cleared_trans k1 k2 k3 r1 r2 r3 top dirs D (g1 g2 : Z -> Prop) :
  D ∈ dirs -> cleared k1 k2 r1 r2 top dirs D g1 -> cleared k2 k3 r2 r3 top dirs D g2 ->
  cleared k1 k3 r1 r3 top dirs D (fun p => g1 p \/ g2 p).
Proof.
  intros HD [A1 A2 A3 A4 A5 A6] [B1 B2 B3 B4 B5 B6]. split; [done|by eapply drops_trans|congruence|congruence|..].
  - intros p Hp Hg. destruct (walk_page (mem (cpu (vm k3))) D p) eqn:Hw; [|done]. exfalso.
    assert (Hn2 : ~ g2 p) by (intros Hg2; rewrite B5 in Hw by done; done).
    destruct Hg as [Hg|]; [|done]. rewrite B6 in Hw by (done || tauto). by rewrite A5 in Hw.
  - intros D' p HD' Hp Hn. rewrite B6, A6 by (done || tauto). done.
Qed.

Lemma cleared_ext k k' r r' top dirs D (g1 g2 : Z -> Prop) :
  (forall p, g1 p <-> g2 p) -> cleared k k' r r' top dirs D g1 -> cleared k k' r r' top dirs D g2.
Proof.
  intros Hg [A1 A2 A3 A4 A5 A6]. split; try done.
  - intros p Hp Hg2. apply A5; [done|by apply Hg].
  - intros D' p HD' Hp Hn. apply A6; [done|done|]. rewrite Hg. done.
Qed.

Section Unmapping.
Context (top : Z) (dirs : gset Z) (location : option Z) (D : Z) (HD : D ∈ dirs).

Lemma unmap_pages_spec kind bp (l : list Z) k refs :
  core (vm k) refs top dirs None -> target (vm k) location = D -> Forall (fun i => user_page (bp + i)) l ->
  exists k' refs', unmap_pages k location kind (bp * 4096) ((fun i => i * 0x1000) <$> l) = Some (Ok tt, k') /\
    cleared k k' refs refs' top dirs D (fun p => exists i, i ∈ l /\ p = bp + i).
Proof.
  revert k refs. induction l as [|i l IH]; intros k refs Hco HT Hl.
  { exists k, refs. split; [done|]. eapply cleared_ext; [|by apply cleared_refl]. intros p. split; [done|].
    by intros (i & ?%elem_of_nil & _). }
  apply Forall_cons in Hl as [Hi Hl]. cbn [fmap list_fmap unmap_pages].
  assert (E : VirtualAddress.add (bp * 4096) (i * 0x1000) = (bp + i) * 4096).
  { unfold VirtualAddress.add, user_page in *. word. }
  rewrite E.
  destruct (unmap_page_spec k refs top dirs location kind (bp + i) Hco) as (k1 & r1 & H1 & Hc1 & Hd1 & Ht1 & Hcur1 & Hn1 & Ho1);
    [by rewrite HT|done|]. rewrite HT in *.
  rewrite H1. cbn [mbind option_bind].
  destruct (IH k1 r1 Hc1) as (k' & r' & H' & Hcl); [|done|].
  { unfold target in *. destruct location; [done|]. cbn [default] in *. by rewrite (dr_cr3 _ _ _ _ _ Hd1). }
  exists k', r'. split; [exact H'|].
  eapply cleared_ext; [|eapply (cleared_trans k k1 k' _ _ _ _ _ _ (fun p => p = bp + i)); [done| |exact Hcl]].
  - intros p. setoid_rewrite elem_of_cons. split.
    + intros [->|(j & Hj & ->)]; [by exists i; auto|by exists j; auto].
    + intros (j & [->|Hj] & ->); [by left|right; by exists j].
  - split; try done.
    + by intros p Hp ->.
    + intros D' p HD' Hp Hn. apply Ho1; try done. intros [= -> ->]. by apply Hn.
Qed.

(** The pages of a piece. *)
Definition piece_page (u : UnmappedRegion) (p : Z) : Prop :=
  uaddress u <= p * 4096 < uaddress u + usize u.
Definition piece_ok (u : UnmappedRegion) : Prop :=
  uaddress u mod 4096 = 0 /\ 0 <= uaddress u /\ 0 < usize u /\ uaddress u + usize u <= USER_TOP.

Lemma unmap_regions_spec (l : list UnmappedRegion) k refs :
  core (vm k) refs top dirs None -> target (vm k) location = D -> Forall piece_ok l ->
  exists k' refs', unmap_regions k location l = Some (Ok tt, k') /\
    cleared k k' refs refs' top dirs D (fun p => exists u, u ∈ l /\ piece_page u p).
Proof.
  revert k refs. induction l as [|u l IH]; intros k refs Hco HT Hl.
  { exists k, refs. split; [done|]. eapply cleared_ext; [|by apply cleared_refl]. intros p. split; [done|].
    by intros (i & ?%elem_of_nil & _). }
  apply Forall_cons in Hl as [(Hal & Hlo & Hsz & Hhi) Hl]. cbn [unmap_regions]. unfold USER_TOP in *.
  unfold page_offsets. rewrite (proj2 (Z.ltb_ge _ _)) by lia. cbn [mbind option_bind].
  set (n := (usize u + 0xfff) / 0x1000). set (bp := uaddress u / 4096).
  replace (uaddress u) with (bp * 4096) by (subst bp; word).
  destruct (unmap_pages_spec (kind u) bp (seqZ 0 n) k refs Hco HT) as (k1 & r1 & H1 & Hc1).
  { apply Forall_forall. intros i Hi%elem_of_seqZ. unfold user_page, bp, n in *. word. }
  rewrite H1. cbn [mbind option_bind].
  destruct (IH k1 r1 (cl_core _ _ _ _ _ _ _ _ Hc1)) as (k' & r' & H' & Hcl); [|done|].
  { unfold target in *. destruct location; [done|]. cbn [default] in *.
    by rewrite (dr_cr3 _ _ _ _ _ (cl_drops _ _ _ _ _ _ _ _ Hc1)). }
  exists k', r'. split; [exact H'|]. eapply cleared_ext; [|eapply cleared_trans; [done|exact Hc1|exact Hcl]].
  intros p. setoid_rewrite elem_of_cons. split.
  - intros [(i & Hi%elem_of_seqZ & ->)|(u' & Hu & Hp)]; [|by exists u'; auto].
    exists u. split; [by left|]. unfold piece_page, n, bp in *. word.
  - intros (u' & [->|Hu] & Hp); [left|right; by exists u']. exists (p - bp). rewrite elem_of_seqZ.
    unfold piece_page, n, bp in *. word.
Qed.
End Unmapping.

(** ** The invariant of the kernel *)

Record kinv (k : Kernel) (refs : gmap Z Z) (top : Z) (dirs : gset Z) : Prop := {
  ki_core : core (vm k) refs top dirs None;
  ki_dirs : forall D, D ∈ dirs <-> exists id t, tasks k !! id = Some t /\ page_directory t = D;
  ki_inj : forall id1 id2 t1 t2, tasks k !! id1 = Some t1 -> tasks k !! id2 = Some t2 ->
    page_directory t1 = page_directory t2 -> id1 = id2;
  ki_cur : exists t, tasks k !! current_id k = Some t /\ page_directory t = cr3 (cpu (vm k));
  ki_chain : forall id t, tasks k !! id = Some t -> chain 0 USER_TOP (memory_mapping t);
  ki_region : forall id t p F, tasks k !! id = Some t -> user_page p ->
    walk_page (mem (cpu (vm k))) (page_directory t) p = Some F -> exists r, holds (memory_mapping t) (p * 4096) r
}.

(** A change of the regions of one task. *)
Lemma tasks_with_mapping k id t l id' t' :
  tasks (with_mapping k id t l) !! id' = Some t' ->
  id' = id /\ t' = {| page_directory := page_directory t; memory_mapping := l |} \/
  id' <> id /\ tasks k !! id' = Some t'.
Proof.
  cbn [tasks with_mapping with_tasks]. intros [[-> <-]|[Hne H]]%lookup_insert_Some; [by left|by right].
Qed.

Lemma kinv_update k k' refs refs' top dirs id t l :
  kinv k refs top dirs -> tasks k !! id = Some t ->
  tasks k' = <[id := {| page_directory := page_directory t; memory_mapping := l |}]> (tasks k) ->
  current_id k' = current_id k -> cr3 (cpu (vm k')) = cr3 (cpu (vm k)) ->
  core (vm k') refs' top dirs None -> chain 0 USER_TOP l ->
  (forall D p, D ∈ dirs -> user_page p -> D <> page_directory t ->
     walk_page (mem (cpu (vm k'))) D p = walk_page (mem (cpu (vm k))) D p) ->
  (forall p F, user_page p -> walk_page (mem (cpu (vm k'))) (page_directory t) p = Some F ->
     exists r, holds l (p * 4096) r) ->
  kinv k' refs' top dirs.
Proof.
  intros [I1 I2 I3 I4 I5 I6] Hk Ht Hcur Hcr Hco Hc Hother Hreg.
  assert (Htask : forall id' t', tasks k' !! id' = Some t' -> id' = id /\ t' = {| page_directory := page_directory t; memory_mapping := l |} \/
    id' <> id /\ tasks k !! id' = Some t').
  { intros id' t'. rewrite Ht. intros [[-> <-]|[Hne H]]%lookup_insert_Some; [by left|by right]. }
  split; [done|..].
  - intros D. rewrite I2, Ht. split; intros (id' & t' & H & E).
    + destruct (decide (id' = id)) as [->|Hne].
      * eexists id, _. rewrite lookup_insert_eq. split; [done|]. by simplify_eq.
      * exists id', t'. by rewrite lookup_insert_ne.
    + apply lookup_insert_Some in H as [[-> <-]|[Hne H]]; [by exists id', t|by exists id', t'].
  - intros id1 id2 t1 t2 [[-> ->]|[N1 H1]]%Htask [[-> ->]|[N2 H2]]%Htask E; cbn [page_directory] in E; try done.
    + by apply (I3 id id2 t t2).
    + by apply (I3 id1 id t1 t).
    + by apply (I3 id1 id2 t1 t2).
  - destruct I4 as (tc & Hc1 & Hc2). rewrite Hcur, Hcr, Ht. destruct (decide (current_id k = id)) as [E|Hne].
    + rewrite E in Hc1 |- *. rewrite lookup_insert_eq. eexists. split; [done|]. cbn. congruence.
    + rewrite lookup_insert_ne by done. by exists tc.
  - intros id' t' [[-> ->]|[N H]]%Htask; [done|by eapply I5].
  - intros id' t' p F [[-> ->]|[N H]]%Htask Hp Hw; [by eapply Hreg|]. apply (I6 id' t' p F); try done.
    rewrite <- Hw. symmetry. apply Hother; [|done|].
    + apply I2. by exists id', t'.
    + intros E. apply N. by apply (I3 id' id t' t).
Qed.

Definition cut_range (l : list (Z * MemMappedRegion.t)) (a len : Z) := flat_map (cut a (a + len)) l.

(** Unmapping a range of a task: the regions are cut, no page of the range is
    mapped any more, and the frames that lost their last page are freed. *)
Lemma unmap_memory_spec k refs top dirs id t a len :
  kinv k refs top dirs -> tasks k !! id = Some t ->
  0 <= a < USER_TOP -> a mod 4096 = 0 -> 0 <= len -> len mod 4096 = 0 -> a + len <= USER_TOP ->
  exists k' refs', unmap_memory_for_task k id a len = Some (Ok tt, k') /\
    kinv k' refs' top dirs /\ drops dirs (vm k) refs (vm k') refs' /\ current_id k' = current_id k /\
    tasks k' = <[id := {| page_directory := page_directory t; memory_mapping := cut_range (memory_mapping t) a len |}]> (tasks k) /\
    (forall D p, D ∈ dirs -> user_page p ->
       walk_page (mem (cpu (vm k'))) D p =
         if decide (D = page_directory t /\ a <= p * 4096 < a + len) then None
         else walk_page (mem (cpu (vm k))) D p).
Proof.
  intros HI Hk Ha Hal Hlen Hmul Hend. pose proof HI as [I1 I2 I3 I4 I5 I6].
  unfold unmap_memory_for_task. rewrite Hk. pose proof (I5 id t Hk) as Hc.
  rewrite (unmap_memory_eq USER_TOP (memory_mapping t) a len) by (done || lia). cbn [mbind option_bind].
  fold (cut_range (memory_mapping t) a len). set (l := cut_range (memory_mapping t) a len).
  set (k1 := with_mapping k id t l). set (D := page_directory t).
  assert (HD : D ∈ dirs) by (apply I2; by exists id, t).
  set (loc := if id =? current_id k1 then None else Some D).
  assert (Hloc : target (vm k1) loc = D).
  { unfold loc, target. cbn [current_id with_mapping with_tasks k1]. destruct (Z.eqb_spec id (current_id k)) as [->|]; [|done].
    destruct I4 as (tc & Hc1 & Hc2). cbn [default vm with_mapping with_tasks k1]. unfold D. congruence. }
  set (us := flat_map (taken a (a + len)) (memory_mapping t)).
  assert (Hus : Forall piece_ok us).
  { apply Forall_forall. intros u Hu. destruct (taken_elem a (a + len) 0 USER_TOP _ u Hc Hu) as (r & Hin & X1 & X2 & X3 & _).
    destruct (chain_elem _ _ _ _ _ Hc Hin) as (Y1 & (Y2 & Y3 & Y4) & Y5). split_and!; [word|lia|done|]. lia. }
  destruct (unmap_regions_spec top dirs loc D HD us k1 refs) as (k' & refs' & Hu & Hcl); [done|done|done|].
  exists k', refs'. split; [exact Hu|].
  assert (Hgone : forall p F, user_page p -> walk_page (mem (cpu (vm k))) D p = Some F ->
    (exists u, u ∈ us /\ piece_page u p) <-> a <= p * 4096 < a + len).
  { intros p F Hp Hw. split.
    - intros (u & Hin & Hpp). destruct (taken_elem a (a + len) 0 USER_TOP _ u Hc Hin) as (r & _ & X1 & X2 & _).
      unfold piece_page in Hpp. lia.
    - intros Hr. destruct (I6 id t p F Hk Hp Hw) as (r & Hh).
      destruct (taken_covers a (a + len) 0 USER_TOP _ (p * 4096) r Hc Hr Hh) as (u & X1 & X2 & _). by exists u. }
  assert (Hwalk : forall D' p, D' ∈ dirs -> user_page p -> walk_page (mem (cpu (vm k'))) D' p =
    if decide (D' = D /\ a <= p * 4096 < a + len) then None else walk_page (mem (cpu (vm k))) D' p).
  { intros D' p HD' Hp. change (vm k) with (vm k1). destruct (walk_page (mem (cpu (vm k1))) D' p) as [F|] eqn:Hw.
    - case_decide as Hd.
      + destruct Hd as [-> Hr]. apply (cl_gone _ _ _ _ _ _ _ _ Hcl); [done|]. by eapply Hgone.
      + rewrite (cl_other _ _ _ _ _ _ _ _ Hcl); [done|done|done|]. intros [-> Hg]. apply Hd. split; [done|].
        by eapply Hgone.
    - replace (if decide (D' = D /\ a <= p * 4096 < a + len) then None else None) with (@None Z) by (by case_decide).
      destruct (walk_page (mem (cpu (vm k'))) D' p) as [F|] eqn:Hw'; [|done]. exfalso.
      assert (Hn : ~ (D' = D /\ (exists u, u ∈ us /\ piece_page u p))).
      { intros [-> Hg]. rewrite (cl_gone _ _ _ _ _ _ _ _ Hcl p Hp Hg) in Hw'. done. }
      rewrite (cl_other _ _ _ _ _ _ _ _ Hcl D' p HD' Hp Hn) in Hw'. congruence. }
  pose proof Hcl as [L1 L2 L3 L4 _ _].
  split; [|split_and!; done]. apply (kinv_update k k' refs refs' top dirs id t l); try done.
  - by apply (dr_cr3 _ _ _ _ _ L2).
  - apply cut_chain; [done|word|lia|done].
  - intros D' p HD' Hp Hne. rewrite Hwalk, decide_False; [done|by intros []|done|done].
  - intros p F Hp Hw. fold D in Hw. rewrite Hwalk in Hw by done. case_decide as Hd; [done|].
    destruct (I6 id t p F Hk Hp Hw) as (r & Hh).
    destruct (proj2 (cut_holds a (a + len) 0 USER_TOP (memory_mapping t) (p * 4096) (MemMappedRegion.backed_by r) Hc))
      as (r' & Hh' & _); [|by exists r']. split; [tauto|by exists r].
Qed.

(** ** Creation and end of an address space *)

Lemma create_space_spec k refs top dirs id k' :
  kinv k refs top dirs -> tasks k !! id = None -> create_address_space k id = Some k' ->
  exists F, F ∉ dirs /\ kinv k' refs top ({[F]} ∪ dirs) /\
    tasks k' = <[id := {| page_directory := F; memory_mapping := MappedMemory.new |}]> (tasks k) /\
    current_id k' = current_id k /\
    (forall p, user_page p -> walk_page (mem (cpu (vm k'))) F p = None) /\
    (forall D p, D ∈ dirs -> user_page p -> walk_page (mem (cpu (vm k'))) D p = walk_page (mem (cpu (vm k))) D p).
Proof.
  intros [I1 I2 I3 I4 I5 I6] Hnone H. unfold create_address_space in H.
  apply bind_Some in H as ([F v'] & Hcr & H). simplify_eq.
  destruct (core_new_directory (vm k) refs top dirs F v' I1 Hcr) as (HF & Hco & Hcr3 & Hnew & Hold).
  exists F. split; [done|]. cbn [vm tasks current_id with_tasks with_vm]. split; [|done].
  set (t0 := {| page_directory := F; memory_mapping := MappedMemory.new |}).
  assert (Hdir : forall id' t', tasks k !! id' = Some t' -> page_directory t' ∈ dirs) by (intros id' t' X; apply I2; by exists id', t').
  split; cbn [vm tasks current_id with_tasks with_vm]; [done|..].
  - intros D. rewrite elem_of_union, elem_of_singleton, I2. split.
    + intros [->|(id' & t' & X & E)]; [exists id, t0; by rewrite lookup_insert_eq|].
      exists id', t'. rewrite lookup_insert_ne by congruence. done.
    + intros (id' & t' & [[<- <-]|[Hne X]]%lookup_insert_Some & E); [by left|right; by exists id', t'].
  - intros id1 id2 t1 t2 [[<- <-]|[N1 H1]]%lookup_insert_Some [[<- <-]|[N2 H2]]%lookup_insert_Some E; try done.
    + destruct HF. cbn [page_directory t0] in E. rewrite E. by eapply Hdir.
    + destruct HF. cbn [page_directory t0] in E. rewrite <- E. by eapply Hdir.
    + by eapply I3.
  - destruct I4 as (tc & X1 & X2). exists tc. rewrite Hcr3, lookup_insert_ne by congruence. done.
  - intros id' t' [[<- <-]|[Hne X]]%lookup_insert_Some; [done|by eapply I5].
  - intros id' t' p G [[<- <-]|[Hne X]]%lookup_insert_Some Hp Hw.
    + cbn [page_directory t0] in Hw. by rewrite Hnew in Hw.
    + rewrite Hold in Hw by (done || by eapply Hdir). by eapply I6.
Qed.

(** Every region in [rs], one after the other, as the end of a task does. *)
Lemma unmap_each_spec top dirs id t (rs : list MemMappedRegion.t) k refs :
  kinv k refs top dirs -> tasks k !! id = Some t ->
  Forall (fun r => region_ok (MemMappedRegion.address r) r /\ 0 <= MemMappedRegion.address r /\ page_end r <= USER_TOP) rs ->
  exists k' refs' t', unmap_each k id rs = Some k' /\ kinv k' refs' top dirs /\
    tasks k' !! id = Some t' /\ page_directory t' = page_directory t /\
    (forall id', id' <> id -> tasks k' !! id' = tasks k !! id') /\
    drops dirs (vm k) refs (vm k') refs' /\ current_id k' = current_id k /\
    (forall D p, D ∈ dirs -> user_page p -> D <> page_directory t ->
       walk_page (mem (cpu (vm k'))) D p = walk_page (mem (cpu (vm k))) D p) /\
    (forall p F, user_page p -> walk_page (mem (cpu (vm k'))) (page_directory t) p = Some F ->
       walk_page (mem (cpu (vm k))) (page_directory t) p = Some F /\
       Forall (fun r => ~ (MemMappedRegion.address r <= p * 4096 < page_end r)) rs).
Proof.
  revert k refs t. induction rs as [|r rs IH]; intros k refs t HI Hk Hrs.
  { exists k, refs, t. split; [done|]. split; [done|]. split; [done|]. split; [done|]. split; [done|].
    split; [apply drops_refl|]. split; [done|]. split; [done|]. intros p F Hp Hw. split; [done|constructor]. }
  apply Forall_cons in Hrs as [(Hok & Hlo & Hhi) Hrs]. pose proof (page_end_bounds _ r Hok) as (Hb & _ & Hpe).
  destruct Hok as (_ & Hal & Hsz). unfold USER_TOP in Hhi.
  assert (Esz : u32 (MemMappedRegion.size r + 0xfff) .& 0xfffff000 = page_end r - MemMappedRegion.address r).
  { change (MappedMemory.round_size (MemMappedRegion.size r) = page_end r - MemMappedRegion.address r).
    destruct (round_size_spec (MemMappedRegion.size r) Hsz ltac:(lia)) as (-> & _). unfold page_end. word. }
  cbn [unmap_each]. rewrite Esz. set (a := MemMappedRegion.address r) in *. set (len := page_end r - a) in *.
  destruct (unmap_memory_spec k refs top dirs id t a len HI Hk) as (k1 & r1 & H1 & HI1 & Hd1 & Hc1 & Ht1 & Hw1);
    [unfold USER_TOP; lia|done|lia|word|unfold USER_TOP; lia|].
  rewrite H1. cbn [mbind option_bind].
  set (t1 := {| page_directory := page_directory t; memory_mapping := cut_range (memory_mapping t) a len |}) in *.
  destruct (IH k1 r1 t1 HI1) as (k' & r' & t' & H' & HI' & Hk' & Hp' & Ho' & Hd' & Hc' & Hw' & Hg'); [by rewrite Ht1, lookup_insert_eq|done|].
  assert (HD : page_directory t ∈ dirs) by (apply (ki_dirs _ _ _ _ HI); by exists id, t).
  exists k', r', t'. split; [exact H'|]. split; [done|]. split; [done|]. split; [done|].
  split; [intros id' Hne; by rewrite Ho', Ht1, lookup_insert_ne|]. split; [by eapply drops_trans|]. split; [congruence|].
  split.
  - intros D p HDd Hp Hne. rewrite Hw', Hw1 by done. rewrite decide_False; [done|by intros []].
  - intros p F Hp Hw. destruct (Hg' p F Hp Hw) as [Hw2 Hfa]. cbn [page_directory t1] in *.
    rewrite Hw1 in Hw2 by done. case_decide as Hd; [done|]. split; [done|]. constructor; [|done].
    intros Hin. apply Hd. split; [done|]. unfold len. lia.
Qed.

(** The end of a task that is not running: its pages, tables and directory are
    given back, the other tasks keep everything. *)
Lemma clean_up_spec k refs top dirs id t :
  kinv k refs top dirs -> tasks k !! id = Some t -> id <> current_id k ->
  exists k' refs', clean_up_memory k id = Some k' /\ kinv k' refs' top (dirs ∖ {[page_directory t]}) /\
    tasks k' = delete id (tasks k) /\ current_id k' = current_id k /\
    (forall D p, D ∈ dirs -> user_page p -> D <> page_directory t ->
       walk_page (mem (cpu (vm k'))) D p = walk_page (mem (cpu (vm k))) D p) /\
    (forall f, counted refs' f = true -> counted refs f = true) /\
    (forall f, 0 <= f -> in_use (vm k') f =
       in_use (vm k) f && negb (counted refs f && negb (counted refs' f)) &&
         negb (dir_frame (mem (cpu (vm k))) (page_directory t) f)) /\
    frames (vm k') = frames (vm k).
Proof.
  intros HI Hk Hne. pose proof HI as [I1 I2 I3 I4 I5 I6]. pose proof (I5 id t Hk) as Hc.
  unfold clean_up_memory, unmap_task_memory. rewrite Hk. unfold MappedMemory.drain_regions.
  destruct (unmap_each_spec top dirs id t (memory_mapping t).*2 k refs HI Hk)
    as (k1 & r1 & t1 & H1 & HI1 & Hk1 & Hp1 & Ho1 & Hd1 & Hc1 & Hw1 & Hg1).
  { apply Forall_forall. intros r Hr. apply list_elem_of_fmap in Hr as ([a r0] & -> & Hin).
    destruct (chain_elem _ _ _ _ _ Hc Hin) as (X1 & (X2 & X3 & X4) & X5). cbn [snd].
    subst a. done. }
  rewrite H1. cbn [mbind option_bind]. set (D := page_directory t) in *.
  assert (HD : D ∈ dirs) by (apply I2; by exists id, t).
  assert (Hempty : forall p, user_page p -> walk_page (mem (cpu (vm k1))) D p = None).
  { intros p Hp. destruct (walk_page (mem (cpu (vm k1))) D p) as [F|] eqn:Hw; [exfalso|done].
    destruct (Hg1 p F Hp Hw) as [Hw0 Hfa]. destruct (I6 id t p F Hk Hp Hw0) as (r & Hin & Hr).
    rewrite Forall_forall in Hfa. apply (Hfa r); [apply list_elem_of_fmap; by exists (MemMappedRegion.address r, r)|].
    destruct (chain_elem _ _ _ _ _ Hc Hin) as (_ & Hok & _). pose proof (page_end_bounds _ r Hok). lia. }
  destruct (core_free_directory k1 r1 top dirs id t1 (ki_core _ _ _ _ HI1) Hk1) as (v' & Hf & Hco & Hcr & Hw2 & Hfr & Huse);
    rewrite ?Hp1; fold D; try done.
  { destruct (ki_cur _ _ _ _ HI1) as (tc & X1 & X2). rewrite <- X2. intros E. apply Hne. rewrite <- Hc1.
    apply (ki_inj _ _ _ _ HI1 id (current_id k1) t1 tc); [done|done|congruence]. }
  rewrite Hp1 in *. fold D in Hco, Huse. rewrite Hf. cbn [mbind option_bind]. eexists _, r1. split; [done|].
  cbn [vm tasks current_id with_tasks with_vm].
  assert (Hw : forall D' p, D' ∈ dirs -> user_page p -> D' <> D ->
    walk_page (mem (cpu v')) D' p = walk_page (mem (cpu (vm k))) D' p)
    by (intros D' p HD' Hp Hn; rewrite Hw2, Hw1 by done; done).
  assert (Htk : delete id (tasks k1) = delete id (tasks k)).
  { apply map_eq. intros id'. destruct (decide (id' = id)) as [->|Hn]; [by rewrite !lookup_delete_eq|].
    rewrite !lookup_delete_ne by done. by apply Ho1. }
  split; [|split_and!; [done|done|done|by apply Hd1| |by rewrite Hfr, (dr_frames _ _ _ _ _ Hd1)]].
  2:{ intros f Hf0. rewrite Huse, (dr_use _ _ _ _ _ Hd1) by done. f_equal. f_equal. unfold dir_frame. f_equal.
      apply table_frame_ext. intros i Hi%elem_of_seqZ. pose proof (dr_dirs _ _ _ _ _ Hd1) as Hsd.
      split; [by rewrite Hsd by (done || lia)|apply (same_table_of dirs); done || lia]. }
  split; cbn [vm tasks current_id with_tasks with_vm]; [done|..]; rewrite ?Htk.
  - intros D'. rewrite elem_of_difference, elem_of_singleton, I2. split.
    + intros [(id' & t' & X & E) Hn]. exists id', t'. split; [|done]. apply lookup_delete_Some. split; [|done].
      intros <-. apply Hn. unfold D. congruence.
    + intros (id' & t' & [Hn X]%lookup_delete_Some & E). split; [by exists id', t'|]. intros ->. apply Hn.
      by apply (I3 id id' t t').
  - intros id1 id2 t1' t2' [N1 X1]%lookup_delete_Some [N2 X2]%lookup_delete_Some. by apply I3.
  - rewrite Hc1, Hcr, (dr_cr3 _ _ _ _ _ Hd1). destruct I4 as (tc & X1 & X2). exists tc. by rewrite lookup_delete_ne.
  - intros id' t' [Hn X]%lookup_delete_Some. by eapply I5.
  - intros id' t' p F [Hn X]%lookup_delete_Some Hp Hwp. apply (I6 id' t' p F); try done. rewrite <- Hwp. symmetry.
    apply Hw; [apply I2; by exists id', t'|done|]. intros E. apply Hn. by apply (I3 id id' t t').
Qed.

(** ** Page faults *)

(** The regions and tables of [k] with another machine state. *)
Lemma kinv_vm k k' refs refs' top dirs :
  kinv k refs top dirs -> tasks k' = tasks k -> current_id k' = current_id k ->
  cr3 (cpu (vm k')) = cr3 (cpu (vm k)) -> core (vm k') refs' top dirs None ->
  (forall id t p F, tasks k !! id = Some t -> user_page p ->
     walk_page (mem (cpu (vm k'))) (page_directory t) p = Some F ->
     walk_page (mem (cpu (vm k))) (page_directory t) p = None -> exists r, holds (memory_mapping t) (p * 4096) r) ->
  (forall D p, D ∈ dirs -> user_page p -> walk_page (mem (cpu (vm k))) D p <> None ->
     walk_page (mem (cpu (vm k'))) D p = walk_page (mem (cpu (vm k))) D p) ->
  kinv k' refs' top dirs.
Proof.
  intros [I1 I2 I3 I4 I5 I6] Ht Hc Hcr Hco Hnew Hold. split; rewrite ?Ht, ?Hc, ?Hcr; try done.
  intros id t p F Hk Hp Hw. destruct (walk_page (mem (cpu (vm k))) (page_directory t) p) as [G|] eqn:E; [by eapply I6|].
  by eapply Hnew.
Qed.

Section Faults.
Context (page_in : Z -> Z -> Z -> result Z unit * list Z).
Context (page_in_words : forall driver token offset, Forall is_u32 (page_in driver token offset).2).

(** The memory that backs the page is the task's own. *)
Definition private_backing (b : MemoryBacking) : bool :=
  match b with FreeMemory => true | FileBacked _ _ _ shared => negb shared | _ => false end.

(** A page of [k] got a new frame: the only change. *)
Record faulted (k k' : Kernel) (refs refs' : gmap Z Z) (top : Z) (dirs : gset Z) (p F : Z) : Prop := {
  fa_inv : kinv k' refs' top dirs;
  fa_refs : refs' = <[F / 4096 := 1]> refs;
  fa_free : in_use (vm k) (F / 4096) = false;
  fa_mapped : walk_page (mem (cpu (vm k'))) (cr3 (cpu (vm k))) p = Some F;
  fa_other : forall D' q, D' ∈ dirs -> user_page q -> (D', q) <> (cr3 (cpu (vm k)), p) ->
    walk_page (mem (cpu (vm k'))) D' q = walk_page (mem (cpu (vm k))) D' q;
  fa_tasks : tasks k' = tasks k;
  fa_current : current_id k' = current_id k
}.

(** The frame that is mapped last: from the state where it is counted and
    held. *)
Lemma fault_map k refs top dirs region t p F flags v1 r v2 :
  kinv k refs top dirs -> tasks k !! current_id k = Some t -> user_page p ->
  holds (memory_mapping t) (p * 4096) region ->
  walk_page (mem (cpu (vm k))) (cr3 (cpu (vm k))) p = None ->
  in_use (vm k) (F / 4096) = false ->
  core v1 (<[F / 4096 := 1]> refs) top dirs (Some (F / 4096)) -> spare v1 (<[F / 4096 := 1]> refs) top dirs F ->
  cr3 (cpu v1) = cr3 (cpu (vm k)) ->
  (forall D' q, D' ∈ dirs -> user_page q -> walk_page (mem (cpu v1)) D' q = walk_page (mem (cpu (vm k))) D' q) ->
  current_pagedir_map v1 F (p * 4096) flags = Some (r, v2) ->
  r = F /\ (forall k', vm k' = v2 -> tasks k' = tasks k -> current_id k' = current_id k ->
    faulted k k' refs (<[F / 4096 := 1]> refs) top dirs p F) /\
  (forall i, 0 <= i < 1024 -> load (mem (cpu v2)) (F + 4 * i) = load (mem (cpu v1)) (F + 4 * i)).
Proof.
  intros HI Hk Hp Hh Hnone Hfree Hco [P1 P2 P3 P4 P5] Hcr Hsame Hm.
  assert (Hcur : cr3 (cpu (vm k)) ∈ dirs) by apply (ki_core _ _ _ _ HI).
  destruct (core_map_current v1 _ top dirs _ p F flags r v2 Hco Hp) as [-> Hma]; [by rewrite Hcr, Hsame| |done|].
  { split; [done|done|done|by right|by right]. }
  destruct Hma as [A1 A2 A3 A4 A5 _ A6 A7]. rewrite Hcr in *. split; [done|]. split.
  2:{ intros i Hi. apply A5; [done|done|]. by destruct (co_user _ _ _ _ _ A1 (cr3 (cpu (vm k))) p F Hcur Hp A3). }
  intros k' Ek Ht Hc.
  assert (Hother : forall D' q, D' ∈ dirs -> user_page q -> (D', q) <> (cr3 (cpu (vm k)), p) ->
    walk_page (mem (cpu (vm k'))) D' q = walk_page (mem (cpu (vm k))) D' q).
  { intros D' q HD' Hq Hne. rewrite Ek, A4, Hsame by done. done. }
  split; rewrite ?Ek; try done; [|by rewrite <- Ek].
  apply (kinv_vm k k' refs _ top dirs HI Ht Hc); rewrite ?Ek; try done.
  - intros id t' q G Hk' Hq Hw Hw0.
    assert (HD' : page_directory t' ∈ dirs) by (apply (ki_dirs _ _ _ _ HI); by exists id, t').
    destruct (decide ((page_directory t', q) = (cr3 (cpu (vm k)), p))) as [[= E ->]|Hne].
    + destruct (ki_cur _ _ _ _ HI) as (tc & X1 & X2). rewrite Hk in X1. injection X1 as <-.
      assert (id = current_id k) as -> by (apply (ki_inj _ _ _ _ HI id (current_id k) t' t); [done|done|congruence]).
      rewrite Hk in Hk'. injection Hk' as <-. by exists region.
    + rewrite <- Ek, Hother in Hw by done. congruence.
  - intros D' q HD' Hq Hn. rewrite <- Ek. apply Hother; try done. intros [= -> ->]. done.
Qed.

Lemma zip_fst_take {A B} (l : list A) (k : list B) : (zip l k).*1 = take (length k) l.
Proof. revert k. induction l as [|x l IH]; intros [|y k]; [done..|]. cbn. f_equal. apply IH. Qed.

Lemma fill_frame_words m F contents i :
  0 <= i < 1024 -> load (fill_frame m F contents) (F + 4 * i) = default (load m (F + 4 * i)) (contents !! Z.to_nat i).
Proof.
  intros Hi. unfold fill_frame.
  assert (H : forall l m, NoDup l.*1 -> load (foldl (fun m '(i, x) => store m (F + 4 * i) x) m l) (F + 4 * i) =
    default (load m (F + 4 * i)) (list_find (fun e => e.1 = i) l ≫= (fun r => Some r.2.2))).
  { clear. induction l as [|[j y] l IH]; intros m Hnd; [done|]. apply NoDup_cons in Hnd as [Hni Hnd].
    cbn [foldl list_find fst]. rewrite IH by done. case_decide as Hj; cbn in Hj.
    - subst j. rewrite load_store_eq. destruct (list_find _ l) as [[n [j z]]|] eqn:E; [|done].
      apply list_find_Some in E as (E1 & E2 & _). cbn in E2. subst j. exfalso. apply Hni.
      apply list_elem_of_fmap. exists (i, z). split; [done|]. by apply list_elem_of_lookup; exists n.
    - rewrite load_store_ne by lia. by destruct (list_find _ l) as [[n [j' z]]|]. }
  rewrite H; [|rewrite zip_fst_take; eapply sublist_NoDup; [apply NoDup_seqZ|apply sublist_take]].
  destruct (contents !! Z.to_nat i) as [x|] eqn:Hx.
  - rewrite (proj2 (list_find_Some _ _ (Z.to_nat i) (i, x))); [done|]. split; [|split; [done|]].
    + rewrite lookup_zip_with, Hx, lookup_seqZ_lt by lia. cbn. f_equal. f_equal. lia.
    + intros j [y z] Hj Hlt E. cbn in E. subst y. rewrite lookup_zip_with in Hj.
      apply bind_Some in Hj as (y & Hy & Hj). apply bind_Some in Hj as (w & _ & Hj). simplify_eq.
      apply lookup_seqZ in Hy. lia.
  - destruct (list_find _ _) as [[n [j x]]|] eqn:E; [|done]. exfalso.
    apply list_find_Some in E as (E1 & E2 & _). cbn in E2. subst j. rewrite lookup_zip_with in E1.
    apply bind_Some in E1 as (y & Hy & E1). apply bind_Some in E1 as (w & Hw & E1). simplify_eq.
    apply lookup_seqZ in Hy as [-> Hn]. replace (Z.to_nat (0 + Z.of_nat n)) with n in Hx by lia. congruence.
Qed.

Lemma page_of_address address region l :
  0 <= address < USER_TOP -> chain 0 USER_TOP l -> holds l address region ->
  user_page (address / 4096) /\ holds l (address / 4096 * 4096) region /\
  prev_page_barrier address = address / 4096 * 4096 /\ address .& 0xfff = address mod 4096.
Proof.
  intros Ha Hc [Hin Hr]. destruct (chain_elem _ _ _ _ _ Hc Hin) as (X1 & (X2 & X3 & X4) & X5). unfold USER_TOP in *.
  rewrite land_fff. split; [unfold user_page; word|]. split; [split; [done|word]|]. split; [|done].
  rewrite prev_page_barrier_spec by (unfold is_u32; lia). word.
Qed.

(** The page gets the frame [F]: what every successful fault leaves. *)
Lemma fault_done k refs top dirs address region t v1 F flags r v2 :
  kinv k refs top dirs -> tasks k !! current_id k = Some t -> 0 <= address < USER_TOP ->
  holds (memory_mapping t) address region ->
  walk_page (mem (cpu (vm k))) (cr3 (cpu (vm k))) (address / 4096) = None ->
  in_use (vm k) (F / 4096) = false ->
  core v1 (<[F / 4096 := 1]> refs) top dirs (Some (F / 4096)) -> spare v1 (<[F / 4096 := 1]> refs) top dirs F ->
  cr3 (cpu v1) = cr3 (cpu (vm k)) ->
  (forall D' q, D' ∈ dirs -> user_page q -> walk_page (mem (cpu v1)) D' q = walk_page (mem (cpu (vm k))) D' q) ->
  current_pagedir_map v1 F (prev_page_barrier address) flags = Some (r, v2) ->
  PhysicalAddress.add r (address .& 0xfff) = F + address mod 4096 /\
  (forall k', vm k' = v2 -> tasks k' = tasks k -> current_id k' = current_id k ->
    faulted k k' refs (<[F / 4096 := 1]> refs) top dirs (address / 4096) F) /\
  (forall i, 0 <= i < 1024 -> load (mem (cpu v2)) (F + 4 * i) = load (mem (cpu v1)) (F + 4 * i)).
Proof.
  intros HI Hk Ha Hh Hnone Hfree Hco Hsp Hcr Hw Hm. pose proof (ki_chain _ _ _ _ HI _ _ Hk) as Hc.
  destruct (page_of_address address region _ Ha Hc Hh) as (Hp & Hh' & Epb & Emod). rewrite Epb in Hm.
  destruct (fault_map k refs top dirs region t (address / 4096) F flags v1 r v2 HI Hk Hp Hh' Hnone Hfree Hco Hsp Hcr Hw Hm)
    as (-> & H). split; [|done]. destruct (sp_frame _ _ _ _ _ Hsp). unfold PhysicalAddress.add. rewrite Emod. word.
Qed.

(** Zeroed memory. *)
Lemma fault_free_spec k refs top dirs address r k' region t :
  kinv k refs top dirs -> tasks k !! current_id k = Some t -> 0 <= address < USER_TOP ->
  MappedMemory.get_mapping_containing_address (memory_mapping t) address = Some region ->
  MemMappedRegion.backed_by region = FreeMemory ->
  walk_page (mem (cpu (vm k))) (cr3 (cpu (vm k))) (address / 4096) = None ->
  page_on_demand page_in k address = Some (r, k') ->
  exists F, r = Some (F + address mod 4096) /\
    faulted k k' refs (<[F / 4096 := 1]> refs) top dirs (address / 4096) F /\
    forall i, 0 <= i < 1024 -> load (mem (cpu (vm k'))) (F + 4 * i) = 0.
Proof.
  intros HI Hk Ha Hget Hb Hnone H. pose proof (ki_core _ _ _ _ HI) as Hco.
  unfold page_on_demand in H. rewrite Hk in H. cbn [mbind option_bind] in H. rewrite Hget, Hb in H.
  apply (get_mapping_spec 0 USER_TOP) in Hget; [|lia|done|by apply (ki_chain _ _ _ _ HI _ _ Hk)].
  apply bind_Some in H as ([F v1] & Hal & H).
  destruct (core_alloc_tracked (vm k) refs top dirs F v1 Hco Hal) as (Ecpu & Hco1 & Hsp & Hnr & Hfree & _ & _).
  pose proof (spare_fresh _ _ _ _ _ Hsp) as Hfr.
  destruct (clear_frame_spec (cpu v1) top dirs F) as (c' & Hcl & [S1 S2 S3 S4] & L);
    [apply Hco1|apply Hco1|done|]. rewrite Hcl in H. cbn [mbind option_bind] in H.
  destruct (core_fill v1 _ top dirs _ F c' Hco1 Hsp S1) as (Hco2 & Hsp2 & Hw2);
    [rewrite S3; apply Hco1|intros a X1 X2; by rewrite L, X2|].
  apply bind_Some in H as ([fs v2] & Hm & H). injection H as <- <-.
  destruct (fault_done k refs top dirs address region t (with_cpu v1 c') F (get_flags_for_region region) fs v2 HI Hk Ha Hget Hnone Hfree Hco2 Hsp2)
    as (-> & Hfa & Hwords); [by cbn [cpu with_cpu]; rewrite S2, Ecpu| |exact Hm|].
  { intros D' q HD' Hq. cbn [cpu with_cpu]. by rewrite Hw2, Ecpu. }
  exists F. split; [done|]. split; [by apply Hfa|].
  intros i Hi. cbn [vm with_vm]. rewrite Hwords by done. cbn [cpu with_cpu]. destruct Hfr as ([_ HFa] & HFt & _).
  destruct (top_facts _ _ _ (ok_separate _ _ _ (co_ok _ _ _ _ _ Hco)) _ (ok_cr3 _ _ _ (co_ok _ _ _ _ _ Hco))) as [[_ ?] _].
  rewrite L by (by apply not_scratch_slot). by rewrite in_frame_entry.
Qed.

(** The frame of a file page that the driver could not read is given back. *)
Lemma refs_release_new refs f : refs !! f = None -> refs_release (<[f := 1]> refs) f = refs.
Proof. intros H. unfold refs_release. rewrite lookup_insert_eq. cbn [Z.eqb Pos.eqb]. by rewrite delete_insert_id. Qed.

(** What a refused fault leaves. *)
Definition unfaulted (k k' : Kernel) (refs : gmap Z Z) (top : Z) (dirs : gset Z) : Prop :=
  kinv k' refs top dirs /\ tasks k' = tasks k /\ current_id k' = current_id k /\
  (forall D q, D ∈ dirs -> user_page q -> walk_page (mem (cpu (vm k'))) D q = walk_page (mem (cpu (vm k))) D q).

(** A page of a file that is not shared. *)
Lemma fault_file_spec k refs top dirs address r k' region t driver token offset :
  kinv k refs top dirs -> tasks k !! current_id k = Some t -> 0 <= address < USER_TOP ->
  holds (memory_mapping t) address region ->
  walk_page (mem (cpu (vm k))) (cr3 (cpu (vm k))) (address / 4096) = None ->
  page_file page_in k address driver token offset (get_flags_for_region region) false = Some (r, k') ->
  match (page_in driver token offset).1 with
  | Ok _ => exists F, r = Some (F + address mod 4096) /\
      faulted k k' refs (<[F / 4096 := 1]> refs) top dirs (address / 4096) F /\
      forall i, 0 <= i < 1024 -> load (mem (cpu (vm k'))) (F + 4 * i) =
        default (load (mem (cpu (vm k))) (F + 4 * i)) ((page_in driver token offset).2 !! Z.to_nat i)
  | Err _ => r = None /\ unfaulted k k' refs top dirs
  end.
Proof.
  intros HI Hk Ha Hget Hnone H. pose proof (ki_core _ _ _ _ HI) as Hco. unfold page_file in H.
  apply bind_Some in H as ([F v1] & Hal & H).
  destruct (core_alloc_tracked (vm k) refs top dirs F v1 Hco Hal) as (Ecpu & Hco1 & Hsp & Hnr & Hfree & _ & _).
  pose proof (spare_fresh _ _ _ _ _ Hsp) as Hfr. pose proof (page_in_words driver token offset) as Hpw.
  destruct (page_in driver token offset) as [answer contents]. cbn [fst snd] in *.
  pose proof (fill_frame_ok (cpu v1) top dirs F contents (co_ok _ _ _ _ _ Hco1) Hfr Hpw) as Hok1.
  destruct (fill_frame_spec (mem (cpu v1)) F contents) as [_ L]; [apply Hfr|apply (co_ok _ _ _ _ _ Hco1)|done|].
  destruct (core_fill v1 _ top dirs _ F _ Hco1 Hsp Hok1) as (Hco2 & Hsp2 & Hw2);
    [apply Hco1|intros a _ X; by apply L|]. cbn [mem with_mem] in Hw2.
  set (v2 := with_cpu v1 (with_mem (cpu v1) (fill_frame (mem (cpu v1)) F contents))) in *.
  assert (Hw : forall D' q, D' ∈ dirs -> user_page q -> walk_page (mem (cpu v2)) D' q = walk_page (mem (cpu (vm k))) D' q).
  { intros D' q HD' Hq. cbn [cpu with_cpu v2 mem with_mem]. by rewrite Hw2, Ecpu. }
  assert (Hcr : cr3 (cpu v2) = cr3 (cpu (vm k))) by (cbn [cpu with_cpu v2 cr3 with_mem]; by rewrite Ecpu).
  destruct answer as [answer|].
  - cbn [vm with_vm] in H. apply bind_Some in H as ([fs v3] & Hm & H). injection H as <- <-.
    destruct (fault_done k refs top dirs address region t v2 F _ fs v3 HI Hk Ha Hget Hnone Hfree Hco2 Hsp2 Hcr Hw Hm)
      as (-> & Hfa & Hwords).
    exists F. split; [done|]. split; [by apply Hfa|].
    intros i Hi. cbn [vm with_vm]. rewrite Hwords by done. cbn [cpu with_cpu v2 mem with_mem].
    rewrite fill_frame_words by done. by rewrite Ecpu.
  - destruct (frame_div F (sp_frame _ _ _ _ _ Hsp)) as [EF HFr].
    destruct (core_release v2 _ top dirs (F / 4096) Hco2 HFr) as (s' & Hr & Hco3 & _). rewrite EF in Hr.
    change (phys v2) with (phys v1) in Hr. cbn [phys with_cpu v2] in H. rewrite Hr in H. cbn [mbind option_bind] in H.
    injection H as <- <-. split; [done|]. rewrite refs_release_new in Hco3 by done.
    split; [|done]. apply (kinv_vm k _ refs refs top dirs HI); try done.
    + cbn [vm with_vm cpu with_phys]. intros id t' q G Hk' Hq Hw1 Hw0. rewrite Hw in Hw1; [congruence| |done].
      apply (ki_dirs _ _ _ _ HI). by exists id, t'.
    + intros D' q HD' Hq _. cbn [vm with_vm cpu with_phys]. by apply Hw.
Qed.

(** The words a driver is asked for on a fault at [address]. *)
Definition file_answer (region : MemMappedRegion.t) (address : Z) : option (result Z unit * list Z) :=
  match MemMappedRegion.backed_by region with
  | FileBacked driver token offset _ =>
      Some (page_in driver token (u32 (offset + (address / 4096 * 4096 - MemMappedRegion.address region))))
  | _ => None
  end.

(** A fault on a page of the task's own memory: the page gets a frame that was
    free, with zeros or with what the driver stored; or the driver refuses and
    nothing changes. *)
Lemma fault_spec k refs top dirs address r k' region t :
  kinv k refs top dirs -> tasks k !! current_id k = Some t -> 0 <= address < USER_TOP ->
  MappedMemory.get_mapping_containing_address (memory_mapping t) address = Some region ->
  private_backing (MemMappedRegion.backed_by region) = true ->
  walk_page (mem (cpu (vm k))) (cr3 (cpu (vm k))) (address / 4096) = None ->
  page_on_demand page_in k address = Some (r, k') ->
  let filled F (P : Z -> Z -> Prop) := r = Some (F + address mod 4096) /\
    faulted k k' refs (<[F / 4096 := 1]> refs) top dirs (address / 4096) F /\
    forall i, 0 <= i < 1024 -> P i (load (mem (cpu (vm k'))) (F + 4 * i)) in
  match file_answer region address with
  | None => exists F, filled F (fun _ x => x = 0)
  | Some (Ok _, contents) => exists F, filled F (fun i x => x = default (load (mem (cpu (vm k))) (F + 4 * i)) (contents !! Z.to_nat i))
  | Some (Err _, _) => r = None /\ unfaulted k k' refs top dirs
  end.
Proof.
  intros HI Hk Ha Hget Hpriv Hnone H filled. subst filled. pose proof (ki_chain _ _ _ _ HI _ _ Hk) as Hc. unfold file_answer.
  destruct (MemMappedRegion.backed_by region) as [| | |driver token offset shared] eqn:Hb; try done; cbn zeta.
  { destruct (fault_free_spec k refs top dirs address r k' region t HI Hk Ha Hget Hb Hnone H) as (F & H1 & H2 & H3). by exists F. }
  destruct shared; [done|]. unfold page_on_demand in H. rewrite Hk in H. cbn [mbind option_bind] in H. rewrite Hget, Hb in H.
  apply (get_mapping_spec 0 USER_TOP) in Hget; [|lia|done|done].
  destruct (page_of_address address region _ Ha Hc Hget) as (Hp & Hh & Epb & Emod).
  assert (Eoff : VirtualAddress.sub (prev_page_barrier address) (MemMappedRegion.address region) =
    address / 4096 * 4096 - MemMappedRegion.address region).
  { destruct Hh as [Hin Hr]. destruct (chain_elem _ _ _ _ _ Hc Hin) as (? & _). rewrite Epb.
    unfold VirtualAddress.sub, USER_TOP in *. word. }
  rewrite Eoff in H. pose proof (fault_file_spec k refs top dirs address r k' region t driver token _ HI Hk Ha Hget Hnone H) as Hf.
  destruct (page_in driver token _) as [[?|?] contents]; cbn [fst snd] in Hf; [|done].
  destruct Hf as (F & H1 & H2 & H3). by exists F.
Qed.
(** In short. *)
Lemma fault_cases k refs top dirs address r k' region t :
  kinv k refs top dirs -> tasks k !! current_id k = Some t -> 0 <= address < USER_TOP ->
  MappedMemory.get_mapping_containing_address (memory_mapping t) address = Some region ->
  private_backing (MemMappedRegion.backed_by region) = true ->
  walk_page (mem (cpu (vm k))) (cr3 (cpu (vm k))) (address / 4096) = None ->
  page_on_demand page_in k address = Some (r, k') ->
  (exists F, r = Some (F + address mod 4096) /\
     faulted k k' refs (<[F / 4096 := 1]> refs) top dirs (address / 4096) F) \/
  (r = None /\ unfaulted k k' refs top dirs).
Proof.
  intros HI Hk Ha Hget Hpriv Hnone H.
  pose proof (fault_spec k refs top dirs address r k' region t HI Hk Ha Hget Hpriv Hnone H) as Hf. cbn zeta in Hf.
  destruct (file_answer region address) as [[[?|?] ?]|]; [|by right|]; left; destruct Hf as (F & H1 & H2 & _); by exists F.
Qed.
End Faults.

(** ** Mapping regions *)

(** The frame of a new table does not depend on the counts. *)
Lemma table_for_add v D di T fresh v1 F s0 :
  table_for v D di = Some (T, fresh, v1) -> PhysicalMemory.maybe_add_frame_reference (phys v) F = Some s0 ->
  exists v1', table_for (with_phys v s0) D di = Some (T, fresh, v1') /\
    PhysicalMemory.maybe_add_frame_reference (phys v1) F = Some (phys v1') /\ cpu v1' = cpu v1.
Proof.
  intros Htf Hadd. unfold PhysicalMemory.maybe_add_frame_reference in *.
  apply bind_Some in Hadd as ([r t] & Hr & Hadd). simplify_eq. unfold table_for in *. cbn [cpu with_phys].
  destruct (is_present _); [simplify_eq; eexists; split; [done|]; by rewrite Hr|].
  unfold new_frame, unwrap_frame, PhysicalMemory.allocate_frame in *. cbn [phys with_phys] in *.
  apply bind_Some in Htf as ([G v2] & Hn & Htf). simplify_eq. apply bind_Some in Hn as ([r1 s1] & Ha & Hn).
  apply bind_Some in Ha as ([r2 b] & Hb & Ha). simplify_eq.
  cbn [PhysicalMemory.ALLOCATOR PhysicalMemory.with_tracker]. rewrite Hb. cbn [mbind option_bind].
  destruct r2 as [range|]; [|done]. simplify_eq. eexists. split; [done|].
  cbn [phys with_phys PhysicalMemory.FRAME_REF_TRACKER PhysicalMemory.with_bitmap]. by rewrite Hr.
Qed.

(** A frame that a task may be given directly. *)
Definition shareable (v : Vm) (top : Z) (dirs : gset Z) (F : Z) : Prop :=
  is_frame F /\ ~ paging_frame (mem (cpu v)) top dirs F /\ (F / 4096 < frames v -> in_use v (F / 4096) = true).

Lemma map_direct_page v refs top dirs D p F flags v1 s1 :
  core v refs top dirs None -> D ∈ dirs -> user_page p -> walk_page (mem (cpu v)) D p = None ->
  shareable v top dirs F -> ExternalPageDirectory.map v D (p * 4096) F flags = Some v1 ->
  PhysicalMemory.maybe_add_frame_reference (phys v1) F = Some s1 ->
  mapped v (with_phys v1 s1) (refs_add refs (F / 4096)) top dirs D p F.
Proof.
  intros Hco HD Hp Hnone (HF & Hnp & Huse) Hm Hadd. destruct (frame_div F HF) as [EF HFr].
  pose proof Hco as [_ C2 C3 _ _ _].
  assert (Hfr : forall G v1, new_frame v = Some (G, v1) -> fresh_frame (mem (cpu v)) top dirs G)
    by (intros G w; by eapply fresh_new_frame).
  pose proof (external_map v top dirs C2 C3 D HD p 0 Hp ltac:(lia) F flags Hfr HF) as Hem. rewrite Z.add_0_r in Hem.
  destruct (table_for v D (p / 1024)) as [[[T fresh] v2]|] eqn:Htf; [|congruence].
  destruct Hem as (c' & Hc & Heff & [S1 S2 S3 S4]). rewrite Hc in Hm. simplify_eq. cbn [phys with_cpu] in Hadd.
  destruct (core_add_reference v refs top dirs (F / 4096) Hco HFr) as (s0 & Hs0 & Hco0 & Hal). rewrite EF in Hs0.
  destruct (table_for_add v D (p / 1024) T fresh v2 F s0 Htf Hs0) as (v2' & Htf' & Hadd' & Ecpu).
  assert (s1 = phys v2') as -> by congruence.
  change (with_phys (with_cpu v2 c') (phys v2')) with (with_cpu v2' c').
  assert (Hu0 : forall g, in_use (with_phys v s0) g = in_use v g)
    by (intros g; cbn [phys with_phys]; unfold PhysicalMemory.frame_in_use; by rewrite Hal).
  assert (Hf0 : frames (with_phys v s0) = frames v) by (cbn [phys with_phys]; by rewrite Hal).
  destruct (core_table_for (with_phys v s0) _ top dirs _ D p T fresh v2' F flags c' Hco0 HD Hp Hnone) as [A1 A2 A3 A4 A5 A6 A7 A8];
    try done.
  { split; [done|done| |by right|by right]. rewrite Hu0, Hf0. done. }
  { cbn [cpu with_phys]. by rewrite S3. }
  split; try done; [|congruence|].
  - intros G [HG|[HG1 HG2]]%A6; [by left|right]. rewrite Hf0 in HG1. rewrite Hu0 in HG2. done.
  - intros g Hg Hu. apply A8; [done|]. by rewrite Hu0.
Qed.

(** All pages of a direct mapping. *)
Lemma map_direct_spec top dirs D bp F (l : list Z) k refs k' :
  core (vm k) refs top dirs None -> D ∈ dirs -> NoDup l ->
  Forall (fun i => 0 <= i /\ user_page (bp + i) /\ walk_page (mem (cpu (vm k))) D (bp + i) = None /\
    F + i * 4096 < 2 ^ 32 /\ shareable (vm k) top dirs (F + i * 4096)) l -> 0 <= F -> F mod 4096 = 0 ->
  foldl (fun o offset =>
    k ← o;
    v ← ExternalPageDirectory.map (vm k) D (VirtualAddress.add (bp * 4096) offset)
          (PhysicalAddress.add F offset) (PermissionFlags.USER_ACCESS .| PermissionFlags.WRITE_ACCESS);
    p ← PhysicalMemory.maybe_add_frame_reference (phys v) (PhysicalAddress.add F offset);
    Some (with_vm k (with_phys v p))) (Some k) ((fun i => i * 0x1000) <$> l) = Some k' ->
  exists refs' v', k' = with_vm k v' /\ core v' refs' top dirs None /\ cr3 (cpu v') = cr3 (cpu (vm k)) /\
    frames v' = frames (vm k) /\ (forall g, 0 <= g -> in_use (vm k) g = true -> in_use v' g = true) /\
    (forall G, paging_frame (mem (cpu v')) top dirs G -> paging_frame (mem (cpu (vm k))) top dirs G \/
       0 <= G / 4096 < frames (vm k) /\ in_use (vm k) (G / 4096) = false) /\
    (forall i, i ∈ l -> walk_page (mem (cpu v')) D (bp + i) = Some (F + i * 4096)) /\
    (forall D' q, D' ∈ dirs -> user_page q -> ~ (D' = D /\ q - bp ∈ l) ->
       walk_page (mem (cpu v')) D' q = walk_page (mem (cpu (vm k))) D' q).
Proof.
  intros Hco HD Hnd Hl HF0 HFa. revert k'. induction l as [|i l IH] using rev_ind; intros k'.
  { intros [= <-]. exists refs, (vm k). split; [by destruct k|]. split; [done|]. split; [done|]. split; [done|].
    split; [done|]. split; [by left|]. split; [by intros i ?%elem_of_nil|done]. }
  apply NoDup_app in Hnd as (Hnd & Hni & _). apply Forall_app in Hl as [Hl Hi]. rewrite Forall_singleton in Hi.
  destruct Hi as (Hi0 & Hp & Hnone & Hlt & Hsh). rewrite fmap_app, foldl_app. cbn [fmap list_fmap foldl].
  intros H. apply bind_Some in H as (k1 & Hk1 & H). apply bind_Some in H as (v1 & Hm & H).
  apply bind_Some in H as (s1 & Hadd & H). simplify_eq.
  destruct (IH Hnd Hl k1 Hk1) as (r1 & w1 & -> & Hco1 & Hcr1 & Hfr1 & Hu1 & Hpg1 & Hw1 & Ho1). cbn [vm with_vm] in *.
  assert (Ea : VirtualAddress.add (bp * 4096) (i * 0x1000) = (bp + i) * 4096)
    by (unfold VirtualAddress.add, user_page in *; word).
  assert (Eb : PhysicalAddress.add F (i * 0x1000) = F + i * 4096) by (unfold PhysicalAddress.add; word).
  rewrite Ea, Eb in *. assert (Hnl : i ∉ l) by (intros Hin; apply (Hni i Hin); set_solver).
  assert (Hnone1 : walk_page (mem (cpu w1)) D (bp + i) = None).
  { rewrite Ho1; [done|done|done|]. intros [_ Hin]. apply Hnl. by replace (bp + i - bp) with i in Hin by lia. }
  assert (Hsh1 : shareable w1 top dirs (F + i * 4096)).
  { destruct Hsh as (X1 & X2 & X3). split; [done|]. split.
    - intros [HG|[HG1 HG2]]%Hpg1; [done|]. rewrite X3 in HG2 by lia. done.
    - rewrite Hfr1. intros Hlt'. apply Hu1; [destruct X1; word|by apply X3]. }
  destruct (map_direct_page w1 r1 top dirs D (bp + i) (F + i * 4096) _ v1 s1 Hco1 HD Hp Hnone1 Hsh1 Hm Hadd)
    as [A1 A2 A3 A4 _ A6 A7 A8].
  eexists _, (with_phys v1 s1). split; [done|]. split; [exact A1|]. split; [congruence|]. split; [congruence|].
  split; [intros g Hg Hu; by apply A8, Hu1|]. split_and!.
  - intros G [HG|[HG1 HG2]]%A6; [by apply Hpg1|]. right. rewrite Hfr1 in HG1. split; [done|].
    destruct (in_use (vm k) (G / 4096)) eqn:E; [|done]. rewrite Hu1 in HG2 by (done || lia). done.
  - intros j Hj. apply elem_of_app in Hj as [Hj|Hj].
    + assert (Hne : (D, bp + j) <> (D, bp + i)) by (intros [= X]; apply Hnl; by replace i with j by lia).
      rewrite A4; [by apply Hw1|done| |done]. rewrite Forall_forall in Hl. by apply Hl.
    + apply list_elem_of_singleton in Hj as ->. done.
  - intros D' q HD' Hq Hn. rewrite A4, Ho1; try done.
    + intros [-> Hin]. apply Hn. split; [done|]. set_solver.
    + intros [= -> ->]. apply Hn. split; [done|]. replace (bp + i - bp) with i by lia. set_solver.
Qed.

Definition request_ok (l : list (Z * MemMappedRegion.t)) (addr : option Z) (n : Z) : Prop :=
  0 < n /\ n + 0xfff + USER_TOP < 2 ^ 32 /\
  match addr with
  | Some a => 0 <= a /\ a mod 4096 = 0 /\ a + MappedMemory.round_size n <= USER_TOP
  | None => exists x, fits (MappedMemory.round_size n) 0 USER_TOP l x
  end.

Definition direct_ok (v : Vm) (top : Z) (dirs : gset Z) (b : MemoryBacking) (n : Z) : Prop :=
  match b with
  | Direct F => 0 <= F /\ F mod 4096 = 0 /\ F + MappedMemory.round_size n <= 2 ^ 32 /\
      forall i, 0 <= i < MappedMemory.round_size n / 4096 -> shareable v top dirs (F + i * 4096)
  | _ => True
  end.

(** Where page [p] leads after a region of [n] bytes is mapped at [loc]. *)
Definition region_target (b : MemoryBacking) (loc n p : Z) (old : option Z) : option Z :=
  match b with
  | Direct F => if decide (loc <= p * 4096 < loc + MappedMemory.round_size n) then Some (F + (p * 4096 - loc)) else old
  | _ => old
  end.

Lemma insert_holds l loc n b x r :
  chain 0 USER_TOP l -> 0 < n -> n + 0xfff + USER_TOP < 2 ^ 32 -> loc mod 4096 = 0 ->
  fits (MappedMemory.round_size n) 0 USER_TOP l loc ->
  let region := {| MemMappedRegion.address := loc; MemMappedRegion.size := n; MemMappedRegion.backed_by := b |} in
  chain 0 USER_TOP (BTreeMap.insert loc region l) /\
  (holds (BTreeMap.insert loc region l) x r <-> (r = region /\ loc <= x < loc + n) \/ holds l x r).
Proof.
  intros Hc Hn Hov Hal (H1 & H2 & H3) region. destruct (round_size_spec n Hn ltac:(unfold USER_TOP in *; lia)) as (Hrd & Hb & Hmul & _).
  assert (Hok : region_ok loc region) by done.
  assert (Hpe : page_end region = loc + MappedMemory.round_size n) by (unfold page_end; simpl; word).
  rewrite <- Hpe in H2, H3. split; [by apply chain_insert|].
  unfold holds. rewrite (chain_insert_elem 0 USER_TOP) by done. split.
  - intros [[Heq|Hin] Hx]; [|by right]. left. by injection Heq as ? ->.
  - intros [[-> Hx]|[Hin Hx]]; (split; [|done]); [by left|by right].
Qed.

(** A request for memory: the new region, and for direct memory the pages. *)
Lemma map_spec k refs top dirs id t addr n b r k' :
  kinv k refs top dirs -> tasks k !! id = Some t -> request_ok (memory_mapping t) addr n ->
  direct_ok (vm k) top dirs b n -> map_memory_for_task k id addr n b = Some (r, k') ->
  exists refs', kinv k' refs' top dirs /\ current_id k' = current_id k /\
    (forall g, 0 <= g -> in_use (vm k) g = true -> in_use (vm k') g = true) /\
    match r with
    | Err _ => tasks k' = tasks k /\ vm k' = vm k /\ refs' = refs
    | Ok loc => loc mod 4096 = 0 /\ fits (MappedMemory.round_size n) 0 USER_TOP (memory_mapping t) loc /\
        tasks k' = <[id := {| page_directory := page_directory t; memory_mapping :=
          BTreeMap.insert loc {| MemMappedRegion.address := loc; MemMappedRegion.size := n;
            MemMappedRegion.backed_by := b |} (memory_mapping t) |}]> (tasks k) /\
        forall D p, D ∈ dirs -> user_page p -> walk_page (mem (cpu (vm k'))) D p =
          let old := walk_page (mem (cpu (vm k))) D p in
          if decide (D = page_directory t) then region_target b loc n p old else old
    end.
Proof.
  intros HI Hk (Hn & Hov & Hreq) Hdir H. pose proof (ki_chain _ _ _ _ HI id t Hk) as Hc.
  unfold map_memory_for_task in H. rewrite Hk in H.
  destruct (map_memory_places USER_TOP (memory_mapping t) addr n b) as [(loc & Hm & Hal & Hfit)|Hm]; try done;
    rewrite Hm in H.
  2:{ simplify_eq. exists refs. assert (Et : tasks (with_mapping k id t (memory_mapping t)) = tasks k).
      { cbn [tasks with_mapping with_tasks]. rewrite insert_id; [done|]. by destruct t. }
      split; [|done]. destruct HI as [I1 I2 I3 I4 I5 I6]. split; rewrite ?Et; done. }
  set (region := {| MemMappedRegion.address := loc; MemMappedRegion.size := n; MemMappedRegion.backed_by := b |}) in *.
  set (l' := BTreeMap.insert loc region (memory_mapping t)) in *.
  destruct (round_size_spec n Hn ltac:(unfold USER_TOP in *; lia)) as (Hrd & Hb & Hmul & Hpos).
  assert (Hc' : chain 0 USER_TOP l') by (by apply (insert_holds (memory_mapping t) loc n b 0 region)).
  assert (Hh' : forall x r, holds l' x r <-> (r = region /\ loc <= x < loc + n) \/ holds (memory_mapping t) x r)
    by (intros x r'; by apply (insert_holds (memory_mapping t) loc n b x r')).
  assert (HD : page_directory t ∈ dirs) by (apply (ki_dirs _ _ _ _ HI); by exists id, t).
  apply bind_Some in H as (k2 & Hk2 & H). simplify_eq.
  destruct b as [F| | |]; cbn [region_target].
  2-4: simplify_eq; exists refs; split; [|split_and!; [done|done|done|done|done|intros; by case_decide]];
    apply (kinv_update k _ refs refs top dirs id t l'); try done; [apply HI|];
    intros p G Hp Hw; destruct (ki_region _ _ _ _ HI id t p G Hk Hp Hw) as (r' & Hr'); exists r'; apply Hh'; by right.
  unfold map_direct, page_offsets in Hk2. destruct Hfit as (Hf1 & Hf2 & Hf3).
  rewrite (proj2 (Z.ltb_ge _ _)) in Hk2 by (unfold USER_TOP in *; lia). cbn [mbind option_bind] in Hk2.
  destruct Hdir as (HF0 & HFa & HFe & Hsh). set (cnt := (n + 0xfff) / 0x1000) in *. set (bp := loc / 4096).
  assert (Hcnt : MappedMemory.round_size n = cnt * 4096) by (subst cnt; word).
  assert (Ebp : bp * 4096 = loc) by (subst bp; word).
  assert (Hpg : forall i, 0 <= i < cnt -> user_page (bp + i)) by (intros i Hi; unfold user_page, USER_TOP in *; lia).
  assert (Hempty : forall p, user_page p -> loc <= p * 4096 < loc + MappedMemory.round_size n ->
    walk_page (mem (cpu (vm k))) (page_directory t) p = None).
  { intros p Hp Hr. destruct (walk_page (mem (cpu (vm k))) (page_directory t) p) as [G|] eqn:Hw; [exfalso|done].
    destruct (ki_region _ _ _ _ HI id t p G Hk Hp Hw) as (r' & Hin & Hx). unfold free_range in Hf3.
    rewrite Forall_forall in Hf3. specialize (Hf3 _ Hin). cbn in Hf3.
    destruct (chain_elem _ _ _ _ _ Hc Hin) as (_ & Hok & _). pose proof (page_end_bounds _ _ Hok). word. }
  rewrite <- Ebp in Hk2.
  destruct (map_direct_spec top dirs (page_directory t) bp F (seqZ 0 cnt) (with_mapping k id t l') refs k')
    as (refs' & v' & -> & Hco & Hcr & Hfr & Hu & _ & Hw & Ho); [apply HI|done|apply NoDup_seqZ| |done|done|exact Hk2|].
  { apply Forall_forall. intros i Hi%elem_of_seqZ. split; [lia|]. split; [apply Hpg; lia|].
    split; [apply Hempty; [apply Hpg; lia|lia]|]. split; [lia|]. apply Hsh. rewrite Hcnt. word. }
  cbn [vm with_vm with_mapping with_tasks current_id tasks] in *.
  assert (Hwalk : forall D p, D ∈ dirs -> user_page p -> walk_page (mem (cpu v')) D p =
    let old := walk_page (mem (cpu (vm k))) D p in
    if decide (D = page_directory t)
    then if decide (loc <= p * 4096 < loc + MappedMemory.round_size n) then Some (F + (p * 4096 - loc)) else old else old).
  { intros D p HDd Hp. cbn zeta. destruct (decide (D = page_directory t)) as [->|Hne]; [|apply Ho; [done|done|by intros []]].
    case_decide as Hr.
    - replace p with (bp + (p - bp)) at 1 by lia. rewrite Hw by (apply elem_of_seqZ; lia). f_equal. lia.
    - apply Ho; try done. intros [_ Hin%elem_of_seqZ]. apply Hr. lia. }
  exists refs'. split; [|split_and!; try done; by rewrite ?Ebp].
  apply (kinv_update k _ refs refs' top dirs id t l'); try done.
  - intros D p HDd Hp Hne. cbn [vm with_vm]. rewrite Hwalk by done. cbn zeta. by rewrite decide_False.
  - intros p G Hp. cbn [vm with_vm]. rewrite Hwalk by done. cbn zeta. rewrite decide_True by done.
    case_decide as Hr; intros Hw'.
    + exists region. apply Hh'. left. split; [done|]. word.
    + destruct (ki_region _ _ _ _ HI id t p G Hk Hp Hw') as (r' & Hr'). exists r'. apply Hh'. by right.
Qed.

(** ** Contiguous memory *)

Lemma core_alloc_frames v refs top dirs n F v1 :
  core v refs top dirs None -> 0 < n < 2 ^ 20 ->
  unwrap_frame v (PhysicalMemory.allocate_frames (phys v) n) = Some (F, v1) ->
  cpu v1 = cpu v /\ core v1 refs top dirs None /\ F mod 4096 = 0 /\ 0 <= F /\ F + n * 4096 <= 2 ^ 32 /\
  frames v1 = frames v /\
  forall i, 0 <= i < n -> refs !! ((F + i * 4096) / 4096) = None /\ in_use v ((F + i * 4096) / 4096) = false /\
    spare v1 refs top dirs (F + i * 4096).
Proof.
  intros Hco Hn Hal. unfold unwrap_frame, PhysicalMemory.allocate_frames in Hal.
  pose proof (co_phys _ _ _ _ _ Hco) as Hinv.
  destruct (PhysicalMemory.allocate_frames_cases (phys v) refs n Hinv Hn)
    as [(p & b & Ha & Hp & Hle & Hfree & Hwf & Hlen & Huse)|Ha]; rewrite Ha in Hal; cbn [mbind option_bind] in Hal;
    [|done]. simplify_eq. unfold PhysicalMemory.frame_address. cbn.
  destruct (PhysicalMemory.inv_bitmap _ _ Hinv) as [_ Hl]. change (2 ^ 17) with 131072 in Hl.
  assert (Hmono : forall g, 0 <= g -> in_use v g = true -> FrameBitmap.in_use b g = true)
    by (intros g Hg Hu; by rewrite Huse, Hu).
  split; [done|]. split; [by apply core_more_used; [..|by apply PhysicalMemory.inv_more_used|done|]|].
  split; [word|]. split; [lia|]. split; [lia|]. split; [by rewrite Hlen|]. intros i Hi.
  replace (p * 4096 + i * 4096) with ((p + i) * 4096) by lia. replace ((p + i) * 4096 / 4096) with (p + i) by word.
  assert (Hf : in_use v (p + i) = false) by (apply Hfree; lia).
  split; [|split; [done|]].
  - destruct (refs !! (p + i)) as [c|] eqn:Hc; [|done]. apply (PhysicalMemory.inv_tracked _ _ Hinv) in Hc as (_ & _ & Hu).
    congruence.
  - apply (core_spare v refs top dirs None); [done|lia|done|done|].
    unfold PhysicalMemory.frame_in_use. cbn. rewrite Huse by lia. apply orb_true_intro. right. lia.
Qed.

Lemma map_range_spec refs top dirs F flags bp (l : list Z) v v' :
  core v refs top dirs None -> NoDup l ->
  Forall (fun i => 0 <= i /\ user_page (bp + i) /\ walk_page (mem (cpu v)) (cr3 (cpu v)) (bp + i) = None /\
    F + i * 4096 < 2 ^ 32 /\ refs !! ((F + i * 4096) / 4096) = None /\ spare v refs top dirs (F + i * 4096)) l ->
  0 <= F -> F mod 4096 = 0 ->
  foldl (fun o i => v ← o;
    current_pagedir_map_explicit v (PhysicalAddress.add F (u32 (i * 0x1000)))
      (VirtualAddress.add (bp * 4096) (u32 (i * 0x1000))) flags) (Some v) l = Some v' ->
  core v' refs top dirs None /\ cr3 (cpu v') = cr3 (cpu v) /\ frames v' = frames v /\
    (forall g, 0 <= g -> in_use v g = true -> in_use v' g = true) /\
    (forall G, paging_frame (mem (cpu v')) top dirs G -> paging_frame (mem (cpu v)) top dirs G \/
       0 <= G / 4096 < frames v /\ in_use v (G / 4096) = false) /\
    (forall i, i ∈ l -> walk_page (mem (cpu v')) (cr3 (cpu v)) (bp + i) = Some (F + i * 4096)) /\
    (forall D' q, D' ∈ dirs -> user_page q -> ~ (D' = cr3 (cpu v) /\ q - bp ∈ l) ->
       walk_page (mem (cpu v')) D' q = walk_page (mem (cpu v)) D' q).
Proof.
  intros Hco Hnd Hl HF0 HFa. assert (Hcr : cr3 (cpu v) ∈ dirs) by apply Hco.
  revert v'. induction l as [|i l IH] using rev_ind; intros v'.
  { intros [= <-]. split; [done|]. split; [done|]. split; [done|]. split; [done|].
    split; [by left|]. split; [by intros i ?%elem_of_nil|done]. }
  apply NoDup_app in Hnd as (Hnd & Hni & _). apply Forall_app in Hl as [Hl Hi]. rewrite Forall_singleton in Hi.
  destruct Hi as (Hi0 & Hp & Hnone & Hlt & Href & Hsp). rewrite foldl_snoc.
  intros H. apply bind_Some in H as (w1 & Hw1 & H).
  destruct (IH Hnd Hl w1 Hw1) as (Hco1 & Hcr1 & Hfr1 & Hu1 & Hpg1 & Hwk1 & Ho1).
  assert (Ea : VirtualAddress.add (bp * 4096) (u32 (i * 0x1000)) = (bp + i) * 4096)
    by (unfold VirtualAddress.add, user_page in *; word).
  assert (Eb : PhysicalAddress.add F (u32 (i * 0x1000)) = F + i * 4096) by (unfold PhysicalAddress.add; word).
  rewrite Ea, Eb in H. assert (Hnl : i ∉ l) by (intros Hin; apply (Hni i Hin); set_solver).
  assert (Hnone1 : walk_page (mem (cpu w1)) (cr3 (cpu w1)) (bp + i) = None).
  { rewrite Hcr1, Ho1; [done|done|done|]. intros [_ Hin]. apply Hnl. by replace (bp + i - bp) with i in Hin by lia. }
  destruct (core_map_current w1 refs top dirs None (bp + i) (F + i * 4096) flags (F + i * 4096) v' Hco1 Hp Hnone1)
    as [_ [A1 A2 A3 A4 _ A6 A7 A8]].
  { destruct Hsp as [P1 P2 P3 P4 P5]. split; [done| | |by left|by left].
    - intros [HG|[HG1 HG2]]%Hpg1; [done|]. by rewrite P3 in HG2.
    - intros _. apply Hu1; [lia|done]. }
  { unfold current_pagedir_map. rewrite H. done. }
  rewrite Hcr1 in *. split; [done|]. split; [congruence|]. split; [congruence|].
  split; [intros g Hg Hu; by apply A8, Hu1|]. split_and!.
  - intros G [HG|[HG1 HG2]]%A6; [by apply Hpg1|]. right. rewrite Hfr1 in HG1. split; [done|].
    destruct (in_use v (G / 4096)) eqn:E; [|done]. rewrite Hu1 in HG2 by (done || lia). done.
  - intros j Hj. apply elem_of_app in Hj as [Hj|Hj].
    + assert (Hne : (cr3 (cpu v), bp + j) <> (cr3 (cpu v), bp + i)) by (intros [= X]; apply Hnl; by replace i with j by lia).
      rewrite A4; [by apply Hwk1|done| |done]. rewrite Forall_forall in Hl. by apply Hl.
    + apply list_elem_of_singleton in Hj as ->. done.
  - intros D' q HD' Hq Hn. rewrite A4, Ho1; try done.
    + intros [-> Hin]. apply Hn. split; [done|]. set_solver.
    + intros [= -> ->]. apply Hn. split; [done|]. replace (bp + i - bp) with i by lia. set_solver.
Qed.

(** The first access to contiguous memory maps all of it. *)
Lemma dma_spec page_in k refs top dirs t region address r k' :
  kinv k refs top dirs -> tasks k !! current_id k = Some t -> 0 <= address < USER_TOP ->
  MappedMemory.get_mapping_containing_address (memory_mapping t) address = Some region ->
  MemMappedRegion.backed_by region = IsaDma ->
  (forall p, user_page p -> MemMappedRegion.address region <= p * 4096 < page_end region ->
     walk_page (mem (cpu (vm k))) (cr3 (cpu (vm k))) p = None) ->
  page_on_demand page_in k address = Some (r, k') ->
  kinv k' refs top dirs /\ tasks k' = tasks k /\ current_id k' = current_id k /\
  exists F, is_frame F /\ r = Some (F + (address - MemMappedRegion.address region)) /\
    forall D p, D ∈ dirs -> user_page p -> walk_page (mem (cpu (vm k'))) D p =
      if decide (D = cr3 (cpu (vm k)) /\ MemMappedRegion.address region <= p * 4096 < page_end region)
      then Some (F + (p * 4096 - MemMappedRegion.address region)) else walk_page (mem (cpu (vm k))) D p.
Proof.
  intros HI Hk Ha Hget Hb Hempty H. pose proof (ki_chain _ _ _ _ HI _ _ Hk) as Hc.
  pose proof (proj1 (get_mapping_spec 0 USER_TOP _ _ _ ltac:(lia) ltac:(done) Hc) Hget) as Hh.
  destruct (page_of_address address region _ Ha Hc Hh) as (Hp & [Hin Hpr] & Epb & Emod). destruct Hh as [_ Hr].
  destruct (chain_elem _ _ _ _ _ Hc Hin) as (X1 & Hok & X5). pose proof (page_end_bounds _ _ Hok) as (Hpb & _ & Hpm).
  destruct Hok as (_ & X3 & X4). unfold page_on_demand in H. rewrite Hk in H. cbn [mbind option_bind] in H.
  rewrite Hget, Hb in H. apply bind_Some in H as ([range_start v'] & Hd & H). simplify_eq.
  unfold map_dma in Hd. apply bind_Some in Hd as ([F v1] & Hal & Hd). apply bind_Some in Hd as (v2 & Hf & Hd). simplify_eq.
  set (a := MemMappedRegion.address region) in *. set (bp := a / 4096). unfold USER_TOP in *.
  assert (Ebp : bp * 4096 = a) by (subst bp; word).
  assert (Ecnt : MemMappedRegion.page_count region * 4096 = page_end region - a).
  { unfold MemMappedRegion.page_count, page_end. fold a. word. }
  set (cnt := MemMappedRegion.page_count region) in *. rewrite <- Ebp in Hf.
  destruct (core_alloc_frames (vm k) refs top dirs cnt range_start v1 (ki_core _ _ _ _ HI)) as (Ecpu & Hco1 & HFa & HF0 & HFe & Hfr & Hsp);
    [lia|done|].
  assert (Hpg : forall i, 0 <= i < cnt -> user_page (bp + i)) by (intros i Hi; unfold user_page; lia).
  destruct (map_range_spec refs top dirs range_start (get_flags_for_region region) bp (seqZ 0 cnt) v1 v' Hco1) as (Hco2 & Hcr2 & _ & _ & _ & Hw & Ho);
    [apply NoDup_seqZ| |done|done|done|].
  { apply Forall_forall. intros i Hi%elem_of_seqZ. destruct (Hsp i ltac:(lia)) as (Y1 & _ & Y3).
    split; [lia|]. split; [apply Hpg; lia|]. rewrite Ecpu. split; [apply Hempty; [apply Hpg; lia|lia]|].
    split; [lia|done]. }
  rewrite Ecpu in *. cbn [vm with_vm].
  assert (Hwalk : forall D p, D ∈ dirs -> user_page p -> walk_page (mem (cpu v')) D p =
    if decide (D = cr3 (cpu (vm k)) /\ a <= p * 4096 < page_end region)
    then Some (range_start + (p * 4096 - a)) else walk_page (mem (cpu (vm k))) D p).
  { intros D p HD Hpp. case_decide as Hd0.
    - destruct Hd0 as [-> Hr0]. replace p with (bp + (p - bp)) at 1 by lia.
      rewrite Hw by (apply elem_of_seqZ; lia). f_equal. lia.
    - apply Ho; try done. intros [-> Hin'%elem_of_seqZ]. apply Hd0. split; [done|lia]. }
  split; [|split; [done|split; [done|]]].
  - apply (kinv_vm k _ refs refs top dirs HI); try done; cbn [vm with_vm].
    + intros id t' p G Hk' Hpp Hw1 Hw0.
      assert (HD' : page_directory t' ∈ dirs) by (apply (ki_dirs _ _ _ _ HI); by exists id, t').
      rewrite Hwalk in Hw1 by done. case_decide as Hd0; [|congruence]. destruct Hd0 as [E Hr0].
      destruct (ki_cur _ _ _ _ HI) as (tc & Y1 & Y2). rewrite Hk in Y1. injection Y1 as <-.
      assert (id = current_id k) as -> by (apply (ki_inj _ _ _ _ HI id (current_id k) t' t); [done|done|congruence]).
      rewrite Hk in Hk'. injection Hk' as <-. exists region. split; [done|]. fold a. word.
    + intros D p HD Hpp Hn. rewrite Hwalk by done. rewrite decide_False; [done|]. intros [-> Hr0].
      apply Hn. by apply Hempty.
  - exists range_start. split; [split; [unfold is_u32; lia|done]|]. split; [|exact Hwalk].
    f_equal. unfold PhysicalAddress.add, VirtualAddress.sub. rewrite Epb, Emod. fold a. word.
Qed.

(** ** Switching *)

Lemma switch_spec k refs top dirs id k' :
  kinv k refs top dirs -> switch_space k id = Some k' ->
  kinv k' refs top dirs /\ tasks k' = tasks k /\ current_id k' = id /\ phys (vm k') = phys (vm k) /\
  mem (cpu (vm k')) = mem (cpu (vm k)).
Proof.
  intros [I1 I2 I3 I4 I5 I6] H. unfold switch_space in H. apply bind_Some in H as (t & Hk & H). simplify_eq.
  split; [|done]. split; cbn [vm tasks current_id cpu with_cpu]; try done; [|by exists t].
  destruct I1 as [C1 [Hs Hc Hcr] C3 C4 C5 C6]. split; cbn [cpu phys with_cpu mem Mmu.set_current_pagedir]; try done.
  split; [done|by intros p F _ ?|]. apply I2. by exists id, t.
Qed.

(** The hardware caches a translation. *)
Lemma tlb_fill_spec k refs top dirs va :
  kinv k refs top dirs -> is_u32 va ->
  kinv (with_vm k (with_cpu (vm k) (Mmu.tlb_fill (cpu (vm k)) va))) refs top dirs.
Proof.
  intros [I1 I2 I3 I4 I5 I6] Hva. unfold Mmu.tlb_fill.
  assert (Eva : va .& 0xfffff000 = va / 4096 * 4096 + 0) by (rewrite land_page_mask by done; word).
  rewrite Eva, walk_walk_page by lia.
  destruct (walk_page (mem (cpu (vm k))) (cr3 (cpu (vm k))) (va / 4096)) as [F|] eqn:Hw; cbn [fmap option_fmap option_map].
  2:{ split; by destruct k as [[] ? ? ? ?]. }
  rewrite Z.add_0_r. split; cbn [vm with_vm tasks current_id cpu with_cpu]; try done.
  destruct I1 as [C1 [Hs Hc Hcr] C3 C4 C5 C6]. split; cbn [cpu phys with_cpu mem with_tlb]; try done. split; [done| |done].
  intros p G Hp Ht. cbn [tlb with_tlb mem cr3] in *. rewrite shiftr_div in Ht by lia. change (2 ^ 12) with 4096 in Ht.
  apply lookup_insert_Some in Ht as [[<- <-]|[_ Ht]]; [done|by apply Hc].
Qed.

(** ** Another backing for a region *)

Lemma replace_backing_spec l addr backing old l' : forall lo hi,
  replace_backing l addr backing = Some (old, l') -> chain lo hi l ->
  chain lo hi l' /\ forall x, (exists r, holds l x r) -> exists r, holds l' x r.
Proof.
  revert l'. induction l as [|[key r] l IH]; intros l' lo hi H Hc; [done|]. cbn [replace_backing] in H.
  destruct Hc as (H1 & Hok & Hc). pose proof Hok as (Hk & Hal & Hs).
  destruct (MemMappedRegion.contains_address r addr).
  - injection H as <- <-. split; [by split|]. intros x (r' & Hin & Hx). apply elem_of_cons in Hin as [Heq|Hin].
    + injection Heq as E ->. exists {| MemMappedRegion.address := MemMappedRegion.address r;
        MemMappedRegion.size := MemMappedRegion.size r; MemMappedRegion.backed_by := backing |}.
      split; [rewrite E; by left|done].
    + exists r'. split; [by right|done].
  - apply bind_Some in H as ([old' l2] & H & E). injection E as <- <-.
    destruct (IH l2 _ _ H Hc) as [Hc2 Hh]. split; [by split|]. intros x (r' & Hin & Hx).
    apply elem_of_cons in Hin as [Heq|Hin]; [exists r'; split; [rewrite Heq; by left|done]|].
    destruct (Hh x) as (r2 & Hin2 & Hx2); [by exists r'|]. exists r2. split; [by right|done].
Qed.

Lemma remap_spec k refs top dirs id addr backing r k' :
  kinv k refs top dirs -> remap_memory_for_task k id addr backing = (r, k') ->
  kinv k' refs top dirs /\ current_id k' = current_id k /\ vm k' = vm k.
Proof.
  intros HI H. unfold remap_memory_for_task in H. destruct (tasks k !! id) as [t|] eqn:Hk; [|by simplify_eq].
  destruct (replace_backing (memory_mapping t) addr backing) as [[old l']|] eqn:Hr; [|by simplify_eq].
  simplify_eq. split; [|done].
  destruct (replace_backing_spec _ _ _ _ _ _ _ Hr (ki_chain _ _ _ _ HI id t Hk)) as [Hc Hh].
  apply (kinv_update k _ refs refs top dirs id t l'); try done; [apply HI|].
  intros p F Hp Hw. apply Hh. by apply (ki_region _ _ _ _ HI id t p F).
Qed.
