(* ===== verification/Sharing.v ===== *)
(** * Shared buffers

    [share_buffer] and [release_buffer] of [kernel/src/memory/shared.rs] over
    the address spaces: the pages of a buffer of the running task appear in
    another task, and go away again. *)

From S2P Require Import Prelude Address Bitmap Tracking PhysicalMemory MappedMemory Collections Mmu MmuSpec Paging PagingSpec VmInvariant AddressSpaces.
Import PageTableEntry.
Import MapFacts SearchFacts UnmapFacts LookupFacts MappedMemoryProps.

(** The address of a page of the running task. *)
Lemma current_physical v top dirs p o :
  machine_ok (cpu v) top dirs -> user_page p -> 0 <= o < 4096 ->
  maybe_get_current_physical_address v (p * 4096 + o) =
    Some ((fun F => F + o) <$> walk_page (mem (cpu v)) (cr3 (cpu v)) p).
Proof.
  intros Hok Hp Ho. unfold user_page in Hp. set (c := cpu v). set (D := cr3 c). destruct (page_index p o Ho) as (E1 & E2 & _ & E4).
  pose proof (ok_separate _ _ _ Hok) as Hs. pose proof (ok_cr3 _ _ _ Hok) as Hcr. fold c in Hs, Hcr.
  assert (Hdi : 0 <= p / 1024 < 768 /\ 0 <= p mod 1024 < 1024) by word.
  unfold maybe_get_current_physical_address. rewrite E1, E2, E4. change PageTable.current_directory with (0xfffff * 4096).
  rewrite (get_sees c 0xfffff D) by (apply (current_sees_dir v top dirs Hok) || lia). cbn [mbind option_bind].
  replace (u32 (0xffc00000 + p / 1024 * 0x1000)) with ((0xffc00 + p / 1024) * 4096) by word.
  unfold walk_page. fold (pde_addr D p). destruct (is_present (load (mem c) (pde_addr D p))) eqn:Hpr; cbn [negb]; [|done].
  set (T := table_of (mem c) D (p / 1024)).
  destruct (table_facts _ _ _ Hs D Hcr (p / 1024)) as (HTf & HTd & HTt); [lia|done|].
  destruct (table_sees v top dirs p o ltac:(lia) ltac:(lia) Ho c T Hok eq_refl) as [Hsee _]; [|done|done|].
  { split_and!; [apply (sep_words _ _ _ Hs)|done|done]. }
  rewrite (get_sees c _ T) by (done || lia). cbn [mbind option_bind]. change (pte_addr (mem c) D p) with (T + 4 * (p mod 1024)).
  cbn zeta. destruct (is_present (load (mem c) (T + 4 * (p mod 1024)))) eqn:Hpe; cbn [negb]; [|done].
  destruct (get_address_frame _ (sep_words _ _ _ Hs (T + 4 * (p mod 1024)))) as [? ?].
  cbn. unfold PhysicalAddress.add. f_equal. f_equal. word.
Qed.

(** The directory of the running task. *)
Lemma kinv_cr3 k refs top dirs t :
  kinv k refs top dirs -> tasks k !! current_id k = Some t -> cr3 (cpu (vm k)) = page_directory t.
Proof. intros HI Hk. destruct (ki_cur _ _ _ _ HI) as (t' & Hk' & <-). congruence. Qed.

(** A free place is taken as it is asked for. *)
Lemma map_memory_at l a n b :
  chain 0 USER_TOP l -> 0 < n -> n + 0xfff + USER_TOP < 2 ^ 32 -> a mod 4096 = 0 ->
  fits (MappedMemory.round_size n) 0 USER_TOP l a -> (MappedMemory.map_memory USER_TOP l (Some a) n b).1 = Ok a.
Proof.
  intros Hc Hn Hov Hal (H1 & H2 & H3). destruct (round_size_spec n Hn ltac:(unfold USER_TOP in *; lia)) as (_ & Hb & Hmul & Hpos).
  unfold MappedMemory.map_memory. rewrite (proj2 (Z.eqb_neq n 0)) by lia. set (rs := MappedMemory.round_size n) in *.
  unfold USER_TOP in *. rewrite (proj2 (is_page_aligned_spec a)) by (done || word). cbn [negb]. unfold VirtualAddress.add.
  assert (u32 (a + rs) = a + rs) as -> by word.
  by rewrite (proj2 (can_fit_range_spec 0xc0000000 ltac:(lia) rs Hpos Hmul 0 l a ltac:(lia) Hc H1 Hal H2 ltac:(lia)) H3).
Qed.

Lemma map_task_result k id t addr n b r k' :
  tasks k !! id = Some t -> map_memory_for_task k id addr n b = Some (r, k') ->
  r = (MappedMemory.map_memory USER_TOP (memory_mapping t) addr n b).1.
Proof.
  intros Hk H. unfold map_memory_for_task in H. rewrite Hk in H.
  destruct (MappedMemory.map_memory USER_TOP (memory_mapping t) addr n b) as [[loc|e] l]; [|by simplify_eq].
  apply bind_Some in H as (k2 & _ & H). by simplify_eq.
Qed.

(** A frame that a user page maps may be given to another task. *)
Lemma mapped_shareable v refs top dirs D p F :
  core v refs top dirs None -> D ∈ dirs -> user_page p -> walk_page (mem (cpu v)) D p = Some F -> shareable v top dirs F.
Proof.
  intros Hco HD Hp Hw. destruct (co_user _ _ _ _ _ Hco _ _ _ HD Hp Hw) as [Hnp Hu].
  split; [|done]. apply (walk_page_frame _ _ _ _ (sep_words _ _ _ (ok_separate _ _ _ (co_ok _ _ _ _ _ Hco))) Hw).
Qed.

Lemma direct_page_ok v top dirs F : shareable v top dirs F -> direct_ok v top dirs (Direct F) 0x1000.
Proof.
  intros Hsh. pose proof Hsh as [[HF1 HF2] _]. unfold direct_ok. assert (MappedMemory.round_size 0x1000 = 4096) as -> by done.
  split; [word|]. split; [done|]. split; [word|]. intros i Hi. assert (i = 0) as -> by word. by rewrite Z.add_0_r.
Qed.

Lemma kinv_shared k refs top dirs x : kinv k refs top dirs -> kinv (with_shared k x) refs top dirs.
Proof. intros [I1 I2 I3 I4 I5 I6]. by split. Qed.

Section Sharing.
Context (page_in : Z -> Z -> Z -> result Z unit * list Z).
Context (page_in_words : forall driver token offset, Forall is_u32 (page_in driver token offset).2).
Context (top : Z) (dirs : gset Z).

(** The page is mapped, or it will be when it is touched. *)
Definition ready (k : Kernel) (p : Z) : Prop :=
  walk_page (mem (cpu (vm k))) (cr3 (cpu (vm k))) p <> None \/
  exists t region, tasks k !! current_id k = Some t /\
    MappedMemory.get_mapping_containing_address (memory_mapping t) (p * 4096) = Some region /\
    private_backing (MemMappedRegion.backed_by region) = true.

(** Getting the frame of a page of the running task. *)
Lemma page_frame_spec k refs p F k' :
  kinv k refs top dirs -> user_page p -> ready k p ->
  get_current_physical_address page_in k (p * 4096) = Some (Some F, k') ->
  exists refs', kinv k' refs' top dirs /\ tasks k' = tasks k /\ current_id k' = current_id k /\
    walk_page (mem (cpu (vm k'))) (cr3 (cpu (vm k))) p = Some F /\
    (walk_page (mem (cpu (vm k))) (cr3 (cpu (vm k))) p = None \/ k' = k) /\
    (forall D q, D ∈ dirs -> user_page q -> (D, q) <> (cr3 (cpu (vm k)), p) ->
       walk_page (mem (cpu (vm k'))) D q = walk_page (mem (cpu (vm k))) D q).
Proof.
  intros HI Hp Hready H. unfold get_current_physical_address in H. rewrite <- (Z.add_0_r (p * 4096)) in H at 1.
  rewrite (current_physical (vm k) top dirs p 0 (co_ok _ _ _ _ _ (ki_core _ _ _ _ HI)) Hp ltac:(lia)) in H. cbn [mbind option_bind] in H.
  destruct (walk_page (mem (cpu (vm k))) (cr3 (cpu (vm k))) p) as [G|] eqn:Hw; cbn [fmap option_fmap option_map] in H.
  { simplify_eq. exists refs. rewrite Z.add_0_r. split_and!; try done. by right. }
  destruct Hready as [Hn|(t & region & Hk & Hget & Hpriv)]; [congruence|].
  assert (Hpa : p * 4096 / 4096 = p /\ (p * 4096) mod 4096 = 0) by word. destruct Hpa as [Epa Ema].
  destruct (fault_cases page_in page_in_words k refs top dirs (p * 4096) (Some F) k' region t HI Hk)
    as [(G & EF & Hfa)|[? _]]; try done; [unfold user_page, USER_TOP in *; lia|by rewrite Epa|].
  rewrite Epa, Ema, Z.add_0_r in *. simplify_eq. destruct Hfa. eexists. split_and!; try done. by left.
Qed.

(** What sharing [n] pages from page [bp] of the running task at page [tp] of
    task [id] does. *)
Record shared (k k' : Kernel) (refs' : gmap Z Z) (id : Z) (t : AddressSpace) (l' : list (Z * MemMappedRegion.t))
    (bp tp n : Z) : Prop := {
  sh_inv : kinv k' refs' top dirs;
  sh_current : current_id k' = current_id k;
  sh_tasks : tasks k' = <[id := {| page_directory := page_directory t; memory_mapping := l' |}]> (tasks k);
  sh_old : forall x r, holds (memory_mapping t) x r -> holds l' x r;
  sh_new : forall x r, holds l' x r -> holds (memory_mapping t) x r \/ tp * 4096 <= x < (tp + n) * 4096;
  sh_same : forall i, 0 <= i < n -> exists F,
    walk_page (mem (cpu (vm k'))) (cr3 (cpu (vm k))) (bp + i) = Some F /\
    walk_page (mem (cpu (vm k'))) (page_directory t) (tp + i) = Some F;
  sh_other : forall D q, D ∈ dirs -> user_page q -> ~ (D = cr3 (cpu (vm k)) /\ bp <= q < bp + n) ->
    ~ (D = page_directory t /\ tp <= q < tp + n) ->
    walk_page (mem (cpu (vm k'))) D q = walk_page (mem (cpu (vm k))) D q;
  sh_kept : forall q F, user_page q -> walk_page (mem (cpu (vm k))) (cr3 (cpu (vm k))) q = Some F ->
    walk_page (mem (cpu (vm k'))) (cr3 (cpu (vm k))) q = Some F
}.

(** One page. *)
Lemma share_page k refs id t p tp F k1 k' r x :
  kinv k refs top dirs -> tasks k !! id = Some t -> id <> current_id k -> user_page p -> ready k p ->
  fits 4096 0 USER_TOP (memory_mapping t) (tp * 4096) ->
  get_current_physical_address page_in k (p * 4096) = Some (Some F, k1) ->
  map_memory_for_task (with_shared k1 x) id (Some (tp * 4096)) 0x1000 (Direct F) = Some (r, k') ->
  r = Ok (tp * 4096) /\ exists refs' l', shared k k' refs' id t l' p tp 1 /\
    l' = BTreeMap.insert (tp * 4096) {| MemMappedRegion.address := tp * 4096; MemMappedRegion.size := 4096;
           MemMappedRegion.backed_by := Direct F |} (memory_mapping t).
Proof.
  intros HI Hk Hid Hp Hready Hfit Hg Hm.
  destruct (page_frame_spec k refs p F k1 HI Hp Hready Hg) as (refs1 & HI1 & Et & Ec & HwF & Hor & Ho).
  pose proof (kinv_shared _ _ _ _ x HI1) as HI2. set (k2 := with_shared k1 x) in *.
  assert (Hk2 : tasks k2 !! id = Some t) by (cbn [k2 tasks with_shared]; by rewrite Et).
  destruct (ki_cur _ _ _ _ HI) as (tc & Hkc & Ecr).
  assert (Hcd : cr3 (cpu (vm k)) ∈ dirs) by (rewrite <- Ecr; apply (ki_dirs _ _ _ _ HI); by exists (current_id k), tc).
  assert (Hne : cr3 (cpu (vm k)) <> page_directory t).
  { rewrite <- Ecr. intros E. apply Hid. by apply (ki_inj _ _ _ _ HI id (current_id k) t tc). }
  pose proof (ki_chain _ _ _ _ HI id t Hk) as Hc. destruct Hfit as (Hf1 & Hf2 & Hf3).
  assert (Hal : (tp * 4096) mod 4096 = 0) by word. assert (Hr : MappedMemory.round_size 0x1000 = 4096) by done.
  pose proof (map_task_result k2 id t (Some (tp * 4096)) 0x1000 (Direct F) r k' Hk2 Hm) as Er.
  rewrite map_memory_at in Er by (done || lia || by rewrite Hr). split; [done|]. subst r.
  destruct (map_spec k2 refs1 top dirs id t (Some (tp * 4096)) 0x1000 (Direct F) (Ok (tp * 4096)) k' HI2 Hk2)
    as (refs' & HI' & Ec' & _ & _ & Hfit' & Et' & Hw'); [|..|done|].
  { split; [lia|]. split; [done|]. rewrite Hr. done. }
  { apply direct_page_ok. by apply (mapped_shareable _ refs1 top dirs _ p F (ki_core _ _ _ _ HI2) Hcd). }
  cbn [k2 vm with_shared tasks current_id] in *. rewrite Et in Et'. rewrite Ec in Ec'.
  exists refs', (BTreeMap.insert (tp * 4096) {| MemMappedRegion.address := tp * 4096; MemMappedRegion.size := 4096;
           MemMappedRegion.backed_by := Direct F |} (memory_mapping t)).
  split; [|done]. pose proof (fun y r => insert_holds (memory_mapping t) (tp * 4096) 0x1000 (Direct F) y r Hc ltac:(lia) ltac:(done) Hal Hfit') as Hh.
  cbn zeta in Hh. assert (Hut : user_page tp) by (unfold user_page, USER_TOP in *; lia).
  assert (HD : page_directory t ∈ dirs) by (apply (ki_dirs _ _ _ _ HI); by exists id, t).
  assert (Hc1 : forall q, user_page q -> walk_page (mem (cpu (vm k'))) (cr3 (cpu (vm k))) q = walk_page (mem (cpu (vm k1))) (cr3 (cpu (vm k))) q).
  { intros q Hq. rewrite Hw' by done. cbn zeta. by rewrite decide_False. }
  split; try done.
  - intros y r Hy. apply Hh. by right.
  - intros y r [[_ ?]|?]%Hh; [right; lia|by left].
  - intros i Hi. assert (i = 0) as -> by lia. rewrite !Z.add_0_r. exists F. split; [by rewrite Hc1|].
    rewrite Hw' by done. cbn zeta. rewrite decide_True by done. cbn [region_target]. rewrite Hr.
    rewrite decide_True by lia. f_equal. lia.
  - intros D q HDd Hq Hn1 Hn2. rewrite Hw' by done. cbn zeta. destruct (decide (D = page_directory t)) as [->|Hnd].
    + cbn [region_target]. rewrite Hr. rewrite decide_False by (intros ?; apply Hn2; split; [done|lia]).
      apply Ho; [done|done|congruence].
    + apply Ho; [done|done|]. intros [= -> ->]. apply Hn1. split; [done|lia].
  - intros q G Hq HG. rewrite Hc1 by done. destruct (decide (q = p)) as [->|Hnq]; [|rewrite Ho by (done || congruence); done].
    destruct Hor as [Hnone|Ek]; [congruence|]. by rewrite Ek.
Qed.

Lemma shared_refl k refs id t bp tp :
  kinv k refs top dirs -> tasks k !! id = Some t -> shared k k refs id t (memory_mapping t) bp tp 0.
Proof.
  intros HI Hk. split; try done.
  - rewrite insert_id; [done|]. by destruct t.
  - by left.
  - intros i Hi. lia.
Qed.

Lemma shared_cr3 k k' refs refs' id t l' bp tp n :
  kinv k refs top dirs -> tasks k !! id = Some t -> id <> current_id k -> shared k k' refs' id t l' bp tp n ->
  cr3 (cpu (vm k')) = cr3 (cpu (vm k)) /\ tasks k' !! current_id k' = tasks k !! current_id k /\
  cr3 (cpu (vm k)) <> page_directory t /\ cr3 (cpu (vm k)) ∈ dirs /\ page_directory t ∈ dirs.
Proof.
  intros HI Hk Hid Hsh. destruct (ki_cur _ _ _ _ HI) as (tc & Hkc & Ecr).
  assert (Hkc' : tasks k' !! current_id k' = tasks k !! current_id k)
    by (rewrite (sh_tasks _ _ _ _ _ _ _ _ _ Hsh), (sh_current _ _ _ _ _ _ _ _ _ Hsh); by apply lookup_insert_ne).
  split; [|split; [done|]].
  - rewrite <- Ecr. apply (kinv_cr3 k' refs' top dirs); [apply Hsh|]. by rewrite Hkc'.
  - split; [|split].
    + rewrite <- Ecr. intros E. apply Hid. by apply (ki_inj _ _ _ _ HI id (current_id k) t tc).
    + rewrite <- Ecr. apply (ki_dirs _ _ _ _ HI). by exists (current_id k), tc.
    + apply (ki_dirs _ _ _ _ HI). by exists id, t.
Qed.

(** One page after the other. *)
Lemma shared_trans k1 k2 k3 r1 r2 r3 id t l2 l3 bp tp n :
  kinv k1 r1 top dirs -> tasks k1 !! id = Some t -> id <> current_id k1 -> 0 <= n -> user_page bp -> user_page tp ->
  shared k1 k2 r2 id t l2 bp tp 1 ->
  shared k2 k3 r3 id {| page_directory := page_directory t; memory_mapping := l2 |} l3 (bp + 1) (tp + 1) n ->
  shared k1 k3 r3 id t l3 bp tp (n + 1).
Proof.
  intros HI Hk Hid Hn Hbp Htp H1 H2. destruct (shared_cr3 _ _ _ _ _ _ _ _ _ _ HI Hk Hid H1) as (Ecr & _ & Hne & Hcd & HD).
  destruct H1 as [A1 A2 A3 A4 A5 A6 A7 A8], H2 as [B1 B2 B3 B4 B5 B6 B7 B8].
  cbn [page_directory memory_mapping] in *. rewrite Ecr in *. split; try done.
  - by rewrite B2.
  - by rewrite B3, A3, insert_insert_eq.
  - intros x r Hx. by apply B4, A4.
  - intros x r Hx. destruct (B5 x r Hx) as [Hx2|?]; [|right; lia]. destruct (A5 x r Hx2) as [?|?]; [by left|right; lia].
  - intros i Hi. destruct (decide (i = 0)) as [->|Hi0].
    + destruct (A6 0 ltac:(lia)) as (F & F1 & F2). exists F. rewrite !Z.add_0_r in *.
      split; [by apply B8|]. rewrite B7; [done|done|done|intros [X _]; congruence|intros [_ ?]; lia].
    + destruct (B6 (i - 1) ltac:(lia)) as (F & F1 & F2). exists F.
      replace (bp + i) with (bp + 1 + (i - 1)) by lia. by replace (tp + i) with (tp + 1 + (i - 1)) by lia.
  - intros D q HDd Hq N1 N2. rewrite B7; [apply A7; try done|done|done|..].
    + intros [? ?]. apply N1. split; [done|lia].
    + intros [? ?]. apply N2. split; [done|lia].
    + intros [? ?]. apply N1. split; [done|lia].
    + intros [? ?]. apply N2. split; [done|lia].
  - intros q F Hq HF. by apply B8, A8.
Qed.

Lemma fits_cons l x n b : 0 <= n -> chain 0 USER_TOP l -> 0 <= x -> x mod 4096 = 0 -> fits (4096 + n) 0 USER_TOP l x ->
  fits 4096 0 USER_TOP l x /\
  fits n 0 USER_TOP (BTreeMap.insert x {| MemMappedRegion.address := x; MemMappedRegion.size := 4096;
     MemMappedRegion.backed_by := b |} l) (x + 4096).
Proof.
  intros Hn Hc Hx Hal (H1 & H2 & H3). set (r := {| MemMappedRegion.address := x; MemMappedRegion.size := 4096; MemMappedRegion.backed_by := b |}).
  assert (Hpe : page_end r = x + 4096) by (unfold page_end; cbn; word).
  assert (H4 : free_range l x (x + 4096)).
  { unfold free_range in *. eapply Forall_impl; [exact H3|]. intros [y r'] ?. lia. }
  split; [split; [lia|split; [unfold USER_TOP in *; lia|done]]|].
  split; [lia|]. split; [unfold USER_TOP in *; lia|].
  apply Forall_forall. intros [y r'] Hin.
  apply (chain_insert_elem 0 USER_TOP) in Hin; [|done|by rewrite Hpe|done].
  destruct Hin as [Heq|Hin]; [injection Heq as -> ->; left; lia|]. pose proof (proj1 (Forall_forall _ _) H3 _ Hin) as H5. cbn in H5. lia.
Qed.

Lemma share_loop_spec id (n : nat) : forall k refs t bp tp base offset k',
  kinv k refs top dirs -> tasks k !! id = Some t -> id <> current_id k ->
  0 <= base -> 0 <= offset -> base + offset = tp * 4096 -> fits (Z.of_nat n * 4096) 0 USER_TOP (memory_mapping t) (tp * 4096) ->
  (forall i, 0 <= i < Z.of_nat n -> user_page (bp + i) /\ ready k (bp + i)) ->
  share_loop page_in k id base offset ((fun i => (bp + i) * 4096) <$> seqZ 0 (Z.of_nat n)) = Some k' ->
  exists refs' l', shared k k' refs' id t l' bp tp (Z.of_nat n).
Proof.
  induction n as [|n IH]; intros k refs t bp tp base offset k' HI Hk Hid Hb Ho Etp Hfit Hr H.
  { rewrite seqZ_nil in H by lia. cbn in H. injection H as <-. exists refs, (memory_mapping t). by apply shared_refl. }
  rewrite seqZ_cons in H by lia. cbn [fmap list_fmap share_loop] in H. rewrite Z.add_0_r in H.
  apply bind_Some in H as ([o k1] & Hg & H). destruct o as [F|]; [|done]. cbn [mbind option_bind] in H.
  destruct (RefCountMap.add_reference (SHARED_MEMORY_REFCOUNT k1) F) as [cnt x].
  destruct (Hr 0 ltac:(lia)) as [Hp Hrd]. rewrite Z.add_0_r in Hp, Hrd.
  pose proof (ki_chain _ _ _ _ HI id t Hk) as Hc.
  assert (Hfr : 0 <= tp * 4096 /\ tp * 4096 + (Z.of_nat n + 1) * 4096 <= USER_TOP) by (destruct Hfit as (? & ? & _); lia).
  apply bind_Some in H as ([r k2] & Hm & H).
  replace (VirtualAddress.add base offset) with (tp * 4096) in Hm by (unfold VirtualAddress.add, USER_TOP in *; word).
  replace (Z.of_nat (S n) * 4096) with (4096 + Z.of_nat n * 4096) in Hfit by lia.
  destruct (fits_cons (memory_mapping t) (tp * 4096) (Z.of_nat n * 4096) (Direct F)) as [Hf1 Hf2]; try done; [lia|lia|word|].
  destruct (share_page k refs id t bp tp F k1 k2 r x HI Hk Hid Hp Hrd Hf1 Hg Hm) as (-> & refs2 & l2 & Hsh & El).
  destruct (shared_cr3 _ _ _ _ _ _ _ _ _ _ HI Hk Hid Hsh) as (Ecr & Ekc & Hne & Hcd & HD).
  set (t2 := {| page_directory := page_directory t; memory_mapping := l2 |}).
  destruct (IH k2 refs2 t2 (bp + 1) (tp + 1) base (u32 (offset + 0x1000)) k') as (refs' & l' & Hsh'); [apply Hsh|..].
  - rewrite (sh_tasks _ _ _ _ _ _ _ _ _ Hsh). apply lookup_insert_eq.
  - by rewrite (sh_current _ _ _ _ _ _ _ _ _ Hsh).
  - done.
  - word.
  - unfold USER_TOP in *. word.
  - cbn [memory_mapping t2]. rewrite El. by replace ((tp + 1) * 4096) with (tp * 4096 + 4096) by lia.
  - intros i Hi. destruct (Hr (i + 1) ltac:(lia)) as [Hp' Hrd']. replace (bp + 1 + i) with (bp + (i + 1)) by lia.
    split; [done|]. destruct Hrd' as [Hw|(t' & region & Hk' & ?)].
    + left. destruct (walk_page (mem (cpu (vm k))) (cr3 (cpu (vm k))) (bp + (i + 1))) as [G|] eqn:HG; [|done].
      rewrite Ecr, (sh_kept _ _ _ _ _ _ _ _ _ Hsh _ G Hp' HG). done.
    + right. exists t', region. by rewrite Ekc.
  - rewrite <- H. f_equal. change (Z.succ 0) with (1 + 0). rewrite <- (fmap_add_seqZ 1 0), <- list_fmap_compose.
    replace (Z.pred (Z.of_nat (S n))) with (Z.of_nat n) by lia. apply list_fmap_ext. intros ? i _. cbn. lia.
  - exists refs', l'. replace (Z.of_nat (S n)) with (Z.of_nat n + 1) by lia.
    apply (shared_trans k k2 k' refs refs2 refs' id t l2 l' bp tp (Z.of_nat n)); try done; [lia|].
    unfold user_page, USER_TOP in *. lia.
Qed.

(** The pages of a buffer. *)
Definition buffer_pages (vaddr byte_size : Z) : Z := (vaddr mod 4096 + byte_size + 4095) / 4096.

Lemma buffer_pages_spec vaddr len :
  0 <= vaddr -> 0 < len -> vaddr + len <= USER_TOP ->
  shared_pages vaddr len = (fun i => (vaddr / 4096 + i) * 4096) <$> seqZ 0 (buffer_pages vaddr len) /\
  total_shared_size vaddr len = buffer_pages vaddr len * 4096 /\ 0 < buffer_pages vaddr len /\
  (vaddr / 4096 + buffer_pages vaddr len) * 4096 <= USER_TOP /\ prev_page_barrier vaddr = vaddr / 4096 * 4096 /\
  vaddr .& 0xfff = vaddr mod 4096.
Proof.
  intros Hv Hl He. unfold USER_TOP in *. set (n := buffer_pages vaddr len).
  assert (Hn : 0 < n /\ (vaddr / 4096 + n) * 4096 <= 0xc0000000) by (subst n; unfold buffer_pages; word).
  assert (Hpb : prev_page_barrier vaddr = vaddr / 4096 * 4096) by (rewrite prev_page_barrier_spec by word; word).
  split_and!; try done; try lia.
  - unfold shared_pages, PageIter.for_vaddr_range. rewrite Hpb.
    rewrite (pages_collect (Z.to_nat n)); unfold VirtualAddress.sub; try (subst n; unfold buffer_pages; word).
    rewrite Z2Nat.id by lia. apply list_fmap_ext. intros ? i Hi%lookup_seqZ. subst n. unfold buffer_pages in *. word.
  - unfold total_shared_size. rewrite Hpb, next_page_barrier_spec by (unfold VirtualAddress.add; word).
    unfold VirtualAddress.add, VirtualAddress.sub. subst n. unfold buffer_pages. word.
  - change 0xfff with (Z.ones 12). rewrite Z.land_ones by lia. done.
Qed.

Lemma share_buffer_spec k refs id t vaddr len addr k' :
  kinv k refs top dirs -> tasks k !! id = Some t -> id <> current_id k ->
  0 <= vaddr -> 0 < len -> vaddr + len <= USER_TOP ->
  (exists x, fits (buffer_pages vaddr len * 4096) 0 USER_TOP (memory_mapping t) x) ->
  (forall i, 0 <= i < buffer_pages vaddr len -> ready k (vaddr / 4096 + i)) ->
  share_buffer page_in k id vaddr len = Some (addr, k') ->
  exists tp refs' l', addr = tp * 4096 + vaddr mod 4096 /\
    fits (buffer_pages vaddr len * 4096) 0 USER_TOP (memory_mapping t) (tp * 4096) /\
    shared k k' refs' id t l' (vaddr / 4096) tp (buffer_pages vaddr len).
Proof.
  intros HI Hk Hid Hv Hl He Hx Hr H. destruct (buffer_pages_spec vaddr len Hv Hl He) as (E1 & E2 & Hn & Hend & _ & E4).
  set (n := buffer_pages vaddr len) in *. pose proof (ki_chain _ _ _ _ HI id t Hk) as Hc.
  unfold share_buffer in H. rewrite (proj2 (Z.eqb_neq len 0)), E1, E2, E4, Hk in H by lia. cbn [mbind option_bind] in H.
  replace (u32 (n * 4096 / 0x1000 * 0x1000)) with (n * 4096) in H by (unfold USER_TOP in *; word).
  destruct (free_space_loop_spec USER_TOP (n * 4096) ltac:(lia) ltac:(word) (memory_mapping t) USER_TOP) as (a & Ha & Hal & Hfit & _);
    [done|done|done|done|].
  unfold MappedMemory.find_free_mapping_space in H. rewrite Ha in H. cbn [mbind option_bind] in H.
  apply bind_Some in H as (k1 & Hs & H). simplify_eq.
  assert (Ea : a / 4096 * 4096 = a) by word. destruct Hfit as (F1 & F2 & F3).
  destruct (share_loop_spec id (Z.to_nat n) k refs t (vaddr / 4096) (a / 4096) a 0 k') as (refs' & l' & Hsh); try done.
  - lia.
  - rewrite Ea, Z2Nat.id by lia. done.
  - rewrite Z2Nat.id by lia. intros i Hi. split; [unfold user_page, USER_TOP in *; word|by apply Hr].
  - by rewrite Z2Nat.id by lia.
  - rewrite Z2Nat.id in Hsh by lia. exists (a / 4096), refs', l'. rewrite Ea. split; [|done].
    unfold VirtualAddress.add, USER_TOP in *. word.
Qed.

Lemma release_loop_spec k (l : list Z) :
  machine_ok (cpu (vm k)) top dirs ->
  Forall (fun p => user_page p /\ walk_page (mem (cpu (vm k))) (cr3 (cpu (vm k))) p <> None) l ->
  exists x, release_loop page_in k ((fun p => p * 4096) <$> l) = Some (with_shared k x).
Proof.
  intros Hok Hl. revert k Hok Hl. induction l as [|p l IH]; intros k Hok Hl.
  { exists (SHARED_MEMORY_REFCOUNT k). by destruct k. }
  apply Forall_cons in Hl as [[Hp Hw] Hl]. cbn [fmap list_fmap release_loop].
  unfold get_current_physical_address. rewrite <- (Z.add_0_r (p * 4096)).
  rewrite (current_physical (vm k) top dirs p 0 Hok Hp ltac:(lia)). cbn [mbind option_bind].
  destruct (walk_page (mem (cpu (vm k))) (cr3 (cpu (vm k))) p) as [F|] eqn:E; [|done]. cbn [fmap option_fmap option_map mbind option_bind].
  destruct (RefCountMap.remove_reference (SHARED_MEMORY_REFCOUNT k) (F + 0)) as [c x].
  destruct (IH (with_shared k x)) as (y & ->); [done|done|]. by exists y.
Qed.

(** Releasing a buffer of mapped pages unmaps them. *)
Lemma release_buffer_spec k refs t vaddr len :
  kinv k refs top dirs -> tasks k !! current_id k = Some t -> 0 <= vaddr -> 0 < len -> vaddr + len <= USER_TOP ->
  (forall i, 0 <= i < buffer_pages vaddr len ->
     walk_page (mem (cpu (vm k))) (cr3 (cpu (vm k))) (vaddr / 4096 + i) <> None) ->
  exists k' refs', release_buffer page_in k vaddr len = Some k' /\ kinv k' refs' top dirs /\
    current_id k' = current_id k /\
    tasks k' = <[current_id k := {| page_directory := page_directory t; memory_mapping :=
      cut_range (memory_mapping t) (vaddr / 4096 * 4096) (buffer_pages vaddr len * 4096) |}]> (tasks k) /\
    (forall D p, D ∈ dirs -> user_page p -> walk_page (mem (cpu (vm k'))) D p =
       if decide (D = page_directory t /\ vaddr / 4096 <= p < vaddr / 4096 + buffer_pages vaddr len) then None
       else walk_page (mem (cpu (vm k))) D p).
Proof.
  intros HI Hk Hv Hl He Hm. destruct (buffer_pages_spec vaddr len Hv Hl He) as (E1 & E2 & Hn & Hend & E3 & _).
  set (n := buffer_pages vaddr len) in *. set (bp := vaddr / 4096) in *.
  assert (Hbp : 0 <= bp) by (subst bp; word).
  unfold release_buffer. rewrite (proj2 (Z.eqb_neq len 0)), E1, E2, E3 by lia.
  destruct (release_loop_spec k ((fun i => bp + i) <$> seqZ 0 n)) as (x & Hx); [apply (ki_core _ _ _ _ HI)| |].
  { apply Forall_fmap, Forall_forall. intros i Hi%elem_of_seqZ. cbn. split; [unfold user_page, USER_TOP in *; lia|apply Hm; lia]. }
  rewrite <- list_fmap_compose in Hx. unfold compose in Hx. rewrite Hx. cbn [mbind option_bind].
  destruct (unmap_memory_spec (with_shared k x) refs top dirs (current_id k) t (bp * 4096) (n * 4096))
    as (k' & refs' & Hu & HI' & _ & Ec & Et & Hw); try done.
  - by apply kinv_shared.
  - unfold USER_TOP in *. lia.
  - word.
  - lia.
  - word.
  - lia.
  - cbn [current_id with_shared] in *. rewrite Hu. cbn [mbind option_bind]. exists k', refs'. split_and!; try done.
    intros D p HD Hp. rewrite Hw by done. cbn [vm with_shared]. repeat case_decide; try done; exfalso;
      [match goal with N : ~ _ |- _ => apply N end; split; [tauto|lia]..].
Qed.

(** Every byte of the buffer is the same physical byte in both tasks. *)
Lemma shared_bytes k k' refs' id t l' vaddr tp len x :
  shared k k' refs' id t l' (vaddr / 4096) tp (buffer_pages vaddr len) -> 0 <= x < len ->
  exists pa, walk (mem (cpu (vm k'))) (cr3 (cpu (vm k))) (vaddr + x) = Some pa /\
    walk (mem (cpu (vm k'))) (page_directory t) (tp * 4096 + vaddr mod 4096 + x) = Some pa.
Proof.
  intros Hsh Hx. destruct (sh_same _ _ _ _ _ _ _ _ _ Hsh ((vaddr + x) / 4096 - vaddr / 4096)) as (F & F1 & F2).
  { unfold buffer_pages. word. }
  exists (F + (vaddr + x) mod 4096). split.
  - replace (vaddr + x) with ((vaddr + x) / 4096 * 4096 + (vaddr + x) mod 4096) at 1 by word.
    rewrite walk_walk_page by (apply Z.mod_pos_bound; lia).
    replace (vaddr / 4096 + ((vaddr + x) / 4096 - vaddr / 4096)) with ((vaddr + x) / 4096) in F1 by lia. by rewrite F1.
  - replace (tp * 4096 + vaddr mod 4096 + x) with ((tp + ((vaddr + x) / 4096 - vaddr / 4096)) * 4096 + (vaddr + x) mod 4096) by word.
    rewrite walk_walk_page by (apply Z.mod_pos_bound; lia). by rewrite F2.
Qed.
End Sharing.
