(* ===== verification/PagingProps.v ===== *)
(** * What the address spaces promise

    The memory calls of the kernel as steps of one machine, and the theorems
    about every run of it: the tasks stay isolated, frames are counted and
    given back, a page fault gives clean memory.  The starting state is any
    state that is [consistent]: the directories of the tasks come from
    [create_page_directory].  The directory the kernel boots with is not among
    them: it keeps the identity mapping of the boot code in its user half, and
    the idle task that runs on it makes no memory calls. *)

From S2P Require Import Prelude Address Bitmap Tracking PhysicalMemory MappedMemory Collections Mmu MmuSpec Paging PagingSpec VmInvariant AddressSpaces Sharing.
Import PageTableEntry.
Import MapFacts SearchFacts UnmapFacts LookupFacts MappedMemoryProps.

(** ** Consistent states *)

Definition directories (k : Kernel) : gset Z :=
  list_to_set (page_directory <$> (map_to_list (tasks k)).*2).
Definition scratch_table (k : Kernel) : Z := table_of (mem (cpu (vm k))) (cr3 (cpu (vm k))) 1022.

Definition consistent (k : Kernel) (refs : gmap Z Z) : Prop := kinv k refs (scratch_table k) (directories k).

Lemma elem_of_directories k D :
  D ∈ directories k <-> exists id t, tasks k !! id = Some t /\ page_directory t = D.
Proof.
  unfold directories. rewrite elem_of_list_to_set, list_elem_of_fmap. split.
  - intros (t & -> & H). apply list_elem_of_fmap in H as ([id t'] & -> & H). apply elem_of_map_to_list in H. by exists id, t'.
  - intros (id & t & H & <-). exists t. split; [done|]. apply list_elem_of_fmap. exists (id, t).
    split; [done|]. by apply elem_of_map_to_list.
Qed.

(** The invariant holds of the directories and the scratch table only. *)
Lemma kinv_consistent k refs top dirs : kinv k refs top dirs -> consistent k refs.
Proof.
  intros HI. assert (directories k = dirs) as E.
  { apply set_eq. intros D. by rewrite elem_of_directories, (ki_dirs _ _ _ _ HI). }
  unfold consistent. rewrite E. pose proof (co_ok _ _ _ _ _ (ki_core _ _ _ _ HI)) as [Hs _ Hcr].
  unfold scratch_table. by rewrite (proj2 (sep_top _ _ _ Hs _ Hcr)).
Qed.

(** ** The steps *)

(** A task stores a word in a page that its tables map. *)
Definition user_store (k : Kernel) (F i x : Z) : Kernel :=
  with_vm k (with_cpu (vm k) (with_mem (cpu (vm k)) (store (mem (cpu (vm k))) (F + 4 * i) x))).

Lemma user_store_spec k refs top dirs p F i x :
  kinv k refs top dirs -> user_page p -> walk_page (mem (cpu (vm k))) (cr3 (cpu (vm k))) p = Some F ->
  0 <= i < 1024 -> is_u32 x -> kinv (user_store k F i x) refs top dirs.
Proof.
  intros HI Hp Hw Hi Hx. pose proof (ki_core _ _ _ _ HI) as Hco. pose proof (co_ok _ _ _ _ _ Hco) as Hok.
  pose proof (ok_separate _ _ _ Hok) as Hs. pose proof (ok_cr3 _ _ _ Hok) as Hcr.
  destruct (co_user _ _ _ _ _ Hco _ _ _ Hcr Hp Hw) as [Hnp _].
  pose proof (walk_page_frame _ _ _ _ (sep_words _ _ _ Hs) Hw) as HF.
  pose proof (fresh_paging _ _ _ _ HF Hnp) as Hfr.
  assert (L : forall a, in_frame F a = false -> load (store (mem (cpu (vm k))) (F + 4 * i) x) a = load (mem (cpu (vm k))) a).
  { intros a Ha. unfold load, store. rewrite lookup_insert_ne; [done|]. intros <-. rewrite in_frame_entry in Ha by (done || apply HF). done. }
  assert (Hww : words_ok (store (mem (cpu (vm k))) (F + 4 * i) x)).
  { intros a. unfold load, store. destruct (decide (F + 4 * i = a)) as [<-|Hne];
      [by rewrite lookup_insert_eq|rewrite lookup_insert_ne by done; apply (sep_words _ _ _ Hs)]. }
  assert (Hok' : machine_ok (with_mem (cpu (vm k)) (store (mem (cpu (vm k))) (F + 4 * i) x)) top dirs).
  { apply (frame_writes_ok (cpu (vm k)) _ top dirs F); try done; [apply Hfr|].
    intros j Hj. apply (fresh_kernel_tables _ top dirs F); done. }
  assert (Hwalk : forall D q, D ∈ dirs -> user_page q ->
    walk_page (store (mem (cpu (vm k))) (F + 4 * i) x) D q = walk_page (mem (cpu (vm k))) D q).
  { intros D q HD Hq. apply (frame_walk_same _ _ top dirs F); try done; [unfold user_page in Hq; lia|].
    intros a _. apply L. }
  apply (kinv_vm k _ refs refs top dirs HI); try done.
  - apply core_same; try done; [apply Hco|]. intros D j HD Hj. apply L, in_frame_other; try done.
    + apply HF.
    + apply (sep_dir _ _ _ Hs D HD).
    + intros <-. apply Hnp. right. by left.
  - intros id t q G Hk Hq Hw1 Hw0. cbn [vm user_store with_vm cpu with_cpu mem with_mem] in Hw1.
    rewrite Hwalk in Hw1; [congruence| |done]. apply (ki_dirs _ _ _ _ HI). by exists id, t.
  - intros D q HD Hq _. by apply Hwalk.
Qed.

Section Steps.
Context (page_in : Z -> Z -> Z -> result Z unit * list Z).

(** The regions of the running task around an address. *)
Definition region_at (k : Kernel) (address : Z) (region : MemMappedRegion.t) : Prop :=
  exists t, tasks k !! current_id k = Some t /\
    MappedMemory.get_mapping_containing_address (memory_mapping t) address = Some region.
Definition absent (k : Kernel) (p : Z) : Prop := walk_page (mem (cpu (vm k))) (cr3 (cpu (vm k))) p = None.

(** One memory call of the kernel, one access of the running task, or a
    translation that the hardware caches.  Shared file pages are not among the
    steps. *)
Inductive vm_step (k : Kernel) : Kernel -> Prop :=
| step_fault address region r k' :
    0 <= address < USER_TOP -> region_at k address region ->
    private_backing (MemMappedRegion.backed_by region) = true -> absent k (address / 4096) ->
    page_on_demand page_in k address = Some (r, k') -> vm_step k k'
| step_fault_dma address region r k' :
    0 <= address < USER_TOP -> region_at k address region -> MemMappedRegion.backed_by region = IsaDma ->
    (forall p, user_page p -> MemMappedRegion.address region <= p * 4096 < page_end region -> absent k p) ->
    page_on_demand page_in k address = Some (r, k') -> vm_step k k'
| step_map id t addr n b r k' :
    tasks k !! id = Some t -> request_ok (memory_mapping t) addr n ->
    direct_ok (vm k) (scratch_table k) (directories k) b n ->
    map_memory_for_task k id addr n b = Some (r, k') -> vm_step k k'
| step_remap id addr b r k' : remap_memory_for_task k id addr b = (r, k') -> vm_step k k'
| step_unmap id t a n r k' :
    tasks k !! id = Some t -> 0 <= a < USER_TOP -> a mod 4096 = 0 -> 0 <= n -> n mod 4096 = 0 -> a + n <= USER_TOP ->
    unmap_memory_for_task k id a n = Some (r, k') -> vm_step k k'
| step_share id t vaddr len addr k' :
    tasks k !! id = Some t -> id <> current_id k -> 0 <= vaddr -> 0 < len -> vaddr + len <= USER_TOP ->
    (exists x, fits (buffer_pages vaddr len * 4096) 0 USER_TOP (memory_mapping t) x) ->
    (forall i, 0 <= i < buffer_pages vaddr len -> ready k (vaddr / 4096 + i)) ->
    share_buffer page_in k id vaddr len = Some (addr, k') -> vm_step k k'
| step_release vaddr len k' :
    0 <= vaddr -> 0 < len -> vaddr + len <= USER_TOP ->
    (forall i, 0 <= i < buffer_pages vaddr len -> ~ absent k (vaddr / 4096 + i)) ->
    release_buffer page_in k vaddr len = Some k' -> vm_step k k'
| step_create id k' :
    tasks k !! id = None -> create_address_space k id = Some k' -> vm_step k k'
| step_exit id k' :
    id <> current_id k -> tasks k !! id <> None -> clean_up_memory k id = Some k' -> vm_step k k'
| step_switch id k' : switch_space k id = Some k' -> vm_step k k'
| step_store p F i x :
    user_page p -> walk_page (mem (cpu (vm k))) (cr3 (cpu (vm k))) p = Some F -> 0 <= i < 1024 -> is_u32 x ->
    vm_step k (user_store k F i x)
| step_cache va :
    is_u32 va -> vm_step k (with_vm k (with_cpu (vm k) (Mmu.tlb_fill (cpu (vm k)) va))).

Context (page_in_words : forall driver token offset, Forall is_u32 (page_in driver token offset).2).

Lemma vm_step_consistent k k' refs : consistent k refs -> vm_step k k' -> exists refs', consistent k' refs'.
Proof.
  intros HI. unfold consistent in HI.
  destruct 1 as [address region r k' Ha (t & Hk & Hg) Hb Hn H|address region r k' Ha (t & Hk & Hg) Hb Hn H
    |id t addr n b r k' Hk Hreq Hdir H|id addr b r k' H|id t a n r k' Hk X1 X2 X3 X4 X5 H|id t vaddr len addr k' Hk Hid X1 X2 X3 Hx Hr H
    |vaddr len k' X1 X2 X3 Hm H|id k' Hk H|id k' Hid Hk H|id k' H|p F i x Hp Hw Hi Hx|va Hva].
  - destruct (fault_cases page_in page_in_words k refs _ _ address r k' region t HI Hk Ha Hg Hb Hn H)
      as [(F & _ & Hfa)|(_ & HI' & _)]; eexists; eapply kinv_consistent; [apply Hfa|done].
  - destruct (dma_spec page_in k refs _ _ t region address r k' HI Hk Ha Hg Hb Hn H) as (HI' & _).
    eexists. by eapply kinv_consistent.
  - destruct (map_spec k refs _ _ id t addr n b r k' HI Hk Hreq Hdir H) as (refs' & HI' & _).
    eexists. by eapply kinv_consistent.
  - destruct (remap_spec k refs _ _ id addr b r k' HI H) as (HI' & _). eexists. by eapply kinv_consistent.
  - destruct (unmap_memory_spec k refs _ _ id t a n HI Hk X1 X2 X3 X4 X5) as (k2 & refs' & E & HI' & _).
    simplify_eq. eexists. by eapply kinv_consistent.
  - destruct (share_buffer_spec page_in page_in_words _ _ k refs id t vaddr len addr k' HI Hk Hid X1 X2 X3 Hx Hr H)
      as (tp & refs' & l' & _ & _ & Hsh). eexists. eapply kinv_consistent, Hsh.
  - destruct (ki_cur _ _ _ _ HI) as (t & Hk & _).
    destruct (release_buffer_spec page_in _ _ k refs t vaddr len HI Hk X1 X2 X3 Hm) as (k2 & refs' & E & HI' & _).
    simplify_eq. eexists. by eapply kinv_consistent.
  - destruct (create_space_spec k refs _ _ id k' HI Hk H) as (F & _ & HI' & _). eexists. by eapply kinv_consistent.
  - destruct (tasks k !! id) as [t|] eqn:Ht; [|done].
    destruct (clean_up_spec k refs _ _ id t HI Ht Hid) as (k2 & refs' & E & HI' & _). simplify_eq.
    eexists. by eapply kinv_consistent.
  - destruct (switch_spec k refs _ _ id k' HI H) as (HI' & _). eexists. by eapply kinv_consistent.
  - eexists. eapply kinv_consistent. by apply (user_store_spec k refs _ _ p).
  - eexists. eapply kinv_consistent. by apply tlb_fill_spec.
Qed.

Lemma vm_run_consistent k k' refs : consistent k refs -> rtc vm_step k k' -> exists refs', consistent k' refs'.
Proof.
  intros HI H. revert refs HI. induction H as [k|k k1 k' H1 H IH]; intros refs HI; [by exists refs|].
  destruct (vm_step_consistent k k1 refs HI H1) as (refs1 & HI1). by apply (IH refs1).
Qed.

(** *** Enough memory *)

Lemma new_frame_total v refs top dirs held f :
  core v refs top dirs held -> 0 <= f < frames v -> in_use v f = false -> exists F v1, new_frame v = Some (F, v1).
Proof.
  intros Hco Hf Hfree. pose proof (PhysicalMemory.inv_bitmap _ _ (co_phys _ _ _ _ _ Hco)) as Hwf.
  unfold new_frame, unwrap_frame, PhysicalMemory.allocate_frame, FrameBitmap.allocate_frames.
  destruct (FrameBitmap.find_free_range_cases (PhysicalMemory.ALLOCATOR (phys v)) 1 Hwf ltac:(lia)) as [(s & -> & Hrun & _)|[_ Hno]].
  2:{ destruct (Hno f). split; [lia|]. split; [lia|]. intros g Hg. by replace g with f by lia. }
  destruct (FrameBitmap.free_run_range _ s 1 Hwf ltac:(lia) Hrun) as (Hr & Hc & _).
  destruct (FrameBitmap.allocate_range_ok _ _ Hwf Hr Hc) as (b & Ha & _). cbn [mbind option_bind]. rewrite Ha.
  by eexists _, _.
Qed.

Lemma tracked_frame_total v refs top dirs held f :
  core v refs top dirs held -> 0 <= f < frames v -> in_use v f = false ->
  exists F v1, unwrap_frame v (PhysicalMemory.allocate_frame_with_tracking (phys v)) = Some (F, v1).
Proof.
  intros Hco Hf Hfree. destruct (new_frame_total v refs top dirs held f Hco Hf Hfree) as (F & v1 & Hn).
  unfold new_frame, unwrap_frame in Hn. apply bind_Some in Hn as ([[a|] s] & Ha & Hn); [|done]. simplify_eq.
  pose proof (co_phys _ _ _ _ _ Hco) as Hinv. destruct (alloc_cases _ refs _ _ Hinv Ha) as (g & -> & Hg & _ & _ & Hinv1 & _ & Hlen & _).
  rewrite <- Hlen in Hg. destruct (PhysicalMemory.frame_address_facts s refs g Hinv1 Hg) as (X1 & X2 & X3).
  destruct (Tracking.add_reference_ok _ refs (g * 4096) (PhysicalMemory.inv_tracker _ _ Hinv1) X1
    (PhysicalMemory.inv_bound s refs _ Hinv1) X3) as (t & Hadd & _).
  unfold PhysicalMemory.allocate_frame_with_tracking. rewrite Ha. cbn [mbind option_bind]. rewrite Hadd. by eexists _, _.
Qed.

Lemma current_map_total v refs top dirs held p F flags f :
  core v refs top dirs held -> user_page p -> 0 <= f < frames v -> in_use v f = false ->
  exists r v', current_pagedir_map v F (p * 4096) flags = Some (r, v').
Proof.
  intros Hco Hp Hf Hfree. pose proof Hco as [_ C2 _ _ _ _].
  assert (Hp' : 0 <= p /\ p / 1024 < 1022) by (unfold user_page in Hp; word). destruct Hp' as [Hp0 Hp1].
  assert (Hfr : forall G v1, new_frame v = Some (G, v1) -> fresh_frame (mem (cpu v)) top dirs G)
    by (intros G v1; by eapply fresh_new_frame).
  pose proof (current_map v top dirs C2 p 0 Hp0 Hp1 ltac:(lia) F flags Hfr) as Hcm. rewrite Z.add_0_r in Hcm.
  destruct (new_frame_total v refs top dirs held f Hco Hf Hfree) as (G & v1 & Hn).
  assert (exists T fresh v2, table_for v (cr3 (cpu v)) (p / 1024) = Some (T, fresh, v2)) as (T & fresh & v2 & Htf).
  { unfold table_for. destruct (is_present _); [by eexists _, _, _|]. rewrite Hn. by eexists _, _, _. }
  rewrite Htf in Hcm. destruct Hcm as (c' & Hc & _). unfold current_pagedir_map. rewrite Hc. by eexists _, _.
Qed.

(** A fault is answered when two frames are free: one for the page, one for a
    table that may be missing. *)
Lemma fault_returns k refs top dirs address region t f g :
  kinv k refs top dirs -> tasks k !! current_id k = Some t -> 0 <= address < USER_TOP ->
  MappedMemory.get_mapping_containing_address (memory_mapping t) address = Some region ->
  private_backing (MemMappedRegion.backed_by region) = true ->
  0 <= f < frames (vm k) -> in_use (vm k) f = false -> 0 <= g < frames (vm k) -> in_use (vm k) g = false -> f <> g ->
  exists r k', page_on_demand page_in k address = Some (r, k').
Proof.
  intros HI Hk Ha Hget Hpriv Hf Hff Hg Hgf Hfg. pose proof (ki_core _ _ _ _ HI) as Hco.
  unfold page_on_demand. rewrite Hk. cbn [mbind option_bind]. rewrite Hget.
  apply (get_mapping_spec 0 USER_TOP) in Hget; [|lia|done|by apply (ki_chain _ _ _ _ HI _ _ Hk)].
  destruct (page_of_address address region _ Ha (ki_chain _ _ _ _ HI _ _ Hk) Hget) as (Hp & _ & Epb & _).
  destruct (tracked_frame_total (vm k) refs top dirs None f Hco Hf Hff) as (F & v1 & Hal).
  destruct (core_alloc_tracked (vm k) refs top dirs F v1 Hco Hal) as (Ecpu & Hco1 & Hsp & Hnr & Hfree & Hfr1 & Huse).
  assert (exists h, 0 <= h < frames v1 /\ in_use v1 h = false) as (h & Hh & Hhf).
  { destruct (decide (f = F / 4096)) as [E|Hne]; [exists g|exists f]; rewrite Hfr1, Huse by lia; (split; [lia|]).
    - rewrite Hgf. cbn. lia.
    - rewrite Hff. cbn. lia. }
  pose proof (spare_fresh _ _ _ _ _ Hsp) as Hfr.
  destruct (MemMappedRegion.backed_by region) as [| | |driver token offset shared] eqn:Hb; try done.
  - rewrite Hal. cbn [mbind option_bind].
    destruct (clear_frame_spec (cpu v1) top dirs F) as (c' & Hcl & [S1 S2 S3 S4] & L); [apply Hco1|apply Hco1|done|].
    rewrite Hcl. cbn [mbind option_bind].
    destruct (core_fill v1 _ top dirs _ F c' Hco1 Hsp S1) as (Hco2 & _ & _);
      [rewrite S3; apply Hco1|intros a X1 X2; by rewrite L, X2|].
    destruct (current_map_total (with_cpu v1 c') _ top dirs _ (address / 4096) F (get_flags_for_region region) h Hco2 Hp Hh Hhf)
      as (r & v' & Hm). rewrite Epb, Hm. by eexists _, _.
  - destruct shared; [done|]. unfold page_file. rewrite Hal. cbn [mbind option_bind].
    set (total := u32 _). pose proof (page_in_words driver token total) as Hpw.
    destruct (page_in driver token total) as [answer contents]. cbn [snd] in Hpw.
    pose proof (fill_frame_ok (cpu v1) top dirs F contents (co_ok _ _ _ _ _ Hco1) Hfr Hpw) as Hok1.
    destruct (fill_frame_spec (mem (cpu v1)) F contents) as [_ L]; [apply Hfr|apply (co_ok _ _ _ _ _ Hco1)|done|].
    destruct (core_fill v1 _ top dirs _ F _ Hco1 Hsp Hok1) as (Hco2 & _ & _); [apply Hco1|intros a _ X; by apply L|].
    destruct answer.
    + destruct (current_map_total _ _ top dirs _ (address / 4096) F (get_flags_for_region region) h Hco2 Hp Hh Hhf)
        as (r & v' & Hm). cbn [vm with_vm]. rewrite Epb, Hm. by eexists _, _.
    + destruct (frame_div F (sp_frame _ _ _ _ _ Hsp)) as [EF HFr].
      destruct (core_release _ _ top dirs (F / 4096) Hco2 HFr) as (s' & Hr & _). rewrite EF in Hr.
      rewrite Hr. by eexists _, _.
Qed.


(** *** The end of a task *)

(** A counted frame stays counted when a page of another task leads to it. *)
Lemma exit_keeps k k' refs refs' top dirs id t f :
  kinv k refs top dirs -> kinv k' refs' top (dirs ∖ {[page_directory t]}) -> tasks k' = delete id (tasks k) ->
  (forall id' t' p, id' <> id -> tasks k !! id' = Some t' -> user_page p ->
     walk_page (mem (cpu (vm k'))) (page_directory t') p = walk_page (mem (cpu (vm k))) (page_directory t') p) ->
  (forall g, counted refs' g = true -> counted refs g = true) ->
  (forall g, 0 <= g -> in_use (vm k') g =
     in_use (vm k) g && negb (counted refs g && negb (counted refs' g)) &&
       negb (dir_frame (mem (cpu (vm k))) (page_directory t) g)) ->
  frames (vm k') = frames (vm k) -> 0 <= f < frames (vm k) ->
  counted refs' f = true <-> counted refs f = true /\ exists id' t' p, id' <> id /\ tasks k !! id' = Some t' /\
    user_page p /\ walk_page (mem (cpu (vm k))) (page_directory t') p = Some (f * 4096).
Proof.
  intros HI HI' Et Hoth Hsub Hu Hfr Hf. pose proof (ki_core _ _ _ _ HI') as Hco'. split.
  - intros Hc. split; [by apply Hsub|]. unfold counted in Hc. destruct (refs' !! f) as [n|] eqn:E; [|done].
    destruct (co_count _ _ _ _ _ Hco' f n E) as (X & HX & ->).
    destruct (PhysicalMemory.inv_tracked _ _ (co_phys _ _ _ _ _ Hco') f _ E) as (Hpos & _).
    assert (X <> ∅) as Hne by (intros ->; unfold held_count in Hpos; rewrite size_empty, decide_False in Hpos by done; lia).
    apply set_choose_L in Hne as [[D p] Hin]. apply HX in Hin as (HD & Hp & Hw).
    apply (ki_dirs _ _ _ _ HI') in HD as (id' & t' & Hk' & <-). rewrite Et in Hk'. apply lookup_delete_Some in Hk' as [Hne Hk'].
    exists id', t', p. by rewrite <- (Hoth id').
  - intros [Hc (id' & t' & p & Hne & Hk' & Hp & Hw)]. destruct (counted refs' f) eqn:E; [done|exfalso].
    rewrite <- (Hoth id') in Hw by done.
    assert (HD' : page_directory t' ∈ dirs ∖ {[page_directory t]}).
    { apply (ki_dirs _ _ _ _ HI'). exists id', t'. split; [|done]. rewrite Et. by rewrite lookup_delete_ne. }
    destruct (co_user _ _ _ _ _ Hco' _ _ _ HD' Hp Hw) as [_ Hin]. replace (f * 4096 / 4096) with f in Hin by word.
    rewrite Hu, Hc, E in Hin by lia. rewrite andb_false_r in Hin. discriminate Hin. lia.
Qed.

Lemma dir_frame_used k refs top dirs D f :
  kinv k refs top dirs -> D ∈ dirs -> dir_frame (mem (cpu (vm k))) D f = true -> in_use (vm k) f = true.
Proof.
  intros HI HD Hd. pose proof (ki_core _ _ _ _ HI) as Hco. unfold dir_frame in Hd. apply orb_true_iff in Hd as [Hd|Hd].
  - unfold table_frame in Hd. apply existsb_exists in Hd as (i & Hi%list_elem_of_In%elem_of_seqZ & Hd). apply andb_true_iff in Hd as [Hpr Hf].
    apply Z.eqb_eq in Hf as ->. apply (co_table _ _ _ _ _ Hco). right. right. exists D, i. split; [done|]. split; [lia|done].
  - apply Z.eqb_eq in Hd as ->. apply (co_table _ _ _ _ _ Hco). right. by left.
Qed.

(** Nothing is mapped where there is no region. *)
Lemma free_range_absent k refs top dirs id t p a b :
  kinv k refs top dirs -> tasks k !! id = Some t -> free_range (memory_mapping t) a b -> a mod 4096 = 0 ->
  user_page p -> a <= p * 4096 < b -> walk_page (mem (cpu (vm k))) (page_directory t) p = None.
Proof.
  intros HI Hk Hf Ha Hp Hr. destruct (walk_page (mem (cpu (vm k))) (page_directory t) p) as [G|] eqn:Hw; [exfalso|done].
  destruct (ki_region _ _ _ _ HI id t p G Hk Hp Hw) as (r' & Hin & Hx).
  pose proof (proj1 (Forall_forall _ _) Hf _ Hin) as H. cbn in H.
  destruct (chain_elem _ _ _ _ _ (ki_chain _ _ _ _ HI id t Hk) Hin) as (_ & Hok & _). pose proof (page_end_bounds _ _ Hok). word.
Qed.

(** C6: a page fault gives clean memory that nobody else has.  A fault on a
    page that is not mapped, inside a region of the task's own memory, with two
    frames free: the call returns.  If the region is plain memory, or the
    driver of the file answers, the page now leads to a frame that was free
    before; its words are zeros, or what the driver stored (a word that the
    driver leaves out keeps its old contents); the address returned is that of
    the byte that was touched.  If the driver refuses, no translation changes.
    No other page of any task changes, and the state stays consistent. *)
Theorem page_fault_gives_clean_memory k refs address region t f g :
  consistent k refs -> tasks k !! current_id k = Some t -> 0 <= address < USER_TOP ->
  MappedMemory.get_mapping_containing_address (memory_mapping t) address = Some region ->
  private_backing (MemMappedRegion.backed_by region) = true -> absent k (address / 4096) ->
  0 <= f < frames (vm k) -> in_use (vm k) f = false -> 0 <= g < frames (vm k) -> in_use (vm k) g = false -> f <> g ->
  exists r k', page_on_demand page_in k address = Some (r, k') /\
    (exists refs', consistent k' refs') /\ tasks k' = tasks k /\
    (forall id t' p, tasks k !! id = Some t' -> user_page p -> (id, p) <> (current_id k, address / 4096) ->
       walk_page (mem (cpu (vm k'))) (page_directory t') p = walk_page (mem (cpu (vm k))) (page_directory t') p) /\
    match file_answer page_in region address with
    | Some (Err _, _) => r = None /\ walk (mem (cpu (vm k'))) (page_directory t) address = None
    | answer => exists F, r = Some (F + address mod 4096) /\ in_use (vm k) (F / 4096) = false /\
        walk (mem (cpu (vm k'))) (page_directory t) address = r /\
        forall i, 0 <= i < 1024 -> load (mem (cpu (vm k'))) (F + 4 * i) =
          match answer with
          | None => 0
          | Some (_, contents) => default (load (mem (cpu (vm k))) (F + 4 * i)) (contents !! Z.to_nat i)
          end
    end.
Proof.
  intros HI Hk Ha Hget Hpriv Habs Hf Hff Hg Hgf Hfg. pose proof HI as HI'. unfold consistent in HI.
  destruct (fault_returns k refs _ _ address region t f g HI Hk Ha Hget Hpriv Hf Hff Hg Hgf Hfg) as (r & k' & H).
  exists r, k'. split; [done|].
  pose proof (fault_spec page_in page_in_words k refs _ _ address r k' region t HI Hk Ha Hget Hpriv Habs H) as Hsp. cbn zeta in Hsp.
  pose proof (kinv_cr3 _ _ _ _ _ HI Hk) as Ecr.
  assert (Hdirs : forall id t', tasks k !! id = Some t' -> page_directory t' ∈ directories k)
    by (intros id t' Hk'; apply elem_of_directories; by exists id, t').
  assert (Hwalk : forall m, walk m (page_directory t) address = (fun F => F + address mod 4096) <$> walk_page m (page_directory t) (address / 4096)).
  { intros m. rewrite <- walk_walk_page by (apply Z.mod_pos_bound; lia). f_equal. word. }
  assert (Hdone : forall F, faulted k k' refs (<[F / 4096 := 1]> refs) (scratch_table k) (directories k) (address / 4096) F ->
    (exists refs', consistent k' refs') /\ tasks k' = tasks k /\
    (forall id t' p, tasks k !! id = Some t' -> user_page p -> (id, p) <> (current_id k, address / 4096) ->
       walk_page (mem (cpu (vm k'))) (page_directory t') p = walk_page (mem (cpu (vm k))) (page_directory t') p)).
  { intros F [A1 A2 A3 A4 A5 A6 A7]. split; [eexists; by eapply kinv_consistent|]. split; [done|].
    intros id t' p Hk' Hp Hne. apply A5; [by eapply Hdirs|done|]. rewrite Ecr. intros [= E ->]. apply Hne. f_equal.
    by apply (ki_inj _ _ _ _ HI id (current_id k) t' t). }
  destruct (file_answer page_in region address) as [[[?|?] contents]|].
  - destruct Hsp as (F & -> & Hfa & Hw). destruct (Hdone F Hfa) as (X1 & X2 & X3). split; [done|]. split; [done|]. split; [done|].
    exists F. destruct Hfa as [_ _ Hfree Hm _ _ _]. rewrite Hwalk, <- Ecr, Hm. done.
  - destruct Hsp as (-> & A1 & A2 & A3 & A4). split; [eexists; by eapply kinv_consistent|]. split; [done|].
    split; [intros id t' p Hk' Hp _; apply A4; [by eapply Hdirs|done]|]. split; [done|].
    rewrite Hwalk, A4, <- Ecr; [by rewrite Habs|by eapply Hdirs|unfold user_page, USER_TOP in *; word].
  - destruct Hsp as (F & -> & Hfa & Hw). destruct (Hdone F Hfa) as (X1 & X2 & X3). split; [done|]. split; [done|]. split; [done|].
    exists F. destruct Hfa as [_ _ Hfree Hm _ _ _]. rewrite Hwalk, <- Ecr, Hm. done.
Qed.

(** C7: the end of a task gives back exactly its memory.  When a task that is
    not running is cleaned up, the call returns, the state stays consistent
    without it and no translation of another task changes; a frame becomes
    free if and only if it is the directory or a user page table of the task,
    or it is a counted frame that no page of another task leads to; and no
    free frame is taken. *)
Theorem exit_gives_memory_back k refs id t :
  consistent k refs -> tasks k !! id = Some t -> id <> current_id k ->
  exists k' refs', clean_up_memory k id = Some k' /\ consistent k' refs' /\ tasks k' = delete id (tasks k) /\
    (forall id' t' p, id' <> id -> tasks k !! id' = Some t' -> user_page p ->
       walk_page (mem (cpu (vm k'))) (page_directory t') p = walk_page (mem (cpu (vm k))) (page_directory t') p) /\
    (forall f, 0 <= f < frames (vm k) -> in_use (vm k') f = true -> in_use (vm k) f = true) /\
    (forall f, 0 <= f < frames (vm k) ->
       (in_use (vm k) f = true /\ in_use (vm k') f = false) <->
       dir_frame (mem (cpu (vm k))) (page_directory t) f = true \/
       PhysicalMemory.tracked_frame_reference_count (phys (vm k)) (f * 4096) <> Some None /\
       forall id' t' p, id' <> id -> tasks k !! id' = Some t' -> user_page p ->
         walk_page (mem (cpu (vm k))) (page_directory t') p <> Some (f * 4096)).
Proof.
  intros HI Hk Hid. unfold consistent in HI. set (top := scratch_table k) in *. set (dirs := directories k) in *.
  destruct (clean_up_spec k refs top dirs id t HI Hk Hid) as (k' & refs' & Hcl & HI' & Et & Ec & Ho & Hsub & Hu & Hfr).
  exists k', refs'. split; [done|]. split; [by eapply kinv_consistent|]. split; [done|].
  assert (Hdir : forall id' t', id' <> id -> tasks k !! id' = Some t' -> page_directory t' ∈ dirs /\ page_directory t' <> page_directory t).
  { intros id' t' Hne Hk'. split; [apply elem_of_directories; by exists id', t'|]. intros E. apply Hne.
    by apply (ki_inj _ _ _ _ HI id' id t' t). }
  assert (Hoth : forall id' t' p, id' <> id -> tasks k !! id' = Some t' -> user_page p ->
       walk_page (mem (cpu (vm k'))) (page_directory t') p = walk_page (mem (cpu (vm k))) (page_directory t') p).
  { intros id' t' p Hne Hk' Hp. destruct (Hdir id' t' Hne Hk') as [X1 X2]. by apply Ho. }
  split; [done|]. split; [intros f Hf Hf'; rewrite Hu in Hf' by lia; by bool_facts|].
  intros f Hf. pose proof (ki_core _ _ _ _ HI) as Hco. pose proof (ki_core _ _ _ _ HI') as Hco'.
  change (f * 4096) with (PhysicalMemory.frame_address f) at 1.
  rewrite (PhysicalMemory.reference_count_map _ refs f (co_phys _ _ _ _ _ Hco) Hf).
  assert (Hcnt : counted refs f = true <-> Some (refs !! f) <> Some None) by (unfold counted; by destruct (refs !! f)).
  assert (Hkeep : counted refs' f = true <-> counted refs f = true /\ exists id' t' p, id' <> id /\ tasks k !! id' = Some t' /\
    user_page p /\ walk_page (mem (cpu (vm k))) (page_directory t') p = Some (f * 4096)).
  { apply (exit_keeps k k' refs refs' top dirs id t f); done. }
  rewrite <- Hcnt, (Hu f) by lia. split.
  - intros [Hin Hout]. rewrite Hin in Hout. destruct (dir_frame _ _ f); [by left|right]. rewrite andb_true_r in Hout. apply negb_false_iff, andb_true_iff in Hout as [Hc Hn%negb_true_iff].
    split; [done|]. intros id' t' p X1 X2 X3 X4. enough (counted refs' f = true) by congruence. apply Hkeep. split; [done|]. by exists id', t', p.
  - intros [Hd|[Hc Hn]].
    + split; [by apply (dir_frame_used k refs top dirs (page_directory t)); [| apply elem_of_directories; exists id, t|]|].
      rewrite Hd. apply andb_false_r.
    + unfold counted in Hc. destruct (refs !! f) as [n|] eqn:E; [|done].
      destruct (PhysicalMemory.inv_tracked _ _ (co_phys _ _ _ _ _ Hco) f n E) as (_ & _ & Hin). split; [done|].
      destruct (counted refs' f) eqn:E'; [|unfold counted; by rewrite E, Hin].
      destruct (proj1 Hkeep eq_refl) as (_ & id' & t' & p & X1 & X2 & X3 & X4). by destruct (Hn id' t' p X1 X2 X3).
Qed.

(** Memory for a device: the pages of the range and its bytes. *)
Lemma dma_length bytes : 0 < bytes -> bytes + 0xfff < 2 ^ 32 ->
  (if negb (bytes .& 0xfff =? 0) then u32 ((bytes .& 0xfffff000) + 0x1000) else bytes) / 0x1000 = (bytes + 4095) / 4096.
Proof.
  intros Hb Hov. change (bytes .& 0xfff) with (bytes .& Z.ones 12). rewrite Z.land_ones by lia. change (2 ^ 12) with 4096.
  rewrite land_page_mask by word. case_test; cbn [negb]; word.
Qed.

(** C31: memory for a device is contiguous.  When [DmaRange::for_byte_length]
    answers with a range, every byte that was asked for is mapped in the
    running task, at the physical address that lies as far behind the start of
    the range as the byte lies behind the start of the mapping; no other
    translation changes, and the state stays consistent. *)
Theorem dma_range_contiguous k refs t bytes vaddr paddr n k' :
  consistent k refs -> tasks k !! current_id k = Some t -> 0 < bytes -> bytes + 0xfff < 2 ^ 30 ->
  (exists x, fits ((bytes + 4095) / 4096 * 4096) 0 USER_TOP (memory_mapping t) x) ->
  dma_for_byte_length page_in k bytes = Some (Ok (vaddr, paddr, n), k') ->
  n = (bytes + 4095) / 4096 /\ (exists refs', consistent k' refs') /\
  (forall x, 0 <= x < bytes -> walk (mem (cpu (vm k'))) (page_directory t) (vaddr + x) = Some (paddr + x)) /\
  (forall id t' p, tasks k !! id = Some t' -> user_page p ->
     ~ (id = current_id k /\ vaddr <= p * 4096 < vaddr + n * 4096) ->
     walk_page (mem (cpu (vm k'))) (page_directory t') p = walk_page (mem (cpu (vm k))) (page_directory t') p).
Proof.
  intros HI Hk Hb Hov Hx H. unfold consistent in HI. set (top := scratch_table k) in *. set (dirs := directories k) in *.
  unfold dma_for_byte_length in H. rewrite dma_length in H by lia.
  set (cnt := (bytes + 4095) / 4096) in *. assert (Hc : 0 < cnt < 2 ^ 18 /\ bytes <= cnt * 4096) by (subst cnt; word).
  clearbody cnt.
  unfold dma_with_page_count in H. replace (u32 (cnt * 0x1000)) with (cnt * 4096) in H by word.
  apply bind_Some in H as ([r k1] & Hm & H). destruct r as [loc|]; [|done].
  apply bind_Some in H as ([o k2] & Hp & H). destruct o as [pa|]; [|done]. injection H as -> -> <- ->. split; [done|].
  assert (Hr : MappedMemory.round_size (cnt * 4096) = cnt * 4096).
  { destruct (round_size_spec (cnt * 4096)) as (E & _); [lia|lia|]. rewrite E. word. }
  destruct (map_spec k refs top dirs (current_id k) t None (cnt * 4096) IsaDma (Ok vaddr) k1 HI Hk)
    as (refs1 & HI1 & Ec & _ & Hal & Hfit & Et & Hw); [split; [lia|split; [unfold USER_TOP; lia|by rewrite Hr]]|done|done|].
  rewrite Hr in Hfit. pose proof Hfit as (Hf1 & Hf2 & Hf3).
  set (region := {| MemMappedRegion.address := vaddr; MemMappedRegion.size := cnt * 4096; MemMappedRegion.backed_by := IsaDma |}) in *.
  assert (Hpe : page_end region = vaddr + cnt * 4096) by (unfold page_end; cbn; word).
  set (t1 := {| page_directory := page_directory t; memory_mapping := BTreeMap.insert vaddr region (memory_mapping t) |}) in *.
  assert (Hk1 : tasks k1 !! current_id k1 = Some t1) by (rewrite Ec, Et; apply lookup_insert_eq).
  assert (Hdt : page_directory t ∈ dirs) by (apply elem_of_directories; by exists (current_id k), t).
  assert (Hw1 : forall D p, D ∈ dirs -> user_page p -> walk_page (mem (cpu (vm k1))) D p = walk_page (mem (cpu (vm k))) D p)
    by (intros D p HD Hpp; rewrite Hw by done; cbn; by case_decide).
  destruct (dma_spec page_in k1 refs1 top dirs t1 region vaddr (Some paddr) k' HI1 Hk1) as (HI' & _ & _ & F & HF & Ep & Hw2); try done.
  - unfold USER_TOP in *; lia.
  - apply (get_mapping_spec 0 USER_TOP); [lia|done|by apply (ki_chain _ _ _ _ HI1 _ _ Hk1)|].
    apply (insert_holds (memory_mapping t) vaddr (cnt * 4096) IsaDma vaddr region); try done; try lia;
      [by apply (ki_chain _ _ _ _ HI _ _ Hk)|unfold USER_TOP; lia|by rewrite Hr|]. left. split; [done|lia].
  - intros p Hpp Hrng. rewrite (kinv_cr3 _ _ _ _ _ HI1 Hk1), Hpe in *. cbn [page_directory t1 MemMappedRegion.address region] in *.
    rewrite Hw1 by done. apply (free_range_absent k refs top dirs (current_id k) t p vaddr (vaddr + cnt * 4096)); done.
  - split; [eexists; by eapply kinv_consistent|]. rewrite (kinv_cr3 _ _ _ _ _ HI1 Hk1), Hpe in Hw2.
    cbn [page_directory t1 MemMappedRegion.address region] in *. injection Ep as ->. split.
    + intros x Hx0. assert (Hdm : vaddr + x = (vaddr / 4096 + x / 4096) * 4096 + x mod 4096) by word.
      rewrite Hdm, walk_walk_page by (apply Z.mod_pos_bound; lia).
      assert (Hq : 0 <= x / 4096 < cnt) by word.
      rewrite Hw2 by (done || (unfold user_page, USER_TOP in *; word)).
      rewrite decide_True by (split; [done|word]). cbn. f_equal. word.
    + intros id t' p Hk' Hpp Hn. assert (HD' : page_directory t' ∈ dirs) by (apply elem_of_directories; by exists id, t').
      rewrite Hw2, decide_False by (done || (intros [E ?]; apply Hn; split; [by apply (ki_inj _ _ _ _ HI id (current_id k) t' t)|lia])).
      by apply Hw1.
Qed.

(** C8: a shared buffer is the same memory in both tasks, until it is
    released.  When the running task shares [len] bytes at [vaddr] with
    another task, every byte of the buffer leads to the same physical byte in
    both tasks; the pages it appears at were free in the other task and every
    other translation of that task is untouched.  When the other task runs and
    releases the buffer, the call returns, the pages are gone from it, the
    first task keeps its buffer, and the state is consistent. *)
Theorem shared_buffer_roundtrip k refs id t tc vaddr len addr k1 k2 :
  consistent k refs -> tasks k !! id = Some t -> tasks k !! current_id k = Some tc -> id <> current_id k ->
  0 <= vaddr -> 0 < len -> vaddr + len <= USER_TOP ->
  (exists x, fits (buffer_pages vaddr len * 4096) 0 USER_TOP (memory_mapping t) x) ->
  (forall i, 0 <= i < buffer_pages vaddr len -> ready k (vaddr / 4096 + i)) ->
  share_buffer page_in k id vaddr len = Some (addr, k1) -> switch_space k1 id = Some k2 ->
  let other p := ~ (addr / 4096 <= p < addr / 4096 + buffer_pages vaddr len) in
  (forall x, 0 <= x < len -> exists pa, walk (mem (cpu (vm k1))) (page_directory tc) (vaddr + x) = Some pa /\
     walk (mem (cpu (vm k1))) (page_directory t) (addr + x) = Some pa) /\
  (forall p, user_page p -> if decide (other p)
     then walk_page (mem (cpu (vm k1))) (page_directory t) p = walk_page (mem (cpu (vm k))) (page_directory t) p
     else walk_page (mem (cpu (vm k))) (page_directory t) p = None) /\
  exists k3 refs3, release_buffer page_in k2 addr len = Some k3 /\ consistent k3 refs3 /\
    (forall p, user_page p ->
       walk_page (mem (cpu (vm k3))) (page_directory t) p = walk_page (mem (cpu (vm k))) (page_directory t) p /\
       walk_page (mem (cpu (vm k3))) (page_directory tc) p = walk_page (mem (cpu (vm k1))) (page_directory tc) p).
Proof.
  intros HI Hk Hkc Hid Hv Hl He Hx Hr Hs Hsw other. unfold consistent in HI. set (top := scratch_table k) in *. set (dirs := directories k) in *.
  destruct (share_buffer_spec page_in page_in_words top dirs k refs id t vaddr len addr k1 HI Hk Hid Hv Hl He Hx Hr Hs)
    as (tp & refs1 & l1 & Ea & Hfit & Hsh). set (n := buffer_pages vaddr len) in *.
  destruct (shared_cr3 _ _ _ _ _ _ _ _ _ _ _ _ HI Hk Hid Hsh) as (_ & _ & Hne & Hcd & HD).
  rewrite (kinv_cr3 _ _ _ _ _ HI Hkc) in Hne, Hcd.
  destruct (buffer_pages_spec vaddr len Hv Hl He) as (_ & _ & Hn & Hend & _ & _). fold n in Hn, Hend.
  assert (Hvm : 0 <= vaddr mod 4096 < 4096) by (apply Z.mod_pos_bound; lia).
  assert (Etp : addr / 4096 = tp /\ addr mod 4096 = vaddr mod 4096) by (subst addr; word). destruct Etp as [Etp Eam].
  destruct Hfit as (Hf1 & Hf2 & Hf3). unfold other. rewrite Etp.
  assert (Hnew : forall p, user_page p -> tp <= p < tp + n -> walk_page (mem (cpu (vm k))) (page_directory t) p = None).
  { intros p Hp Hr'. apply (free_range_absent k refs top dirs id t p (tp * 4096) (tp * 4096 + n * 4096)); try done; [word|lia]. }
  assert (Hold : forall p, user_page p -> ~ (tp <= p < tp + n) ->
    walk_page (mem (cpu (vm k1))) (page_directory t) p = walk_page (mem (cpu (vm k))) (page_directory t) p).
  { intros p Hp Hr'. apply (sh_other _ _ _ _ _ _ _ _ _ _ _ Hsh); [done|done|intros [? _]|intros [_ ?]; done].
    rewrite (kinv_cr3 _ _ _ _ _ HI Hkc) in *. congruence. }
  split; [|split; [intros p Hp; case_decide; [by apply Hold|apply Hnew; [done|lia]]|]].
  - intros x Hx0. rewrite <- (kinv_cr3 _ _ _ _ _ HI Hkc), Ea. by apply (shared_bytes top dirs k k1 refs1 id t l1 vaddr tp len).
  - destruct (switch_spec k1 refs1 top dirs id k2 (sh_inv _ _ _ _ _ _ _ _ _ _ _ Hsh) Hsw) as (HI2 & Et2 & Ec2 & _ & Em2).
    assert (Hk2 : tasks k2 !! current_id k2 = Some {| page_directory := page_directory t; memory_mapping := l1 |})
      by (rewrite Et2, Ec2, (sh_tasks _ _ _ _ _ _ _ _ _ _ _ Hsh); apply lookup_insert_eq).
    assert (En : buffer_pages addr len = n) by (subst n; unfold buffer_pages; by rewrite Eam).
    destruct (release_buffer_spec page_in top dirs k2 refs1 _ addr len HI2 Hk2) as (k3 & refs3 & Hrel & HI3 & _ & _ & Hw).
    + subst addr. lia.
    + done.
    + subst addr n. unfold buffer_pages in *. word.
    + rewrite En, Etp, Em2, (kinv_cr3 _ _ _ _ _ HI2 Hk2). cbn [page_directory]. intros i Hi.
      destruct (sh_same _ _ _ _ _ _ _ _ _ _ _ Hsh i Hi) as (F & _ & ->). done.
    + cbn [page_directory] in Hw. rewrite En, Etp in Hw. exists k3, refs3. split; [done|]. split; [by eapply kinv_consistent|].
      intros p Hp. rewrite !Hw, Em2 by done. split; [|rewrite decide_False; [done|intros [? _]; congruence]].
      case_decide as Hc; [symmetry; apply Hnew; [done|tauto]|apply Hold; [done|tauto]].
Qed.
End Steps.

(** ** A machine with two tasks

    64 frames; the scratch table is frame 3, the directories are frames 2 and
    4.  Task 1 runs and has three pages of memory that it has not touched. *)
Definition example_mem : memory :=
  list_to_map [(0x2ff8, 0x3003); (0x2ffc, 0x2003); (0x4ff8, 0x3003); (0x4ffc, 0x4003)].
Definition example : Kernel :=
  {| vm := {| cpu := {| mem := example_mem; cr3 := 0x2000; tlb := ∅; SCRATCH_PAGES := 0 |};
              phys := {| PhysicalMemory.ALLOCATOR := {| FrameBitmap.map := [0x1f; 0; 0; 0; 0; 0; 0; 0] |};
                         PhysicalMemory.FRAME_REF_TRACKER := Tracking.new |} |};
     tasks := {[ 1 := {| page_directory := 0x2000; memory_mapping :=
                  [(0x400000, {| MemMappedRegion.address := 0x400000; MemMappedRegion.size := 0x3000;
                                 MemMappedRegion.backed_by := FreeMemory |})] |};
                 2 := {| page_directory := 0x4000; memory_mapping := [] |} ]};
     current_id := 1; FILE_BACKED_PAGE_TRACKER := ∅; SHARED_MEMORY_REFCOUNT := RefCountMap.new |}.

Lemma example_load a : load example_mem a =
  if a =? 0x2ff8 then 0x3003 else if a =? 0x2ffc then 0x2003 else
  if a =? 0x4ff8 then 0x3003 else if a =? 0x4ffc then 0x4003 else 0.
Proof.
  unfold load, example_mem. cbn [list_to_map foldr fst snd].
  case_test; [subst; by rewrite lookup_insert_eq|rewrite lookup_insert_ne by lia].
  case_test; [subst; by rewrite lookup_insert_eq|rewrite lookup_insert_ne by lia].
  case_test; [subst; by rewrite lookup_insert_eq|rewrite lookup_insert_ne by lia].
  case_test; [subst; by rewrite lookup_insert_eq|rewrite lookup_insert_ne by lia].
  by rewrite lookup_empty.
Qed.

Lemma example_entry D i : D = 0x2000 \/ D = 0x4000 -> 0 <= i < 1023 -> is_present (load example_mem (D + 4 * i)) = true ->
  i = 1022 /\ table_of example_mem D i = 0x3000.
Proof.
  intros HD Hi. assert (i = 1022 \/ load example_mem (D + 4 * i) = 0) as [->|E].
  { rewrite example_load. repeat case_test; try lia. }
  - intros _. split; [done|]. unfold table_of. rewrite example_load. by destruct HD as [-> | ->].
  - by rewrite E.
Qed.

Lemma example_dirs id t : tasks example !! id = Some t ->
  id = 1 /\ page_directory t = 0x2000 \/ id = 2 /\ page_directory t = 0x4000 /\ memory_mapping t = [].
Proof.
  cbn [tasks example]. intros H. apply lookup_insert_Some in H as [[<- <-]|[_ H]]; [by left|].
  apply lookup_singleton_Some in H as [<- <-]. by right.
Qed.

Lemma example_absent D p : D = 0x2000 \/ D = 0x4000 -> user_page p -> walk_page example_mem D p = None.
Proof.
  intros HD Hp. unfold walk_page, pde_addr. destruct (is_present _) eqn:E; [|done].
  apply (example_entry D (p / 1024)) in E; [|done|unfold user_page in Hp; word]. unfold user_page in Hp. word.
Qed.

Lemma example_consistent : consistent example ∅.
Proof.
  apply (kinv_consistent _ _ 0x3000 {[0x2000; 0x4000]}).
  assert (Hin : forall D, D ∈ ({[0x2000; 0x4000]} : gset Z) <-> D = 0x2000 \/ D = 0x4000) by (intros D; by rewrite elem_of_union, !elem_of_singleton).
  assert (Hsep : separate example_mem 0x3000 {[0x2000; 0x4000]}).
  { split; try (intros D HD%Hin).
    - intros a. rewrite example_load. repeat case_test; done.
    - destruct HD as [-> | ->]; done.
    - unfold table_of. rewrite example_load. destruct HD as [-> | ->]; done.
    - unfold table_of. rewrite example_load. destruct HD as [-> | ->]; done.
    - intros D D' i i' HD%Hin HD'%Hin Hi Hi' Hpr Hpr' _. apply example_entry in Hpr as [-> _]; [|done|done].
      apply example_entry in Hpr' as [-> _]; [|done|done]. split; [done|]. right. lia.
    - intros D D' i HD%Hin HD'%Hin Hi Hpr. apply example_entry in Hpr as [_ ->]; [|done|done]. destruct HD'; subst; done. }
  split; [split; cbn [vm example cpu phys mem]|..].
  - apply PhysicalMemory.booted_inv. split; [|done]. split; [repeat constructor; done|vm_compute; done].
  - split; [done|intros p F _ H; cbn [tlb] in H; by rewrite lookup_empty in H|]. cbn. apply Hin. by left.
  - done.
  - intros F HF. assert (F = 0x2000 \/ F = 0x3000 \/ F = 0x4000) as HF'.
    { destruct HF as [->|[HD%Hin|(D & i & HD%Hin & Hi & Hpr & <-)]]; [tauto|tauto|]. apply example_entry in Hpr as [_ ->]; tauto. }
    by destruct HF' as [-> | [-> | ->]].
  - intros D p F HD%Hin Hp Hw. rewrite example_absent in Hw by done. done.
  - intros f n Hf. by rewrite lookup_empty in Hf.
  - intros D. rewrite Hin. split.
    + intros [-> | ->]; [exists 1|exists 2]; eexists; (split; [reflexivity|done]).
    + intros (id & t & Hk & <-). apply example_dirs in Hk as [[_ ->]|(_ & -> & _)]; tauto.
  - intros id1 id2 t1 t2 H1%example_dirs H2%example_dirs E.
    destruct H1 as [[-> X1]|(-> & X1 & _)], H2 as [[-> X2]|(-> & X2 & _)]; congruence.
  - eexists. split; [reflexivity|done].
  - intros id t Hk. cbn [tasks example] in Hk. apply lookup_insert_Some in Hk as [[<- <-]|[_ Hk]].
    + cbn. unfold region_ok, page_end, USER_TOP. cbn. split_and!; try done; lia.
    + apply lookup_singleton_Some in Hk as [<- <-]. done.
  - intros id t p F Hk Hp Hw. cbn [vm example cpu mem] in Hw. rewrite example_absent in Hw; [done| |done].
    apply example_dirs in Hk as [[_ ->]|(_ & -> & _)]; tauto.
Qed.

(** A driver that stores two words in the page. *)
Definition example_driver (driver token offset : Z) : result Z unit * list Z := (Ok 0, [u32 driver; u32 offset]).

Lemma example_driver_words driver token offset : Forall is_u32 (example_driver driver token offset).2.
Proof. repeat constructor; word. Qed.

Lemma example_share : exists k1 k2, share_buffer example_driver example 2 0x400010 0x1800 = Some (0xbfffe010, k1) /\
  switch_space k1 2 = Some k2.
Proof.
  assert ((fun '(a, k) => (a, match switch_space k 2 with Some _ => true | None => false end)) <$>
    share_buffer example_driver example 2 0x400010 0x1800 = Some (0xbfffe010, true)) as H by (vm_compute; reflexivity).
  destruct (share_buffer _ _ _ _ _) as [[a k1]|]; [|done]. cbn [fmap option_fmap option_map] in H.
  destruct (switch_space k1 2) as [k2|] eqn:E; [|done]. exists k1, k2. by simplify_eq.
Qed.

(** ** Two ways out of the isolation *)

(** Two pages of [example] are touched and cached by the hardware, then
    unmapped; then a page in another part of the address space is touched. *)
Definition stale_run (k : Kernel) : option Kernel :=
  '(_, k) ← page_on_demand example_driver k 0x400000;
  '(_, k) ← page_on_demand example_driver k 0x401000;
  let k := with_vm k (with_cpu (vm k) (Mmu.tlb_fill (cpu (vm k)) 0x401000)) in
  '(_, k) ← unmap_memory k 0x400000 0x2000;
  '(_, k) ← map_memory k (Some 0x800000) 0x1000 FreeMemory;
  '(_, k) ← page_on_demand example_driver k 0x800000;
  Some k.


(** Two tasks map the same two pages of a file, shared, and task 1 has a page
    of its own memory. *)
Definition file_region : Z * MemMappedRegion.t :=
  (0x400000, {| MemMappedRegion.address := 0x400000; MemMappedRegion.size := 0x2000;
                MemMappedRegion.backed_by := FileBacked 9 3 0 true |}).
Definition example_files : Kernel :=
  with_tasks example
    {[ 1 := {| page_directory := 0x2000; memory_mapping :=
         [file_region; (0x800000, {| MemMappedRegion.address := 0x800000; MemMappedRegion.size := 0x1000;
                                     MemMappedRegion.backed_by := FreeMemory |})] |};
       2 := {| page_directory := 0x4000; memory_mapping := [file_region] |} ]}.

(** Task 1 reads the second page of the file and unmaps the file, then it
    touches its own page; task 2 reads the second page of the file. *)
Definition file_run (k : Kernel) : option Kernel :=
  '(_, k) ← page_on_demand example_driver k 0x401000;
  '(_, k) ← unmap_memory k 0x400000 0x2000;
  '(_, k) ← page_on_demand example_driver k 0x800000;
  k ← switch_space k 2;
  '(_, k) ← page_on_demand example_driver k 0x401000;
  Some k.


(** ** Witnesses *)

Definition example_region : MemMappedRegion.t :=
  {| MemMappedRegion.address := 0x400000; MemMappedRegion.size := 0x3000; MemMappedRegion.backed_by := FreeMemory |}.
Definition example_task : AddressSpace := {| page_directory := 0x2000; memory_mapping := [(0x400000, example_region)] |}.

Lemma example_task_1 : tasks example !! current_id example = Some example_task.
Proof. reflexivity. Qed.
Lemma example_region_1 :
  MappedMemory.get_mapping_containing_address (memory_mapping example_task) 0x400010 = Some example_region.
Proof. reflexivity. Qed.
Lemma example_free f : f = 5 \/ f = 6 -> 0 <= f < frames (vm example) /\ in_use (vm example) f = false.
Proof. intros [-> | ->]; by vm_compute. Qed.
Lemma example_page_absent : absent example (0x400010 / 4096).
Proof. apply example_absent; [by left|]. by vm_compute. Qed.

Lemma example_range : 0 <= 0x400010 < USER_TOP.
Proof. done. Qed.

Lemma example_fault : exists r k1, page_on_demand example_driver example 0x400010 = Some (r, k1).
Proof.
  destruct (example_free 5 ltac:(lia)), (example_free 6 ltac:(lia)).
  apply (fault_returns example_driver example_driver_words example ∅ _ _ 0x400010 example_region example_task 5 6 example_consistent
    example_task_1 example_range example_region_1 eq_refl); lia || done.
Qed.

Lemma example_fault_tasks r k1 : page_on_demand example_driver example 0x400010 = Some (r, k1) -> tasks k1 = tasks example.
Proof.
  intros H. destruct (fault_cases example_driver example_driver_words example ∅ _ _ 0x400010 r k1 example_region example_task
    example_consistent example_task_1 example_range example_region_1 eq_refl example_page_absent H) as [(F & _ & Hf)|(_ & _ & Et & _)];
    [exact (fa_tasks _ _ _ _ _ _ _ _ Hf)|exact Et].
Qed.


Lemma page_fault_witness : exists r k1, page_on_demand example_driver example 0x400010 = Some (r, k1) /\
  tasks k1 = tasks example /\ exists F, r = Some (F + 0x10) /\ load (mem (cpu (vm k1))) (F + 4 * 4) = 0.
Proof.
  destruct (example_free 5 ltac:(lia)) as [A1 A2], (example_free 6 ltac:(lia)) as [B1 B2].
  destruct (page_fault_gives_clean_memory example_driver example_driver_words example ∅ 0x400010 example_region example_task
    5 6 example_consistent example_task_1 example_range example_region_1 eq_refl example_page_absent A1 A2 B1 B2 ltac:(lia))
    as (r & k1 & H1 & _ & Et & _ & F & Hr & _ & _ & Hw).
  exists r, k1. split; [exact H1|]. split; [exact Et|]. exists F. split; [exact Hr|]. apply (Hw 4). lia.
Defined.

Lemma exit_gives_memory_back_witness : exists k1, clean_up_memory example 2 = Some k1 /\ in_use (vm k1) 4 = false.
Proof.
  destruct (exit_gives_memory_back example ∅ 2 {| page_directory := 0x4000; memory_mapping := [] |} example_consistent eq_refl ltac:(done))
    as (k1 & refs1 & H1 & _ & _ & _ & _ & Hf).
  exists k1. split; [exact H1|]. apply Hf; [clear; by vm_compute|]. left. clear. by vm_compute.
Defined.

Lemma shared_buffer_witness : exists k1 k2 k3, share_buffer example_driver example 2 0x400010 0x1800 = Some (0xbfffe010, k1) /\
  switch_space k1 2 = Some k2 /\ release_buffer example_driver k2 0xbfffe010 0x1800 = Some k3.
Proof.
  assert (0 <= 0x400010 /\ 0 < 0x1800 /\ 0x400010 + 0x1800 <= USER_TOP /\ 2 <> current_id example) as (X1 & X2 & X3 & X4) by done.
  destruct example_share as (k1 & k2 & Hs & Hsw).
  destruct (shared_buffer_roundtrip example_driver example_driver_words example ∅ 2 {| page_directory := 0x4000; memory_mapping := [] |}
    example_task 0x400010 0x1800 0xbfffe010 k1 k2 example_consistent eq_refl example_task_1 X4 X1 X2 X3)
    as (_ & _ & k3 & refs3 & Hr & _); [| |exact Hs|exact Hsw|].
  - clear. exists 0. split; [done|]. split; [done|]. constructor.
  - clear. intros i Hi. right. exists example_task, example_region. split; [apply example_task_1|]. split; [|reflexivity].
    assert (i = 0 \/ i = 1) as [-> | ->] by (change (buffer_pages 0x400010 0x1800) with 2 in Hi; lia); reflexivity.
  - exists k1, k2, k3. exact (conj Hs (conj Hsw Hr)).
Defined.

Lemma example_dma : exists k1, dma_for_byte_length example_driver example 0x1800 = Some (Ok (0xbfffe000, 0x5000, 2), k1).
Proof.
  assert (fst <$> dma_for_byte_length example_driver example 0x1800 = Some (Ok (0xbfffe000, 0x5000, 2))) as H
    by (vm_compute; reflexivity).
  destruct (dma_for_byte_length _ _ _) as [[a k1]|]; [|done]. cbn in H. simplify_eq. by exists k1.
Qed.

Lemma dma_range_witness : exists k1, dma_for_byte_length example_driver example 0x1800 = Some (Ok (0xbfffe000, 0x5000, 2), k1) /\
  walk (mem (cpu (vm k1))) 0x2000 (0xbfffe000 + 0x1234) = Some (0x5000 + 0x1234).
Proof.
  assert (0 < 0x1800 /\ 0x1800 + 0xfff < 2 ^ 30) as [X1 X2] by done.
  assert (exists x, fits ((0x1800 + 4095) / 4096 * 4096) 0 USER_TOP (memory_mapping example_task) x) as X3.
  { exists 0. split; [done|]. split; [done|]. constructor; [by right|constructor]. }
  destruct example_dma as (k1 & H).
  destruct (dma_range_contiguous example_driver example ∅ example_task 0x1800 0xbfffe000 0x5000 2 k1 example_consistent
    example_task_1 X1 X2 X3 H) as (_ & _ & Hw & _).
  exists k1. split; [exact H|]. apply (Hw 0x1234). lia.
Defined.
